(* ===== verification/_CoqProject ===== *)
-Q . S2P
Prelude.v
Collections.v
Number.v
Json.v
JsonParse.v
JsText.v
Events.v
Graph.v
Fork.v
Projection.v
Scopes.v
Phases.v
Lineage.v
Llm.v
Recovery.v
RecoveryFacts.v
CheckRules.v
CheckRulesFacts.v
ToolView.v
Gateway.v
RuleTemplate.v
RuleTemplateFacts.v
Workflow.v
WorkflowFacts.v
Store.v
StoreFacts.v
Submission.v
Planner.v
ProposalFacts.v
PlannerFacts.v
Router.v
RouterProofs.v
RecoveryLoop.v
ReadExecutor.v
ReadExecutorFacts.v
Oracles.v
OracleFacts.v
OracleRuns.v
Console.v
ConsoleFacts.v
ConsoleSurface.v
ConsoleStream.v
ConsoleWire.v
ConsoleDecode.v
ConsoleTail.v
ConsoleClient.v
Uri.v
ConsoleServer.v
ConsoleSession.v
ConsoleSource.v
Inspector.v
Layout.v
Shell.v
Views.v
Sdk.v
SdkService.v
BusinessStream.v
Configuration.v
DbSetup.v
Supervisor.v
Deployment.v
Rows.v
Generate.v
