(* ===== verification/Prelude.v ===== *)
(** * Flory, verified

    A verification library of Flory (TypeScript): a workflow engine (engine/src) whose runs are
    append-only event logs, the console that shows a run as it grows (console/server, console/client),
    the SDK a tool service is written with (sdk/typescript), the scripts that set up its database
    (db), and the supervisor that drives a run and the generator of the shared types (scripts). Authors, planners and rules propose sub-graphs; the engine normalizes a proposal, admits or
    refuses it under the run's transaction scopes, freezes it as [vertex/created] events, routes
    deterministically by published rules, and recovers from failures by choosing a replan boundary in
    the log.

    ** How the parts interact

    A submission ([WorkflowSubmitter.submit]) discovers a tool view through the gateway client,
    records [subgraph/proposed], and decides inside [EventStore.freezeUnderScopeLock]: scope admission,
    the check rules, the binding and admission of rule templates, then compilation to vertex drafts.
    A router vertex ([RouterExecutor.evaluate]) reads its pinned template and the summary fields of
    its upstream tools from the log and submits the branch that matches. A failure is answered by
    [RecoveryLoop.recoverOne]: under [EventStore.appendUnderScopeLock] it folds the log into scopes,
    lineage and surface, selects a boundary, and appends the decision; a replan decision hands a turn
    to the planner ([PlannerLoop], [PlannerExecutor]), which prompts the model through the LLM client,
    records the answer and submits the proposal it parses. Read vertices are run by the read executor
    under leases. A fork copies the causally unaffected part of a run under substituted pins. Every
    reader works on the same event log, and the harness's oracles judge a log as a whole. Beside the
    run log the store keeps the business plane: facts per entity, each caused by an event of a run, and
    the configuration stream that rule templates are published to.

    The console folds the same log a second time. A tailer polls a run, folds each batch into the
    operator's graph ([advanceConsoleDag]), and hands the deltas to its subscribers; a request for the
    stream is answered with a replay from its buffer or a snapshot, as server-sent events; the browser
    applies them to its copy without folding anything, lays the graph out and draws it. A tool service
    checks its contracts with the SDK before it registers them, by rules that mirror the gateway's
    admission, keeps its registration alive, and executes one attempt per request.

    The supervisor closes the loop: a pass executes the reads that wait, lets recovery answer a failure,
    evaluates every router that is ready and gives one planner its turn; when a pass moves nothing it
    waits until the Coordinator, another process over the same log, has done what it owes.

    ** Files

    - Prelude.v: exceptions ([result]), decidable equality as booleans, list, string and sorting
      lemmas, the tactics [bool_prop] and [case_eqb], the notation scope.
    - Collections.v: JavaScript's Map and Set in insertion order, the stable [Array.prototype.sort]
      ([js_sort]) under a [Comparator], code-unit comparison, and [localeCompare] as the class
      [Collation] (documented of the runtime: a total preorder; [strcmp] is an instance).
    - Number.v: numbers as binary64 values (the standard library's [spec_float]), printing,
      parsing, and the integer and safe-integer tests.
    - JsonParse.v, JsText.v: [JSON.parse], [JSON.stringify] and the replacement that takes a secret
      out of a message.
    - Json.v: values, property access, the canonical texts of log/events.ts ([canonicalJson]) and
      gateway/tool-view.ts ([canonicalize]), and that they determine the value up to member order.
    - Events.v: log/events.ts and generated/event-log.ts: event types, drafts, stored rows.
    - Graph.v: work-list reachability, shared by every graph search.
    - Fork.v: the causal part of log/store.ts ([causalDescendants], [computeForkSlice]).
    - Projection.v: log/projection.ts ([surface], [slice], [linearize], [assemble]).
    - Scopes.v, Phases.v, Lineage.v, Recovery.v, RecoveryFacts.v, RecoveryLoop.v: recovery.ts, from
      the log folds (Phases: a scope as a state machine) to the decision ladder, one attempt of the
      loop, and the recovery prompt.
    - Llm.v, Planner.v, ProposalFacts.v, PlannerFacts.v: planner/llm-client.ts, planner-loop.ts and
      planner-executor.ts: configuration, the call with its retries and redaction, the parser of
      proposals and the turn.
    - ReadExecutor.v, ReadExecutorFacts.v: the read executor and its leases.
    - Oracles.v, OracleFacts.v, OracleRuns.v: harness/oracles.ts and runner.ts, and that logs the
      engine writes pass them.
    - CheckRules.v, CheckRulesFacts.v: admission/check-rules.ts, rules R1 to R14 and freeze admission.
    - ToolView.v, Gateway.v: gateway/tool-view.ts and gateway/gateway-client.ts.
    - RuleTemplate.v, RuleTemplateFacts.v: router/rule-template.ts, publication and the store.
    - Workflow.v, WorkflowFacts.v: admission/workflow.ts, from normalization to drafts and keys.
    - Store.v, StoreFacts.v: log/store.ts over the class [Database], whose laws ([DatabaseLaws]) state
      what the SQL functions of db/migrations promise; [MemoryDb] translates those functions and
      discharges the laws, so every witness runs.
    - Submission.v: admission/submission.ts.
    - Router.v, RouterProofs.v: router/router.ts and router/router-executor.ts.
    - BusinessStream.v, Configuration.v: the business plane of log/store.ts over the tables, triggers
      and functions of db/migrations/010 and 011, and publications through it.
    - Console.v, ConsoleFacts.v, ConsoleSurface.v: console/server/src/projection (the fold, its deltas,
      the inspector bodies, the oracle over both projections), and how it relates to the surface.
    - ConsoleStream.v, ConsoleTail.v, ConsoleWire.v: console/server/src/stream: cursors, the resume
      decision, the buffer, the tailer as a step relation with folds that throw midway, and frames.
    - ConsoleDecode.v: the JSON of a frame parsed and read back as the typed event.
    - ConsoleServer.v (with Uri.v: percent-encoding): server.ts and reader.ts, one request from its
      path to its reply, and an open stream.
    - ConsoleClient.v, ConsoleSource.v, ConsoleSession.v: console/client/src/stream: applying events,
      the line protocol, listeners and status of a connection, and the whole way from the tailer to
      the browser's copy across a reconnect.
    - Inspector.v: console/client/src/inspector/detail.ts and useVertexDetail.ts, the drawer over the
      handler of ConsoleServer.v.
    - Layout.v: console/client/src/graph/layout.ts and toFlow.ts.
    - Shell.v, Views.v: App.tsx, shell/AppShell.tsx and graph/DagCanvas.tsx as a session (selection, tab,
      viewport, announced growth), and the markup of every component with the theme.
    - Sdk.v, SdkService.v: sdk/typescript/contract.ts beside the admission rules of
      gatewayd/internal/registry/admission.go, and service.ts over the interface [RegistryService].
    - DbSetup.v: db/config.ts, db/bootstrap.ts and db/migrate.ts.
    - Supervisor.v, Deployment.v: scripts/demo/b2b2c-retail.ts over the class [Engine] with its laws
      ([EngineLaws], [Clock]), and the executors of the files above as an instance, other processes
      acting before every step.
    - Rows.v: the row mapping of log/store.ts, with the runtime's dates.
    - Generate.v: scripts/generate-event-types.mjs.

    ** Reading the models

    A class of the source with state is a record passed in and out; a method that may throw returns a
    [result] whose message is the source's; an asynchronous method is the sequence of its awaited
    steps, each over the database state it finds. A closure that leaves values in the caller's
    variables returns them beside its decision. Definitions keep the source's names; a helper without
    a name in the source is named after the step it translates.

    What the source takes from outside is a parameter: SHA-256 and [randomUUID] (distinct ids where a
    theorem says so), the Ajv validator of the event schema, [fetch] in the gateway and LLM clients, URL
    parsing, the process environment, the clock, the configuration sink of template publication (the
    business plane discharges it in Configuration.v), the planner call of the recovery loop and the
    model call of the planner, the collation of the runtime, what each query of the console's reader
    answers, the gateway's JSON-schema compiler and its registration surface, the message of a syntax
    error, the effect of a migration file, what React Flow measures, how a date is shown
    locally, and what other processes do to the database and to the clock between two steps of the
    supervisor. No property of a hash is assumed: where content addressing is
    the point, the theorems exhibit the two texts that would have to collide.

    ** What the theorems show

    - Recovery (Scopes, Lineage, RecoveryFacts): the folds are exact readings of the log; a recorded
      boundary is legal, cheapest and closed; the ladder always decides; a recorded decision answers
      its failure; an attempt acts on the oldest failure that is not waiting; the scope fold is the
      run of an explicit state machine.
    - Admission (CheckRulesFacts, WorkflowFacts, Submission): the checker accepts exactly the
      proposals its rules describe over the real causal order; normalization and the topological
      order are characterized with their failure cases; compiled drafts are causally ordered; a
      submission is answered in the log or throws leaving at most its proposal.
    - Store (StoreFacts, Fork): freezes, recovery appends and forks are atomic; a fork slice is the
      causal partition of the window; idempotency keys are live or fresh. A row reads back as its event
      below position 2^53, and a date as its instant (Rows).
    - Routing (RuleTemplateFacts, RouterProofs): what publication admits and what it leaves unchecked; the
      capability envelope is tight; pins resolve; evaluation is first match; conditions read only declared fields; a router
      vertex has one trajectory.
    - Planner and reads (PlannerFacts, ProposalFacts, ReadExecutorFacts): an answer is classified
      exactly; a turn has the recorded trajectories and no other; secrets do not reach a message; a
      read is leased, run and answered once.
    - Oracles (OracleFacts, OracleRuns): the runs the modelled engine writes satisfy the harness's
      oracles for cancellation order, single requests, single answers and admission.
    - Business plane (BusinessStream, Configuration): streams are gap-free and name their causes, forks
      are quarantined, a domain append is one step on both planes or none, and the recorded diffs of the
      configuration stream rebuild what the index of one publisher holds, for every template that never
      dropped two branches at once.
    - Console (ConsoleFacts, ConsoleSurface, ConsoleTail, ConsoleSession, ConsoleSource): where a reader
      cuts the log does not show; the console and the planner agree on what is active; in every
      interleaving of writers, timers and failing polls the tailer follows its log as long as it can read
      it, and catches up once the log stands still; a resumed client is sent exactly what it missed; the
      text written is the events received; and a browser that reconnects to a run without discards
      converges to the server's model.
    - Requests and canvas (ConsoleServer, Inspector, Layout): only well-formed reads are served, every
      refusal has its reply, and only a stream changes what the server holds; once settled, the drawer
      shows what the server says of the selected vertex, in every interleaving of clicks and answers; a
      card is drawn where the layout puts it and an edge for each reference; a box is drawn only around
      all the members of a scope and nothing else.
    - Session and views (Shell, Views): what arrives on the stream moves neither the viewport nor a card
      nor the operator's place, and is announced once; a run opened from an address is the run it names; a
      counterfactual is labelled as one; the page is drawn on every model without an object where it
      draws text.
    - Supervisor (Supervisor, Deployment): a router or planner is handed out once, and only when every
      parent has succeeded and no replan has discarded it; a wait ends, for a reason it read in the log.
    - Generator (Generate): a generation passes its check and reads back as the vocabulary of the schema;
      the two languages agree on every payload but one.
    - SDK (Sdk, SdkService): the startup check decides every structural rule of the gateway but the four
      kinds named there; registrations do not depend on declaration order; an attempt calls at most one
      declared handler, once.
    - Setup (DbSetup): quoted names and passwords cannot change a statement; bootstrap and migration
      runs are idempotent; a migration run that failed resumes to the state of an undisturbed one.
    - Context and tool views (Projection, ToolView, Gateway): the surface, slice and prompt are
      functions of the right events; digests bind content; discovery fails closed.

    ** Bounds and fuel

    Searches that are not structural run on fuel that is a function of the input: [worklist] on the
    number of created vertices plus the root ([worklist_reachable] proves it always ends within it),
    [levels] of [ancestorPlanners] on the number of parent references, [visitAncestors] and [visit]
    on the number of vertices. Each has a theorem that the fuel never runs out on an input the source
    terminates on. Positions are [Z]; where the source does arithmetic on numbers the model uses
    binary64, and the range conditions are that idempotency generations stay below 2^53 - 1 and that
    the positions an admission oracle compares as numbers stay below 2^53. [Uri.decode] runs on the
    length of its text plus one, which every character it reads uses up; the frames of a stream carry
    positions that are not negative; the numbers of a contract are binary64 values and reach the gateway
    as the 32-bit unsigned fields of the message, where a value outside them is not a message at all. The supervisor runs [MAX_TURNS] passes; its
    wait polls on fuel, and 122 polls cover the timeout of a minute ([supervised_wait]); the loop over
    waiting reads ends where each read leaves fewer to claim ([drain_returns]).
    Strings hold Latin-1 code points; characters beyond them are not represented, and the code
    compares, splits and escapes strings only at ASCII characters.

    ** Not modelled

    Connection pooling, the database driver, and processes (listening, signals, environment files);
    of the views, attributes only assistive technology reads, styles and icon glyphs, and the insides of
    React and React Flow; what the supervisor prints; generated protobuf bindings and the HTTP/2
    transport of the SDK; the Ajv validator, a library; scripts that only start processes, call
    compilers or record fixtures; the coordinator and gateway services, which are not TypeScript, but
    for the admission rules the SDK mirrors, and with them the triggers that derive scope and bracket
    rows for the Coordinator. A property that every JavaScript object inherits is not found by the
    lookups of the models. A buffered delta whose vertex was created a second time under the same id, which
    no writer does, is taken as it was sent. [JSON.parse] keeps the order of members as
    written, where the language moves integer-like keys first; no modelled code reads that order. *)

From Stdlib Require Export Ascii.
From stdpp Require Export base option list sets strings sorting pretty relations.
From Stdlib Require Export ZArith Lia.

#[export] Set Default Goal Selector "!".

Declare Scope flory_scope.
Delimit Scope flory_scope with flory.
Open Scope flory_scope.
Open Scope Z_scope.

(** ** Exceptions

    A TypeScript function that may [throw] returns a [result]; the message is the one the source
    builds. *)
Inductive result (A : Type) : Type :=
| Ok (a : A)
| Throw (msg : string).
Arguments Ok {A} a.
Arguments Throw {A} msg.

#[global] Instance result_ret : MRet result := fun A a => Ok a.
#[global] Instance result_bind : MBind result := fun A B k m =>
  match m with Ok a => k a | Throw e => Throw e end.

Definition is_ok {A} (r : result A) : bool := match r with Ok _ => true | Throw _ => false end.

(** [for (const x of xs) s = body(s, x)] where the body may throw. *)
Fixpoint foldM {S A} (body : S -> A -> result S) (s : S) (xs : list A) : result S :=
  match xs with
  | [] => Ok s
  | x :: xs => s' ← body s x; foldM body s' xs
  end.

(** [xs.map(f)] where [f] may throw. *)
Fixpoint mapR {A B} (f : A -> result B) (xs : list A) : result (list B) :=
  match xs with
  | [] => Ok []
  | x :: xs => y ← f x; ys ← mapR f xs; Ok (y :: ys)
  end.

(** ** Strict equality on decidable types *)
Definition eqb {A} `{EqDecision A} (x y : A) : bool := bool_decide (x = y).
Notation "x ==? y" := (eqb x y) (at level 70, no associativity) : flory_scope.
Notation "x !=? y" := (negb (eqb x y)) (at level 70, no associativity) : flory_scope.

(** ** Arrays *)

(** [xs.includes(x)] *)
Definition includes {A} `{EqDecision A} (x : A) (xs : list A) : bool := existsb (fun y => y ==? x) xs.
Arguments includes : simpl never.

(** [xs.find(p)] *)
Abbreviation find := List.find.
(** [xs.filter(p)] with a boolean callback *)
Abbreviation filter_by := List.filter.

(** [a || b] on the numbers a comparator returns *)
Definition zor (a b : Z) : Z := if Z.eqb a 0 then b else a.

(** [xs.entries()] *)
Definition entries_from {A} (n : nat) (xs : list A) : list (nat * A) := combine (seq n (length xs)) xs.
Definition entries {A} (xs : list A) : list (nat * A) := entries_from 0 xs.

(** [xs.join(sep)] *)
Fixpoint join (sep : string) (xs : list string) : string :=
  match xs with
  | [] => ""
  | [x] => x
  | x :: xs => x +:+ sep +:+ join sep xs
  end.

(** Numbers inside template literals: the decimal text of an integer. *)
Definition zstr (z : Z) : string := pretty z.
Definition nstr (n : nat) : string := pretty (Z.of_nat n).

(** A nullable string as a condition: [null], [undefined] and the empty string are falsy. *)
Definition truthy (o : option string) : option string :=
  match o with Some "" => None | _ => o end.

(** [s.slice(0, n)] on a string *)
Fixpoint take_str (n : nat) (s : string) : string :=
  match n, s with
  | S n, String c s => String c (take_str n s)
  | _, _ => ""
  end.

Fixpoint drop_str (n : nat) (s : string) : string :=
  match n, s with
  | S n, String _ s => drop_str n s
  | _, _ => s
  end.

(** [s.startsWith(p)] *)
Fixpoint starts_with (p s : string) : bool :=
  match p, s with
  | "", _ => true
  | String a p, String b s => (a ==? b) && starts_with p s
  | _, _ => false
  end.

(** ** Lemmas: the monad *)
Create HintDb flory.

Lemma bind_Ok {A B} (k : A -> result B) (m : result A) (b : B) :
  m ≫= k = Ok b <-> exists a, m = Ok a /\ k a = Ok b.
Proof. destruct m as [a|e]; cbn; naive_solver. Qed.

Lemma bind_Throw {A B} (k : A -> result B) (m : result A) (e : string) :
  m ≫= k = Throw e <-> m = Throw e \/ exists a, m = Ok a /\ k a = Throw e.
Proof. destruct m as [a|e']; cbn; naive_solver. Qed.

Lemma Ok_inj {A} (a b : A) : Ok a = Ok b -> a = b.
Proof. by intros [= ->]. Qed.

Lemma truthy_Some o s : truthy o = Some s <-> o = Some s /\ s <> "".
Proof. unfold truthy. destruct o as [[|]|]; naive_solver. Qed.

(** Splits every successful bind in the context. *)
Ltac inv_bind :=
  repeat match goal with
  | H : _ ≫= _ = Ok _ |- _ => apply bind_Ok in H; destruct H as (? & ? & H)
  | H : Ok _ = Ok _ |- _ => apply Ok_inj in H
  | H : Throw _ = Ok _ |- _ => discriminate H
  | H : Ok _ = Throw _ |- _ => discriminate H
  end.

Lemma foldM_app {S A} (body : S -> A -> result S) s xs ys :
  foldM body s (xs ++ ys) = foldM body s xs ≫= fun s' => foldM body s' ys.
Proof.
  revert s; induction xs as [|x xs IH]; intros s; cbn; [done|].
  destruct (body s x); cbn; [apply IH|done].
Qed.

(** An invariant of the body is an invariant of the loop. *)
Lemma foldM_inv {S A} (P : S -> Prop) (body : S -> A -> result S) s xs s' :
  P s -> (forall s x s', x ∈ xs -> P s -> body s x = Ok s' -> P s') ->
  foldM body s xs = Ok s' -> P s'.
Proof.
  revert s; induction xs as [|x xs IH]; cbn; intros s Hs Hstep H; [naive_solver|].
  inv_bind. eapply IH; [eapply Hstep; [|done|done]; set_solver| |done].
  intros; eapply Hstep; [|done|done]. set_solver.
Qed.

Lemma mapR_Ok {A B} (f : A -> result B) xs ys :
  mapR f xs = Ok ys <-> Forall2 (fun x y => f x = Ok y) xs ys.
Proof.
  revert ys; induction xs as [|x xs IH]; cbn; intros ys; split.
  - intros [= <-]; constructor.
  - by inversion 1.
  - intros H. inv_bind. subst. constructor; [done|]. by apply IH.
  - inversion 1; subst. match goal with H : f x = _ |- _ => rewrite H end. cbn.
    match goal with H : Forall2 _ xs _ |- _ => apply IH in H; rewrite H end. done.
Qed.

(** ** Lemmas: equality tests *)
Section EqbFacts.
Context {A : Type} `{EqDecision A}.
Implicit Types x y : A.

Lemma eqb_true x y : (x ==? y) = true <-> x = y.
Proof. apply bool_decide_eq_true. Qed.

Lemma eqb_false x y : (x ==? y) = false <-> x <> y.
Proof. apply bool_decide_eq_false. Qed.

Lemma eqb_true_1 x y : (x ==? y) = true -> x = y.
Proof. apply bool_decide_eq_true. Qed.

Lemma eqb_false_1 x y : (x ==? y) = false -> x <> y.
Proof. apply bool_decide_eq_false. Qed.

Lemma eqb_refl x : (x ==? x) = true.
Proof. by apply eqb_true. Qed.

Lemma neqb_true x y : (x !=? y) = true <-> x <> y.
Proof. rewrite negb_true_iff. apply eqb_false. Qed.

Lemma neqb_false x y : (x !=? y) = false <-> x = y.
Proof. rewrite negb_false_iff. apply eqb_true. Qed.

Lemma includes_true x l : includes x l = true <-> x ∈ l.
Proof.
  unfold includes. rewrite existsb_exists. setoid_rewrite eqb_true.
  setoid_rewrite <- list_elem_of_In. naive_solver.
Qed.

Lemma includes_false x l : includes x l = false <-> x ∉ l.
Proof. rewrite <- not_true_iff_false, includes_true. done. Qed.

Lemma includes_app x l1 l2 : includes x (l1 ++ l2) = includes x l1 || includes x l2.
Proof. apply existsb_app. Qed.
End EqbFacts.

(** Case analysis on the first equality test of the goal. *)
Ltac case_eqb :=
  match goal with
  | |- context [eqb ?x ?y] =>
      let E := fresh "E" in destruct (eqb x y) eqn:E;
      [apply eqb_true_1 in E | apply eqb_false_1 in E]
  | H : context [eqb ?x ?y] |- _ =>
      let E := fresh "E" in destruct (eqb x y) eqn:E;
      [apply eqb_true_1 in E | apply eqb_false_1 in E]
  end.

(** Turns boolean hypotheses built from the tests above into propositions. *)
Ltac bool_prop :=
  repeat match goal with
  | H : _ && _ = true |- _ => apply andb_true_iff in H; destruct H
  | H : _ || _ = false |- _ => apply orb_false_iff in H; destruct H
  | H : negb _ = true |- _ => apply negb_true_iff in H
  | H : negb _ = false |- _ => apply negb_false_iff in H
  | H : eqb _ _ = true |- _ => apply eqb_true_1 in H
  | H : eqb _ _ = false |- _ => apply eqb_false_1 in H
  | H : includes _ _ = true |- _ => apply includes_true in H
  | H : includes _ _ = false |- _ => apply includes_false in H
  | H : (_ <? _) = true |- _ => apply Z.ltb_lt in H
  | H : (_ <? _) = false |- _ => apply Z.ltb_ge in H
  | H : (_ <=? _) = true |- _ => apply Z.leb_le in H
  | H : (_ <=? _) = false |- _ => apply Z.leb_gt in H
  | H : (_ =? _)%Z = true |- _ => apply Z.eqb_eq in H
  | H : (_ =? _)%Z = false |- _ => apply Z.eqb_neq in H
  end.

(** ** Lemmas: arrays *)
Lemma elem_of_filter_by {A} (p : A -> bool) l x : x ∈ filter_by p l <-> x ∈ l /\ p x = true.
Proof. rewrite !list_elem_of_In. apply filter_In. Qed.

Lemma existsb_true {A} (p : A -> bool) l : existsb p l = true <-> exists x, x ∈ l /\ p x = true.
Proof. rewrite existsb_exists. setoid_rewrite list_elem_of_In. done. Qed.

Lemma existsb_false {A} (p : A -> bool) l : existsb p l = false <-> forall x, x ∈ l -> p x = false.
Proof.
  rewrite <- not_true_iff_false, existsb_true. split.
  - intros H x Hx. apply not_true_iff_false. naive_solver.
  - intros H (x & Hx & Hp). rewrite (H x Hx) in Hp. done.
Qed.

Lemma forallb_true {A} (p : A -> bool) l : forallb p l = true <-> forall x, x ∈ l -> p x = true.
Proof. rewrite forallb_forall. setoid_rewrite list_elem_of_In. done. Qed.

Lemma find_Some {A} (p : A -> bool) l x : find p l = Some x -> x ∈ l /\ p x = true.
Proof. intros H. apply List.find_some in H. rewrite list_elem_of_In. done. Qed.

Lemma find_None {A} (p : A -> bool) l : find p l = None <-> forall x, x ∈ l -> p x = false.
Proof.
  split.
  - intros H x Hx. eapply List.find_none; [done|]. by apply list_elem_of_In.
  - induction l as [|y l IH]; cbn; intros H; [done|].
    rewrite (H y) by set_solver. apply IH. set_solver.
Qed.

Lemma find_is_Some {A} (p : A -> bool) l : is_Some (find p l) <-> exists x, x ∈ l /\ p x = true.
Proof.
  rewrite <- not_eq_None_Some, find_None, <- existsb_false, not_false_iff_true.
  apply existsb_true.
Qed.

Lemma elem_of_map {A B} (f : A -> B) l y : y ∈ map f l <-> exists x, y = f x /\ x ∈ l.
Proof. rewrite list_elem_of_In, in_map_iff. setoid_rewrite list_elem_of_In. naive_solver. Qed.

Lemma elem_of_flat_map {A B} (f : A -> list B) l y :
  y ∈ flat_map f l <-> exists x, x ∈ l /\ y ∈ f x.
Proof. rewrite list_elem_of_In, in_flat_map. setoid_rewrite list_elem_of_In. done. Qed.

Lemma filter_by_app {A} (p : A -> bool) l1 l2 :
  filter_by p (l1 ++ l2) = filter_by p l1 ++ filter_by p l2.
Proof. apply List.filter_app. Qed.

Lemma filter_by_all {A} (p : A -> bool) l : Forall (fun x => p x = true) l -> filter_by p l = l.
Proof. induction 1 as [|x l Hx _ IH]; cbn; [done|]. by rewrite Hx, IH. Qed.

Lemma filter_by_none {A} (p : A -> bool) l : Forall (fun x => p x = false) l -> filter_by p l = [].
Proof. induction 1 as [|x l Hx _ IH]; cbn; [done|]. by rewrite Hx. Qed.

Lemma filter_by_and {A} (f g : A -> bool) l : filter_by (fun x => f x && g x) l = filter_by g (filter_by f l).
Proof. induction l as [|x l IH]; [done|]. cbn. destruct (f x); cbn; [destruct (g x); by rewrite IH|exact IH]. Qed.

Lemma filter_by_ext {A} (f g : A -> bool) l : (forall x, f x = g x) -> filter_by f l = filter_by g l.
Proof. intros H. induction l as [|x l IH]; [done|]. cbn. by rewrite H, IH. Qed.

Lemma NoDup_filter_by {A} (p : A -> bool) (l : list A) : NoDup l -> NoDup (filter_by p l).
Proof.
  induction 1 as [|x l Hx Hl IH]; cbn; [constructor|].
  destruct (p x); [constructor; [|done]|done]. rewrite elem_of_filter_by. tauto.
Qed.

Lemma fold_left_inv {S A} (P : S -> Prop) (f : S -> A -> S) l s :
  P s -> (forall s x, x ∈ l -> P s -> P (f s x)) -> P (fold_left f l s).
Proof.
  revert s; induction l as [|x l IH]; cbn; intros s Hs Hstep; [done|].
  apply IH; [apply Hstep; set_solver|]. intros; apply Hstep; set_solver.
Qed.

Lemma mapR_map {A B C} (g : B -> result C) (f : A -> B) l : mapR g (map f l) = mapR (fun x => g (f x)) l.
Proof. induction l as [|x l IH]; cbn; [done|]. by rewrite IH. Qed.

(** An invariant that mentions the part of the input already consumed. *)
Lemma foldM_prefix_inv {S A} (P : list A -> S -> Prop) (body : S -> A -> result S) s xs s' :
  P [] s -> (forall pre x s s', P pre s -> body s x = Ok s' -> P (pre ++ [x]) s') ->
  foldM body s xs = Ok s' -> P xs s'.
Proof.
  intros H0 Hstep. enough (forall pre s, P pre s -> foldM body s xs = Ok s' -> P (pre ++ xs) s') as H;
    [by apply (H [])|].
  clear H0 s. induction xs as [|x xs IH]; cbn; intros pre s HP H.
  - injection H as <-. by rewrite app_nil_r.
  - apply bind_Ok in H as (s1 & H1 & H). rewrite (cons_middle x pre xs), (assoc (++)). eauto.
Qed.

Lemma fold_left_prefix_inv {S A} (P : list A -> S -> Prop) (f : S -> A -> S) s xs :
  P [] s -> (forall pre x s, P pre s -> P (pre ++ [x]) (f s x)) -> P xs (fold_left f xs s).
Proof.
  intros H0 Hstep. enough (forall pre s, P pre s -> P (pre ++ xs) (fold_left f xs s)) as H;
    [by apply (H [])|].
  clear H0 s. induction xs as [|x xs IH]; cbn; intros pre s HP; [by rewrite app_nil_r|].
  rewrite (cons_middle x pre xs), (assoc (++)). eauto.
Qed.

Lemma foldM_unit_Ok {A} (f : A -> result unit) xs u :
  foldM (fun _ x => f x) tt xs = Ok u -> forall x, x ∈ xs -> f x = Ok tt.
Proof.
  induction xs as [|y ys IH]; cbn; intros H x; [set_solver|].
  apply bind_Ok in H as ([] & Hy & H). rewrite elem_of_cons. intros [->|Hx]; [done|by apply IH].
Qed.

Lemma foldM_unit_total {A} (f : A -> result unit) xs :
  (forall x, x ∈ xs -> f x = Ok tt) -> foldM (fun _ x => f x) tt xs = Ok tt.
Proof.
  induction xs as [|x xs IH]; cbn; intros H; [done|]. rewrite H by left. apply IH. intros y Hy. apply H. by right.
Qed.

Lemma StronglySorted_map {A B} (f : A -> B) (R : B -> B -> Prop) l :
  StronglySorted R (map f l) <-> StronglySorted (fun a b => R (f a) (f b)) l.
Proof.
  induction l as [|x l IH]; cbn; [split; constructor|].
  split; inversion 1; subst; constructor; try (by apply IH); by apply Forall_map.
Qed.

Lemma StronglySorted_filter_by {A} (R : A -> A -> Prop) (p : A -> bool) l : StronglySorted R l -> StronglySorted R (filter_by p l).
Proof.
  induction 1 as [|x l Hl IH Hx]; cbn; [constructor|]. destruct (p x); [|done]. constructor; [done|].
  apply Forall_forall. intros y [Hy _]%elem_of_filter_by. rewrite Forall_forall in Hx. by apply Hx.
Qed.

Lemma StronglySorted_weaken {A} (R R' : A -> A -> Prop) l :
  (forall a b, R a b -> R' a b) -> StronglySorted R l -> StronglySorted R' l.
Proof.
  intros HR. induction 1 as [|x l Hl IH Hx]; constructor; [done|].
  eapply Forall_impl; [exact Hx|]. intros; by apply HR.
Qed.

Lemma map_inj_eq {A B} (f : A -> B) l1 l2 :
  (forall x y, f x = f y -> x = y) -> map f l1 = map f l2 -> l1 = l2.
Proof.
  intros Hf. revert l2; induction l1 as [|x l1 IH]; intros [|y l2]; cbn; try done.
  intros [= Hx Hl]. f_equal; [by apply Hf|by apply IH].
Qed.

Lemma map_map_inj {A B C} (g : B -> C) (f : A -> B) l1 l2 :
  (forall x y, g (f x) = g (f y) -> x = y) -> map g (map f l1) = map g (map f l2) -> l1 = l2.
Proof. rewrite !map_map. apply map_inj_eq. Qed.

(** Two texts a hash does not tell apart. *)
Definition collides (h : string -> string) (a b : string) : Prop := a <> b /\ h a = h b.
