(* ===== verification/Collections.v ===== *)
(** * Collections of the JavaScript runtime

    [Map] and [Set] iterate in insertion order and the program observes that order (violations,
    drafts and prompts are emitted in it), so they are association lists and duplicate-free lists
    with the runtime's update rules. [Array.prototype.sort] is stable. This file holds the
    operations and the laws the components use. *)

From S2P Require Import Prelude.

(** ** Map: insertion-ordered, one entry per key *)
Module JMap.

Section Ops.
Context {K V : Type} `{EqDecision K}.

Definition get (m : list (K * V)) (k : K) : option V :=
  match find (fun p => fst p ==? k) m with Some p => Some (snd p) | None => None end.

Definition has (m : list (K * V)) (k : K) : bool := existsb (fun p => fst p ==? k) m.

(** [m.set(k, v)] keeps the position of an existing key. *)
Fixpoint set (m : list (K * V)) (k : K) (v : V) : list (K * V) :=
  match m with
  | [] => [(k, v)]
  | (k', v') :: m => if k' ==? k then (k', v) :: m else (k', v') :: set m k v
  end.

Definition delete (m : list (K * V)) (k : K) : list (K * V) := filter_by (fun p => fst p !=? k) m.

(** [new Map(entries)] *)
Definition of_entries (l : list (K * V)) : list (K * V) :=
  fold_left (fun m p => set m (fst p) (snd p)) l [].

Definition keys (m : list (K * V)) : list K := map fst m.
Definition values (m : list (K * V)) : list V := map snd m.
Definition get_or (d : V) (m : list (K * V)) (k : K) : V := default d (get m k).
End Ops.

End JMap.

(** ** Set: insertion-ordered, no duplicates *)
Module JSet.

Section Ops.
Context {A : Type} `{EqDecision A}.

Definition has (s : list A) (x : A) : bool := includes x s.
Definition add (s : list A) (x : A) : list A := if has s x then s else s ++ [x].
Definition addAll (s : list A) (xs : list A) : list A := fold_left add xs s.
(** [new Set(xs)] *)
Definition of_list (xs : list A) : list A := addAll [] xs.
Definition delete (s : list A) (x : A) : list A := filter_by (fun y => y !=? x) s.
End Ops.

End JSet.

(** ** Array.prototype.sort

    ECMAScript makes the sort stable; for a comparator that is a total preorder the result is then
    determined, and stable insertion computes it. *)
Section Sort.
Context {A : Type} (cmp : A -> A -> Z).

Fixpoint sort_insert (x : A) (l : list A) : list A :=
  match l with
  | [] => [x]
  | y :: l' => if cmp x y <=? 0 then x :: l else y :: sort_insert x l'
  end.

Fixpoint js_sort (l : list A) : list A :=
  match l with
  | [] => []
  | x :: l => sort_insert x (js_sort l)
  end.
End Sort.

(** A consistent comparator: what [sort] needs of its argument. *)
Class Comparator {A} (cmp : A -> A -> Z) : Prop := {
  cmp_refl : forall x, cmp x x = 0;
  cmp_flip : forall x y, cmp x y <= 0 <-> 0 <= cmp y x;
  cmp_trans : forall x y z, cmp x y <= 0 -> cmp y z <= 0 -> cmp x z <= 0
}.

(** The default order of [sort()] on strings: by code unit. *)
Definition strcmp (a b : string) : Z :=
  match String.compare a b with Lt => -1 | Eq => 0 | Gt => 1 end.

(** [String.prototype.localeCompare] is the host's collation. ECMAScript requires of it exactly that
    it is a consistent comparator; two different strings may still compare equal. *)
Class Collation : Type := {
  localeCompare : string -> string -> Z;
  #[global] localeCompare_comparator :: Comparator localeCompare
}.


(** ** Laws of [Map] *)
Section MapFacts.
Context {K V : Type} `{EqDecision K}.
Implicit Types (m : list (K * V)) (k : K) (v : V).

Lemma get_nil k : JMap.get ([] : list (K * V)) k = None.
Proof. done. Qed.

Lemma get_cons m k k' v' :
  JMap.get ((k', v') :: m) k = if k' ==? k then Some v' else JMap.get m k.
Proof. unfold JMap.get. cbn. by destruct (k' ==? k). Qed.

Lemma get_set_eq m k v : JMap.get (JMap.set m k v) k = Some v.
Proof.
  induction m as [|[k' v'] m IH]; cbn; [by rewrite get_cons, eqb_refl|].
  destruct (k' ==? k) eqn:E; rewrite get_cons, E; done.
Qed.

Lemma get_set_ne m k k' v : k <> k' -> JMap.get (JMap.set m k v) k' = JMap.get m k'.
Proof.
  intros Hne. induction m as [|[k1 v1] m IH]; cbn.
  - rewrite get_cons. by apply eqb_false in Hne as ->.
  - destruct (k1 ==? k) eqn:E; rewrite !get_cons; [|by rewrite IH].
    apply eqb_true_1 in E as ->. by apply eqb_false in Hne as ->.
Qed.

Lemma get_set m k k' v : JMap.get (JMap.set m k v) k' = if k ==? k' then Some v else JMap.get m k'.
Proof.
  destruct (k ==? k') eqn:E.
  - apply eqb_true_1 in E as ->. apply get_set_eq.
  - apply eqb_false_1 in E. by apply get_set_ne.
Qed.

Lemma has_get m k : JMap.has m k = match JMap.get m k with Some _ => true | None => false end.
Proof.
  induction m as [|[k' v'] m IH]; [done|]. rewrite get_cons. unfold JMap.has in *. cbn.
  rewrite IH. by destruct (k' ==? k).
Qed.

Lemma has_true m k : JMap.has m k = true <-> is_Some (JMap.get m k).
Proof. rewrite has_get. destruct (JMap.get m k); naive_solver. Qed.

Lemma has_keys m k : JMap.has m k = true <-> k ∈ JMap.keys m.
Proof.
  unfold JMap.has, JMap.keys. rewrite existsb_true, elem_of_map.
  setoid_rewrite eqb_true. naive_solver.
Qed.

Lemma get_Some_elem m k v : JMap.get m k = Some v -> (k, v) ∈ m.
Proof.
  induction m as [|[k' v'] m IH]; [done|]. rewrite get_cons.
  case_eqb; [intros [= ->]; subst; left|intros ?; right; auto].
Qed.

Lemma get_is_Some m k : is_Some (JMap.get m k) <-> k ∈ JMap.keys m.
Proof. by rewrite <- has_true, has_keys. Qed.

Lemma get_None m k : JMap.get m k = None <-> k ∉ JMap.keys m.
Proof. rewrite <- get_is_Some, <- not_eq_None_Some. destruct (JMap.get m k); naive_solver. Qed.

Lemma get_elem m k v : NoDup (JMap.keys m) -> (k, v) ∈ m -> JMap.get m k = Some v.
Proof.
  induction m as [|[k' v'] m IH]; cbn; [set_solver|].
  inversion 1 as [|? ? Hk' Hm]; subst. rewrite elem_of_cons, get_cons.
  intros [[= -> ->]|Hin]; [by rewrite eqb_refl|].
  case_eqb; [|auto]. subst. exfalso. apply Hk'. apply elem_of_map. by exists (k, v).
Qed.

Lemma keys_set m k v k' : k' ∈ JMap.keys (JMap.set m k v) <-> k' = k \/ k' ∈ JMap.keys m.
Proof.
  rewrite <- !get_is_Some, get_set. case_eqb; subst; naive_solver.
Qed.

Lemma keys_set_app m k v :
  JMap.keys (JMap.set m k v) = if JMap.has m k then JMap.keys m else JMap.keys m ++ [k].
Proof.
  unfold JMap.keys, JMap.has. induction m as [|[k' v'] m IH]; cbn; [done|].
  destruct (k' ==? k) eqn:E; cbn; [done|]. rewrite IH. by destruct (existsb _ m).
Qed.

Lemma NoDup_keys_set m k v : NoDup (JMap.keys m) -> NoDup (JMap.keys (JMap.set m k v)).
Proof.
  intros Hm. rewrite keys_set_app. destruct (JMap.has m k) eqn:E; [done|].
  apply NoDup_app. split; [done|]. split; [|apply NoDup_singleton].
  intros x Hx ->%list_elem_of_singleton. apply has_keys in Hx. congruence.
Qed.

Lemma of_entries_snoc (l : list (K * V)) k v :
  JMap.of_entries (l ++ [(k, v)]) = JMap.set (JMap.of_entries l) k v.
Proof. unfold JMap.of_entries. by rewrite fold_left_app. Qed.

Lemma NoDup_keys_of_entries (l : list (K * V)) : NoDup (JMap.keys (JMap.of_entries l)).
Proof.
  unfold JMap.of_entries. apply (fold_left_inv (fun m => NoDup (JMap.keys m))); [constructor|].
  intros; by apply NoDup_keys_set.
Qed.

Lemma keys_of_entries (l : list (K * V)) k : k ∈ JMap.keys (JMap.of_entries l) <-> k ∈ map fst l.
Proof.
  induction l as [|[k' v'] l IH] using rev_ind; [done|].
  rewrite of_entries_snoc, keys_set, IH, map_app. set_solver.
Qed.

Lemma get_of_entries_elem (l : list (K * V)) k v :
  JMap.get (JMap.of_entries l) k = Some v -> (k, v) ∈ l.
Proof.
  induction l as [|[k' v'] l IH] using rev_ind; [done|].
  rewrite of_entries_snoc, get_set. case_eqb; [|set_solver].
  intros [= ->]; subst. set_solver.
Qed.

Lemma set_fresh m k v : k ∉ JMap.keys m -> JMap.set m k v = m ++ [(k, v)].
Proof.
  induction m as [|[k' v'] m IH]; cbn; [done|]. rewrite not_elem_of_cons. intros [Hne Hin].
  rewrite (proj2 (eqb_false k' k)) by congruence. by rewrite IH.
Qed.

(** With pairwise distinct keys, [new Map(entries)] is the entries. *)
Lemma of_entries_NoDup (l : list (K * V)) : NoDup (map fst l) -> JMap.of_entries l = l.
Proof.
  induction l as [|[k v] l IH] using rev_ind; [done|].
  rewrite map_app, NoDup_app. cbn. intros (Hl & Hk & _).
  rewrite of_entries_snoc, IH by done. apply set_fresh.
  intros Hin. apply (Hk k Hin). by left.
Qed.

(** A map built from entries is as long as they are exactly when no key repeats. *)
Lemma length_of_entries (l : list (K * V)) : length (JMap.of_entries l) = length l <-> NoDup (map fst l).
Proof.
  split.
  - intros Hlen. apply NoDup_ListNoDup. apply (List.NoDup_incl_NoDup (l := JMap.keys (JMap.of_entries l))).
    + apply NoDup_ListNoDup, NoDup_keys_of_entries.
    + unfold JMap.keys. rewrite !length_map. lia.
    + intros k Hk. apply list_elem_of_In, keys_of_entries, list_elem_of_In. exact Hk.
  - intros Hnd. by rewrite of_entries_NoDup.
Qed.

Lemma get_delete m k k' : JMap.get (JMap.delete m k) k' = if k ==? k' then None else JMap.get m k'.
Proof.
  unfold JMap.delete. induction m as [|[k1 v1] m IH]; cbn; [by destruct (k ==? k')|].
  destruct (k1 ==? k) eqn:E1; cbn; rewrite ?get_cons, IH.
  - apply eqb_true_1 in E1 as ->. by destruct (k ==? k').
  - destruct (k1 ==? k') eqn:E2; [|done]. apply eqb_true_1 in E2 as ->.
    apply eqb_false_1 in E1. by rewrite (proj2 (eqb_false k k')) by congruence.
Qed.

Lemma keys_delete m k k' : k' ∈ JMap.keys (JMap.delete m k) <-> k' <> k /\ k' ∈ JMap.keys m.
Proof. rewrite <- !get_is_Some, get_delete. case_eqb; subst; naive_solver. Qed.
End MapFacts.

(** ** Laws of [Set] *)
Section SetFacts.
Context {A : Type} `{EqDecision A}.
Implicit Types (s xs : list A) (x y : A).

Lemma elem_of_add s x y : y ∈ JSet.add s x <-> y = x \/ y ∈ s.
Proof.
  unfold JSet.add, JSet.has. destruct (includes x s) eqn:E.
  - apply includes_true in E. naive_solver.
  - set_solver.
Qed.

Lemma NoDup_add s x : NoDup s -> NoDup (JSet.add s x).
Proof.
  intros Hs. unfold JSet.add, JSet.has. destruct (includes x s) eqn:E; [done|].
  apply includes_false in E. apply NoDup_app. split; [done|].
  split; [set_solver|apply NoDup_singleton].
Qed.

Lemma elem_of_addAll s xs y : y ∈ JSet.addAll s xs <-> y ∈ s \/ y ∈ xs.
Proof.
  unfold JSet.addAll. revert s; induction xs as [|x xs IH]; cbn; intros s; [set_solver|].
  rewrite IH, elem_of_add. set_solver.
Qed.

Lemma NoDup_addAll s xs : NoDup s -> NoDup (JSet.addAll s xs).
Proof. intros Hs. apply (fold_left_inv NoDup); [done|]. intros; by apply NoDup_add. Qed.

Lemma elem_of_JSet_of_list xs y : y ∈ JSet.of_list xs <-> y ∈ xs.
Proof. unfold JSet.of_list. rewrite elem_of_addAll. set_solver. Qed.

Lemma NoDup_JSet_of_list xs : NoDup (JSet.of_list xs).
Proof. apply NoDup_addAll. constructor. Qed.

Lemma JSet_has_true s x : JSet.has s x = true <-> x ∈ s.
Proof. apply includes_true. Qed.

Lemma JSet_has_false s x : JSet.has s x = false <-> x ∉ s.
Proof. apply includes_false. Qed.

Lemma elem_of_JSet_delete s x y : y ∈ JSet.delete s x <-> y <> x /\ y ∈ s.
Proof. unfold JSet.delete. rewrite elem_of_filter_by, neqb_true. tauto. Qed.
End SetFacts.

Create Rewrite HintDb flory_simpl.
#[export] Hint Rewrite @elem_of_add @elem_of_addAll @elem_of_JSet_of_list @JSet_has_true
  @elem_of_JSet_delete @elem_of_filter_by @elem_of_map @keys_set @get_set_eq : flory_simpl.

(** ** Laws of [sort] *)
Section SortFacts.
Context {A : Type} (cmp : A -> A -> Z).

Lemma sort_insert_Permutation x l : sort_insert cmp x l ≡ₚ x :: l.
Proof.
  induction l as [|y l IH]; cbn; [done|]. destruct (cmp x y <=? 0); [done|].
  rewrite IH. apply perm_swap.
Qed.

Lemma js_sort_Permutation l : js_sort cmp l ≡ₚ l.
Proof. induction l as [|x l IH]; cbn; [done|]. by rewrite sort_insert_Permutation, IH. Qed.

Lemma elem_of_js_sort l x : x ∈ js_sort cmp l <-> x ∈ l.
Proof. by rewrite js_sort_Permutation. Qed.

Lemma NoDup_js_sort l : NoDup (js_sort cmp l) <-> NoDup l.
Proof. by rewrite js_sort_Permutation. Qed.

Lemma length_js_sort l : length (js_sort cmp l) = length l.
Proof. by rewrite js_sort_Permutation. Qed.

Context `{!Comparator cmp}.

Lemma cmp_total x y : cmp x y <= 0 \/ cmp y x <= 0.
Proof. pose proof (cmp_flip x y). pose proof (cmp_flip y x). lia. Qed.

Lemma sort_insert_sorted x l :
  StronglySorted (fun a b => cmp a b <= 0) l ->
  StronglySorted (fun a b => cmp a b <= 0) (sort_insert cmp x l).
Proof.
  induction 1 as [|y l Hl IH Hy]; cbn; [by repeat constructor|].
  destruct (cmp x y <=? 0) eqn:E; bool_prop.
  - constructor; [by constructor|]. constructor; [done|].
    eapply Forall_impl; [done|]. cbn. intros z Hz. by eapply cmp_trans.
  - constructor; [done|]. rewrite sort_insert_Permutation. constructor; [|done].
    destruct (cmp_total x y); [lia|done].
Qed.

Lemma js_sort_sorted l : StronglySorted (fun a b => cmp a b <= 0) (js_sort cmp l).
Proof. induction l; cbn; [constructor|]. by apply sort_insert_sorted. Qed.

Lemma sort_insert_lower x l : (forall y, y ∈ l -> cmp x y <= 0) -> sort_insert cmp x l = x :: l.
Proof.
  destruct l as [|y l]; cbn; [done|]. intros H.
  rewrite (proj2 (Z.leb_le _ _)); [done|]. apply H. by left.
Qed.

(** A sorted array is left as it is. *)
Lemma js_sort_id l : StronglySorted (fun a b => cmp a b <= 0) l -> js_sort cmp l = l.
Proof.
  induction 1 as [|x l Hl IH Hx]; cbn; [done|]. rewrite IH. apply sort_insert_lower.
  intros y Hy. rewrite Forall_forall in Hx. by apply Hx.
Qed.

Lemma js_sort_idemp l : js_sort cmp (js_sort cmp l) = js_sort cmp l.
Proof. apply js_sort_id, js_sort_sorted. Qed.
End SortFacts.

(** Where only equal elements tie, the sorted order of a multiset is unique. *)
Lemma js_sort_perm {A} (cmp : A -> A -> Z) `{!Comparator cmp} (l1 l2 : list A) :
  (forall x y, x ∈ l1 -> y ∈ l1 -> cmp x y = 0 -> x = y) -> l1 ≡ₚ l2 -> js_sort cmp l1 = js_sort cmp l2.
Proof.
  intros Heq Hp.
  assert (js_sort cmp l1 ≡ₚ js_sort cmp l2) as Hs by by rewrite !js_sort_Permutation.
  assert (forall x y, x ∈ js_sort cmp l1 -> y ∈ js_sort cmp l1 -> cmp x y = 0 -> x = y) as He.
  { intros x y. rewrite !elem_of_js_sort. apply Heq. }
  pose proof (js_sort_sorted cmp l1) as H1. pose proof (js_sort_sorted cmp l2) as H2.
  revert Hs He H1 H2. generalize (js_sort cmp l2). generalize (js_sort cmp l1). clear Hp Heq.
  induction l as [|x l IH]; intros l' Hp He H1 H2.
  { symmetry in Hp. apply Permutation_nil_r in Hp. done. }
  destruct l' as [|y l']; [symmetry in Hp; by apply Permutation_nil_cons in Hp|].
  inversion H1 as [|? ? H1' H1x]; inversion H2 as [|? ? H2' H2y]; subst.
  rewrite Forall_forall in H1x, H2y.
  assert (x = y) as ->.
  { assert (x ∈ y :: l') as Hx by (rewrite <- Hp; left).
    assert (y ∈ x :: l) as Hy by (rewrite Hp; left).
    apply He; [by left|done|].
    apply elem_of_cons in Hx as [->|Hx]; [apply cmp_refl|].
    apply elem_of_cons in Hy as [->|Hy]; [apply cmp_refl|].
    pose proof (H1x _ Hy). pose proof (H2y _ Hx). pose proof (cmp_flip y x). lia. }
  f_equal. apply Permutation_cons_inv in Hp. apply IH; [done| |done|done].
  intros; apply He; [by right|by right|done].
Qed.

(** ** Comparators *)
Lemma string_compare_refl s : String.compare s s = Eq.
Proof. induction s as [|a s IH]; cbn; [done|]. unfold Ascii.compare. by rewrite N.compare_refl. Qed.

#[export] Instance strcmp_comparator : Comparator strcmp.
Proof.
  assert (forall a b, strcmp a b <= 0 <-> String.leb a b = true) as Hle.
  { intros a b. unfold strcmp, String.leb. destruct (String.compare a b); cbn; split; done || lia. }
  split.
  - intros x. unfold strcmp. by rewrite string_compare_refl.
  - intros x y. unfold strcmp. rewrite (String.compare_antisym y x).
    destruct (String.compare x y); cbn; lia.
  - intros x y z. rewrite !Hle, <- !Is_true_true. apply (transitivity (R := String.le)).
Qed.

Lemma strcmp_eq a b : strcmp a b = 0 -> a = b.
Proof.
  unfold strcmp. destruct (String.compare a b) eqn:E; try lia. intros _.
  by apply String.compare_eq_iff.
Qed.

(** The collation of code units, one instance of the host's collation. *)
Definition code_unit_collation : Collation := {| localeCompare := strcmp |}.

(** Comparing by a numeric key. *)
#[export] Instance key_comparator {A} (key : A -> Z) : Comparator (fun a b => key a - key b).
Proof. split; intros; lia. Qed.

(** [first || second]: a second comparator breaks the ties of the first. *)
#[export] Instance zor_comparator {A} (c1 c2 : A -> A -> Z) `{!Comparator c1} `{!Comparator c2} :
  Comparator (fun a b => zor (c1 a b) (c2 a b)).
Proof.
  split; unfold zor.
  - intros x. rewrite (cmp_refl (cmp := c1)). apply (cmp_refl (cmp := c2)).
  - intros x y. pose proof (cmp_flip (cmp := c1) x y). pose proof (cmp_flip (cmp := c1) y x).
    pose proof (cmp_flip (cmp := c2) x y).
    destruct (Z.eqb_spec (c1 x y) 0); destruct (Z.eqb_spec (c1 y x) 0); lia.
  - intros x y z.
    pose proof (cmp_trans (cmp := c1) x y z). pose proof (cmp_trans (cmp := c2) x y z).
    pose proof (cmp_trans (cmp := c1) z x y). pose proof (cmp_trans (cmp := c1) y z x).
    pose proof (cmp_flip (cmp := c1) x y). pose proof (cmp_flip (cmp := c1) y z).
    pose proof (cmp_flip (cmp := c1) x z). pose proof (cmp_flip (cmp := c1) y x).
    pose proof (cmp_flip (cmp := c1) z y). pose proof (cmp_flip (cmp := c1) z x).
    destruct (Z.eqb_spec (c1 x y) 0), (Z.eqb_spec (c1 y z) 0), (Z.eqb_spec (c1 x z) 0); lia.
Qed.

(** Comparing by the collation of a name. *)
#[export] Instance locale_comparator {A} `{Collation} (name : A -> string) :
  Comparator (fun a b => localeCompare (name a) (name b)).
Proof.
  split; intros; [apply cmp_refl|apply cmp_flip|]. by eapply cmp_trans.
Qed.

(** Sorting commutes with a map that preserves the comparison. *)
Lemma js_sort_map {A B} (f : A -> B) (ca : A -> A -> Z) (cb : B -> B -> Z) l :
  (forall x y, cb (f x) (f y) = ca x y) -> js_sort cb (map f l) = map f (js_sort ca l).
Proof.
  intros Hc. induction l as [|x l IH]; cbn; [done|]. rewrite IH. clear IH.
  induction (js_sort ca l) as [|y l' IH]; cbn; [done|].
  rewrite Hc. destruct (ca x y <=? 0); cbn; [done|]. by rewrite IH.
Qed.

(** ** Emptiness *)
Lemma js_sort_nil {A} (cmp : A -> A -> Z) l : js_sort cmp l = [] -> l = [].
Proof. intros H. apply (f_equal length) in H. rewrite length_js_sort in H. by destruct l. Qed.

Lemma JSet_of_list_nil {A} `{EqDecision A} (l : list A) : JSet.of_list l = [] -> l = [].
Proof.
  intros H. destruct l as [|x l]; [done|]. assert (x ∈ JSet.of_list (x :: l)) as Hx by (apply elem_of_JSet_of_list; left).
  rewrite H in Hx. by apply elem_of_nil in Hx.
Qed.

Lemma has_keys_false {K V} `{EqDecision K} (m : list (K * V)) k : JMap.has m k = false <-> k ∉ JMap.keys m.
Proof. rewrite <- has_keys. by destruct (JMap.has m k). Qed.

(** Appending to the list a key holds. *)
Lemma values_set_snoc {K V} `{EqDecision K} (m : list (K * list V)) g id :
  concat (JMap.values (JMap.set m g (JMap.get_or [] m g ++ [id]))) ≡ₚ concat (JMap.values m) ++ [id].
Proof.
  unfold JMap.get_or. induction m as [|[k ids] m IH]; [done|]. cbn [JMap.set]. rewrite get_cons. destruct (k ==? g) eqn:E; cbn [JMap.values map concat snd from_option].
  - rewrite <- !app_assoc. apply Permutation_app_head. apply Permutation_app_comm.
  - unfold JMap.values in IH. cbn. rewrite IH. by rewrite app_assoc.
Qed.
