(* ===== verification/Number.v ===== *)
(** * Numbers of the JavaScript runtime

    A JavaScript number is an IEEE-754 binary64 value. It is kept as Stdlib's [spec_float] at
    precision 53 and maximal exponent 1024, so arithmetic rounds as the runtime's does: prices and
    costs in the recovery ladder, literals in routing rules and numbers inside JSON are these.
    Sequence numbers, counters and indices are [Z] or [nat]: PostgreSQL allocates them from 1 and
    they stay far below 2^53, where binary64 arithmetic on them is exact. *)

From Corelib Require Import SpecFloat.
From S2P Require Import Prelude.

Abbreviation number := spec_float.

#[export] Instance number_eq_dec : EqDecision number.
Proof. solve_decision. Defined.

Module Num.

Definition prec : Z := 53.
Definition emax : Z := 1024.

(** The number nearest to an integer. *)
Definition of_Z (z : Z) : number := binary_normalize prec emax z 0 false.

Definition add (x y : number) : number := SFadd prec emax x y.
Definition mul (x y : number) : number := SFmul prec emax x y.
Definition div (x y : number) : number := SFdiv prec emax x y.
Definition opp (x : number) : number := SFopp x.

(** [x === y], [x < y] and [x <= y]; every comparison with NaN is false. *)
Definition eq (x y : number) : bool := SFeqb x y.
Definition lt (x y : number) : bool := SFltb x y.
Definition le (x y : number) : bool := SFleb x y.
Definition is_nan (x : number) : bool := match x with S754_nan => true | _ => false end.

(** The number nearest to [p / q], with one rounding. *)
Definition ratio (p : Z) (q : positive) : number :=
  match p with
  | Z0 => S754_zero false
  | Zpos m => SFdiv prec emax (S754_finite false m 0) (S754_finite false q 0)
  | Zneg m => SFdiv prec emax (S754_finite true m 0) (S754_finite false q 0)
  end.

(** The number nearest to [m * 10^e]. *)
Definition decimal (m e : Z) : number :=
  if 0 <=? e then of_Z (m * 10 ^ e)
  else match 10 ^ (- e) with Zpos q => ratio m q | _ => S754_nan end.

(** The exact integer value, when the number is an integer ([Number.isInteger]). *)
Definition to_Z (x : number) : option Z :=
  match x with
  | S754_zero _ => Some 0
  | S754_finite s m e =>
      let signed := fun z => if s then - z else z in
      if 0 <=? e then Some (signed (Zpos m * 2 ^ e))
      else if Zpos m mod 2 ^ (- e) =? 0 then Some (signed (Zpos m / 2 ^ (- e))) else None
  | _ => None
  end.

(** [Number.isSafeInteger] *)
Definition safe_integer (x : number) : option Z :=
  match to_Z x with
  | Some z => if Z.abs z <=? 2 ^ 53 - 1 then Some z else None
  | None => None
  end.

(** [Number(x.toFixed(k))]: rounds to [k] decimals, ties upward in magnitude; beyond 10^21
    [toFixed] prints the number as it is. *)
Definition fixed (k : Z) (x : number) : number :=
  match x with
  | S754_zero _ => S754_zero false
  | S754_finite s m e =>
      let scaled := if 0 <=? e then Zpos m * 2 ^ e * 10 ^ k
                    else (2 * Zpos m * 10 ^ k + 2 ^ (- e)) / (2 * 2 ^ (- e)) in
      if 10 ^ (21 + k) <=? scaled then x
      else let r := decimal scaled (- k) in if s then opp r else r
  | _ => x
  end.

Definition fixed12 (x : number) : number := fixed 12 x.

(** [x - y] and [Math.max(0, x)] *)
Definition sub (x y : number) : number := add x (opp y).
Definition max0 (x : number) : number := if is_nan x then x else if lt (S754_zero false) x then x else S754_zero false.

(** ** Number.prototype.toString *)

(** The decade of a positive value [m * 2^e]: the least [n] with [m * 2^e < 10^n]. *)
Fixpoint decade_up (fuel : nat) (p q : Z) (n : Z) : Z :=
  match fuel with
  | O => n
  | S fuel =>
      let below := if 0 <=? n then p <? q * 10 ^ n else p * 10 ^ (- n) <? q in
      if below then n else decade_up fuel p q (n + 1)
  end.

(** The shortest decimal [s * 10^(n - k)] of [k] digits that reads back as [x]. *)
Fixpoint shortest (fuel : nat) (x : number) (p q n k : Z) : Z * Z * Z :=
  match fuel with
  | O => (0, 1, n)
  | S fuel =>
      let e := n - k in
      (* p / q / 10^e, rounded both ways *)
      let '(num, den) := if 0 <=? e then (p, q * 10 ^ e) else (p * 10 ^ (- e), q) in
      let lo := num / den in
      let hi := lo + 1 in
      let lo_ok := (0 <? lo) && eq (decimal lo e) x in
      let hi_ok := eq (decimal hi e) x in
      let nearer_lo := 2 * (num - lo * den) <=? den in
      if lo_ok && (nearer_lo || negb hi_ok) then (lo, k, n)
      else if hi_ok then (if hi =? 10 ^ k then (1, 1, n + 1) else (hi, k, n))
      else shortest fuel x p q n (k + 1)
  end.

Fixpoint zeros (n : nat) : string := match n with O => "" | S n => String "0"%char (zeros n) end.

Definition format (s k n : Z) : string :=
  let digits := zstr s in
  if (k <=? n) && (n <=? 21) then digits +:+ zeros (Z.to_nat (n - k))
  else if (0 <? n) && (n <=? 21) then
    take_str (Z.to_nat n) digits +:+ "." +:+ drop_str (Z.to_nat n) digits
  else if (-6 <? n) && (n <=? 0) then "0." +:+ zeros (Z.to_nat (- n)) +:+ digits
  else
    let e := n - 1 in
    let sign := if 0 <? e then "+" else "-" in
    if k =? 1 then digits +:+ "e" +:+ sign +:+ zstr (Z.abs e)
    else take_str 1 digits +:+ "." +:+ drop_str 1 digits +:+ "e" +:+ sign +:+ zstr (Z.abs e).

Definition to_string (x : number) : string :=
  match x with
  | S754_nan => "NaN"
  | S754_zero _ => "0"
  | S754_infinity s => if s then "-Infinity" else "Infinity"
  | S754_finite sgn m e =>
      let '(p, q) := if 0 <=? e then (Zpos m * 2 ^ e, 1) else (Zpos m, 2 ^ (- e)) in
      let n := decade_up 700 p q (-330) in
      let '(s, k, n) := shortest 17 (S754_finite false m e) p q n 1 in
      (if sgn then "-" else "") +:+ format s k n
  end.

(** ** Number(text) *)

Definition digit (c : Ascii.ascii) : option Z :=
  let n := Z.of_nat (Ascii.nat_of_ascii c) in
  if (48 <=? n) && (n <=? 57) then Some (n - 48) else None.

Definition is_space (c : Ascii.ascii) : bool :=
  let n := Ascii.nat_of_ascii c in
  existsb (Nat.eqb n) [9; 10; 11; 12; 13; 32; 160]%nat.

(** Reads the longest run of digits: its value, how many there were, and the rest. *)
Fixpoint digits (acc : Z) (count : Z) (s : string) : Z * Z * string :=
  match s with
  | String c s' => match digit c with Some d => digits (acc * 10 + d) (count + 1) s' | None => (acc, count, s) end
  | "" => (acc, count, "")
  end.

Fixpoint trim_left (s : string) : string :=
  match s with String c s' => if is_space c then trim_left s' else s | "" => "" end.

Fixpoint trim_right (s : string) : string :=
  match s with
  | "" => ""
  | String c s' =>
      match trim_right s' with
      | "" => if is_space c then "" else String c ""
      | t => String c t
      end
  end.

(** [s.trim()] *)
Definition trim (s : string) : string := trim_right (trim_left s).

Definition exponent (s : string) : option Z :=
  match s with
  | "" => Some 0
  | String "e"%char s' | String "E"%char s' =>
      let '(sign, s'') := match s' with
                          | String "-"%char t => (-1, t)
                          | String "+"%char t => (1, t)
                          | t => (1, t)
                          end in
      let '(e, n, rest) := digits 0 0 s'' in
      if (0 <? n) && (rest ==? "") then Some (sign * e) else None
  | _ => None
  end.

(** An unsigned decimal literal; [None] when the text is not one. *)
Definition unsigned_decimal (s : string) : option number :=
  if s ==? "Infinity" then Some (S754_infinity false) else
  let '(i, ni, rest) := digits 0 0 s in
  match rest with
  | String "."%char rest' =>
      let '(m, nf, rest'') := digits i 0 rest' in
      if (ni + nf =? 0) then None
      else match exponent rest'' with Some e => Some (decimal m (e - nf)) | None => None end
  | _ =>
      if ni =? 0 then None
      else match exponent rest with Some e => Some (decimal i e) | None => None end
  end.

Definition radix_digit (c : Ascii.ascii) : Z :=
  let n := Z.of_nat (Ascii.nat_of_ascii c) in
  if (48 <=? n) && (n <=? 57) then n - 48
  else if (97 <=? n) && (n <=? 122) then n - 87
  else if (65 <=? n) && (n <=? 90) then n - 55 else 99.

Fixpoint radix_literal (base acc : Z) (s : string) : option Z :=
  match s with
  | "" => Some acc
  | String c s => let d := radix_digit c in if d <? base then radix_literal base (acc * base + d) s else None
  end.

Definition radix_number (base : Z) (s : string) : number :=
  match s with
  | "" => S754_nan
  | _ => match radix_literal base 0 s with Some z => of_Z z | None => S754_nan end
  end.

Definition of_string (text : string) : number :=
  match trim text with
  | "" => S754_zero false
  | String "0"%char (String "x"%char s) | String "0"%char (String "X"%char s) => radix_number 16 s
  | String "0"%char (String "o"%char s) | String "0"%char (String "O"%char s) => radix_number 8 s
  | String "0"%char (String "b"%char s) | String "0"%char (String "B"%char s) => radix_number 2 s
  | String "-"%char s => match unsigned_decimal s with Some n => opp n | None => S754_nan end
  | String "+"%char s => default S754_nan (unsigned_decimal s)
  | s => default S754_nan (unsigned_decimal s)
  end.

End Num.

(** ** The strict order on numbers is transitive *)

(** The code of a comparison: sign class first, then exponent, then mantissa. *)
Lemma num_lt_spec x y :
  Num.lt x y = true <->
  match x, y with
  | S754_nan, _ | _, S754_nan => False
  | S754_infinity true, S754_infinity true => False
  | S754_infinity true, _ => True
  | _, S754_infinity false => match x with S754_infinity false => False | _ => True end
  | S754_infinity false, _ => False
  | _, S754_infinity true => False
  | S754_finite true m1 e1, S754_finite true m2 e2 => e2 < e1 \/ (e1 = e2 /\ (m2 < m1)%positive)
  | S754_finite true _ _, _ => True
  | S754_zero _, S754_finite false _ _ => True
  | S754_zero _, _ => False
  | S754_finite false m1 e1, S754_finite false m2 e2 => e1 < e2 \/ (e1 = e2 /\ (m1 < m2)%positive)
  | S754_finite false _ _, _ => False
  end.
Proof.
  unfold Num.lt, SFltb, SFcompare.
  destruct x as [s1|[]| |[] m1 e1], y as [s2|[]| |[] m2 e2]; cbn; try done; try tauto.
  - destruct (Z.compare_spec e1 e2) as [->|?|?]; cbn.
    + change (PosDef.Pos.compare_cont Eq m1 m2) with (Pos.compare m1 m2).
      destruct (Pos.compare_spec m1 m2); cbn; split; try done; try lia.
    + split; [done|lia].
    + split; [lia|done].
  - destruct (Z.compare_spec e1 e2) as [->|?|?]; cbn.
    + change (PosDef.Pos.compare_cont Eq m1 m2) with (Pos.compare m1 m2).
      destruct (Pos.compare_spec m1 m2); cbn; split; try done; try lia.
    + split; [lia|done].
    + split; [done|lia].
Qed.

Lemma num_lt_trans x y z : Num.lt x y = true -> Num.lt y z = true -> Num.lt x z = true.
Proof.
  rewrite !num_lt_spec.
  destruct x as [?|[]| |[] ? ?], y as [?|[]| |[] ? ?], z as [?|[]| |[] ? ?]; cbn; try tauto; lia.
Qed.

Lemma num_lt_irrefl x : Num.lt x x = false.
Proof.
  apply not_true_iff_false. rewrite num_lt_spec.
  destruct x as [?|[]| |[] ? ?]; try tauto; lia.
Qed.

(** ** Behaviour on concrete literals *)
Example of_string_cases :
  map Num.to_string
    [Num.of_string "0.1"; Num.of_string " 12.50 "; Num.of_string "1e23"; Num.of_string "-7";
     Num.of_string "0x1F"; Num.of_string "1.5e-7"; Num.of_string "4x"; Num.of_string ".5";
     Num.of_string "123456789012345680000"; Num.of_string "1e21"] =
  ["0.1"; "12.5"; "1e+23"; "-7"; "31"; "1.5e-7"; "NaN"; "0.5"; "123456789012345680000"; "1e+21"].
Proof. vm_compute. reflexivity. Qed.

Example fixed12_cases :
  map Num.to_string
    [Num.fixed12 (Num.add (Num.of_string "0.1") (Num.of_string "0.2"));
     Num.fixed12 (Num.of_string "0.0000000000006"); Num.fixed12 (Num.of_string "-3.25")] =
  ["0.3"; "1e-12"; "-3.25"].
Proof. vm_compute. reflexivity. Qed.

(** ** Integers of at most 53 bits are exact *)
Lemma digits2_bounds p : 2 ^ (Z.pos (digits2_pos p) - 1) <= Z.pos p < 2 ^ Z.pos (digits2_pos p).
Proof.
  induction p as [p IH|p IH|]; cbn [digits2_pos]; [| |done].
  all: rewrite (Pos2Z.inj_succ (digits2_pos p)), Z.pow_succ_r, Z.sub_1_r, Z.pred_succ by lia.
  all: replace (Z.pos (digits2_pos p)) with (1 + (Z.pos (digits2_pos p) - 1)) in IH |- * by lia.
  all: rewrite Z.pow_add_r in IH |- * by lia; rewrite Z.add_simpl_l in IH; lia.
Qed.

Lemma digits2_unique p n : 0 < n -> 2 ^ (n - 1) <= Z.pos p < 2 ^ n -> Z.pos (digits2_pos p) = n.
Proof.
  intros Hn [Hl Hu]. pose proof (digits2_bounds p) as [Hl' Hu'].
  assert (n - 1 < Z.pos (digits2_pos p)) by (apply (Z.pow_lt_mono_r_iff 2); lia).
  assert (Z.pos (digits2_pos p) - 1 < n) by (apply (Z.pow_lt_mono_r_iff 2); lia). lia.
Qed.

Lemma iter_double p d : Z.pos (Pos.iter xO p d) = Z.pos p * 2 ^ Z.pos d.
Proof.
  induction d as [|d IH] using Pos.peano_ind; [cbn; lia|].
  rewrite Pos.iter_succ, Pos2Z.inj_succ, Z.pow_succ_r, Pos2Z.inj_xO, IH by lia. lia.
Qed.

Abbreviation bit_width p := (Z.pos (digits2_pos p)).

(** Such a mantissa is shifted left until it has 53 bits. *)
Lemma shl_align_53 p : bit_width p <= 53 ->
  exists m, shl_align p 0 (bit_width p - 53) = (m, bit_width p - 53) /\ Z.pos m = Z.pos p * 2 ^ (53 - bit_width p) /\ bit_width m = 53.
Proof.
  intros Hd. pose proof (digits2_bounds p) as [Hl Hu]. unfold shl_align. rewrite Z.sub_0_r.
  destruct (bit_width p - 53) as [|d|d] eqn:E; [|lia|].
  - exists p. replace (53 - bit_width p) with 0 by lia. split; [done|]. lia.
  - exists (Pos.iter xO p d). split; [done|]. assert (53 - bit_width p = Z.pos d) as Ed by lia. rewrite Ed, iter_double. split; [done|].
    apply digits2_unique; [lia|]. rewrite iter_double. replace (53 - 1) with ((bit_width p - 1) + Z.pos d) by lia.
    replace 53 with (bit_width p + Z.pos d) by lia. rewrite !Z.pow_add_r by lia. nia.
Qed.

Lemma of_Z_exact p : Z.pos p < 2 ^ 53 ->
  exists m, Num.of_Z (Z.pos p) = S754_finite false m (bit_width p - 53) /\ Z.pos m = Z.pos p * 2 ^ (53 - bit_width p).
Proof.
  intros Hp. assert (bit_width p <= 53) as Hd.
  { pose proof (digits2_bounds p) as [Hl _]. enough (bit_width p - 1 < 53) by lia. apply (Z.pow_lt_mono_r_iff 2); lia. }
  destruct (shl_align_53 p Hd) as (m & Hs & Hm & Hw). exists m. split; [|done].
  unfold Num.of_Z, binary_normalize, binary_round, fexp, emin. change (3 - Num.emax - Num.prec) with (-1074). change Num.prec with 53.
  replace (Z.max (bit_width p + 0 - 53) (-1074)) with (bit_width p - 53) by lia. rewrite Hs.
  assert (forall l, shr_fexp 53 Num.emax (Z.pos m) (bit_width p - 53) l = (shr_record_of_loc (Z.pos m) l, bit_width p - 53)) as Hr.
  { intros l. unfold shr_fexp, fexp, emin. cbn [Zdigits2]. rewrite Hw. change (3 - Num.emax - 53) with (-1074).
    replace (Z.max (53 + (bit_width p - 53) - 53) (-1074) - (bit_width p - 53)) with 0 by lia. done. }
  unfold binary_round_aux. rewrite Hr. cbn [shr_record_of_loc shr_m loc_of_shr_record round_nearest_even]. rewrite Hr. cbn [shr_record_of_loc shr_m].
  change (Num.emax - 53) with 971. destruct (Z.leb_spec (bit_width p - 53) 971); [done|lia].
Qed.

(** It reads back as the integer it was made from. *)
Lemma to_Z_of_Z z : 0 <= z < 2 ^ 53 -> Num.to_Z (Num.of_Z z) = Some z.
Proof.
  intros Hz. destruct z as [|p|p]; [done| |lia]. destruct (of_Z_exact p ltac:(lia)) as (m & -> & Hm). pose proof (digits2_bounds p) as [Hl _].
  assert (bit_width p <= 53) as Hw. { enough (bit_width p - 1 < 53) by lia. apply (Z.pow_lt_mono_r_iff 2); lia. }
  unfold Num.to_Z. rewrite Hm. destruct (Z.leb_spec 0 (bit_width p - 53)) as [Hge|Hlt].
  - replace (bit_width p) with 53 by lia. f_equal. lia.
  - replace (- (bit_width p - 53)) with (53 - bit_width p) by lia. rewrite Z.mod_mul, Z.div_mul by (apply Z.pow_nonzero; lia). done.
Qed.

Lemma bit_width_mono p q : Z.pos p < Z.pos q -> bit_width p <= bit_width q.
Proof.
  intros Hpq. pose proof (digits2_bounds p) as [Hl _]. pose proof (digits2_bounds q) as [_ Hu].
  enough (bit_width p - 1 < bit_width q) by lia. apply (Z.pow_lt_mono_r_iff 2); lia.
Qed.

(** The order of such integers is the order of the numbers. *)
Lemma of_Z_lt a b : 0 <= a -> a < 2 ^ 53 -> 0 <= b -> b < 2 ^ 53 -> Num.lt (Num.of_Z a) (Num.of_Z b) = (a <? b).
Proof.
  intros Ha Ha' Hb Hb'.
  assert (forall x y, 0 <= x -> x < y -> y < 2 ^ 53 -> Num.lt (Num.of_Z x) (Num.of_Z y) = true) as Hlt.
  { intros x y Hx Hxy Hy. apply num_lt_spec. destruct y as [|q|q]; [lia| |lia]. destruct (of_Z_exact q Hy) as (m & -> & Hm).
    destruct x as [|p|p]; [done| |lia]. destruct (of_Z_exact p ltac:(lia)) as (m' & -> & Hm').
    apply bit_width_mono in Hxy as Hw. destruct (decide (bit_width p = bit_width q)) as [E|]; [right|left; lia].
    split; [lia|]. rewrite E in Hm'. assert (0 < 2 ^ (53 - bit_width q)); [|nia].
    destruct (Z.le_gt_cases 0 (53 - bit_width q)); [by apply Z.pow_pos_nonneg|]. rewrite Z.pow_neg_r in Hm by lia. lia. }
  destruct (Z.ltb_spec a b) as [H|H]; [by apply Hlt|]. apply not_true_iff_false. intros Hc.
  destruct (decide (a = b)) as [->|]; [by rewrite num_lt_irrefl in Hc|].
  assert (Num.lt (Num.of_Z b) (Num.of_Z a) = true) as Hba by (apply Hlt; lia).
  pose proof (num_lt_trans _ _ _ Hc Hba) as Hx. by rewrite num_lt_irrefl in Hx.
Qed.

Lemma num_compare_antisym x y : SFcompare y x = CompOpp <$> SFcompare x y.
Proof.
  destruct x as [s1|[]| |[] m1 e1], y as [s2|[]| |[] m2 e2]; try done; cbn; rewrite (Z.compare_antisym e1 e2); destruct (Z.compare e1 e2); cbn; try done;
    f_equal; change (PosDef.Pos.compare_cont Eq m2 m1) with (Pos.compare m2 m1); change (PosDef.Pos.compare_cont Eq m1 m2) with (Pos.compare m1 m2);
    rewrite (Pos.compare_antisym m1 m2); by destruct (Pos.compare m1 m2).
Qed.

Lemma of_Z_not_nan a : 0 <= a -> a < 2 ^ 53 -> SFcompare (Num.of_Z a) (Num.of_Z a) = Some Eq.
Proof.
  intros H0 H1. destruct a as [|p|p]; [done| |lia]. destruct (of_Z_exact p H1) as (m & -> & _). cbn. rewrite Z.compare_refl.
  change (PosDef.Pos.compare_cont Eq m m) with (Pos.compare m m). by rewrite Pos.compare_refl.
Qed.

(** Comparison of such integers is comparison of the numbers. *)
Lemma of_Z_compare a b : 0 <= a -> a < 2 ^ 53 -> 0 <= b -> b < 2 ^ 53 -> SFcompare (Num.of_Z a) (Num.of_Z b) = Some (Z.compare a b).
Proof.
  intros Ha Ha' Hb Hb'. destruct (Z.compare_spec a b) as [<-|Hlt|Hlt]; [by apply of_Z_not_nan| |].
  - pose proof (of_Z_lt a b Ha Ha' Hb Hb') as H. rewrite (proj2 (Z.ltb_lt a b) Hlt) in H. unfold Num.lt, SFltb in H.
    by destruct (SFcompare _ _) as [[]|].
  - pose proof (of_Z_lt b a Hb Hb' Ha Ha') as H. rewrite (proj2 (Z.ltb_lt b a) Hlt) in H. unfold Num.lt, SFltb in H.
    rewrite num_compare_antisym. by destruct (SFcompare _ _) as [[]|].
Qed.

Lemma of_Z_le a b : 0 <= a -> a < 2 ^ 53 -> 0 <= b -> b < 2 ^ 53 -> Num.le (Num.of_Z a) (Num.of_Z b) = (a <=? b).
Proof. intros. unfold Num.le, SFleb, Z.leb. rewrite of_Z_compare by done. by destruct (Z.compare a b). Qed.

Lemma of_Z_eq a b : 0 <= a -> a < 2 ^ 53 -> 0 <= b -> b < 2 ^ 53 -> Num.eq (Num.of_Z a) (Num.of_Z b) = (a =? b).
Proof. intros. unfold Num.eq, SFeqb. rewrite of_Z_compare by done. destruct (Z.compare_spec a b); bool_prop; by destruct (Z.eqb_spec a b); try lia. Qed.
