(* ===== verification/Json.v ===== *)
(** * JavaScript values and their canonical encodings

    [value] is what a field typed [unknown] can hold once it has come out of [JSON.parse] or the
    database, with [VUndef] for an absent property. Objects are their own enumerable properties in
    iteration order. A [string] is its sequence of code units, one [ascii] each, so text outside
    Latin-1 is not represented.

    - [canonicalJson] is engine/src/log/events.ts: sorted keys, [undefined] passed through.
    - [canonicalize] is engine/src/gateway/tool-view.ts: sorted keys, integers only, [undefined]
      members dropped.

    The second is the preimage of every content address of a tool view, so the property that
    matters is that it is injective up to the order of object keys. *)

From S2P Require Import Prelude Collections Number.
From Corelib Require Import SpecFloat.

Inductive value : Type :=
| VUndef
| VNull
| VBool (b : bool)
| VNum (n : number)
| VStr (s : string)
| VArr (l : list value)
| VObj (fields : list (string * value)).

(** A record payload: [Record<string, unknown>]. *)
Abbreviation object := (list (string * value)).

(** Induction through arrays and objects. *)
Lemma value_ind' (P : value -> Prop) :
  P VUndef -> P VNull -> (forall b, P (VBool b)) -> (forall n, P (VNum n)) -> (forall s, P (VStr s)) ->
  (forall l, Forall P l -> P (VArr l)) ->
  (forall fields, Forall (fun p => P (snd p)) fields -> P (VObj fields)) ->
  forall v, P v.
Proof.
  intros Hu Hn Hb Hnum Hs Ha Ho. fix IH 1. intros [| |b|n|s|l|fields].
  - done.
  - done.
  - apply Hb.
  - apply Hnum.
  - apply Hs.
  - apply Ha. induction l as [|x l IHl]; constructor; [apply IH|apply IHl].
  - apply Ho. induction fields as [|[k x] l IHl]; constructor; [apply IH|apply IHl].
Qed.

Module Js.

(** [payload.key], [undefined] when absent. *)
Definition field (o : object) (k : string) : value := default VUndef (JMap.get o k).

(** ['key' in payload] *)
Definition has_field (o : object) (k : string) : bool := JMap.has o k.

Definition as_string (v : value) : option string := match v with VStr s => Some s | _ => None end.
Definition as_number (v : value) : option number := match v with VNum n => Some n | _ => None end.

(** A field cast to [string[] | undefined] and defaulted to []: its string elements. *)
Definition string_list (v : value) : list string :=
  match v with VArr l => omap as_string l | _ => [] end.

Definition str_field (o : object) (k : string) : option string := as_string (field o k).

(** Truthiness of a value. *)
Definition truthy_value (v : value) : bool :=
  match v with
  | VUndef | VNull => false
  | VBool b => b
  | VNum n => negb (Num.is_nan n || Num.eq n (S754_zero false))
  | VStr s => s !=? ""
  | VArr _ | VObj _ => true
  end.

(** A value is a plain object: truthy, [typeof] "object" and not an array. *)
Definition as_object (v : value) : option object := match v with VObj o => Some o | _ => None end.

(** [v === w] where one side is a primitive. *)
Definition strict_eq (v w : value) : bool :=
  match v, w with
  | VUndef, VUndef | VNull, VNull => true
  | VBool a, VBool b => Bool.eqb a b
  | VNum a, VNum b => Num.eq a b
  | VStr a, VStr b => a ==? b
  | _, _ => false
  end.

(** [typeof v] *)
Definition typeof (v : value) : string :=
  match v with
  | VUndef => "undefined"
  | VNull | VArr _ | VObj _ => "object"
  | VBool _ => "boolean"
  | VNum _ => "number"
  | VStr _ => "string"
  end.

(** [String(v)] *)
Fixpoint to_text (v : value) : string :=
  match v with
  | VUndef => "undefined"
  | VNull => "null"
  | VBool b => if b then "true" else "false"
  | VNum n => Num.to_string n
  | VStr s => s
  | VArr vs => join "," (map (fun x => match x with VUndef | VNull => "" | _ => to_text x end) vs)
  | VObj _ => "[object Object]"
  end.

(** [v ?? w] *)
Definition nullish_or (v w : value) : value := match v with VUndef | VNull => w | _ => v end.

(** [s.split(sep)] for a one-character separator. *)
Fixpoint split_char (sep : Ascii.ascii) (s : string) : list string :=
  match s with
  | "" => [""]
  | String c s =>
      if c ==? sep then "" :: split_char sep s
      else match split_char sep s with
           | w :: ws => String c w :: ws
           | [] => [String c ""]
           end
  end.

End Js.

(** ** JSON text *)
Module Text.

Definition hex_digit (n : nat) : Ascii.ascii :=
  Ascii.ascii_of_nat (if Nat.ltb n 10 then 48 + n else 87 + n).

(** The escape of one code unit: the short forms, [\u00xx] below space, itself otherwise. *)
Definition escape (c : Ascii.ascii) : string :=
  let n := Ascii.nat_of_ascii c in
  if c ==? ascii_of_nat 34 then String "\"%char (String (ascii_of_nat 34) "")
  else if c ==? "\"%char then "\\"
  else if Nat.eqb n 8 then "\b"
  else if Nat.eqb n 12 then "\f"
  else if Nat.eqb n 10 then "\n"
  else if Nat.eqb n 13 then "\r"
  else if Nat.eqb n 9 then "\t"
  else if Nat.ltb n 32 then "\u00" +:+ String (hex_digit (n / 16)) (String (hex_digit (n mod 16)) "")
  else String c "".

Fixpoint escape_all (s : string) : string :=
  match s with "" => "" | String c s => escape c +:+ escape_all s end.

Definition dquote : string := String (ascii_of_nat 34) "".

(** [JSON.stringify] of a string; [canonicalizeString] writes the same text. *)
Definition quote (s : string) : string := dquote +:+ escape_all s +:+ dquote.

(** [canonicalizeString], tool-view.ts *)
Definition canonicalizeString (s : string) : string := quote s.

(** Members of an object in the order of their keys. *)
Definition sort_members {A} (l : list (string * A)) : list (string * A) :=
  js_sort (fun a b => strcmp (fst a) (fst b)) l.

(** [canonicalJson]: [None] is the [undefined] that [JSON.stringify(undefined)] returns. Inside an
    array [join] writes it as nothing, inside an object the template literal writes it out. *)
Fixpoint canonicalJson (v : value) : option string :=
  match v with
  | VUndef => None
  | VNull => Some "null"
  | VBool b => Some (if b then "true" else "false")
  | VNum n => Some (match n with S754_nan | S754_infinity _ => "null" | _ => Num.to_string n end)
  | VStr s => Some (quote s)
  | VArr l => Some ("[" +:+ join "," (map (fun x => default "" (canonicalJson x)) l) +:+ "]")
  | VObj fields =>
      let members := map (fun p => (fst p, default "undefined" (canonicalJson (snd p)))) fields in
      Some ("{" +:+ join "," (map (fun p => quote (fst p) +:+ ":" +:+ snd p) (sort_members members)) +:+ "}")
  end.

Definition canonicalText (v : value) : string := default "undefined" (canonicalJson v).

(** [canonicalize]: the tool view's encoding. *)
Fixpoint canonicalize (v : value) : result string :=
  match v with
  | VUndef => Throw "canonicalize: unsupported value of type undefined"
  | VNull => Ok "null"
  | VBool b => Ok (if b then "true" else "false")
  | VNum n =>
      match Num.safe_integer n with
      | Some z => Ok (zstr z)
      | None => Throw ("canonicalize: " +:+ Num.to_string n +:+ " is not a safe integer; tool views are integer-valued")
      end
  | VStr s => Ok (canonicalizeString s)
  | VArr l => ts ← mapR id (map canonicalize l); Ok ("[" +:+ join "," ts +:+ "]")
  | VObj fields =>
      let fix members (l : object) : list (string * result string) :=
        match l with
        | [] => []
        | (k, VUndef) :: l => members l
        | (k, x) :: l => (k, canonicalize x) :: members l
        end in
      ts ← mapR (fun p => t ← snd p; Ok (canonicalizeString (fst p) +:+ ":" +:+ t))
             (sort_members (members fields));
      Ok ("{" +:+ join "," ts +:+ "}")
  end.

(** What a canonical text determines: the value up to the order of object members, absent members
    and the sign of zero. *)
Fixpoint normal (v : value) : value :=
  match v with
  | VNum n => match Num.safe_integer n with Some z => VNum (Num.of_Z z) | None => v end
  | VArr l => VArr (map normal l)
  | VObj fields =>
      let fix members (l : object) : object :=
        match l with
        | [] => []
        | (k, VUndef) :: l => members l
        | (k, x) :: l => (k, normal x) :: members l
        end in
      VObj (sort_members (members fields))
  | _ => v
  end.

End Text.

(** ** Unique decoding

    Each encoding starts with a character that fixes the shape of the value and ends at a character
    that cannot continue it, so two encodings that agree as prefixes of one text agree entirely. *)

Lemma sapp_assoc (a b c : string) : (a +:+ b) +:+ c = a +:+ (b +:+ c).
Proof. induction a as [|x a IH]; cbn; [done|]. unfold String.append; fold String.append. by f_equal. Qed.

Lemma sapp_cons a s r : String a s +:+ r = String a (s +:+ r).
Proof. done. Qed.

Lemma sapp_nil r : "" +:+ r = r.
Proof. done. Qed.
Lemma sapp_empty s : s +:+ "" = s.
Proof. induction s as [|c s IH]; [done|]. by rewrite sapp_cons, IH. Qed.

(** *** Strings *)

(** Reads one escaped code unit off the front of a text. *)
Definition hex_value (c : Ascii.ascii) : nat :=
  let n := Ascii.nat_of_ascii c in if Nat.ltb n 58 then n - 48 else n - 87.

Definition unescape (s : string) : option (Ascii.ascii * string) :=
  match s with
  | "" => None
  | String "\"%char (String e s) =>
      let n := Ascii.nat_of_ascii e in
      if Nat.eqb n 34 || Nat.eqb n 92 then Some (e, s)
      else if Nat.eqb n 98 then Some (ascii_of_nat 8, s)
      else if Nat.eqb n 102 then Some (ascii_of_nat 12, s)
      else if Nat.eqb n 110 then Some (ascii_of_nat 10, s)
      else if Nat.eqb n 114 then Some (ascii_of_nat 13, s)
      else if Nat.eqb n 116 then Some (ascii_of_nat 9, s)
      else match s with
           | String _ (String _ (String a (String b s))) =>
               Some (ascii_of_nat (hex_value a * 16 + hex_value b), s)
           | _ => None
           end
  | String c s => if Nat.eqb (Ascii.nat_of_ascii c) 34 then None else Some (c, s)
  end.

Lemma unescape_escape c x : unescape (Text.escape c +:+ x) = Some (c, x).
Proof. destruct c as [[] [] [] [] [] [] [] []]; reflexivity. Qed.

Lemma unescape_dquote x : unescape (Text.dquote +:+ x) = None.
Proof. reflexivity. Qed.

Lemma escape_all_inj s1 s2 r1 r2 :
  Text.escape_all s1 +:+ Text.dquote +:+ r1 = Text.escape_all s2 +:+ Text.dquote +:+ r2 ->
  s1 = s2 /\ r1 = r2.
Proof.
  revert s2; induction s1 as [|c1 s1 IH]; intros [|c2 s2] H.
  - split; [done|]. by injection H.
  - exfalso. apply (f_equal unescape) in H. cbn [Text.escape_all] in H.
    rewrite sapp_assoc, unescape_escape in H. discriminate H.
  - exfalso. apply (f_equal unescape) in H. cbn [Text.escape_all] in H.
    rewrite sapp_assoc, unescape_escape in H. discriminate H.
  - cbn [Text.escape_all] in H. rewrite !sapp_assoc in H.
    pose proof (f_equal unescape H) as H'. rewrite !unescape_escape in H'.
    injection H' as -> H'. destruct (IH s2 H') as [-> ->]. done.
Qed.

Lemma quote_inj s1 s2 r1 r2 : Text.quote s1 +:+ r1 = Text.quote s2 +:+ r2 -> s1 = s2 /\ r1 = r2.
Proof.
  unfold Text.quote. rewrite !sapp_assoc. intros H.
  apply (inj (String.app Text.dquote)) in H. by apply escape_all_inj.
Qed.

(** *** Numbers *)

(** Characters a decimal integer is written with. *)
Definition num_char (c : Ascii.ascii) : bool :=
  let n := Ascii.nat_of_ascii c in (Nat.leb 48 n && Nat.leb n 57) || Nat.eqb n 45.

Fixpoint all_chars (p : Ascii.ascii -> bool) (s : string) : bool :=
  match s with "" => true | String c s => p c && all_chars p s end.

Lemma all_chars_app p s t : all_chars p (s +:+ t) = all_chars p s && all_chars p t.
Proof. induction s as [|a s IH]; [done|]. rewrite sapp_cons. cbn. by rewrite IH, andb_assoc. Qed.

(** The text that follows an encoding does not continue a number. *)
Definition delimited (s : string) : bool := match s with "" => true | String c _ => negb (num_char c) end.

Lemma span_inj p a b r1 r2 :
  all_chars p a = true -> all_chars p b = true ->
  match r1 with "" => True | String c _ => p c = false end ->
  match r2 with "" => True | String c _ => p c = false end ->
  a +:+ r1 = b +:+ r2 -> a = b /\ r1 = r2.
Proof.
  revert b; induction a as [|x a IH]; intros [|y b] Ha Hb H1 H2 H; cbn in *; bool_prop.
  - done.
  - change (r1 = String y (b +:+ r2)) in H. subst r1. cbn in H1. congruence.
  - change (String x (a +:+ r1) = r2) in H. subst r2. cbn in H2. congruence.
  - change (String x (a +:+ r1) = String y (b +:+ r2)) in H. injection H as -> H.
    destruct (IH b) as [-> ->]; done.
Qed.

Lemma all_chars_pretty_N_go x s :
  all_chars num_char s = true -> all_chars num_char (pretty_N_go x s) = true.
Proof.
  revert s. induction (N.lt_wf_0 x) as [x _ IH]; intros s Hs.
  destruct (decide (0 < x)%N).
  - rewrite pretty_N_go_step by done. apply IH; [apply N.div_lt; lia|].
    cbn. rewrite Hs, andb_true_r.
    assert (x `mod` 10 < 10)%N as Hlt by (apply N.mod_lt; lia).
    revert Hlt. generalize (x `mod` 10)%N. intros d Hd.
    assert (d = 0 \/ d = 1 \/ d = 2 \/ d = 3 \/ d = 4 \/ d = 5 \/ d = 6 \/ d = 7 \/ d = 8 \/ d = 9)%N
      as Hcases by lia.
    destruct_or?; subst; reflexivity.
  - assert (x = 0)%N as -> by lia. by rewrite pretty_N_go_0.
Qed.

Lemma all_chars_pretty_N (x : N) : all_chars num_char (pretty x) = true.
Proof.
  unfold pretty, pretty_N. case_decide; [done|]. by apply all_chars_pretty_N_go.
Qed.

Lemma all_chars_zstr z : all_chars num_char (zstr z) = true.
Proof.
  unfold zstr. destruct z as [|p|p]; cbn; [done| |].
  - apply all_chars_pretty_N.
  - unfold pretty, pretty_Z. apply (all_chars_pretty_N (Npos p)).
Qed.

Lemma zstr_inj z1 z2 r1 r2 :
  delimited r1 = true -> delimited r2 = true -> zstr z1 +:+ r1 = zstr z2 +:+ r2 -> z1 = z2 /\ r1 = r2.
Proof.
  intros H1 H2 H. destruct (span_inj num_char (zstr z1) (zstr z2) r1 r2) as [Hz Hr];
    [apply all_chars_zstr|apply all_chars_zstr|..|done|].
  - destruct r1; [done|]. cbn in H1. by apply negb_true_iff.
  - destruct r2; [done|]. cbn in H2. by apply negb_true_iff.
  - split; [|done]. by apply (inj pretty) in Hz.
Qed.

(** *** Sequences *)

(** The rest of a comma-separated sequence after its first element. *)
Fixpoint seps (ts : list string) (r : string) : string :=
  match ts with [] => r | t :: ts => "," +:+ t +:+ seps ts r end.

Lemma join_cons t ts r : join "," (t :: ts) +:+ r = t +:+ seps ts r.
Proof.
  revert t; induction ts as [|t' ts IH]; intros t; [done|].
  cbn [join seps]. rewrite !sapp_assoc. f_equal. f_equal. apply IH.
Qed.

Section Sequence.
Context {A B : Type} (enc : A -> result string) (nrm : A -> B) (close : Ascii.ascii).
Hypothesis Hclose : num_char close = false.
Hypothesis Hcomma : close <> ","%char.
Hypothesis Hhead : forall x s, enc x = Ok s -> exists a s', s = String a s' /\ a <> close.

(** An element is read back from any text it is a delimited prefix of. *)
Definition readable (x : A) : Prop :=
  forall s, enc x = Ok s -> forall y t, enc y = Ok t -> forall r1 r2,
  delimited r1 = true -> delimited r2 = true -> s +:+ r1 = t +:+ r2 -> nrm x = nrm y /\ r1 = r2.

Lemma seps_delimited ts r : delimited (seps ts (String close r)) = true.
Proof. destruct ts; cbn; [by rewrite Hclose|done]. Qed.

Lemma seps_inj l1 l2 ts1 ts2 r1 r2 :
  Forall readable l1 -> mapR enc l1 = Ok ts1 -> mapR enc l2 = Ok ts2 ->
  seps ts1 (String close r1) = seps ts2 (String close r2) -> map nrm l1 = map nrm l2 /\ r1 = r2.
Proof.
  intros Hr. revert l2 ts1 ts2; induction Hr as [|x l1 Hx Hl IH]; intros l2 ts1 ts2 H1 H2 H.
  - injection H1 as <-. destruct l2 as [|y l2]; cbn in H2; inv_bind; subst.
    + cbn in H. by injection H.
    + exfalso. cbn in H. change (String close r1 = String ","%char (x +:+ seps x0 (String close r2))) in H.
      congruence.
  - cbn in H1; inv_bind; subst. destruct l2 as [|y l2]; cbn in H2; inv_bind; subst.
    + exfalso. cbn in H. change (String ","%char (x0 +:+ seps x1 (String close r1)) = String close r2) in H.
      congruence.
    + cbn [seps] in H. apply (inj (String.app ",")) in H.
      match goal with Ha : enc x = Ok _, Hb : enc y = Ok _ |- _ =>
        destruct (Hx _ Ha _ _ Hb _ _ (seps_delimited _ _) (seps_delimited _ _) H) as [Hnx Hrest] end.
      edestruct IH as [Hmap ->]; [done|done|done|]. cbn. by rewrite Hnx, Hmap.
Qed.

Lemma sequence_inj l1 l2 ts1 ts2 r1 r2 :
  Forall readable l1 -> mapR enc l1 = Ok ts1 -> mapR enc l2 = Ok ts2 ->
  join "," ts1 +:+ String close r1 = join "," ts2 +:+ String close r2 ->
  map nrm l1 = map nrm l2 /\ r1 = r2.
Proof.
  intros Hr H1 H2 H. destruct l1 as [|x l1], l2 as [|y l2].
  - cbn in H1, H2. inv_bind; subst. cbn in H. by injection H.
  - exfalso. cbn in H1, H2. inv_bind; subst. rewrite join_cons in H.
    match goal with Hb : enc y = Ok _ |- _ => destruct (Hhead _ _ Hb) as (a & s' & -> & Ha) end.
    rewrite sapp_cons in H. cbn [join] in H. rewrite sapp_nil in H. congruence.
  - exfalso. cbn in H1, H2. inv_bind; subst. rewrite join_cons in H.
    match goal with Hb : enc x = Ok _ |- _ => destruct (Hhead _ _ Hb) as (a & s' & -> & Ha) end.
    rewrite sapp_cons in H. cbn [join] in H. rewrite sapp_nil in H. congruence.
  - inversion Hr as [|? ? Hx Hl]; subst. cbn in H1, H2. inv_bind; subst. rewrite !join_cons in H.
    match goal with Ha : enc x = Ok _, Hb : enc y = Ok _ |- _ =>
        destruct (Hx _ Ha _ _ Hb _ _ (seps_delimited _ _) (seps_delimited _ _) H) as [Hnx Hrest] end.
    edestruct seps_inj as [Hmap ->]; [exact Hl|done|done|done|]. cbn. by rewrite Hnx, Hmap.
Qed.
End Sequence.

(** *** Values *)

Definition is_defined (p : string * value) : bool := match snd p with VUndef => false | _ => true end.

Definition member_text (p : string * value) : result string :=
  t ← Text.canonicalize (snd p); Ok (Text.canonicalizeString (fst p) +:+ ":" +:+ t).

Lemma canonicalize_VObj fields :
  Text.canonicalize (VObj fields) =
  ts ← mapR member_text (Text.sort_members (filter_by is_defined fields));
  Ok ("{" +:+ join "," ts +:+ "}").
Proof.
  cbn [Text.canonicalize]. f_equal.
  set (members := (fix members (l : object) := _)).
  assert (members fields = map (fun p => (fst p, Text.canonicalize (snd p))) (filter_by is_defined fields)) as ->.
  { induction fields as [|[k []] l IH]; cbn; try done; by f_equal. }
  unfold Text.sort_members. erewrite js_sort_map; [by rewrite mapR_map|done].
Qed.

Lemma normal_VObj fields :
  Text.normal (VObj fields) =
  VObj (map (fun p => (fst p, Text.normal (snd p))) (Text.sort_members (filter_by is_defined fields))).
Proof.
  cbn [Text.normal]. f_equal. set (members := (fix members (l : object) := _)).
  assert (members fields = map (fun p => (fst p, Text.normal (snd p))) (filter_by is_defined fields)) as ->.
  { induction fields as [|[k []] l IH]; cbn; try done; by f_equal. }
  unfold Text.sort_members. by erewrite js_sort_map.
Qed.

(** The first character of an encoding fixes the constructor. *)
Definition head_class (v : value) (a : Ascii.ascii) : Prop :=
  match v with
  | VUndef => False
  | VNull => a = "n"%char
  | VBool b => a = if b then "t"%char else "f"%char
  | VNum _ => num_char a = true
  | VStr _ => a = ascii_of_nat 34
  | VArr _ => a = "["%char
  | VObj _ => a = "{"%char
  end.

Lemma pretty_N_go_length x s : (String.length s <= String.length (pretty_N_go x s))%nat.
Proof.
  revert s. induction (N.lt_wf_0 x) as [x _ IH]; intros s. destruct (decide (0 < x)%N).
  - rewrite pretty_N_go_step by done. etransitivity; [|apply IH; apply N.div_lt; lia]. cbn. lia.
  - assert (x = 0)%N as -> by lia. by rewrite pretty_N_go_0.
Qed.

Lemma pretty_N_nonempty (x : N) : pretty x <> "".
Proof.
  unfold pretty, pretty_N. case_decide; [done|]. rewrite pretty_N_go_step by lia.
  intros E. apply (f_equal String.length) in E.
  pose proof (pretty_N_go_length (x `div` 10) (String (pretty_N_char (x `mod` 10)) "")).
  cbn in *. lia.
Qed.

Lemma zstr_nonempty z : zstr z <> "".
Proof.
  unfold zstr. destruct z as [|p|p]; [done| |done]. apply (pretty_N_nonempty (Npos p)).
Qed.

Lemma zstr_head z : exists a s, zstr z = String a s /\ num_char a = true.
Proof.
  pose proof (all_chars_zstr z) as H. destruct (zstr z) as [|a s] eqn:E.
  - by apply zstr_nonempty in E.
  - cbn in H. bool_prop. eauto.
Qed.

Lemma canonicalize_head v s : Text.canonicalize v = Ok s -> exists a s', s = String a s' /\ head_class v a.
Proof.
  destruct v as [| |b|n|t|l|fields]; intros H.
  - discriminate H.
  - injection H as <-. by eexists _, _.
  - injection H as <-. destruct b; by eexists _, _.
  - cbn in H. destruct (Num.safe_integer n) as [z|]; [|done]. injection H as <-.
    destruct (zstr_head z) as (a & s & -> & Ha). by eexists _, _.
  - injection H as <-. by eexists _, _.
  - cbn [Text.canonicalize] in H. inv_bind; subst. by eexists _, _.
  - rewrite canonicalize_VObj in H. inv_bind; subst. by eexists _, _.
Qed.

Lemma same_head v w s t r1 r2 :
  Text.canonicalize v = Ok s -> Text.canonicalize w = Ok t -> s +:+ r1 = t +:+ r2 ->
  exists a, head_class v a /\ head_class w a.
Proof.
  intros (a & s' & -> & Ha)%canonicalize_head (b & t' & -> & Hb)%canonicalize_head H.
  rewrite !sapp_cons in H. injection H as -> _. eauto.
Qed.

Lemma member_readable p :
  readable Text.canonicalize Text.normal (snd p) ->
  readable member_text (fun p => (fst p, Text.normal (snd p))) p.
Proof.
  intros Hp s Hs q t Ht r1 r2 H1 H2 H. unfold member_text in Hs, Ht. inv_bind; subst.
  rewrite !sapp_assoc in H. apply quote_inj in H as [Hk H]. apply (inj (String.app ":")) in H.
  match goal with
  | Ha : Text.canonicalize (snd p) = Ok _, Hb : Text.canonicalize (snd q) = Ok _ |- _ =>
      destruct (Hp _ Ha _ _ Hb _ _ H1 H2 H) as [Hn ->]
  end. by rewrite Hk, Hn.
Qed.

Lemma canonicalize_readable v : readable Text.canonicalize Text.normal v.
Proof.
  induction v as [| |b|n|u|l IH|fields IH] using value_ind'; intros s Hs w t Ht r1 r2 H1 H2 H;
    destruct (same_head _ _ _ _ _ _ Hs Ht H) as (a & Ha & Hb);
    destruct w as [| |b'|n'|u'|l'|fields']; cbn in Ha, Hb; subst; try done;
    try (destruct b; done); try (destruct b'; done); try (destruct b, b'; done).
  - injection Hs as <-; injection Ht as <-. by injection H.
  - destruct b, b'; try done; injection Hs as <-; injection Ht as <-; by injection H.
  - cbn in Hs, Ht |- *.
    destruct (Num.safe_integer n) as [z|]; [|done]. destruct (Num.safe_integer n') as [z'|]; [|done].
    injection Hs as <-; injection Ht as <-. by destruct (zstr_inj z z' r1 r2) as [-> ->].
  - injection Hs as <-; injection Ht as <-. by apply quote_inj in H as [-> ->].
  - cbn [Text.canonicalize] in Hs, Ht. inv_bind; subst.
    rewrite !sapp_assoc in H. apply (inj (String.app "[")) in H. rewrite mapR_map in *.
    edestruct (sequence_inj Text.canonicalize Text.normal "]"%char) as [Hm ->];
      [done|done| |exact IH|done|done|exact H|by cbn; rewrite Hm].
    intros y s (a & s' & -> & Hy)%canonicalize_head. eexists _, _; split; [done|].
    intros ->. by destruct y as [| |[]| | | |].
  - rewrite canonicalize_VObj in Hs, Ht. inv_bind; subst.
    rewrite !sapp_assoc in H. apply (inj (String.app "{")) in H.
    match goal with
    | Hl : mapR _ (Text.sort_members (filter_by _ fields)) = Ok _,
      Hr : mapR _ (Text.sort_members (filter_by _ fields')) = Ok _ |- _ =>
        edestruct (sequence_inj member_text (fun p => (fst p, Text.normal (snd p))) "}"%char) as [Hm ->];
          [done|done| | |exact Hl|exact Hr|exact H|by rewrite !normal_VObj, Hm]
    end.
    + intros y s Hy. unfold member_text in Hy. inv_bind; subst. by eexists _, _.
    + rewrite Forall_forall in IH |- *. intros p Hp.
      apply elem_of_js_sort, elem_of_filter_by in Hp as [Hp _]. by apply member_readable, IH.
Qed.

(** The canonical text of a tool view determines the view up to the order of object members. *)
Lemma canonicalize_injective v w s :
  Text.canonicalize v = Ok s -> Text.canonicalize w = Ok s -> Text.normal v = Text.normal w.
Proof.
  intros Hv Hw. by destruct (canonicalize_readable v s Hv w s Hw "" "").
Qed.

(** ** Values without numbers

    On a value built from strings, booleans, arrays and objects with no absent member, the event log's
    encoding and the tool view's write the same text, so the log's is injective there too. *)
Fixpoint textual (v : value) : bool :=
  match v with
  | VUndef | VNum _ => false
  | VNull | VBool _ | VStr _ => true
  | VArr l => forallb textual l
  | VObj fields => forallb (fun p => textual (snd p)) fields
  end.

Lemma textual_defined fields :
  forallb (fun p => textual (snd p)) fields = true -> filter_by is_defined fields = fields.
Proof.
  induction fields as [|[k x] l IH]; cbn; [done|]. intros H. bool_prop. rewrite IH by done. by destruct x.
Qed.

Lemma mapR_total {A B} (f : A -> result B) (g : A -> B) l :
  Forall (fun x => f x = Ok (g x)) l -> mapR f l = Ok (map g l).
Proof. induction 1 as [|x l Hx Hl IH]; cbn; [done|]. by rewrite Hx, IH. Qed.

Lemma canonical_agree v : textual v = true -> Text.canonicalize v = Ok (Text.canonicalText v).
Proof.
  unfold Text.canonicalText. induction v as [| |b|n|u|l IH|fields IH] using value_ind'; intros Hv; cbn in Hv; try done.
  - cbn. rewrite mapR_map. rewrite (mapR_total _ (fun x => default "" (Text.canonicalJson x))); [done|].
    rewrite Forall_forall in IH |- *. rewrite forallb_true in Hv. intros x Hx. unfold id. rewrite IH by auto.
    specialize (Hv x Hx). by destruct x.
  - rewrite canonicalize_VObj, textual_defined by done. cbn [Text.canonicalJson default].
    unfold Text.sort_members. erewrite (js_sort_map (fun p => (fst p, default "undefined" (Text.canonicalJson (snd p)))));
      [|intros; reflexivity].
    rewrite map_map. rewrite (mapR_total _ (fun p => Text.quote (fst p) +:+ ":" +:+ default "undefined" (Text.canonicalJson (snd p)))); [done|].
    rewrite Forall_forall in IH |- *. rewrite forallb_true in Hv. intros p Hp. apply elem_of_js_sort in Hp.
    unfold member_text. rewrite IH by auto. done.
Qed.

Lemma canonicalText_injective v w :
  textual v = true -> textual w = true -> Text.canonicalText v = Text.canonicalText w -> Text.normal v = Text.normal w.
Proof.
  intros Hv Hw H. apply (canonicalize_injective _ _ (Text.canonicalText v)); [by apply canonical_agree|].
  rewrite H. by apply canonical_agree.
Qed.

(** A member of the normal form of an object. *)
Definition member (v : value) (k : string) : option value := match v with VObj f => JMap.get f k | _ => None end.

Lemma get_sort_members {A} (l : list (string * A)) k :
  NoDup (map fst l) -> JMap.get (Text.sort_members l) k = JMap.get l k.
Proof.
  intros Hnd. unfold Text.sort_members. set (cmp := fun a b : string * A => strcmp (fst a) (fst b)).
  assert (NoDup (JMap.keys (js_sort cmp l))) as Hnd' by (unfold JMap.keys; by rewrite js_sort_Permutation).
  apply option_eq. intros x. split; intros H%get_Some_elem; (apply get_elem; [done|]); by apply (elem_of_js_sort cmp).
Qed.

Lemma get_map_snd {A B} (f : A -> B) (l : list (string * A)) k :
  JMap.get (map (fun p => (fst p, f (snd p))) l) k = f <$> JMap.get l k.
Proof.
  induction l as [|[k' x] l IH]; cbn [map]; [done|]. rewrite !get_cons. cbn [fst snd]. by destruct (k' ==? k).
Qed.

Lemma member_normal fields k :
  textual (VObj fields) = true -> NoDup (map fst fields) ->
  member (Text.normal (VObj fields)) k = Text.normal <$> JMap.get fields k.
Proof.
  intros Ht Hnd. rewrite normal_VObj, textual_defined by done. cbn [member].
  by rewrite get_map_snd, get_sort_members.
Qed.
