(* ===== verification/JsonParse.v ===== *)
(** * JSON.parse

    The reader of JSON text the runtime provides, and its round trip with the canonical encoding. A
    repeated member keeps its first place and its last value, as an assignment to an object does. A
    [\u] escape beyond Latin-1 has no representation here and is refused. The wording of a syntax
    error is the runtime's: [syntaxError] is what it says of a text. *)

From S2P Require Import Prelude Collections Number Json.
From Corelib Require Import SpecFloat.

Module Parse.

(** JSON white space. *)
Definition is_ws (c : ascii) : bool := existsb (Nat.eqb (nat_of_ascii c)) [9; 10; 13; 32]%nat.

Fixpoint skip_ws (s : string) : string := match s with String c t => if is_ws c then skip_ws t else s | "" => "" end.

(** Literal text at the front. *)
Fixpoint literal (l s : string) : option string :=
  match l, s with
  | "", _ => Some s
  | String a l, String b s => if a ==? b then literal l s else None
  | String _ _, "" => None
  end.

(** *** Strings *)
Definition hex (c : ascii) : option nat :=
  let n := nat_of_ascii c in
  if Nat.leb 48 n && Nat.leb n 57 then Some (n - 48)%nat
  else if Nat.leb 97 n && Nat.leb n 102 then Some (n - 87)%nat
  else if Nat.leb 65 n && Nat.leb n 70 then Some (n - 55)%nat else None.

(** The four digits of a [\u] escape, within Latin-1. *)
Definition unicode (a b c d : ascii) : option ascii :=
  match hex a, hex b, hex c, hex d with
  | Some 0%nat, Some 0%nat, Some hi, Some lo => Some (ascii_of_nat (hi * 16 + lo))
  | _, _, _, _ => None
  end.

Definition short_escape (c : ascii) : option ascii :=
  let n := nat_of_ascii c in
  if Nat.eqb n 34 || Nat.eqb n 92 || Nat.eqb n 47 then Some c
  else if Nat.eqb n 98 then Some (ascii_of_nat 8)
  else if Nat.eqb n 102 then Some (ascii_of_nat 12)
  else if Nat.eqb n 110 then Some (ascii_of_nat 10)
  else if Nat.eqb n 114 then Some (ascii_of_nat 13)
  else if Nat.eqb n 116 then Some (ascii_of_nat 9) else None.

(** The rest of a string literal after its opening quote. *)
Fixpoint string_body (s : string) : option (string * string) :=
  match s with
  | "" => None
  | String c rest =>
      if Nat.eqb (nat_of_ascii c) 34 then Some ("", rest)
      else if Nat.eqb (nat_of_ascii c) 92 then
        match rest with
        | String e rest =>
            if Nat.eqb (nat_of_ascii e) 117 then
              match rest with
              | String a (String b (String c (String d rest))) =>
                  match unicode a b c d, string_body rest with
                  | Some x, Some (t, r) => Some (String x t, r)
                  | _, _ => None
                  end
              | _ => None
              end
            else match short_escape e, string_body rest with
                 | Some x, Some (t, r) => Some (String x t, r)
                 | _, _ => None
                 end
        | "" => None
        end
      else if Nat.ltb (nat_of_ascii c) 32 then None
      else match string_body rest with Some (t, r) => Some (String c t, r) | None => None end
  end.

(** *** Numbers *)
Definition is_digit (c : ascii) : bool := match Num.digit c with Some _ => true | None => false end.

Fixpoint span_digits (s : string) : string * string :=
  match s with
  | String c t => if is_digit c then let '(d, r) := span_digits t in (String c d, r) else ("", s)
  | "" => ("", "")
  end.

Definition int_part (s : string) : option (string * string) :=
  match s with
  | String c t => if c ==? "0"%char then Some ("0", t) else if is_digit c then Some (span_digits s) else None
  | "" => None
  end.

(** A fraction or an exponent, once begun, has at least one digit. *)
Definition frac_part (s : string) : option (string * string) :=
  match s with
  | String "."%char t => match span_digits t with ("", _) => None | (d, r) => Some ("." +:+ d, r) end
  | _ => Some ("", s)
  end.

Definition exp_digits (mark : string) (s : string) : option (string * string) :=
  match span_digits s with ("", _) => None | (d, r) => Some (mark +:+ d, r) end.

Definition exp_part (s : string) : option (string * string) :=
  match s with
  | String "e"%char t | String "E"%char t =>
      match t with
      | String "+"%char u => exp_digits "e+" u
      | String "-"%char u => exp_digits "e-" u
      | _ => exp_digits "e" t
      end
  | _ => Some ("", s)
  end.

(** The lexeme of a number; its value is what [Number] makes of it. *)
Definition lexeme (s : string) : option (string * string) :=
  let '(sign, s) := match s with String "-"%char t => ("-", t) | _ => ("", s) end in
  match int_part s with
  | None => None
  | Some (i, s) =>
      match frac_part s with
      | None => None
      | Some (f, s) => match exp_part s with None => None | Some (e, r) => Some (sign +:+ i +:+ f +:+ e, r) end
      end
  end.

(** *** Values *)
Inductive outcome : Type :=
| Parsed (v : value) (rest : string)
| Syntax
| Exhausted.

(** What is not a bracketed value: a literal, a string or a number. *)
Definition scalar (s : string) : outcome :=
  match literal "null" s with
  | Some r => Parsed VNull r
  | None =>
  match literal "true" s with
  | Some r => Parsed (VBool true) r
  | None =>
  match literal "false" s with
  | Some r => Parsed (VBool false) r
  | None =>
  match s with
  | String c t =>
      if Nat.eqb (nat_of_ascii c) 34 then match string_body t with Some (u, r) => Parsed (VStr u) r | None => Syntax end
      else match lexeme s with Some (n, r) => Parsed (VNum (Num.of_string n)) r | None => Syntax end
  | "" => Syntax
  end end end end.

(** Skips white space and takes one character. *)
Definition expect (c : ascii) (s : string) : option string :=
  match skip_ws s with String d r => if d ==? c then Some r else None | "" => None end.

(** [parse_value] reads one value; [elements] and [members] the rest of an array or an object, from
    the position of an element or a member. *)
Fixpoint parse_value (fuel : nat) (s : string) : outcome :=
  match fuel with
  | O => Exhausted
  | S fuel =>
      match expect "["%char s with
      | Some t => match expect "]"%char t with Some r => Parsed (VArr []) r | None => elements fuel [] t end
      | None =>
          match expect "{"%char s with
          | Some t => match expect "}"%char t with Some r => Parsed (VObj []) r | None => members fuel [] t end
          | None => scalar (skip_ws s)
          end
      end
  end
with elements (fuel : nat) (acc : list value) (s : string) : outcome :=
  match fuel with
  | O => Exhausted
  | S fuel =>
      match parse_value fuel s with
      | Parsed v r =>
          match expect ","%char r with
          | Some r => elements fuel (acc ++ [v]) r
          | None => match expect "]"%char r with Some r => Parsed (VArr (acc ++ [v])) r | None => Syntax end
          end
      | o => o
      end
  end
with members (fuel : nat) (acc : object) (s : string) : outcome :=
  match fuel with
  | O => Exhausted
  | S fuel =>
      match expect (ascii_of_nat 34) s with
      | None => Syntax
      | Some t =>
          match string_body t with
          | None => Syntax
          | Some (k, r) =>
              match expect ":"%char r with
              | None => Syntax
              | Some r =>
                  match parse_value fuel r with
                  | Parsed v r =>
                      match expect ","%char r with
                      | Some r => members fuel (JMap.set acc k v) r
                      | None => match expect "}"%char r with Some r => Parsed (VObj (JMap.set acc k v)) r | None => Syntax end
                      end
                  | o => o
                  end
              end
          end
      end
  end.

(** Every nested call consumes a character or opens a value that does. *)
Definition fuel_for (s : string) : nat := 2 * String.length s + 2.

(** [JSON.parse(text)] *)
Definition JSON_parse (syntaxError : string -> string) (text : string) : result value :=
  match parse_value (fuel_for text) text with
  | Parsed v r => if skip_ws r ==? "" then Ok v else Throw (syntaxError text)
  | _ => Throw (syntaxError text)
  end.

End Parse.

(** ** The reader always answers

    A value read is shorter than the text it was read from, and the fuel of [JSON_parse] is never
    exhausted. *)
Lemma skip_ws_length s : (String.length (Parse.skip_ws s) <= String.length s)%nat.
Proof. induction s as [|c s IH]; [done|]. cbn [Parse.skip_ws String.length]. destruct (Parse.is_ws c); cbn [String.length]; lia. Qed.

Lemma literal_length l s r : Parse.literal l s = Some r -> String.length s = (String.length l + String.length r)%nat.
Proof.
  revert s; induction l as [|a l IH]; intros s; [by intros [= <-]|]. destruct s as [|b s]; cbn [Parse.literal]; [done|].
  destruct (a ==? b); [|done]. intros H. apply IH in H. cbn [String.length]. lia.
Qed.

Lemma string_body_length s t r : Parse.string_body s = Some (t, r) -> (String.length r < String.length s)%nat.
Proof.
  remember (String.length s) as n eqn:Hn. revert s t r Hn. induction (lt_wf n) as [n _ IH]; intros s t r ->.
  destruct s as [|c s]; cbn [Parse.string_body]; [done|]. destruct (Nat.eqb _ 34); [intros [= _ <-]; cbn; lia|].
  destruct (Nat.eqb (nat_of_ascii c) 92).
  - destruct s as [|e s]; [done|]. destruct (Nat.eqb (nat_of_ascii e) 117).
    + destruct s as [|a [|b [|c' [|d s]]]]; try done. destruct (Parse.unicode a b c' d); [|done].
      destruct (Parse.string_body s) as [[t' r']|] eqn:E; [|done]. intros [= _ <-]. eapply (IH (String.length s)) in E; [|cbn; lia|reflexivity]. cbn. lia.
    + destruct (Parse.short_escape e); [|done]. destruct (Parse.string_body s) as [[t' r']|] eqn:E; [|done].
      intros [= _ <-]. eapply (IH (String.length s)) in E; [|cbn; lia|reflexivity]. cbn. lia.
  - destruct (Nat.ltb _ 32); [done|]. destruct (Parse.string_body s) as [[t' r']|] eqn:E; [|done].
    intros [= _ <-]. eapply (IH (String.length s)) in E; [|cbn; lia|reflexivity]. cbn. lia.
Qed.

Lemma span_digits_length s d r : Parse.span_digits s = (d, r) -> (String.length d + String.length r = String.length s)%nat.
Proof.
  revert d r; induction s as [|c s IH]; intros d r; [by intros [= <- <-]|]. cbn [Parse.span_digits].
  destruct (Parse.is_digit c); [|by intros [= <- <-]]. destruct (Parse.span_digits s) as [d' r'].
  intros [= <- <-]. cbn. by rewrite <- (IH d' r').
Qed.

Lemma exp_digits_length m s x r : Parse.exp_digits m s = Some (x, r) -> (String.length r <= String.length s)%nat.
Proof.
  unfold Parse.exp_digits. destruct (Parse.span_digits s) as [d r'] eqn:E. apply span_digits_length in E.
  destruct d; [done|]. intros [= _ <-]. lia.
Qed.

Lemma lexeme_length s n r : Parse.lexeme s = Some (n, r) -> (String.length r < String.length s)%nat.
Proof.
  unfold Parse.lexeme.
  set (p := match s with String "-"%char t => ("-", t) | _ => ("", s) end).
  assert (String.length (snd p) <= String.length s)%nat as Hp.
  { unfold p. destruct s as [|[[] [] [] [] [] [] [] []] s]; cbn; lia. }
  destruct p as [sign s0]. cbn [snd] in Hp. destruct (Parse.int_part s0) as [[i s1]|] eqn:Ei; [|done].
  destruct (Parse.frac_part s1) as [[f s2]|] eqn:Ef; [|done]. destruct (Parse.exp_part s2) as [[e r']|] eqn:Ee; [|done].
  intros [= _ <-].
  assert (String.length s1 < String.length s0)%nat.
  { destruct s0 as [|c t]; [done|]. unfold Parse.int_part in Ei. destruct (c ==? _); [injection Ei as _ <-; cbn; lia|].
    destruct (Parse.is_digit c) eqn:Ec; [|done]. injection Ei as Ei. cbn [Parse.span_digits] in Ei. rewrite Ec in Ei.
    destruct (Parse.span_digits t) as [d r] eqn:E. apply span_digits_length in E. injection Ei as _ <-. cbn. lia. }
  assert (String.length s2 <= String.length s1)%nat.
  { unfold Parse.frac_part in Ef. destruct s1 as [|[[] [] [] [] [] [] [] []] t]; try (injection Ef as _ <-; lia).
    destruct (Parse.span_digits t) as [d r] eqn:E. apply span_digits_length in E. destruct d; [done|]. injection Ef as _ <-. cbn. lia. }
  assert (String.length r' <= String.length s2)%nat.
  { unfold Parse.exp_part in Ee. destruct s2 as [|[[] [] [] [] [] [] [] []] t]; try (injection Ee as _ <-; lia);
      destruct t as [|[[] [] [] [] [] [] [] []] u]; try done; apply exp_digits_length in Ee; cbn in *; lia. }
  lia.
Qed.

Lemma scalar_progress s :
  match Parse.scalar s with Parse.Parsed _ r => (String.length r < String.length s)%nat | Parse.Syntax => True | Parse.Exhausted => False end.
Proof.
  unfold Parse.scalar. destruct (Parse.literal "null" s) eqn:E1; [apply literal_length in E1; cbn in E1; lia|].
  destruct (Parse.literal "true" s) eqn:E2; [apply literal_length in E2; cbn in E2; lia|].
  destruct (Parse.literal "false" s) eqn:E3; [apply literal_length in E3; cbn in E3; lia|].
  destruct s as [|c t]; [done|]. destruct (Nat.eqb _ 34).
  - destruct (Parse.string_body t) as [[u r]|] eqn:E; [|done]. apply string_body_length in E. cbn. lia.
  - destruct (Parse.lexeme _) as [[n r]|] eqn:E; [|done]. by apply lexeme_length in E.
Qed.

(** What a call on [s] may end in: a shorter rest, a syntax error, or too little fuel. *)
Definition progress (slack fuel : nat) (s : string) (o : Parse.outcome) : Prop :=
  match o with
  | Parse.Parsed _ r => (String.length r < String.length s)%nat
  | Parse.Syntax => True
  | Parse.Exhausted => (fuel < 2 * String.length s + slack)%nat
  end.

Lemma expect_length c s r : Parse.expect c s = Some r -> (String.length r < String.length s)%nat.
Proof.
  unfold Parse.expect. pose proof (skip_ws_length s). destruct (Parse.skip_ws s) as [|d t]; [done|].
  destruct (d ==? c); [|done]. intros [= <-]. cbn [String.length] in *. lia.
Qed.

Lemma parse_progress fuel :
  (forall s, progress 1 fuel s (Parse.parse_value fuel s)) /\
  (forall acc s, progress 2 fuel s (Parse.elements fuel acc s)) /\
  (forall acc s, progress 2 fuel s (Parse.members fuel acc s)).
Proof.
  induction fuel as [|fuel (IHv & IHe & IHm)]; [split_and!; intros; cbn; lia|]. split_and!.
  - intros s. cbn [Parse.parse_value]. destruct (Parse.expect "["%char s) as [t|] eqn:E1.
    + apply expect_length in E1. destruct (Parse.expect "]"%char t) as [r|] eqn:E2; [apply expect_length in E2; cbn [progress]; lia|].
      specialize (IHe [] t). destruct (Parse.elements fuel [] t); cbn [progress] in *; lia.
    + destruct (Parse.expect "{"%char s) as [t|] eqn:E2.
      * apply expect_length in E2. destruct (Parse.expect "}"%char t) as [r|] eqn:E3; [apply expect_length in E3; cbn [progress]; lia|].
        specialize (IHm [] t). destruct (Parse.members fuel [] t); cbn [progress] in *; lia.
      * pose proof (scalar_progress (Parse.skip_ws s)). pose proof (skip_ws_length s).
        destruct (Parse.scalar _); cbn [progress] in *; lia.
  - intros acc s. cbn [Parse.elements]. specialize (IHv s). destruct (Parse.parse_value fuel s) as [v r| |]; cbn [progress] in IHv; [|done|cbn [progress]; lia].
    destruct (Parse.expect ","%char r) as [r'|] eqn:E1.
    + apply expect_length in E1. specialize (IHe (acc ++ [v]) r'). destruct (Parse.elements _ _ _); cbn [progress] in *; lia.
    + destruct (Parse.expect "]"%char r) as [r'|] eqn:E2; [apply expect_length in E2; cbn [progress]; lia|done].
  - intros acc s. cbn [Parse.members]. destruct (Parse.expect (ascii_of_nat 34) s) as [t|] eqn:E0; [|done]. apply expect_length in E0.
    destruct (Parse.string_body t) as [[k u]|] eqn:Eb; [|done]. apply string_body_length in Eb.
    destruct (Parse.expect ":"%char u) as [w|] eqn:Ec; [|done]. apply expect_length in Ec.
    specialize (IHv w). destruct (Parse.parse_value fuel w) as [v r| |]; cbn [progress] in IHv; [|done|cbn [progress]; lia].
    destruct (Parse.expect ","%char r) as [r'|] eqn:E1.
    + apply expect_length in E1. specialize (IHm (JMap.set acc k v) r'). destruct (Parse.members _ _ _); cbn [progress] in *; lia.
    + destruct (Parse.expect "}"%char r) as [r'|] eqn:E2; [apply expect_length in E2; cbn [progress]; lia|done].
Qed.

Lemma parse_never_exhausted s : Parse.parse_value (Parse.fuel_for s) s <> Parse.Exhausted.
Proof.
  destruct (parse_progress (Parse.fuel_for s)) as [H _]. specialize (H s). destruct (Parse.parse_value _ s); [done|done|].
  unfold Parse.fuel_for in H. cbn [progress] in H. lia.
Qed.

(** ** Reading back what was written *)

Lemma expect_hit c r : Parse.is_ws c = false -> Parse.expect c (String c r) = Some r.
Proof. intros H. unfold Parse.expect. cbn [Parse.skip_ws]. by rewrite H, eqb_refl. Qed.

Lemma expect_miss c d r : Parse.is_ws d = false -> d <> c -> Parse.expect c (String d r) = None.
Proof. intros H Hne. unfold Parse.expect. cbn [Parse.skip_ws]. by rewrite H, (proj2 (eqb_false d c)). Qed.

Lemma string_body_escape c x :
  Parse.string_body (Text.escape c +:+ x) = match Parse.string_body x with Some (t, r) => Some (String c t, r) | None => None end.
Proof. destruct c as [[] [] [] [] [] [] [] []]; reflexivity. Qed.

Lemma string_body_quote s r : Parse.string_body (Text.escape_all s +:+ Text.dquote +:+ r) = Some (s, r).
Proof.
  induction s as [|c s IH]; [done|]. cbn [Text.escape_all]. by rewrite sapp_assoc, string_body_escape, IH.
Qed.

(** *** Integers *)

(** The text after a number does not continue it. *)
Definition ends (s : string) : bool :=
  match s with "" => true | String c _ => negb (Parse.is_digit c || (c ==? "."%char) || (c ==? "e"%char) || (c ==? "E"%char)) end.

Lemma span_digits_app d r : all_chars Parse.is_digit d = true -> ends r = true -> Parse.span_digits (d +:+ r) = (d, r).
Proof.
  intros Hd Hr. induction d as [|c d IH].
  - rewrite sapp_nil. destruct r as [|c r]; [done|]. cbn [ends] in Hr. bool_prop. cbn [Parse.span_digits].
    match goal with H : Parse.is_digit c = false |- _ => by rewrite H end.
  - cbn [all_chars] in Hd. bool_prop. rewrite sapp_cons. cbn [Parse.span_digits].
    match goal with H : Parse.is_digit c = true |- _ => rewrite H end. by rewrite IH.
Qed.

Lemma digit_value (d : N) : (d < 10)%N ->
  Num.digit (pretty_N_char d) = Some (Z.of_N d) /\ Parse.is_digit (pretty_N_char d) = true /\ (pretty_N_char d = "0"%char -> d = 0%N).
Proof.
  intros Hd. assert (d = 0 \/ d = 1 \/ d = 2 \/ d = 3 \/ d = 4 \/ d = 5 \/ d = 6 \/ d = 7 \/ d = 8 \/ d = 9)%N as H by lia.
  destruct_or? H; subst; split_and!; done.
Qed.

Lemma digits_pretty_go x s :
  exists k, 0 <= k /\ ((0 < x)%N -> 0 < k) /\ Num.digits 0 0 (pretty_N_go x s) = Num.digits (Z.of_N x) k s.
Proof.
  revert s. induction (N.lt_wf_0 x) as [x _ IH]; intros s. destruct (decide (0 < x)%N) as [Hx|Hx].
  - rewrite pretty_N_go_step by done.
    destruct (IH (x `div` 10)%N) with (s := String (pretty_N_char (x `mod` 10)) s) as (k & Hk & _ & ->); [apply N.div_lt; lia|].
    exists (k + 1). split; [lia|]. split; [lia|]. cbn [Num.digits]. destruct (digit_value (x `mod` 10)%N) as (-> & _); [apply N.mod_lt; lia|].
    f_equal. pose proof (N.div_mod x 10 ltac:(done)). lia.
  - assert (x = 0)%N as -> by lia. rewrite pretty_N_go_0. exists 0. done.
Qed.

(** A positive number is written with digits, the first of them not zero. *)
Lemma pretty_go_positive x s :
  (0 < x)%N -> all_chars Parse.is_digit s = true ->
  exists c t, pretty_N_go x s = String c t /\ Parse.is_digit c = true /\ c <> "0"%char /\ all_chars Parse.is_digit t = true.
Proof.
  revert s. induction (N.lt_wf_0 x) as [x _ IH]; intros s Hx Hs. rewrite pretty_N_go_step by done.
  destruct (digit_value (x `mod` 10)%N) as (_ & Hd & Hz); [apply N.mod_lt; lia|].
  destruct (decide (0 < x `div` 10)%N) as [Hq|Hq].
  - apply IH; [apply N.div_lt; lia|done|]. cbn [all_chars]. by rewrite Hd, Hs.
  - apply N.nlt_ge, N.le_0_r in Hq as Hq0. rewrite Hq0, pretty_N_go_0. eexists _, _. split; [done|]. split; [done|]. split; [|done].
    intros H0. apply Hz in H0. pose proof (N.div_mod x 10 ltac:(done)) as Hdm. rewrite Hq0, H0 in Hdm. lia.
Qed.

Lemma zstr_positive p :
  exists c t, zstr (Zpos p) = String c t /\ Parse.is_digit c = true /\ c <> "0"%char /\ all_chars Parse.is_digit t = true /\
    exists k, 0 < k /\ Num.digits 0 0 (String c t) = (Zpos p, k, "").
Proof.
  change (zstr (Zpos p)) with (pretty (Npos p)). unfold pretty, pretty_N. rewrite decide_False by done.
  destruct (digits_pretty_go (Npos p) "") as (k & _ & Hk & Hdig).
  destruct (pretty_go_positive (Npos p) "") as (c & t & Heq & Hc & H0 & Ht); [lia|done|]. rewrite Heq in Hdig |- *.
  exists c, t. split_and!; try done. exists k. split; [by apply Hk|]. exact Hdig.
Qed.

Lemma zstr_negative p : zstr (Zneg p) = String "-"%char (zstr (Zpos p)).
Proof. done. Qed.

(** A digit is no sign, no letter and no space. *)
Lemma digit_not_space c : Parse.is_digit c = true -> Num.is_space c = false.
Proof. destruct c as [[] [] [] [] [] [] [] []]; vm_compute; done. Qed.

Lemma int_part_positive p r : ends r = true -> Parse.int_part (zstr (Zpos p) +:+ r) = Some (zstr (Zpos p), r).
Proof.
  intros Hr. destruct (zstr_positive p) as (c & t & -> & Hc & H0 & Ht & _). rewrite sapp_cons. unfold Parse.int_part.
  rewrite (proj2 (eqb_false c _) H0), Hc. f_equal. rewrite <- sapp_cons. apply span_digits_app; [|done]. cbn [all_chars]. by rewrite Hc.
Qed.

Lemma lexeme_rest sign i r :
  Parse.int_part (i +:+ r) = Some (i, r) -> ends r = true ->
  match Parse.int_part (i +:+ r) with
  | None => None
  | Some (i, s) =>
      match Parse.frac_part s with
      | None => None
      | Some (f, s) => match Parse.exp_part s with None => None | Some (e, r) => Some (sign +:+ i +:+ f +:+ e, r) end
      end
  end = Some (sign +:+ i, r).
Proof.
  intros -> Hr. assert (Parse.frac_part r = Some ("", r) /\ Parse.exp_part r = Some ("", r)) as [-> ->].
  { destruct r as [|[[] [] [] [] [] [] [] []] r]; try done; by vm_compute in Hr. }
  do 2 f_equal. assert (forall x, x +:+ "" = x) as Happ by (induction x as [|a x IH]; [done|]; rewrite sapp_cons; by f_equal).
  by rewrite sapp_nil, Happ.
Qed.

Lemma lexeme_zstr z r : ends r = true -> Parse.lexeme (zstr z +:+ r) = Some (zstr z, r).
Proof.
  intros Hr. destruct z as [|p|p].
  - by apply (lexeme_rest "" "0").
  - destruct (zstr_positive p) as (c & t & Heq & Hc & H0 & _). unfold Parse.lexeme.
    assert (match zstr (Zpos p) +:+ r with String "-"%char t => ("-", t) | _ => ("", zstr (Zpos p) +:+ r) end = ("", zstr (Zpos p) +:+ r)) as ->.
    { rewrite Heq, sapp_cons. by destruct c as [[] [] [] [] [] [] [] []]. }
    apply (lexeme_rest "" (zstr (Zpos p))); [|done]. by apply int_part_positive.
  - rewrite zstr_negative, sapp_cons. apply (lexeme_rest "-" (zstr (Zpos p))); [|done]. by apply int_part_positive.
Qed.

Lemma trim_id s : all_chars (fun c => negb (Num.is_space c)) s = true -> Num.trim s = s.
Proof.
  intros H. unfold Num.trim. assert (Num.trim_left s = s) as ->.
  { destruct s as [|c s]; [done|]. cbn [all_chars] in H. bool_prop. cbn [Num.trim_left].
    match goal with H : Num.is_space c = false |- _ => by rewrite H end. }
  induction s as [|c s IH]; [done|]. cbn [all_chars] in H. bool_prop. cbn [Num.trim_right]. rewrite IH by done.
  destruct s; [|done]. match goal with H : Num.is_space c = false |- _ => by rewrite H end.
Qed.

Lemma digits_not_space t : all_chars Parse.is_digit t = true -> all_chars (fun c => negb (Num.is_space c)) t = true.
Proof.
  induction t as [|c t IH]; cbn [all_chars]; [done|]. intros H. bool_prop. by rewrite digit_not_space, IH.
Qed.

Lemma unsigned_positive p : Num.unsigned_decimal (zstr (Zpos p)) = Some (Num.of_Z (Zpos p)).
Proof.
  destruct (zstr_positive p) as (c & t & -> & Hc & H0 & _ & k & Hk & Hdig). unfold Num.unsigned_decimal.
  assert ((String c t ==? "Infinity") = false) as ->.
  { apply eqb_false. intros [= -> _]. by vm_compute in Hc. }
  rewrite Hdig. assert ((k =? 0) = false) as -> by lia. cbn [Num.exponent]. unfold Num.decimal. cbn [Z.leb Z.compare].
  by rewrite Z.pow_0_r, Z.mul_1_r.
Qed.

Lemma opp_of_Z p : Num.opp (Num.of_Z (Zpos p)) = Num.of_Z (Zneg p).
Proof.
  unfold Num.opp, Num.of_Z, binary_normalize, binary_round. destruct (shl_align p 0 _) as [m e].
  unfold binary_round_aux. destruct (shr_fexp _ _ _ _ loc_Exact) as [mrs e']. destruct (shr_fexp _ _ _ e' loc_Exact) as [mrs2 e2].
  destruct (shr_m mrs2); [done| |done]. by destruct (Z.leb _ _).
Qed.

(** [Number] reads back the decimal text of an integer. *)
Lemma of_string_zstr z : Num.of_string (zstr z) = Num.of_Z z.
Proof.
  destruct z as [|p|p].
  - vm_compute. done.
  - unfold Num.of_string. destruct (zstr_positive p) as (c & t & Heq & Hc & H0 & Ht & _). rewrite trim_id.
    + rewrite Heq. pose proof (unsigned_positive p) as Hu. rewrite Heq in Hu. clear Heq Ht.
      destruct c as [[] [] [] [] [] [] [] []]; try done; by rewrite Hu.
    + rewrite Heq. cbn [all_chars]. by rewrite digit_not_space, digits_not_space.
  - unfold Num.of_string. rewrite trim_id.
    + rewrite zstr_negative. rewrite unsigned_positive. apply opp_of_Z.
    + rewrite zstr_negative. destruct (zstr_positive p) as (c & t & -> & Hc & _ & Ht & _). cbn [all_chars].
      rewrite (digit_not_space c), digits_not_space by done. vm_compute. done.
Qed.

(** *** Values *)

(** No object of a value defines a member twice. *)
Fixpoint distinct_keys (v : value) : bool :=
  match v with
  | VArr l => forallb distinct_keys l
  | VObj fields =>
      bool_decide (NoDup (map fst (filter_by is_defined fields))) && forallb (fun p => distinct_keys (snd p)) fields
  | _ => true
  end.

Lemma sapp_length a b : String.length (a +:+ b) = (String.length a + String.length b)%nat.
Proof. induction a as [|x a IH]; [done|]. change (S (String.length (a +:+ b)) = S (String.length a + String.length b)). by rewrite IH. Qed.

(** A written value is read back, whatever follows it. *)
Definition reads_back (x : value) : Prop :=
  forall t, Text.canonicalize x = Ok t -> forall r fuel, ends r = true -> (2 * String.length t + 1 <= fuel)%nat ->
  Parse.parse_value fuel (t +:+ r) = Parse.Parsed (Text.normal x) r.

Lemma ends_seps ts c r : Parse.is_digit c = false -> c <> "."%char -> c <> "e"%char -> c <> "E"%char -> ends (seps ts (String c r)) = true.
Proof.
  intros H1 H2 H3 H4. destruct ts as [|t ts]; [|done]. cbn [seps ends].
  by rewrite H1, !(proj2 (eqb_false _ _)).
Qed.

Lemma elements_back l : forall x t ts acc r fuel,
  Forall reads_back (x :: l) -> Text.canonicalize x = Ok t -> mapR Text.canonicalize l = Ok ts ->
  (2 * String.length (t +:+ seps ts "]") + 2 <= fuel)%nat ->
  Parse.elements fuel acc (t +:+ seps ts (String "]"%char r)) = Parse.Parsed (VArr (acc ++ map Text.normal (x :: l))) r.
Proof.
  induction l as [|y l IH]; intros x t ts acc r fuel Hf Hx Hl Hfuel; inversion Hf as [|? ? Hback Hrest]; subst.
  - apply Ok_inj in Hl as <-. cbn [seps] in *. destruct fuel as [|fuel]; [lia|]. cbn [Parse.elements].
    rewrite sapp_length in Hfuel. cbn [String.length] in Hfuel. rewrite (Hback t Hx) by (done || lia).
    rewrite expect_miss, expect_hit by done. done.
  - cbn [mapR] in Hl. apply bind_Ok in Hl as (u & Hu & Hl). apply bind_Ok in Hl as (us & Hus & Hl). apply Ok_inj in Hl as <-.
    rewrite sapp_length in Hfuel. destruct fuel as [|fuel]; [lia|]. cbn [Parse.elements].
    rewrite (Hback t Hx); [|by apply ends_seps|lia]. cbn [seps] in *. rewrite !sapp_length in Hfuel. cbn [String.length] in Hfuel.
    rewrite sapp_cons, sapp_nil, expect_hit by done. rewrite (IH y u us); [|done|done|done|rewrite sapp_length; lia].
    by rewrite <- (assoc (++)).
Qed.

Lemma members_back l : forall p t ts acc r fuel,
  Forall (fun p => reads_back (snd p)) (p :: l) -> NoDup (map fst (p :: l)) -> (forall k, k ∈ map fst (p :: l) -> k ∉ JMap.keys acc) ->
  member_text p = Ok t -> mapR member_text l = Ok ts -> (2 * String.length (t +:+ seps ts "}") + 2 <= fuel)%nat ->
  Parse.members fuel acc (t +:+ seps ts (String "}"%char r)) =
  Parse.Parsed (VObj (acc ++ map (fun p => (fst p, Text.normal (snd p))) (p :: l))) r.
Proof.
  induction l as [|q l IH]; intros [k x] t ts acc r fuel Hf Hnd Hfresh Hp Hl Hfuel; inversion Hf as [|? ? Hback Hrest]; subst;
    cbn [snd fst map] in *; apply NoDup_cons in Hnd as [Hk Hnd];
    unfold member_text in Hp; cbn [fst snd] in Hp; apply bind_Ok in Hp as (u & Hu & Hp); apply Ok_inj in Hp as <-;
    unfold Text.canonicalizeString, Text.quote in *; rewrite !sapp_length in Hfuel; cbn [String.length Text.dquote] in Hfuel;
    (destruct fuel as [|fuel]; [lia|]); cbn [Parse.members]; rewrite !sapp_assoc;
    change (Text.dquote +:+ ?z) with (String (ascii_of_nat 34) z); rewrite expect_hit by done;
    change (String (ascii_of_nat 34) (":" +:+ ?z)) with (Text.dquote +:+ (":" +:+ z)); rewrite string_body_quote;
    change (":" +:+ ?z) with (String ":"%char z); rewrite expect_hit by done.
  - apply Ok_inj in Hl as <-. cbn [seps] in *. rewrite (Hback u Hu) by (done || lia).
    rewrite expect_miss, expect_hit by done. rewrite set_fresh; [done|]. apply Hfresh. left.
  - cbn [mapR] in Hl. apply bind_Ok in Hl as (w & Hw & Hl). apply bind_Ok in Hl as (ws & Hws & Hl). apply Ok_inj in Hl as <-.
    rewrite (Hback u Hu); [|by apply ends_seps|cbn [seps] in Hfuel; lia]. cbn [seps] in *. rewrite !sapp_length in Hfuel. cbn [String.length] in Hfuel.
    rewrite sapp_cons, sapp_nil, expect_hit by done. rewrite set_fresh by (apply Hfresh; left).
    rewrite (IH q w ws); [|done|done| |done|done|rewrite sapp_length; lia].
    + by rewrite <- (assoc (++)).
    + intros k' Hk'. unfold JMap.keys. rewrite map_app, elem_of_app. intros [Hin|Hin]; [by apply (Hfresh k'); [right|]|].
      apply list_elem_of_singleton in Hin as ->. by apply Hk.
Qed.

Lemma literal_number l c t r : num_char c = true -> num_char l = false -> Parse.literal (String l t) (String c r) = None.
Proof. intros Hc Hl. cbn [Parse.literal]. rewrite (proj2 (eqb_false l c)); [done|]. intros ->. congruence. Qed.

Lemma num_char_plain c : num_char c = true ->
  Parse.is_ws c = false /\ c <> "["%char /\ c <> "{"%char /\ Nat.eqb (nat_of_ascii c) 34 = false.
Proof. destruct c as [[] [] [] [] [] [] [] []]; vm_compute; done. Qed.

Lemma integer_back z r fuel : ends r = true -> (1 <= fuel)%nat ->
  Parse.parse_value fuel (zstr z +:+ r) = Parse.Parsed (VNum (Num.of_Z z)) r.
Proof.
  intros Hr Hf. destruct fuel as [|fuel]; [lia|]. pose proof (lexeme_zstr z r Hr) as Hlex. pose proof (of_string_zstr z) as Hval.
  destruct (zstr_head z) as (c & s & Hz & Hc). rewrite Hz in Hlex, Hval |- *. rewrite sapp_cons in Hlex |- *. destruct (num_char_plain c Hc) as (Hws & H1 & H2 & H3).
  cbn [Parse.parse_value]. rewrite !expect_miss by done. cbn [Parse.skip_ws]. rewrite Hws. unfold Parse.scalar.
  rewrite !literal_number by done. rewrite H3, Hlex. by rewrite Hval.
Qed.

Lemma string_back u r fuel : (1 <= fuel)%nat -> Parse.parse_value fuel (Text.canonicalizeString u +:+ r) = Parse.Parsed (VStr u) r.
Proof.
  intros Hf. destruct fuel as [|fuel]; [lia|]. unfold Text.canonicalizeString, Text.quote. rewrite !sapp_assoc.
  change (Text.dquote +:+ ?z) with (String (ascii_of_nat 34) z). cbn [Parse.parse_value]. rewrite !expect_miss by done.
  cbn [Parse.skip_ws]. change (Parse.is_ws (ascii_of_nat 34)) with false. cbn iota. unfold Parse.scalar.
  change (String (ascii_of_nat 34) r) with (Text.dquote +:+ r). cbn [Parse.literal].
  change (Nat.eqb (nat_of_ascii (ascii_of_nat 34)) 34) with true. cbn iota. by rewrite string_body_quote.
Qed.

Lemma canonicalize_reads_back v : distinct_keys v = true -> reads_back v.
Proof.
  induction v as [| |b|n|u|l IH|fields IH] using value_ind'; intros Hd t Ht r fuel Hr Hf.
  - discriminate Ht.
  - apply Ok_inj in Ht as <-. destruct fuel; [lia|]. reflexivity.
  - apply Ok_inj in Ht as <-. destruct fuel; [lia|]. by destruct b.
  - cbn [Text.canonicalize Text.normal] in *. destruct (Num.safe_integer n) as [z|]; [|done]. apply Ok_inj in Ht as <-.
    apply integer_back; [done|lia].
  - apply Ok_inj in Ht as <-. apply string_back. lia.
  - cbn [Text.canonicalize] in Ht. apply bind_Ok in Ht as (ts & Hts & Ht). apply Ok_inj in Ht as <-. rewrite mapR_map in Hts.
    cbn [distinct_keys] in Hd. rewrite forallb_true in Hd.
    assert (Forall reads_back l) as Hback by (rewrite Forall_forall in IH |- *; auto). clear IH Hd.
    rewrite !sapp_length in Hf. cbn [String.length] in Hf. destruct fuel as [|fuel]; [lia|]. rewrite !sapp_assoc.
    change ("[" +:+ ?z) with (String "["%char z). change ("]" +:+ ?z) with (String "]"%char z).
    cbn [Parse.parse_value]. rewrite expect_hit by done. destruct l as [|x l].
    + apply Ok_inj in Hts as <-. cbn [join]. by rewrite sapp_nil, expect_hit.
    + cbn [mapR] in Hts. apply bind_Ok in Hts as (u & Hu & Hts). apply bind_Ok in Hts as (us & Hus & Hts). apply Ok_inj in Hts as <-.
      rewrite join_cons. destruct (canonicalize_head x u Hu) as (a & u' & -> & Ha). rewrite sapp_cons, expect_miss.
      * rewrite <- sapp_cons. rewrite (elements_back l x (String a u') us); [done|done|done|done|].
        pose proof (join_cons (String a u') us "]") as Hj. rewrite <- Hj, sapp_length. cbn [String.length]. lia.
      * destruct x as [| |[]| | | |]; cbn in Ha; subst; try done. by apply num_char_plain.
      * destruct x as [| |[]| | | |]; cbn in Ha; subst; try done. by intros ->.
  - rewrite canonicalize_VObj in Ht. apply bind_Ok in Ht as (ts & Hts & Ht). apply Ok_inj in Ht as <-. rewrite normal_VObj.
    cbn [distinct_keys] in Hd. apply andb_true_iff in Hd as [Hnd Hd]. apply bool_decide_eq_true in Hnd. rewrite forallb_true in Hd.
    set (l := Text.sort_members (filter_by is_defined fields)) in *.
    assert (Forall (fun p => reads_back (snd p)) l) as Hback.
    { rewrite Forall_forall in IH |- *. intros p Hp. unfold l in Hp. apply elem_of_js_sort, elem_of_filter_by in Hp as [Hp _]. auto. }
    assert (NoDup (map fst l)) as Hndl by (unfold l, Text.sort_members; by rewrite js_sort_Permutation).
    clearbody l. clear IH Hd Hnd.
    rewrite !sapp_length in Hf. cbn [String.length] in Hf. destruct fuel as [|fuel]; [lia|]. rewrite !sapp_assoc.
    change ("{" +:+ ?z) with (String "{"%char z). change ("}" +:+ ?z) with (String "}"%char z).
    cbn [Parse.parse_value]. rewrite expect_miss, expect_hit by done. destruct l as [|p l].
    + apply Ok_inj in Hts as <-. cbn [join]. by rewrite sapp_nil, expect_hit.
    + cbn [mapR] in Hts. apply bind_Ok in Hts as (u & Hu & Hts). apply bind_Ok in Hts as (us & Hus & Hts). apply Ok_inj in Hts as <-.
      rewrite join_cons. assert (exists u', u = String (ascii_of_nat 34) u') as [u' ->].
      { unfold member_text in Hu. apply bind_Ok in Hu as (w & _ & Hu). apply Ok_inj in Hu as <-. by eexists. }
      rewrite sapp_cons, expect_miss by done. rewrite <- sapp_cons. rewrite (members_back l p (String (ascii_of_nat 34) u') us); [done|done|done| |done|done|].
      * intros k _. apply not_elem_of_nil.
      * pose proof (join_cons (String (ascii_of_nat 34) u') us "}") as Hj. rewrite <- Hj, sapp_length. cbn [String.length]. lia.
Qed.

(** [JSON.parse] reads a canonical text back to the value it was written from, up to the order of its
    members, its absent members and the sign of zero. *)
Lemma JSON_parse_canonicalize syntaxError v s :
  distinct_keys v = true -> Text.canonicalize v = Ok s -> Parse.JSON_parse syntaxError s = Ok (Text.normal v).
Proof.
  intros Hd Hs. unfold Parse.JSON_parse.
  assert (forall x, x +:+ "" = x) as Happ by (induction x as [|a x IH]; [done|]; rewrite sapp_cons; by f_equal).
  pose proof (canonicalize_reads_back v Hd s Hs "" (Parse.fuel_for s) eq_refl) as H. rewrite Happ in H.
  rewrite H by (unfold Parse.fuel_for; lia). done.
Qed.
