(* ===== verification/JsText.v ===== *)
(** * Text: JSON.stringify, replaceAll and occurrences

    What the engine uses of the runtime's text functions besides canonical JSON: the serializer a
    prompt is rendered with, and the replacement that takes a secret out of a message. *)

From S2P Require Import Prelude Collections Number Json JsonParse.
From Corelib Require Import SpecFloat.

Definition newline : string := String (ascii_of_nat 10) "".

(** [{...base, ...over}] *)
Definition spread {V} (base over : list (string * V)) : list (string * V) :=
  fold_left (fun m p => JMap.set m (fst p) (snd p)) over base.

(** ** JSON.stringify *)
Module Stringify.

(** The items of an array or object between its brackets, on their own lines when there is a gap. *)
Definition enclose (opening closing gap indent : string) (items : list string) : string :=
  match items with
  | [] => opening +:+ closing
  | _ =>
      if gap ==? "" then opening +:+ join "," items +:+ closing
      else let line := newline +:+ indent +:+ gap in
           opening +:+ line +:+ join ("," +:+ line) items +:+ newline +:+ indent +:+ closing
  end.

(** [None] is [undefined]: null inside an array, left out of an object. *)
Fixpoint at_indent (gap indent : string) (v : value) : option string :=
  match v with
  | VUndef => None
  | VNull => Some "null"
  | VBool b => Some (if b then "true" else "false")
  | VNum n => Some (match n with S754_nan | S754_infinity _ => "null" | _ => Num.to_string n end)
  | VStr s => Some (Text.quote s)
  | VArr l => Some (enclose "[" "]" gap indent (map (fun x => default "null" (at_indent gap (indent +:+ gap) x)) l))
  | VObj fields =>
      Some (enclose "{" "}" gap indent
        (flat_map (fun p => match at_indent gap (indent +:+ gap) (snd p) with
                            | Some t => [Text.quote (fst p) +:+ (if gap ==? "" then ":" else ": ") +:+ t]
                            | None => []
                            end) fields))
  end.

(** [JSON.stringify(v)] and [JSON.stringify(v, null, 2)] *)
Definition compact (v : value) : option string := at_indent "" "" v.
Definition indented (v : value) : option string := at_indent "  " "" v.

(** The same inside a template literal. *)
Definition compact_text (v : value) : string := default "undefined" (compact v).
Definition indented_text (v : value) : string := default "undefined" (indented v).

End Stringify.

(** ** Replacing text *)

(** The scan of [replaceAll]: [skip] characters of the last match are still to be passed over. *)
Fixpoint replace_from (pattern replacement : string) (skip : nat) (s : string) : string :=
  match s with
  | "" => ""
  | String c t =>
      match skip with
      | S skip => replace_from pattern replacement skip t
      | O => if starts_with pattern s then replacement +:+ replace_from pattern replacement (String.length pattern - 1) t
             else String c (replace_from pattern replacement 0 t)
      end
  end.

(** An empty pattern matches between any two characters and at both ends. *)
Fixpoint interleave (replacement s : string) : string :=
  match s with "" => replacement | String c t => replacement +:+ String c (interleave replacement t) end.

(** [s.replaceAll(pattern, replacement)] *)
Definition replaceAll (pattern replacement s : string) : string :=
  if pattern ==? "" then interleave replacement s else replace_from pattern replacement 0 s.

(** [s.includes(pattern)] *)
Fixpoint occurs (pattern s : string) : bool :=
  starts_with pattern s || match s with "" => false | String _ t => occurs pattern t end.

(** ** Redaction *)
Definition REDACTED : string := "[redacted]".

(** A text that cannot overlap the mark: not empty, without its brackets, and not part of its word. *)
Definition redactable (s : string) : bool :=
  (s !=? "") && all_chars (fun c => (c !=? "["%char) && (c !=? "]"%char)) s && negb (occurs s "redacted").

Lemma occurs_tail p c s : occurs p s = true -> occurs p (String c s) = true.
Proof. intros H. cbn [occurs]. by rewrite H, orb_true_r. Qed.

Lemma occurs_here p s : starts_with p s = true -> occurs p s = true.
Proof. intros H. destruct s; cbn [occurs]; by rewrite H. Qed.

Lemma occurs_empty p : p <> "" -> occurs p "" = false.
Proof. by destruct p. Qed.

Lemma starts_with_cut b p a t :
  all_chars (fun c => c !=? b) p = true -> starts_with p (a +:+ String b t) = true -> starts_with p a = true.
Proof.
  revert a; induction p as [|x p IH]; intros a Hp; [done|]. cbn [all_chars] in Hp. bool_prop.
  destruct a as [|y a].
  - rewrite sapp_nil. cbn [starts_with]. intros H1. by bool_prop.
  - rewrite sapp_cons. cbn [starts_with]. intros H1. bool_prop. rewrite (proj2 (eqb_true x y)) by done. by apply IH.
Qed.

(** A match that avoids a character lies before or after it. *)
Lemma occurs_cut b p a t :
  p <> "" -> all_chars (fun c => c !=? b) p = true -> occurs p (a +:+ String b t) = true -> occurs p a = true \/ occurs p t = true.
Proof.
  intros Hne Hp. induction a as [|y a IH].
  - rewrite sapp_nil. cbn [occurs]. intros H. apply orb_true_iff in H as [H|H]; [|by right].
    destruct p as [|x p]; [done|]. cbn [all_chars starts_with] in *. bool_prop. done.
  - rewrite sapp_cons. cbn [occurs]. intros H. apply orb_true_iff in H as [H|H].
    + left. rewrite <- sapp_cons in H. apply starts_with_cut in H; [|done]. apply orb_true_iff. by left.
    + apply IH in H as [H|H]; [|by right]. left. apply orb_true_iff. by right.
Qed.

Section Redaction.
Variable p : string.
Hypothesis Hp : redactable p = true.

Lemma redactable_nonempty : p <> "".
Proof. unfold redactable in Hp. by bool_prop. Qed.

Lemma redactable_avoids b : b = "["%char \/ b = "]"%char -> all_chars (fun c => c !=? b) p = true.
Proof.
  unfold redactable in Hp. apply andb_true_iff in Hp as [H _]. apply andb_true_iff in H as [_ H]. intros Hb.
  induction p as [|c s IH]; [done|]. cbn [all_chars] in *. apply andb_true_iff in H as [Hc Hs].
  rewrite (IH Hs), andb_true_r. apply neqb_true. bool_prop. destruct Hb as [->| ->]; done.
Qed.

(** Nothing is found in the mark or across its edges. *)
Lemma occurs_mark t : occurs p (REDACTED +:+ t) = true -> occurs p t = true.
Proof.
  pose proof redactable_nonempty as Hne. change (REDACTED +:+ t) with ("" +:+ String "[" ("redacted" +:+ String "]" t)). intros H.
  apply occurs_cut in H; [|done|apply redactable_avoids; by left]. destruct H as [H|H].
  { by rewrite occurs_empty in H. }
  apply occurs_cut in H; [|done|apply redactable_avoids; by right]. destruct H as [H|H]; [|done].
  unfold redactable in Hp. bool_prop. congruence.
Qed.

(** A match in kept text was there before; [q] is what is being replaced. *)
Lemma starts_with_replaced q x s :
  all_chars (fun c => c !=? "["%char) x = true -> starts_with x (replace_from q REDACTED 0 s) = true -> starts_with x s = true.
Proof.
  revert x; induction s as [|c s IH]; intros x Hx; [done|]. cbn [replace_from].
  destruct (starts_with q (String c s)) eqn:Eq.
  - destruct x as [|y x]; [done|]. unfold REDACTED. rewrite sapp_cons. cbn [all_chars starts_with] in *. intros H. by bool_prop.
  - destruct x as [|y x]; [done|]. cbn [all_chars starts_with] in *. intros H. bool_prop.
    rewrite (proj2 (eqb_true y c)) by done. by apply IH.
Qed.

Lemma occurs_replaced q skip s : occurs p (replace_from q REDACTED skip s) = true -> occurs p s = true.
Proof.
  revert skip; induction s as [|c s IH]; intros skip; [done|]. destruct skip as [|skip].
  - intros H. destruct (starts_with q (String c s)) eqn:Eq; cbn [replace_from] in H; rewrite Eq in H.
    + apply occurs_mark, IH in H. by apply occurs_tail.
    + cbn [occurs] in H. apply orb_true_iff in H as [H|H]; [|by apply occurs_tail, (IH 0%nat)].
      apply occurs_here, (starts_with_replaced q); [apply redactable_avoids; by left|]. cbn [replace_from]. by rewrite Eq.
  - cbn [replace_from]. intros H. apply IH in H. by apply occurs_tail.
Qed.

Lemma replaced_gone skip s : occurs p (replace_from p REDACTED skip s) = false.
Proof.
  revert skip; induction s as [|c s IH]; intros skip.
  - apply occurs_empty, redactable_nonempty.
  - destruct skip as [|skip]; cbn [replace_from]; [|apply IH]. destruct (starts_with p (String c s)) eqn:Eq.
    + apply not_true_iff_false. intros H. apply occurs_mark in H. by rewrite IH in H.
    + cbn [occurs]. rewrite IH, orb_false_r. apply not_true_iff_false. intros H.
      assert (starts_with p (String c s) = true); [|congruence].
      apply (starts_with_replaced p); [apply redactable_avoids; by left|]. cbn [replace_from]. by rewrite Eq.
Qed.

Lemma occurs_take n s : occurs p (take_str n s) = true -> occurs p s = true.
Proof.
  assert (forall x n s, starts_with x (take_str n s) = true -> starts_with x s = true) as Hs.
  { clear. induction x as [|y x IH]; intros n s; [done|]. destruct n, s; cbn [take_str starts_with]; try done.
    intros H. bool_prop. rewrite (proj2 (eqb_true y _)) by done. by eapply IH. }
  revert n; induction s as [|c s IH]; intros n; [by destruct n|]. destruct n as [|n]; cbn [take_str].
  - by rewrite occurs_empty by apply redactable_nonempty.
  - cbn [occurs]. intros H. apply orb_true_iff in H as [H|H]; apply orb_true_iff; [left; by apply (Hs p (S n))|right; by eapply IH].
Qed.

(** After the replacement of [p] there is none left, and replacing another text adds none. *)
Lemma replaceAll_removes s : occurs p (replaceAll p REDACTED s) = false.
Proof. unfold replaceAll. rewrite (proj2 (eqb_false p "")) by apply redactable_nonempty. apply replaced_gone. Qed.

Lemma replaceAll_keeps q s : q <> "" -> occurs p s = false -> occurs p (replaceAll q REDACTED s) = false.
Proof.
  intros Hq H. unfold replaceAll. rewrite (proj2 (eqb_false q "")) by done. apply not_true_iff_false. intros Hc.
  apply occurs_replaced in Hc. congruence.
Qed.
End Redaction.

Example replaceAll_cases :
  replaceAll "ab" REDACTED "xabab" = "x[redacted][redacted]" /\ replaceAll "" "-" "xy" = "-x-y-" /\
  Stringify.indented_text (VObj [("a", VArr [VUndef; VBool true]); ("b", VUndef); ("c", VObj [])]) =
    "{" +:+ newline +:+ "  " +:+ Text.quote "a" +:+ ": [" +:+ newline +:+ "    null," +:+ newline +:+ "    true" +:+ newline +:+ "  ]," +:+
    newline +:+ "  " +:+ Text.quote "c" +:+ ": {}" +:+ newline +:+ "}" /\
  Stringify.compact_text (VArr [VStr "x"; VNum (Num.of_Z 3)]) = "[" +:+ Text.quote "x" +:+ ",3]".
Proof. vm_compute. done. Qed.
