(* ===== verification/Events.v ===== *)
(** * The event log's vocabulary (engine/src/log/events.ts, engine/src/generated/event-log.ts)

    The closed set of event types, the draft a writer submits and the row a reader gets back.
    [assertEventDraft] is the write gate; the JSON-schema validator it calls is compiled from
    idl/event-log.schema.json by Ajv and is a parameter here. *)

From S2P Require Import Prelude Collections Number Json.

(** The 23 event types of the vocabulary, and any other name that may arrive on the wire. *)
Inductive EventType : Type :=
| run_start | run_end | run_end_seed
| subgraph_proposed | subgraph_frozen | subgraph_rejected | subgraph_shadowed | subgraph_unreadable
| replan_boundary | replan_cancel_requested
| fork_created
| vertex_created | vertex_started | vertex_succeeded | vertex_failed | vertex_retried
| txn_scope | txn_try | txn_confirm | txn_cancel | txn_pivot_passed
| budget_charged
| rule_template_published
| unknown_event (name : string).

#[export] Instance EventType_eq_dec : EqDecision EventType.
Proof. solve_decision. Defined.

(** The wire name of an event type. *)
Definition event_name (t : EventType) : string :=
  match t with
  | run_start => "run/start" | run_end => "run/end" | run_end_seed => "run/end-seed"
  | subgraph_proposed => "subgraph/proposed" | subgraph_frozen => "subgraph/frozen"
  | subgraph_rejected => "subgraph/rejected" | subgraph_shadowed => "subgraph/shadowed"
  | subgraph_unreadable => "subgraph/unreadable"
  | replan_boundary => "replan/boundary" | replan_cancel_requested => "replan/cancel-requested"
  | fork_created => "fork/created"
  | vertex_created => "vertex/created" | vertex_started => "vertex/started"
  | vertex_succeeded => "vertex/succeeded" | vertex_failed => "vertex/failed"
  | vertex_retried => "vertex/retried"
  | txn_scope => "txn/scope" | txn_try => "txn/try" | txn_confirm => "txn/confirm"
  | txn_cancel => "txn/cancel" | txn_pivot_passed => "txn/pivot-passed"
  | budget_charged => "budget/charged"
  | rule_template_published => "rule_template/published"
  | unknown_event name => name
  end.

Definition EVENT_TYPES : list EventType :=
  [run_start; run_end; run_end_seed; subgraph_proposed; subgraph_frozen; subgraph_rejected;
   subgraph_shadowed; subgraph_unreadable; replan_boundary; replan_cancel_requested; fork_created;
   vertex_created; vertex_started; vertex_succeeded; vertex_failed; vertex_retried; txn_scope;
   txn_try; txn_confirm; txn_cancel; txn_pivot_passed; budget_charged; rule_template_published].

(** [known.has(event_type)]: membership of the wire name in the vocabulary. *)
Definition known (t : EventType) : bool := includes (event_name t) (map event_name EVENT_TYPES).

(** An event before the store assigns its sequence numbers. *)
Record EventDraft : Type := {
  d_event_type : EventType;
  d_vertex_id : option string;
  d_parent_refs : option (list string);
  d_planner_id : option string;
  d_scope_id : option string;
  d_pin_version : option string;
  d_ignorable : bool;
  d_payload : object
}.

(** A draft that names only its type and payload. *)
Definition draft (t : EventType) (p : object) : EventDraft :=
  {| d_event_type := t; d_vertex_id := None; d_parent_refs := None; d_planner_id := None;
     d_scope_id := None; d_pin_version := None; d_ignorable := false; d_payload := p |}.

Definition vertex_draft (t : EventType) (v : string) (p : object) : EventDraft :=
  {| d_event_type := t; d_vertex_id := Some v; d_parent_refs := None; d_planner_id := None;
     d_scope_id := None; d_pin_version := None; d_ignorable := false; d_payload := p |}.

(** A persisted row. *)
Record StoredEvent : Type := {
  run_id : string;
  run_seq : Z;
  global_seq : Z;
  event_type : EventType;
  vertex_id : option string;
  parent_refs : list string;
  planner_id : option string;
  scope_id : option string;
  pin_version : option string;
  ignorable : bool;
  inherited : bool;
  payload : object;
  created_at : string
}.

(** [event.event_type === t] *)
Definition is_type (t : EventType) (e : StoredEvent) : bool := event_type e ==? t.

(** [event.vertex_id] where the code tests it for truth first. *)
Definition vid (e : StoredEvent) : option string := truthy (vertex_id e).
Definition sid (e : StoredEvent) : option string := truthy (scope_id e).

(** [event.vertex_id === id] *)
Definition names_vertex (id : string) (e : StoredEvent) : bool := vertex_id e ==? Some id.

(** Shorthands for payload reads. *)
Definition pfield (e : StoredEvent) (k : string) : value := Js.field (payload e) k.
Definition pstr (e : StoredEvent) (k : string) : option string := Js.as_string (pfield e k).
Definition pstrings (e : StoredEvent) (k : string) : list string := Js.string_list (pfield e k).

Section Drafts.
(** The compiled schema validator and its error text. *)
Variable validateSchema : EventDraft -> bool.
Variable schemaErrors : EventDraft -> string.

(** [assertEventDraft]: a known type or an ignorable one, and the shared schema unless the event is
    an ignorable stranger. A draft's payload is an object by its type. *)
Definition assertEventDraft (d : EventDraft) : result unit :=
  if negb (known (d_event_type d)) && negb (d_ignorable d) then
    Throw ("unknown non-ignorable event type: " +:+ event_name (d_event_type d))
  else if negb (validateSchema d) && negb (d_ignorable d && negb (known (d_event_type d))) then
    Throw ("invalid event draft: " +:+ schemaErrors d)
  else Ok tt.
End Drafts.

(** ** Reading a log *)

(** Row order: strictly increasing positions, which the run row's counter allocates. *)
Definition seq_ordered (events : list StoredEvent) : Prop :=
  StronglySorted (fun a b => run_seq a < run_seq b) events.

(** Lemmas on reading events. *)
Lemma is_type_true t e : is_type t e = true <-> event_type e = t.
Proof. apply eqb_true. Qed.

Lemma names_vertex_true id e : names_vertex id e = true <-> vertex_id e = Some id.
Proof. apply eqb_true. Qed.

Lemma vid_Some e v : vid e = Some v <-> vertex_id e = Some v /\ v <> "".
Proof. unfold vid, truthy. destruct (vertex_id e) as [[|]|]; naive_solver. Qed.

Lemma sid_Some e s : sid e = Some s <-> scope_id e = Some s /\ s <> "".
Proof. unfold sid, truthy. destruct (scope_id e) as [[|]|]; naive_solver. Qed.

Lemma known_spec t : known t = true <-> (exists t', t' ∈ EVENT_TYPES /\ event_name t = event_name t').
Proof. unfold known. rewrite includes_true, elem_of_map. naive_solver. Qed.

Lemma seq_ordered_app_inv l1 l2 :
  seq_ordered (l1 ++ l2) ->
  seq_ordered l1 /\ seq_ordered l2 /\ forall a b, a ∈ l1 -> b ∈ l2 -> run_seq a < run_seq b.
Proof. unfold seq_ordered. rewrite StronglySorted_app. naive_solver. Qed.

(** ** A recorded run, for concrete instances: a pinned call, its child, an unrelated vertex *)
Definition sample_event (seq : Z) (t : EventType) (v : option string) (parents : list string)
    (pin : option string) (p : object) : StoredEvent :=
  {| run_id := "r1"; run_seq := seq; global_seq := seq; event_type := t; vertex_id := v;
     parent_refs := parents; planner_id := None; scope_id := None; pin_version := pin;
     ignorable := false; inherited := false; payload := p; created_at := "" |}.

Definition sample_run : list StoredEvent :=
  [sample_event 1 run_start None [] None [];
   sample_event 2 vertex_created (Some "v1") [] (Some "p1") [("role", VStr "tool-caller")];
   sample_event 3 vertex_created (Some "v2") ["v1"] None [("role", VStr "router")];
   sample_event 4 vertex_created (Some "v3") [] None [("role", VStr "tool-caller")];
   sample_event 5 vertex_started (Some "v1") [] None [];
   sample_event 6 vertex_started (Some "v3") [] None [];
   sample_event 7 vertex_created (Some "v4") ["v2"; "v3"] None [("role", VStr "planner")]].
