(* ===== verification/Graph.v ===== *)
(** * Graph searches

    The engine walks the causal graph in two shapes: a worklist with a stack
    ([causalDescendants] in engine/src/log/store.ts) and a recursive visit with a set of visited
    identifiers ([slice] in engine/src/log/projection.ts). Both are given here over an arbitrary
    successor function, with fuel; the theorems bound the fuel by the number of identifiers that can
    be discovered, so the bounded searches are total, and state that they compute reachability. *)

From S2P Require Import Prelude Collections.

Lemma tc_iff {A} (R R' : A -> A -> Prop) x y :
  (forall a b, R a b <-> R' a b) -> tc R x y <-> tc R' x y.
Proof. intros H. split; intros Htc; (eapply (tc_congruence id); [|exact Htc]); intros a b; apply H. Qed.

Lemma rtc_tc_iff {A} (R : A -> A -> Prop) x y : rtc R x y <-> y = x \/ tc R x y.
Proof.
  split; [|intros [->|H]; [apply rtc_refl|by apply tc_rtc]].
  intros H. apply rtc_tc in H as [H|H]; [left; congruence|by right].
Qed.

(** ** Worklist *)
Section Worklist.
Context (succ : string -> list string).

(** [for (const child of children) if (!found.has(child)) { found.add(child); stack.push(child); }]
    The head of [stack] is the element [pop] returns. *)
Definition push_children (st : list string * list string) (children : list string) : list string * list string :=
  fold_left (fun st child => if JSet.has (fst st) child then st else (fst st ++ [child], child :: snd st)) children st.

(** [while (stack.length)] *)
Fixpoint worklist (fuel : nat) (found stack : list string) : option (list string) :=
  match fuel with
  | O => None
  | S fuel =>
      match stack with
      | [] => Some found
      | v :: stack => let st := push_children (found, stack) (succ v) in worklist fuel (fst st) (snd st)
      end
  end.

Definition edge (p c : string) : Prop := c ∈ succ p.
End Worklist.

(** ** Recursive visit *)
Section Visit.
(** [None] when the vertex is not there to visit. *)
Context (succ : string -> option (list string)).

Fixpoint visit (fuel : nat) (included : list string) (id : string) : option (list string) :=
  match fuel with
  | O => None
  | S fuel =>
      if JSet.has included id then Some included
      else match succ id with
           | None => Some included
           | Some parents =>
               fold_left (fun acc p => inc ← acc; visit fuel inc p) parents (Some (included ++ [id]))
           end
  end.

Definition vedge (a b : string) : Prop := exists ps, succ a = Some ps /\ b ∈ ps.
End Visit.

(** ** The worklist computes the strict descendants *)
Section WorklistFacts.
Context (succ : string -> list string) (universe : list string).
Hypothesis Huniverse : forall p c, c ∈ succ p -> c ∈ universe.

Lemma push_children_spec found stack children found' stack' :
  push_children (found, stack) children = (found', stack') ->
  exists new, found' = found ++ new /\ stack' = reverse new ++ stack /\ NoDup new /\
    (forall x, x ∈ new <-> x ∈ children /\ x ∉ found).
Proof.
  unfold push_children. revert found stack; induction children as [|c cs IH]; cbn [fold_left fst snd]; intros found stack H.
  - injection H as <- <-. exists []. rewrite app_nil_r. split_and!; [done|done|constructor|set_solver].
  - destruct (JSet.has found c) eqn:E.
    + apply JSet_has_true in E. destruct (IH _ _ H) as (new & -> & -> & Hnd & Hnew).
      exists new. split_and!; [done|done|done|]. intros x. rewrite Hnew, elem_of_cons. naive_solver.
    + apply JSet_has_false in E. destruct (IH _ _ H) as (new & -> & -> & Hnd & Hnew).
      exists (c :: new). rewrite <- app_assoc, reverse_cons, <- app_assoc.
      split_and!; [done|done|constructor; [rewrite Hnew, elem_of_app, list_elem_of_singleton; tauto|done]|].
      intros x. rewrite !elem_of_cons, Hnew, elem_of_app, list_elem_of_singleton.
      destruct (decide (x = c)); naive_solver.
Qed.

(** The loop invariant, with the root the search started from. *)
Record search_inv (root : string) (found stack : list string) : Prop := {
  si_nodup : NoDup found;
  si_sound : forall x, x ∈ found -> tc (edge succ) root x;
  si_stack : forall x, x ∈ stack -> x = root \/ x ∈ found;
  si_closed : forall x c, x = root \/ x ∈ found -> x ∈ stack \/ (c ∈ succ x -> c ∈ found)
}.

Lemma search_inv_init root : search_inv root [] [root].
Proof. split; [constructor|set_solver|set_solver|set_solver]. Qed.

Lemma search_inv_step root found v stack found' stack' :
  search_inv root found (v :: stack) -> push_children (found, stack) (succ v) = (found', stack') ->
  search_inv root found' stack'.
Proof.
  intros [Hnd Hs Hst Hc] Hpush. apply push_children_spec in Hpush as (new & -> & -> & Hn & Hnew).
  assert (v = root \/ v ∈ found) as Hv by (apply Hst; set_solver).
  split.
  - apply NoDup_app. split; [done|]. split; [|done]. intros x Hx Hx'. apply Hnew in Hx'. tauto.
  - intros x. rewrite elem_of_app. intros [Hx|Hx]; [by apply Hs|]. apply Hnew in Hx as [Hx _].
    destruct Hv as [->|Hv]; [by apply tc_once|]. eapply tc_r; [by apply Hs|done].
  - intros x. rewrite elem_of_app, elem_of_reverse. intros [Hx|Hx]; [set_solver|].
    destruct (Hst x); [set_solver|tauto|set_solver].
  - intros x c Hx. rewrite elem_of_app, elem_of_reverse.
    destruct (decide (x ∈ new)) as [Hin|Hin]; [tauto|].
    destruct (decide (x = v)) as [->|Hne].
    + right. intros Hcv. rewrite elem_of_app. destruct (decide (c ∈ found)); [tauto|].
      right. apply Hnew. tauto.
    + destruct (Hc x c) as [Hxs|Hxs]; [set_solver| |].
      * left. right. set_solver.
      * right. intros ?. rewrite elem_of_app. tauto.
Qed.

(** Fuel: one step per identifier discovered, and one per stack entry. *)
Lemma worklist_total root fuel found stack :
  search_inv root found stack -> (length universe + length stack < fuel + length found)%nat ->
  exists found', worklist succ fuel found stack = Some found' /\ search_inv root found' [].
Proof.
  revert found stack; induction fuel as [|fuel IH]; intros found stack Hinv Hfuel.
  - exfalso. assert (length found <= length universe)%nat; [|lia].
    apply submseteq_length, NoDup_submseteq; [apply (si_nodup _ _ _ Hinv)|].
    intros x Hx. apply (si_sound _ _ _ Hinv) in Hx.
    clear -Hx Huniverse. induction Hx; [by eapply Huniverse|done].
  - cbn. destruct stack as [|v stack]; [eauto|].
    destruct (push_children (found, stack) (succ v)) as [found' stack'] eqn:E.
    pose proof (search_inv_step _ _ _ _ _ _ Hinv E) as Hinv'. cbn.
    apply IH; [done|]. apply push_children_spec in E as (new & -> & -> & _).
    rewrite !length_app, length_reverse in *. cbn in Hfuel. lia.
Qed.

Theorem worklist_reachable root fuel :
  (length universe + 1 < fuel)%nat ->
  exists found, worklist succ fuel [] [root] = Some found /\ NoDup found /\
    forall x, x ∈ found <-> tc (edge succ) root x.
Proof.
  intros Hfuel. destruct (worklist_total root fuel [] [root]) as (found & Hf & Hinv);
    [apply search_inv_init|cbn; lia|].
  exists found. split; [done|]. split; [apply (si_nodup _ _ _ Hinv)|].
  intros x. split; [apply (si_sound _ _ _ Hinv)|].
  destruct Hinv as [_ _ _ Hc].
  assert (forall y, y = root \/ y ∈ found -> forall z, tc (edge succ) y z -> z ∈ found) as Hall.
  { intros y Hy z Hz. induction Hz as [y z Hyz|y w z Hyw Hwz IH].
    - destruct (Hc y z Hy) as [?|H]; [set_solver|by apply H].
    - apply IH. right. destruct (Hc y w Hy) as [?|H]; [set_solver|by apply H]. }
  apply Hall. by left.
Qed.
End WorklistFacts.

(** ** The visit computes the present vertices reachable from its root *)
Section VisitFacts.
Context (succ : string -> option (list string)) (universe : list string).
Hypothesis Huniverse : forall x ps, succ x = Some ps -> x ∈ universe.

(** What a visit that started with [included] returns: [included] grown by [new] vertices that are
    present, reachable from [id], and whose present successors are all included. *)
Definition visited (roots : string -> Prop) (included included' : list string) : Prop :=
  exists new, included' = included ++ new /\ NoDup included' /\
    (forall x, x ∈ new -> is_Some (succ x) /\ exists r, roots r /\ rtc (vedge succ) r x) /\
    (forall x y, x ∈ new -> vedge succ x y -> is_Some (succ y) -> y ∈ included') /\
    (forall x, x ∈ included' -> x ∈ universe).

Lemma visited_trans (P Q : string -> Prop) a b c :
  visited P a b -> visited Q b c -> visited (fun x => P x \/ Q x) a c.
Proof.
  intros (n1 & -> & _ & Hr1 & Hc1 & _) (n2 & -> & Hnd & Hr2 & Hc2 & Hu).
  exists (n1 ++ n2). rewrite (assoc (++)). split; [done|]. split; [done|].
  split; [|split; [|done]]; intros x; [|intros y]; rewrite elem_of_app; intros [Hx|Hx].
  - destruct (Hr1 x Hx) as (? & r & ? & ?). naive_solver.
  - destruct (Hr2 x Hx) as (? & r & ? & ?). naive_solver.
  - intros Hxy Hy. rewrite elem_of_app. left. eauto.
  - eauto.
Qed.

(** [for (const parent of parents) visit(parent)], given that each visit behaves. *)
Lemma visit_parents_total fuel parents :
  (forall inc id, NoDup inc -> (forall x, x ∈ inc -> x ∈ universe) ->
     (length universe < fuel + length inc)%nat ->
     exists inc', visit succ fuel inc id = Some inc' /\ visited (eq id) inc inc' /\
       (is_Some (succ id) -> id ∈ inc')) ->
  forall inc, NoDup inc -> (forall x, x ∈ inc -> x ∈ universe) ->
    (length universe < fuel + length inc)%nat ->
    exists inc', fold_left (fun acc p => inc ← acc; visit succ fuel inc p) parents (Some inc) = Some inc' /\
      visited (fun r => r ∈ parents) inc inc' /\
      (forall p, p ∈ parents -> is_Some (succ p) -> p ∈ inc').
Proof.
  intros Hvisit. induction parents as [|p ps IH]; intros inc Hnd Hu Hfuel; cbn.
  - exists inc. split; [done|]. split; [|set_solver]. exists []. rewrite app_nil_r. set_solver.
  - destruct (Hvisit inc p) as (inc1 & Hv & Hvis & Hin); [done..|]. rewrite Hv.
    destruct (IH inc1) as (inc2 & Hf & Hvis2 & Hin2).
    { by destruct Hvis as (? & _ & ? & _). }
    { by destruct Hvis as (? & _ & _ & _ & _ & ?). }
    { destruct Hvis as (new & -> & _). rewrite length_app. lia. }
    exists inc2. split; [done|]. split.
    + pose proof (visited_trans _ _ _ _ _ Hvis Hvis2) as (new & Hnew & Hnd2 & Hr & Hrest).
      exists new. split; [done|]. split; [done|]. split; [|done].
      intros x Hx. destruct (Hr x Hx) as (? & r & Hroot & ?). split; [done|]. exists r.
      split; [|done]. rewrite elem_of_cons. naive_solver.
    + intros q. rewrite elem_of_cons. intros [->|Hq] Hs; [|by apply Hin2].
      destruct Hvis2 as (new & -> & _). apply elem_of_app. left. by apply Hin.
Qed.

Lemma visit_total fuel included id :
  NoDup included -> (forall x, x ∈ included -> x ∈ universe) ->
  (length universe < fuel + length included)%nat ->
  exists included', visit succ fuel included id = Some included' /\ visited (eq id) included included' /\
    (is_Some (succ id) -> id ∈ included').
Proof.
  revert included id; induction fuel as [|fuel IH]; intros included id Hnd Hu Hfuel.
  - exfalso. assert (length included <= length universe)%nat; [|lia].
    by apply submseteq_length, NoDup_submseteq.
  - cbn [visit].
    assert (forall b, b = true -> id ∈ included -> exists included',
      (if b then Some included else None) = Some included' /\ visited (eq id) included included' /\
      (is_Some (succ id) -> id ∈ included')) as Hstop.
    { intros b -> Hin. exists included. split; [done|]. split; [|done].
      exists []. rewrite app_nil_r. set_solver. }
    destruct (JSet.has included id) eqn:Eh.
    { apply JSet_has_true in Eh. exact (Hstop true eq_refl Eh). }
    apply JSet_has_false in Eh. destruct (succ id) as [ps|] eqn:Es.
    + destruct (visit_parents_total fuel ps IH (included ++ [id])) as (inc' & Hf & Hvis & Hin).
      { apply NoDup_app. split; [done|]. split; [|apply NoDup_singleton].
        intros x Hx ->%list_elem_of_singleton. done. }
      { intros x. rewrite elem_of_app, list_elem_of_singleton. intros [?| ->]; eauto. }
      { rewrite length_app. cbn. lia. }
      exists inc'. split; [done|]. destruct Hvis as (new & -> & Hnd' & Hr & Hc & Hu').
      split; [|intros _; rewrite !elem_of_app, list_elem_of_singleton; tauto].
      assert ((included ++ [id]) ++ new = included ++ id :: new) as Eapp by by rewrite <- (assoc (++)).
      exists (id :: new). rewrite Eapp in Hnd', Hc, Hu', Hin |- *.
      split; [done|]. split; [done|]. split; [|split; [|done]].
      * intros x. rewrite elem_of_cons. intros [->|Hx]; [split; [by rewrite Es|by exists id]|].
        destruct (Hr x Hx) as (? & r & Hroot & ?). split; [done|]. exists id. split; [done|].
        eapply rtc_l; [|done]. exists ps. done.
      * intros x y. rewrite elem_of_cons. intros [->|Hx] Hxy Hy; [|eauto].
        destruct Hxy as (ps' & Es' & Hy'). rewrite Es in Es'. injection Es' as <-. eauto.
    + exists included. split; [done|]. split; [|intros [? ?]; done].
      exists []. rewrite app_nil_r. set_solver.
Qed.

Lemma visit_reachable fuel id :
  (length universe < fuel)%nat ->
  exists included, visit succ fuel [] id = Some included /\ NoDup included /\
    forall x, x ∈ included <->
      rtc (fun a b => vedge succ a b /\ is_Some (succ b)) id x /\ is_Some (succ x) /\ is_Some (succ id).
Proof.
  intros Hfuel. destruct (visit_total fuel [] id) as (inc & Hv & Hvis & Hin);
    [constructor|set_solver|cbn; lia|].
  exists inc. split; [done|]. destruct Hvis as (new & -> & Hnd & Hr & Hc & _). cbn in *.
  split; [done|]. intros x. split.
  - intros Hx. destruct (Hr x Hx) as (Hs & r & <- & Hreach).
    split; [|split; [done|]].
    + clear -Hs Hreach. revert Hs. induction Hreach as [|a b c Hab Hbc IH]; intros Hs;
        [apply rtc_refl|].
      eapply rtc_l; [|by apply IH]. split; [done|].
      destruct Hbc as [?|? ? ? (? & ? & ?) ?]; [done|by eexists].
    + destruct Hreach as [?|? ? ? (? & ? & ?) ?]; [done|by eexists].
  - intros (Hreach & _ & Hid). specialize (Hin Hid). clear -Hreach Hin Hc.
    induction Hreach as [|a b c [Hab Hb] Hbc IH]; [done|]. apply IH. eauto.
Qed.
End VisitFacts.
