(* ===== verification/Fork.v ===== *)
(** * The causal partition of a fork (engine/src/log/store.ts)

    [causalDescendants] derives the causal order from the parent references of [vertex/created]
    events; [computeForkSlice] partitions a source window for a counterfactual fork: the seed, the
    causally independent remainder, and the events whose cause the substitution changed. *)

From S2P Require Import Prelude Collections Number Json Events Graph.

(** One replaced pin of a fork request. *)
Record ForkSubstitution : Type := { sub_run_seq : Z; sub_pin_version : string }.

Record ForkSlice : Type := {
  fs_seed : list StoredEvent;
  fs_independent : list StoredEvent;
  fs_invalidated : list StoredEvent;
  fs_divergence_seq : Z
}.

Definition EXECUTION_EVENT_TYPES : list EventType :=
  [vertex_started; vertex_succeeded; vertex_failed; vertex_retried; budget_charged].

(** [children] of [causalDescendants]: parent identifier to the vertices created under it. *)
Definition addChild (v : string) (children : list (string * list string)) (parent : string) : list (string * list string) :=
  JMap.set children parent (JMap.get_or [] children parent ++ [v]).

Definition indexEvent (children : list (string * list string)) (e : StoredEvent) : list (string * list string) :=
  match vid e with
  | Some v => if is_type vertex_created e then fold_left (addChild v) (parent_refs e) children else children
  | None => children
  end.

Definition childrenIndex (events : list StoredEvent) : list (string * list string) :=
  fold_left indexEvent events [].

(** Every round of the loop consumes one frontier entry, and a vertex enters the frontier once, when
    its creation is discovered: two more than the number of events is enough. *)
Definition causalDescendants (events : list StoredEvent) (vertexId : string) : list string :=
  default [] (worklist (JMap.get_or [] (childrenIndex events)) (length events + 2) [] [vertexId]).

(** [isInvalidated] of [computeForkSlice]. *)
Definition isInvalidated (substituted : list (Z * string)) (invalidatedVertices : list string)
    (atVertexId : string) (e : StoredEvent) : bool :=
  match substituted with
  | [] => false
  | _ =>
      (match vid e with Some v => JSet.has invalidatedVertices v | None => false end) ||
      (names_vertex atVertexId e && includes (event_type e) EXECUTION_EVENT_TYPES) ||
      existsb (fun parent => (parent ==? atVertexId) || JSet.has invalidatedVertices parent) (parent_refs e)
  end.

(** The partition loop, in window order. *)
Definition partitionStep (bad : StoredEvent -> bool) (divergence_seq : Z) (s : ForkSlice) (e : StoredEvent) : ForkSlice :=
  if bad e then {| fs_seed := fs_seed s; fs_independent := fs_independent s;
                   fs_invalidated := fs_invalidated s ++ [e]; fs_divergence_seq := fs_divergence_seq s |}
  else if run_seq e <=? divergence_seq
  then {| fs_seed := fs_seed s ++ [e]; fs_independent := fs_independent s;
          fs_invalidated := fs_invalidated s; fs_divergence_seq := fs_divergence_seq s |}
  else {| fs_seed := fs_seed s; fs_independent := fs_independent s ++ [e];
          fs_invalidated := fs_invalidated s; fs_divergence_seq := fs_divergence_seq s |}.

Definition checkSubstitution (window : list StoredEvent) (atVertexId : string) (sequence : Z) : result unit :=
  let refused := Throw ("substitution " +:+ zstr sequence +:+ " must name a pinned event of the divergence vertex") in
  match find (fun e => run_seq e =? sequence) window with
  | Some e => match truthy (pin_version e) with
              | Some _ => if names_vertex atVertexId e then Ok tt else refused
              | None => refused
              end
  | None => refused
  end.

Definition computeForkSlice (source : list StoredEvent) (atVertexId : string)
    (substitutions : list ForkSubstitution) (evalUpToSeq : Z) : result ForkSlice :=
  let window := filter_by (fun e => run_seq e <=? evalUpToSeq) source in
  match find (fun e => is_type vertex_created e && names_vertex atVertexId e) window with
  | None => Throw ("divergence vertex " +:+ atVertexId +:+ " is not created within eval_up_to_seq " +:+ zstr evalUpToSeq)
  | Some divergence =>
      let substituted := JMap.of_entries (map (fun i => (sub_run_seq i, sub_pin_version i)) substitutions) in
      if negb (Nat.eqb (length substituted) (length substitutions))
      then Throw "fork substitutions must not repeat a run sequence" else
      _ ← foldM (fun _ sequence => checkSubstitution window atVertexId sequence) tt (JMap.keys substituted);
      let invalidatedVertices := match substituted with [] => [] | _ => causalDescendants window atVertexId end in
      let s := fold_left (partitionStep (isInvalidated substituted invalidatedVertices atVertexId) (run_seq divergence))
                 window {| fs_seed := []; fs_independent := []; fs_invalidated := [];
                           fs_divergence_seq := run_seq divergence |} in
      _ ← foldM (fun _ sequence =>
            if existsb (fun e => run_seq e =? sequence) (fs_invalidated s)
            then Throw ("substitution " +:+ zstr sequence +:+ " names an invalidated event") else Ok tt)
          tt (JMap.keys substituted);
      Ok s
  end.

(** A row to copy into a fork: the source event with its position, and the pin possibly replaced. *)
Record InheritedCopy : Type := {
  ic_run_seq : Z;
  ic_event_type : EventType;
  ic_vertex_id : option string;
  ic_parent_refs : list string;
  ic_planner_id : option string;
  ic_scope_id : option string;
  ic_pin_version : option string;
  ic_ignorable : bool;
  ic_payload : object
}.

Definition toInheritedCopy (e : StoredEvent) (pinOverride : option string) : InheritedCopy :=
  {| ic_run_seq := run_seq e; ic_event_type := event_type e; ic_vertex_id := vertex_id e;
     ic_parent_refs := parent_refs e; ic_planner_id := planner_id e; ic_scope_id := scope_id e;
     ic_pin_version := match pinOverride with Some p => Some p | None => pin_version e end;
     ic_ignorable := ignorable e; ic_payload := payload e |}.

(** ** The causal order *)

(** [c] was created with [p] among its parents. *)
Definition causes (events : list StoredEvent) (p c : string) : Prop :=
  exists e, e ∈ events /\ event_type e = vertex_created /\ vid e = Some c /\ p ∈ parent_refs e.

Lemma children_of_event v refs children p c :
  c ∈ JMap.get_or [] (fold_left (addChild v) refs children) p <->
  c ∈ JMap.get_or [] children p \/ (c = v /\ p ∈ refs).
Proof.
  revert children; induction refs as [|r refs IH]; cbn [fold_left]; intros children; [set_solver|].
  rewrite IH. unfold addChild, JMap.get_or at 1. rewrite get_set, elem_of_cons. case_eqb; cbn.
  - subst. rewrite elem_of_app, list_elem_of_singleton. naive_solver.
  - unfold JMap.get_or. naive_solver.
Qed.

Lemma childrenIndex_spec events p c :
  c ∈ JMap.get_or [] (childrenIndex events) p <-> causes events p c.
Proof.
  unfold childrenIndex.
  enough (forall m, c ∈ JMap.get_or [] (fold_left indexEvent events m) p <->
    c ∈ JMap.get_or [] m p \/ causes events p c) as H.
  { rewrite H. unfold JMap.get_or. cbn. set_solver. }
  unfold causes. induction events as [|e events IH]; intros m; cbn [fold_left].
  { setoid_rewrite elem_of_nil. naive_solver. }
  rewrite IH. setoid_rewrite elem_of_cons. unfold indexEvent.
  destruct (vid e) as [v|] eqn:Ev; [destruct (is_type vertex_created e) eqn:Et|].
  - rewrite children_of_event. apply is_type_true in Et. naive_solver.
  - assert (event_type e <> vertex_created) by (rewrite <- is_type_true; congruence). naive_solver.
  - naive_solver.
Qed.

Definition created_ids (events : list StoredEvent) : list string := omap vid events.

Lemma created_ids_length events : (length (created_ids events) <= length events)%nat.
Proof. unfold created_ids. induction events as [|e events IH]; cbn; [lia|]. destruct (vid e); cbn; lia. Qed.

Lemma causalDescendants_total events v :
  exists found, worklist (JMap.get_or [] (childrenIndex events)) (length events + 2) [] [v] = Some found /\
    NoDup found /\ forall x, x ∈ found <-> tc (causes events) v x.
Proof.
  destruct (worklist_reachable (JMap.get_or [] (childrenIndex events)) (created_ids events)) with
    (root := v) (fuel := (length events + 2)%nat) as (found & Hf & Hnd & Hx).
  - intros p c. rewrite childrenIndex_spec. intros (e & He & _ & Hc & _).
    apply list_elem_of_omap. eauto.
  - pose proof (created_ids_length events). lia.
  - exists found. split; [done|]. split; [done|]. intros x. rewrite Hx.
    apply tc_iff. intros a b. apply childrenIndex_spec.
Qed.

Lemma causalDescendants_iff events v x : x ∈ causalDescendants events v <-> tc (causes events) v x.
Proof.
  destruct (causalDescendants_total events v) as (found & Hf & _ & Hx).
  unfold causalDescendants. rewrite Hf. apply Hx.
Qed.

(** ** The partition *)
Section Partition.
Context (bad : StoredEvent -> bool) (d : Z).

Lemma partition_fold window s :
  let s' := fold_left (partitionStep bad d) window s in
  fs_seed s' = fs_seed s ++ filter_by (fun e => negb (bad e) && (run_seq e <=? d)) window /\
  fs_independent s' = fs_independent s ++ filter_by (fun e => negb (bad e) && negb (run_seq e <=? d)) window /\
  fs_invalidated s' = fs_invalidated s ++ filter_by bad window.
Proof.
  revert s; induction window as [|e window IH]; intros s; cbn [fold_left List.filter];
    [by rewrite !app_nil_r|].
  destruct (IH (partitionStep bad d s e)) as (-> & -> & ->). unfold partitionStep.
  destruct (bad e), (run_seq e <=? d); cbn; by rewrite <- ?(assoc (++)).
Qed.
End Partition.

(** When an event's cause is changed by replacing an input of [at]. *)
Definition affected (window : list StoredEvent) (at_ : string) (e : StoredEvent) : Prop :=
  (exists v, vid e = Some v /\ tc (causes window) at_ v) \/
  (vertex_id e = Some at_ /\ event_type e ∈ EXECUTION_EVENT_TYPES) \/
  (exists p, p ∈ parent_refs e /\ rtc (causes window) at_ p).

Lemma isInvalidated_iff window at_ substituted e :
  substituted <> [] ->
  isInvalidated substituted (causalDescendants window at_) at_ e = true <-> affected window at_ e.
Proof.
  intros Hne. unfold isInvalidated. destruct substituted as [|p ps] eqn:Es; [done|].
  rewrite !orb_true_iff, andb_true_iff, names_vertex_true, includes_true, existsb_true.
  setoid_rewrite orb_true_iff. setoid_rewrite eqb_true. setoid_rewrite JSet_has_true.
  setoid_rewrite causalDescendants_iff. unfold affected. setoid_rewrite rtc_tc_iff.
  destruct (vid e) as [v|].
  - rewrite JSet_has_true, causalDescendants_iff. naive_solver.
  - naive_solver.
Qed.

(** The slice a fork request obtains, declaratively. *)
Definition fork_slice_ok (source : list StoredEvent) (at_ : string) (subs : list ForkSubstitution)
    (upTo : Z) (s : ForkSlice) : Prop :=
  let window := filter_by (fun e => run_seq e <=? upTo) source in
  fs_seed s ++ fs_independent s ++ fs_invalidated s ≡ₚ window /\
  fs_seed s `sublist_of` window /\ fs_independent s `sublist_of` window /\ fs_invalidated s `sublist_of` window /\
  (forall e, e ∈ fs_invalidated s <-> e ∈ window /\ subs <> [] /\ affected window at_ e) /\
  (forall e, e ∈ fs_seed s ++ fs_independent s -> e ∉ fs_invalidated s) /\
  (forall e, e ∈ fs_seed s -> run_seq e <= fs_divergence_seq s) /\
  (forall e, e ∈ fs_independent s -> fs_divergence_seq s < run_seq e) /\
  (forall sub, sub ∈ subs -> exists e, e ∈ fs_seed s ++ fs_independent s /\
     run_seq e = sub_run_seq sub /\ vertex_id e = Some at_ /\ is_Some (truthy (pin_version e))).

Lemma partition_Permutation bad d window :
  filter_by (fun e => negb (bad e) && (run_seq e <=? d)) window ++
  filter_by (fun e => negb (bad e) && negb (run_seq e <=? d)) window ++ filter_by bad window ≡ₚ window.
Proof.
  induction window as [|e window IH]; cbn; [done|].
  destruct (bad e), (run_seq e <=? d); cbn.
  - rewrite (assoc (++)), <- Permutation_middle, <- (assoc (++)). by rewrite IH.
  - rewrite (assoc (++)), <- Permutation_middle, <- (assoc (++)). by rewrite IH.
  - by rewrite IH.
  - rewrite <- Permutation_middle. by rewrite IH.
Qed.

Lemma of_entries_nil_iff {K V} `{EqDecision K} (l : list (K * V)) : JMap.of_entries l = [] <-> l = [].
Proof.
  split; [|by intros ->]. destruct l as [|[k v] l]; [done|]. intros H.
  assert (k ∈ JMap.keys (JMap.of_entries ((k, v) :: l))) as Hk by (apply keys_of_entries; left).
  rewrite H in Hk. cbn in Hk. set_solver.
Qed.

Lemma checkSubstitution_Ok window at_ q u :
  checkSubstitution window at_ q = Ok u ->
  exists e, e ∈ window /\ run_seq e = q /\ vertex_id e = Some at_ /\ is_Some (truthy (pin_version e)).
Proof.
  unfold checkSubstitution. destruct (find _ _) as [e|] eqn:Ef; [|done].
  destruct (truthy (pin_version e)) eqn:Ep; [|done].
  destruct (names_vertex at_ e) eqn:En; [|done]. intros _.
  apply find_Some in Ef as [He Hq]. bool_prop. apply names_vertex_true in En.
  exists e. rewrite Ep. eauto.
Qed.

(** The vertices [causalDescendants] returns are exactly the strict causal descendants of the
    vertex in the created graph, each once; the loop always reaches an empty frontier. *)
Theorem causalDescendants_correct (events : list StoredEvent) (v : string) :
  NoDup (causalDescendants events v) /\
  (forall x, x ∈ causalDescendants events v <-> tc (causes events) v x) /\
  worklist (JMap.get_or [] (childrenIndex events)) (length events + 2) [] [v] = Some (causalDescendants events v).
Proof.
  destruct (causalDescendants_total events v) as (found & Hf & Hnd & Hx).
  unfold causalDescendants. by rewrite Hf.
Qed.

Lemma filter_by_sublist {A} (p : A -> bool) l : filter_by p l `sublist_of` l.
Proof. induction l as [|x l IH]; cbn; [done|]. destruct (p x); by constructor. Qed.

Lemma computeForkSlice_sound source at_ subs upTo s :
  computeForkSlice source at_ subs upTo = Ok s -> fork_slice_ok source at_ subs upTo s.
Proof.
  unfold computeForkSlice, fork_slice_ok. set (window := filter_by _ source).
  destruct (find _ window) as [div|] eqn:Ediv; [|done].
  set (substituted := JMap.of_entries _). destruct (negb _); [done|]. intros H.
  apply bind_Ok in H as ([] & Hchk & H). apply bind_Ok in H as ([] & Hinv & H). injection H as <-.
  set (bad := isInvalidated _ _ _) in *.
  match goal with |- context [fold_left ?f window ?s0] =>
    destruct (partition_fold bad (run_seq div) window s0) as (Es & Ei & Ev);
    set (s := fold_left f window s0) in * end.
  cbn in Es, Ei, Ev.
  assert (fs_divergence_seq s = run_seq div) as Hd.
  { unfold s. apply fold_left_inv; [done|]. intros t e _ Ht. unfold partitionStep.
    destruct (bad e), (run_seq e <=? run_seq div); done. }
  assert (substituted = [] <-> subs = []) as Hsubs.
  { unfold substituted. rewrite of_entries_nil_iff. by destruct subs. }
  rewrite Es, Ei, Ev, Hd. split; [apply partition_Permutation|].
  do 3 (split; [apply filter_by_sublist|]). split; [|split; [|split; [|split]]].
  - intros e. rewrite elem_of_filter_by. destruct (decide (substituted = [])) as [E|E].
    + unfold bad, isInvalidated. rewrite E. naive_solver.
    + unfold bad. destruct substituted eqn:E'; [done|].
      rewrite isInvalidated_iff by done. naive_solver.
  - intros e. rewrite elem_of_app, !elem_of_filter_by. intros He [_ Hb]. rewrite Hb in He. naive_solver.
  - intros e. rewrite elem_of_filter_by. intros [_ Hb]. bool_prop. lia.
  - intros e. rewrite elem_of_filter_by. intros [_ Hb]. bool_prop. lia.
  - intros sub Hsub.
    assert (sub_run_seq sub ∈ JMap.keys substituted) as Hk.
    { unfold substituted. rewrite keys_of_entries, map_map. apply elem_of_map. eauto. }
    pose proof (foldM_unit_Ok _ _ _ Hchk _ Hk) as Hc. apply checkSubstitution_Ok in Hc as (e & He & Hq & Hv).
    exists e. split; [|done]. pose proof (foldM_unit_Ok _ _ _ Hinv _ Hk) as Hno.
    cbn in Hno.
    match type of Hno with (if ?b then _ else _) = _ => destruct b eqn:Ex; [done|] end.
    rewrite Ev, existsb_false in Ex.
    destruct (bad e) eqn:Eb.
    { specialize (Ex e). rewrite elem_of_filter_by in Ex. specialize (Ex (conj He Eb)). bool_prop. done. }
    rewrite elem_of_app, !elem_of_filter_by, Eb. cbn. destruct (run_seq e <=? run_seq div); auto.
Qed.

(** What a fork request must satisfy. *)
Definition fork_request_ok (source : list StoredEvent) (at_ : string) (subs : list ForkSubstitution) (upTo : Z) : Prop :=
  let window := filter_by (fun e => run_seq e <=? upTo) source in
  (exists e, e ∈ window /\ event_type e = vertex_created /\ vertex_id e = Some at_) /\
  NoDup (map sub_run_seq subs) /\
  (forall sub, sub ∈ subs -> exists e, e ∈ window /\ run_seq e = sub_run_seq sub /\ vertex_id e = Some at_ /\
     is_Some (truthy (pin_version e)) /\ ~ affected window at_ e).

Lemma computeForkSlice_admissible source at_ subs upTo :
  is_ok (computeForkSlice source at_ subs upTo) = true -> fork_request_ok source at_ subs upTo.
Proof.
  intros Hok. destruct (computeForkSlice source at_ subs upTo) as [s|] eqn:E; [|done]. pose proof E as Hs.
  apply computeForkSlice_sound in Hs as (Hp & _ & _ & _ & Hinv & Hdis & _ & _ & Hpin).
  unfold computeForkSlice in E. unfold fork_request_ok. set (window := filter_by _ source) in *.
  destruct (find _ window) as [div|] eqn:Ediv; [|done]. apply find_Some in Ediv as [Hd Ht]. apply andb_true_iff in Ht as [Ht Hv].
  apply is_type_true in Ht. apply names_vertex_true in Hv. split; [eauto|].
  destruct (Nat.eqb_spec (length (JMap.of_entries (map (fun i => (sub_run_seq i, sub_pin_version i)) subs))) (length subs)) as [Hl|]; [|done].
  split.
  - rewrite <- (length_map (fun i => (sub_run_seq i, sub_pin_version i)) subs) in Hl. apply length_of_entries in Hl. by rewrite map_map in Hl.
  - intros sub Hsub. destruct (Hpin sub Hsub) as (e & He & Hq & Hve & Hpe). exists e.
    assert (e ∈ window) as Hw.
    { rewrite <- Hp. rewrite (assoc (++)). apply elem_of_app. by left. }
    split_and!; [done..|]. intros Ha. apply (Hdis e He), Hinv. split; [done|]. split; [|done]. intros ->. by apply elem_of_nil in Hsub.
Qed.

Lemma find_by_seq (l : list StoredEvent) e :
  NoDup (map run_seq l) -> e ∈ l -> find (fun x => run_seq x =? run_seq e) l = Some e.
Proof.
  induction l as [|x l IH]; cbn [map]; [intros _ []%elem_of_nil|]. intros [Hx Hnd]%NoDup_cons He. cbn [find].
  apply elem_of_cons in He as [<-|He]; [by rewrite Z.eqb_refl|].
  destruct (Z.eqb_spec (run_seq x) (run_seq e)) as [Heq|_]; [|by apply IH].
  exfalso. apply Hx. rewrite Heq. apply elem_of_map. eauto.
Qed.

Lemma NoDup_map_filter_by {A B} (f : A -> B) (p : A -> bool) l : NoDup (map f l) -> NoDup (map f (filter_by p l)).
Proof.
  induction l as [|x l IH]; cbn; [done|]. intros [Hx Hnd]%NoDup_cons. destruct (p x); cbn; [|by apply IH].
  apply NoDup_cons. split; [|by apply IH]. rewrite !elem_of_map in *. setoid_rewrite elem_of_filter_by. naive_solver.
Qed.

(** On a log with distinct positions the request decides, and nothing else. *)
Lemma computeForkSlice_complete source at_ subs upTo :
  NoDup (map run_seq source) -> fork_request_ok source at_ subs upTo -> is_ok (computeForkSlice source at_ subs upTo) = true.
Proof.
  unfold computeForkSlice, fork_request_ok. set (window := filter_by _ source). intros Hnd (Hcr & Hsub & Hpin).
  apply (NoDup_map_filter_by run_seq (fun e => run_seq e <=? upTo)) in Hnd. fold window in Hnd.
  destruct (find (fun e => is_type vertex_created e && names_vertex at_ e) window) as [div|] eqn:Ediv.
  2:{ exfalso. destruct Hcr as (e & He & Ht & Hv). apply list_elem_of_In in He. apply (find_none _ _ Ediv) in He as Hf.
      rewrite (proj2 (is_type_true _ _) Ht), (proj2 (names_vertex_true _ _) Hv) in Hf. done. }
  set (substituted := JMap.of_entries _).
  assert (length substituted = length subs) as Hlen.
  { unfold substituted. rewrite (proj2 (length_of_entries _)), length_map; [done|]. by rewrite map_map. }
  rewrite Hlen, Nat.eqb_refl. cbn [negb].
  assert (forall q, q ∈ JMap.keys substituted -> exists e, e ∈ window /\ run_seq e = q /\ vertex_id e = Some at_ /\
    is_Some (truthy (pin_version e)) /\ ~ affected window at_ e) as Hq.
  { intros q Hk. unfold substituted in Hk. rewrite keys_of_entries, map_map in Hk. apply elem_of_map in Hk as (sub & -> & Hs). by apply Hpin. }
  rewrite (foldM_unit_total (fun q => checkSubstitution window at_ q)); cbn [mbind result_bind].
  2:{ intros q Hk. destruct (Hq q Hk) as (e & He & <- & Hv & [p Hp] & _). unfold checkSubstitution.
      rewrite (find_by_seq window e Hnd He), Hp, (proj2 (names_vertex_true _ _) Hv). done. }
  match goal with |- context [fold_left ?f window ?s0] =>
    destruct (partition_fold (isInvalidated substituted (match substituted with [] => [] | _ => causalDescendants window at_ end) at_) (run_seq div) window s0)
      as (_ & _ & Ev); set (s := fold_left f window s0) in * end.
  cbn in Ev. rewrite foldM_unit_total; [done|]. intros q Hk. destruct (Hq q Hk) as (e & He & <- & _ & _ & Hna).
  destruct (existsb _ _) eqn:Ex; [|done]. exfalso. apply existsb_true in Ex as (x & Hx & Heq). rewrite Ev in Hx.
  apply elem_of_filter_by in Hx as [Hx Hbad]. apply Z.eqb_eq in Heq.
  pose proof (find_by_seq window x Hnd Hx) as Hfx. rewrite Heq, (find_by_seq window e Hnd He) in Hfx. injection Hfx as ->.
  destruct substituted as [|p ps] eqn:Es; [by apply elem_of_nil in Hk|]. apply isInvalidated_iff in Hbad; done.
Qed.

(** C13. A fork slice is computed exactly for the requests it makes sense for (on a log with distinct
    positions: the divergence vertex is created in the window, no position is substituted twice, and
    every substitution names a pinned event of the divergence vertex that it does not itself
    invalidate), and it splits the window: every event up to the evaluation position lands in exactly
    one part, in log order; with substitutions, the invalidated part is exactly the events whose
    cause changed (events of causal descendants, execution events of the divergence vertex, events
    referring to either), without substitutions it is empty; the seed lies at or before the
    divergence and the independent remainder after it; and every substitution names an inherited,
    pinned event of the divergence vertex. *)
Theorem computeForkSlice_correct source at_ subs upTo :
  NoDup (map run_seq source) ->
  (is_ok (computeForkSlice source at_ subs upTo) = true <-> fork_request_ok source at_ subs upTo) /\
  forall s, computeForkSlice source at_ subs upTo = Ok s -> fork_slice_ok source at_ subs upTo s.
Proof.
  intros Hnd. split; [|intros s; apply computeForkSlice_sound]. split; [|by apply computeForkSlice_complete].
  apply computeForkSlice_admissible.
Qed.

Lemma computeForkSlice_witness :
  exists s, computeForkSlice sample_run "v1" [{| sub_run_seq := 2; sub_pin_version := "p2" |}] 7 = Ok s /\
    fork_slice_ok sample_run "v1" [{| sub_run_seq := 2; sub_pin_version := "p2" |}] 7 s /\
    map run_seq (fs_seed s) = [1; 2] /\ map run_seq (fs_independent s) = [4; 6] /\
    map run_seq (fs_invalidated s) = [3; 5; 7].
Proof.
  eexists. split; [vm_compute; reflexivity|]. split; [|vm_compute; done].
  eapply (computeForkSlice_correct sample_run "v1" [{| sub_run_seq := 2; sub_pin_version := "p2" |}] 7).
  - apply (bool_decide_unpack _). vm_compute. exact I.
  - vm_compute. reflexivity.
Defined.
