(* ===== verification/Projection.v ===== *)
(** * The planner's view of a run (engine/src/log/projection.ts)

    [surface] folds the log into the active vertices, [slice] keeps a planner and its active
    ancestors, [linearize] turns them into prompt items and [assemble] serializes the versioned
    context. The reducers a domain registers and SHA-256 are parameters. *)

From S2P Require Import Prelude Collections Number Json Events Graph.

Record SurfaceVertex : Type := {
  sv_vertex_id : string;
  sv_parent_refs : list string;
  sv_role : option string;
  sv_tool : option string;
  sv_parameters : value;
  (** [None]: the property was never set. *)
  sv_result : option value;
  sv_status : option string;
  (** [None]: never set; [Some None]: a router that fell through. *)
  sv_matched_condition : option (option string);
  sv_created_seq : Z
}.

Record Surface : Type := {
  sf_run_id : string;
  sf_at_run_seq : Z;
  sf_vertices : list (string * SurfaceVertex);
  sf_shadowed : list string
}.

Record ContextItem : Type := {
  ci_vertex_id : string;
  ci_role : option string;
  ci_tool : option string;
  ci_result : value;
  ci_status : option string;
  ci_condition : option string
}.

(** ** FoldRegistry *)
Module FoldRegistry.
Section Registry.
Context {View : Type}.
Abbreviation reducers := (list (string * (list StoredEvent -> View))).

Definition register (rs : reducers) (ref : string) (reduce : list StoredEvent -> View) : result reducers :=
  if JMap.has rs ref then Throw ("fold reducer already registered: " +:+ ref)
  else Ok (JMap.set rs ref reduce).

Definition fold (rs : reducers) (ref : string) (events : list StoredEvent) : result View :=
  match JMap.get rs ref with
  | None => Throw ("unknown fold reducer: " +:+ ref)
  | Some reduce => Ok (reduce events)
  end.
End Registry.
End FoldRegistry.

(** ** surface *)
Definition assertReadable (events : list StoredEvent) : result unit :=
  foldM (fun _ e => if negb (known (event_type e)) && negb (ignorable e)
                    then Throw ("unknown non-ignorable event in stream: " +:+ event_name (event_type e))
                    else Ok tt) tt events.

(** [for (const x of v ?? [])]: what iterating a payload field yields. A string iterates over its
    characters, none of which is a number; a number, a boolean or a plain object is not iterable. *)
Definition iterate (v : value) : result (list value) :=
  match v with
  | VUndef | VNull => Ok []
  | VArr vs => Ok vs
  | VStr _ => Ok []
  | VBool _ | VNum _ | VObj _ => Throw "value is not iterable"
  end.

(** The part of the fold that changes. *)
Abbreviation surface_state := (list (string * SurfaceVertex) * list string)%type.

Definition createStep (vertices : list (string * SurfaceVertex)) (e : StoredEvent) : list (string * SurfaceVertex) :=
  match vid e with
  | Some v =>
      if is_type vertex_created e then
        JMap.set vertices v
          {| sv_vertex_id := v; sv_parent_refs := parent_refs e; sv_role := pstr e "role";
             sv_tool := pstr e "tool"; sv_parameters := pfield e "input"; sv_result := None;
             sv_status := None; sv_matched_condition := None; sv_created_seq := run_seq e |}
      else vertices
  | None => vertices
  end.

(** The vertices a [vertex_seqs] entry names by the position that created them. *)
Definition namedBySeq (vertices : list (string * SurfaceVertex)) (sequence : value) : list string :=
  match sequence with
  | VNum n => map sv_vertex_id (filter_by (fun v => Num.eq (Num.of_Z (sv_created_seq v)) n) (JMap.values vertices))
  | _ => []
  end.

Definition shadowStep (vertices : list (string * SurfaceVertex)) (shadowed : list string) (e : StoredEvent) : result (list string) :=
  if is_type subgraph_shadowed e then
    let shadowed := JSet.addAll shadowed (pstrings e "vertex_ids") in
    seqs ← iterate (pfield e "vertex_seqs");
    Ok (fold_left (fun s q => JSet.addAll s (namedBySeq vertices q)) seqs shadowed)
  else Ok shadowed.

Definition statusStep (vertices : list (string * SurfaceVertex)) (e : StoredEvent) : list (string * SurfaceVertex) :=
  match vid e with
  | Some v =>
      if includes (event_type e) [vertex_started; vertex_succeeded; vertex_failed; vertex_retried] then
        match JMap.get vertices v with
        | None => vertices
        | Some x =>
            let succeeded := is_type vertex_succeeded e in
            JMap.set vertices v
              {| sv_vertex_id := sv_vertex_id x; sv_parent_refs := sv_parent_refs x; sv_role := sv_role x;
                 sv_tool := sv_tool x; sv_parameters := sv_parameters x;
                 sv_result := if succeeded then Some (pfield e "result") else sv_result x;
                 sv_status := Some (drop_str 7 (event_name (event_type e)));
                 sv_matched_condition :=
                   if succeeded && Js.has_field (payload e) "matched_condition"
                   then Some (pstr e "matched_condition") else sv_matched_condition x;
                 sv_created_seq := sv_created_seq x |}
        end
      else vertices
  | None => vertices
  end.

Definition surfaceStep (s : surface_state) (e : StoredEvent) : result surface_state :=
  let vertices := createStep (fst s) e in
  shadowed ← shadowStep vertices (snd s) e;
  Ok (statusStep vertices e, shadowed).

Definition MAX_SAFE_INTEGER : Z := 2 ^ 53 - 1.

Definition surface_at (events : list StoredEvent) (atRunSeq : Z) : result Surface :=
  _ ← assertReadable events;
  let included := filter_by (fun e => run_seq e <=? atRunSeq) events in
  st ← foldM surfaceStep ([], []) included;
  Ok {| sf_run_id := match included with e :: _ => run_id e | [] => "" end;
        sf_at_run_seq := match last included with Some e => run_seq e | None => 0 end;
        sf_vertices := fold_left JMap.delete (snd st) (fst st);
        sf_shadowed := snd st |}.

Definition surface (events : list StoredEvent) : result Surface := surface_at events MAX_SAFE_INTEGER.

(** ** slice, linearize, assemble *)
Section Context_.
Context `{Collation}.
Variable sha256 : string -> string.

Definition by_vertex_id (a b : SurfaceVertex) : Z := localeCompare (sv_vertex_id a) (sv_vertex_id b).

Definition activeParents (view : Surface) (id : string) : option (list string) :=
  sv_parent_refs <$> JMap.get (sf_vertices view) id.

(** The recursion visits each active vertex once: one more level than there are vertices. *)
Definition slice (view : Surface) (plannerVertexId : string) : result (list SurfaceVertex) :=
  if negb (JMap.has (sf_vertices view) plannerVertexId)
  then Throw ("planner " +:+ plannerVertexId +:+ " is not active") else
  let included := default [] (visit (activeParents view) (length (sf_vertices view) + 1) [] plannerVertexId) in
  Ok (js_sort by_vertex_id (omap (JMap.get (sf_vertices view)) included)).

Definition rendersInPlannerPrompt (role : option string) (matched_condition : option (option string)) : bool :=
  (role !=? Some "router") || match matched_condition with Some (Some _) => true | _ => false end.

Definition rendered (v : SurfaceVertex) : bool := rendersInPlannerPrompt (sv_role v) (sv_matched_condition v).

Definition toContextItem (v : SurfaceVertex) : ContextItem :=
  {| ci_vertex_id := sv_vertex_id v; ci_role := sv_role v; ci_tool := sv_tool v; ci_result := default VUndef (sv_result v);
     ci_status := sv_status v;
     ci_condition := match sv_matched_condition v with Some (Some c) => Some c | _ => None end |}.

Definition linearize (vertices : list SurfaceVertex) : list ContextItem :=
  map toContextItem (js_sort by_vertex_id (filter_by rendered vertices)).

Definition opt_str (o : option string) : value := match o with Some s => VStr s | None => VUndef end.

(** The object literal [linearize] builds; [condition] is absent rather than undefined. *)
Definition item_value (i : ContextItem) : value :=
  VObj ([("vertex_id", VStr (ci_vertex_id i)); ("role", opt_str (ci_role i)); ("tool", opt_str (ci_tool i));
         ("result", ci_result i); ("status", opt_str (ci_status i))] ++
        match ci_condition i with Some c => [("condition", VStr c)] | None => [] end).

Record Versions : Type := { projector_version : string; harness_state_version : string }.

(** The [text] of an assembled context. *)
Definition contextText (items : list ContextItem) (versions : Versions) : string :=
  Text.canonicalText
    (VObj [("harness_state_version", VStr (harness_state_version versions));
           ("items", VArr (map item_value items));
           ("projector_version", VStr (projector_version versions))]).

Definition assemble (items : list ContextItem) (versions : Versions) : string * string :=
  let text := contextText items versions in (text, sha256 text).

Record ProjectionDump (View : Type) : Type := {
  pd_surface : list SurfaceVertex;
  pd_slice : list SurfaceVertex;
  pd_fold : option View;
  pd_linearize : list ContextItem;
  pd_assemble : string * string
}.

Definition dumpProjection {View : Type} (events : list StoredEvent) (plannerVertexId : string) (versions : Versions)
    (registry : option (list (string * (list StoredEvent -> View)))) (reducerRef : option string)
    : result (ProjectionDump View) :=
  active ← surface events;
  relevant ← slice active plannerVertexId;
  let items := linearize relevant in
  folded ← match registry, truthy reducerRef with
           | Some rs, Some ref => v ← FoldRegistry.fold rs ref events; Ok (Some v)
           | _, _ => Ok None
           end;
  Ok {| pd_surface := js_sort by_vertex_id (JMap.values (sf_vertices active)); pd_slice := relevant;
        pd_fold := folded; pd_linearize := items; pd_assemble := assemble items versions |}.
End Context_.

(** ** The surface holds exactly the created vertices that were not shadowed *)

Definition created_in (events : list StoredEvent) (id : string) : Prop :=
  exists e, e ∈ events /\ event_type e = vertex_created /\ vid e = Some id.

Lemma created_in_snoc events e id :
  created_in (events ++ [e]) id <-> created_in events id \/ (event_type e = vertex_created /\ vid e = Some id).
Proof. unfold created_in. setoid_rewrite elem_of_app. setoid_rewrite list_elem_of_singleton. naive_solver. Qed.

(** The events of a vertex that move its status, and those that record its result. *)
Definition status_of (id : string) (e : StoredEvent) : bool :=
  (vid e ==? Some id) && includes (event_type e) [vertex_started; vertex_succeeded; vertex_failed; vertex_retried].
Definition success_of (id : string) (e : StoredEvent) : bool := (vid e ==? Some id) && is_type vertex_succeeded e.
Definition matched_of (id : string) (e : StoredEvent) : bool := success_of id e && Js.has_field (payload e) "matched_condition".

(** A surface vertex is read off the event that created it and the events after it. *)
Record described (id : string) (c : StoredEvent) (post : list StoredEvent) (v : SurfaceVertex) : Prop := {
  ds_id : sv_vertex_id v = id;
  ds_created : sv_parent_refs v = parent_refs c /\ sv_role v = pstr c "role" /\ sv_tool v = pstr c "tool" /\
               sv_parameters v = pfield c "input" /\ sv_created_seq v = run_seq c;
  ds_status : sv_status v = (fun e => drop_str 7 (event_name (event_type e))) <$> last (filter_by (status_of id) post);
  ds_result : sv_result v = (fun e => pfield e "result") <$> last (filter_by (success_of id) post);
  ds_matched : sv_matched_condition v = (fun e => pstr e "matched_condition") <$> last (filter_by (matched_of id) post)
}.

Definition last_created (id : string) (events : list StoredEvent) (c : StoredEvent) (post : list StoredEvent) : Prop :=
  (exists pre, events = pre ++ c :: post) /\ event_type c = vertex_created /\ vid c = Some id /\ ~ created_in post id.

(** The vertices a [subgraph/shadowed] event lists: by their ids, or by the positions that created them. *)
Definition seqs_of (e : StoredEvent) : list value := match pfield e "vertex_seqs" with VArr l => l | _ => [] end.

Definition discards (pre : list StoredEvent) (e : StoredEvent) (id : string) : Prop :=
  event_type e = subgraph_shadowed /\
  (id ∈ pstrings e "vertex_ids" \/
   exists n c post, VNum n ∈ seqs_of e /\ last_created id pre c post /\ Num.eq (Num.of_Z (run_seq c)) n = true).

Definition discarded_in (events : list StoredEvent) (id : string) : Prop := exists pre e post, events = pre ++ e :: post /\ discards pre e id.

Record surface_inv (pre : list StoredEvent) (s : surface_state) : Prop := {
  si_keys : forall id, id ∈ JMap.keys (fst s) <-> created_in pre id;
  si_NoDup : NoDup (JMap.keys (fst s));
  si_described : forall id v, JMap.get (fst s) id = Some v -> exists c post, last_created id pre c post /\ described id c post v;
  si_shadowed : forall id, id ∈ snd s <-> discarded_in pre id
}.

Lemma surface_inv_init : surface_inv [] ([], []).
Proof.
  split; cbn.
  - intros id. unfold created_in. setoid_rewrite elem_of_nil. naive_solver.
  - constructor.
  - done.
  - intros id. split; [by intros ?%elem_of_nil|]. intros (pre & e & post & E & _). by destruct pre.
Qed.

Lemma createStep_keys vertices e id :
  id ∈ JMap.keys (createStep vertices e) <->
  id ∈ JMap.keys vertices \/ (event_type e = vertex_created /\ vid e = Some id).
Proof.
  unfold createStep. destruct (vid e) as [v|]; [|naive_solver].
  destruct (is_type vertex_created e) eqn:Et.
  - apply is_type_true in Et. rewrite keys_set. naive_solver.
  - assert (event_type e <> vertex_created) by (rewrite <- is_type_true; congruence). naive_solver.
Qed.

Lemma created_status e id : event_type e = vertex_created -> status_of id e = false /\ success_of id e = false /\ matched_of id e = false.
Proof. intros He. unfold matched_of, success_of, status_of, is_type. rewrite He. by destruct (vid e ==? Some id). Qed.

Lemma get_createStep vertices e id :
  JMap.get (createStep vertices e) id =
  if is_type vertex_created e && (vid e ==? Some id)
  then Some {| sv_vertex_id := id; sv_parent_refs := parent_refs e; sv_role := pstr e "role"; sv_tool := pstr e "tool";
               sv_parameters := pfield e "input"; sv_result := None; sv_status := None; sv_matched_condition := None; sv_created_seq := run_seq e |}
  else JMap.get vertices id.
Proof.
  unfold createStep. destruct (vid e) as [w|]; [|by rewrite andb_false_r].
  destruct (is_type vertex_created e); cbn [andb]; [|done]. rewrite get_set. destruct (decide (w = id)) as [->|Hne].
  - by rewrite !eqb_refl.
  - by rewrite (proj2 (eqb_false w id)), (proj2 (eqb_false (Some w) (Some id))) by congruence.
Qed.

Lemma last_filter_snoc {A} (p : A -> bool) l x : last (filter_by p (l ++ [x])) = if p x then Some x else last (filter_by p l).
Proof. rewrite filter_by_app. cbn [List.filter]. destruct (p x); [by rewrite last_snoc|by rewrite app_nil_r]. Qed.

(** One more event keeps a description in step with [statusStep]. *)
Lemma statusStep_described vertices e id v c post :
  described id c post v -> JMap.get vertices id = Some v ->
  exists v', JMap.get (statusStep vertices e) id = Some v' /\ described id c (post ++ [e]) v'.
Proof.
  intros [Hid Hc Hst Hr Hm] Hg. unfold statusStep. destruct (status_of id e) eqn:Es.
  - assert (vid e = Some id /\ includes (event_type e) [vertex_started; vertex_succeeded; vertex_failed; vertex_retried] = true) as [Hv Hi].
    { unfold status_of in Es. apply andb_true_iff in Es as [Es ->]. by apply eqb_true_1 in Es. }
    rewrite Hv, Hi, Hg. eexists. rewrite get_set, eqb_refl. split; [done|].
    assert (success_of id e = is_type vertex_succeeded e) as Hsu by (unfold success_of; by rewrite Hv, eqb_refl).
    split; cbn; [done|done| | |]; rewrite last_filter_snoc.
    + by rewrite Es.
    + rewrite Hsu. destruct (is_type vertex_succeeded e); [done|exact Hr].
    + unfold matched_of at 1. rewrite Hsu. destruct (is_type vertex_succeeded e && _); [done|exact Hm].
  - assert (success_of id e = false) as Hsu.
    { unfold success_of, status_of in *. destruct (vid e ==? Some id); [|done]. cbn [andb] in *.
      destruct (is_type vertex_succeeded e) eqn:Et; [|done]. apply is_type_true in Et. by rewrite Et in Es. }
    assert (matched_of id e = false) as Hmo by (unfold matched_of; by rewrite Hsu).
    exists v. split.
    + destruct (vid e) as [w|] eqn:Ev; [|done]. destruct (includes _ _) eqn:Ei; [|done].
      destruct (JMap.get vertices w) as [x|]; [|done]. rewrite get_set. destruct (decide (w = id)) as [->|Hne].
      * unfold status_of in Es. by rewrite Ev, Ei, eqb_refl in Es.
      * by rewrite (proj2 (eqb_false w id)) by congruence.
    + split; [done|done| | |]; rewrite last_filter_snoc; [by rewrite Es|by rewrite Hsu|by rewrite Hmo].
Qed.

Lemma described_new id c : described id c []
  {| sv_vertex_id := id; sv_parent_refs := parent_refs c; sv_role := pstr c "role"; sv_tool := pstr c "tool";
     sv_parameters := pfield c "input"; sv_result := None; sv_status := None; sv_matched_condition := None; sv_created_seq := run_seq c |}.
Proof. by split. Qed.

Lemma statusStep_keys vertices e : JMap.keys (statusStep vertices e) = JMap.keys vertices.
Proof.
  unfold statusStep. destruct (vid e) as [v|]; [|done]. destruct (includes _ _); [|done].
  destruct (JMap.get vertices v) as [x|] eqn:Eg; [|done].
  rewrite keys_set_app. destruct (JMap.has vertices v) eqn:Eh; [done|].
  rewrite has_get, Eg in Eh. done.
Qed.

Lemma get_statusStep_None vertices e id : JMap.get vertices id = None -> JMap.get (statusStep vertices e) id = None.
Proof.
  intros Hg. apply eq_None_not_Some. rewrite get_is_Some, statusStep_keys, <- get_is_Some, Hg. by intros [? ?].
Qed.

Lemma surfaceStep_described pre vertices e id v' :
  (forall id v, JMap.get vertices id = Some v -> exists c post, last_created id pre c post /\ described id c post v) ->
  JMap.get (statusStep (createStep vertices e) e) id = Some v' ->
  exists c post, last_created id (pre ++ [e]) c post /\ described id c post v'.
Proof.
  intros H Hg. destruct (is_type vertex_created e && (vid e ==? Some id)) eqn:Ec.
  - apply andb_true_iff in Ec as [Ht0 Hv0]. apply is_type_true in Ht0. apply eqb_true_1 in Hv0.
    exists e, []. split; [split; [by exists pre|]; split; [done|]; split; [done|]; intros (x & []%elem_of_nil & _)|].
    destruct (statusStep_described (createStep vertices e) e id _ e [] (described_new id e)) as (v & Hv & [? ? Hst Hr Hm]).
    { rewrite get_createStep, (proj2 (is_type_true _ _) Ht0), Hv0. by rewrite eqb_refl. }
    rewrite Hg in Hv. injection Hv as ->. destruct (created_status e id Ht0) as (E1 & E2 & E3).
    rewrite last_filter_snoc in Hst, Hr, Hm. rewrite E1 in Hst. rewrite E2 in Hr. rewrite E3 in Hm. by split.
  - destruct (JMap.get vertices id) as [v|] eqn:Ev.
    + destruct (H id v Ev) as (c & post & ((p & ->) & Hct & Hcv & Hno) & Hd).
      destruct (statusStep_described (createStep vertices e) e id v c post Hd) as (v2 & Hv2 & Hd2).
      { by rewrite get_createStep, Ec. }
      rewrite Hg in Hv2. injection Hv2 as ->. exists c, (post ++ [e]). split; [|done].
      split; [exists p; by rewrite <- (assoc (++))|]. split; [done|]. split; [done|]. rewrite created_in_snoc.
      intros [Hp|[Ht Hv]]; [done|]. apply is_type_true in Ht. by rewrite Ht, Hv, eqb_refl in Ec.
    + rewrite get_statusStep_None in Hg; [done|]. by rewrite get_createStep, Ec.
Qed.

Lemma elem_of_addAlls (f : value -> list string) qs sh id :
  id ∈ fold_left (fun s q => JSet.addAll s (f q)) qs sh <-> id ∈ sh \/ exists q, q ∈ qs /\ id ∈ f q.
Proof.
  revert sh; induction qs as [|q qs IH]; intros sh; cbn [fold_left]; [set_solver|]. rewrite IH, elem_of_addAll.
  setoid_rewrite elem_of_cons. naive_solver.
Qed.

Lemma elem_of_shadowStep vs sh e sh' id : is_type subgraph_shadowed e = true -> shadowStep vs sh e = Ok sh' ->
  id ∈ sh' <-> id ∈ sh \/ id ∈ pstrings e "vertex_ids" \/
    exists n k x, VNum n ∈ seqs_of e /\ (k, x) ∈ vs /\ Num.eq (Num.of_Z (sv_created_seq x)) n = true /\ sv_vertex_id x = id.
Proof.
  intros Ht. unfold shadowStep. rewrite Ht. intros H. inv_bind. subst sh'. rename x into seqs.
  assert (seqs = seqs_of e) as <-.
  { unfold iterate in H0. unfold seqs_of. by destruct (pfield e "vertex_seqs"); inv_bind. }
  rewrite elem_of_addAlls, elem_of_addAll, Logic.or_assoc. apply or_iff_compat_l, or_iff_compat_l. split.
  - intros (q & Hq & Hid). destruct q as [| | |n| | |]; try (by apply elem_of_nil in Hid). cbn in Hid.
    apply elem_of_map in Hid as (x & -> & [Hx Hn]%elem_of_filter_by). apply elem_of_map in Hx as ([k y] & -> & Hy). by exists n, k, y.
  - intros (n & k & x & Hq & Hx & Hn & <-). exists (VNum n). split; [done|]. cbn. apply elem_of_map. exists x. split; [done|].
    apply elem_of_filter_by. split; [|done]. apply elem_of_map. by exists (k, x).
Qed.

(** The last creation of an identifier is one event. *)
Lemma last_created_unique id events c post c' post' : last_created id events c post -> last_created id events c' post' -> c = c'.
Proof.
  intros ((p & ->) & Ht & Hv & Hn) ((p' & E) & Ht' & Hv' & Hn').
  apply app_eq_inv in E as [(k & _ & E)|(k & _ & E)]; (destruct k as [|x k]; [by injection E|]); cbn in E; injection E as _ E; exfalso.
  - apply Hn'. rewrite E. exists c. split; [apply elem_of_app; right; left|done].
  - apply Hn. rewrite E. exists c'. split; [apply elem_of_app; right; left|done].
Qed.

Lemma discarded_in_snoc pre e id : discarded_in (pre ++ [e]) id <-> discarded_in pre id \/ discards pre e id.
Proof.
  split.
  - intros (p & x & post & E & Hd). destruct post as [|y post _] using rev_ind.
    + apply app_inj_tail in E as [-> ->]. by right.
    + left. rewrite app_comm_cons, app_assoc in E. apply app_inj_tail in E as [-> _]. by exists p, x, post.
  - intros [(p & x & post & -> & Hd)|Hd]; [exists p, x, (post ++ [e]); by rewrite <- (assoc (++))|by exists pre, e, []].
Qed.

(** What one event discards, read off the vertices held before it. *)
Lemma shadowStep_discards pre s e sh' id : surface_inv pre s -> shadowStep (createStep (fst s) e) (snd s) e = Ok sh' ->
  id ∈ sh' <-> id ∈ snd s \/ discards pre e id.
Proof.
  intros [Hk Hnd Hdesc _]. destruct (is_type subgraph_shadowed e) eqn:Et.
  2:{ unfold shadowStep, discards. rewrite Et. intros [= <-]. rewrite <- is_type_true, Et. naive_solver. }
  intros H. apply (elem_of_shadowStep _ _ _ _ id Et) in H. apply is_type_true in Et.
  assert (createStep (fst s) e = fst s) as Hc by (unfold createStep, is_type; rewrite Et; by destruct (vid e)). rewrite Hc in H.
  rewrite H. apply or_iff_compat_l. unfold discards. split.
  - intros [Hid|(n & k & x & Hn & Hx & Heq & <-)]; [by split; [|left]|]. split; [done|]. right.
    apply get_elem in Hx; [|done]. destruct (Hdesc _ _ Hx) as (c & post & Hlc & [Hid (_ & _ & _ & _ & Hseq) _ _ _]).
    exists n, c, post. rewrite Hid, <- Hseq. by split_and!.
  - intros [_ [Hid|(n & c & post & Hn & Hlc & Heq)]]; [by left|]. right. pose proof Hlc as ((p & Ep) & Hct & Hcv & _).
    assert (is_Some (JMap.get (fst s) id)) as [x Hx].
    { apply get_is_Some, Hk. exists c. split; [rewrite Ep; apply elem_of_app; right; left|done]. }
    destruct (Hdesc _ _ Hx) as (c' & post' & Hlc' & [Hid (_ & _ & _ & _ & Hseq) _ _ _]). apply (last_created_unique _ _ _ _ _ _ Hlc) in Hlc' as <-.
    exists n, id, x. rewrite Hseq. split_and!; try done. by apply get_Some_elem.
Qed.

Lemma surfaceStep_inv pre e s s' :
  surface_inv pre s -> surfaceStep s e = Ok s' -> surface_inv (pre ++ [e]) s'.
Proof.
  intros Hi H. pose proof Hi as [Hk Hnd Hdesc Hsh]. unfold surfaceStep in H. apply bind_Ok in H as (sh & Hs & H).
  injection H as <-. split; cbn [fst snd].
  - intros id. rewrite statusStep_keys, createStep_keys, Hk, created_in_snoc. done.
  - rewrite statusStep_keys. unfold createStep. destruct (vid e); [|done].
    destruct (is_type _ _); [by apply NoDup_keys_set|done].
  - intros id v. by apply surfaceStep_described.
  - intros id. rewrite discarded_in_snoc, (shadowStep_discards pre s e sh id Hi Hs), Hsh. done.
Qed.

Lemma get_delete_all {V} (ids : list string) (m : list (string * V)) id :
  JMap.get (fold_left JMap.delete ids m) id = if includes id ids then None else JMap.get m id.
Proof.
  revert m; induction ids as [|i ids IH]; intros m; [done|]. cbn [fold_left]. rewrite IH, get_delete.
  unfold includes. cbn. by destruct (i ==? id), (existsb _ ids).
Qed.

Lemma NoDup_keys_filter {K V} (p : K * V -> bool) (m : list (K * V)) :
  NoDup (JMap.keys m) -> NoDup (JMap.keys (filter_by p m)).
Proof.
  unfold JMap.keys. induction m as [|[k v] m IH]; cbn; [done|]. rewrite NoDup_cons. intros [Hk Hm].
  destruct (p (k, v)); cbn; [|by apply IH]. apply NoDup_cons. split; [|by apply IH].
  rewrite elem_of_map in *. setoid_rewrite elem_of_filter_by. naive_solver.
Qed.

Lemma NoDup_keys_delete_all {V} (ids : list string) (m : list (string * V)) :
  NoDup (JMap.keys m) -> NoDup (JMap.keys (fold_left JMap.delete ids m)).
Proof. intros Hm. apply fold_left_inv; [done|]. intros t i _. apply NoDup_keys_filter. Qed.

(** The surface is the vertices the fold holds, less the discarded. *)
Lemma surface_at_inv events at_ s : surface_at events at_ = Ok s ->
  exists vertices, surface_inv (filter_by (fun e => run_seq e <=? at_) events) (vertices, sf_shadowed s) /\ sf_vertices s = fold_left JMap.delete (sf_shadowed s) vertices.
Proof.
  unfold surface_at. intros H. apply bind_Ok in H as (_ & _ & H). apply bind_Ok in H as ([vs sh] & Hf & H). injection H as <-. exists vs. split; [|done].
  by apply (foldM_prefix_inv surface_inv) in Hf; [|apply surface_inv_init|intros; by eapply surfaceStep_inv].
Qed.

(** C39. The active surface of a readable log holds exactly the vertices created up to the position
    that no [subgraph/shadowed] up to it discarded, by listing their id or the position that last created
    them before it: one entry per identifier, whose structure is that of its last creation, whose status
    is that of its last started, succeeded, failed or retried event since, and whose result and matched
    condition are those of its last success since. The shadowed it reports are exactly the discarded. *)
Theorem surface_correct events at_ s :
  surface_at events at_ = Ok s ->
  let included := filter_by (fun e => run_seq e <=? at_) events in
  NoDup (JMap.keys (sf_vertices s)) /\
  (forall id, id ∈ JMap.keys (sf_vertices s) <-> created_in included id /\ ~ discarded_in included id) /\
  (forall id v, JMap.get (sf_vertices s) id = Some v -> exists c post, last_created id included c post /\ described id c post v) /\
  (forall id, id ∈ sf_shadowed s <-> discarded_in included id).
Proof.
  intros (vs & [Hk Hnd Hids Hsh] & ->)%surface_at_inv. set (sh := sf_shadowed s) in *.
  cbn [fst snd] in *. split; [by apply NoDup_keys_delete_all|]. split; [|split; [|done]].
  - intros id. rewrite <- get_is_Some, get_delete_all, <- Hk, <- get_is_Some, <- Hsh.
    destruct (includes id sh) eqn:Ei; bool_prop; [|tauto].
    split; [by intros [? ?]|tauto].
  - intros id v. rewrite get_delete_all. destruct (includes id sh); [done|apply Hids].
Qed.

(** ** The slice is the planner with its active ancestors *)
Section SliceFacts.
Context `{Collation}.

#[local] Instance by_vertex_id_comparator : Comparator by_vertex_id := locale_comparator sv_vertex_id.

(** [b] is an active parent of the active vertex [a]. *)
Definition active_parent (view : Surface) (a b : string) : Prop :=
  exists v, JMap.get (sf_vertices view) a = Some v /\ b ∈ sv_parent_refs v /\ b ∈ JMap.keys (sf_vertices view).

Lemma activeParents_is_Some view x : is_Some (activeParents view x) <-> x ∈ JMap.keys (sf_vertices view).
Proof. unfold activeParents. rewrite fmap_is_Some. apply get_is_Some. Qed.

Lemma active_edge_iff view a b :
  (vedge (activeParents view) a b /\ is_Some (activeParents view b)) <-> active_parent view a b.
Proof.
  rewrite activeParents_is_Some. unfold vedge, active_parent, activeParents.
  destruct (JMap.get (sf_vertices view) a); cbn; naive_solver.
Qed.

(** For a surface filed by identifier, [slice] succeeds exactly on an active planner and
    returns, each once and in collation order, the active vertices reachable from it through parent
    references along active vertices: the planner and its active ancestors. *)
Theorem slice_correct view p :
  NoDup (JMap.keys (sf_vertices view)) ->
  (forall id v, JMap.get (sf_vertices view) id = Some v -> sv_vertex_id v = id) ->
  (is_ok (slice view p) = true <-> p ∈ JMap.keys (sf_vertices view)) /\
  forall l, slice view p = Ok l ->
    NoDup (map sv_vertex_id l) /\
    StronglySorted (fun a b => by_vertex_id a b <= 0) l /\
    forall v, v ∈ l <->
      JMap.get (sf_vertices view) (sv_vertex_id v) = Some v /\ rtc (active_parent view) p (sv_vertex_id v).
Proof.
  intros Hnd Hids. unfold slice. destruct (JMap.has (sf_vertices view) p) eqn:Eh; cbn [negb].
  2:{ split; [|done]. split; [done|]. rewrite <- has_keys. congruence. }
  apply has_keys in Eh. split; [done|]. intros l [= <-].
  destruct (visit_reachable (activeParents view) (JMap.keys (sf_vertices view))) with
    (fuel := (length (sf_vertices view) + 1)%nat) (id := p) as (inc & -> & Hnodup & Hinc).
  { intros x ps Hx. apply activeParents_is_Some. by eexists. }
  { unfold JMap.keys. rewrite length_map. lia. }
  change (default [] (Some inc)) with inc.
  assert (forall x, x ∈ inc -> x ∈ JMap.keys (sf_vertices view)) as Hact.
  { intros x Hx. apply activeParents_is_Some. by apply Hinc in Hx as (_ & ? & _). }
  assert (map sv_vertex_id (omap (JMap.get (sf_vertices view)) inc) = inc) as Hmap.
  { clear Hnodup Hinc. induction inc as [|x inc IH]; [done|]. cbn.
    destruct (get_is_Some (sf_vertices view) x) as [_ Hg].
    destruct (Hg (Hact x ltac:(left))) as [v Hv]. rewrite Hv. cbn. rewrite (Hids _ _ Hv).
    f_equal. apply IH. intros y Hy. apply Hact. by right. }
  split; [|split; [apply (js_sort_sorted by_vertex_id)|]].
  - assert (map sv_vertex_id (js_sort by_vertex_id (omap (JMap.get (sf_vertices view)) inc)) ≡ₚ inc) as ->; [|done].
    rewrite <- Hmap at 2. apply Permutation_map, js_sort_Permutation.
  - intros v. rewrite elem_of_js_sort, list_elem_of_omap. setoid_rewrite Hinc.
    split.
    + intros (x & (Hr & Hx & _) & Hg). rewrite (Hids _ _ Hg). split; [done|].
      revert Hr. apply (rtc_congruence id). intros a b. apply active_edge_iff.
    + intros [Hg Hr]. exists (sv_vertex_id v). split; [|done]. rewrite !activeParents_is_Some.
      split; [|split; [apply get_is_Some; by eexists|done]].
      revert Hr. apply (rtc_congruence id). intros a b. apply active_edge_iff.
Qed.

(** The prompt depends only on the rendered vertices, not on their order: two slices with the
    same rendered vertices, whose identifiers the collation tells apart, give the same items and
    the same assembled context and hash. So a router that fell through leaves the context
    identical to one in which it never existed. *)
Theorem linearize_invariant (sha256 : string -> string) vs ws versions :
  filter_by rendered vs ≡ₚ filter_by rendered ws ->
  (forall a b, a ∈ vs -> b ∈ vs -> localeCompare (sv_vertex_id a) (sv_vertex_id b) = 0 -> a = b) ->
  linearize vs = linearize ws /\
  assemble sha256 (linearize vs) versions = assemble sha256 (linearize ws) versions.
Proof.
  intros Hp Hinj. assert (linearize vs = linearize ws) as ->; [|done].
  unfold linearize. f_equal. apply (js_sort_perm by_vertex_id); [|done].
  intros a b Ha Hb. apply elem_of_filter_by in Ha as [Ha _], Hb as [Hb _]. by apply Hinj.
Qed.
End SliceFacts.

(** ** Concrete instances *)
Definition shadowing_run : list StoredEvent :=
  sample_run ++ [sample_event 8 subgraph_shadowed None [] None
                   [("vertex_ids", VArr [VStr "v3"]); ("vertex_seqs", VArr [VNum (Num.of_Z 3)])]].

Lemma surface_witness :
  exists s, surface_at shadowing_run 8 = Ok s /\ JMap.keys (sf_vertices s) = ["v1"; "v4"] /\
    discarded_in (filter_by (fun e => run_seq e <=? 8) shadowing_run) "v3" /\ discarded_in (filter_by (fun e => run_seq e <=? 8) shadowing_run) "v2".
Proof.
  eexists. split; [vm_compute; reflexivity|]. split; [reflexivity|].
  destruct (surface_correct shadowing_run 8 _ ltac:(vm_compute; reflexivity)) as (_ & _ & _ & Hd).
  split; apply Hd; vm_compute; [left|right; left].
Defined.

Lemma filed_by_id (m : list (string * SurfaceVertex)) :
  forallb (fun p => sv_vertex_id (snd p) ==? fst p) m = true ->
  forall id v, JMap.get m id = Some v -> sv_vertex_id v = id.
Proof.
  rewrite forallb_true. intros Hm id v Hg. apply get_Some_elem in Hg. apply Hm in Hg. by bool_prop.
Qed.

Definition sample_surface : Surface :=
  match surface sample_run with Ok s => s | Throw _ => {| sf_run_id := ""; sf_at_run_seq := 0; sf_vertices := []; sf_shadowed := [] |} end.

Lemma slice_witness :
  exists l, slice (H := code_unit_collation) sample_surface "v2" = Ok l /\ map sv_vertex_id l = ["v1"; "v2"] /\
    NoDup (map sv_vertex_id l).
Proof.
  eexists. split; [vm_compute; reflexivity|]. split; [reflexivity|].
  eapply (slice_correct (H := code_unit_collation) sample_surface "v2"); [| |vm_compute; reflexivity].
  - vm_compute. by repeat constructor; rewrite ?elem_of_cons, ?elem_of_nil; naive_solver.
  - apply filed_by_id. vm_compute. reflexivity.
Defined.

(** The planner v4 of the sample run, whose slice holds the router v2 fallen through. *)
Definition fell_through (v : SurfaceVertex) : SurfaceVertex :=
  {| sv_vertex_id := sv_vertex_id v; sv_parent_refs := sv_parent_refs v; sv_role := sv_role v; sv_tool := sv_tool v;
     sv_parameters := sv_parameters v; sv_result := sv_result v; sv_status := Some "succeeded";
     sv_matched_condition := Some None; sv_created_seq := sv_created_seq v |}.

Lemma linearize_witness :
  let vs := map fell_through (JMap.values (sf_vertices sample_surface)) in
  map sv_vertex_id vs = ["v1"; "v2"; "v3"; "v4"] /\
  linearize (H := code_unit_collation) vs =
    linearize (H := code_unit_collation) (reverse (filter_by (fun v => sv_vertex_id v !=? "v2") vs)).
Proof.
  split; [vm_compute; reflexivity|].
  apply (linearize_invariant (H := code_unit_collation) (fun s => s) _ _
           {| projector_version := "p"; harness_state_version := "h" |}).
  - vm_compute. apply Permutation_rev.
  - intros a b Ha Hb He. apply strcmp_eq in He. revert Ha Hb He.
    rewrite !list_elem_of_In. vm_compute. naive_solver.
Defined.
