(* ===== verification/Scopes.v ===== *)
(** * Transaction scopes, read from the log (engine/src/recovery.ts, lines 119-279)

    [scopeCancellations] folds the log into the phase of every transaction scope, mirroring the
    database's triggers; [backtrackFloor] is the planning-authority floor. The theorems give the
    phase as a state machine driven by the events that mention the scope. *)

From S2P Require Import Prelude Collections Number Json Events.

Definition CHARS_PER_TOKEN : Z := 4.
Definition TOKENS_PER_REGENERATED_VERTEX : Z := 120.

Definition backtrackFloor (events : list StoredEvent) : Z :=
  fold_left (fun floor e => if is_type txn_pivot_passed e then Z.max floor (run_seq e) else floor) events 0.

Inductive ScopePhase : Type :=
| unmaterialized | open | fenced | cancel_requested | cancelling | cancelled | suspended
| pivot_inflight | pivot_passed | committed.

#[export] Instance ScopePhase_eq_dec : EqDecision ScopePhase.
Proof. solve_decision. Defined.

Definition phase_name (p : ScopePhase) : string :=
  match p with
  | unmaterialized => "unmaterialized" | open => "open" | fenced => "fenced"
  | cancel_requested => "cancel-requested" | cancelling => "cancelling" | cancelled => "cancelled"
  | suspended => "suspended" | pivot_inflight => "pivot-inflight" | pivot_passed => "pivot-passed"
  | committed => "committed"
  end.

Record ScopeCancellation : Type := {
  sc_scopeId : string;
  sc_phase : ScopePhase;
  sc_members : list string;
  sc_firstMemberSeq : Z;
  sc_openTries : Z;
  sc_fencedBy : option string;
  sc_requestSeq : option Z;
  sc_requestedFor : option string;
  sc_cancelledSeq : option Z;
  sc_suspendedSeq : option Z
}.

Definition CANCELLABLE : list ScopePhase := [open; fenced; cancel_requested; cancelling].
Definition UNRECOVERABLE : list ScopePhase := [suspended; pivot_inflight; pivot_passed].
Definition TRANSIENT : list ScopePhase := [fenced; cancel_requested; cancelling; pivot_inflight; pivot_passed].

(** Field assignments on a scope object. *)
Definition set_phase (p : ScopePhase) (s : ScopeCancellation) : ScopeCancellation :=
  {| sc_scopeId := sc_scopeId s; sc_phase := p; sc_members := sc_members s; sc_firstMemberSeq := sc_firstMemberSeq s;
     sc_openTries := sc_openTries s; sc_fencedBy := sc_fencedBy s; sc_requestSeq := sc_requestSeq s;
     sc_requestedFor := sc_requestedFor s; sc_cancelledSeq := sc_cancelledSeq s; sc_suspendedSeq := sc_suspendedSeq s |}.
Definition set_request (seq : Z) (for_ : option string) (s : ScopeCancellation) : ScopeCancellation :=
  {| sc_scopeId := sc_scopeId s; sc_phase := sc_phase s; sc_members := sc_members s; sc_firstMemberSeq := sc_firstMemberSeq s;
     sc_openTries := sc_openTries s; sc_fencedBy := sc_fencedBy s; sc_requestSeq := Some seq;
     sc_requestedFor := for_; sc_cancelledSeq := sc_cancelledSeq s; sc_suspendedSeq := sc_suspendedSeq s |}.
Definition set_member (v : option string) (seq : Z) (s : ScopeCancellation) : ScopeCancellation :=
  {| sc_scopeId := sc_scopeId s; sc_phase := sc_phase s;
     sc_members := match v with Some v => sc_members s ++ [v] | None => sc_members s end;
     sc_firstMemberSeq := Z.min (sc_firstMemberSeq s) seq;
     sc_openTries := sc_openTries s; sc_fencedBy := sc_fencedBy s; sc_requestSeq := sc_requestSeq s;
     sc_requestedFor := sc_requestedFor s; sc_cancelledSeq := sc_cancelledSeq s; sc_suspendedSeq := sc_suspendedSeq s |}.
Definition set_suspended (seq : Z) (s : ScopeCancellation) : ScopeCancellation :=
  {| sc_scopeId := sc_scopeId s; sc_phase := suspended; sc_members := sc_members s; sc_firstMemberSeq := sc_firstMemberSeq s;
     sc_openTries := sc_openTries s; sc_fencedBy := sc_fencedBy s; sc_requestSeq := sc_requestSeq s;
     sc_requestedFor := sc_requestedFor s; sc_cancelledSeq := sc_cancelledSeq s; sc_suspendedSeq := Some seq |}.
Definition set_cancelled (seq : Z) (s : ScopeCancellation) : ScopeCancellation :=
  {| sc_scopeId := sc_scopeId s; sc_phase := cancelled; sc_members := sc_members s; sc_firstMemberSeq := sc_firstMemberSeq s;
     sc_openTries := sc_openTries s; sc_fencedBy := sc_fencedBy s; sc_requestSeq := sc_requestSeq s;
     sc_requestedFor := sc_requestedFor s; sc_cancelledSeq := Some seq; sc_suspendedSeq := sc_suspendedSeq s |}.
Definition set_fenced (by_ : option string) (s : ScopeCancellation) : ScopeCancellation :=
  {| sc_scopeId := sc_scopeId s; sc_phase := fenced; sc_members := sc_members s; sc_firstMemberSeq := sc_firstMemberSeq s;
     sc_openTries := sc_openTries s; sc_fencedBy := by_; sc_requestSeq := sc_requestSeq s;
     sc_requestedFor := sc_requestedFor s; sc_cancelledSeq := sc_cancelledSeq s; sc_suspendedSeq := sc_suspendedSeq s |}.
Definition set_openTries (n : Z) (s : ScopeCancellation) : ScopeCancellation :=
  {| sc_scopeId := sc_scopeId s; sc_phase := sc_phase s; sc_members := sc_members s; sc_firstMemberSeq := sc_firstMemberSeq s;
     sc_openTries := n; sc_fencedBy := sc_fencedBy s; sc_requestSeq := sc_requestSeq s;
     sc_requestedFor := sc_requestedFor s; sc_cancelledSeq := sc_cancelledSeq s; sc_suspendedSeq := sc_suspendedSeq s |}.

Definition newScope (scopeId : string) (seq : Z) : ScopeCancellation :=
  {| sc_scopeId := scopeId; sc_phase := unmaterialized; sc_members := []; sc_firstMemberSeq := seq; sc_openTries := 0;
     sc_fencedBy := None; sc_requestSeq := None; sc_requestedFor := None; sc_cancelledSeq := None; sc_suspendedSeq := None |}.

(** The two maps of [scopeCancellations]. *)
Record FoldState : Type := {
  f_scopes : list (string * ScopeCancellation);
  f_tries : list (string * list string)
}.

(** [scopeAt]: the scope, created on first mention. *)
Definition scopeAt (st : FoldState) (scopeId : string) (seq : Z) : ScopeCancellation * FoldState :=
  match JMap.get (f_scopes st) scopeId with
  | Some s => (s, st)
  | None => let s := newScope scopeId seq in
            (s, {| f_scopes := JMap.set (f_scopes st) scopeId s; f_tries := JMap.set (f_tries st) scopeId [] |})
  end.

(** Writing back a scope object the loop mutated. *)
Definition put (st : FoldState) (scopeId : string) (s : ScopeCancellation) : FoldState :=
  {| f_scopes := JMap.set (f_scopes st) scopeId s; f_tries := f_tries st |}.
Definition put_tries (st : FoldState) (scopeId : string) (f : list string -> list string) : FoldState :=
  {| f_scopes := f_scopes st; f_tries := JMap.set (f_tries st) scopeId (f (JMap.get_or [] (f_tries st) scopeId)) |}.

Definition materialize (s : ScopeCancellation) : ScopeCancellation :=
  if sc_phase s ==? unmaterialized then set_phase open s else s.

(** [String(event.payload.idempotency_key ?? event.vertex_id)] *)
Definition tryKey (e : StoredEvent) : string :=
  Js.to_text (Js.nullish_or (pfield e "idempotency_key")
                (match vertex_id e with Some v => VStr v | None => VNull end)).

Definition requestOne (e : StoredEvent) (st : FoldState) (scopeId : string) : FoldState :=
  let '(s, st) := scopeAt st scopeId (run_seq e) in
  let s := if includes (sc_phase s) [open; fenced] then set_phase cancel_requested s else s in
  put st scopeId (set_request (run_seq e) (pstr e "failed_vertex_id") s).

(** The [switch] on the event type, for an event of one scope. *)
Definition scopeSwitch (e : StoredEvent) (scopeId : string) (s : ScopeCancellation) (st : FoldState) : FoldState :=
  match event_type e with
  | vertex_created => put st scopeId (set_member (vid e) (run_seq e) s)
  | txn_scope =>
      let state := pstr e "state" in
      if state ==? Some "open" then put st scopeId (materialize s)
      else if state ==? Some "suspended" then put st scopeId (set_suspended (run_seq e) s)
      else if state ==? Some "committed" then put st scopeId (set_phase committed s)
      else if state ==? Some "cancelled" then put st scopeId (set_cancelled (run_seq e) s)
      else st
  | txn_try => put_tries (put st scopeId (materialize s)) scopeId (fun t => JSet.add t (tryKey e))
  | txn_confirm => put_tries st scopeId (fun t => JSet.delete t (tryKey e))
  | vertex_started => if pstr e "phase" ==? Some "pivot" then put st scopeId (set_phase pivot_inflight s) else st
  | txn_pivot_passed => put st scopeId (set_phase pivot_passed s)
  | vertex_failed =>
      if (sc_phase s ==? open) || ((sc_phase s ==? pivot_inflight) && (pstr e "outcome" ==? Some "confirmed-absent"))
      then put st scopeId (set_fenced (vertex_id e) s) else st
  | txn_cancel =>
      if pstr e "phase" ==? Some "completed"
      then put_tries (put st scopeId (set_cancelled (run_seq e) s)) scopeId (fun _ => [])
      else put st scopeId (set_phase cancelling s)
  | _ => st
  end.

Definition scopeStep (st : FoldState) (e : StoredEvent) : FoldState :=
  if is_type replan_cancel_requested e then fold_left (requestOne e) (pstrings e "scope_ids") st
  else match sid e with
       | None => st
       | Some scopeId => let '(s, st) := scopeAt st scopeId (run_seq e) in scopeSwitch e scopeId s st
       end.

Definition foldScopes (events : list StoredEvent) : FoldState :=
  fold_left scopeStep events {| f_scopes := []; f_tries := [] |}.

(** The final pass: the open tries of every scope that has not committed. *)
Definition countTries (tries : list (string * list string)) (p : string * ScopeCancellation) : string * ScopeCancellation :=
  let s := snd p in
  (fst p, set_openTries (if sc_phase s ==? committed then 0
                         else Z.of_nat (length (JMap.get_or [] tries (sc_scopeId s)))) s).

Definition scopeCancellations (events : list StoredEvent) : list (string * ScopeCancellation) :=
  let st := foldScopes events in map (countTries (f_tries st)) (f_scopes st).

Definition openBracketScopes (events : list StoredEvent) : list string :=
  fold_left (fun open_ s => if (0 <? sc_openTries s) && (sc_phase s !=? cancelled) then JSet.add open_ (sc_scopeId s) else open_)
    (JMap.values (scopeCancellations events)) [].

(** One scope row as the database holds it under the lock (engine/src/log/store.ts). *)
Record LockedScope : Type := {
  ls_scopeId : string;
  ls_state : string;
  ls_fenced : bool;
  ls_hasSealedTry : bool;
  ls_hasExpiredTry : bool
}.

Definition coarse (p : ScopePhase) : string := if p ==? cancel_requested then "fenced" else phase_name p.

Definition disagreeingScopes (scopes : list (string * ScopeCancellation)) (locked : list LockedScope) : list string :=
  map ls_scopeId (filter_by (fun row =>
    let stored := if (ls_state row ==? "open") && ls_fenced row then "fenced" else ls_state row in
    match JMap.get scopes (ls_scopeId row) with
    | None => true
    | Some folded => coarse (sc_phase folded) !=? stored
    end) locked).

(** ** One scope's part of the fold *)

(** What the fold holds about one scope: its object and its unanswered try keys. *)
Definition cell (st : FoldState) (s : string) : option ScopeCancellation * option (list string) :=
  (JMap.get (f_scopes st) s, JMap.get (f_tries st) s).

(** An event mentions a scope by carrying its identifier, or by asking for its cancellation. *)
Definition mentions (s : string) (e : StoredEvent) : bool :=
  if is_type replan_cancel_requested e then includes s (pstrings e "scope_ids") else sid e ==? Some s.

Lemma cell_put st id sc s :
  cell (put st id sc) s = if id ==? s then (Some sc, snd (cell st s)) else cell st s.
Proof. unfold cell, put. cbn [f_scopes f_tries]. rewrite get_set. by destruct (id ==? s). Qed.

Lemma cell_put_tries st id f s :
  cell (put_tries st id f) s =
    if id ==? s then (fst (cell st s), Some (f (default [] (snd (cell st s))))) else cell st s.
Proof.
  unfold cell, put_tries. cbn [f_scopes f_tries fst snd]. rewrite get_set. case_eqb; [subst|]; done.
Qed.

Lemma scopeAt_fst st id q : fst (scopeAt st id q) = default (newScope id q) (fst (cell st id)).
Proof. unfold scopeAt, cell. cbn [fst]. by destruct (JMap.get (f_scopes st) id). Qed.

Definition born (id : string) (q : Z) (c : option ScopeCancellation * option (list string)) :=
  match fst c with Some _ => c | None => (Some (newScope id q), Some []) end.

Lemma cell_scopeAt st id q s :
  cell (snd (scopeAt st id q)) s = if id ==? s then born id q (cell st s) else cell st s.
Proof.
  unfold scopeAt, born, cell. cbn [fst]. case_eqb.
  - subst. destruct (JMap.get (f_scopes st) s) eqn:E; cbn [fst snd f_scopes f_tries]; [by rewrite E|].
    by rewrite !get_set_eq.
  - destruct (JMap.get (f_scopes st) id); cbn [fst snd f_scopes f_tries]; [done|].
    by rewrite !get_set_ne.
Qed.

(** The requests of one event, seen from one scope. *)
Definition request_cell (e : StoredEvent) (s : string) (c : option ScopeCancellation * option (list string)) :=
  let sc := default (newScope s (run_seq e)) (fst c) in
  (Some (set_request (run_seq e) (pstr e "failed_vertex_id")
           (if includes (sc_phase sc) [open; fenced] then set_phase cancel_requested sc else sc)),
   snd (born s (run_seq e) c)).

Lemma cell_requestOne e st id s :
  cell (requestOne e st id) s = if id ==? s then request_cell e s (cell st s) else cell st s.
Proof.
  unfold requestOne. pose proof (scopeAt_fst st id (run_seq e)) as Hf.
  pose proof (cell_scopeAt st id (run_seq e) s) as Hc. destruct (scopeAt st id (run_seq e)) as [sc st'].
  cbn [fst snd] in Hf, Hc. rewrite cell_put, Hc. case_eqb; [|done]. subst. done.
Qed.

Lemma request_cell_idemp e s c : request_cell e s (request_cell e s c) = request_cell e s c.
Proof.
  unfold request_cell. cbn [fst snd default born].
  destruct (includes (sc_phase (default (newScope s (run_seq e)) (fst c))) [open; fenced]) eqn:E; cbn; [done|].
  by unfold includes in *; cbn in *; rewrite E.
Qed.

Lemma cell_requests e ids st s :
  cell (fold_left (requestOne e) ids st) s = if includes s ids then request_cell e s (cell st s) else cell st s.
Proof.
  revert st; induction ids as [|id ids IH]; intros st; [done|]. cbn [fold_left]. rewrite IH, cell_requestOne.
  unfold includes. cbn [existsb]. fold (includes s ids). destruct (id ==? s), (includes s ids); cbn [orb]; try done.
  apply request_cell_idemp.
Qed.

Lemma scopeSwitch_frame e id sc st s : id <> s -> cell (scopeSwitch e id sc st) s = cell st s.
Proof.
  intros Hne. apply eqb_false in Hne. unfold scopeSwitch.
  destruct (event_type e); repeat case_match; rewrite ?cell_put_tries, ?cell_put, ?Hne; done.
Qed.

Lemma scopeSwitch_congr e s sc st1 st2 :
  cell st1 s = cell st2 s -> cell (scopeSwitch e s sc st1) s = cell (scopeSwitch e s sc st2) s.
Proof.
  intros Heq. unfold scopeSwitch.
  destruct (event_type e); repeat case_match;
    rewrite ?cell_put_tries, ?cell_put, ?eqb_refl, ?cell_put, ?eqb_refl, ?Heq; done.
Qed.

(** The events of other scopes leave a scope alone. *)
Lemma scopeStep_frame st e s : mentions s e = false -> cell (scopeStep st e) s = cell st s.
Proof.
  unfold mentions, scopeStep. destruct (is_type _ e).
  - intros Hm. by rewrite cell_requests, Hm.
  - intros Hm. destruct (sid e) as [id|]; [|done].
    assert (id <> s) as Hne by (intros ->; by rewrite eqb_refl in Hm).
    pose proof (cell_scopeAt st id (run_seq e) s) as Hc. destruct (scopeAt st id (run_seq e)) as [sc st'].
    cbn [snd] in Hc. rewrite scopeSwitch_frame, Hc by done. by apply eqb_false in Hne as ->.
Qed.

(** A scope's next state is a function of its own state. *)
Lemma scopeStep_congr st1 st2 e s :
  cell st1 s = cell st2 s -> cell (scopeStep st1 e) s = cell (scopeStep st2 e) s.
Proof.
  intros Heq. destruct (mentions s e) eqn:Em; [|by rewrite !scopeStep_frame].
  unfold mentions in Em. unfold scopeStep. destruct (is_type _ e).
  - by rewrite !cell_requests, Em, Heq.
  - bool_prop. rewrite Em.
    pose proof (scopeAt_fst st1 s (run_seq e)) as H1. pose proof (scopeAt_fst st2 s (run_seq e)) as H2.
    pose proof (cell_scopeAt st1 s (run_seq e) s) as C1. pose proof (cell_scopeAt st2 s (run_seq e) s) as C2.
    destruct (scopeAt st1 s (run_seq e)) as [sc1 st1'], (scopeAt st2 s (run_seq e)) as [sc2 st2'].
    cbn [fst snd] in *. rewrite eqb_refl, Heq in *. subst. apply scopeSwitch_congr. congruence.
Qed.

Lemma foldScopes_snoc events e : foldScopes (events ++ [e]) = scopeStep (foldScopes events) e.
Proof. unfold foldScopes. by rewrite fold_left_app. Qed.

Lemma cell_only_mentions events s :
  cell (foldScopes events) s = cell (foldScopes (filter_by (mentions s) events)) s.
Proof.
  induction events as [|e events IH] using rev_ind; [done|].
  rewrite foldScopes_snoc, filter_by_app. cbn [List.filter]. destruct (mentions s e) eqn:Em.
  - rewrite foldScopes_snoc. by apply scopeStep_congr.
  - rewrite app_nil_r, scopeStep_frame by done. exact IH.
Qed.

(** Scopes are filed under their own identifier. *)
Lemma foldScopes_ids events s sc : JMap.get (f_scopes (foldScopes events)) s = Some sc -> sc_scopeId sc = s.
Proof.
  enough (forall sc, fst (cell (foldScopes events) s) = Some sc -> sc_scopeId sc = s) as H by apply H.
  clear sc. induction events as [|e events IH] using rev_ind; [done|]. rewrite foldScopes_snoc.
  destruct (mentions s e) eqn:Em; [|by rewrite scopeStep_frame].
  assert (sc_scopeId (default (newScope s (run_seq e)) (fst (cell (foldScopes events) s))) = s) as Hd.
  { destruct (fst (cell (foldScopes events) s)) as [sc|] eqn:E; cbn; [by apply IH|done]. }
  unfold mentions in Em. unfold scopeStep. destruct (is_type _ e).
  - rewrite cell_requests, Em. unfold request_cell. cbn [fst]. intros sc [= <-].
    case_match; exact Hd.
  - bool_prop. rewrite Em. pose proof (scopeAt_fst (foldScopes events) s (run_seq e)) as H1.
    pose proof (cell_scopeAt (foldScopes events) s (run_seq e) s) as C1.
    destruct (scopeAt (foldScopes events) s (run_seq e)) as [sc1 st1]. cbn [fst snd] in *.
    rewrite eqb_refl in C1. rewrite <- H1 in Hd.
    assert (forall sc, fst (cell st1 s) = Some sc -> sc_scopeId sc = s) as Hst.
    { rewrite C1. unfold born. destruct (fst (cell (foldScopes events) s)) eqn:E; [rewrite E; naive_solver|].
      cbn. naive_solver. }
    unfold scopeSwitch, materialize.
    destruct (event_type e); repeat case_match;
      rewrite ?cell_put_tries, ?eqb_refl, ?cell_put, ?eqb_refl; cbn [fst]; try done; intros ? [= <-]; done.
Qed.

(** ** What a scope's phase is evidence of *)

Lemma scopeStep_switch st e s :
  is_type replan_cancel_requested e = false -> sid e = Some s ->
  exists st', cell st' s = born s (run_seq e) (cell st s) /\
    scopeStep st e = scopeSwitch e s (default (newScope s (run_seq e)) (fst (cell st s))) st'.
Proof.
  intros Hr Hs. unfold scopeStep. rewrite Hr, Hs.
  pose proof (scopeAt_fst st s (run_seq e)) as H1. pose proof (cell_scopeAt st s (run_seq e) s) as C1.
  destruct (scopeAt st s (run_seq e)) as [sc st']. cbn [fst snd] in *. rewrite eqb_refl in C1.
  exists st'. by rewrite <- H1.
Qed.

Definition created_of (s : string) (e : StoredEvent) : bool := is_type vertex_created e && (sid e ==? Some s).

Definition cancel_done (s : string) (e : StoredEvent) : Prop :=
  sid e = Some s /\ ((event_type e = txn_cancel /\ pstr e "phase" = Some "completed") \/
                     (event_type e = txn_scope /\ pstr e "state" = Some "cancelled")).

Definition cancel_asked (s : string) (e : StoredEvent) : Prop :=
  event_type e = replan_cancel_requested /\ s ∈ pstrings e "scope_ids".

Record scope_facts (pre : list StoredEvent) (s : string) (sc : ScopeCancellation) : Prop := {
  sf_members : sc_members sc = omap vid (filter_by (created_of s) pre);
  sf_first : forall e, e ∈ pre -> created_of s e = true -> sc_firstMemberSeq sc <= run_seq e;
  sf_cancelled : sc_phase sc = cancelled ->
    exists e, e ∈ pre /\ cancel_done s e /\ sc_cancelledSeq sc = Some (run_seq e);
  sf_requested : sc_phase sc = cancel_requested ->
    exists e, e ∈ pre /\ cancel_asked s e /\ sc_requestSeq sc = Some (run_seq e) /\
      sc_requestedFor sc = pstr e "failed_vertex_id";
  sf_suspended : sc_phase sc = suspended ->
    exists e, e ∈ pre /\ sid e = Some s /\ event_type e = txn_scope /\ pstr e "state" = Some "suspended" /\
      sc_suspendedSeq sc = Some (run_seq e)
}.

(** Facts survive an event that adds no member. *)
Lemma scope_facts_snoc pre e s sc :
  scope_facts pre s sc -> created_of s e = false -> scope_facts (pre ++ [e]) s sc.
Proof.
  intros [Hm Hf Hc Hr Hs] He. split.
  - rewrite filter_by_app. cbn [List.filter]. rewrite He, app_nil_r. done.
  - intros x. rewrite elem_of_app, list_elem_of_singleton. intros [Hx| ->]; [by apply Hf|congruence].
  - intros Hp. destruct (Hc Hp) as (x & Hx & ?). exists x. rewrite elem_of_app. tauto.
  - intros Hp. destruct (Hr Hp) as (x & Hx & ?). exists x. rewrite elem_of_app. tauto.
  - intros Hp. destruct (Hs Hp) as (x & Hx & ?). exists x. rewrite elem_of_app. tauto.
Qed.

(** A change of phase, backed by the last event. *)
Lemma scope_facts_change pre s sc sc' :
  scope_facts pre s sc -> sc_members sc' = sc_members sc -> sc_firstMemberSeq sc' = sc_firstMemberSeq sc ->
  (sc_phase sc' = cancelled -> exists e, e ∈ pre /\ cancel_done s e /\ sc_cancelledSeq sc' = Some (run_seq e)) ->
  (sc_phase sc' = cancel_requested -> exists e, e ∈ pre /\ cancel_asked s e /\ sc_requestSeq sc' = Some (run_seq e) /\
      sc_requestedFor sc' = pstr e "failed_vertex_id") ->
  (sc_phase sc' = suspended -> exists e, e ∈ pre /\ sid e = Some s /\ event_type e = txn_scope /\
      pstr e "state" = Some "suspended" /\ sc_suspendedSeq sc' = Some (run_seq e)) ->
  scope_facts pre s sc'.
Proof. intros [Hm Hf _ _ _] Em Ef Hc Hr Hs. split; [congruence|by rewrite Ef|done..]. Qed.

Lemma scope_facts_member pre e s sc :
  scope_facts pre s sc -> created_of s e = true ->
  scope_facts (pre ++ [e]) s (set_member (vid e) (run_seq e) sc).
Proof.
  intros [Hm Hf Hc Hr Hs] He. split; cbn.
  - rewrite filter_by_app. cbn [List.filter]. rewrite He, omap_app, Hm. cbn. destruct (vid e); [done|].
    by rewrite app_nil_r.
  - intros x. rewrite elem_of_app, list_elem_of_singleton. intros [Hx| ->] Hx'; [specialize (Hf x Hx Hx')|]; lia.
  - intros Hp. destruct (Hc Hp) as (x & Hx & ?). exists x. rewrite elem_of_app. tauto.
  - intros Hp. destruct (Hr Hp) as (x & Hx & ?). exists x. rewrite elem_of_app. tauto.
  - intros Hp. destruct (Hs Hp) as (x & Hx & ?). exists x. rewrite elem_of_app. tauto.
Qed.

Lemma newScope_facts pre e s :
  (forall x, x ∈ pre -> created_of s x = false) -> scope_facts pre s (newScope s (run_seq e)).
Proof.
  intros Hno. split; cbn; [|intros x Hx Hc; by rewrite Hno in Hc|done..].
  induction pre as [|x pre IH]; [done|]. cbn. rewrite Hno by left. apply IH. intros y Hy. apply Hno. by right.
Qed.

Ltac last_event e := exists e; rewrite elem_of_app, list_elem_of_singleton; unfold cancel_done, cancel_asked; naive_solver.

(** The invariant of the fold for one scope: no object yet and no member seen, or an object whose
    facts the consumed log supports. *)
Definition cell_facts (pre : list StoredEvent) (s : string) (st : FoldState) : Prop :=
  match fst (cell st s) with
  | Some sc => scope_facts pre s sc
  | None => forall x, x ∈ pre -> mentions s x = false
  end.

Lemma created_mentions s e : created_of s e = true -> mentions s e = true.
Proof.
  unfold created_of, mentions. intros H. bool_prop. apply is_type_true in H.
  unfold is_type. rewrite H. case_eqb; [done|]. by apply eqb_true.
Qed.

Lemma current_facts pre e s st :
  cell_facts pre s st -> scope_facts pre s (default (newScope s (run_seq e)) (fst (cell st s))).
Proof.
  unfold cell_facts. destruct (fst (cell st s)); [done|]. intros Hno. cbn. apply newScope_facts.
  intros x Hx. apply not_true_iff_false. intros Hc%created_mentions. rewrite Hno in Hc; done.
Qed.

Lemma request_facts pre e s st :
  cell_facts pre s st -> is_type replan_cancel_requested e = true -> s ∈ pstrings e "scope_ids" ->
  cell_facts (pre ++ [e]) s (scopeStep st e).
Proof.
  intros Hf Ht Hin. unfold cell_facts. unfold scopeStep at 1. rewrite Ht, cell_requests.
  apply includes_true in Hin as Hi. rewrite Hi. cbn [fst request_cell].
  pose proof (current_facts pre e s st Hf) as Hc. set (sc := default _ _) in *. apply is_type_true in Ht.
  apply (scope_facts_snoc _ e) in Hc; [|unfold created_of, is_type; by rewrite Ht].
  destruct Hc as [Hm Hfi Hca Hr Hs].
  eapply scope_facts_change with (sc := sc); [by split|case_match; done|case_match; done|..]; case_match; cbn; try done.
  - intros _. last_event e.
  - intros _. last_event e.
Qed.

Lemma switch_facts pre e s st st' :
  is_type replan_cancel_requested e = false -> sid e = Some s ->
  scope_facts pre s (default (newScope s (run_seq e)) (fst (cell st s))) ->
  cell st' s = born s (run_seq e) (cell st s) ->
  cell_facts (pre ++ [e]) s (scopeSwitch e s (default (newScope s (run_seq e)) (fst (cell st s))) st').
Proof.
  intros Hr Hsid Hf Hb.
  assert (fst (cell st' s) = Some (default (newScope s (run_seq e)) (fst (cell st s)))) as Hst.
  { rewrite Hb. unfold born. by destruct (fst (cell st s)) eqn:E; [rewrite E|]. }
  set (sc := default _ _) in *. clearbody sc.
  destruct (created_of s e) eqn:Hcr.
  { pose proof Hcr as Hcr'. unfold created_of in Hcr'. bool_prop.
    match goal with H : is_type vertex_created e = true |- _ => apply is_type_true in H; rename H into Ht end.
    unfold scopeSwitch. rewrite Ht. unfold cell_facts. rewrite cell_put, eqb_refl. by apply scope_facts_member. }
  apply (scope_facts_snoc _ e) in Hf; [|done].
  assert (event_type e <> vertex_created) as Hnc.
  { intros Ht. unfold created_of, is_type in Hcr. rewrite Ht, Hsid in Hcr. bool_prop. by rewrite !eqb_refl in Hcr. }
  assert (cell_facts (pre ++ [e]) s st') as Hsame by by (unfold cell_facts; rewrite Hst).
  destruct Hf as [Hm Hfi Hca Hre Hsu].
  unfold scopeSwitch, materialize.
  destruct (event_type e) eqn:Ht; try done; repeat case_match; try done; unfold cell_facts;
    rewrite ?cell_put_tries, ?eqb_refl, ?cell_put, ?eqb_refl; cbn [fst]; rewrite ?Hst; try done;
    bool_prop; first [by split|idtac];
    (eapply scope_facts_change with (sc := sc); [by split|done|done|..]; cbn; try done; intros _; last_event e).
Qed.

Lemma foldScopes_facts events s : cell_facts events s (foldScopes events).
Proof.
  induction events as [|e events IH] using rev_ind; [by unfold cell_facts; cbn; intros x Hx%elem_of_nil|].
  rewrite foldScopes_snoc. destruct (mentions s e) eqn:Em.
  - pose proof Em as Em'. unfold mentions in Em. destruct (is_type _ e) eqn:Er; bool_prop.
    + by apply request_facts.
    + destruct (scopeStep_switch (foldScopes events) e s Er Em) as (st' & Hb & ->).
      apply switch_facts; [done|done|by apply current_facts|done].
  - unfold cell_facts in *. rewrite scopeStep_frame by done. destruct (fst (cell _ s)).
    + apply scope_facts_snoc; [done|]. apply not_true_iff_false. intros Hc%created_mentions. congruence.
    + intros x. rewrite elem_of_app, list_elem_of_singleton. intros [Hx| ->]; auto.
Qed.

(** ** The returned map *)
Lemma get_map_values {K A B} `{EqDecision K} (f : K * A -> K * B) (m : list (K * A)) k :
  (forall p, fst (f p) = fst p) ->
  JMap.get (map f m) k = (fun a => snd (f (k, a))) <$> JMap.get m k.
Proof.
  intros Hf. induction m as [|[k' a] m IH]; [done|]. cbn [map]. destruct (f (k', a)) as [k2 b] eqn:E.
  pose proof (Hf (k', a)) as Hk. rewrite E in Hk. cbn in Hk. subst k2. rewrite !get_cons, IH.
  case_eqb; [|done]. subst. cbn. by rewrite E.
Qed.

Lemma get_scopeCancellations events s :
  JMap.get (scopeCancellations events) s =
    (fun sc => snd (countTries (f_tries (foldScopes events)) (s, sc))) <$> fst (cell (foldScopes events) s).
Proof. unfold scopeCancellations. rewrite get_map_values; [done|]. by intros [? ?]. Qed.

Lemma scopeCancellations_ids events s sc : JMap.get (scopeCancellations events) s = Some sc -> sc_scopeId sc = s.
Proof.
  rewrite get_scopeCancellations. destruct (fst (cell (foldScopes events) s)) as [sc0|] eqn:E; [|done].
  cbn. intros [= <-]. cbn. by apply foldScopes_ids in E.
Qed.

(** The scopes of a run do not interfere: what the fold reports of a scope is what it reports
    when given only the events that mention that scope. *)
Theorem scopeCancellations_local events s :
  JMap.get (scopeCancellations events) s = JMap.get (scopeCancellations (filter_by (mentions s) events)) s.
Proof.
  rewrite !get_scopeCancellations, <- cell_only_mentions.
  destruct (fst (cell (foldScopes events) s)) as [sc|] eqn:E; [|done]. cbn.
  apply foldScopes_ids in E as Hid. do 2 f_equal. rewrite Hid. unfold JMap.get_or.
  pose proof (cell_only_mentions events s) as Hc. unfold cell in Hc. injection Hc as _ Ht. by rewrite Ht.
Qed.

(** The reading of one scope, with the log that supports it. *)
Lemma scope_evidence events s :
  match JMap.get (scopeCancellations events) s with
  | Some sc => sc_scopeId sc = s /\ scope_facts events s sc
  | None => forall e, e ∈ events -> mentions s e = false
  end.
Proof.
  destruct (JMap.get (scopeCancellations events) s) as [sc|] eqn:E.
  - split; [by apply scopeCancellations_ids in E|]. pose proof (foldScopes_facts events s) as Hf.
    rewrite get_scopeCancellations in E. unfold cell_facts in Hf.
    destruct (fst (cell (foldScopes events) s)) as [sc0|]; [|done]. injection E as <-.
    destruct Hf as [Hm Hfi Hc Hr Hs]. by split.
  - pose proof (foldScopes_facts events s) as Hf. rewrite get_scopeCancellations in E. unfold cell_facts in Hf.
    by destruct (fst (cell (foldScopes events) s)).
Qed.

(** A scope is reported exactly when an event mentions it, and what is reported is backed by
    the log: its members are the vertices created in it, in order; its savepoint is not after any of
    them; a cancelled phase has a completed cancellation (never a mere request) at the recorded
    position, a requested one the request that asked, a suspended one the suspension. *)
Theorem scopeCancellations_evidence events s :
  match JMap.get (scopeCancellations events) s with
  | Some sc => sc_scopeId sc = s /\ scope_facts events s sc
  | None => forall e, e ∈ events -> mentions s e = false
  end.
Proof. apply scope_evidence. Qed.

(** ** Open brackets *)
Definition answers (s k : string) (e : StoredEvent) : bool :=
  (sid e ==? Some s) &&
  ((is_type txn_confirm e && (tryKey e ==? k)) || (is_type txn_cancel e && (pstr e "phase" ==? Some "completed"))).

Definition tried (s k : string) (e : StoredEvent) : bool :=
  is_type txn_try e && (sid e ==? Some s) && (tryKey e ==? k).

(** A try of the scope under this key that nothing after it confirmed or finished cancelling. *)
Definition unanswered (events : list StoredEvent) (s k : string) : Prop :=
  exists pre e post, events = pre ++ e :: post /\ tried s k e = true /\ forall x, x ∈ post -> answers s k x = false.

Lemma unanswered_snoc events e s k :
  unanswered (events ++ [e]) s k <-> tried s k e = true \/ (unanswered events s k /\ answers s k e = false).
Proof.
  split.
  - intros (pre & x & post & Heq & Ht & Hno).
    destruct post as [|p post] using rev_ind.
    + apply app_inj_tail in Heq as [-> ->]. by left.
    + clear IHpost. rewrite app_comm_cons, (assoc (++)) in Heq. apply app_inj_tail in Heq as [-> ->].
      right. split; [|apply Hno; set_solver]. exists pre, x, post. split; [done|]. split; [done|].
      intros y Hy. apply Hno. set_solver.
  - intros [Ht|[(pre & x & post & -> & Ht & Hno) He]].
    + exists events, e, []. split; [done|]. split; [done|]. intros x Hx%elem_of_nil. done.
    + exists pre, x, (post ++ [e]). rewrite <- (assoc (++)). split; [done|]. split; [done|].
      intros y. rewrite elem_of_app, list_elem_of_singleton. intros [Hy| ->]; auto.
Qed.

Definition open_keys (st : FoldState) (s : string) : list string := default [] (snd (cell st s)).

Definition keys_wf (st : FoldState) (s : string) : Prop := fst (cell st s) = None -> open_keys st s = [].

Lemma born_keys s q st : keys_wf st s -> default [] (snd (born s q (cell st s))) = open_keys st s.
Proof. unfold keys_wf, open_keys, born. destruct (fst (cell st s)); [done|]. intros ->; done. Qed.

Lemma scopeStep_mentioned st e s : mentions s e = true -> is_Some (fst (cell (scopeStep st e) s)).
Proof.
  unfold mentions. destruct (is_type _ e) eqn:Er; intros Hm; bool_prop.
  - unfold scopeStep. rewrite Er, cell_requests. apply includes_true in Hm as ->. by eexists.
  - destruct (scopeStep_switch st e s Er Hm) as (st' & Hb & ->).
    assert (is_Some (fst (cell st' s))).
    { rewrite Hb. unfold born. destruct (fst (cell st s)) eqn:E; [rewrite E|]; by eexists. }
    unfold scopeSwitch. destruct (event_type e); repeat case_match;
      rewrite ?cell_put_tries, ?eqb_refl, ?cell_put, ?eqb_refl; cbn [fst]; done.
Qed.

Lemma keys_wf_step st e s : keys_wf st s -> keys_wf (scopeStep st e) s.
Proof.
  intros Hwf. destruct (mentions s e) eqn:Em.
  - apply (scopeStep_mentioned st) in Em as [sc Hs]. unfold keys_wf. rewrite Hs. done.
  - unfold keys_wf, open_keys. by rewrite scopeStep_frame.
Qed.

Lemma other_event st e s k :
  event_type e <> txn_try -> event_type e <> txn_confirm -> event_type e <> txn_cancel ->
  k ∈ open_keys st s <-> tried s k e = true \/ (k ∈ open_keys st s /\ answers s k e = false).
Proof.
  intros H1 H2 H3. apply (eqb_false (event_type e)) in H1, H2, H3. unfold tried, answers, is_type.
  rewrite H1, H2, H3. cbn. rewrite andb_false_r. naive_solver.
Qed.

Lemma open_keys_step st e s k :
  keys_wf st s ->
  k ∈ open_keys (scopeStep st e) s <-> tried s k e = true \/ (k ∈ open_keys st s /\ answers s k e = false).
Proof.
  intros Hwf. destruct (mentions s e) eqn:Em; unfold mentions in Em;
    destruct (is_type replan_cancel_requested e) eqn:Er.
  - unfold open_keys at 1, scopeStep. rewrite Er, cell_requests, Em. cbn [snd request_cell].
    rewrite born_keys by done. apply is_type_true in Er. apply other_event; congruence.
  - bool_prop. destruct (scopeStep_switch st e s Er Em) as (st' & Hb & ->).
    assert (open_keys st' s = open_keys st s) as Hk.
    { unfold open_keys at 1. rewrite Hb. by apply born_keys. }
    rewrite <- Hk. unfold scopeSwitch. destruct (event_type e) eqn:Et;
      try (repeat case_match; unfold open_keys; rewrite ?cell_put, ?eqb_refl; cbn [snd];
           apply (other_event st'); congruence).
    + unfold open_keys at 1. rewrite cell_put_tries, eqb_refl, cell_put, eqb_refl. cbn [snd].
      change (default [] (Some ?x)) with x. rewrite elem_of_add. fold (open_keys st' s).
      unfold tried, answers, is_type. rewrite Et, Em, !eqb_refl. cbn [andb orb]. rewrite eqb_true.
      rewrite !(proj2 (eqb_false txn_try _)) by done. cbn. naive_solver.
    + unfold open_keys at 1. rewrite cell_put_tries, eqb_refl. cbn [snd].
      change (default [] (Some ?x)) with x. rewrite elem_of_JSet_delete. fold (open_keys st' s).
      unfold tried, answers, is_type. rewrite Et, Em, !eqb_refl. cbn [andb orb].
      rewrite !(proj2 (eqb_false txn_confirm _)) by done. cbn. rewrite orb_false_r, eqb_false. naive_solver.
    + unfold answers, tried, is_type. rewrite Et, Em, !eqb_refl. rewrite !(proj2 (eqb_false txn_cancel _)) by done.
      cbn [andb orb].
      destruct (pstr e "phase" ==? Some "completed"); unfold open_keys; rewrite ?cell_put_tries, ?cell_put, ?eqb_refl, ?cell_put, ?eqb_refl; cbn [snd].
      * cbn. rewrite elem_of_nil. naive_solver.
      * naive_solver.
  - unfold open_keys at 1. rewrite scopeStep_frame by (unfold mentions; by rewrite Er).
    apply is_type_true in Er. apply other_event; congruence.
  - unfold open_keys at 1. rewrite scopeStep_frame by (unfold mentions; by rewrite Er).
    unfold tried, answers. rewrite Em, andb_false_r. cbn. fold (open_keys st s). naive_solver.
Qed.

Lemma open_keys_unanswered events s k :
  keys_wf (foldScopes events) s /\ (k ∈ open_keys (foldScopes events) s <-> unanswered events s k).
Proof.
  induction events as [|e events [Hwf IH]] using rev_ind.
  - split; [done|]. split; [by intros ?%elem_of_nil|]. intros (pre & x & post & H & _). by destruct pre.
  - rewrite foldScopes_snoc. split; [by apply keys_wf_step|].
    rewrite open_keys_step, unanswered_snoc, IH by done. done.
Qed.

Lemma NoDup_keys_foldScopes events : NoDup (JMap.keys (f_scopes (foldScopes events))).
Proof.
  unfold foldScopes. apply fold_left_inv; [constructor|]. intros st e _ Hst.
  assert (forall id q, NoDup (JMap.keys (f_scopes (snd (scopeAt st id q))))) as Hat.
  { intros id q. unfold scopeAt. destruct (JMap.get _ _); cbn; [done|]. by apply NoDup_keys_set. }
  unfold scopeStep. destruct (is_type _ e).
  - apply fold_left_inv; [done|]. intros st2 id _ Hst2. unfold requestOne, scopeAt.
    destruct (JMap.get _ _); cbn; [|apply NoDup_keys_set]; by apply NoDup_keys_set.
  - destruct (sid e) as [id|]; [|done]. specialize (Hat id (run_seq e)).
    destruct (scopeAt st id (run_seq e)) as [sc st']. cbn in Hat. unfold scopeSwitch.
    destruct (event_type e); repeat case_match; try done; by apply NoDup_keys_set.
Qed.

(** A bracket is reported open exactly when its scope is neither cancelled nor committed and
    holds a try that no later confirm of the same key and no later completed cancellation answered. *)
Theorem openBracketScopes_correct events s :
  s ∈ openBracketScopes events <->
  exists sc k, JMap.get (scopeCancellations events) s = Some sc /\ sc_phase sc <> cancelled /\
    sc_phase sc <> committed /\ unanswered events s k.
Proof.
  assert (forall (l : list ScopeCancellation) acc,
    s ∈ fold_left (fun open_ sc => if (0 <? sc_openTries sc) && (sc_phase sc !=? cancelled)
                                  then JSet.add open_ (sc_scopeId sc) else open_) l acc <->
    s ∈ acc \/ exists sc, sc ∈ l /\ sc_scopeId sc = s /\ 0 < sc_openTries sc /\ sc_phase sc <> cancelled) as Hfold.
  { induction l as [|sc l IH]; intros acc; cbn [fold_left]; [set_solver|]. rewrite IH.
    setoid_rewrite elem_of_cons. destruct ((0 <? sc_openTries sc) && (sc_phase sc !=? cancelled)) eqn:E; bool_prop.
    - rewrite elem_of_add. split; [naive_solver|]. intros [?|(sc' & [->|?] & ? & ?)]; naive_solver.
    - split; [naive_solver|]. intros [?|(sc' & [->|?] & ? & ? & ?)]; [naive_solver| |naive_solver].
      apply andb_false_iff in E as [E|E]; bool_prop; [lia|done]. }
  unfold openBracketScopes. rewrite Hfold, elem_of_nil.
  transitivity (exists sc, JMap.get (scopeCancellations events) s = Some sc /\ 0 < sc_openTries sc /\ sc_phase sc <> cancelled).
  { split.
    - intros [?|(sc & Hin & Hid & Ho & Hp)]; [done|]. exists sc. split; [|done].
      apply elem_of_map in Hin as ([k sc'] & -> & Hin). cbn in *.
      assert (JMap.get (scopeCancellations events) k = Some sc') as Hg.
      { apply get_elem; [|done]. unfold scopeCancellations, JMap.keys. rewrite map_map. apply NoDup_keys_foldScopes. }
      by rewrite <- Hid, (scopeCancellations_ids _ _ _ Hg).
    - intros (sc & Hg & Ho & Hp). right. exists sc. split; [|by rewrite (scopeCancellations_ids _ _ _ Hg)].
      apply elem_of_map. exists (s, sc). split; [done|]. by apply get_Some_elem. }
  rewrite get_scopeCancellations. destruct (fst (cell (foldScopes events) s)) as [sc0|] eqn:E; [|naive_solver].
  apply foldScopes_ids in E as Hid. cbn. setoid_rewrite <- (fun k => proj2 (open_keys_unanswered events s k)).
  assert (JMap.get_or [] (f_tries (foldScopes events)) (sc_scopeId sc0) = open_keys (foldScopes events) s) as Ht
    by by rewrite Hid.
  rewrite Ht. destruct (open_keys (foldScopes events) s) as [|k ks] eqn:Ek.
  - split; [|intros (? & ? & _ & _ & _ & ?%elem_of_nil); done].
    intros (sc & [= <-] & Ho & _). cbn in Ho. by case_match.
  - split.
    + intros (sc & [= <-] & Ho & Hp). cbn in *. eexists _, k. split; [done|]. cbn. split; [done|]. split; [|left].
      intros Hc. by rewrite Hc in Ho.
    + intros (sc & k' & [= <-] & Hp & Hc & _). cbn in *. eexists. split; [done|]. cbn. split; [|done].
      apply eqb_false in Hc as ->. lia.
Qed.
