(* ===== verification/Phases.v ===== *)
(** * The phase of a transaction scope as a state machine

    [scopeCancellations] folds every scope at once. Seen from one scope, its phase is the state of a
    machine stepped by the events that mention it; what the phase says about the log is proved here by
    induction on the run of that machine. *)

From S2P Require Import Prelude Collections Number Json Events Scopes.

(** One transition, on an event of the scope itself. *)
Definition own_step (p : ScopePhase) (e : StoredEvent) : ScopePhase :=
  match event_type e with
  | txn_scope =>
      if pstr e "state" ==? Some "open" then (if p ==? unmaterialized then open else p)
      else if pstr e "state" ==? Some "suspended" then suspended
      else if pstr e "state" ==? Some "committed" then committed
      else if pstr e "state" ==? Some "cancelled" then cancelled else p
  | txn_try => if p ==? unmaterialized then open else p
  | vertex_started => if pstr e "phase" ==? Some "pivot" then pivot_inflight else p
  | txn_pivot_passed => pivot_passed
  | vertex_failed =>
      if (p ==? open) || ((p ==? pivot_inflight) && (pstr e "outcome" ==? Some "confirmed-absent")) then fenced else p
  | txn_cancel => if pstr e "phase" ==? Some "completed" then cancelled else cancelling
  | _ => p
  end.

Definition phase_step (s : string) (p : ScopePhase) (e : StoredEvent) : ScopePhase :=
  if is_type replan_cancel_requested e
  then (if includes s (pstrings e "scope_ids") && includes p [open; fenced] then cancel_requested else p)
  else if sid e ==? Some s then own_step p e else p.

Definition phase_after (events : list StoredEvent) (s : string) : ScopePhase := fold_left (phase_step s) events unmaterialized.

Lemma phase_after_snoc events e s : phase_after (events ++ [e]) s = phase_step s (phase_after events s) e.
Proof. unfold phase_after. by rewrite fold_left_app. Qed.

(** The phase a cell holds; a scope nothing mentions has none yet. *)
Definition cell_phase (c : option ScopeCancellation * option (list string)) : ScopePhase :=
  default unmaterialized (sc_phase <$> fst c).

Lemma cell_phase_born s q c : cell_phase (born s q c) = cell_phase c.
Proof. unfold born, cell_phase. destruct (fst c) eqn:E; [by rewrite E|done]. Qed.

Lemma phase_materialize sc : sc_phase (materialize sc) = if sc_phase sc ==? unmaterialized then open else sc_phase sc.
Proof. unfold materialize. by destruct (sc_phase sc ==? unmaterialized). Qed.

Lemma scopeSwitch_phase e s sc st :
  cell_phase (cell st s) = sc_phase sc -> cell_phase (cell (scopeSwitch e s sc st) s) = own_step (sc_phase sc) e.
Proof.
  intros Hst. unfold scopeSwitch, own_step.
  destruct (event_type e); repeat case_match;
    rewrite ?cell_put_tries, ?eqb_refl, ?cell_put, ?eqb_refl; unfold cell_phase; cbn [fst snd fmap option_fmap option_map default];
    rewrite ?phase_materialize; try done; by repeat case_match.
Qed.

(** The fold's phase of a scope is the machine's. *)
Lemma foldScopes_phase events s : cell_phase (cell (foldScopes events) s) = phase_after events s.
Proof.
  induction events as [|e events IH] using rev_ind; [done|].
  rewrite foldScopes_snoc, phase_after_snoc, <- IH. unfold phase_step.
  destruct (is_type replan_cancel_requested e) eqn:Er.
  - unfold scopeStep. rewrite Er, cell_requests. destruct (includes s (pstrings e "scope_ids")); cbn [andb]; [|done].
    unfold request_cell, cell_phase. cbn [fst]. destruct (fst (cell (foldScopes events) s)) as [sc|]; cbn; [|done].
    by destruct (includes (sc_phase sc) [open; fenced]).
  - case_eqb.
    + destruct (scopeStep_switch (foldScopes events) e s Er) as (st' & Hc & ->); [done|].
      assert (sc_phase (default (newScope s (run_seq e)) (fst (cell (foldScopes events) s))) = cell_phase (cell (foldScopes events) s)) as Hp
        by (unfold cell_phase; by destruct (fst (cell (foldScopes events) s))).
      rewrite <- Hp. apply scopeSwitch_phase. by rewrite Hc, cell_phase_born.
    + rewrite scopeStep_frame; [done|]. unfold mentions. rewrite Er. by apply eqb_false.
Qed.

Lemma scope_phase events s sc : JMap.get (scopeCancellations events) s = Some sc -> sc_phase sc = phase_after events s.
Proof.
  rewrite get_scopeCancellations. intros Hg. rewrite <- foldScopes_phase. unfold cell_phase.
  destruct (fst (cell (foldScopes events) s)) as [sc0|]; [|done]. cbn in Hg. injection Hg as <-. done.
Qed.

(** C38. The scope fold is equivalent to one machine per scope: the phase [scopeCancellations] reports of
    a scope, from a fold over every scope and every try at once, is the state the machine reaches on
    the log, and a scope that is not reported is one whose machine never left its first state. *)
Theorem scopeCancellations_machine events s :
  match JMap.get (scopeCancellations events) s with
  | Some sc => sc_phase sc = phase_after events s
  | None => phase_after events s = unmaterialized
  end.
Proof.
  destruct (JMap.get (scopeCancellations events) s) as [sc|] eqn:E; [by apply scope_phase|].
  rewrite get_scopeCancellations in E. rewrite <- foldScopes_phase. unfold cell_phase. by destruct (fst (cell (foldScopes events) s)).
Qed.
