(* ===== verification/Lineage.v ===== *)
(** * Who planned what, and what failed (engine/src/recovery.ts, lines 281-417, 750-768 and 927-998)

    The readings of the log the recovery ladder decides on: authorship of a vertex, the planners
    above it by distance, the replans already spent, the evidence of a failure, the set a replan
    discards, and the failures and stalls still outstanding. *)

From S2P Require Import Prelude Collections Number Json Events Graph Fork.

(** ** Authorship *)
Definition proposalSources (events : list StoredEvent) : list (Z * value) :=
  fold_left (fun m e => if is_type subgraph_proposed e
                        then JMap.set m (run_seq e) (Js.nullish_or (pfield e "source") (VStr "submitted")) else m)
    events [].

(** [map.get(v)] on a map keyed by positions. *)
Definition get_by_number {A} (m : list (Z * A)) (v : value) : option A :=
  match v with
  | VNum n => match Num.to_Z n with Some z => JMap.get m z | None => None end
  | _ => None
  end.

Fixpoint ruleAuthoredFrom (sources : list (Z * value)) (currentSource : value) (events : list StoredEvent) (vertexId : string) : bool :=
  match events with
  | [] => false
  | e :: events =>
      let currentSource := if is_type subgraph_frozen e
                           then default (VStr "submitted") (get_by_number sources (pfield e "proposed_seq")) else currentSource in
      if is_type vertex_created e && names_vertex vertexId e then Js.strict_eq currentSource (VStr "router")
      else ruleAuthoredFrom sources currentSource events vertexId
  end.

Definition ruleAuthored (events : list StoredEvent) (vertexId : string) : bool :=
  ruleAuthoredFrom (proposalSources events) (VStr "submitted") events vertexId.

(** ** Ancestor planners *)
Record AncestorPlanner : Type := { ap_vertexId : string; ap_seq : Z; ap_depth : Z }.

(** The maps of [ancestorPlanners]: the last creation and the last success of each vertex. *)
Definition by_vertex (t : EventType) (events : list StoredEvent) : list (string * StoredEvent) :=
  JMap.of_entries (omap (fun e => if is_type t e then (fun v => (v, e)) <$> vid e else None) events).

Definition created_map (events : list StoredEvent) : list (string * StoredEvent) := by_vertex vertex_created events.
Definition succeeded_map (events : list StoredEvent) : list (string * Z) :=
  map (fun p => (fst p, run_seq (snd p))) (by_vertex vertex_succeeded events).

Section Ancestors.
Context (created : list (string * StoredEvent)) (succeeded : list (string * Z)).

Definition parents_of (id : string) : list string :=
  match JMap.get created id with Some e => parent_refs e | None => [] end.

(** The entry a succeeded planner contributes. *)
Definition planner_at (id : string) (depth : Z) : list AncestorPlanner :=
  match JMap.get created id, JMap.get succeeded id with
  | Some e, Some seq => if pstr e "role" ==? Some "planner" then [{| ap_vertexId := id; ap_seq := seq; ap_depth := depth |}] else []
  | _, _ => []
  end.

Record LevelState : Type := { lv_seen : list string; lv_found : list AncestorPlanner; lv_next : list string }.

Definition levelStep (depth : Z) (st : LevelState) (id : string) : LevelState :=
  if JSet.has (lv_seen st) id then st
  else {| lv_seen := JSet.add (lv_seen st) id;
          lv_found := lv_found st ++ planner_at id depth;
          lv_next := lv_next st ++ parents_of id |}.

Fixpoint levels (fuel : nat) (depth : Z) (seen : list string) (found : list AncestorPlanner) (frontier : list string)
    : option (list AncestorPlanner) :=
  match frontier with
  | [] => Some found
  | _ =>
      match fuel with
      | O => None
      | S fuel =>
          let st := fold_left (levelStep depth) frontier {| lv_seen := seen; lv_found := found; lv_next := [] |} in
          levels fuel (depth + 1) (lv_seen st) (lv_found st) (lv_next st)
      end
  end.
End Ancestors.

(** Each level but the last meets a new identifier among the parent references: one round more than
    there are references is enough. *)
Definition ancestorPlanners (events : list StoredEvent) (vertexId : string) : list AncestorPlanner :=
  let created := created_map events in
  let succeeded := succeeded_map events in
  let found := planner_at created succeeded vertexId 0 in
  let fuel := S (length (flat_map parent_refs events)) in
  js_sort (fun a b => zor (ap_depth a - ap_depth b) (ap_seq b - ap_seq a))
    (default [] (levels created succeeded fuel 1 [vertexId] found (parents_of created vertexId))).

(** ** Replans already used *)
Fixpoint createdRun (events : list StoredEvent) : list string :=
  match events with
  | e :: events => if is_type vertex_created e
                   then match vid e with Some v => v :: createdRun events | None => createdRun events end else []
  | [] => []
  end.

Fixpoint resolvedFreezes (succeeded : list string) (events : list StoredEvent) : list Z :=
  match events with
  | [] => []
  | e :: later =>
      let rest := resolvedFreezes succeeded later in
      if is_type subgraph_frozen e then
        match createdRun later with
        | [] => rest
        | created => if forallb (JSet.has succeeded) created then run_seq e :: rest else rest
        end
      else rest
  end.

Record ReplanHistory : Type := { rh_episode : Z; rh_perPlanner : list (string * Z) }.

Definition replanHistory (events : list StoredEvent) : ReplanHistory :=
  let succeeded := JSet.of_list (omap (fun e => if is_type vertex_succeeded e then vid e else None) events) in
  let lastResolved := default 0 (last (resolvedFreezes succeeded events)) in
  fold_left (fun h e =>
    if is_type replan_boundary e then
      {| rh_episode := if lastResolved <? run_seq e then rh_episode h + 1 else rh_episode h;
         rh_perPlanner := match truthy (pstr e "selected") with
                          | Some p => JMap.set (rh_perPlanner h) p (JMap.get_or 0 (rh_perPlanner h) p + 1)
                          | None => rh_perPlanner h
                          end |}
    else h) events {| rh_episode := 0; rh_perPlanner := [] |}.

(** ** Evidence of a failure *)
Record FailureEvidence : Type := {
  fe_failed_vertex_id : string;
  fe_tool : option string;
  fe_error_class : value;
  fe_error : value;
  fe_attempts : value;
  fe_discarded_vertices : Z;
  fe_cancelled_scopes : list string
}.

Definition unreadable_of (p : string) (e : StoredEvent) : bool :=
  is_type subgraph_unreadable e && (pstr e "planner_vertex_id" ==? Some p).

Definition failureEvidence (events : list StoredEvent) (failedVertexId : string) (discarded cancelledScopes : list string) : FailureEvidence :=
  let created := find (fun e => is_type vertex_created e && names_vertex failedVertexId e) events in
  let failed := find (fun e => is_type vertex_failed e && names_vertex failedVertexId e) (rev events) in
  let unreadable := find (unreadable_of failedVertexId) (rev events) in
  let payload := match failed with Some e => payload e | None => [] end in
  match failed, unreadable with
  | None, Some u =>
      {| fe_failed_vertex_id := failedVertexId; fe_tool := None; fe_error_class := VStr "unreadable_answer";
         fe_error := VStr (Js.to_text (Js.nullish_or (pfield u "reason") (VStr "")));
         fe_attempts := VNum (Num.of_Z (Z.of_nat (length (filter_by (unreadable_of failedVertexId) events))));
         fe_discarded_vertices := Z.of_nat (length discarded); fe_cancelled_scopes := cancelledScopes |}
  | _, _ =>
      {| fe_failed_vertex_id := failedVertexId;
         fe_tool := match created with Some e => pstr e "tool" | None => None end;
         fe_error_class := Js.nullish_or (Js.field payload "outcome") (VStr "unknown");
         fe_error := Js.nullish_or (Js.field payload "error") (VStr "");
         fe_attempts := Js.nullish_or (Js.field payload "attempts") (VNum (Num.of_Z 0));
         fe_discarded_vertices := Z.of_nat (length discarded); fe_cancelled_scopes := cancelledScopes |}
  end.

(** ** The discard *)
Definition alreadyHidden (events : list StoredEvent) : list string :=
  fold_left (fun s e => if is_type subgraph_shadowed e then JSet.addAll s (pstrings e "vertex_ids") else s) events [].

Section Shadow.
Context `{Collation}.

Definition shadowSet (events : list StoredEvent) (boundaryVertexId : string) : list string :=
  let hidden := alreadyHidden events in
  let created := map (fun p => (fst p, run_seq (snd p))) (created_map events) in
  js_sort (fun a b => zor (JMap.get_or 0 created a - JMap.get_or 0 created b) (localeCompare a b))
    (filter_by (fun id => negb (JSet.has hidden id)) (causalDescendants events boundaryVertexId)).
End Shadow.

(** ** What is outstanding *)
Definition answeredPlanners (events : list StoredEvent) : list string :=
  fold_left (fun s e => if is_type replan_boundary e
                        then match pstr e "failed_vertex_id" with Some f => JSet.add s f | None => s end else s) events [].

Definition stalledStep (events : list StoredEvent) (answered : list string) (stalled : list string) (e : StoredEvent) : list string :=
  if is_type subgraph_unreadable e then
    match pstr e "planner_vertex_id" with
    | None => stalled
    | Some planner =>
        if JSet.has answered planner || includes planner stalled then stalled
        else if existsb (fun later => (run_seq e <? run_seq later) && is_type vertex_created later && includes planner (parent_refs later)) events
        then stalled else stalled ++ [planner]
    end
  else stalled.

Definition stalledPlanners (events : list StoredEvent) : list string :=
  fold_left (stalledStep events (answeredPlanners events)) events [].

Definition answeredStep (s : list string) (e : StoredEvent) : list string :=
  let s := if is_type subgraph_shadowed e then JSet.addAll s (pstrings e "vertex_ids") else s in
  if is_type replan_boundary e && match pfield e "selected" with VNull => true | _ => false end
  then match pstr e "failed_vertex_id" with Some f => JSet.add s f | None => s end else s.

Definition outcomes (events : list StoredEvent) : list (string * EventType) :=
  fold_left (fun m e => match vid e with
                        | Some v => if includes (event_type e) [vertex_failed; vertex_succeeded; vertex_retried]
                                    then JMap.set m v (event_type e) else m
                        | None => m
                        end) events [].

Definition unrecoveredFailures (events : list StoredEvent) : list string :=
  let shadowed := fold_left answeredStep events [] in
  let outcome := outcomes events in
  omap (fun e => if is_type vertex_failed e then
                   match vid e with
                   | Some v => if negb (JSet.has shadowed v) && (JMap.get outcome v ==? Some vertex_failed) then Some v else None
                   | None => None
                   end
                 else None) events.

Definition outstanding (events : list StoredEvent) : list string :=
  unrecoveredFailures events ++ stalledPlanners events.

(** ** The search by levels finds every ancestor planner at its distance *)
Section AncestorFacts.
Context (created : list (string * StoredEvent)) (succeeded : list (string * Z)) (root : string).

Definition parent (a b : string) : Prop := b ∈ parents_of created a.

(** A succeeded planner, as [planner_at] recognises it. *)
Definition is_planner (id : string) (seq : Z) : Prop :=
  exists e, JMap.get created id = Some e /\ pstr e "role" = Some "planner" /\ JMap.get succeeded id = Some seq.

Lemma elem_of_planner_at id d a :
  a ∈ planner_at created succeeded id d <-> ap_vertexId a = id /\ ap_depth a = d /\ is_planner id (ap_seq a).
Proof.
  unfold planner_at, is_planner. destruct (JMap.get created id) as [e|]; [|set_solver].
  destruct (JMap.get succeeded id) as [q|]; [|set_solver]. case_eqb; [|set_solver].
  rewrite list_elem_of_singleton. destruct a as [i s k]. cbn. naive_solver.
Qed.

(** Something [Q] holds of, contributed by a frontier entry not seen before. *)
Definition fresh_with (Q : string -> Prop) (frontier seen : list string) : Prop :=
  exists id, id ∈ frontier /\ (id ∉ seen) /\ Q id.

Lemma fresh_with_seen Q f fs seen : f ∈ seen -> fresh_with Q (f :: fs) seen <-> fresh_with Q fs seen.
Proof.
  intros Hf. split; intros (id & Hin & Hs & HQ); exists id; rewrite ?elem_of_cons in *.
  - destruct Hin as [->|Hin]; [done|auto].
  - auto.
Qed.

Lemma fresh_with_new Q f fs seen :
  f ∉ seen -> fresh_with Q (f :: fs) seen <-> Q f \/ fresh_with Q fs (JSet.add seen f).
Proof.
  intros Hf. split.
  - intros (id & Hin & Hs & HQ). destruct (decide (id = f)) as [->|Hne]; [by left|].
    right. exists id. rewrite elem_of_cons, elem_of_add in *. tauto.
  - intros [HQ|(id & Hin & Hs & HQ)]; [exists f|exists id]; rewrite elem_of_cons in *; [tauto|].
    rewrite elem_of_add in Hs. tauto.
Qed.

Lemma level_fold d frontier st :
  let st' := fold_left (levelStep created succeeded d) frontier st in
  (forall x, x ∈ lv_seen st' <-> (x ∈ lv_seen st \/ x ∈ frontier)) /\
  (forall a, a ∈ lv_found st' <->
     (a ∈ lv_found st \/ fresh_with (fun id => a ∈ planner_at created succeeded id d) frontier (lv_seen st))) /\
  (forall x, x ∈ lv_next st' <-> (x ∈ lv_next st \/ fresh_with (fun id => parent id x) frontier (lv_seen st))).
Proof.
  revert st; induction frontier as [|f fs IH]; intros st; cbn [fold_left].
  { unfold fresh_with. setoid_rewrite elem_of_nil. naive_solver. }
  destruct (IH (levelStep created succeeded d st f)) as (Hs & Hf & Hn). clear IH. unfold levelStep in *.
  destruct (JSet.has (lv_seen st) f) eqn:E; [apply JSet_has_true in E|apply JSet_has_false in E];
    (split; [|split]); intros x; rewrite ?Hs, ?Hf, ?Hn; cbn [lv_seen lv_found lv_next].
  - rewrite elem_of_cons. naive_solver.
  - by rewrite fresh_with_seen.
  - by rewrite fresh_with_seen.
  - rewrite elem_of_cons, elem_of_add. tauto.
  - rewrite (fresh_with_new _ f), elem_of_app by done. tauto.
  - rewrite (fresh_with_new _ f), elem_of_app by done. unfold parent. tauto.
Qed.

(** Reached in fewer than [d] steps. *)
Definition within (d : nat) (x : string) : Prop := exists n, (n < d)%nat /\ nsteps parent n root x.

Record level_inv (d : nat) (seen : list string) (found : list AncestorPlanner) (frontier : list string) : Prop := {
  li_seen : forall x, x ∈ seen <-> within d x;
  li_frontier : forall x, x ∈ frontier -> nsteps parent d root x;
  li_cover : forall x, nsteps parent d root x -> within d x \/ x ∈ frontier;
  li_found : forall a, a ∈ found <-> exists k, (k < d)%nat /\ nsteps parent k root (ap_vertexId a) /\
    ~ within k (ap_vertexId a) /\ ap_depth a = Z.of_nat k /\ is_planner (ap_vertexId a) (ap_seq a)
}.

Lemma within_S d x : within (S d) x <-> within d x \/ nsteps parent d root x.
Proof.
  split.
  - intros (n & Hn & H). destruct (decide (n = d)) as [->|]; [by right|]. left. exists n. split; [lia|done].
  - intros [(n & Hn & H)|H]; [exists n|exists d]; (split; [lia|done]).
Qed.

Lemma level_inv_step d seen found frontier :
  level_inv d seen found frontier ->
  let st := fold_left (levelStep created succeeded (Z.of_nat d)) frontier
              {| lv_seen := seen; lv_found := found; lv_next := [] |} in
  level_inv (S d) (lv_seen st) (lv_found st) (lv_next st).
Proof.
  intros [Hs Hf Hc Hfo] st.
  destruct (level_fold (Z.of_nat d) frontier {| lv_seen := seen; lv_found := found; lv_next := [] |}) as (Es & Ef & En).
  fold st in Es, Ef, En. cbn [lv_seen lv_found lv_next] in *.
  assert (forall x, fresh_with (eq x) frontier seen <-> nsteps parent d root x /\ ~ within d x) as Hnew.
  { intros x. split.
    - intros (id & Hin & Hns & ->). rewrite Hs in Hns. auto.
    - intros [Hx Hw]. destruct (Hc x Hx) as [?|Hin]; [done|]. exists x. rewrite Hs. done. }
  split.
  - intros x. rewrite Es, Hs, within_S. split; [intros [?|?]; auto|]. intros [?|Hx]; [auto|]. apply Hc in Hx. tauto.
  - intros x. rewrite En, elem_of_nil. intros [?|(id & Hin & Hns & Hp)]; [done|].
    eapply nsteps_r; [by apply Hf|done].
  - intros x Hx. apply nsteps_inv_r in Hx as (y & Hy & Hyx). rewrite within_S, En.
    destruct (Hc y Hy) as [(n & Hn & Hy')|Hin].
    + left. assert (nsteps parent (S n) root x) as H' by by eapply nsteps_r.
      destruct (decide (S n = d)) as [<-|]; [by right|]. left. exists (S n). split; [lia|done].
    + destruct (decide (y ∈ seen)) as [Hse|Hse].
      * apply Hs in Hse as (n & Hn & Hy'). left. assert (nsteps parent (S n) root x) as H' by by eapply nsteps_r.
        destruct (decide (S n = d)) as [<-|]; [by right|]. left. exists (S n). split; [lia|done].
      * right. right. exists y. done.
  - intros a. rewrite Ef, Hfo. split.
    + intros [(k & Hk & ?)|(id & Hin & Hns & Ha)]; [exists k; split; [lia|done]|].
      apply elem_of_planner_at in Ha as (<- & Hd & Hp). exists d. rewrite Hs in Hns. split; [lia|]. auto.
    + intros (k & Hk & Hst & Hw & Hd & Hp). destruct (decide (k = d)) as [->|].
      * right. destruct (proj2 (Hnew (ap_vertexId a)) (conj Hst Hw)) as (id & Hin & Hns & Heq).
        exists id. rewrite elem_of_planner_at. subst. done.
      * left. exists k. split; [lia|done].
Qed.

Lemma reach_within d x :
  (forall y, nsteps parent d root y -> within d y) -> rtc parent root x -> within d x.
Proof.
  intros Hall [n Hn]%rtc_nsteps. revert x Hn. induction n as [|n IH]; intros x Hn.
  - destruct d as [|d]; [by apply Hall|]. exists 0%nat. split; [lia|done].
  - apply nsteps_inv_r in Hn as (y & Hy & Hyx). destruct (IH y Hy) as (m & Hm & Hm').
    assert (nsteps parent (S m) root x) as H' by by eapply nsteps_r.
    destruct (decide (S m = d)) as [<-|]; [by apply Hall|]. exists (S m). split; [lia|done].
Qed.

(** What the completed search returns. *)
Definition all_planners (found : list AncestorPlanner) : Prop :=
  forall a, a ∈ found <-> exists k, nsteps parent k root (ap_vertexId a) /\ ~ within k (ap_vertexId a) /\
    ap_depth a = Z.of_nat k /\ is_planner (ap_vertexId a) (ap_seq a).

Lemma level_inv_done d seen found : level_inv d seen found [] -> all_planners found.
Proof.
  intros [Hs Hf Hc Hfo] a. rewrite Hfo. split; [intros (k & ? & ?); by exists k|].
  intros (k & Hk & Hw & Hrest). exists k. split; [|done].
  assert (within d (ap_vertexId a)) as (n & Hn & Hn').
  { apply reach_within; [|apply rtc_nsteps; by exists k]. intros y Hy. destruct (Hc y Hy); [done|set_solver]. }
  destruct (decide (k <= n)%nat); [lia|]. exfalso. apply Hw. exists n. split; [lia|done].
Qed.

Context (universe : list string).
Hypothesis Hparents : forall id x, parent id x -> x ∈ universe.

Lemma levels_total fuel d seen found frontier :
  level_inv d seen found frontier -> NoDup seen ->
  (forall x, x ∈ seen -> x ∈ universe) -> (forall x, x ∈ frontier -> x ∈ universe) ->
  (length universe < fuel + length seen)%nat ->
  exists found', levels created succeeded fuel (Z.of_nat d) seen found frontier = Some found' /\ all_planners found'.
Proof.
  revert d seen found frontier; induction fuel as [|fuel IH]; intros d seen found frontier Hinv Hnd Hu Hfu Hlen.
  - exfalso. assert (length seen <= length universe)%nat; [|lia]. by apply submseteq_length, NoDup_submseteq.
  - destruct frontier as [|f fs] eqn:Efr; [exists found; split; [done|by eapply level_inv_done]|].
    cbn [levels]. rewrite <- Efr in *. clear Efr f fs.
    destruct (level_fold (Z.of_nat d) frontier {| lv_seen := seen; lv_found := found; lv_next := [] |}) as (Es & Ef & En).
    pose proof (level_inv_step _ _ _ _ Hinv) as Hinv'. cbn zeta in *.
    set (st := fold_left _ frontier _) in *. cbn [lv_seen lv_found lv_next] in *.
    assert (exists new, lv_seen st = seen ++ new /\ NoDup (lv_seen st) /\ (new = [] -> lv_next st = [])) as (new & Hnew & Hnd' & Hstop).
    { clear -Hnd. unfold st. clear st.
      apply (fold_left_inv (fun st => exists new, lv_seen st = seen ++ new /\ NoDup (lv_seen st) /\ (new = [] -> lv_next st = []))).
      - exists []. cbn. by rewrite app_nil_r.
      - intros st x _ (new & Hn & Hd & Hz). unfold levelStep. destruct (JSet.has (lv_seen st) x) eqn:E; [by exists new|].
        cbn. exists (new ++ [x]). unfold JSet.add. rewrite E, Hn, (assoc (++)). split; [done|]. split; [|by destruct new].
        rewrite <- Hn. assert (JSet.add (lv_seen st) x = lv_seen st ++ [x]) as <- by (unfold JSet.add; by rewrite E).
        by apply NoDup_add. }
    replace (Z.of_nat d + 1) with (Z.of_nat (S d)) by lia.
    destruct (decide (new = [])) as [->|Hne].
    + rewrite (Hstop eq_refl) in *. exists (lv_found st). split; [by destruct fuel|by eapply level_inv_done].
    + apply IH; [done|done| | |].
      * intros x. rewrite Es. intros [?|?]; auto.
      * intros x. rewrite En, elem_of_nil. intros [?|(id & _ & _ & Hp)]; [done|by eapply Hparents].
      * rewrite Hnew, length_app. destruct new; [done|]. cbn. lia.
Qed.
End AncestorFacts.

(** ** Reading the log: the maps *)
Lemma by_vertex_get t events v e :
  JMap.get (by_vertex t events) v = Some e -> e ∈ events /\ event_type e = t /\ vid e = Some v.
Proof.
  unfold by_vertex. intros H. apply get_Some_elem in H.
  assert (forall l (p : string * StoredEvent), p ∈ JMap.of_entries l -> p ∈ l) as Hsub.
  { intros l p. destruct p as [k x]. intros Hp. apply get_elem in Hp; [|apply NoDup_keys_of_entries].
    by apply get_of_entries_elem. }
  apply Hsub, list_elem_of_omap in H as (x & Hx & He). destruct (is_type t x) eqn:Et; [|done].
  apply is_type_true in Et. destruct (vid x) as [w|] eqn:Ev; [|done]. cbn in He. naive_solver.
Qed.

Lemma by_vertex_is_Some t events v :
  is_Some (JMap.get (by_vertex t events) v) <-> exists e, e ∈ events /\ event_type e = t /\ vid e = Some v.
Proof.
  split.
  - intros [e He]. apply by_vertex_get in He. eauto.
  - intros (e & He & Ht & Hv). unfold by_vertex. apply get_is_Some, keys_of_entries, elem_of_map.
    exists (v, e). split; [done|]. apply list_elem_of_omap. exists e. split; [done|].
    apply is_type_true in Ht. by rewrite Ht, Hv.
Qed.

Lemma parents_of_refs events id x :
  x ∈ parents_of (created_map events) id -> x ∈ flat_map parent_refs events.
Proof.
  unfold parents_of. destruct (JMap.get (created_map events) id) as [e|] eqn:E; [|set_solver].
  apply by_vertex_get in E as (He & _). intros Hx. apply elem_of_flat_map. eauto.
Qed.

Lemma level_inv_init created succeeded root :
  level_inv created succeeded root 1 [root] (planner_at created succeeded root 0) (parents_of created root).
Proof.
  split.
  - intros x. rewrite list_elem_of_singleton. split.
    + intros ->. exists 0%nat. split; [lia|constructor].
    + intros (n & Hn & H). assert (n = 0)%nat as -> by lia. by inversion H.
  - intros x Hx. apply nsteps_once. done.
  - intros x Hx. right. by apply nsteps_once_inv in Hx.
  - intros a. rewrite elem_of_planner_at. split.
    + intros (Hid & Hd & Hp). exists 0%nat. rewrite Hid. split; [lia|]. split; [constructor|]. split; [|done].
      intros (n & Hn & _). lia.
    + intros (k & Hk & Hst & _ & Hd & Hp). assert (k = 0)%nat as -> by lia. inversion Hst; subst. done.
Qed.

Lemma ancestorPlanners_total events v :
  exists found, levels (created_map events) (succeeded_map events) (S (length (flat_map parent_refs events))) 1 [v]
      (planner_at (created_map events) (succeeded_map events) v 0) (parents_of (created_map events) v) = Some found /\
    all_planners (created_map events) (succeeded_map events) v found.
Proof.
  apply (levels_total _ _ v (v :: flat_map parent_refs events)) with (d := 1%nat).
  - intros id x Hx. right. by eapply parents_of_refs.
  - apply level_inv_init.
  - apply NoDup_singleton.
  - intros x ->%list_elem_of_singleton. left.
  - intros x Hx. right. by eapply parents_of_refs.
  - cbn. lia.
Qed.

(** A planner above [v]: reached in [k] parent steps and not fewer, created as a planner, succeeded at [seq]. *)
Definition planner_above (events : list StoredEvent) (v p : string) (k : nat) (seq : Z) : Prop :=
  let R := parent (created_map events) in
  nsteps R k v p /\ (forall n, nsteps R n v p -> (k <= n)%nat) /\
  is_planner (created_map events) (succeeded_map events) p seq.

Lemma elem_of_ancestorPlanners events v a :
  a ∈ ancestorPlanners events v <->
  exists k, ap_depth a = Z.of_nat k /\ planner_above events v (ap_vertexId a) k (ap_seq a).
Proof.
  unfold ancestorPlanners. destruct (ancestorPlanners_total events v) as (found & -> & Hall).
  change (default [] (Some found)) with found. rewrite elem_of_js_sort, (Hall a). unfold planner_above, within.
  split; intros (k & H).
  - destruct H as (Hk & Hno & Hd & Hp). exists k. split; [done|]. split; [done|]. split; [|done].
    intros n Hn. destruct (decide (k <= n)%nat); [done|]. exfalso. apply Hno. exists n. split; [lia|done].
  - destruct H as (Hd & Hk & Hmin & Hp). exists k. split; [done|]. split; [|done].
    intros (n & Hn & Hn'). apply Hmin in Hn'. lia.
Qed.

#[export] Instance planner_order :
  Comparator (fun a b => zor (ap_depth a - ap_depth b) (ap_seq b - ap_seq a)).
Proof. apply zor_comparator; [apply key_comparator|]. split; intros; lia. Qed.

Lemma ancestorPlanners_sorted events v :
  StronglySorted (fun a b => ap_depth a < ap_depth b \/ (ap_depth a = ap_depth b /\ ap_seq b <= ap_seq a)) (ancestorPlanners events v).
Proof.
  pose proof (js_sort_sorted (fun a b => zor (ap_depth a - ap_depth b) (ap_seq b - ap_seq a))
    (default [] (levels (created_map events) (succeeded_map events) (S (length (flat_map parent_refs events))) 1 [v]
      (planner_at (created_map events) (succeeded_map events) v 0) (parents_of (created_map events) v)))) as H.
  fold (ancestorPlanners events v) in H.
  eapply StronglySorted_weaken; [|exact H]. cbn. intros a b. unfold zor. destruct (Z.eqb_spec (ap_depth a - ap_depth b) 0); lia.
Qed.

(** [ancestorPlanners] lists exactly the succeeded planners at or above the vertex, each with the
    least number of parent steps to it and the position of its success, nearest first and among
    equally near ones the later success first; the search always exhausts the frontier. *)
Theorem ancestorPlanners_correct events v :
  (forall a, a ∈ ancestorPlanners events v <->
     exists k, ap_depth a = Z.of_nat k /\ planner_above events v (ap_vertexId a) k (ap_seq a)) /\
  StronglySorted (fun a b => ap_depth a < ap_depth b \/ (ap_depth a = ap_depth b /\ ap_seq b <= ap_seq a)) (ancestorPlanners events v).
Proof. split; [intros a; apply elem_of_ancestorPlanners|apply ancestorPlanners_sorted]. Qed.

(** ** The discard is closed *)
Lemma elem_of_alreadyHidden events x :
  x ∈ alreadyHidden events <-> exists e, e ∈ events /\ event_type e = subgraph_shadowed /\ x ∈ pstrings e "vertex_ids".
Proof.
  unfold alreadyHidden. induction events as [|e events IH] using rev_ind; [set_solver|].
  rewrite fold_left_app. cbn [fold_left]. setoid_rewrite elem_of_app. setoid_rewrite list_elem_of_singleton.
  destruct (is_type subgraph_shadowed e) eqn:Et.
  - apply is_type_true in Et. rewrite elem_of_addAll, IH. naive_solver.
  - assert (event_type e <> subgraph_shadowed) by (rewrite <- is_type_true; congruence). rewrite IH. naive_solver.
Qed.

Section ShadowFacts.
Context `{Collation}.

Lemma elem_of_shadowSet events b x :
  x ∈ shadowSet events b <-> tc (causes events) b x /\ x ∉ alreadyHidden events.
Proof.
  unfold shadowSet. rewrite elem_of_js_sort, elem_of_filter_by, causalDescendants_iff.
  rewrite negb_true_iff, JSet_has_false. done.
Qed.

(** The position of the last event that created a vertex. *)
Definition creation_seq (events : list StoredEvent) (x : string) : Z :=
  match last (filter_by (fun e => is_type vertex_created e && (vid e ==? Some x)) events) with Some e => run_seq e | None => 0 end.

Lemma created_map_last events x :
  JMap.get (created_map events) x = last (filter_by (fun e => is_type vertex_created e && (vid e ==? Some x)) events).
Proof.
  unfold created_map, by_vertex, JMap.of_entries. induction events as [|e events IH] using rev_ind; [done|].
  rewrite omap_app, fold_left_app, filter_by_app. cbn [List.filter omap list_omap].
  destruct (is_type vertex_created e); cbn [andb]; [|by rewrite app_nil_r].
  destruct (vid e) as [v|] eqn:Ev; cbn [fmap option_fmap option_map fold_left].
  - rewrite get_set. destruct (decide (v = x)) as [->|Hne].
    + by rewrite !eqb_refl, last_snoc.
    + rewrite (proj2 (eqb_false v x)), (proj2 (eqb_false (Some v) (Some x))), app_nil_r by congruence. done.
  - rewrite (proj2 (eqb_false None (Some x))), app_nil_r by done. done.
Qed.

Lemma shadowSet_sorted events b :
  StronglySorted (fun x y => creation_seq events x <= creation_seq events y) (shadowSet events b).
Proof.
  assert (forall x, JMap.get_or 0 (map (fun p => (fst p, run_seq (snd p))) (created_map events)) x = creation_seq events x) as Hseq.
  { intros x. unfold creation_seq, JMap.get_or. rewrite get_map_snd, created_map_last. by destruct (last _). }
  unfold shadowSet. eapply StronglySorted_weaken; [|apply js_sort_sorted].
  - cbn. intros x y. rewrite !Hseq. unfold zor. destruct (Z.eqb_spec (creation_seq events x - creation_seq events y) 0); lia.
  - apply zor_comparator; [apply key_comparator|apply locale_comparator].
Qed.

(** The set a replan discards is exactly the causal descendants of the boundary that no earlier
    shadowing hid, each once. It is closed: a vertex caused by the boundary or by a discarded vertex
    is discarded now or was already hidden. It is listed in the order the vertices were created. On
    an acyclic log the boundary itself is kept. *)
Theorem shadowSet_closed events b :
  NoDup (shadowSet events b) /\
  StronglySorted (fun x y => creation_seq events x <= creation_seq events y) (shadowSet events b) /\
  (forall x, x ∈ shadowSet events b <-> tc (causes events) b x /\ x ∉ alreadyHidden events) /\
  (forall x y, x = b \/ x ∈ shadowSet events b -> causes events x y ->
     y ∈ shadowSet events b \/ y ∈ alreadyHidden events) /\
  (~ tc (causes events) b b -> b ∉ shadowSet events b).
Proof.
  split; [|split; [apply shadowSet_sorted|split; [intros x; apply elem_of_shadowSet|split]]].
  - unfold shadowSet. apply NoDup_js_sort, NoDup_filter_by.
    destruct (causalDescendants_total events b) as (found & Hf & Hnd & _).
    unfold causalDescendants. by rewrite Hf.
  - intros x y Hx Hxy. rewrite elem_of_shadowSet. destruct (decide (y ∈ alreadyHidden events)); [by right|].
    left. split; [|done]. destruct Hx as [->|Hx]; [by apply tc_once|].
    apply elem_of_shadowSet in Hx as [Hx _]. by eapply tc_r.
  - rewrite elem_of_shadowSet. tauto.
Qed.
End ShadowFacts.

(** ** What is outstanding, declaratively *)
Definition outcome_of (v : string) (e : StoredEvent) : bool :=
  (vid e ==? Some v) && includes (event_type e) [vertex_failed; vertex_succeeded; vertex_retried].

Lemma get_outcomes events v :
  JMap.get (outcomes events) v = event_type <$> last (filter_by (outcome_of v) events).
Proof.
  unfold outcomes. induction events as [|e events IH] using rev_ind; [done|].
  rewrite fold_left_app, filter_by_app. cbn [fold_left List.filter]. unfold outcome_of at 2.
  destruct (vid e) as [w|] eqn:Ev.
  - destruct (includes (event_type e) _); cbn [andb]; [|rewrite andb_false_r, app_nil_r; done].
    rewrite get_set, andb_true_r. destruct (decide (w = v)) as [->|Hne].
    + by rewrite !eqb_refl, last_snoc.
    + rewrite (proj2 (eqb_false w v)), (proj2 (eqb_false (Some w) (Some v))), app_nil_r by congruence. done.
  - rewrite (proj2 (eqb_false None (Some v))), app_nil_r by done. done.
Qed.

(** The log holds an answer to this vertex: a shadowing that lists it, or a recorded escalation. *)
Definition is_answer (v : string) (e : StoredEvent) : Prop :=
  (event_type e = subgraph_shadowed /\ v ∈ pstrings e "vertex_ids") \/
  (event_type e = replan_boundary /\ pfield e "selected" = VNull /\ pstr e "failed_vertex_id" = Some v).

Lemma elem_of_answered events v :
  v ∈ fold_left answeredStep events [] <-> exists e, e ∈ events /\ is_answer v e.
Proof.
  induction events as [|e events IH] using rev_ind; [set_solver|].
  rewrite fold_left_app. cbn [fold_left]. setoid_rewrite elem_of_app. setoid_rewrite list_elem_of_singleton.
  transitivity (v ∈ fold_left answeredStep events [] \/ is_answer v e); [|rewrite IH; naive_solver].
  generalize (fold_left answeredStep events []). intros acc. unfold answeredStep, is_answer.
  destruct (is_type subgraph_shadowed e) eqn:Es.
  - apply is_type_true in Es. unfold is_type. rewrite Es.
    rewrite (proj2 (eqb_false subgraph_shadowed replan_boundary)) by done. cbn [andb].
    rewrite elem_of_addAll. naive_solver.
  - assert (event_type e <> subgraph_shadowed) by (rewrite <- is_type_true; congruence).
    destruct (is_type replan_boundary e) eqn:Eb; cbn [andb].
    + apply is_type_true in Eb. destruct (pfield e "selected") eqn:Ef; try naive_solver.
      destruct (pstr e "failed_vertex_id"); [rewrite elem_of_add|]; naive_solver.
    + assert (event_type e <> replan_boundary) by (rewrite <- is_type_true; congruence). naive_solver.
Qed.

Lemma elem_of_unrecovered events v :
  v ∈ unrecoveredFailures events <->
  v <> "" /\ (exists e, last (filter_by (outcome_of v) events) = Some e /\ event_type e = vertex_failed) /\
  ~ (exists e, e ∈ events /\ is_answer v e).
Proof.
  unfold unrecoveredFailures. rewrite list_elem_of_omap, <- elem_of_answered. split.
  - intros (e & He & Hr). destruct (is_type vertex_failed e); [|done]. destruct (vid e) as [w|] eqn:Ev; [|done].
    destruct (negb _ && _) eqn:Ec in Hr; [|done]. injection Hr as ->. bool_prop.
    match goal with H : JSet.has _ _ = false |- _ => apply JSet_has_false in H end.
    match goal with H : JMap.get _ _ = _ |- _ => rewrite get_outcomes in H; apply fmap_Some in H as (x & Hl & Hx) end.
    apply vid_Some in Ev as [_ ?]. split; [done|]. split; [|done]. exists x. done.
  - intros (Hne & (e & Hl & Ht) & Hno). exists e. apply last_Some_elem_of in Hl as Hin.
    apply elem_of_filter_by in Hin as [Hin Ho]. split; [done|]. unfold outcome_of in Ho. bool_prop.
    apply is_type_true in Ht as Ht'. rewrite Ht'.
    match goal with H : vid e = Some v |- _ => rewrite H end. rewrite get_outcomes, Hl. cbn. rewrite Ht, eqb_refl.
    apply JSet_has_false in Hno as ->. done.
Qed.

Lemma elem_of_answeredPlanners events p :
  p ∈ answeredPlanners events <->
  exists b, b ∈ events /\ event_type b = replan_boundary /\ pstr b "failed_vertex_id" = Some p.
Proof.
  unfold answeredPlanners. induction events as [|e events IH] using rev_ind; [set_solver|].
  rewrite fold_left_app. cbn [fold_left]. setoid_rewrite elem_of_app. setoid_rewrite list_elem_of_singleton.
  destruct (is_type replan_boundary e) eqn:Et.
  - apply is_type_true in Et. destruct (pstr e "failed_vertex_id") eqn:Ef; [rewrite elem_of_add|]; rewrite IH; naive_solver.
  - assert (event_type e <> replan_boundary) by (rewrite <- is_type_true; congruence). rewrite IH. naive_solver.
Qed.

(** The refusal [e] gave the planner no work, and no later creation did either. *)
Definition still_stalled (events : list StoredEvent) (p : string) (e : StoredEvent) : Prop :=
  e ∈ events /\ event_type e = subgraph_unreadable /\ pstr e "planner_vertex_id" = Some p /\
  forall later, later ∈ events -> run_seq e < run_seq later -> event_type later = vertex_created -> p ∉ parent_refs later.

Lemma existsb_child events p q :
  existsb (fun later => (q <? run_seq later) && is_type vertex_created later && includes p (parent_refs later)) events = false <->
  forall later, later ∈ events -> q < run_seq later -> event_type later = vertex_created -> p ∉ parent_refs later.
Proof.
  rewrite existsb_false. split; intros H later Hin.
  - intros Hq Ht Hp. specialize (H later Hin). apply Z.ltb_lt in Hq. apply is_type_true in Ht.
    apply includes_true in Hp. by rewrite Hq, Ht, Hp in H.
  - apply not_true_iff_false. intros Hb. bool_prop.
    match goal with H : is_type _ _ = true |- _ => apply is_type_true in H end. by eapply H.
Qed.

Lemma elem_of_stalled events p :
  p ∈ stalledPlanners events <-> (exists e, still_stalled events p e) /\ p ∉ answeredPlanners events.
Proof.
  unfold stalledPlanners. set (ans := answeredPlanners events).
  enough (forall l acc, p ∈ fold_left (stalledStep events ans) l acc <->
    p ∈ acc \/ ((p ∉ ans) /\ exists e, e ∈ l /\ event_type e = subgraph_unreadable /\ pstr e "planner_vertex_id" = Some p /\
      forall later, later ∈ events -> run_seq e < run_seq later -> event_type later = vertex_created -> p ∉ parent_refs later)) as H.
  { rewrite H, elem_of_nil. unfold still_stalled. naive_solver. }
  induction l as [|e l IH]; intros acc; cbn [fold_left]; [set_solver|].
  rewrite IH. setoid_rewrite elem_of_cons.
  enough (p ∈ stalledStep events ans acc e <-> p ∈ acc \/ ((p ∉ ans) /\ event_type e = subgraph_unreadable /\
    pstr e "planner_vertex_id" = Some p /\ forall later, later ∈ events -> run_seq e < run_seq later ->
    event_type later = vertex_created -> p ∉ parent_refs later)) as ->.
  { split; [intros [[?|?]|?]|intros [?|(? & x & [->|?] & ?)]]; naive_solver. }
  unfold stalledStep. destruct (is_type subgraph_unreadable e) eqn:Et.
  2:{ assert (event_type e <> subgraph_unreadable) by (rewrite <- is_type_true; congruence). naive_solver. }
  apply is_type_true in Et. destruct (pstr e "planner_vertex_id") as [q|] eqn:Ep; [|naive_solver].
  destruct (JSet.has ans q) eqn:Ea; cbn [orb]; [apply JSet_has_true in Ea; naive_solver|apply JSet_has_false in Ea].
  destruct (includes q acc) eqn:Ei; bool_prop; [naive_solver|].
  destruct (existsb _ events) eqn:Ex.
  - split; [auto|]. intros [?|(_ & _ & [= ->] & Hno)]; [done|]. apply existsb_child in Hno. congruence.
  - rewrite elem_of_app, list_elem_of_singleton. split; [|naive_solver]. intros [?| ->]; [auto|].
    right. split; [done|]. split; [done|]. split; [done|]. by apply existsb_child.
Qed.

(** A vertex is outstanding exactly when its last outcome is a failure that neither a shadowing
    nor a recorded escalation answers, or when a refusal of its answer was never followed by a
    child of it and no boundary was ever recorded for it. *)
Theorem outstanding_correct events v :
  v ∈ outstanding events <->
  (v <> "" /\ (exists e, last (filter_by (outcome_of v) events) = Some e /\ event_type e = vertex_failed) /\
     ~ (exists e, e ∈ events /\ is_answer v e)) \/
  ((exists e, still_stalled events v e) /\
     ~ (exists b, b ∈ events /\ event_type b = replan_boundary /\ pstr b "failed_vertex_id" = Some v)).
Proof.
  unfold outstanding. rewrite elem_of_app, elem_of_unrecovered, elem_of_stalled, elem_of_answeredPlanners. done.
Qed.

(** One recorded boundary answers a planner's stalls for good: a refusal after it is never
    outstanding again, whatever the log goes on to hold. *)
Lemma stall_answered_forever events later b p :
  b ∈ events -> event_type b = replan_boundary -> pstr b "failed_vertex_id" = Some p ->
  p ∉ stalledPlanners (events ++ later).
Proof.
  intros Hb Ht Hp. rewrite elem_of_stalled, elem_of_answeredPlanners. intros [_ Hno]. apply Hno.
  exists b. rewrite elem_of_app. auto.
Qed.

(** ** Counting replans *)
Definition last_resolved (events : list StoredEvent) : Z :=
  default 0 (last (resolvedFreezes
    (JSet.of_list (omap (fun e => if is_type vertex_succeeded e then vid e else None) events)) events)).

Definition boundary_after (q : Z) (e : StoredEvent) : bool := is_type replan_boundary e && (q <? run_seq e).
Definition boundary_at (p : string) (e : StoredEvent) : bool := is_type replan_boundary e && (pstr e "selected" ==? Some p).

Lemma replanHistory_counts events :
  rh_episode (replanHistory events) = Z.of_nat (length (filter_by (boundary_after (last_resolved events)) events)) /\
  forall p, p <> "" -> JMap.get_or 0 (rh_perPlanner (replanHistory events)) p =
    Z.of_nat (length (filter_by (boundary_at p) events)).
Proof.
  unfold replanHistory. fold (last_resolved events). generalize (last_resolved events). intros q.
  induction events as [|e events [IHe IHp]] using rev_ind; [done|].
  rewrite fold_left_app, filter_by_app. setoid_rewrite filter_by_app. cbn [fold_left List.filter].
  unfold boundary_after at 2, boundary_at at 2. destruct (is_type replan_boundary e) eqn:Et; cbn [andb].
  - cbn [rh_episode rh_perPlanner]. split.
    + rewrite IHe, length_app. destruct (q <? run_seq e); cbn; lia.
    + intros p Hp. specialize (IHp p Hp). rewrite length_app.
      destruct (pstr e "selected") as [s|] eqn:Es.
      * destruct s as [|c s]; cbn [truthy]; [rewrite IHp; rewrite (proj2 (eqb_false _ _)) by congruence; cbn; lia|].
        unfold JMap.get_or in *. rewrite get_set. case_eqb.
        -- subst. rewrite eqb_refl. cbn. rewrite IHp. lia.
        -- rewrite (proj2 (eqb_false _ _)) by congruence. cbn. rewrite IHp. lia.
      * cbn. rewrite IHp. rewrite (proj2 (eqb_false _ _)) by congruence. cbn. lia.
  - rewrite !app_nil_r. split; [done|]. intros p Hp. rewrite app_nil_r. auto.
Qed.
