(* ===== verification/Llm.v ===== *)
(** * The LLM client (engine/src/planner/llm-client.ts)

    Provider settings read from the environment, the request of one planner call in either protocol,
    and the normalization of its answer, usage and cost. The transport, the key file and the URL
    parser are parameters. What JavaScript throws is kept with its class name, because the executor
    records it. *)

From S2P Require Import Prelude Collections Number Json JsonParse JsText.
From Corelib Require Import SpecFloat.

(** ** Completions

    What an awaited call ends in: a value, or a thrown error with its [name] and [message], or
    something thrown that is not an [Error]. *)
Inductive thrown : Type :=
| JsError (name message : string)
| NotAnError.

Inductive completion (A : Type) : Type :=
| Normal (a : A)
| Abrupt (e : thrown).
Arguments Normal {A} a.
Arguments Abrupt {A} e.

#[global] Instance completion_ret : MRet completion := fun A a => Normal a.
#[global] Instance completion_bind : MBind completion := fun A B k m =>
  match m with Normal a => k a | Abrupt e => Abrupt e end.

(** [throw new Error(msg)] *)
Definition raise {A} (msg : string) : completion A := Abrupt (JsError "Error" msg).
Definition of_result {A} (r : result A) : completion A := match r with Ok a => Normal a | Throw e => raise e end.

(** ** Data *)
Inductive LlmProtocol : Type := openai_chat_completions | anthropic_messages.
#[export] Instance LlmProtocol_eq_dec : EqDecision LlmProtocol.
Proof. solve_decision. Defined.

Definition protocol_name (p : LlmProtocol) : string :=
  match p with openai_chat_completions => "openai-chat-completions" | anthropic_messages => "anthropic-messages" end.

Inductive LlmRole : Type := role_system | role_user | role_assistant.
#[export] Instance LlmRole_eq_dec : EqDecision LlmRole.
Proof. solve_decision. Defined.

Definition role_name (r : LlmRole) : string :=
  match r with role_system => "system" | role_user => "user" | role_assistant => "assistant" end.

Record LlmMessage : Type := { lm_role : LlmRole; lm_content : string }.

Record LlmPricing : Type := {
  currency : string;
  cache_hit_input_per_million : number;
  cache_miss_input_per_million : number;
  output_per_million : number;
  reference : string;
  tier : option string
}.

Record LlmProviderConfig : Type := {
  lc_provider : string;
  lc_protocol : LlmProtocol;
  lc_endpoint : string;
  lc_apiKey : string;
  lc_model : string;
  lc_timeoutMs : number;
  lc_maxOutputTokens : option number;
  lc_requestOptions : option object;
  lc_additionalHeaders : option object;
  lc_pricing : option LlmPricing
}.

Record LlmUsage : Type := {
  input_tokens : number;
  output_tokens : number;
  total_tokens : number;
  reasoning_tokens : number;
  cache_hit_input_tokens : number;
  cache_miss_input_tokens : number
}.

Record LlmCallResult : Type := {
  cr_responseId : option string;
  cr_responseModel : string;
  cr_content : string;
  cr_finishReason : option string;
  cr_durationMs : number;
  cr_usage : LlmUsage
}.

(** The decoded answer under either protocol: every member is optional, and a protocol reads its own. *)
Record ProviderUsage : Type := {
  prompt_tokens : option number;
  completion_tokens : option number;
  pu_total_tokens : option number;
  prompt_cache_hit_tokens : option number;
  prompt_cache_miss_tokens : option number;
  cached_tokens : option number;
  pu_reasoning_tokens : option number;
  pu_input_tokens : option number;
  pu_output_tokens : option number;
  cache_read_input_tokens : option number;
  cache_creation_input_tokens : option number
}.

Definition no_usage : ProviderUsage :=
  {| prompt_tokens := None; completion_tokens := None; pu_total_tokens := None; prompt_cache_hit_tokens := None;
     prompt_cache_miss_tokens := None; cached_tokens := None; pu_reasoning_tokens := None; pu_input_tokens := None;
     pu_output_tokens := None; cache_read_input_tokens := None; cache_creation_input_tokens := None |}.

Record Choice : Type := { ch_content : option string; ch_finish_reason : option string }.
Record ContentPart : Type := { part_type : option string; part_text : option string }.
Record ProviderError : Type := { pe_message : option string; pe_type : option string }.

Record ProviderResponse : Type := {
  pr_id : option string;
  pr_model : option string;
  pr_choices : option (list Choice);
  pr_content : option (list ContentPart);
  pr_stop_reason : option string;
  pr_usage : option ProviderUsage;
  pr_error : option ProviderError
}.

(** ** Settings *)
Section Settings.
(** A parsed URL; [url_rest] is the port and the path. *)
Record Url : Type := {
  url_protocol : string;
  url_username : string;
  url_password : string;
  url_hostname : string;
  url_rest : string;
  url_search : string;
  url_hash : string
}.

(** [new URL(text)] and [url.toString()] *)
Variable parseUrl : string -> result Url.
Variable href : Url -> string.
Variable syntaxError : string -> string.
(** [readFile(path, 'utf8')] *)
Variable readFile : string -> result string.

Definition required (value : option string) (name : string) : result string :=
  match value with
  | Some v => if Num.trim v ==? "" then Throw (name +:+ " is required") else Ok (Num.trim v)
  | None => Throw (name +:+ " is required")
  end.

Definition positiveInteger (value : option string) (fallback : number) (name : string) : result number :=
  match truthy value with
  | None => Ok fallback
  | Some v =>
      let parsed := Num.of_string v in
      match Num.to_Z parsed with
      | Some z => if z <=? 0 then Throw (name +:+ " must be a positive integer") else Ok parsed
      | None => Throw (name +:+ " must be a positive integer")
      end
  end.

(** [Number.isFinite] *)
Definition is_finite (x : number) : bool := match x with S754_nan | S754_infinity _ => false | _ => true end.

Definition optionalNumber (value : option string) (name : string) : result (option number) :=
  match truthy value with
  | None => Ok None
  | Some v =>
      let parsed := Num.of_string v in
      if negb (is_finite parsed) || Num.lt parsed (S754_zero false) then Throw (name +:+ " must be a non-negative number") else Ok (Some parsed)
  end.

Definition jsonObject (value : option string) (name : string) : result (option object) :=
  match truthy value with
  | None => Ok None
  | Some v =>
      parsed ← Parse.JSON_parse syntaxError v;
      match Js.as_object parsed with Some o => Ok (Some o) | None => Throw (name +:+ " must be a JSON object") end
  end.

Definition loopback (u : Url) : bool := includes (url_hostname u) ["127.0.0.1"; "localhost"; "::1"].

Definition validateEndpoint (endpoint : string) : result string :=
  u ← parseUrl endpoint;
  if (url_protocol u !=? "https:") && negb ((url_protocol u ==? "http:") && loopback u)
  then Throw "FLORY_LLM_ENDPOINT must use HTTPS except for a loopback endpoint" else Ok (href u).

(** [environment.NAME?.trim()] and the same where the empty text counts as absent *)
Definition trimmed (environment : list (string * string)) (name : string) : option string := Num.trim <$> JMap.get environment name.
Definition trimmed_truthy (environment : list (string * string)) (name : string) : option string := truthy (trimmed environment name).

Definition readApiKey (environment : list (string * string)) : result string :=
  match trimmed environment "FLORY_LLM_API_KEY" with
  | Some key => Ok key
  | None => match trimmed_truthy environment "FLORY_LLM_API_KEY_FILE" with
            | Some keyFile => text ← readFile keyFile; Ok (Num.trim text)
            | None => Ok ""
            end
  end.

Definition readProtocol (environment : list (string * string)) : result LlmProtocol :=
  protocol ← required (JMap.get environment "FLORY_LLM_PROTOCOL") "FLORY_LLM_PROTOCOL";
  if protocol ==? "openai-chat-completions" then Ok openai_chat_completions
  else if protocol ==? "anthropic-messages" then Ok anthropic_messages
  else Throw ("unsupported FLORY_LLM_PROTOCOL: " +:+ protocol).

(** The pricing snapshot: all three rates or none. *)
Definition readPricing (environment : list (string * string)) : result (option LlmPricing) :=
  hit ← optionalNumber (JMap.get environment "FLORY_LLM_PRICE_CACHE_HIT_INPUT") "FLORY_LLM_PRICE_CACHE_HIT_INPUT";
  miss ← optionalNumber (JMap.get environment "FLORY_LLM_PRICE_CACHE_MISS_INPUT") "FLORY_LLM_PRICE_CACHE_MISS_INPUT";
  output ← optionalNumber (JMap.get environment "FLORY_LLM_PRICE_OUTPUT") "FLORY_LLM_PRICE_OUTPUT";
  match hit, miss, output with
  | None, None, None => Ok None
  | Some h, Some m, Some o =>
      ref ← required (JMap.get environment "FLORY_LLM_PRICE_REFERENCE") "FLORY_LLM_PRICE_REFERENCE";
      Ok (Some {| currency := default "USD" (trimmed_truthy environment "FLORY_LLM_PRICE_CURRENCY");
                  cache_hit_input_per_million := h; cache_miss_input_per_million := m; output_per_million := o;
                  reference := ref; tier := trimmed_truthy environment "FLORY_LLM_PRICE_TIER" |})
  | _, _, _ => Throw "all three FLORY_LLM_PRICE_* rates are required when cost estimation is enabled"
  end.

Definition loadLlmConfig (environment : list (string * string)) : result LlmProviderConfig :=
  let env := JMap.get environment in
  apiKey ← readApiKey environment;
  protocol ← readProtocol environment;
  pricing ← readPricing environment;
  provider ← required (env "FLORY_LLM_PROVIDER") "FLORY_LLM_PROVIDER";
  raw ← required (env "FLORY_LLM_ENDPOINT") "FLORY_LLM_ENDPOINT";
  endpoint ← validateEndpoint raw;
  key ← required (Some apiKey) "FLORY_LLM_API_KEY or FLORY_LLM_API_KEY_FILE";
  model ← required (env "FLORY_LLM_MODEL") "FLORY_LLM_MODEL";
  timeoutMs ← positiveInteger (env "FLORY_LLM_TIMEOUT_MS") (Num.of_Z 60000) "FLORY_LLM_TIMEOUT_MS";
  maxOutputTokens ← match truthy (env "FLORY_LLM_MAX_OUTPUT_TOKENS") with
                    | Some v => n ← positiveInteger (Some v) (Num.of_Z 0) "FLORY_LLM_MAX_OUTPUT_TOKENS"; Ok (Some n)
                    | None => Ok None
                    end;
  requestOptions ← jsonObject (env "FLORY_LLM_REQUEST_OPTIONS") "FLORY_LLM_REQUEST_OPTIONS";
  additionalHeaders ← jsonObject (env "FLORY_LLM_HEADERS") "FLORY_LLM_HEADERS";
  Ok {| lc_provider := provider; lc_protocol := protocol; lc_endpoint := endpoint; lc_apiKey := key; lc_model := model;
        lc_timeoutMs := timeoutMs; lc_maxOutputTokens := maxOutputTokens; lc_requestOptions := requestOptions;
        lc_additionalHeaders := additionalHeaders; lc_pricing := pricing |}.

Definition publicEndpoint (endpoint : string) : result string :=
  u ← parseUrl endpoint;
  Ok (href {| url_protocol := url_protocol u; url_username := ""; url_password := ""; url_hostname := url_hostname u;
              url_rest := url_rest u; url_search := ""; url_hash := "" |}).
End Settings.

(** ** Usage and cost *)
Record LlmCostEstimate : Type := {
  ce_currency : string;
  ce_amount : number;
  ce_pricing_ref : string;
  ce_pricing_tier : option string;
  ce_cache_hit_input : number;
  ce_cache_miss_input : number;
  ce_output : number
}.

Definition estimateLlmCost (usage : LlmUsage) (pricing : LlmPricing) : LlmCostEstimate :=
  let amount := Num.div (Num.add (Num.add (Num.mul (cache_hit_input_tokens usage) (cache_hit_input_per_million pricing))
                                          (Num.mul (cache_miss_input_tokens usage) (cache_miss_input_per_million pricing)))
                                 (Num.mul (output_tokens usage) (output_per_million pricing))) (Num.of_Z 1000000) in
  {| ce_currency := currency pricing; ce_amount := Num.fixed12 amount; ce_pricing_ref := reference pricing;
     ce_pricing_tier := truthy (tier pricing); ce_cache_hit_input := cache_hit_input_per_million pricing;
     ce_cache_miss_input := cache_miss_input_per_million pricing; ce_output := output_per_million pricing |}.

(** [x ?? 0] *)
Definition or_zero (o : option number) : number := default (Num.of_Z 0) o.

Definition normalizeOpenAiUsage (response : ProviderResponse) : LlmUsage :=
  let usage := default no_usage (pr_usage response) in
  let input := or_zero (prompt_tokens usage) in
  let output := or_zero (completion_tokens usage) in
  let hit := match prompt_cache_hit_tokens usage with Some n => n | None => or_zero (cached_tokens usage) end in
  let miss := default (Num.max0 (Num.sub input hit)) (prompt_cache_miss_tokens usage) in
  {| input_tokens := input; output_tokens := output; total_tokens := default (Num.add input output) (pu_total_tokens usage);
     reasoning_tokens := or_zero (pu_reasoning_tokens usage); cache_hit_input_tokens := hit; cache_miss_input_tokens := miss |}.

Definition normalizeAnthropicUsage (response : ProviderResponse) : LlmUsage :=
  let usage := default no_usage (pr_usage response) in
  let uncached := or_zero (pu_input_tokens usage) in
  let hit := or_zero (cache_read_input_tokens usage) in
  let created := or_zero (cache_creation_input_tokens usage) in
  let input := Num.add (Num.add uncached hit) created in
  let output := or_zero (pu_output_tokens usage) in
  {| input_tokens := input; output_tokens := output; total_tokens := Num.add input output; reasoning_tokens := Num.of_Z 0;
     cache_hit_input_tokens := hit; cache_miss_input_tokens := Num.add uncached created |}.

Definition errorMessage (status : Z) (body : ProviderResponse) (apiKey : string) : string :=
  let detail := match pr_error body with
                | Some e => match pe_type e with Some t => Some t | None => pe_message e end
                | None => None
                end in
  match truthy (replaceAll apiKey REDACTED <$> detail) with
  | Some d => "LLM endpoint returned HTTP " +:+ zstr status +:+ ": " +:+ d
  | None => "LLM endpoint returned HTTP " +:+ zstr status
  end.

(** ** One call *)
Record LlmHttpRequest : Type := { hr_url : string; hr_headers : object; hr_body : value }.
Record LlmHttpResponse : Type := { hp_ok : bool; hp_status : Z; hp_json : completion ProviderResponse }.

Definition message_value (m : LlmMessage) : value := VObj [("role", VStr (role_name (lm_role m))); ("content", VStr (lm_content m))].

Section Call.
Variable config : LlmProviderConfig.
(** [fetch], and [performance.now() - started] when the answer has been read *)
Variable fetch : LlmHttpRequest -> completion LlmHttpResponse.
Variable elapsed : number.

Definition isAnthropic : bool := lc_protocol config ==? anthropic_messages.

Definition systemText (messages : list LlmMessage) : string :=
  join (newline +:+ newline) (map lm_content (filter_by (fun m => lm_role m ==? role_system) messages)).

Definition requestBody (messages : list LlmMessage) : object :=
  let options := default [] (lc_requestOptions config) in
  if isAnthropic then
    spread options ([("model", VStr (lc_model config)); ("max_tokens", VNum (default (Num.of_Z 4096) (lc_maxOutputTokens config)))] ++
                    (if systemText messages ==? "" then [] else [("system", VStr (systemText messages))]) ++
                    [("messages", VArr (map message_value (filter_by (fun m => lm_role m !=? role_system) messages)))])
  else
    spread options ([("model", VStr (lc_model config))] ++
                    match lc_maxOutputTokens config with
                    | Some n => if Js.truthy_value (VNum n) then [("max_tokens", VNum n)] else []
                    | None => []
                    end ++
                    [("messages", VArr (map message_value messages))]).

Definition requestHeaders : object :=
  spread ([("content-type", VStr "application/json")] ++
          (if isAnthropic then [("x-api-key", VStr (lc_apiKey config)); ("anthropic-version", VStr "2023-06-01")]
           else [("authorization", VStr ("Bearer " +:+ lc_apiKey config))]))
         (default [] (lc_additionalHeaders config)).

(** The text parts of an Anthropic answer. *)
Definition textParts (parts : list ContentPart) : string :=
  join "" (map (fun p => default "" (part_text p)) (filter_by (fun p => part_type p ==? Some "text") parts)).

Definition readAnswer (value : ProviderResponse) : LlmCallResult :=
  let durationMs := Num.fixed 3 elapsed in
  if isAnthropic then
    {| cr_responseId := pr_id value; cr_responseModel := default (lc_model config) (pr_model value);
       cr_content := default "" (textParts <$> pr_content value); cr_finishReason := pr_stop_reason value;
       cr_durationMs := durationMs; cr_usage := normalizeAnthropicUsage value |}
  else
    let first := pr_choices value ≫= head in
    {| cr_responseId := pr_id value; cr_responseModel := default (lc_model config) (pr_model value);
       cr_content := default "" (first ≫= ch_content); cr_finishReason := first ≫= ch_finish_reason;
       cr_durationMs := durationMs; cr_usage := normalizeOpenAiUsage value |}.

(** The [catch] clause: an abort is reported as the timeout it is. *)
Definition timeoutError (e : thrown) : thrown :=
  match e with
  | JsError name message => if name ==? "AbortError" then JsError "Error" ("LLM endpoint timed out after " +:+ Num.to_string (lc_timeoutMs config) +:+ " ms") else e
  | NotAnError => e
  end.

Definition attemptCall (messages : list LlmMessage) : completion LlmCallResult :=
  response ← fetch {| hr_url := lc_endpoint config; hr_headers := requestHeaders; hr_body := VObj (requestBody messages) |};
  decoded ← hp_json response;
  if hp_ok response then Normal (readAnswer decoded)
  else raise (errorMessage (hp_status response) decoded (lc_apiKey config)).

Definition call (messages : list LlmMessage) : completion LlmCallResult :=
  match messages with
  | [] => raise "an LLM call requires at least one message"
  | _ => match attemptCall messages with Normal r => Normal r | Abrupt e => Abrupt (timeoutError e) end
  end.
End Call.

(** ** The settings are well formed *)
Record valid_config (href : Url -> string) (c : LlmProviderConfig) : Prop := {
  valid_texts : lc_provider c <> "" /\ lc_apiKey c <> "" /\ lc_model c <> "";
  valid_endpoint : exists u, lc_endpoint c = href u /\ (url_protocol u = "https:" \/ url_protocol u = "http:" /\ loopback u = true);
  valid_timeout : exists z, Num.to_Z (lc_timeoutMs c) = Some z /\ 0 < z;
  valid_tokens : forall n, lc_maxOutputTokens c = Some n -> exists z, Num.to_Z n = Some z /\ 0 < z;
  valid_pricing : forall p, lc_pricing c = Some p -> reference p <> "" /\ currency p <> "" /\ tier p <> Some "" /\
    forall rate, rate ∈ [cache_hit_input_per_million p; cache_miss_input_per_million p; output_per_million p] ->
    is_finite rate = true /\ Num.lt rate (S754_zero false) = false
}.

Lemma required_Ok value name s : required value name = Ok s -> s <> "".
Proof. unfold required. destruct value as [v|]; [|done]. case_eqb; [done|]. by intros [= <-]. Qed.

Lemma positiveInteger_Ok value fallback name n :
  positiveInteger value fallback name = Ok n -> (truthy value = None /\ n = fallback) \/ exists z, Num.to_Z n = Some z /\ 0 < z.
Proof.
  unfold positiveInteger. destruct (truthy value) as [v|]; [|intros [= <-]; by left]. destruct (Num.to_Z _) as [z|] eqn:Ez; [|done].
  destruct (z <=? 0) eqn:El; [done|]. intros [= <-]. right. exists z. bool_prop. done.
Qed.

Lemma optionalNumber_Ok value name n :
  optionalNumber value name = Ok (Some n) -> is_finite n = true /\ Num.lt n (S754_zero false) = false.
Proof.
  unfold optionalNumber. destruct (truthy value) as [v|]; [|done]. destruct (_ || _) eqn:E; [done|]. intros [= <-]. by bool_prop.
Qed.

Lemma trimmed_truthy_nonempty environment name s : trimmed_truthy environment name = Some s -> s <> "".
Proof. intros H. by apply truthy_Some in H as [_ H]. Qed.

Lemma readPricing_Ok environment p :
  readPricing environment = Ok (Some p) -> reference p <> "" /\ currency p <> "" /\ tier p <> Some "" /\
    forall rate, rate ∈ [cache_hit_input_per_million p; cache_miss_input_per_million p; output_per_million p] ->
    is_finite rate = true /\ Num.lt rate (S754_zero false) = false.
Proof.
  unfold readPricing. intros H. apply bind_Ok in H as (h & Hh & H). apply bind_Ok in H as (m & Hm & H). apply bind_Ok in H as (o & Ho & H).
  destruct h as [h|], m as [m|], o as [o|]; try done. apply bind_Ok in H as (ref & Hr & H). injection H as <-. cbn. split_and!.
  - by eapply required_Ok.
  - destruct (trimmed_truthy environment "FLORY_LLM_PRICE_CURRENCY") eqn:E; [by eapply trimmed_truthy_nonempty|done].
  - intros Ht. by apply trimmed_truthy_nonempty in Ht.
  - apply optionalNumber_Ok in Hh, Hm, Ho. intros rate. rewrite !elem_of_cons, elem_of_nil. intros [->|[->|[->|[]]]]; done.
Qed.

(** Settings that load are settings a call can be made and priced with: the provider, key and
    model are not blank, the endpoint uses HTTPS or is a loopback address, the timeout and the output
    limit are positive integers, and a pricing snapshot has its reference, its currency and three
    finite rates that are not negative. *)
Theorem loadLlmConfig_valid parseUrl href syntaxError readFile environment c :
  loadLlmConfig parseUrl href syntaxError readFile environment = Ok c -> valid_config href c.
Proof.
  unfold loadLlmConfig. intros H.
  repeat match type of H with _ ≫= _ = Ok _ => let a := fresh "a" in let Ha := fresh "Ha" in apply bind_Ok in H as (a & Ha & H) end.
  apply Ok_inj in H as <-. split; cbn.
  - split_and!; by eapply required_Ok.
  - unfold validateEndpoint in Ha4. apply bind_Ok in Ha4 as (u & _ & Hu). exists u.
    destruct (url_protocol u ==? "https:") eqn:E1; cbn in Hu; bool_prop; [injection Hu as <-; by split; [|left]|].
    destruct (url_protocol u ==? "http:") eqn:E2; cbn in Hu; bool_prop; [|done].
    destruct (loopback u) eqn:E3; [|done]. injection Hu as <-. split; [done|right; done].
  - apply positiveInteger_Ok in Ha7 as [[_ ->]|Hz]; [|done]. exists 60000. vm_compute. done.
  - intros n ->. destruct (truthy _) as [v|] eqn:Ev in Ha8; [|done]. apply bind_Ok in Ha8 as (k & Hk & [= <-]).
    apply positiveInteger_Ok in Hk as [[Ht _]|Hz]; [|done]. apply truthy_Some in Ev as [_ Ev]. by destruct v.
  - intros p ->. by eapply readPricing_Ok.
Qed.

(** ** Concrete settings *)
Definition sample_url (text : string) : result Url :=
  if starts_with "https://" text
  then Ok {| url_protocol := "https:"; url_username := ""; url_password := ""; url_hostname := drop_str 8 text; url_rest := "/"; url_search := ""; url_hash := "" |}
  else Throw "Invalid URL".
Definition sample_href (u : Url) : string := url_protocol u +:+ "//" +:+ url_hostname u +:+ url_rest u.

Definition sample_environment : list (string * string) :=
  [("FLORY_LLM_PROVIDER", "acme"); ("FLORY_LLM_PROTOCOL", "anthropic-messages"); ("FLORY_LLM_ENDPOINT", " https://llm.example "); ("FLORY_LLM_API_KEY_FILE", "key");
   ("FLORY_LLM_MODEL", "m1"); ("FLORY_LLM_TIMEOUT_MS", "2500"); ("FLORY_LLM_PRICE_CACHE_HIT_INPUT", "0"); ("FLORY_LLM_PRICE_CACHE_MISS_INPUT", "1.5");
   ("FLORY_LLM_PRICE_OUTPUT", "6"); ("FLORY_LLM_PRICE_REFERENCE", "list")].

Definition sample_settings (environment : list (string * string)) : result LlmProviderConfig :=
  loadLlmConfig sample_url sample_href (fun _ => "") (fun _ => Ok "k-123 ") environment.

Lemma loadLlmConfig_witness : exists c, sample_settings sample_environment = Ok c /\ valid_config sample_href c.
Proof.
  destruct (sample_settings sample_environment) as [c|e] eqn:E; [|vm_compute in E; discriminate E].
  exists c. split; [done|]. by apply (loadLlmConfig_valid sample_url sample_href (fun _ => "") (fun _ => Ok "k-123 ") sample_environment).
Defined.

(** A key variable that is set but empty hides the key file. *)
Example empty_key_hides_file :
  sample_settings (("FLORY_LLM_API_KEY", "") :: sample_environment) = Throw "FLORY_LLM_API_KEY or FLORY_LLM_API_KEY_FILE is required".
Proof. vm_compute. done. Qed.
