(* ===== verification/Recovery.v ===== *)
(** * The recovery ladder (engine/src/recovery.ts, lines 33-124 and 419-925)

    [selectBoundary] decides what to do about one failure: record a boundary or an escalation,
    request the cancellations a boundary needs, or wait. [decideRecovery] turns the decision into the
    events it appends and [attempt] takes the oldest failure that can act. The loop that appends them and
    calls the planner is in RecoveryLoop.v, the theorems in RecoveryFacts.v. *)

From S2P Require Import Prelude Collections Number Json Events Graph Fork Projection Scopes Lineage Llm.

Inductive RejectionReason : Type :=
| open_bracket | below_floor | savepoint_precedes | budget_exceeded | failure_counter_exhausted.

Definition rejection_name (r : RejectionReason) : string :=
  match r with
  | open_bracket => "open_bracket" | below_floor => "below_floor" | savepoint_precedes => "savepoint_precedes"
  | budget_exceeded => "budget_exceeded" | failure_counter_exhausted => "failure_counter_exhausted"
  end.

(** [compensation_cost] is never set: no contract carries a price. *)
Record CostTerms : Type := { context_cost : number; rework_cost : number; risk_premium : number }.

Record BoundaryCandidate : Type := {
  bc_planner_vertex_id : string;
  bc_planner_seq : Z;
  bc_cost : option number;
  bc_currency : option string;
  bc_terms : option CostTerms;
  bc_rejected : option RejectionReason;
  bc_requires_cancel : option (list string)
}.

Inductive RecoveryLevel : Type := L1 | L2 | L3 | L4.
Inductive RecoveryAction : Type := record | request | wait.

#[export] Instance RecoveryLevel_eq_dec : EqDecision RecoveryLevel.
Proof. solve_decision. Defined.
#[export] Instance RecoveryAction_eq_dec : EqDecision RecoveryAction.
Proof. solve_decision. Defined.

Definition level_name (l : RecoveryLevel) : string :=
  match l with L1 => "L1" | L2 => "L2" | L3 => "L3" | L4 => "L4" end.

Record BoundaryDecision : Type := {
  bd_action : RecoveryAction;
  bd_level : RecoveryLevel;
  bd_reason : string;
  bd_failedVertexId : string;
  bd_candidates : list BoundaryCandidate;
  bd_selected : option string;
  bd_selectedSeq : option Z;
  bd_intended : option string;
  bd_shadowed : list string;
  bd_requestScopes : list string;
  bd_awaitedScopes : list string;
  bd_cancelledScopes : list string;
  bd_cancelRequestSeq : option Z;
  bd_episode : Z;
  bd_estimatedCost : option number;
  bd_currency : option string
}.

Record RecoveryPolicy : Type := {
  maxReplansPerPlanner : Z;
  maxReplansPerEpisode : Z;
  riskPremium : number;
  pricing : LlmPricing;
  budgetRemaining : option number
}.

Definition DEFAULT_RECOVERY_POLICY (p : LlmPricing) (budget : option number) : RecoveryPolicy :=
  {| maxReplansPerPlanner := 2; maxReplansPerEpisode := 2; riskPremium := Num.of_Z 2; pricing := p; budgetRemaining := budget |}.

(** ** Reading the log for one failure *)
Definition failureSeq (events : list StoredEvent) (failedVertexId : string) : Z :=
  fold_left (fun seq e =>
    if (is_type vertex_failed e && names_vertex failedVertexId e) || unreadable_of failedVertexId e then run_seq e else seq) events 0.

Definition scopeOf (events : list StoredEvent) (vertexId : string) (scopes : list (string * ScopeCancellation)) : option ScopeCancellation :=
  match find (fun e => is_type vertex_created e && names_vertex vertexId e) events with
  | Some created => match sid created with Some s => JMap.get scopes s | None => None end
  | None => None
  end.

Definition cancelRequestFor (events : list StoredEvent) (failedVertexId : string) : option Z :=
  fold_left (fun seq e =>
    if is_type replan_cancel_requested e && (pstr e "failed_vertex_id" ==? Some failedVertexId) then Some (run_seq e) else seq) events None.

Definition reportedCancellations (events : list StoredEvent) : list string :=
  fold_left (fun s e => if is_type replan_boundary e then JSet.addAll s (pstrings e "cancelled_scopes") else s) events [].

Definition abbreviate (scopeIds : list string) : string := join ", " (map (take_str 8) scopeIds).

Record DecisionContext : Type := {
  dc_events : list StoredEvent;
  dc_failedVertexId : string;
  dc_policy : RecoveryPolicy;
  dc_scopes : list (string * ScopeCancellation);
  dc_floor : Z;
  dc_perPlanner : list (string * Z);
  dc_failedAt : Z;
  dc_ownScope : option ScopeCancellation;
  dc_reported : list string;
  dc_locked : option (list LockedScope)
}.

(** The scopes of a context, in the map's order. *)
Definition scope_values (c : DecisionContext) : list ScopeCancellation := JMap.values (dc_scopes c).

Section Decide.
Context `{Collation}.

(** Prices one candidate: an exactly known prompt, and the vertices to regenerate. *)
Definition price (events : list StoredEvent) (view : Surface) (planner : AncestorPlanner) (policy : RecoveryPolicy) : result BoundaryCandidate :=
  sliced ← slice view (ap_vertexId planner);
  let text := contextText (linearize sliced)
                {| projector_version := "recovery-preflight"; harness_state_version := "recovery-preflight" |} in
  let contextTokens := (Z.of_nat (String.length text) + CHARS_PER_TOKEN - 1) / CHARS_PER_TOKEN in
  let discarded := shadowSet events (ap_vertexId planner) in
  let million := Num.of_Z 1000000 in
  let contextCost := Num.div (Num.mul (Num.of_Z contextTokens) (cache_miss_input_per_million (pricing policy))) million in
  let reworkCost := Num.div (Num.mul (Num.of_Z (Z.of_nat (length discarded) * TOKENS_PER_REGENERATED_VERTEX))
                                     (output_per_million (pricing policy))) million in
  Ok {| bc_planner_vertex_id := ap_vertexId planner; bc_planner_seq := ap_seq planner;
        bc_cost := Some (Num.fixed12 (Num.add contextCost reworkCost));
        bc_currency := Some (currency (pricing policy));
        bc_terms := Some {| context_cost := Num.fixed12 contextCost; rework_cost := Num.fixed12 reworkCost;
                            risk_premium := riskPremium policy |};
        bc_rejected := None; bc_requires_cancel := None |}.

Definition touchedScopes (events : list StoredEvent) (boundaryVertexId : string) (scopes : list (string * ScopeCancellation)) : list ScopeCancellation :=
  let discarded := shadowSet events boundaryVertexId in
  js_sort (fun a b => zor (sc_firstMemberSeq a - sc_firstMemberSeq b) (localeCompare (sc_scopeId a) (sc_scopeId b)))
    (filter_by (fun s => (sc_phase s !=? unmaterialized) && existsb (JSet.has discarded) (sc_members s)) (JMap.values scopes)).

Definition unresolvedRequests (c : DecisionContext) : list string :=
  map sc_scopeId (filter_by (fun s => (sc_requestedFor s ==? Some (dc_failedVertexId c)) &&
                                      includes (sc_phase s) [cancel_requested; cancelling]) (scope_values c)).

Definition runBlocks (c : DecisionContext) : list string :=
  let blocking := JSet.addAll [] (map sc_scopeId (filter_by (fun s => includes (sc_phase s) TRANSIENT) (scope_values c))) in
  let expired := map ls_scopeId (filter_by (fun row => (ls_state row ==? "open") && ls_hasExpiredTry row) (default [] (dc_locked c))) in
  js_sort strcmp (JSet.addAll blocking expired).

Definition cancelledFor (c : DecisionContext) (relevant : list string) : list string :=
  js_sort strcmp (JSet.addAll [] (map sc_scopeId (filter_by (fun s =>
    (sc_phase s ==? cancelled) && (dc_failedAt c <? default 0 (sc_cancelledSeq s)) && negb (JSet.has (dc_reported c) (sc_scopeId s)) &&
    ((sc_requestedFor s ==? Some (dc_failedVertexId c)) || includes (sc_scopeId s) relevant)) (scope_values c)))).

Inductive Verdict : Type := Rejected (r : RejectionReason) | RequiresCancel (scopes : list string).

Definition verdictFor (planner : AncestorPlanner) (c : DecisionContext) : Verdict :=
  if ap_seq planner <? dc_floor c then Rejected below_floor else
  let touched := touchedScopes (dc_events c) (ap_vertexId planner) (dc_scopes c) in
  if existsb (fun s => includes (sc_phase s) UNRECOVERABLE) touched then Rejected open_bracket else
  let cancel := filter_by (fun s => includes (sc_phase s) CANCELLABLE) touched in
  let undone := filter_by (fun s => (sc_phase s ==? cancelled) && (dc_failedAt c <? default 0 (sc_cancelledSeq s))) touched in
  if existsb (fun s => sc_firstMemberSeq s <? ap_seq planner) (cancel ++ undone) then Rejected savepoint_precedes else
  if maxReplansPerPlanner (dc_policy c) <=? JMap.get_or 0 (dc_perPlanner c) (ap_vertexId planner)
  then Rejected failure_counter_exhausted
  else RequiresCancel (js_sort strcmp (map sc_scopeId cancel)).

(** [{...base, action, level, reason, requestScopes, awaitedScopes, intended, cancelledScopes}] *)
Definition with_outcome (base : BoundaryDecision) (a : RecoveryAction) (l : RecoveryLevel) (reason : string)
    (intended : option string) (requested awaited cancelled_ : list string) : BoundaryDecision :=
  {| bd_action := a; bd_level := l; bd_reason := reason; bd_failedVertexId := bd_failedVertexId base;
     bd_candidates := bd_candidates base; bd_selected := bd_selected base; bd_selectedSeq := bd_selectedSeq base;
     bd_intended := intended; bd_shadowed := bd_shadowed base; bd_requestScopes := requested;
     bd_awaitedScopes := awaited; bd_cancelledScopes := cancelled_; bd_cancelRequestSeq := bd_cancelRequestSeq base;
     bd_episode := bd_episode base; bd_estimatedCost := bd_estimatedCost base; bd_currency := bd_currency base |}.

Definition with_candidates (base : BoundaryDecision) (cs : list BoundaryCandidate) : BoundaryDecision :=
  {| bd_action := bd_action base; bd_level := bd_level base; bd_reason := bd_reason base; bd_failedVertexId := bd_failedVertexId base;
     bd_candidates := cs; bd_selected := bd_selected base; bd_selectedSeq := bd_selectedSeq base;
     bd_intended := bd_intended base; bd_shadowed := bd_shadowed base; bd_requestScopes := bd_requestScopes base;
     bd_awaitedScopes := bd_awaitedScopes base; bd_cancelledScopes := bd_cancelledScopes base;
     bd_cancelRequestSeq := bd_cancelRequestSeq base; bd_episode := bd_episode base;
     bd_estimatedCost := bd_estimatedCost base; bd_currency := bd_currency base |}.

Definition terminal (c : DecisionContext) (base : BoundaryDecision) (level : RecoveryLevel) (reason : string) : BoundaryDecision :=
  let own_phases (ps : list ScopePhase) := match dc_ownScope c with
    | Some own => if includes (sc_phase own) ps then [sc_scopeId own] else []
    | None => [] end in
  match own_phases [open; fenced] with
  | (_ :: _) as own =>
      with_outcome base request L3 ("cancelling " +:+ abbreviate own +:+ " before escalating: " +:+ reason) (bd_intended base) own [] []
  | [] =>
      let awaited := unresolvedRequests c ++ own_phases [cancel_requested; cancelling; pivot_inflight] in
      match awaited with
      | _ :: _ =>
          let scopes := js_sort strcmp (JSet.of_list awaited) in
          with_outcome base wait level ("waiting for " +:+ abbreviate scopes +:+ " to settle before escalating: " +:+ reason)
            (bd_intended base) [] scopes []
      | [] =>
          with_outcome base record level reason (bd_intended base) [] []
            (cancelledFor c (match dc_ownScope c with Some own => [sc_scopeId own] | None => [] end))
      end
  end.

Definition nearestDepth (events : list StoredEvent) (failedVertexId : string) : Z :=
  match ancestorPlanners events failedVertexId with p :: _ => ap_depth p | [] => -1 end.

(** The comparison: every ancestor planner priced or rejected, and the cheapest so far. *)
Abbreviation comparison := (list BoundaryCandidate * option (BoundaryCandidate * Z))%type.

Definition rejectedCandidate (planner : AncestorPlanner) (r : RejectionReason) : BoundaryCandidate :=
  {| bc_planner_vertex_id := ap_vertexId planner; bc_planner_seq := ap_seq planner; bc_cost := None; bc_currency := None;
     bc_terms := None; bc_rejected := Some r; bc_requires_cancel := None |}.

Definition requiring (scopes : list string) (c : BoundaryCandidate) : BoundaryCandidate :=
  match scopes with
  | [] => c
  | _ => {| bc_planner_vertex_id := bc_planner_vertex_id c; bc_planner_seq := bc_planner_seq c; bc_cost := bc_cost c;
            bc_currency := bc_currency c; bc_terms := bc_terms c; bc_rejected := bc_rejected c; bc_requires_cancel := Some scopes |}
  end.

(** [priced.cost!] *)
Definition cost_of (c : BoundaryCandidate) : number := default (Num.of_Z 0) (bc_cost c).

Definition compareStep (c : DecisionContext) (view : Surface) (acc : comparison) (planner : AncestorPlanner) : result comparison :=
  match verdictFor planner c with
  | Rejected r => Ok (fst acc ++ [rejectedCandidate planner r], snd acc)
  | RequiresCancel scopes =>
      p ← price (dc_events c) view planner (dc_policy c);
      let priced := requiring scopes p in
      if match budgetRemaining (dc_policy c) with Some b => Num.lt b (cost_of priced) | None => false end
      then Ok (fst acc ++ [rejectedCandidate planner budget_exceeded], snd acc)
      else Ok (fst acc ++ [priced],
               match snd acc with
               | None => Some (priced, ap_depth planner)
               | Some (b, d) => if Num.lt (cost_of priced) (cost_of b) then Some (priced, ap_depth planner) else Some (b, d)
               end)
  end.

(** The section sign of a design reference, one UTF-16 code unit. *)
Definition section_sign : string := String (Ascii.ascii_of_nat 167) "".

Definition contextOf (events : list StoredEvent) (failedVertexId : string) (policy : RecoveryPolicy) (locked : option (list LockedScope)) : DecisionContext :=
  let scopes := scopeCancellations events in
  {| dc_events := events; dc_failedVertexId := failedVertexId; dc_policy := policy; dc_scopes := scopes;
     dc_floor := backtrackFloor events; dc_perPlanner := rh_perPlanner (replanHistory events);
     dc_failedAt := failureSeq events failedVertexId; dc_ownScope := scopeOf events failedVertexId scopes;
     dc_reported := reportedCancellations events; dc_locked := locked |}.

Definition baseOf (events : list StoredEvent) (failedVertexId : string) : BoundaryDecision :=
  {| bd_action := record; bd_level := L4; bd_reason := ""; bd_failedVertexId := failedVertexId; bd_candidates := [];
     bd_selected := None; bd_selectedSeq := None; bd_intended := None; bd_shadowed := []; bd_requestScopes := [];
     bd_awaitedScopes := []; bd_cancelledScopes := []; bd_cancelRequestSeq := cancelRequestFor events failedVertexId;
     bd_episode := rh_episode (replanHistory events); bd_estimatedCost := None; bd_currency := None |}.

(** The decision once a cheapest legal candidate is known. *)
Definition resumeAt (c : DecisionContext) (base : BoundaryDecision) (best : BoundaryCandidate) (depth : Z) : BoundaryDecision :=
  let events := dc_events c in
  let scopes := dc_scopes c in
  let level := if depth =? nearestDepth events (dc_failedVertexId c) then L1 else L2 in
  let boundary := bc_planner_vertex_id best in
  let required := default [] (bc_requires_cancel best) in
  let toRequest := filter_by (fun id => match JMap.get scopes id with
                                        | Some s => includes (sc_phase s) [open; fenced] | None => false end) required in
  match toRequest with
  | _ :: _ => with_outcome base request level
      ("cancelling " +:+ abbreviate toRequest +:+ " before resuming at " +:+ take_str 8 boundary +:+ " (03 " +:+ section_sign +:+ "2.4 rule 1)")
      (Some boundary) toRequest [] []
  | [] =>
  let inFlight := js_sort strcmp (JSet.of_list (required ++ unresolvedRequests c)) in
  match inFlight with
  | _ :: _ => with_outcome base wait level
      ("waiting for " +:+ abbreviate inFlight +:+ " to finish cancelling before resuming at " +:+ take_str 8 boundary)
      (Some boundary) [] inFlight []
  | [] =>
  let blocking := runBlocks c in
  match blocking with
  | _ :: _ => with_outcome base wait level
      ("waiting for " +:+ abbreviate blocking +:+ " to settle: the run admits no freeze until it does")
      (Some boundary) [] blocking []
  | [] =>
      {| bd_action := record; bd_level := level;
         bd_reason := "resuming at the cheapest legal boundary of " +:+
           nstr (length (filter_by (fun e => match bc_rejected e with None => true | Some _ => false end) (bd_candidates base)));
         bd_failedVertexId := bd_failedVertexId base; bd_candidates := bd_candidates base;
         bd_selected := Some boundary; bd_selectedSeq := Some (bc_planner_seq best); bd_intended := Some boundary;
         bd_shadowed := shadowSet events boundary; bd_requestScopes := bd_requestScopes base;
         bd_awaitedScopes := bd_awaitedScopes base;
         bd_cancelledScopes := cancelledFor c (map sc_scopeId (touchedScopes events boundary scopes));
         bd_cancelRequestSeq := bd_cancelRequestSeq base; bd_episode := bd_episode base;
         bd_estimatedCost := bc_cost best; bd_currency := Some (currency (pricing (dc_policy c))) |}
  end end end.

Definition noBoundary (c : DecisionContext) (base : BoundaryDecision) : BoundaryDecision :=
  let candidates := bd_candidates base in
  terminal c base
    (match dc_ownScope c with
     | Some own => if (sc_phase own ==? cancelled) || includes (sc_phase own) CANCELLABLE then L3 else L4
     | None => L4
     end)
    (match candidates with
     | [] => "the failed vertex has no ancestor planner"
     | _ => "no ancestor planner is a legal replan boundary: " +:+
            join ", " (map (fun e => take_str 8 (bc_planner_vertex_id e) +:+ " " +:+
                         match bc_rejected e with Some r => rejection_name r | None => "undefined" end) candidates)
     end).

Definition selectBoundary (events : list StoredEvent) (failedVertexId : string) (policy : RecoveryPolicy)
    (locked : option (list LockedScope)) : result BoundaryDecision :=
  let c := contextOf events failedVertexId policy locked in
  let base := baseOf events failedVertexId in
  let episode := bd_episode base in
  match match locked with Some rows => disagreeingScopes (dc_scopes c) rows | None => [] end with
  | (_ :: _) as disagree =>
      Ok (with_outcome base wait L4 ("the log does not yet show what the scope rows hold for " +:+ abbreviate disagree) None [] disagree [])
  | [] =>
  if ruleAuthored events failedVertexId then
    Ok (terminal c base L4 "a rule authored this work, and no planner has the authority to propose a replacement for it")
  else if maxReplansPerEpisode policy <=? episode then
    Ok (terminal c base L3 ("this failure episode has already used " +:+ zstr episode +:+ " replans, the protocol bound"))
  else match map sc_scopeId (filter_by (fun s => sc_phase s ==? suspended) (scope_values c)) with
  | (_ :: _) as suspended_ =>
      Ok (terminal c base L4 ("scope " +:+ abbreviate suspended_ +:+ " is suspended, so no replan in this run can be admitted"))
  | [] =>
      view ← surface events;
      cmp ← foldM (compareStep c view) ([], None) (ancestorPlanners events failedVertexId);
      let base := with_candidates base (fst cmp) in
      Ok (match snd cmp with
          | None => noBoundary c base
          | Some (best, depth) => resumeAt c base best depth
          end)
  end end.

(** ** The events a decision appends *)
Definition str_array (l : list string) : value := VArr (map VStr l).
Definition int (z : Z) : value := VNum (Num.of_Z z).
Definition nullable (o : option string) : value := match o with Some s => VStr s | None => VNull end.

Definition candidate_value (c : BoundaryCandidate) : value :=
  VObj ([("planner_vertex_id", VStr (bc_planner_vertex_id c)); ("planner_seq", int (bc_planner_seq c))] ++
        match bc_cost c with Some n => [("cost", VNum n)] | None => [] end ++
        match bc_currency c with Some s => [("currency", VStr s)] | None => [] end ++
        match bc_terms c with
        | Some t => [("terms", VObj [("context_cost", VNum (context_cost t)); ("rework_cost", VNum (rework_cost t));
                                     ("risk_premium", VNum (risk_premium t))])]
        | None => [] end ++
        match bc_rejected c with Some r => [("rejected", VStr (rejection_name r))] | None => [] end ++
        match bc_requires_cancel c with Some l => [("requires_cancel", str_array l)] | None => [] end).

Definition boundaryPayload (d : BoundaryDecision) (ev : FailureEvidence) : object :=
  [("level", VStr (level_name (bd_level d))); ("reason", VStr (bd_reason d)); ("failed_vertex_id", VStr (bd_failedVertexId d));
   ("episode", int (bd_episode d + 1)); ("candidates", VArr (map candidate_value (bd_candidates d)));
   ("selected", nullable (bd_selected d)); ("cancelled_scopes", str_array (fe_cancelled_scopes ev))] ++
  match bd_cancelRequestSeq d with Some q => [("cancel_request_seq", int q)] | None => [] end ++
  match bd_selectedSeq d with
  | Some q => [("boundary_seq", int q); ("boundary_vertex_id", nullable (bd_selected d))] | None => [] end ++
  match bd_estimatedCost d with
  | Some n => [("estimated_cost", VNum n); ("currency", nullable (bd_currency d))] | None => [] end.

Definition shadowPayload (d : BoundaryDecision) : object :=
  [("vertex_ids", str_array (bd_shadowed d)); ("reason", VStr (bd_reason d));
   ("boundary_seq", match bd_selectedSeq d with Some q => int q | None => VNull end);
   ("boundary_vertex_id", nullable (bd_selected d)); ("failed_vertex_id", VStr (bd_failedVertexId d))].

Definition replanEvents (d : BoundaryDecision) (ev : FailureEvidence) : list EventDraft :=
  match truthy (bd_selected d) with
  | Some s => [vertex_draft replan_boundary s (boundaryPayload d ev); draft subgraph_shadowed (shadowPayload d)]
  | None => [draft replan_boundary (boundaryPayload d ev)]
  end.

Definition cancelRequestEvent (d : BoundaryDecision) : result EventDraft :=
  if (bd_action d !=? request) || match bd_requestScopes d with [] => true | _ => false end
  then Throw "only a request decision appends a cancellation request"
  else Ok (draft replan_cancel_requested
    [("failed_vertex_id", VStr (bd_failedVertexId d)); ("scope_ids", str_array (js_sort strcmp (bd_requestScopes d)));
     ("level", VStr (level_name (if bd_level d ==? L4 then L3 else bd_level d))); ("reason", VStr (bd_reason d));
     ("intended_boundary_vertex_id", nullable (bd_intended d)); ("candidates", VArr (map candidate_value (bd_candidates d)))]).

Definition decideRecovery (events : list StoredEvent) (failedVertexId : string) (policy : RecoveryPolicy)
    (locked : option (list LockedScope)) : result (BoundaryDecision * list EventDraft) :=
  d ← selectBoundary events failedVertexId policy locked;
  match bd_action d with
  | wait => Ok (d, [])
  | request => e ← cancelRequestEvent d; Ok (d, [e])
  | record => Ok (d, replanEvents d (failureEvidence events failedVertexId (bd_shadowed d) (bd_cancelledScopes d)))
  end.

(** ** One recovery attempt *)

(** What the callback under the scope lock leaves behind: the decisions that wait, and the first that
    acts with the events it appends. *)
Record Attempt : Type := {
  at_waiting : list BoundaryDecision;
  at_acted : option BoundaryDecision;
  at_drafts : option (list EventDraft)
}.

Fixpoint attemptFrom (events : list StoredEvent) (policy : RecoveryPolicy) (locked : list LockedScope)
    (waiting : list BoundaryDecision) (failures : list string) : result Attempt :=
  match failures with
  | [] => Ok {| at_waiting := waiting; at_acted := None; at_drafts := None |}
  | failed :: failures =>
      dd ← decideRecovery events failed policy (Some locked);
      if bd_action (fst dd) ==? wait then attemptFrom events policy locked (waiting ++ [fst dd]) failures
      else Ok {| at_waiting := waiting; at_acted := Some (fst dd); at_drafts := Some (snd dd) |}
  end.

Definition attempt (events : list StoredEvent) (policy : RecoveryPolicy) (locked : list LockedScope) : result Attempt :=
  attemptFrom events policy locked [] (outstanding events).

End Decide.

Inductive RecoveryResult (Turn : Type) : Type :=
| replanned (d : BoundaryDecision) (evidence : FailureEvidence) (turn : Turn)
| escalated (d : BoundaryDecision)
| cancel_requested_result (d : BoundaryDecision) (requestSeq : option Z)
| awaiting_cancellation (ds : list BoundaryDecision)
| idle.
Arguments replanned {Turn}. Arguments escalated {Turn}. Arguments cancel_requested_result {Turn}.
Arguments awaiting_cancellation {Turn}. Arguments idle {Turn}.
