(* ===== verification/RecoveryFacts.v ===== *)
(** * Correctness of the recovery ladder

    The theorems about [selectBoundary], [decideRecovery] and [recoverOne]: a recorded boundary is
    legal and cheapest, requests and waits name the scopes they are about, the bounds on replans
    hold, and what is recorded answers the failure. *)

From S2P Require Import Prelude Collections Number Json Events Graph Fork Projection Scopes Lineage Llm Recovery.

Section Facts.
Context `{Collation}.

(** ** Verdicts *)
Definition scope_order (a b : ScopeCancellation) : Z :=
  zor (sc_firstMemberSeq a - sc_firstMemberSeq b) (localeCompare (sc_scopeId a) (sc_scopeId b)).

(** A scope whose work a replan at the boundary would discard. *)
Definition touches (events : list StoredEvent) (boundary : string) (s : ScopeCancellation) : Prop :=
  sc_phase s <> unmaterialized /\ exists m, m ∈ sc_members s /\ m ∈ shadowSet events boundary.

Lemma elem_of_touchedScopes events b scopes s :
  s ∈ touchedScopes events b scopes <-> s ∈ JMap.values scopes /\ touches events b s.
Proof.
  unfold touchedScopes, touches. rewrite elem_of_js_sort, elem_of_filter_by, andb_true_iff, neqb_true, existsb_true.
  setoid_rewrite JSet_has_true. done.
Qed.

(** What the verdict of a legal boundary guarantees, and what it requires. *)
Record legal_boundary (c : DecisionContext) (p : AncestorPlanner) : Prop := {
  lb_floor : dc_floor c <= ap_seq p;
  lb_recoverable : forall s, s ∈ scope_values c -> touches (dc_events c) (ap_vertexId p) s -> sc_phase s ∉ UNRECOVERABLE;
  lb_savepoint : forall s, s ∈ scope_values c -> touches (dc_events c) (ap_vertexId p) s ->
    sc_phase s ∈ CANCELLABLE \/ (sc_phase s = cancelled /\ dc_failedAt c < default 0 (sc_cancelledSeq s)) ->
    ap_seq p <= sc_firstMemberSeq s;
  lb_counter : JMap.get_or 0 (dc_perPlanner c) (ap_vertexId p) < maxReplansPerPlanner (dc_policy c)
}.

Lemma verdictFor_legal p c scopes :
  verdictFor p c = RequiresCancel scopes ->
  legal_boundary c p /\
  forall id, id ∈ scopes <-> exists s, s ∈ scope_values c /\ touches (dc_events c) (ap_vertexId p) s /\
    sc_phase s ∈ CANCELLABLE /\ sc_scopeId s = id.
Proof.
  unfold verdictFor. destruct (ap_seq p <? dc_floor c) eqn:Ef; [done|].
  set (touched := touchedScopes _ _ _). destruct (existsb _ touched) eqn:Eu; [done|].
  destruct (existsb _ (_ ++ _)) eqn:Es; [done|]. destruct (_ <=? _) eqn:Ec; [done|]. intros [= <-].
  rewrite existsb_false in Eu, Es. bool_prop.
  assert (forall s, s ∈ touched <-> s ∈ scope_values c /\ touches (dc_events c) (ap_vertexId p) s) as Ht
    by (intros s; apply elem_of_touchedScopes).
  split; [split|].
  - done.
  - intros s Hs Htou Hin. specialize (Eu s (proj2 (Ht s) (conj Hs Htou))). cbv beta in Eu. bool_prop. done.
  - intros s Hs Htou Hp. specialize (Es s). cbv beta in Es. rewrite elem_of_app, !elem_of_filter_by in Es.
    assert (s ∈ touched) as Hin by (apply Ht; done). apply Z.ltb_ge, Es.
    destruct Hp as [Hp|[Hp Hq]]; [left|right]; (split; [done|]); [by apply includes_true|].
    apply andb_true_iff. split; [by apply eqb_true|by apply Z.ltb_lt].
  - done.
  - intros id. rewrite elem_of_js_sort, elem_of_map. setoid_rewrite elem_of_filter_by. cbv beta.
    setoid_rewrite Ht. split.
    + intros (s & -> & [Hs Htou] & Hc). exists s. apply includes_true in Hc. done.
    + intros (s & Hs & Htou & Hc & <-). exists s. apply includes_true in Hc. done.
Qed.

(** ** The comparison keeps the cheapest legal candidate *)
Definition selectable (c : BoundaryCandidate) : Prop := bc_rejected c = None.

Record best_of (c : DecisionContext) (view : Surface) (pre : list AncestorPlanner) (cands : list BoundaryCandidate)
    (b : BoundaryCandidate) (d : Z) : Prop := {
  bo_mem : b ∈ cands;
  bo_selectable : selectable b;
  bo_source : exists p scopes priced, p ∈ pre /\ d = ap_depth p /\ verdictFor p c = RequiresCancel scopes /\
    price (dc_events c) view p (dc_policy c) = Ok priced /\ b = requiring scopes priced;
  bo_cheapest : forall x, x ∈ cands -> selectable x -> Num.lt (cost_of x) (cost_of b) = false;
  bo_budget : forall m, budgetRemaining (dc_policy c) = Some m -> Num.lt m (cost_of b) = false
}.

Record comparison_inv (c : DecisionContext) (view : Surface) (pre : list AncestorPlanner) (acc : list BoundaryCandidate * option (BoundaryCandidate * Z)) : Prop := {
  ci_all : map bc_planner_vertex_id (fst acc) = map ap_vertexId pre;
  ci_none : snd acc = None -> forall x, x ∈ fst acc -> ~ selectable x;
  ci_best : forall b d, snd acc = Some (b, d) -> best_of c view pre (fst acc) b d
}.

Lemma price_fields events view p policy c :
  price events view p policy = Ok c ->
  bc_planner_vertex_id c = ap_vertexId p /\ bc_planner_seq c = ap_seq p /\ bc_rejected c = None /\
  bc_requires_cancel c = None /\ is_Some (bc_cost c).
Proof.
  unfold price. intros Hp. apply bind_Ok in Hp as (s & _ & Hp). apply Ok_inj in Hp as <-.
  split_and!; try reflexivity. by eexists.
Qed.

Lemma requiring_fields scopes c :
  bc_planner_vertex_id (requiring scopes c) = bc_planner_vertex_id c /\
  bc_planner_seq (requiring scopes c) = bc_planner_seq c /\ bc_rejected (requiring scopes c) = bc_rejected c /\
  bc_cost (requiring scopes c) = bc_cost c.
Proof. by destruct scopes. Qed.

Lemma best_of_more c view pre p cands x b d :
  best_of c view pre cands b d -> (selectable x -> Num.lt (cost_of x) (cost_of b) = false) ->
  best_of c view (pre ++ [p]) (cands ++ [x]) b d.
Proof.
  intros [Hm Hs (q & scopes & priced & Hq & Hrest) Hc Hb] Hx. split.
  - set_solver.
  - done.
  - exists q, scopes, priced. split; [set_solver|done].
  - intros y. rewrite elem_of_app, list_elem_of_singleton. intros [Hy| ->]; auto.
  - done.
Qed.

Lemma comparison_reject c view pre p acc r :
  comparison_inv c view pre acc -> comparison_inv c view (pre ++ [p]) (fst acc ++ [rejectedCandidate p r], snd acc).
Proof.
  intros [Ha Hn Hb]. split; cbn [fst snd].
  - rewrite !map_app, Ha. done.
  - intros E x. rewrite elem_of_app, list_elem_of_singleton. intros [Hx| ->]; [by apply Hn|done].
  - intros b d E. apply best_of_more; [by apply Hb|done].
Qed.

Lemma compareStep_inv c view pre p acc acc' :
  comparison_inv c view pre acc -> compareStep c view acc p = Ok acc' -> comparison_inv c view (pre ++ [p]) acc'.
Proof.
  intros Hinv. unfold compareStep. destruct (verdictFor p c) as [r|scopes] eqn:Ev.
  { intros [= <-]. by apply comparison_reject. }
  intros Hs. apply bind_Ok in Hs as (priced & Hp & Hs).
  destruct (match budgetRemaining _ with Some _ => _ | None => _ end) eqn:Ebud.
  { injection Hs as <-. by apply comparison_reject. }
  injection Hs as <-. pose proof (price_fields _ _ _ _ _ Hp) as (Hid & Hseq & Hrej & _ & _).
  pose proof (requiring_fields scopes priced) as (Hid' & Hseq' & Hrej' & Hcost').
  set (x := requiring scopes priced) in *.
  assert (forall m, budgetRemaining (dc_policy c) = Some m -> Num.lt m (cost_of x) = false) as Hbud.
  { intros m Hm. by rewrite Hm in Ebud. }
  assert (selectable x) as Hsel by by (unfold selectable; rewrite Hrej').
  assert (Num.lt (cost_of x) (cost_of x) = false) as Hirr by apply num_lt_irrefl.
  assert (exists q scopes0 priced0, q ∈ pre ++ [p] /\ ap_depth p = ap_depth q /\ verdictFor q c = RequiresCancel scopes0 /\
    price (dc_events c) view q (dc_policy c) = Ok priced0 /\ x = requiring scopes0 priced0) as Hsrc.
  { exists p, scopes, priced. split; [set_solver|done]. }
  destruct Hinv as [Ha Hn Hb]. split; cbn [fst snd].
  - rewrite !map_app, Ha. cbn. by rewrite Hid', Hid.
  - destruct (snd acc) as [[b d]|]; [destruct (Num.lt (cost_of x) (cost_of b))|]; done.
  - intros b d. destruct (snd acc) as [[b0 d0]|] eqn:Eacc.
    + specialize (Hb b0 d0 eq_refl). destruct (Num.lt (cost_of x) (cost_of b0)) eqn:Elt.
      * intros [= <- <-]. split; [set_solver|done|done| |done].
        intros y. rewrite elem_of_app, list_elem_of_singleton. intros [Hy| ->] Hy'; [|done].
        apply not_true_iff_false. intros Hyx.
        pose proof (num_lt_trans _ _ _ Hyx Elt) as Hlt. by rewrite (bo_cheapest _ _ _ _ _ _ Hb y Hy Hy') in Hlt.
      * intros [= <- <-]. by apply best_of_more.
    + intros [= <- <-]. split; [set_solver|done|done| |done].
      intros y. rewrite elem_of_app, list_elem_of_singleton. intros [Hy| ->] Hy'; [|done].
      by apply (Hn eq_refl) in Hy'.
Qed.

Lemma comparison_correct c view planners cmp :
  foldM (compareStep c view) ([], None) planners = Ok cmp -> comparison_inv c view planners cmp.
Proof.
  intros Hf. eapply (foldM_prefix_inv (comparison_inv c view)); [| |exact Hf].
  - split; [done|set_solver|done].
  - intros pre x s s' Hs Hx. by eapply compareStep_inv.
Qed.

(** ** The shape of a decision *)

(** A base decision has chosen nothing yet. *)
Record blank (b : BoundaryDecision) : Prop := {
  bl_selected : bd_selected b = None;
  bl_seq : bd_selectedSeq b = None;
  bl_shadowed : bd_shadowed b = [];
  bl_request : bd_requestScopes b = [];
  bl_awaited : bd_awaitedScopes b = []
}.

Lemma baseOf_blank events v : blank (baseOf events v).
Proof. by split. Qed.

Lemma with_candidates_blank b cs : blank b -> blank (with_candidates b cs).
Proof. intros []. by split. Qed.

(** The three ways a decision comes about. *)
Inductive decided (events : list StoredEvent) (v : string) (policy : RecoveryPolicy) (locked : option (list LockedScope)) : BoundaryDecision -> Prop :=
| decided_wait rows reason :
    locked = Some rows -> disagreeingScopes (scopeCancellations events) rows <> [] ->
    decided events v policy locked
      (with_outcome (baseOf events v) wait L4 reason None [] (disagreeingScopes (scopeCancellations events) rows) [])
| decided_terminal base level reason :
    blank base -> bd_failedVertexId base = v ->
    decided events v policy locked (terminal (contextOf events v policy locked) base level reason)
| decided_resume view cmp best depth :
    ruleAuthored events v = false -> rh_episode (replanHistory events) < maxReplansPerEpisode policy ->
    (forall s, s ∈ JMap.values (scopeCancellations events) -> sc_phase s <> suspended) ->
    surface events = Ok view ->
    foldM (compareStep (contextOf events v policy locked) view) ([], None) (ancestorPlanners events v) = Ok cmp ->
    snd cmp = Some (best, depth) ->
    decided events v policy locked
      (resumeAt (contextOf events v policy locked) (with_candidates (baseOf events v) (fst cmp)) best depth).

Lemma selectBoundary_decided events v policy locked d :
  selectBoundary events v policy locked = Ok d -> decided events v policy locked d.
Proof.
  unfold selectBoundary. cbn zeta.
  destruct (match locked with Some rows => _ | None => [] end) as [|x xs] eqn:Ed.
  2:{ intros Hd. apply Ok_inj in Hd as <-. destruct locked as [rows|]; [|done].
      cbn [dc_scopes contextOf] in Ed. rewrite <- Ed. by eapply decided_wait; [|rewrite Ed]. }
  destruct (ruleAuthored events v) eqn:Er.
  { intros Hd. apply Ok_inj in Hd as <-. apply decided_terminal; [apply baseOf_blank|done]. }
  destruct (_ <=? _) eqn:Ee.
  { intros Hd. apply Ok_inj in Hd as <-. apply decided_terminal; [apply baseOf_blank|done]. }
  destruct (map sc_scopeId _) as [|y ys] eqn:Es.
  2:{ intros Hd. apply Ok_inj in Hd as <-. apply decided_terminal; [apply baseOf_blank|done]. }
  intros Hd. apply bind_Ok in Hd as (view & Hv & Hd). apply bind_Ok in Hd as (cmp & Hc & Hd). apply Ok_inj in Hd as <-.
  destruct (snd cmp) as [[best depth]|] eqn:Eb.
  - eapply decided_resume; [done|bool_prop; done| |done|done|done].
    intros s Hs Hp. assert (s ∈ filter_by (fun s => sc_phase s ==? suspended) (scope_values (contextOf events v policy locked))) as Hin.
    { apply elem_of_filter_by. split; [done|by apply eqb_true]. }
    apply map_eq_nil in Es. rewrite Es in Hin. by apply elem_of_nil in Hin.
  - apply decided_terminal; [apply with_candidates_blank, baseOf_blank|done].
Qed.

Lemma includes_own (o : option ScopeCancellation) ps x xs :
  match o with Some own => if includes (sc_phase own) ps then [sc_scopeId own] else [] | None => [] end = x :: xs ->
  exists own, o = Some own /\ sc_phase own ∈ ps /\ x = sc_scopeId own /\ xs = [].
Proof. destruct o as [own|]; [|done]. destruct (includes _ _) eqn:E; [|done]. intros [= <- <-]. bool_prop. eauto. Qed.

(** The end of the ladder selects nothing; it asks for its own scope, or waits, or records. *)
Lemma terminal_spec c base level reason d :
  blank base -> d = terminal c base level reason ->
  bd_selected d = None /\ bd_selectedSeq d = None /\ bd_shadowed d = [] /\ bd_failedVertexId d = bd_failedVertexId base /\
  match bd_action d with
  | request => exists own, dc_ownScope c = Some own /\ (sc_phase own = open \/ sc_phase own = fenced) /\
      bd_requestScopes d = [sc_scopeId own] /\ bd_awaitedScopes d = []
  | wait => bd_awaitedScopes d <> [] /\ bd_requestScopes d = []
  | record => bd_requestScopes d = [] /\ bd_awaitedScopes d = [] /\ unresolvedRequests c = [] /\
      (forall own, dc_ownScope c = Some own ->
         sc_phase own ∉ [open; fenced; cancel_requested; cancelling; pivot_inflight])
  end.
Proof.
  intros [Hs Hq Hsh Hr Ha] ->. unfold terminal.
  destruct (match dc_ownScope c with Some own => if includes (sc_phase own) [open; fenced] then _ else [] | None => [] end)
    as [|x xs] eqn:Eown.
  2:{ apply includes_own in Eown as (own & Ho & Hp & -> & ->). unfold with_outcome. split_and!; try done. cbn.
      exists own. rewrite !elem_of_cons, elem_of_nil in Hp. split_and!; [done|tauto|done|done]. }
  destruct (unresolvedRequests c ++ _) as [|y ys] eqn:Eaw.
  - unfold with_outcome. split_and!; try done. cbn. apply app_eq_nil in Eaw as [Hu Hp]. split_and!; [done..|].
    intros own Ho. rewrite Ho in *. destruct (includes (sc_phase own) [open; fenced]) eqn:E1; [done|].
    destruct (includes (sc_phase own) [cancel_requested; cancelling; pivot_inflight]) eqn:E2; [done|].
    bool_prop. rewrite !elem_of_cons in *. tauto.
  - unfold with_outcome. split_and!; try done. cbn [bd_action bd_awaitedScopes bd_requestScopes]. split; [|done].
    by intros ?%js_sort_nil%JSet_of_list_nil.
Qed.

(** ** Resuming at the cheapest candidate *)
Section Resume.
Context (events : list StoredEvent) (v : string) (policy : RecoveryPolicy) (locked : option (list LockedScope)).
Let c := contextOf events v policy locked.

Lemma resumeAt_request base best depth :
  blank base -> bd_action (resumeAt c base best depth) = request ->
  bd_selected (resumeAt c base best depth) = None /\ bd_requestScopes (resumeAt c base best depth) <> [] /\
  bd_awaitedScopes (resumeAt c base best depth) = [] /\
  forall id, id ∈ bd_requestScopes (resumeAt c base best depth) ->
    exists s, JMap.get (scopeCancellations events) id = Some s /\ (sc_phase s = open \/ sc_phase s = fenced).
Proof.
  intros [Hs _ _ _ _]. unfold resumeAt. cbn [dc_scopes c contextOf]. set (toRequest := filter_by _ _).
  destruct toRequest as [|x xs] eqn:Et.
  { destruct (js_sort strcmp _); [destruct (runBlocks _)|]; done. }
  intros _. split; [done|]. split; [done|]. split; [done|]. cbn [bd_requestScopes with_outcome].
  intros id Hid. rewrite <- Et in Hid. apply elem_of_filter_by in Hid as [_ Hid].
  destruct (JMap.get _ id) as [s|]; [|done]. bool_prop. rewrite !elem_of_cons, elem_of_nil in Hid.
  exists s. tauto.
Qed.

Lemma resumeAt_wait base best depth :
  blank base -> bd_action (resumeAt c base best depth) = wait ->
  bd_selected (resumeAt c base best depth) = None /\ bd_awaitedScopes (resumeAt c base best depth) <> [] /\
  bd_requestScopes (resumeAt c base best depth) = [].
Proof.
  intros [Hs _ _ _ _]. unfold resumeAt. cbn [dc_scopes c contextOf].
  destruct (filter_by _ (default [] _)); [|done]. destruct (js_sort strcmp (JSet.of_list _)); [|done].
  by destruct (runBlocks _).
Qed.

(** Nothing is discarded without a boundary. *)
Lemma resumeAt_unselected base best depth :
  blank base -> bd_selected (resumeAt c base best depth) = None -> bd_shadowed (resumeAt c base best depth) = [].
Proof.
  intros [_ _ Hsh _ _]. unfold resumeAt. cbn [dc_scopes c contextOf].
  destruct (filter_by _ (default [] _)); [|done]. destruct (js_sort strcmp (JSet.of_list _)); [|done].
  by destruct (runBlocks _).
Qed.

Lemma resumeAt_record base best depth :
  bd_action (resumeAt c base best depth) = record ->
  default [] (bc_requires_cancel best) = [] /\ unresolvedRequests c = [] /\ runBlocks c = [] /\
  bd_selected (resumeAt c base best depth) = Some (bc_planner_vertex_id best) /\
  bd_selectedSeq (resumeAt c base best depth) = Some (bc_planner_seq best) /\
  bd_shadowed (resumeAt c base best depth) = shadowSet events (bc_planner_vertex_id best) /\
  bd_estimatedCost (resumeAt c base best depth) = bc_cost best /\
  bd_candidates (resumeAt c base best depth) = bd_candidates base /\
  bd_requestScopes (resumeAt c base best depth) = bd_requestScopes base /\
  bd_awaitedScopes (resumeAt c base best depth) = bd_awaitedScopes base.
Proof.
  unfold resumeAt. cbn [dc_scopes dc_events c contextOf]. destruct (filter_by _ (default [] _)); [|done].
  destruct (js_sort strcmp (JSet.of_list _)) eqn:Ei; [|done]. destruct (runBlocks _) eqn:Er; [|done]. intros _.
  apply js_sort_nil, JSet_of_list_nil, app_eq_nil in Ei as [-> ->]. split_and!; done.
Qed.

Lemma runBlocks_nil : runBlocks c = [] ->
  (forall s, s ∈ JMap.values (scopeCancellations events) -> sc_phase s ∉ TRANSIENT) /\
  (forall rows row, locked = Some rows -> row ∈ rows -> ls_state row = "open" -> ls_hasExpiredTry row = false).
Proof.
  unfold runBlocks. intros Hn. apply js_sort_nil in Hn.
  assert (forall x, x ∉ JSet.addAll (JSet.addAll [] (map sc_scopeId (filter_by (fun s => includes (sc_phase s) TRANSIENT) (scope_values c))))
    (map ls_scopeId (filter_by (fun row => (ls_state row ==? "open") && ls_hasExpiredTry row) (default [] (dc_locked c))))) as Hno
    by (rewrite Hn; intros x; apply not_elem_of_nil).
  setoid_rewrite elem_of_addAll in Hno. setoid_rewrite elem_of_addAll in Hno. split.
  - intros s Hs Ht. apply (Hno (sc_scopeId s)). left. right. apply elem_of_map. exists s. split; [done|].
    apply elem_of_filter_by. split; [done|by apply includes_true].
  - intros rows row -> Hr Ho. apply not_true_iff_false. intros He. apply (Hno (ls_scopeId row)). right.
    apply elem_of_map. exists row. split; [done|]. apply elem_of_filter_by. split; [done|].
    apply andb_true_iff. split; [by apply eqb_true|done].
Qed.
End Resume.

(** ** The theorems *)

(** What makes it safe to resume planning at [p] after the failure of [v]. *)
Record safe_replan (events : list StoredEvent) (v : string) (policy : RecoveryPolicy) (p : string) (d : BoundaryDecision) : Prop := {
  sr_planner : exists k seq, planner_above events v p k seq /\ bd_selectedSeq d = Some seq /\ backtrackFloor events <= seq;
  sr_authored : ruleAuthored events v = false;
  sr_episode : rh_episode (replanHistory events) < maxReplansPerEpisode policy;
  sr_counter : JMap.get_or 0 (rh_perPlanner (replanHistory events)) p < maxReplansPerPlanner policy;
  sr_closed : forall s, s ∈ JMap.values (scopeCancellations events) -> touches events p s ->
    sc_phase s = cancelled \/ sc_phase s = committed;
  sr_settled : forall s, s ∈ JMap.values (scopeCancellations events) -> sc_phase s <> suspended /\ sc_phase s ∉ TRANSIENT;
  sr_shadowed : bd_shadowed d = shadowSet events p;
  sr_cheapest : exists cost, bd_estimatedCost d = Some cost /\
    (forall x, x ∈ bd_candidates d -> bc_rejected x = None -> Num.lt (cost_of x) cost = false) /\
    (forall m, budgetRemaining policy = Some m -> Num.lt m cost = false)
}.

Lemma closed_phase ph : ph <> unmaterialized -> ph ∉ UNRECOVERABLE -> ph ∉ CANCELLABLE -> ph = cancelled \/ ph = committed.
Proof. unfold UNRECOVERABLE, CANCELLABLE. rewrite !elem_of_cons. destruct ph; tauto. Qed.

Lemma resumeAt_safe events v policy locked view cmp best depth d :
  ruleAuthored events v = false -> rh_episode (replanHistory events) < maxReplansPerEpisode policy ->
  (forall s, s ∈ JMap.values (scopeCancellations events) -> sc_phase s <> suspended) ->
  foldM (compareStep (contextOf events v policy locked) view) ([], None) (ancestorPlanners events v) = Ok cmp ->
  snd cmp = Some (best, depth) ->
  d = resumeAt (contextOf events v policy locked) (with_candidates (baseOf events v) (fst cmp)) best depth ->
  bd_action d = record -> safe_replan events v policy (bc_planner_vertex_id best) d.
Proof.
  intros Hra Hep Hsusp Hcmp Hbest Hd Hrec. apply comparison_correct in Hcmp as [_ _ Hb].
  specialize (Hb best depth Hbest) as [_ _ (p & scopes & priced & Hp & -> & Hv & Hpr & ->) Hcheap Hbud].
  rewrite Hd in Hrec. apply resumeAt_record in Hrec as (Hreq & _ & Hblk & _ & Hseq & Hsh & Hcost & Hcands & _).
  rewrite <- Hd in *. clear Hd.
  pose proof (price_fields _ _ _ _ _ Hpr) as (Hid & Hps & _ & Hnone & [cost Hc]).
  pose proof (requiring_fields scopes priced) as (Hid' & Hseq' & _ & Hcost').
  assert (scopes = []) as ->.
  { destruct scopes; [done|]. done. }
  apply verdictFor_legal in Hv as [[Hfl Hrec Hsave Hcnt] Hcan]. rewrite Hid', Hid in *.
  apply elem_of_ancestorPlanners in Hp as (k & Hk & Habove).
  apply runBlocks_nil in Hblk as [Htr _]. split.
  - exists k, (ap_seq p). rewrite Hseq, Hseq', Hps. done.
  - done.
  - done.
  - done.
  - intros s Hs Ht. apply closed_phase; [apply Ht|by apply Hrec|].
    intros Hcc. apply (not_elem_of_nil (sc_scopeId s)), Hcan. eauto.
  - auto.
  - done.
  - exists cost. assert (cost_of (requiring [] priced) = cost) as Hco by (unfold cost_of; cbn; by rewrite Hc).
    rewrite Hcost, Hcost', Hcands, <- Hco. split; [by rewrite Hco|]. split; [apply Hcheap|apply Hbud].
Qed.

Lemma selected_safe events v policy locked d p :
  selectBoundary events v policy locked = Ok d -> bd_selected d = Some p ->
  bd_action d = record /\ safe_replan events v policy p d.
Proof.
  intros Hd Hsel. apply selectBoundary_decided in Hd. destruct Hd as [rows reason _ _|base level reason Hb _|view cmp best depth Hra Hep Hsu Hv Hc Hbest].
  - done.
  - destruct (terminal_spec (contextOf events v policy locked) base level reason _ Hb eq_refl) as (Hn & _). congruence.
  - set (d := resumeAt _ _ _ _) in *.
    assert (blank (with_candidates (baseOf events v) (fst cmp))) as Hbl by apply with_candidates_blank, baseOf_blank.
    destruct (bd_action d) eqn:Ea.
    + split; [done|]. pose proof Ea as Ea'. unfold d in Ea'. apply resumeAt_record in Ea' as (_ & _ & _ & Hs & _).
      fold d in Hs. rewrite Hsel in Hs. injection Hs as ->. by eapply resumeAt_safe.
    + apply resumeAt_request in Ea as [Hn _]; [|done]. fold d in Hn. congruence.
    + apply resumeAt_wait in Ea as [Hn _]; [|done]. fold d in Hn. congruence.
Qed.

(** C1. A recorded replan is safe. Whatever boundary [selectBoundary] selects: it is a succeeded
    planner at or above the failure and not below the floor of the last passed pivot; no rule
    authored the failed work; the episode bound and the planner's own counter are not exhausted;
    every scope whose work would be discarded has finished cancelling or has committed; no scope of
    the run is suspended, fenced, being cancelled or at its pivot; the discard is the whole closed
    set; and the boundary is the cheapest of the selectable candidates and within the budget. *)
Theorem selectBoundary_safe events v policy locked d p :
  selectBoundary events v policy locked = Ok d -> bd_selected d = Some p ->
  bd_action d = record /\ safe_replan events v policy p d.
Proof. apply selected_safe. Qed.

(** What a decision of each action may carry. *)
Definition vocabulary (events : list StoredEvent) (d : BoundaryDecision) : Prop :=
  (bd_selected d = None -> bd_shadowed d = []) /\
  match bd_action d with
  | request => bd_requestScopes d <> [] /\ bd_awaitedScopes d = [] /\ bd_selected d = None /\
      forall id, id ∈ bd_requestScopes d ->
        exists s, JMap.get (scopeCancellations events) id = Some s /\ (sc_phase s = open \/ sc_phase s = fenced)
  | wait => bd_awaitedScopes d <> [] /\ bd_requestScopes d = [] /\ bd_selected d = None
  | record => bd_requestScopes d = [] /\ bd_awaitedScopes d = []
  end.

Lemma selectBoundary_vocabulary events v policy locked d :
  selectBoundary events v policy locked = Ok d -> vocabulary events d.
Proof.
  intros Hd. unfold vocabulary. apply selectBoundary_decided in Hd. destruct Hd as [rows reason _ Hne|base level reason Hb _|view cmp best depth Hra Hep Hsu Hv Hc Hbest].
  - done.
  - destruct (terminal_spec (contextOf events v policy locked) base level reason _ Hb eq_refl) as (Hn & _ & Hnil & _ & Hact).
    split; [done|]. destruct (bd_action _); [tauto| |tauto]. destruct Hact as (own & Hown & Hph & Hr & Ha). rewrite Hr.
    split_and!; [done..|]. intros id ->%list_elem_of_singleton. exists own. split; [|done].
    cbn [dc_ownScope contextOf] in Hown. unfold scopeOf in Hown. destruct (find _ _) as [e|]; [|done].
    destruct (sid e) as [s|]; [|done]. by rewrite (scopeCancellations_ids _ _ _ Hown).
  - set (d := resumeAt _ _ _ _) in *.
    assert (blank (with_candidates (baseOf events v) (fst cmp))) as Hbl by apply with_candidates_blank, baseOf_blank.
    split; [by apply resumeAt_unselected|]. destruct (bd_action d) eqn:Ea.
    + pose proof Ea as Ea'. apply resumeAt_record in Ea' as (_ & _ & _ & _ & _ & _ & _ & _ & Hr & Hw).
      fold d in Hr, Hw. rewrite Hr, Hw. done.
    + apply resumeAt_request in Ea as (? & ? & ? & ?); [|done]. done.
    + apply resumeAt_wait in Ea as (? & ? & ?); [|done]. done.
Qed.

(** Every decision keeps its own vocabulary: a request names at least one scope, each open or
    fenced in the log, and awaits none; a wait awaits at least one scope and requests none; a record
    does neither; and only a record selects a boundary or discards anything. *)
Theorem selectBoundary_actions events v policy locked d :
  selectBoundary events v policy locked = Ok d -> vocabulary events d.
Proof. apply selectBoundary_vocabulary. Qed.

(** ** What is recorded answers the failure *)

(** The row a draft becomes; positions and bookkeeping are the store's. *)
Definition stored_as (d : EventDraft) (e : StoredEvent) : Prop :=
  event_type e = d_event_type d /\ vertex_id e = d_vertex_id d /\ payload e = d_payload d.

Lemma selectBoundary_failed events v policy locked d :
  selectBoundary events v policy locked = Ok d -> bd_failedVertexId d = v.
Proof.
  intros Hd. apply selectBoundary_decided in Hd. destruct Hd as [|base level reason Hb Hv|view cmp best depth].
  - done.
  - destruct (terminal_spec (contextOf events v policy locked) base level reason _ Hb eq_refl) as (_ & _ & _ & Hf & _).
    by rewrite Hf.
  - unfold resumeAt. destruct (filter_by _ _); [|done]. destruct (js_sort _ _); [|done]. by destruct (runBlocks _).
Qed.

Lemma string_list_array l : Js.string_list (str_array l) = l.
Proof. unfold Js.string_list, str_array. induction l as [|x l IH]; cbn; [done|]. f_equal. exact IH. Qed.

(** The boundary event of a recorded decision. *)
Definition answers_with (v : string) (selected : option string) (e : StoredEvent) : Prop :=
  event_type e = replan_boundary /\ pstr e "failed_vertex_id" = Some v /\ pfield e "selected" = nullable selected.

Lemma replanEvents_stored d ev appended :
  Forall2 stored_as (replanEvents d ev) appended ->
  (exists e, e ∈ appended /\ answers_with (bd_failedVertexId d) (bd_selected d) e) /\
  (forall p, truthy (bd_selected d) = Some p -> exists e, e ∈ appended /\ event_type e = subgraph_shadowed /\
     pstrings e "vertex_ids" = bd_shadowed d) /\
  (forall e, e ∈ appended -> event_type e = replan_boundary \/ event_type e = subgraph_shadowed).
Proof.
  assert (forall t o e, stored_as {| d_event_type := replan_boundary; d_vertex_id := t; d_parent_refs := None; d_planner_id := None;
    d_scope_id := None; d_pin_version := None; d_ignorable := o; d_payload := boundaryPayload d ev |} e ->
    answers_with (bd_failedVertexId d) (bd_selected d) e) as Hb.
  { intros t o e (Ht & _ & Hp). unfold answers_with, pstr, pfield. rewrite Hp. split_and!; done. }
  unfold replanEvents. destruct (truthy (bd_selected d)) as [p|] eqn:Et; intros Hf.
  - apply Forall2_cons_inv_l in Hf as (e1 & l1 & H1 & Hf & ->). apply Forall2_cons_inv_l in Hf as (e2 & l2 & H2 & Hf & ->).
    apply Forall2_nil_inv_l in Hf as ->. split; [|split].
    + exists e1. split; [left|]. by eapply Hb.
    + intros q _. exists e2. split; [right; left|]. destruct H2 as (Ht & _ & Hp). split; [done|].
      unfold pstrings, pfield. rewrite Hp. apply string_list_array.
    + intros e. rewrite !elem_of_cons, elem_of_nil. intros [->|[->|?]]; [left; apply H1|right; apply H2|done].
  - apply Forall2_cons_inv_l in Hf as (e1 & l1 & H1 & Hf & ->). apply Forall2_nil_inv_l in Hf as ->. split; [|split].
    + exists e1. split; [left|]. by eapply Hb.
    + done.
    + intros e ->%list_elem_of_singleton. left. apply H1.
Qed.

Lemma parent_causes events a b : parent (created_map events) a b -> causes events b a.
Proof.
  unfold parent, parents_of. destruct (JMap.get (created_map events) a) as [e|] eqn:E; [|set_solver].
  apply by_vertex_get in E as (He & Ht & Hv). intros Hb. by exists e.
Qed.

Lemma nsteps_causes events k v p :
  nsteps (parent (created_map events)) k v p -> v <> p -> tc (causes events) p v.
Proof.
  intros Hk Hne. destruct k as [|k]; [by inversion Hk|]. clear Hne.
  revert v Hk. induction k as [|k IH]; intros v Hk.
  - apply nsteps_once_inv in Hk. by apply tc_once, parent_causes.
  - inversion Hk as [|? ? w ? Hvw Hwp]; subst. eapply tc_r; [by apply IH|]. by apply parent_causes.
Qed.

Lemma planner_id_nonempty events v p k seq : planner_above events v p k seq -> p <> "".
Proof.
  intros (_ & _ & e & He & _). apply by_vertex_get in He as (_ & _ & Hv). by apply vid_Some in Hv as [_ ?].
Qed.

Lemma outcome_of_appended v appended :
  (forall e, e ∈ appended -> event_type e = replan_boundary \/ event_type e = subgraph_shadowed) ->
  filter_by (outcome_of v) appended = [].
Proof.
  induction appended as [|e l IH]; intros Hall; [done|]. cbn.
  assert (outcome_of v e = false) as ->.
  { unfold outcome_of. destruct (Hall e ltac:(left)) as [-> | ->]; rewrite andb_false_r; done. }
  apply IH. intros x Hx. apply Hall. by right.
Qed.

Lemma recorded_settles events v policy locked d drafts appended :
  decideRecovery events v policy locked = Ok (d, drafts) -> bd_action d = record ->
  Forall2 stored_as drafts appended ->
  bd_selected d <> Some v \/ v ∉ unrecoveredFailures events ->
  v ∉ outstanding (events ++ appended).
Proof.
  intros Hdec Hrec Hst Hcase. unfold decideRecovery in Hdec. apply bind_Ok in Hdec as (d' & Hd & Hdec).
  assert (d' = d) as ->. { destruct (bd_action d'); [|apply bind_Ok in Hdec as (? & _ & Hdec)|]; congruence. }
  rewrite Hrec in Hdec. injection Hdec as Hdr. subst drafts.
  apply replanEvents_stored in Hst as ((b & Hb & Hbt & Hbf & Hbs) & Hshadow & Htypes).
  rewrite (selectBoundary_failed _ _ _ _ _ Hd) in *.
  unfold outstanding. rewrite elem_of_app, elem_of_stalled, elem_of_answeredPlanners, elem_of_unrecovered.
  intros [(Hne & (e & Hlast & Ht) & Hno)|[_ Hno]].
  2:{ apply Hno. exists b. rewrite elem_of_app. auto. }
  rewrite filter_by_app, (outcome_of_appended v appended), app_nil_r in Hlast by done.
  destruct (bd_selected d) as [p|] eqn:Es.
  2:{ apply Hno. exists b. rewrite elem_of_app. split; [auto|]. right. done. }
  apply (selected_safe _ _ _ _ _ p) in Hd as [_ Hsafe]; [|done].
  destruct Hsafe as [(k & seq & Habove & _) _ _ _ _ _ Hsh _].
  destruct (decide (p = v)) as [->|Hpv].
  - destruct Hcase as [?|Hcase]; [done|]. apply Hcase, elem_of_unrecovered. split; [done|]. split; [eauto|].
    intros (x & Hx & Ha). apply Hno. exists x. rewrite elem_of_app. auto.
  - destruct (Hshadow p) as (x & Hx & Hxt & Hxs).
    { apply planner_id_nonempty in Habove. by destruct p. }
    apply Hno. exists x. rewrite elem_of_app. split; [auto|]. left. split; [done|].
    rewrite Hxs, Hsh. apply elem_of_shadowSet. split.
    + destruct Habove as [Hk _]. by eapply nsteps_causes.
    + intros Hhid. apply elem_of_alreadyHidden in Hhid as (y & Hy & Hyt & Hyv).
      apply Hno. exists y. rewrite elem_of_app. split; [auto|]. left. done.
Qed.

(** A recorded decision answers the failure it is about: once its events are in the log, the
    failed vertex is no longer outstanding, neither as a stall nor (unless the vertex failed after
    its own success and is itself the boundary) as a failure. A request or a wait records neither. *)
Theorem recorded_answers events v policy locked d drafts appended :
  decideRecovery events v policy locked = Ok (d, drafts) -> bd_action d = record ->
  Forall2 stored_as drafts appended ->
  bd_selected d <> Some v \/ v ∉ unrecoveredFailures events ->
  v ∉ outstanding (events ++ appended).
Proof. apply recorded_settles. Qed.

(** ** Progress *)
Lemma slice_active view p : p ∈ JMap.keys (sf_vertices view) -> is_ok (slice view p) = true.
Proof. intros Hp. unfold slice. apply has_keys in Hp. by rewrite Hp. Qed.

Lemma comparison_total c view planners acc :
  (forall a, a ∈ planners -> ap_vertexId a ∈ JMap.keys (sf_vertices view)) ->
  is_ok (foldM (compareStep c view) acc planners) = true.
Proof.
  revert acc; induction planners as [|a l IH]; intros acc Hall; [done|]. cbn [foldM].
  assert (exists acc', compareStep c view acc a = Ok acc') as [acc' ->].
  { unfold compareStep. destruct (verdictFor a c); [by eexists|].
    unfold price. pose proof (slice_active view (ap_vertexId a) (Hall a ltac:(left))) as Hs.
    destruct (slice view (ap_vertexId a)); [|done]. cbn [mbind result_bind]. case_match; by eexists. }
  cbn [mbind result_bind]. apply IH. intros x Hx. apply Hall. by right.
Qed.

(** C34. The ladder always reaches a decision: on a log whose surface can be folded and whose planners
    above the failure are active, [decideRecovery] never throws, and what it appends is nothing
    exactly when it waits. *)
Theorem decideRecovery_total events v policy locked view :
  surface events = Ok view ->
  (forall a, a ∈ ancestorPlanners events v -> ap_vertexId a ∈ JMap.keys (sf_vertices view)) ->
  exists d drafts, decideRecovery events v policy locked = Ok (d, drafts) /\ (drafts = [] <-> bd_action d = wait).
Proof.
  intros Hv Hall.
  assert (exists d, selectBoundary events v policy locked = Ok d) as [d Hd].
  { unfold selectBoundary. cbn zeta. destruct (match locked with Some rows => _ | None => [] end); [|by eexists].
    destruct (ruleAuthored events v); [by eexists|]. destruct (_ <=? _); [by eexists|].
    destruct (map sc_scopeId _); [|by eexists]. rewrite Hv. cbn [mbind result_bind].
    pose proof (comparison_total (contextOf events v policy locked) view _ ([], None) Hall) as Hc.
    destruct (foldM _ _ _); [|done]. cbn [mbind result_bind]. by eexists. }
  pose proof (selectBoundary_vocabulary _ _ _ _ _ Hd) as [_ Hact]. unfold decideRecovery. rewrite Hd. cbn [mbind result_bind].
  exists d. destruct (bd_action d) eqn:Ea.
  - eexists. split; [done|]. split; [|done]. unfold replanEvents. by destruct (truthy _).
  - destruct Hact as (Hne & _). unfold cancelRequestEvent. rewrite Ea. destruct (bd_requestScopes d); [done|].
    eexists. split; [reflexivity|done].
  - by eexists.
Qed.

(** One attempt acts on the oldest outstanding failure that is not waiting: every failure before it
    waits, in order, and exactly its decision and its events are the outcome. When nothing acts, every
    outstanding failure waits. *)
Lemma attempt_first events policy locked a :
  attempt events policy locked = Ok a ->
  exists skipped rest, outstanding events = skipped ++ rest /\
    Forall2 (fun v d => bd_action d = wait /\ decideRecovery events v policy (Some locked) = Ok (d, [])) skipped (at_waiting a) /\
    match at_acted a with
    | Some d => exists v later drafts, rest = v :: later /\ bd_action d <> wait /\ at_drafts a = Some drafts /\
        decideRecovery events v policy (Some locked) = Ok (d, drafts)
    | None => rest = [] /\ at_drafts a = None
    end.
Proof.
  unfold attempt. set (Q := fun v d => _).
  enough (forall l waiting a, attemptFrom events policy locked waiting l = Ok a ->
    exists skipped rest ws, l = skipped ++ rest /\ at_waiting a = waiting ++ ws /\ Forall2 Q skipped ws /\
    match at_acted a with
    | Some d => exists v later drafts, rest = v :: later /\ bd_action d <> wait /\ at_drafts a = Some drafts /\
        decideRecovery events v policy (Some locked) = Ok (d, drafts)
    | None => rest = [] /\ at_drafts a = None
    end) as Hl.
  { intros Ha. apply Hl in Ha as (skipped & rest & ws & -> & Hw & Hf & Hm). exists skipped, rest.
    rewrite Hw. done. }
  clear a. induction l as [|v l IH]; intros waiting a Ha; cbn [attemptFrom] in Ha.
  - apply Ok_inj in Ha as <-. exists [], [], []. split_and!; try done. by rewrite app_nil_r.
  - apply bind_Ok in Ha as ([d drafts] & Hd & Ha). cbn [fst snd] in Ha. case_eqb.
    + apply IH in Ha as (skipped & rest & ws & -> & Hw & Hf & Hm). exists (v :: skipped), rest, (d :: ws).
      rewrite Hw, <- (assoc (++)). split; [done|]. split; [done|]. split; [|done]. constructor; [|done].
      split; [done|]. rewrite Hd. unfold decideRecovery in Hd. apply bind_Ok in Hd as (d' & _ & Hd).
      destruct (bd_action d') eqn:Ea; [congruence| |congruence]. apply bind_Ok in Hd as (? & _ & Hd). congruence.
    + apply Ok_inj in Ha as <-. exists [], (v :: l), []. split; [done|]. split; [by rewrite app_nil_r|]. split; [constructor|]. cbn.
      exists v, l, drafts. done.
Qed.
End Facts.

(** ** Concrete instances: a planner's tool call that failed *)
Definition failing_run : list StoredEvent :=
  [sample_event 1 run_start None [] None [];
   sample_event 2 subgraph_proposed None [] None [("source", VStr "submitted")];
   sample_event 3 subgraph_frozen None [] None [("proposed_seq", VNum (Num.of_Z 2))];
   sample_event 4 vertex_created (Some "p1") [] None [("role", VStr "planner")];
   sample_event 5 vertex_succeeded (Some "p1") [] None [];
   sample_event 6 subgraph_proposed None [] None [("source", VStr "submitted")];
   sample_event 7 subgraph_frozen None [] None [("proposed_seq", VNum (Num.of_Z 6))];
   sample_event 8 vertex_created (Some "t1") ["p1"] None [("role", VStr "tool-caller"); ("tool", VStr "hold")];
   sample_event 9 vertex_failed (Some "t1") [] None [("outcome", VStr "refused")]].

Definition sample_pricing : LlmPricing :=
  {| currency := "USD"; cache_hit_input_per_million := Num.of_Z 1; cache_miss_input_per_million := Num.of_Z 2;
     output_per_million := Num.of_Z 3; reference := "list"; tier := None |}.
Definition sample_policy : RecoveryPolicy := DEFAULT_RECOVERY_POLICY sample_pricing None.

#[local] Existing Instance code_unit_collation.

Definition failing_decision : BoundaryDecision * list EventDraft :=
  match decideRecovery failing_run "t1" sample_policy None with
  | Ok dd => dd
  | Throw _ => (baseOf failing_run "t1", [])
  end.

Lemma failing_decided : decideRecovery failing_run "t1" sample_policy None = Ok failing_decision.
Proof. vm_compute. reflexivity. Qed.

Lemma failing_selected : selectBoundary failing_run "t1" sample_policy None = Ok (fst failing_decision).
Proof. vm_compute. reflexivity. Qed.

Lemma selectBoundary_safe_witness :
  bd_selected (fst failing_decision) = Some "p1" /\ bd_shadowed (fst failing_decision) = ["t1"] /\
  safe_replan failing_run "t1" sample_policy "p1" (fst failing_decision).
Proof.
  split; [vm_compute; reflexivity|]. split; [vm_compute; reflexivity|].
  apply (selectBoundary_safe failing_run "t1" sample_policy None (fst failing_decision) "p1");
    [exact failing_selected|vm_compute; reflexivity].
Defined.

(** The same failure inside an open scope: its cancellation is asked for first. *)
Definition scoped (s : string) (e : StoredEvent) : StoredEvent :=
  {| run_id := run_id e; run_seq := run_seq e; global_seq := global_seq e; event_type := event_type e;
     vertex_id := vertex_id e; parent_refs := parent_refs e; planner_id := planner_id e; scope_id := Some s;
     pin_version := pin_version e; ignorable := ignorable e; inherited := inherited e; payload := payload e;
     created_at := created_at e |}.

Definition failing_in_scope : list StoredEvent :=
  take 7 failing_run ++
  [scoped "s1" (sample_event 8 vertex_created (Some "t1") ["p1"] None [("role", VStr "tool-caller"); ("tool", VStr "hold")]);
   scoped "s1" (sample_event 9 txn_scope None [] None [("state", VStr "open")]);
   scoped "s1" (sample_event 10 txn_try (Some "t1") [] None [("idempotency_key", VStr "k")]);
   scoped "s1" (sample_event 11 vertex_failed (Some "t1") [] None [("outcome", VStr "refused")])].

Definition scoped_decision : BoundaryDecision :=
  match selectBoundary failing_in_scope "t1" sample_policy None with Ok d => d | Throw _ => baseOf failing_run "t1" end.

Lemma scoped_selected : selectBoundary failing_in_scope "t1" sample_policy None = Ok scoped_decision.
Proof. vm_compute. reflexivity. Qed.

Lemma selectBoundary_actions_witness :
  bd_action scoped_decision = request /\ bd_requestScopes scoped_decision = ["s1"] /\
  match bd_action scoped_decision with
  | request => bd_selected scoped_decision = None
  | _ => False
  end.
Proof.
  split; [vm_compute; reflexivity|]. split; [vm_compute; reflexivity|].
  pose proof (selectBoundary_actions failing_in_scope "t1" sample_policy None scoped_decision scoped_selected) as [_ Ha].
  destruct (bd_action scoped_decision) eqn:E; [vm_compute in E; discriminate| |vm_compute in E; discriminate].
  apply Ha.
Defined.

(** The rows the two drafts of the recorded replan become. *)
Definition store_row (seq : Z) (d : EventDraft) : StoredEvent :=
  {| run_id := "r1"; run_seq := seq; global_seq := seq; event_type := d_event_type d; vertex_id := d_vertex_id d;
     parent_refs := default [] (d_parent_refs d); planner_id := d_planner_id d; scope_id := d_scope_id d;
     pin_version := d_pin_version d; ignorable := d_ignorable d; inherited := false; payload := d_payload d; created_at := "" |}.

Lemma recorded_answers_witness :
  outstanding failing_run = ["t1"] /\
  "t1" ∉ outstanding (failing_run ++ map (store_row 10) (snd failing_decision)).
Proof.
  split; [vm_compute; reflexivity|].
  apply (recorded_answers failing_run "t1" sample_policy None (fst failing_decision) (snd failing_decision)).
  - rewrite failing_decided. by destruct failing_decision.
  - vm_compute. reflexivity.
  - induction (snd failing_decision) as [|x l IH]; [constructor|]. constructor; [done|exact IH].
  - left. vm_compute. discriminate.
Defined.

Lemma decideRecovery_total_witness :
  exists view, surface failing_run = Ok view /\
    exists d drafts, decideRecovery failing_run "t1" sample_policy None = Ok (d, drafts) /\ (drafts = [] <-> bd_action d = wait).
Proof.
  eexists. split; [vm_compute; reflexivity|].
  eapply (decideRecovery_total failing_run "t1" sample_policy None); [vm_compute; reflexivity|].
  intros a Ha. apply list_elem_of_In in Ha. vm_compute in Ha. destruct Ha as [<-|[]].
  apply has_keys. vm_compute. reflexivity.
Defined.

Definition failing_attempt : Attempt :=
  match attempt failing_run sample_policy [] with Ok a => a | Throw _ => {| at_waiting := []; at_acted := None; at_drafts := None |} end.

Lemma failing_attempted : attempt failing_run sample_policy [] = Ok failing_attempt.
Proof. vm_compute. reflexivity. Qed.
