(* ===== verification/CheckRules.v ===== *)
(** * Check rules R1-R14 (engine/src/admission/check-rules.ts)

    The deterministic admission of a proposed sub-DAG: the tool registry, the graph context with its
    ancestor closure, the fourteen rules, and the freeze admission of a router's branches. The
    theorems are in CheckRulesFacts.v. *)

From S2P Require Import Prelude Collections Number Json Graph.

Inductive EffectClass : Type := e_none | e_bufferable | e_reversible | e_irreversible.
Inductive ToolMode : Type := m_plain | m_tcc | m_saga.
Inductive VertexKind : Type := k_planner | k_tool | k_router | k_barrier.

#[export] Instance EffectClass_eq_dec : EqDecision EffectClass.
Proof. solve_decision. Defined.
#[export] Instance ToolMode_eq_dec : EqDecision ToolMode.
Proof. solve_decision. Defined.
#[export] Instance VertexKind_eq_dec : EqDecision VertexKind.
Proof. solve_decision. Defined.

Record ToolDefinition : Type := {
  td_name : string;
  td_effectClass : EffectClass;
  td_mode : ToolMode;
  td_idempotentRetryable : bool;
  td_footprint : list string;
  td_writes : option (list string);
  td_compensateTool : option string;
  td_confirmTool : option string;
  td_cancelTool : option string;
  td_tryTimeoutS : option number
}.

Record ProposalVertex : Type := {
  pv_id : string;
  pv_parents : list string;
  pv_kind : VertexKind;
  pv_tool : option string;
  pv_scopeId : option string;
  pv_confirmedOutput : option bool;
  pv_templateRef : option string
}.

Record ProposalScope : Type := { ps_id : string; ps_members : list string }.
Record SubDagProposal : Type := { p_vertices : list ProposalVertex; p_scopes : list ProposalScope }.

Inductive RuleCode : Type := R1 | R2 | R3 | R4 | R5 | R6 | R7 | R8 | R9 | R10 | R11 | R12 | R13 | R14.
#[export] Instance RuleCode_eq_dec : EqDecision RuleCode.
Proof. solve_decision. Defined.

Record CheckViolation : Type := { rule : RuleCode; message : string; v_vertices : list string }.

Inductive SnapshotState : Type := s_open | s_half_open | s_committed | s_cancelled.
#[export] Instance SnapshotState_eq_dec : EqDecision SnapshotState.
Proof. solve_decision. Defined.

Inductive ScopeAdmissionBlock : Type :=
| b_fenced | b_cancelling | b_suspended | b_pivot_inflight | b_pivot_passed | b_expired_try.

Record ScopeSnapshot : Type := {
  ss_scopeId : string;
  ss_state : SnapshotState;
  ss_pivotCount : Z;
  ss_admissionBlock : option ScopeAdmissionBlock
}.

Inductive RouterPlacement : Type := at_savepoint | inside_scope.
#[export] Instance RouterPlacement_eq_dec : EqDecision RouterPlacement.
Proof. solve_decision. Defined.

Record CheckResult : Type := { accepted : bool; violations : list CheckViolation }.

Definition checkResult (vs : list CheckViolation) : CheckResult :=
  {| accepted := match vs with [] => true | _ => false end; violations := vs |}.

Definition unclosed (s : ScopeSnapshot) : bool := (ss_state s ==? s_open) || (ss_state s ==? s_half_open).

Definition derivePlacement (existingScopes : list ScopeSnapshot) : RouterPlacement :=
  if existsb unclosed existingScopes then inside_scope else at_savepoint.

Definition blockReason (b : ScopeAdmissionBlock) : string :=
  match b with
  | b_expired_try => "it holds a sealed try past its deadline"
  | b_fenced => "a member failed or a cancellation was requested, and it is fenced until that is decided"
  | b_pivot_inflight => "its pivot is inflight and its outcome is unresolved"
  | b_pivot_passed => "its pivot has passed, so it runs only work admitted before it"
  | b_cancelling => "it is cancelling"
  | b_suspended => "it is suspended"
  end.

Definition checkScopeAdmission (existingScopes : list ScopeSnapshot) : CheckResult :=
  checkResult (omap (fun s => (fun b => {| rule := R12; v_vertices := [];
    message := "scope " +:+ ss_scopeId s +:+ " admits no new work: " +:+ blockReason b |}) <$> ss_admissionBlock s) existingScopes).

(** ** ToolRegistry *)
Module ToolRegistry.
Abbreviation registry := (list (string * ToolDefinition)).

Definition register (r : registry) (d : ToolDefinition) : result registry :=
  if JMap.has r (td_name d) then Throw ("tool already registered: " +:+ td_name d)
  else Ok (JMap.set r (td_name d)
    {| td_name := td_name d; td_effectClass := td_effectClass d; td_mode := td_mode d;
       td_idempotentRetryable := td_idempotentRetryable d; td_footprint := td_footprint d;
       td_writes := Some (default [] (td_writes d)); td_compensateTool := td_compensateTool d;
       td_confirmTool := td_confirmTool d; td_cancelTool := td_cancelTool d; td_tryTimeoutS := td_tryTimeoutS d |}).

Definition get (r : registry) (name : string) : result ToolDefinition :=
  match JMap.get r name with Some d => Ok d | None => Throw ("unknown tool: " +:+ name) end.

Definition has (r : registry) (name : string) : bool := JMap.has r name.

(** [companion?.idempotentRetryable] of a named companion tool. *)
Definition retryable (r : registry) (name : option string) : bool :=
  match truthy name with
  | Some n => match JMap.get r n with Some d => td_idempotentRetryable d | None => false end
  | None => false
  end.

Definition positive (t : option number) : bool :=
  match t with Some n => Num.lt (Num.of_Z 0) n | None => false end.

Definition validateOne (r : registry) (d : ToolDefinition) : list CheckViolation :=
  (if (td_mode d ==? m_saga) && negb (retryable r (td_compensateTool d))
   then [{| rule := R4; message := td_name d +:+ " requires a registered idempotent compensation tool"; v_vertices := [] |}] else []) ++
  (if (td_mode d ==? m_tcc) &&
      (negb (retryable r (td_confirmTool d)) || negb (retryable r (td_cancelTool d)) || negb (positive (td_tryTimeoutS d)))
   then [{| rule := R6; message := td_name d +:+ " requires idempotent confirm/cancel tools and a positive timeout"; v_vertices := [] |}] else []).

Definition validate (r : registry) : list CheckViolation := flat_map (validateOne r) (JMap.values r).
End ToolRegistry.

(** ** The graph context *)
Record GraphContext : Type := {
  gc_vertices : list (string * ProposalVertex);
  gc_tools : list (string * ToolDefinition);
  gc_ancestors : list (string * list string);
  gc_descendants : list (string * list string);
  gc_scopeMembers : list (string * list string)
}.

Definition intersects (first second : list string) : bool := existsb (fun v => includes v first) second.

Definition isUndoable (t : ToolDefinition) : bool :=
  (td_effectClass t ==? e_none) || (td_effectClass t ==? e_bufferable) || (td_mode t ==? m_tcc) ||
  match truthy (td_compensateTool t) with Some _ => true | None => false end.

Definition kind_name (k : VertexKind) : string :=
  match k with k_planner => "planner" | k_tool => "tool" | k_router => "router" | k_barrier => "confirmation-barrier" end.

Section Build.
Context (vertices : list (string * ProposalVertex)).

Definition parents_at (id : string) : list string :=
  match JMap.get vertices id with Some v => pv_parents v | None => [] end.

(** [visitAncestors]: memoised in [ancestors], and a vertex on its own path is a cycle. The path holds
    distinct known vertices, so it is never longer than the map; the fuel never runs out first. *)
Fixpoint visitAncestors (fuel : nat) (ancestors : list (string * list string)) (visiting : list string) (id : string)
    : result (list string * list (string * list string)) :=
  match JMap.get ancestors id with
  | Some cached => Ok (cached, ancestors)
  | None =>
      match fuel with
      | O => Throw ("proposal contains a cycle at " +:+ id)
      | S fuel =>
          if JSet.has visiting id then Throw ("proposal contains a cycle at " +:+ id) else
          st ← foldM (fun st parent =>
                 if negb (JMap.has vertices parent) then Throw ("unknown parent " +:+ parent +:+ " for " +:+ id) else
                 let result := JSet.add (fst st) parent in
                 ra ← visitAncestors fuel (snd st) (visiting ++ [id]) parent;
                 Ok (JSet.addAll result (fst ra), snd ra)) ([], ancestors) (parents_at id);
          Ok (fst st, JMap.set (snd st) id (fst st))
      end
  end.

Definition allAncestors : result (list (string * list string)) :=
  foldM (fun anc id => ra ← visitAncestors (S (length vertices)) anc [] id; Ok (snd ra)) [] (JMap.keys vertices).
End Build.

Definition addTool (registry : ToolRegistry.registry) (tools : list (string * ToolDefinition)) (v : ProposalVertex) : result (list (string * ToolDefinition)) :=
  match pv_kind v, truthy (pv_tool v) with
  | k_tool, Some name => d ← ToolRegistry.get registry name; Ok (JMap.set tools (pv_id v) d)
  | k_tool, None => Ok tools
  | k, Some _ => Throw (pv_id v +:+ " is a " +:+ kind_name k +:+ " and must not name a tool")
  | _, None => Ok tools
  end.

Definition addDescendants (descendants : list (string * list string)) (entry : string * list string) : list (string * list string) :=
  fold_left (fun ds ancestor => JMap.set ds ancestor (JSet.add (JMap.get_or [] ds ancestor) (fst entry))) (snd entry) descendants.

Definition vertex_map (p : SubDagProposal) : list (string * ProposalVertex) :=
  JMap.of_entries (map (fun v => (pv_id v, v)) (p_vertices p)).

Definition buildContext (p : SubDagProposal) (registry : ToolRegistry.registry) : result GraphContext :=
  let vertices := vertex_map p in
  tools ← foldM (addTool registry) [] (p_vertices p);
  ancestors ← allAncestors vertices;
  Ok {| gc_vertices := vertices; gc_tools := tools; gc_ancestors := ancestors;
        gc_descendants := fold_left addDescendants ancestors (map (fun id => (id, [])) (JMap.keys vertices));
        gc_scopeMembers := JMap.of_entries (map (fun s => (ps_id s, JSet.of_list (ps_members s))) (p_scopes p)) |}.

Section Rules.
Context (c : GraphContext) (proposal : SubDagProposal) (existingScopes : list ScopeSnapshot).

(** [context.ancestors.get(a)?.has(b)] and the like. *)
Definition ancestorOf (a b : string) : bool := JSet.has (JMap.get_or [] (gc_ancestors c) a) b.
Definition descendantOf (a b : string) : bool := JSet.has (JMap.get_or [] (gc_descendants c) a) b.
Definition members_of (scopeId : string) : list string := JMap.get_or [] (gc_scopeMembers c) scopeId.

Definition pivotIds : list string :=
  map fst (filter_by (fun p => td_effectClass (snd p) ==? e_irreversible) (gc_tools c)).

Definition hasConfirmationBarrier (pivots : list string) : bool :=
  existsb (fun v => (pv_kind v ==? k_barrier) && (2 <=? length (pv_parents v))%nat &&
                    forallb (fun pivotId => ancestorOf pivotId (pv_id v)) pivots) (JMap.values (gc_vertices c)).

Definition viol (r : RuleCode) (m : string) (vs : list string) : CheckViolation := {| rule := r; message := m; v_vertices := vs |}.

(** The unordered pairs of a list, in the order of the nested index loops. *)
Fixpoint pairs {A} (l : list A) : list (A * A) :=
  match l with [] => [] | x :: xs => map (fun y => (x, y)) xs ++ pairs xs end.

Definition ruleR10 : list CheckViolation :=
  flat_map (fun p => match JMap.get (gc_vertices c) (fst p) with
                     | Some v => match truthy (pv_scopeId v) with
                                 | None => if td_effectClass (snd p) !=? e_none
                                           then [viol R10 (fst p +:+ " has a side effect but no scope") [fst p]] else []
                                 | Some _ => [] end
                     | None => [] end) (gc_tools c).

Definition scope_pivots (s : ProposalScope) : list string :=
  filter_by (fun id => JSet.has (members_of (ps_id s)) id) pivotIds.

(** R2 and R1 for one member around one pivot. *)
Definition memberRules (pivotId memberId : string) : list CheckViolation :=
  match JMap.get (gc_tools c) memberId with
  | None => []
  | Some t =>
      (if ancestorOf pivotId memberId && (td_effectClass t !=? e_none) && negb (isUndoable t)
       then [viol R2 (memberId +:+ " is not undoable before pivot " +:+ pivotId) [memberId; pivotId]] else []) ++
      (if descendantOf pivotId memberId && negb (td_idempotentRetryable t)
       then [viol R1 (memberId +:+ " is not retry-safe after pivot " +:+ pivotId) [pivotId; memberId]] else [])
  end.

(** R11 for one predecessor of one pivot. *)
Definition footprintRule (s : ProposalScope) (pivotId ancestorId : string) : list CheckViolation :=
  match JMap.get (gc_tools c) ancestorId, JMap.get (gc_tools c) pivotId with
  | Some a, Some p =>
      if (td_effectClass a ==? e_reversible) && intersects (td_footprint a) (td_footprint p) &&
         negb (JSet.has (members_of (ps_id s)) ancestorId)
      then [viol R11 (ps_id s +:+ " omits required predecessor " +:+ ancestorId) [ancestorId; pivotId]] else []
  | _, _ => []
  end.

Definition scopeRules (s : ProposalScope) : list CheckViolation :=
  let ps := scope_pivots s in
  (if (1 <? length ps)%nat then [viol R3 (ps_id s +:+ " contains more than one pivot") ps] else []) ++
  flat_map (fun pivotId =>
    flat_map (memberRules pivotId) (members_of (ps_id s)) ++
    flat_map (footprintRule s pivotId) (JMap.get_or [] (gc_ancestors c) pivotId)) ps.

Definition routerIds : list string :=
  map pv_id (filter_by (fun v => pv_kind v ==? k_router) (JMap.values (gc_vertices c))).

Definition snapshotRules (s : ProposalScope) : list CheckViolation :=
  (match find (fun x => ss_state x ==? s_half_open) existingScopes with
   | Some h => if negb (includes (ps_id s) (map ss_scopeId existingScopes))
               then [viol R12 (ps_id s +:+ " opens a fresh scope inside half-open scope " +:+ ss_scopeId h) (ps_members s)] else []
   | None => []
   end) ++
  (match find (fun x => ss_scopeId x ==? ps_id s) existingScopes with
   | Some x => if 1 <? ss_pivotCount x + Z.of_nat (length (scope_pivots s))
               then [viol R3 (ps_id s +:+ " already holds a pivot in this run's scope snapshot") (scope_pivots s)] else []
   | None => []
   end).

Definition placementRules : list CheckViolation :=
  match routerIds with [] => [] | _ => flat_map snapshotRules (p_scopes proposal) end.

Definition ruleR5 : list CheckViolation :=
  flat_map (fun fs => let '(first, second) := fs in
    if negb (ancestorOf first second) && negb (ancestorOf second first) && negb (hasConfirmationBarrier [first; second])
    then [viol R5 ("parallel pivots " +:+ first +:+ " and " +:+ second +:+ " require a confirmation barrier") [first; second]] else [])
  (pairs pivotIds).

Definition edgeR7 (childId : string) (child : ProposalVertex) (parentId : string) : list CheckViolation :=
  match JMap.get (gc_vertices c) parentId with
  | None => []
  | Some parent =>
      if negb (pv_kind parent ==? k_tool) then [] else
      match truthy (pv_scopeId parent), truthy (pv_scopeId child) with
      | Some a, Some b =>
          if (a !=? b) && negb (match JMap.get (gc_tools c) parentId with Some t => td_effectClass t ==? e_none | None => false end) &&
             negb (default false (pv_confirmedOutput parent))
          then [viol R7 (childId +:+ " reads an unconfirmed cross-scope output from " +:+ parentId) [parentId; childId]] else []
      | _, _ => []
      end
  end.

Definition ruleR7 : list CheckViolation :=
  flat_map (fun kv => flat_map (edgeR7 (fst kv) (snd kv)) (pv_parents (snd kv))) (gc_vertices c).

Definition edgeR14 (childId parentId : string) : list CheckViolation :=
  match JMap.get (gc_vertices c) parentId with
  | Some parent => if pv_kind parent ==? k_tool
                   then [viol R14 (parentId +:+ " has planner " +:+ childId +:+ " as a direct successor without an interposed router") [parentId; childId]] else []
  | None => []
  end.

Definition ruleR14 : list CheckViolation :=
  flat_map (fun kv => if pv_kind (snd kv) ==? k_planner then flat_map (edgeR14 (fst kv)) (pv_parents (snd kv)) else []) (gc_vertices c).

Definition memberR12 (kv : string * ProposalVertex) : list CheckViolation :=
  let '(vertexId, v) := kv in
  if (pv_kind v ==? k_tool) || (pv_kind v ==? k_barrier) then [] else
  (match truthy (pv_scopeId v) with
   | Some _ => [viol R12 (vertexId +:+ " is a " +:+ kind_name (pv_kind v) +:+ " and may not declare a transaction scope") [vertexId]]
   | None => [] end) ++
  flat_map (fun s => if includes vertexId (ps_members s)
                     then [viol R12 (vertexId +:+ " is a " +:+ kind_name (pv_kind v) +:+ " and may not be a member of scope " +:+ ps_id s) [vertexId]]
                     else []) (p_scopes proposal).

Definition ruleR12 : list CheckViolation := flat_map memberR12 (gc_vertices c).

Definition ruleR8 : list CheckViolation :=
  flat_map (fun pivotId =>
    let pivotScope := match JMap.get (gc_vertices c) pivotId with Some v => pv_scopeId v | None => None end in
    flat_map (fun descendantId =>
      match JMap.get (gc_vertices c) descendantId, JMap.get (gc_tools c) descendantId with
      | Some d, Some t =>
          if (pv_scopeId d ==? pivotScope) && (td_effectClass t ==? e_none) &&
             match JMap.get_or [] (gc_descendants c) descendantId with [] => false | _ => true end
          then [viol R8 (descendantId +:+ " is a read dependency on the post-pivot recovery path") [pivotId; descendantId]] else []
      | _, _ => []
      end) (JMap.get_or [] (gc_descendants c) pivotId)) pivotIds.

Definition relatedPivots (firstId secondId : string) : list string :=
  filter_by (fun pivotId => (pivotId ==? firstId) || (pivotId ==? secondId) ||
                            descendantOf firstId pivotId || descendantOf secondId pivotId) pivotIds.

Definition protectedByBarrier (firstId secondId : string) : bool :=
  existsb (fun v => (pv_kind v ==? k_barrier) && ancestorOf (pv_id v) firstId && ancestorOf (pv_id v) secondId &&
                    forallb (fun pivotId => ancestorOf pivotId (pv_id v)) (relatedPivots firstId secondId)) (JMap.values (gc_vertices c)).

Definition pairR9 (first second : string * ToolDefinition) : list CheckViolation :=
  let '(firstId, firstTool) := first in
  let '(secondId, secondTool) := second in
  if negb (intersects (default [] (td_writes firstTool)) (default [] (td_writes secondTool))) then [] else
  if ancestorOf firstId secondId || ancestorOf secondId firstId then [] else
  match relatedPivots firstId secondId with
  | [] => []
  | _ => if protectedByBarrier firstId secondId then []
         else [viol R9 (firstId +:+ " and " +:+ secondId +:+ " have conflicting parallel writes before a pivot") [firstId; secondId]]
  end.

Definition ruleR9 : list CheckViolation := flat_map (fun fs => pairR9 (fst fs) (snd fs)) (pairs (gc_tools c)).

(** Every [add] of [checkSubDag], in order. *)
Definition ruleCalls : list CheckViolation :=
  ruleR10 ++ flat_map scopeRules (p_scopes proposal) ++ placementRules ++ ruleR5 ++ ruleR7 ++ ruleR14 ++ ruleR12 ++ ruleR8 ++ ruleR9.
End Rules.

Definition nul : string := String (Ascii.ascii_of_nat 0) "".

(** [add]: one violation per rule and vertex list. *)
Definition add (vs : list CheckViolation) (v : CheckViolation) : list CheckViolation :=
  if existsb (fun x => (rule x ==? rule v) && (join nul (v_vertices x) ==? join nul (v_vertices v))) vs then vs else vs ++ [v].

Definition checkSubDag (proposal : SubDagProposal) (registry : ToolRegistry.registry) (existingScopes : list ScopeSnapshot) : result CheckResult :=
  c ← buildContext proposal registry;
  Ok (checkResult (fold_left add (ruleCalls c proposal existingScopes) (ToolRegistry.validate registry))).

(** ** Freeze admission of a router's branches *)
Record SlotPlacementContext : Type := {
  sp_placement : RouterPlacement;
  sp_isReadOnlyContext : bool;
  sp_roleToolView : ToolRegistry.registry
}.

Record AdmissibleBranch : Type := {
  ab_condition : string;
  ab_subDag : SubDagProposal;
  ab_opensScope : bool;
  ab_hasPivot : bool;
  ab_maxEffect : EffectClass
}.

Section Freeze.
Context (slot : SlotPlacementContext) (existingScopes : list ScopeSnapshot).

Definition missingTools (b : AdmissibleBranch) : list (ProposalVertex * string) :=
  omap (fun v => match pv_kind v, truthy (pv_tool v) with
                 | k_tool, Some t => if ToolRegistry.has (sp_roleToolView slot) t then None else Some (v, t)
                 | _, _ => None end) (p_vertices (ab_subDag b)).

Definition placementViolations (index : string) (b : AdmissibleBranch) : list CheckViolation :=
  match sp_placement slot with
  | inside_scope =>
      (if ab_opensScope b then [viol R12 ("branch " +:+ index +:+ " cannot open a fresh scope inside an active one") []] else []) ++
      match find (fun s => ss_state s ==? s_half_open) existingScopes with
      | Some active => if ab_hasPivot b && (0 <? ss_pivotCount active)
                       then [viol R3 ("branch " +:+ index +:+ " introduces a second pivot into scope " +:+ ss_scopeId active) []] else []
      | None => []
      end
  | at_savepoint =>
      if (ab_maxEffect b !=? e_none) && negb (ab_opensScope b)
      then [viol R10 ("branch " +:+ index +:+ " has a side effect but declares no scope") []] else []
  end.

Definition branchViolations (ib : nat * AdmissibleBranch) : result (list CheckViolation) :=
  let '(i, b) := ib in
  let index := nstr i in
  if sp_isReadOnlyContext slot && (ab_maxEffect b !=? e_none)
  then Ok [viol R10 ("branch " +:+ index +:+ " emits a side effect in a read-only slot") []] else
  match missingTools b with
  | (_ :: _) as missing =>
      Ok (map (fun vt => viol R13 ("branch " +:+ index +:+ " references " +:+ snd vt +:+ ", absent from this run's role-scoped tool view")
                              [pv_id (fst vt)]) missing)
  | [] =>
      r ← checkSubDag (ab_subDag b) (sp_roleToolView slot) existingScopes;
      Ok (placementViolations index b ++
          map (fun v => viol (rule v) ("branch " +:+ index +:+ ": " +:+ message v) (v_vertices v)) (violations r))
  end.

Definition checkFreezeAdmission (branches : list AdmissibleBranch) : result CheckResult :=
  let placement := match sp_placement slot, find unclosed existingScopes with
                   | at_savepoint, Some u =>
                       [viol R13 ("router slot declares at_savepoint while ancestor scope " +:+ ss_scopeId u +:+ " is unclosed") []]
                   | _, _ => []
                   end in
  vs ← mapR branchViolations (entries branches);
  Ok (checkResult (placement ++ concat vs)).
End Freeze.
