(* ===== verification/CheckRulesFacts.v ===== *)
(** * Correctness of the check rules

    The ancestor closure of [buildContext] is the transitive closure of the parent relation and
    exists exactly for acyclic proposals with known parents; [checkSubDag] accepts exactly the
    proposals that satisfy the rules stated over that closure. *)

From S2P Require Import Prelude Collections Number Json Graph CheckRules.

(** ** The ancestor closure *)
Section Closure.
Context (vertices : list (string * ProposalVertex)).

(** [b] is a declared parent of the vertex [a]. *)
Definition up (a b : string) : Prop := b ∈ parents_at vertices a.

(** Everything at or above [id] is known and on no cycle. *)
Definition good (id : string) : Prop :=
  forall x, rtc up id x -> x ∈ JMap.keys vertices /\ ~ tc up x x.

Definition closure_of (id : string) (s : list string) : Prop := forall x, x ∈ s <-> tc up id x.

Definition cache_ok (anc : list (string * list string)) : Prop :=
  forall id s, (id, s) ∈ anc -> good id /\ closure_of id s.

Lemma elem_of_set {V} (m : list (string * V)) k v p : p ∈ JMap.set m k v -> p = (k, v) \/ p ∈ m.
Proof.
  induction m as [|[k' v'] m IH]; cbn [JMap.set].
  - rewrite list_elem_of_singleton. auto.
  - case_eqb; rewrite !elem_of_cons; [subst|]; naive_solver.
Qed.

Lemma tc_up_inv id x : tc up id x <-> exists p, up id p /\ (x = p \/ tc up p x).
Proof.
  split.
  - inversion 1; subst; eauto.
  - intros (p & Hp & [->|Hx]); [by apply tc_once|]. by eapply tc_l.
Qed.

Lemma good_parent id p : good id -> up id p -> good p.
Proof. intros Hg Hp x Hx. apply Hg. eapply rtc_l; [exact Hp|done]. Qed.

Lemma good_of_parents id :
  id ∈ JMap.keys vertices -> (forall p, up id p -> good p) -> good id.
Proof.
  intros Hid Hps x Hx. destruct (rtc_inv _ _ Hx) as [->|(p & Hp & Hpx)].
  - split; [done|]. intros Hcyc. apply tc_up_inv in Hcyc as (p & Hp & Hpx).
    apply (Hps p Hp p (rtc_refl _ _)). destruct Hpx as [->|Hpx]; [by apply tc_once|by eapply tc_r].
  - by apply (Hps p Hp).
Qed.

Definition grows (anc anc' : list (string * list string)) : Prop :=
  forall k s, JMap.get anc k = Some s -> JMap.get anc' k = Some s.

(** What a successful visit returns. *)
Definition visit_ok (id : string) (anc : list (string * list string)) (r : list string * list (string * list string)) : Prop :=
  cache_ok (snd r) /\ grows anc (snd r) /\ JMap.get (snd r) id = Some (fst r) /\ good id /\ closure_of id (fst r).

Lemma visit_sound fuel anc visiting id r :
  id ∈ JMap.keys vertices -> cache_ok anc -> visitAncestors vertices fuel anc visiting id = Ok r -> visit_ok id anc r.
Proof.
  revert anc visiting id r; induction fuel as [|fuel IH]; intros anc visiting id r Hid Hc Hv; cbn [visitAncestors] in Hv;
    destruct (JMap.get anc id) as [s|] eqn:Eg.
  1,3: apply Ok_inj in Hv as <-; destruct (Hc id s (get_Some_elem _ _ _ Eg)); unfold visit_ok, grows; cbn [fst snd]; split_and!; done.
  { done. }
  destruct (JSet.has visiting id); [done|]. apply bind_Ok in Hv as ([res anc2] & Hf & Hv). apply Ok_inj in Hv as <-.
  cbn [fst snd] in *.
  assert (cache_ok anc2 /\ grows anc anc2 /\ (forall p, p ∈ parents_at vertices id -> good p) /\
    forall x, x ∈ res <-> exists p, p ∈ parents_at vertices id /\ (x = p \/ tc up p x)) as (Hc2 & Hg2 & Hgood & Hres).
  { apply (foldM_prefix_inv (fun pre (st : list string * list (string * list string)) =>
      cache_ok (snd st) /\ grows anc (snd st) /\ (forall p, p ∈ pre -> good p) /\
      forall x, x ∈ fst st <-> exists p, p ∈ pre /\ (x = p \/ tc up p x))) in Hf; [exact Hf| |].
    - cbn. split; [done|]. split; [by intros ?|]. split; [set_solver|]. intros x. set_solver.
    - intros pre p [r0 a0] [r1 a1] (Hc0 & Hg0 & Hgd & Hr0) Hs. cbn [fst snd] in *.
      destruct (JMap.has vertices p) eqn:Ep; [|done]. cbn [negb] in Hs. apply has_keys in Ep.
      apply bind_Ok in Hs as ([s a2] & Hv & Hs). injection Hs as <- <-. cbn [fst snd].
      apply IH in Hv as (Hca & Hga & Hget & Hgp & Hcl); [|done|done]. cbn [fst snd] in *.
      split; [done|]. split; [intros k t Hk; by apply Hga, Hg0|]. setoid_rewrite elem_of_app.
      setoid_rewrite list_elem_of_singleton. split; [intros q [?| ->]; auto|].
      intros x. rewrite elem_of_addAll, elem_of_add, Hr0, (Hcl x). naive_solver. }
  assert (good id) as Hgid by (apply good_of_parents; done).
  assert (closure_of id res) as Hcl by (intros x; rewrite Hres, tc_up_inv; done).
  unfold visit_ok. cbn [fst snd]. split_and!; [|intros k t Hk|apply get_set_eq|done|done].
  - intros k t Hk. apply elem_of_set in Hk as [[= -> ->]|Hk]; [done|by apply Hc2].
  - rewrite get_set. case_eqb; [subst; congruence|by apply Hg2].
Qed.

Lemma visit_complete fuel anc visiting id :
  good id -> cache_ok anc -> NoDup visiting ->
  (forall w, w ∈ visiting -> w ∈ JMap.keys vertices /\ tc up w id) ->
  (length vertices < fuel + length visiting)%nat ->
  exists r, visitAncestors vertices fuel anc visiting id = Ok r.
Proof.
  revert anc visiting id; induction fuel as [|fuel IH]; intros anc visiting id Hg Hc Hnd Hvis Hlen; cbn [visitAncestors].
  - destruct (JMap.get anc id); [by eexists|]. exfalso.
    assert (length visiting <= length (JMap.keys vertices))%nat; [|unfold JMap.keys in *; rewrite length_map in *; lia].
    apply submseteq_length, NoDup_submseteq; [done|]. intros w Hw. by apply Hvis.
  - destruct (JMap.get anc id); [by eexists|].
    destruct (JSet.has visiting id) eqn:Eh.
    { exfalso. apply JSet_has_true, Hvis in Eh as [_ Hcyc]. by apply (Hg id (rtc_refl _ _)) in Hcyc. }
    apply JSet_has_false in Eh.
    enough (forall ps st, (forall p, p ∈ ps -> up id p) -> cache_ok (snd st) -> exists st', foldM (fun st parent =>
      if negb (JMap.has vertices parent) then Throw ("unknown parent " +:+ parent +:+ " for " +:+ id) else
      ra ← visitAncestors vertices fuel (snd st) (visiting ++ [id]) parent;
      Ok (JSet.addAll (JSet.add (fst st) parent) (fst ra), snd ra)) st ps = Ok st') as Hfold.
    { destruct (Hfold (parents_at vertices id) ([], anc)) as [st' Hst']; [done|done|]. rewrite Hst'. by eexists. }
    induction ps as [|p ps IHp]; intros st Hps Hst; [by eexists|]. cbn [foldM].
    assert (up id p) as Hp by (apply Hps; left).
    destruct (Hg p) as [Hpk _]; [by apply rtc_once|]. apply has_keys in Hpk as Hpk'. rewrite Hpk'. cbn [negb].
    destruct (IH (snd st) (visiting ++ [id]) p) as [ra Hra].
    + by eapply good_parent.
    + done.
    + apply NoDup_app. split; [done|]. split; [|apply NoDup_singleton]. intros w Hw ->%list_elem_of_singleton. done.
    + intros w. rewrite elem_of_app, list_elem_of_singleton. intros [Hw| ->].
      * split; [by apply Hvis|]. eapply tc_r; [by apply Hvis|done].
      * split; [apply (Hg id (rtc_refl _ _))|by apply tc_once].
    + rewrite length_app. cbn. lia.
    + rewrite Hra. cbn [mbind result_bind].
      apply visit_sound in Hra as (Hca & _); [|done|done]. apply IHp; [intros q Hq; apply Hps; by right|done].
Qed.

(** All ancestor sets of a proposal's vertices. *)
Lemma allAncestors_sound anc :
  allAncestors vertices = Ok anc ->
  cache_ok anc /\ forall id, id ∈ JMap.keys vertices -> is_Some (JMap.get anc id).
Proof.
  unfold allAncestors. intros Hf.
  enough (forall ids, (forall id, id ∈ ids -> id ∈ JMap.keys vertices) -> forall anc0 anc, cache_ok anc0 ->
    foldM (fun anc id => ra ← visitAncestors vertices (S (length vertices)) anc [] id; Ok (snd ra)) anc0 ids = Ok anc ->
    cache_ok anc /\ grows anc0 anc /\ forall id, id ∈ ids -> is_Some (JMap.get anc id)) as Hall.
  { destruct (Hall (JMap.keys vertices) (fun id H => H) [] anc) as (? & _ & ?); [intros ? ? ?%elem_of_nil; done|done|done]. }
  clear Hf anc. induction ids as [|id ids IH]; intros Hids anc0 anc Hc Hf; cbn [foldM] in Hf.
  - apply Ok_inj in Hf as <-. split; [done|]. split; [by intros ?|set_solver].
  - apply bind_Ok in Hf as (a1 & H1 & Hf). apply bind_Ok in H1 as (ra & Hv & H1). apply Ok_inj in H1 as <-.
    apply visit_sound in Hv as (Hc1 & Hg1 & Hget & _); [|apply Hids; left|done].
    apply IH in Hf as (Hca & Hga & Hsome); [|intros x Hx; apply Hids; by right|done].
    split; [done|]. split; [intros k s Hk; by apply Hga, Hg1|]. intros x. rewrite elem_of_cons.
    intros [->|Hx]; [|by apply Hsome]. apply Hga in Hget. by eexists.
Qed.

Lemma allAncestors_complete :
  (forall id, id ∈ JMap.keys vertices -> good id) -> exists anc, allAncestors vertices = Ok anc.
Proof.
  intros Hgood. unfold allAncestors.
  enough (forall ids anc0, (forall id, id ∈ ids -> id ∈ JMap.keys vertices) -> cache_ok anc0 -> exists anc,
    foldM (fun anc id => ra ← visitAncestors vertices (S (length vertices)) anc [] id; Ok (snd ra)) anc0 ids = Ok anc) as Hall
    by (apply Hall; [done|intros ? ? ?%elem_of_nil; done]).
  induction ids as [|id ids IH]; intros anc0 Hids Hc; [by eexists|]. cbn [foldM].
  destruct (visit_complete (S (length vertices)) anc0 [] id) as [ra Hra];
    [apply Hgood, Hids; left|done|constructor|set_solver|cbn; lia|].
  rewrite Hra. cbn [mbind result_bind]. apply visit_sound in Hra as (Hc1 & _); [|apply Hids; left|done].
  apply IH; [intros x Hx; apply Hids; by right|done].
Qed.
End Closure.

(** ** The context of a proposal *)
Section ContextFacts.
Context (P : SubDagProposal) (reg : ToolRegistry.registry) (c : GraphContext).
Hypothesis Hbuild : buildContext P reg = Ok c.

Let above := up (gc_vertices c).

Lemma context_ancestors :
  gc_vertices c = vertex_map P /\ allAncestors (gc_vertices c) = Ok (gc_ancestors c) /\
  gc_descendants c = fold_left addDescendants (gc_ancestors c) (map (fun id => (id, [])) (JMap.keys (gc_vertices c))).
Proof.
  unfold buildContext in Hbuild. apply bind_Ok in Hbuild as (tools & _ & Hb).
  apply bind_Ok in Hb as (anc & Ha & Hb). apply Ok_inj in Hb as <-. done.
Qed.

Lemma context_good id : id ∈ JMap.keys (gc_vertices c) -> good (gc_vertices c) id.
Proof.
  destruct context_ancestors as (_ & Ha & _). apply allAncestors_sound in Ha as [Hc Hsome].
  intros Hid. destruct (Hsome id Hid) as [s Hs]. by apply get_Some_elem, Hc in Hs as [Hg _].
Qed.

Lemma up_known a b : above a b -> a ∈ JMap.keys (gc_vertices c).
Proof.
  unfold above, up, parents_at. destruct (JMap.get (gc_vertices c) a) eqn:E; [|set_solver].
  intros _. apply get_is_Some. by eexists.
Qed.

Lemma tc_known a b : tc above a b -> a ∈ JMap.keys (gc_vertices c) /\ b ∈ JMap.keys (gc_vertices c).
Proof.
  intros Hab. assert (a ∈ JMap.keys (gc_vertices c)) as Ha.
  { apply (tc_up_inv (gc_vertices c)) in Hab as (p & Hp & _). by eapply up_known. }
  split; [done|]. apply (context_good a Ha). by apply tc_rtc.
Qed.

Lemma ancestors_elem a b :
  b ∈ JMap.get_or [] (gc_ancestors c) a <-> tc above a b.
Proof.
  destruct context_ancestors as (_ & Ha & _). apply allAncestors_sound in Ha as [Hc Hsome].
  unfold JMap.get_or. destruct (JMap.get (gc_ancestors c) a) as [s|] eqn:E; cbn.
  - apply get_Some_elem, Hc in E as [_ Hcl]. apply Hcl.
  - split; [by intros ?%elem_of_nil|]. intros Hab. apply tc_known in Hab as [Ha _].
    destruct (Hsome a Ha) as [s Hs]. congruence.
Qed.

Lemma ancestorOf_iff a b : ancestorOf c a b = true <-> tc above a b.
Proof. unfold ancestorOf. rewrite JSet_has_true. apply ancestors_elem. Qed.

Lemma ancestorOf_false a b : ancestorOf c a b = false <-> ~ tc above a b.
Proof. rewrite <- ancestorOf_iff. by destruct (ancestorOf c a b). Qed.

Lemma addDescendants_elem entry ds a x :
  x ∈ JMap.get_or [] (addDescendants ds entry) a <-> x ∈ JMap.get_or [] ds a \/ (x = fst entry /\ a ∈ snd entry).
Proof.
  unfold addDescendants. destruct entry as [id vs]. cbn [fst snd].
  revert ds; induction vs as [|v vs IH]; intros ds; cbn [fold_left]; [set_solver|].
  rewrite IH. unfold JMap.get_or at 1. rewrite get_set, elem_of_cons. case_eqb; cbn.
  - subst. rewrite elem_of_add. naive_solver.
  - unfold JMap.get_or. naive_solver.
Qed.

Lemma descendants_elem a x : x ∈ JMap.get_or [] (gc_descendants c) a <-> tc above x a.
Proof.
  destruct context_ancestors as (_ & Ha & ->). pose proof (ancestors_elem x a) as Hanc.
  apply allAncestors_sound in Ha as [Hc Hsome].
  assert (forall l ds, x ∈ JMap.get_or [] (fold_left addDescendants l ds) a <->
    x ∈ JMap.get_or [] ds a \/ exists vs, (x, vs) ∈ l /\ a ∈ vs) as Hfold.
  { induction l as [|e l IH]; intros ds; cbn [fold_left]; [set_solver|]. rewrite IH, addDescendants_elem.
    setoid_rewrite elem_of_cons. destruct e as [k vs]. cbn. naive_solver. }
  rewrite Hfold. split.
  - intros [Hx|(vs & Hin & Hav)].
    + exfalso. revert Hx. unfold JMap.get_or.
      assert (forall ids : list string, default [] (JMap.get (map (fun id => (id, @nil string)) ids) a) = []) as ->.
      { induction ids as [|i ids IH]; [done|]. cbn [map]. rewrite get_cons. by case_eqb. }
      by intros ?%elem_of_nil.
    + by apply Hc in Hin as [_ Hcl]; apply Hcl.
  - intros Hxa. right. apply Hanc in Hxa. unfold JMap.get_or in Hxa.
    destruct (JMap.get (gc_ancestors c) x) as [s|] eqn:E; cbn in Hxa; [|by apply elem_of_nil in Hxa].
    exists s. split; [by apply get_Some_elem|done].
Qed.

Lemma descendantOf_iff a x : descendantOf c a x = true <-> tc above x a.
Proof. unfold descendantOf. rewrite JSet_has_true. apply descendants_elem. Qed.
End ContextFacts.

(** ** The rules, declaratively *)
Definition vertex_at (c : GraphContext) (id : string) (v : ProposalVertex) : Prop := JMap.get (gc_vertices c) id = Some v.
Definition tool_at (c : GraphContext) (id : string) (t : ToolDefinition) : Prop := JMap.get (gc_tools c) id = Some t.
Definition pivot (c : GraphContext) (id : string) : Prop := exists t, tool_at c id t /\ td_effectClass t = e_irreversible.
Definition member (c : GraphContext) (s : ProposalScope) (id : string) : Prop := id ∈ members_of c (ps_id s).
(** [b] is a (strict) ancestor of [a]. *)
Definition above (c : GraphContext) : string -> string -> Prop := tc (up (gc_vertices c)).

Record admissible (c : GraphContext) (P : SubDagProposal) (reg : ToolRegistry.registry) (ex : list ScopeSnapshot) : Prop := {
  adm_R4 : forall d, d ∈ JMap.values reg -> td_mode d = m_saga -> ToolRegistry.retryable reg (td_compensateTool d) = true;
  adm_R6 : forall d, d ∈ JMap.values reg -> td_mode d = m_tcc ->
    ToolRegistry.retryable reg (td_confirmTool d) = true /\ ToolRegistry.retryable reg (td_cancelTool d) = true /\
    ToolRegistry.positive (td_tryTimeoutS d) = true;
  adm_R10 : forall id t v, tool_at c id t -> vertex_at c id v -> td_effectClass t <> e_none -> is_Some (truthy (pv_scopeId v));
  adm_R3 : forall s p q, s ∈ p_scopes P -> pivot c p -> pivot c q -> member c s p -> member c s q -> p = q;
  adm_R2 : forall s p m t, s ∈ p_scopes P -> pivot c p -> member c s p -> member c s m -> tool_at c m t ->
    above c p m -> td_effectClass t <> e_none -> isUndoable t = true;
  adm_R1 : forall s p m t, s ∈ p_scopes P -> pivot c p -> member c s p -> member c s m -> tool_at c m t ->
    above c m p -> td_idempotentRetryable t = true;
  adm_R11 : forall s p a ta tp, s ∈ p_scopes P -> pivot c p -> member c s p -> above c p a -> tool_at c a ta -> tool_at c p tp ->
    td_effectClass ta = e_reversible -> intersects (td_footprint ta) (td_footprint tp) = true -> member c s a;
  adm_placement : routerIds c <> [] -> forall s, s ∈ p_scopes P ->
    ((exists x, x ∈ ex /\ ss_state x = s_half_open) -> ps_id s ∈ map ss_scopeId ex) /\
    (forall x, find (fun x => ss_scopeId x ==? ps_id s) ex = Some x -> ss_pivotCount x + Z.of_nat (length (scope_pivots c s)) <= 1);
  adm_R5 : forall p q, pivot c p -> pivot c q -> p <> q -> above c p q \/ above c q p \/
    exists b, b ∈ JMap.values (gc_vertices c) /\ pv_kind b = k_barrier /\ (2 <= length (pv_parents b))%nat /\
      above c p (pv_id b) /\ above c q (pv_id b);
  adm_R7 : forall child cv parent pv a b, vertex_at c child cv -> parent ∈ pv_parents cv -> vertex_at c parent pv ->
    pv_kind pv = k_tool -> truthy (pv_scopeId pv) = Some a -> truthy (pv_scopeId cv) = Some b -> a <> b ->
    (exists t, tool_at c parent t /\ td_effectClass t = e_none) \/ default false (pv_confirmedOutput pv) = true;
  adm_R14 : forall child cv parent pv, vertex_at c child cv -> pv_kind cv = k_planner -> parent ∈ pv_parents cv ->
    vertex_at c parent pv -> pv_kind pv <> k_tool;
  adm_R12 : forall id v, vertex_at c id v -> pv_kind v = k_planner \/ pv_kind v = k_router ->
    truthy (pv_scopeId v) = None /\ forall s, s ∈ p_scopes P -> id ∉ ps_members s;
  adm_R8 : forall p pv d dv t, pivot c p -> vertex_at c p pv -> above c d p -> vertex_at c d dv -> tool_at c d t ->
    pv_scopeId dv = pv_scopeId pv -> td_effectClass t = e_none -> forall x, ~ above c x d;
  adm_R9 : forall f tf s ts, tool_at c f tf -> tool_at c s ts -> f <> s ->
    intersects (default [] (td_writes tf)) (default [] (td_writes ts)) = true -> ~ above c f s -> ~ above c s f ->
    (exists p, pivot c p /\ (p = f \/ p = s \/ above c p f \/ above c p s)) ->
    exists b, b ∈ JMap.values (gc_vertices c) /\ pv_kind b = k_barrier /\ above c (pv_id b) f /\ above c (pv_id b) s /\
      forall p, pivot c p -> p = f \/ p = s \/ above c p f \/ above c p s -> above c p (pv_id b)
}.

(** ** Each rule is empty exactly when its clause holds *)
Lemma app_eq_nil_iff {A} (l1 l2 : list A) : l1 ++ l2 = [] <-> l1 = [] /\ l2 = [].
Proof. split; [apply app_eq_nil|by intros [-> ->]]. Qed.

Lemma flat_map_nil {A B} (f : A -> list B) l : flat_map f l = [] <-> forall x, x ∈ l -> f x = [].
Proof.
  induction l as [|x l IH]; cbn; [set_solver|]. rewrite app_eq_nil_iff, IH. setoid_rewrite elem_of_cons. naive_solver.
Qed.

Lemma if_nil {A} (b : bool) (x : A) : (if b then [x] else []) = [] <-> b = false.
Proof. by destruct b. Qed.

Section RuleFacts.
Context (P : SubDagProposal) (reg : ToolRegistry.registry) (ex : list ScopeSnapshot) (c : GraphContext).
Hypothesis Hbuild : buildContext P reg = Ok c.

Lemma NoDup_vertices : NoDup (JMap.keys (gc_vertices c)).
Proof. destruct (context_ancestors P reg c Hbuild) as (-> & _). apply NoDup_keys_of_entries. Qed.

Lemma NoDup_tools : NoDup (JMap.keys (gc_tools c)).
Proof.
  unfold buildContext in Hbuild. apply bind_Ok in Hbuild as (tools & Ht & Hb).
  apply bind_Ok in Hb as (anc & _ & Hb). apply Ok_inj in Hb as <-. cbn [gc_tools].
  apply (foldM_inv (fun m : list (string * ToolDefinition) => NoDup (JMap.keys m))) in Ht; [done|constructor|].
  intros m v m' _ Hm Hs.
  unfold addTool in Hs. destruct (pv_kind v), (truthy (pv_tool v)); try (apply Ok_inj in Hs as <-; done); try done.
  apply bind_Ok in Hs as (d & _ & Hs). apply Ok_inj in Hs as <-. by apply NoDup_keys_set.
Qed.

Lemma elem_vertices id v : (id, v) ∈ gc_vertices c <-> vertex_at c id v.
Proof. split; [apply get_elem, NoDup_vertices|apply get_Some_elem]. Qed.

Lemma elem_tools id t : (id, t) ∈ gc_tools c <-> tool_at c id t.
Proof. split; [apply get_elem, NoDup_tools|apply get_Some_elem]. Qed.

Lemma tool_vertex id t : tool_at c id t -> exists v, vertex_at c id v.
Proof.
  intros Ht. destruct (context_ancestors P reg c Hbuild) as (Hv & _).
  enough (id ∈ JMap.keys (gc_vertices c)) as Hk by (apply get_is_Some in Hk as [v Hk]; by exists v).
  rewrite Hv. unfold vertex_map. rewrite keys_of_entries, map_map. cbn.
  unfold buildContext in Hbuild. apply bind_Ok in Hbuild as (tools & Hf & Hb).
  apply bind_Ok in Hb as (anc & _ & Hb). apply Ok_inj in Hb as <-. unfold tool_at in Ht. cbn [gc_tools] in Ht.
  assert (forall k, k ∈ JMap.keys tools -> k ∈ map pv_id (p_vertices P)) as Hall.
  { refine (foldM_prefix_inv (fun pre (m : list (string * ToolDefinition)) => forall k, k ∈ JMap.keys m -> k ∈ map pv_id pre)
      (addTool reg) [] (p_vertices P) tools _ _ Hf); [set_solver|].
    intros pre v m m' Hm Hs k Hk. rewrite map_app, elem_of_app. cbn. rewrite list_elem_of_singleton.
    unfold addTool in Hs. destruct (pv_kind v), (truthy (pv_tool v)); try done; try (apply Ok_inj in Hs as <-; auto).
    apply bind_Ok in Hs as (d & _ & Hs). apply Ok_inj in Hs as <-. apply keys_set in Hk as [->|Hk]; auto. }
  apply Hall, get_is_Some. by eexists.
Qed.

Lemma elem_of_pivotIds id : id ∈ pivotIds c <-> pivot c id.
Proof.
  unfold pivotIds, pivot. rewrite elem_of_map. setoid_rewrite elem_of_filter_by. split.
  - intros ([k t] & -> & Hin & He). cbn in *. apply elem_tools in Hin. bool_prop. eauto.
  - intros (t & Ht & He). exists (id, t). split; [done|]. split; [by apply elem_tools|by apply eqb_true].
Qed.

Lemma NoDup_pivotIds : NoDup (pivotIds c).
Proof.
  unfold pivotIds. pose proof NoDup_tools as Hnd. unfold JMap.keys in Hnd. induction (gc_tools c) as [|[k t] l IH]; [constructor|].
  cbn in *. apply NoDup_cons in Hnd as [Hk Hnd]. destruct (td_effectClass t ==? e_irreversible); cbn; [|by apply IH].
  apply NoDup_cons. split; [|by apply IH]. rewrite elem_of_map in *. setoid_rewrite elem_of_filter_by. naive_solver.
Qed.

Lemma R10_nil : ruleR10 c = [] <->
  forall id t v, tool_at c id t -> vertex_at c id v -> td_effectClass t <> e_none -> is_Some (truthy (pv_scopeId v)).
Proof.
  unfold ruleR10. rewrite flat_map_nil. split.
  - intros Hall id t v Ht Hv He. specialize (Hall (id, t) (proj2 (elem_tools _ _) Ht)). cbn [fst snd] in Hall.
    unfold vertex_at in Hv. rewrite Hv in Hall. destruct (truthy (pv_scopeId v)); [by eexists|].
    apply if_nil in Hall. by bool_prop.
  - intros Hall [id t] Hin. apply elem_tools in Hin. cbn [fst snd].
    destruct (JMap.get (gc_vertices c) id) as [v|] eqn:Ev; [|done].
    destruct (truthy (pv_scopeId v)) eqn:Es; [done|]. apply if_nil. rewrite neqb_false.
    destruct (decide (td_effectClass t = e_none)); [done|]. destruct (Hall id t v Hin Ev n) as [? Hs]. congruence.
Qed.

Lemma elem_scope_pivots s p : p ∈ scope_pivots c s <-> pivot c p /\ member c s p.
Proof. unfold scope_pivots. rewrite elem_of_filter_by, elem_of_pivotIds, JSet_has_true. done. Qed.

Lemma short_list {A} (l : list A) : NoDup l -> (length l <= 1)%nat <-> forall x y, x ∈ l -> y ∈ l -> x = y.
Proof.
  intros Hnd. split.
  - destruct l as [|a [|b l]]; cbn; intros Hl x y; [set_solver| |lia].
    rewrite !list_elem_of_singleton. congruence.
  - intros Hall. destruct l as [|a [|b l]]; cbn; [lia|lia|]. apply NoDup_cons in Hnd as [Hn _].
    rewrite (Hall a b) in Hn by set_solver. set_solver.
Qed.

Lemma R3_nil s : (if (1 <? length (scope_pivots c s))%nat then [viol R3 (ps_id s +:+ " contains more than one pivot") (scope_pivots c s)] else []) = [] <->
  forall p q, pivot c p -> pivot c q -> member c s p -> member c s q -> p = q.
Proof.
  rewrite if_nil, Nat.ltb_ge, short_list by (apply NoDup_filter_by, NoDup_pivotIds).
  setoid_rewrite elem_scope_pivots. naive_solver.
Qed.

Lemma member_nil p m : memberRules c p m = [] <-> forall t, tool_at c m t ->
  (above c p m -> td_effectClass t <> e_none -> isUndoable t = true) /\ (above c m p -> td_idempotentRetryable t = true).
Proof.
  unfold memberRules, tool_at. destruct (JMap.get (gc_tools c) m) as [t|]; [|naive_solver].
  rewrite app_eq_nil_iff, !if_nil. split.
  - intros [H2 H1] t' [= <-]. split.
    + intros Ha He. apply (ancestorOf_iff P reg c Hbuild) in Ha. rewrite Ha in H2. apply neqb_true in He. rewrite He in H2.
      cbn in H2. by bool_prop.
    + intros Ha. apply (descendantOf_iff P reg c Hbuild) in Ha. rewrite Ha in H1. cbn in H1. by bool_prop.
  - intros Hall. destruct (Hall t eq_refl) as [H2 H1]. split.
    + destruct (ancestorOf c p m) eqn:Ea; [|done]. apply (ancestorOf_iff P reg c Hbuild) in Ea.
      destruct (td_effectClass t !=? e_none) eqn:En; [|done]. apply neqb_true in En. by rewrite H2.
    + destruct (descendantOf c p m) eqn:Ea; [|done]. apply (descendantOf_iff P reg c Hbuild) in Ea. by rewrite H1.
Qed.

Lemma footprint_nil s p a : footprintRule c s p a = [] <-> forall ta tp, tool_at c a ta -> tool_at c p tp ->
  td_effectClass ta = e_reversible -> intersects (td_footprint ta) (td_footprint tp) = true -> member c s a.
Proof.
  unfold footprintRule, tool_at. destruct (JMap.get (gc_tools c) a) as [ta|]; [|naive_solver].
  destruct (JMap.get (gc_tools c) p) as [tp|]; [|naive_solver]. rewrite if_nil. unfold member. split.
  - intros Hf ta' tp' [= <-] [= <-] He Hi. apply eqb_true in He. rewrite He, Hi in Hf. cbn in Hf.
    bool_prop. by apply JSet_has_true.
  - intros Hall. destruct (td_effectClass ta ==? e_reversible) eqn:He; [|done]. apply eqb_true_1 in He.
    destruct (intersects _ _) eqn:Hi; [|done]. cbn. apply negb_false_iff, JSet_has_true. by eapply Hall.
Qed.

Lemma scopeRules_nil : flat_map (scopeRules c) (p_scopes P) = [] <->
  (forall s p q, s ∈ p_scopes P -> pivot c p -> pivot c q -> member c s p -> member c s q -> p = q) /\
  (forall s p m, s ∈ p_scopes P -> pivot c p -> member c s p -> member c s m -> memberRules c p m = []) /\
  (forall s p a, s ∈ p_scopes P -> pivot c p -> member c s p -> above c p a -> footprintRule c s p a = []).
Proof.
  rewrite flat_map_nil. unfold scopeRules. setoid_rewrite app_eq_nil_iff. setoid_rewrite R3_nil.
  setoid_rewrite flat_map_nil. setoid_rewrite app_eq_nil_iff. setoid_rewrite flat_map_nil.
  setoid_rewrite elem_scope_pivots. setoid_rewrite (ancestors_elem P reg c Hbuild). unfold above, member.
  split.
  - intros Hall. split_and!; intros; [eapply Hall|eapply Hall|eapply Hall]; eauto.
  - intros (H3 & Hm & Hf) s Hs. split; [intros; by eapply H3|]. intros p [Hp Hmem]. split; intros; [by eapply Hm|by eapply Hf].
Qed.

Lemma placement_nil : placementRules c P ex = [] <-> (routerIds c <> [] -> forall s, s ∈ p_scopes P ->
    ((exists x, x ∈ ex /\ ss_state x = s_half_open) -> ps_id s ∈ map ss_scopeId ex) /\
    (forall x, find (fun x => ss_scopeId x ==? ps_id s) ex = Some x -> ss_pivotCount x + Z.of_nat (length (scope_pivots c s)) <= 1)).
Proof.
  unfold placementRules. destruct (routerIds c) as [|r rs]; [naive_solver|]. rewrite flat_map_nil.
  enough (forall s, snapshotRules c ex s = [] <-> ((exists x, x ∈ ex /\ ss_state x = s_half_open) -> ps_id s ∈ map ss_scopeId ex) /\
    (forall x, find (fun x => ss_scopeId x ==? ps_id s) ex = Some x -> ss_pivotCount x + Z.of_nat (length (scope_pivots c s)) <= 1)) as Hs.
  { setoid_rewrite Hs. naive_solver. }
  intros s. unfold snapshotRules. rewrite app_eq_nil_iff.
  assert (match find (fun x => ss_state x ==? s_half_open) ex with
   | Some h => if negb (includes (ps_id s) (map ss_scopeId ex))
               then [viol R12 (ps_id s +:+ " opens a fresh scope inside half-open scope " +:+ ss_scopeId h) (ps_members s)] else []
   | None => [] end = [] <-> ((exists x, x ∈ ex /\ ss_state x = s_half_open) -> ps_id s ∈ map ss_scopeId ex)) as ->.
  { destruct (find _ ex) as [h|] eqn:Ef.
    - apply find_Some in Ef as [Hh He]. bool_prop. rewrite if_nil, negb_false_iff, includes_true. naive_solver.
    - rewrite find_None in Ef. split; [|done]. intros _ (x & Hx & Hst). specialize (Ef x Hx). by bool_prop. }
  destruct (find (fun x => ss_scopeId x ==? ps_id s) ex) as [x|]; [|naive_solver].
  rewrite if_nil, Z.ltb_ge. naive_solver.
Qed.

Lemma elem_of_pairs {A} (l : list A) x y : (x, y) ∈ pairs l -> x ∈ l /\ y ∈ l.
Proof.
  induction l as [|a l IH]; cbn; [set_solver|]. rewrite elem_of_app, elem_of_map. intros [(z & [= -> ->] & Hz)|Hp].
  - set_solver.
  - apply IH in Hp. set_solver.
Qed.

(** A symmetric condition over all pairs is one over all distinct entries. *)
Lemma pairs_all {A B} (key : A -> B) (Q : A -> A -> Prop) (l : list A) :
  NoDup (map key l) -> (forall x y, Q x y -> Q y x) ->
  (forall xy, xy ∈ pairs l -> Q (fst xy) (snd xy)) <-> (forall x y, x ∈ l -> y ∈ l -> key x <> key y -> Q x y).
Proof.
  intros Hnd Hsym. induction l as [|a l IH]; cbn; [set_solver|]. cbn in Hnd. apply NoDup_cons in Hnd as [Ha Hnd].
  specialize (IH Hnd). rewrite elem_of_map in Ha. split.
  - intros Hall x y. rewrite !elem_of_cons.
    assert (forall z, z ∈ l -> Q a z) as Hq.
    { intros z Hz. apply (Hall (a, z)). rewrite elem_of_app, elem_of_map. left. eauto. }
    assert (forall x y, x ∈ l -> y ∈ l -> key x <> key y -> Q x y) as Hl.
    { apply IH. intros xy Hxy. apply Hall. rewrite elem_of_app. auto. }
    intros [->|Hx] [->|Hy] Hne; auto; congruence.
  - intros Hall [x y]. rewrite elem_of_app, elem_of_map. intros [(z & [= -> ->] & Hz)|Hp]; cbn.
    + apply Hall; [left|right; done|]. intros Hk. apply Ha. eauto.
    + apply (proj2 IH) in Hp; [done|]. intros u v Hu Hv. apply Hall; by right.
Qed.

Definition barrier_between (p q : string) : Prop :=
  exists b, b ∈ JMap.values (gc_vertices c) /\ pv_kind b = k_barrier /\ (2 <= length (pv_parents b))%nat /\
    above c p (pv_id b) /\ above c q (pv_id b).

Lemma hasBarrier_iff p q : hasConfirmationBarrier c [p; q] = true <-> barrier_between p q.
Proof.
  unfold hasConfirmationBarrier, barrier_between. rewrite existsb_true.
  split; intros (b & Hb & H); exists b; (split; [done|]).
  - bool_prop. cbn [forallb] in *. bool_prop.
    repeat match goal with H : ancestorOf c _ _ = true |- _ => apply (ancestorOf_iff P reg c Hbuild) in H end.
    match goal with H : (2 <=? _)%nat = true |- _ => apply Nat.leb_le in H end. done.
  - destruct H as (Hk & Hl & H1 & H2). apply eqb_true in Hk. rewrite Hk. apply Nat.leb_le in Hl. rewrite Hl. cbn.
    apply (ancestorOf_iff P reg c Hbuild) in H1, H2. by rewrite H1, H2.
Qed.

Lemma R5_nil : ruleR5 c = [] <-> forall p q, pivot c p -> pivot c q -> p <> q -> above c p q \/ above c q p \/ barrier_between p q.
Proof.
  unfold ruleR5. rewrite flat_map_nil.
  transitivity (forall xy, xy ∈ pairs (pivotIds c) ->
    above c (fst xy) (snd xy) \/ above c (snd xy) (fst xy) \/ barrier_between (fst xy) (snd xy)).
  { split; intros Hall [p q] Hin; specialize (Hall (p, q) Hin); cbn in *.
    - apply if_nil in Hall. destruct (ancestorOf c p q) eqn:E1; [left; by apply (ancestorOf_iff P reg c Hbuild)|].
      destruct (ancestorOf c q p) eqn:E2; [right; left; by apply (ancestorOf_iff P reg c Hbuild)|].
      cbn in Hall. bool_prop. right. right. by apply hasBarrier_iff.
    - apply if_nil. destruct Hall as [Ha|[Ha|Ha]].
      + apply (ancestorOf_iff P reg c Hbuild) in Ha. by rewrite Ha.
      + apply (ancestorOf_iff P reg c Hbuild) in Ha. rewrite Ha. by rewrite andb_false_r.
      + apply hasBarrier_iff in Ha. rewrite Ha. by rewrite andb_false_r. }
  rewrite (pairs_all id (fun p q => above c p q \/ above c q p \/ barrier_between p q)).
  - setoid_rewrite elem_of_pivotIds. naive_solver.
  - rewrite map_id. apply NoDup_pivotIds.
  - unfold barrier_between. naive_solver.
Qed.

Lemma R7_nil : ruleR7 c = [] <-> forall child cv parent pv a b, vertex_at c child cv -> parent ∈ pv_parents cv -> vertex_at c parent pv ->
    pv_kind pv = k_tool -> truthy (pv_scopeId pv) = Some a -> truthy (pv_scopeId cv) = Some b -> a <> b ->
    (exists t, tool_at c parent t /\ td_effectClass t = e_none) \/ default false (pv_confirmedOutput pv) = true.
Proof.
  unfold ruleR7. rewrite flat_map_nil. split.
  - intros Hall child cv parent pv a b Hc Hin Hp Hk Ha Hb Hne. specialize (Hall (child, cv) (proj2 (elem_vertices _ _) Hc)).
    cbn [fst snd] in Hall. rewrite flat_map_nil in Hall. specialize (Hall parent Hin). unfold edgeR7, vertex_at, tool_at in *.
    rewrite Hp, Hk, Ha, Hb in Hall. apply eqb_true in Hk. cbn in Hall. apply if_nil in Hall. apply neqb_true in Hne. rewrite Hne in Hall.
    cbn in Hall. destruct (JMap.get (gc_tools c) parent) as [t|].
    + destruct (td_effectClass t ==? e_none) eqn:E; [bool_prop; eauto|]. cbn in Hall. bool_prop. auto.
    + cbn in Hall. bool_prop. auto.
  - intros Hall [child cv] Hc. apply elem_vertices in Hc. cbn [fst snd]. apply flat_map_nil. intros parent Hin.
    unfold edgeR7. destruct (JMap.get (gc_vertices c) parent) as [pv|] eqn:Hp; [|done].
    destruct (pv_kind pv ==? k_tool) eqn:Hk; [|done]. cbn [negb]. apply eqb_true_1 in Hk.
    destruct (truthy (pv_scopeId pv)) as [a|] eqn:Ha; [|done]. destruct (truthy (pv_scopeId cv)) as [b|] eqn:Hb; [|done].
    apply if_nil. destruct (a !=? b) eqn:Hne; [|done]. apply neqb_true in Hne. cbn.
    destruct (Hall child cv parent pv a b Hc Hin Hp Hk Ha Hb Hne) as [(t & Ht & He)|Hco].
    + unfold tool_at in Ht. rewrite Ht. apply eqb_true in He. by rewrite He.
    + rewrite Hco. by rewrite andb_false_r.
Qed.

Lemma R14_nil : ruleR14 c = [] <-> forall child cv parent pv, vertex_at c child cv -> pv_kind cv = k_planner -> parent ∈ pv_parents cv ->
    vertex_at c parent pv -> pv_kind pv <> k_tool.
Proof.
  unfold ruleR14. rewrite flat_map_nil. split.
  - intros Hall child cv parent pv Hc Hk Hin Hp Ht. specialize (Hall (child, cv) (proj2 (elem_vertices _ _) Hc)). cbn [fst snd] in Hall.
    apply eqb_true in Hk. rewrite Hk in Hall. rewrite flat_map_nil in Hall. specialize (Hall parent Hin).
    unfold edgeR14, vertex_at in *. rewrite Hp in Hall. apply eqb_true in Ht. by rewrite Ht in Hall.
  - intros Hall [child cv] Hc. apply elem_vertices in Hc. cbn [fst snd]. destruct (pv_kind cv ==? k_planner) eqn:Hk; [|done].
    apply eqb_true_1 in Hk. apply flat_map_nil. intros parent Hin. unfold edgeR14.
    destruct (JMap.get (gc_vertices c) parent) as [pv|] eqn:Hp; [|done]. apply if_nil, eqb_false. by apply (Hall child cv parent pv).
Qed.

Lemma R12_nil : ruleR12 c P = [] <-> forall id v, vertex_at c id v -> pv_kind v = k_planner \/ pv_kind v = k_router ->
    truthy (pv_scopeId v) = None /\ forall s, s ∈ p_scopes P -> id ∉ ps_members s.
Proof.
  unfold ruleR12. rewrite flat_map_nil.
  assert (forall id v, memberR12 P (id, v) = [] <-> (pv_kind v = k_planner \/ pv_kind v = k_router ->
    truthy (pv_scopeId v) = None /\ forall s, s ∈ p_scopes P -> id ∉ ps_members s)) as Hm.
  { intros id v. unfold memberR12. destruct (pv_kind v) eqn:Hk;
      match goal with |- context [(if ?b then _ else _) = []] => let b' := eval vm_compute in b in change b with b' end;
      cbv iota; try naive_solver;
      rewrite app_eq_nil_iff, flat_map_nil; setoid_rewrite if_nil; setoid_rewrite includes_false;
      (destruct (truthy (pv_scopeId v)); naive_solver). }
  split.
  - intros Hall id v Hv. apply Hm, Hall. by apply elem_vertices.
  - intros Hall [id v] Hin. apply Hm. apply Hall. by apply elem_vertices.
Qed.

Lemma R8_nil : ruleR8 c = [] <-> forall p pv d dv t, pivot c p -> vertex_at c p pv -> above c d p -> vertex_at c d dv -> tool_at c d t ->
    pv_scopeId dv = pv_scopeId pv -> td_effectClass t = e_none -> forall x, ~ above c x d.
Proof.
  unfold ruleR8. rewrite flat_map_nil.
  assert (forall d, match JMap.get_or [] (gc_descendants c) d with [] => false | _ => true end = false <-> forall x, ~ above c x d) as Hempty.
  { intros d. setoid_rewrite <- (descendants_elem P reg c Hbuild d). destruct (JMap.get_or [] (gc_descendants c) d) as [|y l].
    - split; [by intros _ x ?%elem_of_nil|done].
    - split; [done|]. intros Hno. exfalso. apply (Hno y). left. }
  split.
  - intros Hall p pv d dv t Hp Hpv Hab Hdv Ht Hs He. specialize (Hall p (proj2 (elem_of_pivotIds p) Hp)). cbn zeta in Hall.
    rewrite flat_map_nil in Hall. specialize (Hall d (proj2 (descendants_elem P reg c Hbuild p d) Hab)).
    unfold vertex_at, tool_at in *. rewrite Hpv, Hdv, Ht in Hall. apply if_nil in Hall. apply eqb_true in Hs, He.
    rewrite Hs, He in Hall. by apply Hempty.
  - intros Hall p Hp. apply elem_of_pivotIds in Hp as Hp'. destruct Hp' as (tp & Htp & _).
    destruct (tool_vertex p tp Htp) as [pv Hpv]. cbn zeta. apply flat_map_nil. intros d Hd. apply (descendants_elem P reg c Hbuild) in Hd.
    destruct (JMap.get (gc_vertices c) d) as [dv|] eqn:Hdv; [|done]. destruct (JMap.get (gc_tools c) d) as [t|] eqn:Ht; [|done].
    unfold vertex_at in Hpv. rewrite Hpv. apply if_nil. destruct (pv_scopeId dv ==? pv_scopeId pv) eqn:Hs; [|done].
    destruct (td_effectClass t ==? e_none) eqn:He; [|done]. bool_prop. apply Hempty. apply elem_of_pivotIds in Hp.
    by apply (Hall p pv d dv t).
Qed.

Definition related (f s p : string) : Prop := pivot c p /\ (p = f \/ p = s \/ above c p f \/ above c p s).

Lemma elem_of_relatedPivots f s p : p ∈ relatedPivots c f s <-> related f s p.
Proof.
  unfold relatedPivots, related. rewrite elem_of_filter_by, elem_of_pivotIds, !orb_true_iff, !eqb_true,
    !(descendantOf_iff P reg c Hbuild). unfold above. tauto.
Qed.

Definition shielded (f s : string) : Prop :=
  exists b, b ∈ JMap.values (gc_vertices c) /\ pv_kind b = k_barrier /\ above c (pv_id b) f /\ above c (pv_id b) s /\
    forall p, related f s p -> above c p (pv_id b).

Lemma protected_iff f s : protectedByBarrier c f s = true <-> shielded f s.
Proof.
  unfold protectedByBarrier, shielded. rewrite existsb_true. split; intros (b & Hb & Hr); exists b; (split; [done|]).
  - bool_prop. match goal with H : forallb _ _ = true |- _ => rewrite forallb_true in H; rename H into Hall end.
    setoid_rewrite elem_of_relatedPivots in Hall. setoid_rewrite (ancestorOf_iff P reg c Hbuild) in Hall.
    repeat match goal with H : ancestorOf c _ _ = true |- _ => apply (ancestorOf_iff P reg c Hbuild) in H end. done.
  - destruct Hr as (Hk & Hf & Hs & Hall). apply (ancestorOf_iff P reg c Hbuild) in Hf, Hs. apply eqb_true in Hk.
    rewrite Hk, Hf, Hs. cbn [andb]. apply forallb_true. intros p Hp. apply (ancestorOf_iff P reg c Hbuild), Hall. by apply elem_of_relatedPivots.
Qed.

(** The condition R9 puts on a pair of tool vertices. *)
Definition writes_safe (f s : string * ToolDefinition) : Prop :=
  intersects (default [] (td_writes (snd f))) (default [] (td_writes (snd s))) = true ->
  ~ above c (fst f) (fst s) -> ~ above c (fst s) (fst f) -> (exists p, related (fst f) (fst s) p) -> shielded (fst f) (fst s).

Lemma intersects_sym l1 l2 : intersects l1 l2 = intersects l2 l1.
Proof.
  apply eq_true_iff_eq. unfold intersects. rewrite !existsb_true. setoid_rewrite includes_true. naive_solver.
Qed.

Lemma writes_safe_sym f s : writes_safe f s -> writes_safe s f.
Proof.
  unfold writes_safe. intros Hw Hi Hn1 Hn2 (p & Hp). rewrite intersects_sym in Hi.
  destruct Hw as (b & Hb & Hk & H1 & H2 & Hall); [done|done|done| |].
  - exists p. unfold related in *. tauto.
  - exists b. split_and!; [done..|]. intros q Hq. apply Hall. unfold related in *. tauto.
Qed.

Lemma pairR9_nil f s : pairR9 c f s = [] <-> writes_safe f s.
Proof.
  destruct f as [f tf], s as [s ts]. unfold pairR9, writes_safe. cbn [fst snd].
  destruct (intersects _ _); cbn [negb]; [|naive_solver].
  destruct (ancestorOf c f s) eqn:E1; cbn [orb].
  { apply (ancestorOf_iff P reg c Hbuild) in E1. unfold above. tauto. }
  destruct (ancestorOf c s f) eqn:E2.
  { apply (ancestorOf_iff P reg c Hbuild) in E2. unfold above. tauto. }
  apply (ancestorOf_false P reg c Hbuild) in E1, E2. fold (above c f s) in E1. fold (above c s f) in E2.
  destruct (relatedPivots c f s) as [|p ps] eqn:Er.
  - split; [|done]. intros _ _ _ _ (p & Hp). apply elem_of_relatedPivots in Hp. rewrite Er in Hp. by apply elem_of_nil in Hp.
  - assert (related f s p) as Hp by (apply elem_of_relatedPivots; rewrite Er; left).
    rewrite <- protected_iff. destruct (protectedByBarrier c f s); [naive_solver|]. split; [done|].
    intros Hall. by specialize (Hall eq_refl E1 E2 (ex_intro _ p Hp)).
Qed.

Lemma R9_nil : ruleR9 c = [] <-> forall f tf s ts, tool_at c f tf -> tool_at c s ts -> f <> s -> writes_safe (f, tf) (s, ts).
Proof.
  unfold ruleR9. rewrite flat_map_nil.
  transitivity (forall xy, xy ∈ pairs (gc_tools c) -> writes_safe (fst xy) (snd xy)).
  { split; intros Hall xy Hin; apply pairR9_nil; by apply Hall. }
  rewrite (pairs_all fst writes_safe); [|apply NoDup_tools|apply writes_safe_sym]. split.
  - intros Hall f tf s ts Hf Hs Hne. apply Hall; [by apply elem_tools|by apply elem_tools|done].
  - intros Hall [f tf] [s ts] Hf Hs Hne. apply elem_tools in Hf, Hs. by apply Hall.
Qed.

Lemma registry_nil : ToolRegistry.validate reg = [] <->
  (forall d, d ∈ JMap.values reg -> td_mode d = m_saga -> ToolRegistry.retryable reg (td_compensateTool d) = true) /\
  (forall d, d ∈ JMap.values reg -> td_mode d = m_tcc ->
    ToolRegistry.retryable reg (td_confirmTool d) = true /\ ToolRegistry.retryable reg (td_cancelTool d) = true /\
    ToolRegistry.positive (td_tryTimeoutS d) = true).
Proof.
  unfold ToolRegistry.validate. rewrite flat_map_nil. unfold ToolRegistry.validateOne.
  setoid_rewrite app_eq_nil_iff. setoid_rewrite if_nil.
  assert (forall d, (td_mode d ==? m_saga) && negb (ToolRegistry.retryable reg (td_compensateTool d)) = false <->
    (td_mode d = m_saga -> ToolRegistry.retryable reg (td_compensateTool d) = true)) as H4.
  { intros d. case_eqb; cbn; [rewrite negb_false_iff|]; naive_solver. }
  assert (forall d, (td_mode d ==? m_tcc) && (negb (ToolRegistry.retryable reg (td_confirmTool d)) ||
      negb (ToolRegistry.retryable reg (td_cancelTool d)) || negb (ToolRegistry.positive (td_tryTimeoutS d))) = false <->
    (td_mode d = m_tcc -> ToolRegistry.retryable reg (td_confirmTool d) = true /\ ToolRegistry.retryable reg (td_cancelTool d) = true /\
    ToolRegistry.positive (td_tryTimeoutS d) = true)) as H6.
  { intros d. case_eqb; cbn; [rewrite !orb_false_iff, !negb_false_iff|]; naive_solver. }
  setoid_rewrite H4. setoid_rewrite H6. naive_solver.
Qed.

Lemma rules_nil : ruleCalls c P ex = [] /\ ToolRegistry.validate reg = [] <-> admissible c P reg ex.
Proof.
  unfold ruleCalls. rewrite !app_eq_nil_iff, R10_nil, scopeRules_nil, placement_nil, R5_nil, R7_nil, R14_nil, R12_nil, R8_nil, R9_nil, registry_nil.
  setoid_rewrite member_nil. setoid_rewrite footprint_nil. unfold writes_safe, shielded, related. cbn [fst snd]. split.
  - intros ((H10 & (H3 & Hm & H11) & Hpl & H5 & H7 & H14 & H12 & H8 & H9) & H4 & H6). split; try done.
    + intros s p m t Hs Hp Hsp Hsm Ht. by apply (Hm s p m).
    + intros s p m t Hs Hp Hsp Hsm Ht. by apply (Hm s p m).
    + intros s p a ta tp Hs Hp Hsp Hab Hta Htp. by apply (H11 s p a).
    + intros f tf s ts Hf Hs Hne Hi Hn1 Hn2 (p & Hp). destruct (H9 f tf s ts Hf Hs Hne Hi Hn1 Hn2) as (b & Hb & Hk & H1 & H2 & Hall); [eauto|].
      exists b. split_and!; try done. intros q Hq Hr. by apply Hall.
  - intros [H4 H6 H10 H3 H2 H1 H11 Hpl H5 H7 H14 H12 H8 H9]. split_and!; try done.
    + intros s p m Hs Hp Hsp Hsm t Ht. split; [by apply (H2 s p m t)|by apply (H1 s p m t)].
    + intros s p a Hs Hp Hsp Hab ta tp Hta Htp. by apply (H11 s p a ta tp).
    + intros f tf s ts Hf Hs Hne Hi Hn1 Hn2 (p & Hp). destruct (H9 f tf s ts Hf Hs Hne Hi Hn1 Hn2) as (b & Hb & Hk & H1' & H2' & Hall); [eauto|].
      exists b. split_and!; try done. intros q [Hq Hr]. by apply Hall.
Qed.
End RuleFacts.

Lemma add_nil vs l : fold_left add l vs = [] <-> l = [] /\ vs = [].
Proof.
  revert vs; induction l as [|v l IH]; intros vs; cbn [fold_left]; [naive_solver|]. rewrite IH. unfold add.
  destruct (existsb _ vs) eqn:E; [|split; [|naive_solver]; intros [_ Hn]; by destruct vs].
  split; [|naive_solver]. intros [-> ->]. done.
Qed.

Lemma checkResult_accepted vs : accepted (checkResult vs) = true <-> vs = [].
Proof. by destruct vs. Qed.

(** C11. [checkSubDag] accepts a proposal exactly when every rule holds, stated over the real ancestor
    order: registered companions are retry-safe (R4, R6), effects are scoped (R10), a scope has at
    most one pivot (R3), work before it can be undone (R2) and after it retried (R1), a pivot's
    reversible predecessors with a shared footprint are in its scope (R11), parallel pivots and
    conflicting writes are separated by a barrier (R5, R9), no unconfirmed output crosses scopes
    (R7), no tool hands control straight to a planner (R14), planners and routers join no scope
    (R12), no read depends on the recovery path (R8), and a proposal with a router respects the
    scopes already recorded (R3, R12). *)
Theorem checkSubDag_correct P reg ex c r :
  buildContext P reg = Ok c -> checkSubDag P reg ex = Ok r ->
  (accepted r = true <-> admissible c P reg ex).
Proof.
  intros Hb Hc. unfold checkSubDag in Hc. rewrite Hb in Hc. apply Ok_inj in Hc as <-.
  rewrite checkResult_accepted, add_nil. by apply rules_nil.
Qed.

(** The graph context exists exactly for the proposals the rules can be read on: every tool
    vertex names a known tool and no other vertex names one, every parent is a vertex of the proposal
    and there is no cycle. The recorded ancestors are then the transitive closure of the parents, and
    the descendants its inverse. *)
Theorem buildContext_correct P reg :
  (is_ok (buildContext P reg) = true <->
     is_ok (foldM (addTool reg) [] (p_vertices P)) = true /\
     (forall id p, up (vertex_map P) id p -> p ∈ JMap.keys (vertex_map P)) /\
     (forall id, ~ tc (up (vertex_map P)) id id)) /\
  forall c, buildContext P reg = Ok c -> forall a b,
    (ancestorOf c a b = true <-> tc (up (vertex_map P)) a b) /\
    (descendantOf c a b = true <-> tc (up (vertex_map P)) b a).
Proof.
  assert (forall a b, up (vertex_map P) a b -> a ∈ JMap.keys (vertex_map P)) as Hknown.
  { intros a b. unfold up, parents_at. destruct (JMap.get (vertex_map P) a) eqn:E; [|set_solver].
    intros _. apply get_is_Some. by eexists. }
  split.
  - split.
    + intros Hok. destruct (buildContext P reg) as [c|] eqn:Hb; [|done].
      destruct (context_ancestors P reg c Hb) as (Hv & _). split.
      { unfold buildContext in Hb. by destruct (foldM (addTool reg) [] (p_vertices P)). }
      pose proof (context_good P reg c Hb) as Hg. rewrite Hv in Hg. split.
      * intros id p Hp. apply (Hg id); [by eapply Hknown|by apply rtc_once].
      * intros id Hcyc. pose proof Hcyc as Hcyc'. apply tc_up_inv in Hcyc' as (p & Hp & _).
        by apply (Hg id (Hknown _ _ Hp) id (rtc_refl _ _)).
    + intros (Ht & Hpar & Hac). unfold buildContext. destruct (foldM (addTool reg) [] (p_vertices P)); [|done].
      cbn [mbind result_bind]. destruct (allAncestors_complete (vertex_map P)) as [anc Ha]; [|by rewrite Ha].
      intros id Hid x Hx. split; [|apply Hac]. destruct (rtc_inv_r _ _ Hx) as [->|(y & _ & Hy)]; [done|by eapply Hpar].
  - intros c Hb a b. destruct (context_ancestors P reg c Hb) as (<- & _).
    split; [by apply (ancestorOf_iff P reg)|by apply (descendantOf_iff P reg)].
Qed.

(** ** Freeze admission *)

(** What the placement of the slot asks of a branch. *)
Definition placement_ok (slot : SlotPlacementContext) (ex : list ScopeSnapshot) (b : AdmissibleBranch) : Prop :=
  match sp_placement slot with
  | inside_scope => ab_opensScope b = false /\
      forall s, find (fun s => ss_state s ==? s_half_open) ex = Some s -> ab_hasPivot b = true -> ss_pivotCount s <= 0
  | at_savepoint => ab_maxEffect b <> e_none -> ab_opensScope b = true
  end.

Lemma placementViolations_nil slot ex i b : placementViolations slot ex i b = [] <-> placement_ok slot ex b.
Proof.
  unfold placementViolations, placement_ok. destruct (sp_placement slot).
  - rewrite if_nil. case_eqb; cbn; [naive_solver|]. rewrite negb_false_iff. naive_solver.
  - rewrite app_eq_nil_iff, if_nil. destruct (find _ ex) as [s|]; [|naive_solver].
    rewrite if_nil. destruct (ab_hasPivot b); cbn [andb]; [rewrite Z.ltb_ge|]; naive_solver.
Qed.

(** A branch the slot can take: nothing effectful on a read-only fork, only known tools, the placement
    respected, and the check rules satisfied. *)
Definition branch_admissible (slot : SlotPlacementContext) (ex : list ScopeSnapshot) (b : AdmissibleBranch) : Prop :=
  (sp_isReadOnlyContext slot = true -> ab_maxEffect b = e_none) /\ missingTools slot b = [] /\ placement_ok slot ex b /\
  exists r, checkSubDag (ab_subDag b) (sp_roleToolView slot) ex = Ok r /\ accepted r = true.

Lemma branchViolations_nil slot ex i b vs :
  branchViolations slot ex (i, b) = Ok vs -> vs = [] <-> branch_admissible slot ex b.
Proof.
  unfold branchViolations, branch_admissible.
  destruct (sp_isReadOnlyContext slot && (ab_maxEffect b !=? e_none)) eqn:Ero.
  { intros Hv. apply Ok_inj in Hv as <-. bool_prop. split; [done|]. intros (Hro & _). naive_solver. }
  destruct (missingTools slot b) as [|m ms] eqn:Em.
  2:{ intros Hv. apply Ok_inj in Hv as <-. split; [done|]. intros (_ & Hm & _). done. }
  intros Hv. apply bind_Ok in Hv as (r & Hr & Hv). apply Ok_inj in Hv as <-.
  rewrite app_eq_nil_iff, placementViolations_nil.
  assert (map (fun v => viol (rule v) ("branch " +:+ nstr i +:+ ": " +:+ message v) (v_vertices v)) (violations r) = [] <-> accepted r = true) as ->.
  { unfold checkSubDag in Hr. apply bind_Ok in Hr as (c & _ & Hr). apply Ok_inj in Hr as <-.
    unfold checkResult. cbn. by destruct (fold_left add _ _). }
  split.
  - intros [Hp Ha]. split_and!; [|done|done|eauto]. intros Hro. rewrite Hro in Ero. cbn in Ero. by bool_prop.
  - intros (_ & _ & Hp & r' & Hr' & Ha). rewrite Hr in Hr'. apply Ok_inj in Hr' as <-. done.
Qed.

(** A router's branches are admitted at freeze exactly when each of them could run in the slot the
    router really occupies; with the placement derived from the recorded scopes, the declared
    placement never contradicts them, so R13 never fires for the slot itself. *)
Theorem checkFreezeAdmission_correct slot ex branches r :
  sp_placement slot = derivePlacement ex -> checkFreezeAdmission slot ex branches = Ok r ->
  (accepted r = true <-> forall b, b ∈ branches -> branch_admissible slot ex b).
Proof.
  intros Hpl Hc. unfold checkFreezeAdmission in Hc. apply bind_Ok in Hc as (vs & Hvs & Hc). apply Ok_inj in Hc as <-.
  assert (match sp_placement slot, find unclosed ex with
    | at_savepoint, Some u => [viol R13 ("router slot declares at_savepoint while ancestor scope " +:+ ss_scopeId u +:+ " is unclosed") []]
    | _, _ => [] end = []) as ->.
  { rewrite Hpl. unfold derivePlacement. destruct (existsb unclosed ex) eqn:E; [done|].
    assert (find unclosed ex = None) as -> by (apply find_None, existsb_false, E). done. }
  rewrite checkResult_accepted. cbn [app]. apply mapR_Ok in Hvs.
  transitivity (Forall (fun v => v = []) vs).
  { clear Hvs. induction vs as [|v vs IH]; cbn; [split; [constructor|done]|].
    rewrite app_eq_nil_iff, IH, Forall_cons. done. }
  assert (forall n, Forall2 (fun x y => branchViolations slot ex x = Ok y) (entries_from n branches) vs ->
    Forall (fun v => v = []) vs <-> forall b, b ∈ branches -> branch_admissible slot ex b) as Hgen; [|by eapply Hgen].
  clear. induction branches as [|b bs IH] in vs |- *; unfold entries_from; cbn [length seq combine]; intros n Hf.
  - apply Forall2_nil_inv_l in Hf as ->. split; [set_solver|constructor].
  - apply Forall2_cons_inv_l in Hf as (v & vs' & Hv & Hf & ->). rewrite Forall_cons, (IH vs' (S n) Hf).
    apply branchViolations_nil in Hv as ->. setoid_rewrite elem_of_cons. naive_solver.
Qed.

(** ** Concrete instances *)
Definition sample_tool (name : string) (e : EffectClass) : ToolDefinition :=
  {| td_name := name; td_effectClass := e; td_mode := m_plain; td_idempotentRetryable := true; td_footprint := ["stock"];
     td_writes := Some ["stock"]; td_compensateTool := Some "release"; td_confirmTool := None; td_cancelTool := None; td_tryTimeoutS := None |}.

Definition sample_registry : ToolRegistry.registry :=
  [("hold", sample_tool "hold" e_reversible); ("ship", sample_tool "ship" e_irreversible); ("release", sample_tool "release" e_none)].

Definition sample_vertex (id : string) (ps : list string) (k : VertexKind) (t s : option string) : ProposalVertex :=
  {| pv_id := id; pv_parents := ps; pv_kind := k; pv_tool := t; pv_scopeId := s; pv_confirmedOutput := None; pv_templateRef := None |}.

Definition sample_proposal : SubDagProposal :=
  {| p_vertices := [sample_vertex "a" [] k_tool (Some "hold") (Some "s"); sample_vertex "b" ["a"] k_tool (Some "ship") (Some "s")];
     p_scopes := [{| ps_id := "s"; ps_members := ["a"; "b"] |}] |}.

(** The same proposal with the reversible hold left out of the pivot's scope. *)
Definition leaky_proposal : SubDagProposal :=
  {| p_vertices := p_vertices sample_proposal; p_scopes := [{| ps_id := "s"; ps_members := ["b"] |}] |}.

Lemma checkSubDag_witness :
  (exists c r, buildContext sample_proposal sample_registry = Ok c /\ checkSubDag sample_proposal sample_registry [] = Ok r /\
     admissible c sample_proposal sample_registry []) /\
  (exists r, checkSubDag leaky_proposal sample_registry [] = Ok r /\ map rule (violations r) = [R11]).
Proof.
  split.
  - eexists _, _. split; [vm_compute; reflexivity|]. split; [vm_compute; reflexivity|].
    eapply checkSubDag_correct; [vm_compute; reflexivity|vm_compute; reflexivity|reflexivity].
  - eexists. split; [vm_compute; reflexivity|reflexivity].
Defined.

Definition sample_slot : SlotPlacementContext :=
  {| sp_placement := at_savepoint; sp_isReadOnlyContext := false; sp_roleToolView := sample_registry |}.
Definition sample_branch : AdmissibleBranch :=
  {| ab_condition := "true"; ab_subDag := sample_proposal; ab_opensScope := true; ab_hasPivot := true; ab_maxEffect := e_irreversible |}.

Lemma checkFreezeAdmission_witness :
  exists r, checkFreezeAdmission sample_slot [] [sample_branch] = Ok r /\ branch_admissible sample_slot [] sample_branch.
Proof.
  eexists. split; [vm_compute; reflexivity|].
  eapply (checkFreezeAdmission_correct sample_slot [] [sample_branch]);
    [reflexivity|vm_compute; reflexivity|reflexivity|left].
Defined.
