(* ===== verification/ToolView.v ===== *)
(** * Published tool views (engine/src/gateway/tool-view.ts)

    A tool view is content-addressed by the digest of its canonical text, and the checker's registry
    is built from a view whose digest was verified. SHA-256 is a parameter: the theorems never assume
    it injective, they exhibit the collision instead. The canonical text itself is in Json.v. *)

From S2P Require Import Prelude Collections Number Json CheckRules.

Record ToolViewTransaction : Type := {
  effect_class : EffectClass;
  tvt_mode : ToolMode;
  idempotency_key_path : option string;
  idempotent_retryable : bool;
  try_timeout_s : option number;
  confirm_tool : option string;
  cancel_tool : option string;
  compensate_tool : option string;
  status_tool : option string;
  confirm_arguments : option (list (string * string));
  cancel_arguments : option (list (string * string));
  compensate_arguments : option (list (string * string))
}.

Record ToolViewRetry : Type := {
  max_attempts : number;
  initial_backoff_ms : number;
  multiplier_milli : number;
  max_backoff_ms : number
}.

Record ToolViewTool : Type := {
  tool_id : string;
  tool_version : string;
  description : option string;
  input_schema : object;
  output_schema : object;
  route_id : string;
  adapter_protocol : string;
  adapter_operation : option string;
  txn : ToolViewTransaction;
  compensation_style : string;
  footprint : list string;
  writes : list string;
  timeout_ms : number;
  retry_constraints : ToolViewRetry;
  owner : string;
  allowed_roles : list string;
  log_fields : option (list string)
}.

Record ToolViewDocument : Type := { tool_view_version : string; tools : list ToolViewTool }.
Record ToolViewIdentity : Type := { tool_view_ref : string; tool_view_digest : string }.

(** ** The document as a JSON value *)
Definition effect_name (e : EffectClass) : string :=
  match e with e_none => "none" | e_bufferable => "bufferable" | e_reversible => "reversible" | e_irreversible => "irreversible" end.
Definition mode_name (m : ToolMode) : string := match m with m_plain => "plain" | m_tcc => "tcc" | m_saga => "saga" end.

(** An optional property: absent, never [undefined]. *)
Definition opt_prop {A} (k : string) (f : A -> value) (o : option A) : object :=
  match o with Some a => [(k, f a)] | None => [] end.
Definition strings (l : list string) : value := VArr (map VStr l).
Definition string_record (l : list (string * string)) : value := VObj (map (fun p => (fst p, VStr (snd p))) l).

Definition txn_value (t : ToolViewTransaction) : value :=
  VObj ([("effect_class", VStr (effect_name (effect_class t))); ("mode", VStr (mode_name (tvt_mode t)))] ++
        opt_prop "idempotency_key_path" VStr (idempotency_key_path t) ++
        [("idempotent_retryable", VBool (idempotent_retryable t))] ++
        opt_prop "try_timeout_s" VNum (try_timeout_s t) ++ opt_prop "confirm_tool" VStr (confirm_tool t) ++
        opt_prop "cancel_tool" VStr (cancel_tool t) ++ opt_prop "compensate_tool" VStr (compensate_tool t) ++
        opt_prop "status_tool" VStr (status_tool t) ++ opt_prop "confirm_arguments" string_record (confirm_arguments t) ++
        opt_prop "cancel_arguments" string_record (cancel_arguments t) ++
        opt_prop "compensate_arguments" string_record (compensate_arguments t)).

Definition retry_value (r : ToolViewRetry) : value :=
  VObj [("max_attempts", VNum (max_attempts r)); ("initial_backoff_ms", VNum (initial_backoff_ms r));
        ("multiplier_milli", VNum (multiplier_milli r)); ("max_backoff_ms", VNum (max_backoff_ms r))].

Definition tool_value (t : ToolViewTool) : value :=
  VObj ([("tool_id", VStr (tool_id t)); ("tool_version", VStr (tool_version t))] ++ opt_prop "description" VStr (description t) ++
        [("input_schema", VObj (input_schema t)); ("output_schema", VObj (output_schema t)); ("route_id", VStr (route_id t));
         ("adapter", VObj (("protocol", VStr (adapter_protocol t)) :: opt_prop "operation" VStr (adapter_operation t)));
         ("txn", txn_value (txn t)); ("compensation_style", VStr (compensation_style t)); ("footprint", strings (footprint t));
         ("writes", strings (writes t)); ("timeout_ms", VNum (timeout_ms t)); ("retry_constraints", retry_value (retry_constraints t));
         ("owner", VStr (owner t)); ("allowed_roles", strings (allowed_roles t))] ++
        opt_prop "log_fields" strings (log_fields t)).

Definition document_value (d : ToolViewDocument) : value :=
  VObj [("tool_view_version", VStr (tool_view_version d)); ("tools", VArr (map tool_value (tools d)))].

(** [/^sha256:[0-9a-f]{64}$/] *)
Definition hex_char (a : Ascii.ascii) : bool :=
  let n := Ascii.nat_of_ascii a in ((48 <=? n) && (n <=? 57) || (97 <=? n) && (n <=? 102))%nat.
Definition DIGEST_PATTERN (s : string) : bool :=
  starts_with "sha256:" s && (String.length s =? 71)%nat && all_chars hex_char (drop_str 7 s).

(** [s.replace(':', '-')]: the first occurrence *)
Fixpoint replace_colon (s : string) : string :=
  match s with
  | "" => ""
  | String a s => if a ==? ":"%char then String "-"%char s else String a (replace_colon s)
  end.

Section Digest.
Variable sha256 : string -> string.

Definition digestOf (canonical : string) : string := "sha256:" +:+ sha256 canonical.
Definition canonicalizeToolView (d : ToolViewDocument) : result string := Text.canonicalize (document_value d).
Definition toolViewDigest (d : ToolViewDocument) : result string := c ← canonicalizeToolView d; Ok (digestOf c).
Definition toolViewRef (digest : string) : string := "tool-views/" +:+ replace_colon digest +:+ ".json".

(** [parseToolView], given the decoded document. *)
Definition parseToolView (document : ToolViewDocument) (expectedDigest : option string) : result (ToolViewDocument * ToolViewIdentity) :=
  digest ← toolViewDigest document;
  if match expectedDigest with Some e => digest !=? e | None => false end
  then Throw ("parseToolView: document canonicalises to " +:+ digest +:+ ", not " +:+ default "" expectedDigest)
  else Ok (document, {| tool_view_ref := toolViewRef digest; tool_view_digest := digest |}).

Definition toolDefinition (t : ToolViewTool) : ToolDefinition :=
  {| td_name := tool_id t; td_effectClass := effect_class (txn t); td_mode := tvt_mode (txn t);
     td_idempotentRetryable := idempotent_retryable (txn t); td_footprint := footprint t; td_writes := Some (writes t);
     td_compensateTool := truthy (compensate_tool (txn t)); td_confirmTool := truthy (confirm_tool (txn t));
     td_cancelTool := truthy (cancel_tool (txn t));
     td_tryTimeoutS := match try_timeout_s (txn t) with
                       | Some n => if Js.truthy_value (VNum n) then Some n else None | None => None end |}.

Definition versionsByTool (d : ToolViewDocument) : list (string * list string) :=
  fold_left (fun m t => JMap.set m (tool_id t) (JMap.get_or [] m (tool_id t) ++ [tool_version t])) (tools d) [].

Definition checkVersions (entry : string * list string) : result unit :=
  if (1 <? length (snd entry))%nat
  then Throw ("loadToolRegistry: " +:+ fst entry +:+ " is published at " +:+ join ", " (js_sort strcmp (snd entry)) +:+
              "; the checker's registry cannot represent more than one version of a tool")
  else Ok tt.

Definition loadToolRegistry (document : ToolViewDocument) (expectedDigest : option string) : result ToolRegistry.registry :=
  _ ← match expectedDigest with
      | Some e =>
          if negb (DIGEST_PATTERN e) then Throw ("loadToolRegistry: " +:+ e +:+ " is not a sha256 digest") else
          digest ← toolViewDigest document;
          if digest !=? e then Throw ("loadToolRegistry: view canonicalises to " +:+ digest +:+ ", not " +:+ e) else Ok tt
      | None => Ok tt
      end;
  _ ← foldM (fun _ entry => checkVersions entry) tt (versionsByTool document);
  foldM (fun r t => ToolRegistry.register r (toolDefinition t)) [] (tools document).
End Digest.

(** ** Facts *)
Section DigestFacts.
Variable sha256 : string -> string.

(** A digest pins a tool view: two documents with the same digest have the same content (up to
    the order of object members), or their two canonical texts are a SHA-256 collision. A view that
    passes [parseToolView] under an expected digest is therefore the one that digest was taken of. *)
Theorem toolViewDigest_binding d1 d2 g id2 :
  toolViewDigest sha256 d1 = Ok g -> parseToolView sha256 d2 (Some g) = Ok (d2, id2) ->
  tool_view_digest id2 = g /\
  (Text.normal (document_value d1) = Text.normal (document_value d2) \/
   exists a b, canonicalizeToolView d1 = Ok a /\ canonicalizeToolView d2 = Ok b /\ collides sha256 a b).
Proof.
  intros H1 H2. unfold parseToolView in H2. apply bind_Ok in H2 as (g2 & Hd2 & H2).
  destruct (g2 !=? g) eqn:E; [done|]. apply neqb_false in E as ->. apply Ok_inj in H2 as [= <-]. split; [done|].
  unfold toolViewDigest in *. apply bind_Ok in H1 as (c1 & Hc1 & H1). apply bind_Ok in Hd2 as (c2 & Hc2 & H2).
  apply Ok_inj in H1. apply Ok_inj in H2. unfold digestOf in *.
  destruct (decide (c1 = c2)) as [->|Hne].
  - left. by apply (canonicalize_injective _ _ c2).
  - right. exists c1, c2. split; [done|]. split; [done|]. split; [done|]. assert ("sha256:" +:+ sha256 c1 = "sha256:" +:+ sha256 c2) as Heq by congruence.
    by apply (inj (String.append "sha256:")) in Heq.
Qed.

(** The definition a registered tool is stored as. *)
Lemma toolDefinition_stored (r : ToolRegistry.registry) t r' :
  ToolRegistry.register r (toolDefinition t) = Ok r' ->
  (tool_id t ∉ JMap.keys r) /\ r' = r ++ [(tool_id t, toolDefinition t)].
Proof.
  unfold ToolRegistry.register. cbn [td_name toolDefinition]. destruct (JMap.has r (tool_id t)) eqn:E; [done|].
  intros H. apply Ok_inj in H as <-.
  assert (tool_id t ∉ JMap.keys r) as Hk by by apply has_keys_false.
  split; [done|]. by rewrite set_fresh.
Qed.

Lemma versions_get d k :
  JMap.get_or [] (versionsByTool d) k = map tool_version (filter_by (fun t => tool_id t ==? k) (tools d)).
Proof.
  unfold versionsByTool. induction (tools d) as [|t l IH] using rev_ind; [done|].
  rewrite fold_left_app, filter_by_app, map_app. cbn [fold_left List.filter]. unfold JMap.get_or at 1.
  rewrite get_set. case_eqb; cbn; [subst; by rewrite IH|]. rewrite app_nil_r. exact IH.
Qed.

Lemma versions_single d entry :
  NoDup (map tool_id (tools d)) -> entry ∈ versionsByTool d -> checkVersions entry = Ok tt.
Proof.
  intros Hnd Hin. destruct entry as [k vs]. unfold checkVersions. cbn [fst snd].
  assert (NoDup (JMap.keys (versionsByTool d))) as Hkeys.
  { unfold versionsByTool. apply fold_left_inv; [constructor|]. intros m t _. apply NoDup_keys_set. }
  apply get_elem in Hin; [|done]. pose proof (versions_get d k) as Hg. unfold JMap.get_or in Hg. rewrite Hin in Hg. cbn in Hg.
  subst vs. rewrite length_map. enough (length (filter_by (fun t => tool_id t ==? k) (tools d)) <= 1)%nat as Hl.
  { by rewrite (proj2 (Nat.ltb_ge _ _) Hl). }
  clear -Hnd. induction (tools d) as [|t l IH]; cbn; [lia|]. cbn in Hnd. apply NoDup_cons in Hnd as [Ht Hnd].
  case_eqb; [|by apply IH]. cbn. enough (filter_by (fun x => tool_id x ==? k) l = []) as -> by (cbn; lia).
  destruct (filter_by (fun x => tool_id x ==? k) l) as [|x xs] eqn:E'; [done|]. exfalso. apply Ht.
  assert (x ∈ filter_by (fun x => tool_id x ==? k) l) as Hx by (rewrite E'; left).
  apply elem_of_filter_by in Hx as [Hx Hk]. bool_prop. apply elem_of_map. exists x. by subst.
Qed.

Lemma register_all ts r r' :
  foldM (fun r t => ToolRegistry.register r (toolDefinition t)) r ts = Ok r' <->
  NoDup (map tool_id ts) /\ (forall t, t ∈ ts -> tool_id t ∉ JMap.keys r) /\ r' = r ++ map (fun t => (tool_id t, toolDefinition t)) ts.
Proof.
  revert r; induction ts as [|t ts IH]; intros r; cbn [foldM map].
  - rewrite app_nil_r. split; [intros [= <-]; split_and!; [constructor|set_solver|done]|]. by intros (_ & _ & ->).
  - split.
    + intros H. apply bind_Ok in H as (r1 & H1 & H). apply toolDefinition_stored in H1 as [Hk ->].
      apply IH in H as (Hnd & Hall & ->).
      assert (forall x, x ∈ ts -> (tool_id x ∉ JMap.keys r) /\ tool_id x <> tool_id t) as Hne.
      { intros x Hx. specialize (Hall x Hx). unfold JMap.keys in *. rewrite map_app, elem_of_app in Hall. cbn in Hall.
        rewrite list_elem_of_singleton in Hall. tauto. }
      split; [|split].
      * apply NoDup_cons. split; [|done]. rewrite elem_of_map. intros (x & Heq & Hx). by apply Hne in Hx as [_ ?].
      * intros x. rewrite elem_of_cons. intros [->|Hx]; [done|by apply Hne].
      * by rewrite <- (assoc (++)).
    + intros (Hnd & Hall & ->). apply NoDup_cons in Hnd as [Ht Hnd].
      assert (tool_id t ∉ JMap.keys r) as Hk by (apply Hall; left).
      assert (ToolRegistry.register r (toolDefinition t) = Ok (r ++ [(tool_id t, toolDefinition t)])) as ->.
      { unfold ToolRegistry.register. cbn [td_name toolDefinition].
        apply has_keys_false in Hk as Hh. by rewrite Hh, set_fresh. }
      cbn [mbind result_bind]. apply IH. split; [done|]. split; [|by rewrite <- (assoc (++))].
      intros x Hx. unfold JMap.keys in *. rewrite map_app, elem_of_app. cbn. rewrite list_elem_of_singleton.
      intros [Hin|Heq]; [eapply Hall; [by right|done]|]. apply Ht. rewrite elem_of_map. eauto.
Qed.

Lemma parseToolView_digest d e p :
  parseToolView sha256 d (Some e) = Ok p -> fst p = d /\ toolViewDigest sha256 d = Ok e.
Proof.
  unfold parseToolView. intros H. apply bind_Ok in H as (g & Hg & H). destruct (g !=? e) eqn:E; [done|].
  apply neqb_false in E as ->. by apply Ok_inj in H as <-.
Qed.

Lemma loadToolRegistry_stored d expected r :
  loadToolRegistry sha256 d expected = Ok r ->
  NoDup (map tool_id (tools d)) /\ r = map (fun t => (tool_id t, toolDefinition t)) (tools d).
Proof.
  unfold loadToolRegistry. intros H. apply bind_Ok in H as ([] & _ & H). apply bind_Ok in H as ([] & _ & H).
  by apply register_all in H as (Hnd & _ & ->).
Qed.

(** [loadToolRegistry] builds, from a view whose digest was checked, exactly the registry of its
    tools in published order, each under its identifier with its published contract; it succeeds only
    when no tool is published at two versions and, without an expected digest, exactly then. *)
Theorem loadToolRegistry_correct d expected r :
  (loadToolRegistry sha256 d expected = Ok r ->
     NoDup (map tool_id (tools d)) /\ r = map (fun t => (tool_id t, toolDefinition t)) (tools d) /\
     (forall t, t ∈ tools d -> ToolRegistry.get r (tool_id t) = Ok (toolDefinition t)) /\
     (forall e, expected = Some e -> toolViewDigest sha256 d = Ok e)) /\
  (is_ok (loadToolRegistry sha256 d None) = true <-> NoDup (map tool_id (tools d))).
Proof.
  split.
  - unfold loadToolRegistry. intros H. apply bind_Ok in H as ([] & Hdig & H). apply bind_Ok in H as ([] & _ & H).
    apply register_all in H as (Hnd & _ & ->). cbn [app] in *. split; [done|]. split; [done|]. split.
    + intros t Ht. unfold ToolRegistry.get.
      assert (JMap.get (map (fun t => (tool_id t, toolDefinition t)) (tools d)) (tool_id t) = Some (toolDefinition t)) as ->; [|done].
      apply get_elem; [unfold JMap.keys; rewrite map_map; exact Hnd|]. apply elem_of_map. eauto.
    + intros e ->. destruct (DIGEST_PATTERN e); [|done]. cbn [negb] in Hdig. apply bind_Ok in Hdig as (g & Hg & Hdig).
      destruct (g !=? e) eqn:E; [done|]. apply neqb_false in E as ->. done.
  - unfold loadToolRegistry. cbn [mbind result_bind]. split.
    + destruct (foldM _ tt _) as [u|]; [|done]. cbn [mbind result_bind]. destruct (foldM _ [] _) eqn:E; [|done].
      by apply register_all in E as [? _].
    + intros Hnd.
      assert (forall l, (forall x, x ∈ l -> checkVersions x = Ok tt) -> foldM (fun (_ : unit) entry => checkVersions entry) tt l = Ok tt) as ->.
      { induction l as [|x l IH]; cbn; intros Hl; [done|]. rewrite Hl by left. apply IH. intros y Hy. apply Hl. by right. }
      * cbn [mbind result_bind]. rewrite (proj2 (register_all (tools d) [] (map (fun t => (tool_id t, toolDefinition t)) (tools d)))); [done|]. split; [done|]. split; [set_solver|done].
      * intros x. by apply versions_single.
Qed.
End DigestFacts.

(** ** Concrete instances *)
Definition sample_contract (name : string) (e : EffectClass) : ToolViewTool :=
  {| tool_id := name; tool_version := "1"; description := None; input_schema := []; output_schema := []; route_id := "r";
     adapter_protocol := "http"; adapter_operation := None;
     txn := {| effect_class := e; tvt_mode := m_plain; idempotency_key_path := Some "$.order"; idempotent_retryable := true;
               try_timeout_s := None; confirm_tool := None; cancel_tool := None; compensate_tool := None; status_tool := None;
               confirm_arguments := None; cancel_arguments := None; compensate_arguments := None |};
     compensation_style := "none"; footprint := ["stock"]; writes := []; timeout_ms := Num.of_Z 1000;
     retry_constraints := {| max_attempts := Num.of_Z 3; initial_backoff_ms := Num.of_Z 10; multiplier_milli := Num.of_Z 2000; max_backoff_ms := Num.of_Z 100 |};
     owner := "team"; allowed_roles := []; log_fields := None |}.

Definition sample_document : ToolViewDocument :=
  {| tool_view_version := "1"; tools := [sample_contract "look" e_none; sample_contract "hold" e_reversible] |}.

(** A stand-in hash for concrete instances. *)
Definition sample_hash (s : string) : string := take_str 4 s.

Lemma toolViewDigest_witness :
  exists g id2, toolViewDigest sample_hash sample_document = Ok g /\ parseToolView sample_hash sample_document (Some g) = Ok (sample_document, id2) /\
    tool_view_digest id2 = g.
Proof.
  eexists _, _. split; [vm_compute; reflexivity|]. split; [vm_compute; reflexivity|].
  eapply (toolViewDigest_binding sample_hash sample_document sample_document); [vm_compute; reflexivity|vm_compute; reflexivity].
Defined.

Lemma loadToolRegistry_witness :
  exists r, loadToolRegistry sample_hash sample_document None = Ok r /\ map fst r = ["look"; "hold"] /\ NoDup (map tool_id (tools sample_document)).
Proof.
  eexists. split; [vm_compute; reflexivity|]. split; [vm_compute; reflexivity|].
  eapply (proj1 (loadToolRegistry_correct sample_hash sample_document None _)). vm_compute. reflexivity.
Defined.
