(* ===== verification/Gateway.v ===== *)
(** * The gateway client (engine/src/gateway/gateway-client.ts)

    The two uses the engine makes of gatewayd's MCP surface: discovery of an immutable tool view, and
    one routed attempt of one tool. The network is a parameter: [fetch] answers a request, and
    [decode] is [JSON.parse] of the served document. What the client promises is that a view it hands
    to the checker is the one its digest names, and that an attempt is one request. *)

From S2P Require Import Prelude Collections Number Json CheckRules ToolView.

(** The four outcomes, and any other text the wire may carry. *)
Inductive AttemptOutcome : Type := succeeded | retryable_failure | permanent_failure | unknown_outcome | other_outcome (name : string).
#[export] Instance AttemptOutcome_eq_dec : EqDecision AttemptOutcome.
Proof. solve_decision. Defined.

Record AttemptResult : Type := {
  ar_outcome : AttemptOutcome;
  ar_result : option object;
  ar_error : option string
}.

Record AttemptPin : Type := {
  ap_runId : string;
  ap_vertexId : string;
  ap_scopeId : option string;
  ap_toolVersion : string;
  ap_toolViewDigest : string;
  ap_attempt : Z;
  ap_idempotencyKey : option string;
  ap_deadlineMs : option number;
  ap_authorizationIdentity : option value
}.

Record ResolvedToolView : Type := {
  rv_identity : ToolViewIdentity;
  rv_document : ToolViewDocument;
  rv_registry : ToolRegistry.registry;
  rv_authorizationIdentity : option value
}.

Record DiscoveryAuthorization : Type := { bearerToken : string; da_runId : option string }.

(** What a request may end in: a value, a refusal the gateway decided before dispatch, or any other
    exception. *)
Inductive gateway (A : Type) : Type :=
| Answer (a : A)
| GatewayRefusal (reason msg : string)
| GatewayError (msg : string).
Arguments Answer {A} a.
Arguments GatewayRefusal {A} reason msg.
Arguments GatewayError {A} msg.

#[global] Instance gateway_bind : MBind gateway := fun A B k m =>
  match m with Answer a => k a | GatewayRefusal r e => GatewayRefusal r e | GatewayError e => GatewayError e end.

(** A synchronous step that may throw, inside a request. *)
Definition lift {A} (r : result A) : gateway A := match r with Ok a => Answer a | Throw e => GatewayError e end.

Record RpcError : Type := { re_message : string; re_reason : option string }.
Record RpcResponse : Type := { rr_result : option object; rr_error : option RpcError }.
Record Response : Type := { ok : bool; status : Z; json : result RpcResponse }.
Record Request : Type := { rq_url : string; rq_headers : list (string * string); rq_body : value }.

(** [baseUrl.replace(/\/+$/, '')] *)
Fixpoint stripSlashes (s : string) : string :=
  match s with
  | "" => ""
  | String a s' => match stripSlashes s' with
                   | "" => if a ==? "/"%char then "" else String a ""
                   | r => String a r
                   end
  end.

Record GatewayClient : Type := { baseUrl : string; nextId : Z }.
Definition newClient (url : string) : GatewayClient := {| baseUrl := stripSlashes url; nextId := 1 |}.

Section Client.
Variable fetch : Request -> result Response.
(** [JSON.parse] of a canonical document. *)
Variable decode : string -> result ToolViewDocument.
Variable sha256 : string -> string.
(** The base64url text of the serialized identity. *)
Variable identityHeader : value -> string.

Definition request (c : GatewayClient) (method : string) (params : object) (extra : list (string * string)) : Request :=
  {| rq_url := baseUrl c +:+ "/mcp"; rq_headers := ("Content-Type", "application/json") :: extra;
     rq_body := VObj [("jsonrpc", VStr "2.0"); ("id", VNum (Num.of_Z (nextId c))); ("method", VStr method); ("params", VObj params)] |}.

Definition send (c : GatewayClient) (method : string) (params : object) (extra : list (string * string)) : gateway object * GatewayClient :=
  (response ← lift (fetch (request c method params extra));
   if negb (ok response) then GatewayError ("gateway: " +:+ method +:+ " returned HTTP " +:+ zstr (status response)) else
   decoded ← lift (json response);
   match rr_error decoded with
   | Some e => match truthy (re_reason e) with
               | Some reason => GatewayRefusal reason (re_message e)
               | None => GatewayError ("gateway: " +:+ method +:+ ": " +:+ re_message e)
               end
   | None => Answer (default [] (rr_result decoded))
   end, {| baseUrl := baseUrl c; nextId := nextId c + 1 |}).

Definition viewParams (toolViewDigest : option string) (authorization : option DiscoveryAuthorization) : object :=
  opt_prop "tool_view_digest" VStr (truthy toolViewDigest) ++
  opt_prop "run_id" VStr (truthy (authorization ≫= da_runId)).

Definition bearer (authorization : option DiscoveryAuthorization) : list (string * string) :=
  match truthy (bearerToken <$> authorization) with Some t => [("Authorization", "Bearer " +:+ t)] | None => [] end.

(** The view a discovery answer carries, re-verified. The fields of [_meta] are strings by its cast. *)
Definition readView (answer : object) : gateway ResolvedToolView :=
  let meta := default [] (Js.as_object (Js.field answer "_meta")) in
  match truthy (Js.str_field meta "tool_view_digest") with
  | None => GatewayError "gateway: tools/list returned no tool-view identity"
  | Some digest =>
      match truthy (Js.str_field meta "tool_view_document") with
      | None => GatewayError "gateway: tools/list returned no canonical document to verify"
      | Some text =>
          decoded ← lift (decode text);
          parsed ← lift (parseToolView sha256 decoded (Some digest));
          registry ← lift (loadToolRegistry sha256 (fst parsed) None);
          Answer {| rv_identity := {| tool_view_ref := default "" (Js.str_field meta "tool_view_ref"); tool_view_digest := digest |};
                    rv_document := fst parsed; rv_registry := registry;
                    rv_authorizationIdentity :=
                      (if Js.truthy_value (Js.field meta "authorization_identity") then Some (Js.field meta "authorization_identity") else None) |}
      end
  end.

Definition resolveToolView (c : GatewayClient) (toolViewDigest : option string) (authorization : option DiscoveryAuthorization)
    : gateway ResolvedToolView * GatewayClient :=
  let '(answer, c') := send c "tools/list" (viewParams toolViewDigest authorization) (bearer authorization) in
  (answer ≫= readView, c').

Definition outcomeOf (o : string) : AttemptOutcome :=
  if o ==? "succeeded" then succeeded else if o ==? "retryable-failure" then retryable_failure
  else if o ==? "permanent-failure" then permanent_failure else if o ==? "unknown" then unknown_outcome else other_outcome o.

(** The structured content of an attempt, by its cast; [None] when it names no outcome. *)
Definition readAttempt (answer : object) : option AttemptResult :=
  let structured := default [] (Js.as_object (Js.field answer "structuredContent")) in
  (fun o => {| ar_outcome := outcomeOf o; ar_result := Js.as_object (Js.field structured "result"); ar_error := Js.str_field structured "error" |})
    <$> truthy (Js.str_field structured "outcome").

Definition callParams (name : string) (args : object) (pin : AttemptPin) : object :=
  [("name", VStr name); ("arguments", VObj args);
   ("_meta", VObj [("run_id", VStr (ap_runId pin)); ("vertex_id", VStr (ap_vertexId pin)); ("scope_id", VStr (default "" (ap_scopeId pin)));
                   ("tool_version", VStr (ap_toolVersion pin)); ("tool_view_digest", VStr (ap_toolViewDigest pin));
                   ("attempt", VNum (Num.of_Z (ap_attempt pin))); ("idempotency_key", VStr (default "" (ap_idempotencyKey pin)));
                   ("deadline_ms", VNum (default (Num.of_Z 0) (ap_deadlineMs pin)))])].

Definition call (c : GatewayClient) (name : string) (args : object) (pin : AttemptPin) : gateway AttemptResult * GatewayClient :=
  let headers := match ap_authorizationIdentity pin with Some i => [("X-Flory-Workflow-Identity", identityHeader i)] | None => [] end in
  let '(answer, c') := send c "tools/call" (callParams name args pin) headers in
  (result ← answer;
   match readAttempt result with
   | Some a => Answer a
   | None => GatewayError ("gateway: tools/call for " +:+ name +:+ " returned no outcome")
   end, c').

End Client.

(** ** Facts *)
Lemma lift_Answer {A} (r : result A) a : lift r = Answer a <-> r = Ok a.
Proof. destruct r; cbn; naive_solver. Qed.

Lemma bind_Answer {A B} (k : A -> gateway B) (m : gateway A) (b : B) :
  m ≫= k = Answer b <-> exists a, m = Answer a /\ k a = Answer b.
Proof. destruct m; cbn; naive_solver. Qed.

(** C40. Discovery fails closed: a tool view the client returns canonicalises to the digest it is
    recorded under, its registry holds exactly the contracts of that document under their names, and
    the digest is the one the gateway announced over HTTP success with no error. A request consumes
    exactly one id whatever it ends in. *)
Theorem resolveToolView_verified fetch decode sha256 c digest authorization v :
  fst (resolveToolView fetch decode sha256 c digest authorization) = Answer v ->
  toolViewDigest sha256 (rv_document v) = Ok (tool_view_digest (rv_identity v)) /\
  NoDup (map tool_id (tools (rv_document v))) /\
  rv_registry v = map (fun t => (tool_id t, toolDefinition t)) (tools (rv_document v)) /\
  (exists response rpc, fetch (request c "tools/list" (viewParams digest authorization) (bearer authorization)) = Ok response /\
     ok response = true /\ json response = Ok rpc /\ rr_error rpc = None /\
     Js.str_field (default [] (Js.as_object (Js.field (default [] (rr_result rpc)) "_meta"))) "tool_view_digest" =
       Some (tool_view_digest (rv_identity v))) /\
  nextId (snd (resolveToolView fetch decode sha256 c digest authorization)) = nextId c + 1.
Proof.
  unfold resolveToolView, send. cbn [fst snd nextId]. intros H. apply bind_Answer in H as (answer & Ha & H).
  apply bind_Answer in Ha as (response & Hf & Ha). apply lift_Answer in Hf.
  destruct (ok response) eqn:Eok; [cbn [negb] in Ha|done]. apply bind_Answer in Ha as (rpc & Hj & Ha). apply lift_Answer in Hj.
  destruct (rr_error rpc) as [e|] eqn:Ee; [by destruct (truthy (re_reason e))|]. injection Ha as <-.
  unfold readView in H. set (meta := default [] (Js.as_object _)) in *.
  destruct (truthy (Js.str_field meta "tool_view_digest")) as [g|] eqn:Eg; [|done].
  destruct (truthy (Js.str_field meta "tool_view_document")) as [text|]; [|done].
  apply bind_Answer in H as (doc & _ & H). apply bind_Answer in H as (parsed & Hp & H). apply lift_Answer in Hp.
  apply bind_Answer in H as (reg & Hr & H). apply lift_Answer in Hr. injection H as <-. cbn [rv_document rv_identity tool_view_digest rv_registry].
  apply parseToolView_digest in Hp as [Hdoc Hd]. rewrite Hdoc in *. apply loadToolRegistry_stored in Hr as [Hnd ->].
  split; [exact Hd|]. split; [exact Hnd|]. split; [done|]. split; [|done].
  exists response, rpc. do 4 (split; [done|]). apply truthy_Some in Eg as [Eg _]. exact Eg.
Qed.

(** ** A gateway that serves one view *)
Definition sample_digest : string := "sha256:" +:+ sample_hash (default "" (match canonicalizeToolView sample_document with Ok s => Some s | Throw _ => None end)).
Definition sample_fetch (_ : Request) : result Response :=
  Ok {| ok := true; status := 200;
        json := Ok {| rr_error := None; rr_result := Some [("_meta", VObj [("tool_view_ref", VStr "ref"); ("tool_view_digest", VStr sample_digest);
                                                                            ("tool_view_document", VStr "text")])] |} |}.
Definition sample_decode (_ : string) : result ToolViewDocument := Ok sample_document.
Definition sample_view : ResolvedToolView :=
  {| rv_identity := {| tool_view_ref := "ref"; tool_view_digest := sample_digest |}; rv_document := sample_document;
     rv_registry := map (fun t => (tool_id t, toolDefinition t)) (tools sample_document); rv_authorizationIdentity := None |}.

Lemma resolveToolView_witness :
  fst (resolveToolView sample_fetch sample_decode sample_hash (newClient "http://gateway//") None None) = Answer sample_view /\
  toolViewDigest sample_hash sample_document = Ok sample_digest.
Proof.
  split; [vm_compute; reflexivity|].
  apply (resolveToolView_verified sample_fetch sample_decode sample_hash (newClient "http://gateway//") None None sample_view).
  vm_compute. reflexivity.
Defined.
