(* ===== verification/RuleTemplate.v ===== *)
(** * Rule templates (engine/src/router/rule-template.ts)

    Publication admission Q1-Q6, the derived capability envelope, the content address a router pins a
    template by, the recorded patch against the previous version, slot coordinates, and the store that
    resolves them. SHA-256 and the configuration stream are parameters. *)

From S2P Require Import Prelude Collections Number Json CheckRules ToolView Gateway.

Definition CONFIGURATION_STREAM_ID : string := "config:rule-templates".

Record RuleBranch : Type := { condition : string; subDag : SubDagProposal }.

Record RuleTemplateDraft : Type := {
  templateRef : string;
  author : string;
  branches : list RuleBranch;
  slotId : option string
}.

Record TemplateCapability : Type := {
  maxEffectClass : EffectClass;
  canOpenScope : bool;
  canProvidePivot : bool;
  isPureReadOnly : bool
}.

(** Per-branch morphology: the admissible branch the freeze gate judges. *)
Abbreviation BranchTraits := AdmissibleBranch.

Record PublishedRuleTemplate : Type := {
  pt_templateRef : string;
  pt_digest : string;
  pt_author : string;
  pt_branches : list BranchTraits;
  pt_capability : TemplateCapability;
  pt_slotId : option string
}.

Inductive PublicationCode : Type := Q1 | Q2 | Q3 | Q4 | Q5 | Q6.
Record PublicationViolation : Type := { pq_code : PublicationCode; pq_message : string; pq_branch : Z }.

Inductive PublicationResult : Type :=
| PublicationAdmitted (template : PublishedRuleTemplate)
| Refused (violations : list PublicationViolation).

(** ** Effects *)
Definition EFFECT_ORDER : list EffectClass := [e_none; e_bufferable; e_reversible; e_irreversible].

(** [EFFECT_ORDER.indexOf(e)] *)
Definition effectRank (e : EffectClass) : Z :=
  match e with e_none => 0 | e_bufferable => 1 | e_reversible => 2 | e_irreversible => 3 end.

Definition higherEffect (first second : EffectClass) : EffectClass :=
  if effectRank second <=? effectRank first then first else second.

(** The effect class of a vertex that names a tool the registry knows. *)
Definition vertexEffect (registry : ToolRegistry.registry) (v : ProposalVertex) : option EffectClass :=
  match pv_kind v, truthy (pv_tool v) with
  | k_tool, Some t => td_effectClass <$> JMap.get registry t
  | _, _ => None
  end.

Definition traitStep (registry : ToolRegistry.registry) (acc : EffectClass * bool) (v : ProposalVertex) : EffectClass * bool :=
  match vertexEffect registry v with
  | None => acc
  | Some effect => (higherEffect (fst acc) effect, if effect ==? e_irreversible then true else snd acc)
  end.

Definition traitsOf (branch : RuleBranch) (resolved : ResolvedToolView) : BranchTraits :=
  let '(maxEffect, hasPivot) := fold_left (traitStep (rv_registry resolved)) (p_vertices (subDag branch)) (e_none, false) in
  {| ab_condition := condition branch; ab_subDag := subDag branch;
     ab_opensScope := (0 <? length (p_scopes (subDag branch)))%nat; ab_hasPivot := hasPivot; ab_maxEffect := maxEffect |}.

Definition capabilityOf (bs : list BranchTraits) : TemplateCapability :=
  let maxEffectClass := fold_left (fun highest b => higherEffect highest (ab_maxEffect b)) bs e_none in
  {| maxEffectClass := maxEffectClass; canOpenScope := existsb ab_opensScope bs; canProvidePivot := existsb ab_hasPivot bs;
     isPureReadOnly := maxEffectClass ==? e_none |}.

(** ** The three patterns over a condition's text *)
Module Pattern.

Definition lower (a : ascii) : bool := let n := nat_of_ascii a in ((97 <=? n) && (n <=? 122))%nat.
Definition upper (a : ascii) : bool := let n := nat_of_ascii a in ((65 <=? n) && (n <=? 90))%nat.
Definition digit (a : ascii) : bool := let n := nat_of_ascii a in ((48 <=? n) && (n <=? 57))%nat.

(** [\w] *)
Definition word (a : ascii) : bool := lower a || upper a || digit a || (a ==? "_"%char).
(** [[A-Za-z_]] *)
Definition head (a : ascii) : bool := lower a || upper a || (a ==? "_"%char).
(** [[\w.-]] and [[\w.]] *)
Definition name_char (a : ascii) : bool := word a || (a ==? "."%char) || (a ==? "-"%char).
Definition path_char (a : ascii) : bool := word a || (a ==? "."%char).

(** [\b] before a text whose previous character is [prev]. *)
Definition boundary (prev : option ascii) (s : string) : bool :=
  let before := match prev with Some a => word a | None => false end in
  let after := match s with String a _ => word a | "" => false end in
  xorb before after.

(** The last character of a text that follows [prev]. *)
Fixpoint last_char (prev : option ascii) (s : string) : option ascii :=
  match s with "" => prev | String a s => last_char (Some a) s end.

(** Some occurrence of [\bkeyword\b], where [same] compares a prefix with the keyword. *)
Fixpoint word_at (matches : string -> option string) (keyword : string) (prev : option ascii) (s : string) : bool :=
  (boundary prev s && match matches s with Some rest => boundary (last_char prev keyword) rest | None => false end) ||
  match s with "" => false | String a s => word_at matches keyword (Some a) s end.

Definition prefix_of (keyword s : string) : option string :=
  if starts_with keyword s then Some (drop_str (String.length keyword) s) else None.

Definition to_lower (a : ascii) : ascii := if upper a then ascii_of_nat (nat_of_ascii a + 32) else a.
Fixpoint lowercase (s : string) : string := match s with "" => "" | String a s => String (to_lower a) (lowercase s) end.

(** [\(\s*\)] somewhere in the text *)
Fixpoint skip_space (s : string) : string :=
  match s with String a s' => if Num.is_space a then skip_space s' else s | "" => "" end.
Fixpoint empty_call (s : string) : bool :=
  match s with
  | "" => false
  | String a s => ((a ==? "("%char) && match skip_space s with String b _ => b ==? ")"%char | "" => false end) || empty_call s
  end.

(** [IMPURE.test(s)] *)
Definition IMPURE (s : string) : bool :=
  existsb (fun k => word_at (prefix_of k) k None s) ["now"; "Date"; "fetch"; "require"; "import"; "blob"; "await"] || empty_call s.

(** [/\bfallback\b/i.test(s)]: every character of the keyword is a letter, so its case does not
    matter to the boundaries. *)
Definition FALLBACK (s : string) : bool := word_at (prefix_of "fallback") "fallback" None (lowercase s).

(** The longest run of characters satisfying [p], and what follows it. *)
Fixpoint span (p : ascii -> bool) (s : string) : string * string :=
  match s with
  | String a s' => if p a then let '(x, r) := span p s' in (String a x, r) else ("", s)
  | "" => ("", "")
  end.

(** The greedy name followed by [.output.] and a path: the name is the longest that leaves one. *)
Fixpoint reference_from (k : nat) (s : string) : option (string * string * string) :=
  let '(path, rest) := span path_char (drop_str 8 (drop_str k s)) in
  if starts_with ".output." (drop_str k s) && (path !=? "") then Some (take_str k s, path, rest)
  else match k with O | S O => None | S k => reference_from k s end.

(** One match of [FIELD_REFERENCE] at the start of a text. *)
Definition reference_at (s : string) : option (string * string * string) :=
  match s with
  | "" => None
  | String a s' => if head a then reference_from (S (String.length (fst (span name_char s')))) s else None
  end.

(** [s.matchAll(FIELD_REFERENCE)]: the tool and path of each match, left to right. *)
Fixpoint references (fuel : nat) (s : string) : list (string * string) :=
  match fuel, s with
  | O, _ | _, "" => []
  | S fuel, String _ s' =>
      match reference_at s with
      | Some (tool, path, rest) => (tool, path) :: references fuel rest
      | None => references fuel s'
      end
  end.
Definition FIELD_REFERENCE (s : string) : list (string * string) := references (String.length s) s.

End Pattern.

Example FIELD_REFERENCE_reads :
  Pattern.FIELD_REFERENCE "order.lookup.output.risk_score < 30 and x.output.a.output.b" =
  [("order.lookup", "risk_score"); ("x.output.a", "b")].
Proof. vm_compute. reflexivity. Qed.

Example IMPURE_reads :
  map Pattern.IMPURE ["nowhere.output.x == 1"; "a.now == 1"; "f( ) == 1"; "blob_x"] = [false; true; true; false] /\
  map Pattern.FALLBACK ["FallBack"; "fallbacks"] = [true; false].
Proof. vm_compute. done. Qed.

(** ** Publication *)
Definition violation (code : PublicationCode) (message : string) (branch : Z) : PublicationViolation :=
  {| pq_code := code; pq_message := message; pq_branch := branch |}.

Section Publication.
Context (resolved : ResolvedToolView).

Definition logFieldsOf (toolId : string) : option (list string) :=
  find (fun t => tool_id t ==? toolId) (tools (rv_document resolved)) ≫= log_fields.

(** One reference of a condition: the tool is published and declares the path as a log field. *)
Definition referenceViolations (index : nat) (reference : string * string) : list PublicationViolation :=
  let '(toolId, path) := reference in
  if negb (ToolRegistry.has (rv_registry resolved) toolId)
  then [violation Q1 ("branch " +:+ nstr index +:+ " condition reads " +:+ toolId +:+ ", which the published tool view does not know") (Z.of_nat index)]
  else if negb (match logFieldsOf toolId with Some declared => includes path declared | None => false end)
  then [violation Q1 ("branch " +:+ nstr index +:+ " condition reads " +:+ toolId +:+ ".output." +:+ path +:+ ", which " +:+ toolId +:+
                      " does not declare as a log field") (Z.of_nat index)]
  else [].

Definition checkConditionPurity (branch : RuleBranch) (index : nat) : list PublicationViolation :=
  if Pattern.IMPURE (condition branch)
  then [violation Q1 ("branch " +:+ nstr index +:+ " condition is not a pure predicate over summary fields") (Z.of_nat index)]
  else flat_map (referenceViolations index) (Pattern.FIELD_REFERENCE (condition branch)).

Definition unresolvedTools (branch : RuleBranch) (index : nat) : list PublicationViolation :=
  flat_map (fun v => match pv_kind v, truthy (pv_tool v) with
    | k_tool, Some t => if ToolRegistry.has (rv_registry resolved) t then []
                        else [violation Q2 ("branch " +:+ nstr index +:+ " names " +:+ t +:+ ", absent from the published tool view") (Z.of_nat index)]
    | _, _ => [] end) (p_vertices (subDag branch)).

(** One pass of the first loop: the conditions seen so far and what was reported. *)
Definition branchStep (acc : list string * list PublicationViolation) (entry : nat * RuleBranch) : list string * list PublicationViolation :=
  let '(conditions, vs) := acc in
  let '(index, branch) := entry in
  (JSet.add conditions (condition branch),
   vs ++
   (if JSet.has conditions (condition branch)
    then [violation Q5 ("branch " +:+ nstr index +:+ " repeats an earlier condition, so first-match order is ambiguous") (Z.of_nat index)] else []) ++
   (if Pattern.FALLBACK (condition branch)
    then [violation Q6 ("branch " +:+ nstr index +:+ " declares a fallback; fall-through to the downstream planner is structural") (Z.of_nat index)] else []) ++
   checkConditionPurity branch index ++ unresolvedTools branch index).

Definition structuralViolations (draft : RuleTemplateDraft) : list PublicationViolation :=
  snd (fold_left branchStep (entries (branches draft))
         ([], match branches draft with [] => [violation Q5 "a template requires at least one ordered branch" (-1)] | _ => [] end)).

Definition rule_name (r : RuleCode) : string :=
  "R" +:+ nstr match r with
              | R1 => 1 | R2 => 2 | R3 => 3 | R4 => 4 | R5 => 5 | R6 => 6 | R7 => 7
              | R8 => 8 | R9 => 9 | R10 => 10 | R11 => 11 | R12 => 12 | R13 => 13 | R14 => 14
              end.

Definition isolationViolations (entry : nat * RuleBranch) : result (list PublicationViolation) :=
  let '(index, branch) := entry in
  r ← checkSubDag (subDag branch) (rv_registry resolved) [];
  Ok (map (fun v => violation Q4 ("branch " +:+ nstr index +:+ " is not admissible in isolation: " +:+ rule_name (rule v) +:+ " " +:+ message v)
                              (Z.of_nat index)) (violations r)).
End Publication.

(** ** Content addresses *)
Definition vertex_value (v : ProposalVertex) : value :=
  VObj ([("id", VStr (pv_id v)); ("parents", strings (pv_parents v)); ("kind", VStr (kind_name (pv_kind v)))] ++
        opt_prop "tool" VStr (pv_tool v) ++ opt_prop "scopeId" VStr (pv_scopeId v) ++
        opt_prop "confirmedOutput" VBool (pv_confirmedOutput v) ++ opt_prop "templateRef" VStr (pv_templateRef v)).
Definition scope_value (s : ProposalScope) : value := VObj [("id", VStr (ps_id s)); ("members", strings (ps_members s))].
Definition subDag_value (d : SubDagProposal) : value :=
  VObj [("vertices", VArr (map vertex_value (p_vertices d))); ("scopes", VArr (map scope_value (p_scopes d)))].
Definition branch_value (b : RuleBranch) : value := VObj [("condition", VStr (condition b)); ("subDag", subDag_value (subDag b))].
Definition content_value (draft : RuleTemplateDraft) : value :=
  VObj [("templateRef", VStr (templateRef draft)); ("branches", VArr (map branch_value (branches draft)))].

(** One RFC 6902 operation. *)
Inductive PatchOp : Type := op_add | op_remove | op_replace.
Record PatchOperation : Type := { op : PatchOp; path : string; pvalue : option value }.

Definition branch_path (index : nat) : string := "/branches/" +:+ nstr index.

(** One index of the diff: [undefined] on a side past its end. *)
Definition diffAt (index : nat) (before after : option RuleBranch) : list PatchOperation :=
  match before, after with
  | Some _, None => [{| op := op_remove; path := branch_path index; pvalue := None |}]
  | None, Some a => [{| op := op_add; path := branch_path index; pvalue := Some (branch_value a) |}]
  | Some b, Some a => if Text.canonicalText (branch_value b) !=? Text.canonicalText (branch_value a)
                      then [{| op := op_replace; path := branch_path index; pvalue := Some (branch_value a) |}] else []
  | None, None => []
  end.

Definition diffTemplates (previous : option RuleTemplateDraft) (next : RuleTemplateDraft) : list PatchOperation :=
  match previous with
  | None => [{| op := op_add; path := ""; pvalue := Some (content_value next) |}]
  | Some previous =>
      flat_map (fun index => diffAt index (branches previous !! index) (branches next !! index))
               (seq 0 (Nat.max (length (branches previous)) (length (branches next))))
  end.

Section Addresses.
Variable sha256 : string -> string.

Definition digestOfTemplate (draft : RuleTemplateDraft) : string := "sha256:" +:+ sha256 (Text.canonicalText (content_value draft)).

Definition slot_value (workflowType : string) (upstream : list string) (target : string) : value :=
  VObj [("workflowType", VStr workflowType); ("upstream", strings (js_sort strcmp upstream)); ("target", VStr target)].

Definition slotIdOf (workflowType : string) (upstreamToolTypes : list string) (targetPlannerTemplate : string) : string :=
  "slot:" +:+ take_str 32 (sha256 (Text.canonicalText (slot_value workflowType upstreamToolTypes targetPlannerTemplate))).

Definition publishRuleTemplate (draft : RuleTemplateDraft) (resolved : ResolvedToolView) : result PublicationResult :=
  match structuralViolations resolved draft with
  | (_ :: _) as vs => Ok (Refused vs)
  | [] =>
      vss ← mapR (isolationViolations resolved) (entries (branches draft));
      match concat vss with
      | (_ :: _) as vs => Ok (Refused vs)
      | [] =>
          let traits := map (fun b => traitsOf b resolved) (branches draft) in
          Ok (PublicationAdmitted {| pt_templateRef := templateRef draft; pt_digest := digestOfTemplate draft; pt_author := author draft;
                          pt_branches := traits; pt_capability := capabilityOf traits; pt_slotId := truthy (slotId draft) |})
      end
  end.

(** ** The store *)
Record RuleTemplateStore : Type := {
  byRef : list (string * PublishedRuleTemplate);
  byDigest : list (string * PublishedRuleTemplate);
  drafts : list (string * RuleTemplateDraft);
  bySlot : list (string * string)
}.

Definition emptyStore : RuleTemplateStore := {| byRef := []; byDigest := []; drafts := []; bySlot := [] |}.

Definition op_name (o : PatchOp) : string := match o with op_add => "add" | op_remove => "remove" | op_replace => "replace" end.
Definition patch_value (p : PatchOperation) : value :=
  VObj ([("op", VStr (op_name (op p))); ("path", VStr (path p))] ++ opt_prop "value" id (pvalue p)).

Definition publishedPayload (previous : option RuleTemplateDraft) (draft : RuleTemplateDraft) (t : PublishedRuleTemplate) : object :=
  [("template_ref", VStr (templateRef draft)); ("digest", VStr (pt_digest t))] ++
  opt_prop "predecessor_digest" (fun p => VStr (digestOfTemplate p)) previous ++
  [("diff", VArr (map patch_value (diffTemplates previous draft))); ("author", VStr (author draft))] ++
  opt_prop "slot_id" VStr (truthy (slotId draft)) ++
  [("capability", VObj [("max_effect_class", VStr (effect_name (maxEffectClass (pt_capability t))));
                        ("can_open_scope", VBool (canOpenScope (pt_capability t)));
                        ("can_provide_pivot", VBool (canProvidePivot (pt_capability t)));
                        ("is_pure_read_only", VBool (isPureReadOnly (pt_capability t)))])].

(** What a published template changes in the index. *)
Definition index (s : RuleTemplateStore) (draft : RuleTemplateDraft) (t : PublishedRuleTemplate) : RuleTemplateStore :=
  {| drafts := JMap.set (drafts s) (templateRef draft) draft;
     byRef := JMap.set (byRef s) (templateRef draft) t;
     byDigest := JMap.set (byDigest s) (pt_digest t) t;
     bySlot := match truthy (slotId draft) with Some slot => JMap.set (bySlot s) slot (templateRef draft) | None => bySlot s end |}.

(** The configuration stream: an append that may fail. *)
Context {Log : Type}.
Variable appendConfigEvent : Log -> string -> string -> object -> result Log.

(** [publish]: the record first, the index after it. *)
Definition publish (log : Log) (s : RuleTemplateStore) (draft : RuleTemplateDraft) (resolved : ResolvedToolView)
    : result PublicationResult * Log * RuleTemplateStore :=
  match publishRuleTemplate draft resolved with
  | Throw e => (Throw e, log, s)
  | Ok (Refused vs) => (Ok (Refused vs), log, s)
  | Ok (PublicationAdmitted t) =>
      match appendConfigEvent log CONFIGURATION_STREAM_ID "rule_template/published"
              (publishedPayload (JMap.get (drafts s) (templateRef draft)) draft t) with
      | Throw e => (Throw e, log, s)
      | Ok log' => (Ok (PublicationAdmitted t), log', index s draft t)
      end
  end.

Definition resolve (s : RuleTemplateStore) (reference : string) : option PublishedRuleTemplate :=
  match JMap.get (byRef s) reference with Some t => Some t | None => JMap.get (byDigest s) reference end.

Definition resolveSlot (s : RuleTemplateStore) (slot : string) : option PublishedRuleTemplate :=
  match truthy (JMap.get (bySlot s) slot) with Some reference => JMap.get (byRef s) reference | None => None end.
End Addresses.
