(* ===== verification/RuleTemplateFacts.v ===== *)
(** * Facts about rule templates

    Publication admits exactly the templates of Q1-Q6 and summarizes them soundly; a digest pins a
    template's content; a recorded patch rebuilds the next version; a slot coordinate is independent
    of vertex order; a pinned reference keeps resolving to the content it named. *)

From S2P Require Import Prelude Collections Number Json Graph CheckRules CheckRulesFacts ToolView Gateway RuleTemplate.

(** ** Content addresses are injective *)
Lemma opt_VStr_inj (a b : option string) : Text.normal <$> (VStr <$> a) = Text.normal <$> (VStr <$> b) -> a = b.
Proof. destruct a, b; cbn; congruence. Qed.

Lemma opt_VBool_inj (a b : option bool) : Text.normal <$> (VBool <$> a) = Text.normal <$> (VBool <$> b) -> a = b.
Proof. destruct a, b; cbn; congruence. Qed.

Lemma strings_inj l1 l2 : Text.normal (strings l1) = Text.normal (strings l2) -> l1 = l2.
Proof. cbn. intros [= H]. apply map_map_inj in H; [done|]. cbn. congruence. Qed.

Lemma strings_textual l : textual (strings l) = true.
Proof. cbn. apply forallb_true. intros x. rewrite elem_of_map. by intros (? & -> & _). Qed.

(** What the object of a vertex holds under each key. *)
Lemma vertex_fields v :
  exists f, vertex_value v = VObj f /\ textual (VObj f) = true /\ NoDup (map fst f) /\
    JMap.get f "id" = Some (VStr (pv_id v)) /\ JMap.get f "parents" = Some (strings (pv_parents v)) /\
    JMap.get f "kind" = Some (VStr (kind_name (pv_kind v))) /\ JMap.get f "tool" = VStr <$> pv_tool v /\
    JMap.get f "scopeId" = VStr <$> pv_scopeId v /\ JMap.get f "confirmedOutput" = VBool <$> pv_confirmedOutput v /\
    JMap.get f "templateRef" = VStr <$> pv_templateRef v.
Proof.
  eexists. split; [reflexivity|].
  destruct v as [id ps k [t|] [s|] [c|] [r|]];
    (split; [cbn -[strings]; rewrite strings_textual; reflexivity|]);
    (split; [apply (bool_decide_unpack _); vm_compute; exact I|]); split_and!; reflexivity.
Qed.

Lemma kind_name_inj a b : kind_name a = kind_name b -> a = b.
Proof. by destruct a, b. Qed.

Lemma vertex_value_inj v w : Text.normal (vertex_value v) = Text.normal (vertex_value w) -> v = w.
Proof.
  destruct (vertex_fields v) as (f & -> & Htf & Hnf & Hf). destruct (vertex_fields w) as (g & -> & Htg & Hng & Hg). intros H.
  assert (forall k, Text.normal <$> JMap.get f k = Text.normal <$> JMap.get g k) as Hk.
  { intros k. rewrite <- !member_normal by done. by rewrite H. }
  destruct Hf as (F1 & F2 & F3 & F4 & F5 & F6 & F7), Hg as (G1 & G2 & G3 & G4 & G5 & G6 & G7).
  pose proof (Hk "id") as E1. rewrite F1, G1 in E1. pose proof (Hk "parents") as E2. rewrite F2, G2 in E2.
  pose proof (Hk "kind") as E3. rewrite F3, G3 in E3. pose proof (Hk "tool") as E4. rewrite F4, G4 in E4.
  pose proof (Hk "scopeId") as E5. rewrite F5, G5 in E5. pose proof (Hk "confirmedOutput") as E6. rewrite F6, G6 in E6.
  pose proof (Hk "templateRef") as E7. rewrite F7, G7 in E7.
  apply opt_VStr_inj in E4, E5, E7. apply opt_VBool_inj in E6.
  assert (pv_parents v = pv_parents w) by (apply strings_inj; cbn -[strings Text.normal] in E2; congruence).
  assert (pv_kind v = pv_kind w) by (apply kind_name_inj; cbn in E3; congruence).
  destruct v, w; cbn in *; congruence.
Qed.

Lemma scope_value_inj s t : Text.normal (scope_value s) = Text.normal (scope_value t) -> s = t.
Proof.
  cbn -[strings]. intros [= Hi Hm]. apply map_map_inj in Hm; [|cbn; congruence]. destruct s, t; cbn in *; congruence.
Qed.

Lemma branch_value_inj b c : Text.normal (branch_value b) = Text.normal (branch_value c) -> b = c.
Proof.
  destruct b as [bc [bv bs]], c as [cc [cv cs]]. cbn -[vertex_value scope_value]. intros [= -> Hs Hv].
  apply map_map_inj in Hs; [|apply scope_value_inj]. apply map_map_inj in Hv; [|apply vertex_value_inj]. by subst.
Qed.

Lemma textual_map {A} (f : A -> value) l : (forall x, textual (f x) = true) -> textual (VArr (map f l)) = true.
Proof. intros Hf. apply forallb_true. intros x. rewrite elem_of_map. intros (y & -> & _). apply Hf. Qed.

Lemma branch_textual b : textual (branch_value b) = true.
Proof.
  change (textual (subDag_value (subDag b)) && true = true). rewrite andb_true_r.
  change (textual (VArr (map vertex_value (p_vertices (subDag b)))) && (textual (VArr (map scope_value (p_scopes (subDag b)))) && true) = true).
  rewrite !textual_map; [done|..].
  - intros s. change (textual (strings (ps_members s)) && true = true). by rewrite strings_textual.
  - intros v. by destruct (vertex_fields v) as (f & -> & ? & _).
Qed.

Lemma content_textual d : textual (content_value d) = true.
Proof. change (textual (VArr (map branch_value (branches d))) && true = true). rewrite textual_map; [done|]. apply branch_textual. Qed.

Lemma content_value_inj d e :
  Text.normal (content_value d) = Text.normal (content_value e) -> templateRef d = templateRef e /\ branches d = branches e.
Proof.
  cbn -[branch_value]. intros [= Hb Hr]. apply map_map_inj in Hb; [done|apply branch_value_inj].
Qed.

(** A digest pins a template: two drafts with one digest have the same reference and the same
    ordered branches — conditions and sub-DAGs alike — or their canonical texts collide under
    SHA-256. The author and the slot are not part of the address. *)
Lemma digestOfTemplate_binding sha256 d e :
  digestOfTemplate sha256 d = digestOfTemplate sha256 e ->
  (templateRef d = templateRef e /\ branches d = branches e) \/
  collides sha256 (Text.canonicalText (content_value d)) (Text.canonicalText (content_value e)).
Proof.
  unfold digestOfTemplate. intros H. apply (inj (String.append "sha256:")) in H.
  destruct (decide (Text.canonicalText (content_value d) = Text.canonicalText (content_value e))) as [Heq|Hne]; [left|by right].
  apply content_value_inj, canonicalText_injective; [apply content_textual..|done].
Qed.

(** ** Recorded patches

    RFC 6902 on the [branches] array: [add] inserts at an index up to the length, [remove] and
    [replace] need an existing element, and the operations of a patch apply one after the other. *)
Definition patch_index (bs : list value) (p : string) : option nat :=
  find (fun i => branch_path i ==? p) (seq 0 (S (length bs))).

Definition applyOperation (bs : list value) (o : PatchOperation) : option (list value) :=
  match op o, pvalue o with
  | op_add, Some v =>
      if path o ==? "" then match Js.as_object v with
                            | Some c => match Js.field c "branches" with VArr l => Some l | _ => None end
                            | None => None end
      else i ← patch_index bs (path o); Some (take i bs ++ v :: drop i bs)
  | op_replace, Some v => i ← patch_index bs (path o); if (i <? length bs)%nat then Some (take i bs ++ v :: drop (S i) bs) else None
  | op_remove, _ => i ← patch_index bs (path o); if (i <? length bs)%nat then Some (take i bs ++ drop (S i) bs) else None
  | _, None => None
  end.

Fixpoint applyPatch (bs : list value) (ops : list PatchOperation) : option (list value) :=
  match ops with [] => Some bs | o :: ops => bs' ← applyOperation bs o; applyPatch bs' ops end.

Lemma applyPatch_app bs ops1 ops2 : applyPatch bs (ops1 ++ ops2) = (applyPatch bs ops1 ≫= fun bs' => applyPatch bs' ops2).
Proof. revert bs; induction ops1 as [|o ops1 IH]; intros bs; cbn; [done|]. by destruct (applyOperation bs o); cbn. Qed.

Lemma branch_path_inj i j : branch_path i = branch_path j -> i = j.
Proof.
  unfold branch_path, nstr. intros H. apply (inj (String.append "/branches/")) in H.
  apply (inj pretty) in H. lia.
Qed.

Lemma find_seq (p : nat -> bool) n m i :
  (forall j, p j = true <-> j = i) -> find p (seq n m) = if decide (n <= i < n + m)%nat then Some i else None.
Proof.
  intros Hp. revert n; induction m as [|m IH]; intros n; cbn; [by rewrite decide_False by lia|].
  destruct (p n) eqn:E.
  - apply Hp in E as ->. by rewrite decide_True by lia.
  - assert (n <> i) by (intros ->; by rewrite (proj2 (Hp i) eq_refl) in E). rewrite IH. repeat case_decide; try done; lia.
Qed.

Lemma patch_index_path bs i : patch_index bs (branch_path i) = if decide (i <= length bs)%nat then Some i else None.
Proof.
  unfold patch_index. rewrite (find_seq _ 0 _ i).
  - repeat case_decide; try done; lia.
  - intros j. rewrite eqb_true. split; [apply branch_path_inj|by intros ->].
Qed.

(** One step over a common index, and one past the end of the old version. *)
Lemma apply_common a b pre rest i :
  length pre = i ->
  applyPatch (pre ++ branch_value b :: rest) (diffAt i (Some b) (Some a)) = Some (pre ++ branch_value a :: rest).
Proof.
  intros Hi. unfold diffAt. destruct (_ !=? _) eqn:E.
  - cbn [applyPatch applyOperation op pvalue path]. rewrite patch_index_path, length_app. cbn [length].
    rewrite decide_True by lia. cbn [mbind option_bind].
    rewrite (proj2 (Nat.ltb_lt i _)) by lia. cbn [mbind option_bind].
    rewrite take_app_length' by done. rewrite (cons_middle (branch_value b)), (assoc (++)).
    rewrite drop_app_length' by (rewrite length_app; cbn; lia). done.
  - bool_prop. assert (b = a) as ->; [|done]. apply branch_value_inj, canonicalText_injective; [apply branch_textual..|done].
Qed.

Lemma apply_append a pre i :
  length pre = i -> applyPatch pre (diffAt i None (Some a)) = Some (pre ++ [branch_value a]).
Proof.
  intros Hi. unfold diffAt. cbn [applyPatch applyOperation op pvalue path].
  assert ((branch_path i ==? "") = false) as -> by by apply eqb_false.
  rewrite patch_index_path, decide_True by lia. cbn [mbind option_bind].
  by rewrite take_ge, drop_ge by lia.
Qed.

(** The diff as one walk over both versions. *)
Fixpoint diffFrom (i : nat) (prev next : list RuleBranch) : list PatchOperation :=
  match prev, next with
  | b :: prev, a :: next => diffAt i (Some b) (Some a) ++ diffFrom (S i) prev next
  | [], next => flat_map (fun p => diffAt (i + fst p) None (Some (snd p))) (entries next)
  | prev, [] => map (fun k => {| op := op_remove; path := branch_path (i + k); pvalue := None |}) (seq 0 (length prev))
  end.

Lemma flat_map_ext_seq {B} (f g : nat -> list B) m : (forall k, (k < m)%nat -> f k = g k) -> flat_map f (seq 0 m) = flat_map g (seq 0 m).
Proof.
  intros H. rewrite !flat_map_concat_map. f_equal. apply map_ext_in. intros k Hk. apply in_seq in Hk. apply H. lia.
Qed.

Lemma flat_map_single {A B} (f : A -> list B) (g : A -> B) l : (forall x, In x l -> f x = [g x]) -> flat_map f l = map g l.
Proof. induction l as [|x l IH]; cbn; intros H; [done|]. rewrite H by auto. cbn. f_equal. apply IH. auto. Qed.

Lemma diff_adds i next :
  flat_map (fun k => diffAt (i + k) None (next !! k)) (seq 0 (length next)) =
  flat_map (fun p => diffAt (i + fst p) None (Some (snd p))) (entries next).
Proof.
  unfold entries, entries_from. enough (forall n (l : list RuleBranch) (f : nat -> nat),
    flat_map (fun k => diffAt (i + f k) None (l !! (k - n)%nat)) (seq n (length l)) =
    flat_map (fun p => diffAt (i + f (fst p)) None (Some (snd p))) (combine (seq n (length l)) l)) as H.
  { specialize (H 0%nat next id). cbn [id] in H. rewrite <- H. apply flat_map_ext_seq. intros k _. by rewrite Nat.sub_0_r. }
  intros n l f. revert n; induction l as [|a l IH]; intros n; cbn [length seq combine flat_map]; [done|].
  rewrite Nat.sub_diag. cbn [fst snd lookup list_lookup]. f_equal. rewrite <- IH.
  rewrite !flat_map_concat_map. f_equal. apply map_ext_in. intros k Hk. apply in_seq in Hk.
  by replace (k - n)%nat with (S (k - S n)) by lia.
Qed.

Lemma diffTemplates_walk prev next :
  diffTemplates (Some prev) next = diffFrom 0 (branches prev) (branches next).
Proof.
  unfold diffTemplates. enough (forall i p n,
    flat_map (fun k => diffAt (i + k) (p !! k) (n !! k)) (seq 0 (Nat.max (length p) (length n))) = diffFrom i p n) as H.
  { rewrite <- (H 0%nat). done. }
  intros i p; revert i; induction p as [|b p IH]; intros i n.
  - cbn [length Nat.max diffFrom]. rewrite <- diff_adds. apply flat_map_ext_seq. done.
  - destruct n as [|a n].
    + cbn [diffFrom]. rewrite Nat.max_l by (cbn; lia). apply flat_map_single. intros k Hk. apply in_seq in Hk. destruct (lookup_lt_is_Some_2 (b :: p) k) as [x ->]; [lia|]. done.
    + cbn [diffFrom length Nat.max seq flat_map]. rewrite Nat.add_0_r. cbn [lookup list_lookup]. f_equal.
      rewrite <- IH, <- seq_shift, flat_map_concat_map, map_map, flat_map_concat_map. f_equal.
      apply map_ext. intros k. by rewrite <- plus_n_Sm.
Qed.

Lemma apply_adds next pre :
  applyPatch pre (flat_map (fun p => diffAt (length pre + fst p) None (Some (snd p))) (entries next)) = Some (pre ++ map branch_value next).
Proof.
  unfold entries, entries_from. enough (forall n (l : list RuleBranch) cur, length cur = (length pre + n)%nat ->
    applyPatch cur (flat_map (fun p => diffAt (length pre + fst p) None (Some (snd p))) (combine (seq n (length l)) l)) =
    Some (cur ++ map branch_value l)) as H by (apply H; lia).
  intros n l; revert n; induction l as [|a l IH]; intros n cur Hc; cbn [length seq combine flat_map map]; [by rewrite app_nil_r|].
  cbn [fst snd]. rewrite applyPatch_app, apply_append by done. cbn [mbind option_bind].
  rewrite IH by (rewrite length_app; cbn; lia). by rewrite <- (assoc (++)).
Qed.

(** Removing one element works; removing two at ascending indices never does. *)
Lemma apply_remove (bs : list value) i :
  applyOperation bs {| op := op_remove; path := branch_path i; pvalue := None |} =
  if (i <? length bs)%nat then Some (take i bs ++ drop (S i) bs) else None.
Proof.
  unfold applyOperation. cbn [op pvalue path]. rewrite patch_index_path. case_decide; cbn [mbind option_bind]; [done|].
  by rewrite (proj2 (Nat.ltb_ge _ _)) by lia.
Qed.

Lemma apply_removes_fail bs n m j :
  length bs = (n + m)%nat -> (2 <= m + j)%nat -> (0 < m)%nat ->
  applyPatch bs (map (fun k => {| op := op_remove; path := branch_path (n + k); pvalue := None |}) (seq j m)) = None.
Proof.
  revert bs j; induction m as [|m IH]; intros bs j Hl Hm H0; [lia|].
  cbn [seq map applyPatch]. rewrite apply_remove. destruct (n + j <? length bs)%nat eqn:E; [|done].
  apply Nat.ltb_lt in E. cbn [mbind option_bind]. apply IH; [|lia|lia].
  rewrite length_app, length_take, length_drop. lia.
Qed.

Lemma applyPatch_diff prev next pre :
  applyPatch (pre ++ map branch_value prev) (diffFrom (length pre) prev next) =
  if (length prev <=? S (length next))%nat then Some (pre ++ map branch_value next) else None.
Proof.
  revert next pre; induction prev as [|b prev IH]; intros next pre.
  - cbn [map diffFrom]. rewrite app_nil_r. apply apply_adds.
  - destruct next as [|a next].
    + cbn [diffFrom length]. destruct prev as [|c prev].
      * cbn [length seq map applyPatch]. rewrite apply_remove, length_app, Nat.add_0_r. cbn [length].
        rewrite (proj2 (Nat.ltb_lt _ _)) by lia. cbn [mbind option_bind Nat.leb].
        by rewrite take_app_length, drop_ge by (rewrite length_app; cbn; lia).
      * cbn [length Nat.leb]. apply (apply_removes_fail _ (length pre) (S (S (length prev))) 0); [|lia..].
        rewrite length_app, length_map. done.
    + cbn [diffFrom map]. rewrite applyPatch_app, apply_common by done. cbn [mbind option_bind].
      rewrite (cons_middle (branch_value a) pre), (assoc (++)).
      replace (S (length pre)) with (length (pre ++ [branch_value a])) by (rewrite length_app; cbn; lia).
      rewrite IH. cbn [length Nat.leb map]. destruct (_ <=? _)%nat; [|done]. by rewrite <- (assoc (++)).
Qed.

(** The recorded diff of a template version, applied as the RFC 6902 patch it claims to be,
    rebuilds the next version's branches from the previous one's, and from nothing for a first
    version — unless the new version drops two or more branches. Then the removals are listed at
    ascending indices, the second one names an element that has already moved, and no conforming
    patch application succeeds. *)
Theorem diffTemplates_roundtrip next :
  applyPatch [] (diffTemplates None next) = Some (map branch_value (branches next)) /\
  forall prev, applyPatch (map branch_value (branches prev)) (diffTemplates (Some prev) next) =
    if (length (branches prev) <=? S (length (branches next)))%nat then Some (map branch_value (branches next)) else None.
Proof.
  split; [reflexivity|]. intros prev. rewrite diffTemplates_walk. exact (applyPatch_diff (branches prev) (branches next) []).
Qed.

(** ** Slots *)
Lemma js_sort_strcmp_perm l1 l2 : l1 ≡ₚ l2 -> js_sort strcmp l1 = js_sort strcmp l2.
Proof. apply (js_sort_perm strcmp). intros x y _ _. apply strcmp_eq. Qed.

Lemma slot_textual w u t : textual (slot_value w u t) = true.
Proof. change (textual (strings (js_sort strcmp u)) && true = true). by rewrite strings_textual. Qed.

(** A slot coordinate depends on the workflow type, the multiset of upstream tool types and the
    target, and on nothing else: reordering the upstream tools keeps it, and two junctions that share
    a coordinate agree on all three unless the truncated SHA-256 collides on their texts. Repeating a tool type
    changes what is hashed, so the key is the multiset rather than the set. *)
Theorem slotIdOf_coordinate sha256 w u t w' u' t' :
  (w = w' -> u ≡ₚ u' -> t = t' -> slotIdOf sha256 w u t = slotIdOf sha256 w' u' t') /\
  (slotIdOf sha256 w u t = slotIdOf sha256 w' u' t' ->
     (w = w' /\ u ≡ₚ u' /\ t = t') \/
     collides (fun x => take_str 32 (sha256 x)) (Text.canonicalText (slot_value w u t)) (Text.canonicalText (slot_value w' u' t'))).
Proof.
  unfold slotIdOf. split.
  - intros <- Hp <-. unfold slot_value. by rewrite (js_sort_strcmp_perm u u').
  - intros H. apply (inj (String.append "slot:")) in H.
    destruct (decide (Text.canonicalText (slot_value w u t) = Text.canonicalText (slot_value w' u' t'))) as [Heq|Hne]; [left|by right].
    apply canonicalText_injective in Heq; [|apply slot_textual..].
    cbn -[js_sort] in Heq. injection Heq as -> Hu ->.
    change (map Text.normal (map VStr (js_sort strcmp u)) = map Text.normal (map VStr (js_sort strcmp u'))) in Hu.
    apply map_map_inj in Hu; [|cbn; congruence]. split; [done|]. split; [|done].
    rewrite <- (js_sort_Permutation strcmp u), Hu. apply js_sort_Permutation.
Qed.

(** ** The capability envelope *)
Lemma higherEffect_rank a b : effectRank (higherEffect a b) = Z.max (effectRank a) (effectRank b).
Proof. by destruct a, b. Qed.

Lemma effectRank_inj a b : effectRank a = effectRank b -> a = b.
Proof. by destruct a, b. Qed.

Lemma traits_fold registry vs m p m' p' :
  fold_left (traitStep registry) vs (m, p) = (m', p') ->
  effectRank m <= effectRank m' /\
  (forall v e, v ∈ vs -> vertexEffect registry v = Some e -> effectRank e <= effectRank m') /\
  (m' = m \/ exists v, v ∈ vs /\ vertexEffect registry v = Some m') /\
  (p' = true <-> p = true \/ exists v, v ∈ vs /\ vertexEffect registry v = Some e_irreversible).
Proof.
  revert m p; induction vs as [|v vs IH]; intros m p; cbn [fold_left].
  - intros [= <- <-]. split; [lia|]. split; [intros ? ? []%elem_of_nil|]. split; [by left|].
    split; [by left|]. intros [?|(? & []%elem_of_nil & _)]; done.
  - unfold traitStep at 2. destruct (vertexEffect registry v) as [e|] eqn:E; cbn [fst snd]; intros H; apply IH in H as (H1 & H2 & H3 & H4).
    + rewrite higherEffect_rank in H1. split; [lia|]. split; [|split].
      * intros x e' [->|Hx]%elem_of_cons He; [rewrite E in He; injection He as <-; lia|by eapply H2].
      * destruct H3 as [->|(x & Hx & He)]; [|right; exists x; split; [by right|done]].
        unfold higherEffect. destruct (_ <=? _); [by left|]. right. exists v. split; [left|done].
      * rewrite H4. case_eqb.
        -- subst e. split; [intros _; right; exists v; split; [left|done]|by left].
        -- split; (intros [?|(x & Hx & He)]; [by left|]).
           ++ right. exists x. split; [by right|done].
           ++ apply elem_of_cons in Hx as [->|Hx]; [congruence|]. right. by exists x.
    + split; [done|]. split; [|split].
      * intros x e' [->|Hx]%elem_of_cons He; [congruence|by eapply H2].
      * destruct H3 as [->|(x & Hx & He)]; [by left|right; exists x; split; [by right|done]].
      * rewrite H4. split; (intros [?|(x & Hx & He)]; [by left|]).
        -- right. exists x. split; [by right|done].
        -- apply elem_of_cons in Hx as [->|Hx]; [congruence|]. right. by exists x.
Qed.

Lemma max_fold bs m0 :
  let m := fold_left (fun highest b => higherEffect highest (ab_maxEffect b)) bs m0 in
  effectRank m0 <= effectRank m /\ (forall b, b ∈ bs -> effectRank (ab_maxEffect b) <= effectRank m) /\
  (m = m0 \/ exists b, b ∈ bs /\ ab_maxEffect b = m).
Proof.
  revert m0; induction bs as [|b bs IH]; intros m0; cbn [fold_left].
  - cbv zeta. split; [lia|]. split; [intros ? []%elem_of_nil|by left].
  - specialize (IH (higherEffect m0 (ab_maxEffect b))). cbv zeta in *. destruct IH as (H1 & H2 & H3).
    rewrite higherEffect_rank in H1. split; [lia|]. split.
    + intros x [->|Hx]%elem_of_cons; [lia|by apply H2].
    + destruct H3 as [->|(x & Hx & He)]; [|right; exists x; split; [by right|done]].
      unfold higherEffect. destruct (_ <=? _); [by left|]. right. exists b. split; [left|done].
Qed.

Lemma traitsOf_spec b resolved :
  let t := traitsOf b resolved in
  let at_vertex e := exists v, v ∈ p_vertices (subDag b) /\ vertexEffect (rv_registry resolved) v = Some e in
  (forall v e, v ∈ p_vertices (subDag b) -> vertexEffect (rv_registry resolved) v = Some e -> effectRank e <= effectRank (ab_maxEffect t)) /\
  (ab_maxEffect t = e_none \/ at_vertex (ab_maxEffect t)) /\
  (ab_hasPivot t = true <-> at_vertex e_irreversible) /\
  (ab_opensScope t = true <-> p_scopes (subDag b) <> []).
Proof.
  cbv zeta. unfold traitsOf. destruct (fold_left _ _ _) as [m p] eqn:E. apply traits_fold in E as (_ & H2 & H3 & H4).
  cbn [ab_maxEffect ab_hasPivot ab_opensScope]. split; [done|]. split; [done|]. split; [naive_solver|].
  by destruct (p_scopes (subDag b)).
Qed.

(** The effects a template can cause: those of the registered tools its branches name. *)
Definition can_cause (resolved : ResolvedToolView) (draft : RuleTemplateDraft) (e : EffectClass) : Prop :=
  exists b v, b ∈ branches draft /\ v ∈ p_vertices (subDag b) /\ vertexEffect (rv_registry resolved) v = Some e.

Definition traits_of (resolved : ResolvedToolView) (draft : RuleTemplateDraft) : list BranchTraits :=
  map (fun b => traitsOf b resolved) (branches draft).

(** The derived envelope bounds what a template can do: its maximum effect is an upper bound of
    the effect of every tool any branch names and is caused by one of them (or is [none]), it is
    pure read-only exactly when no branch can cause an effect, it can provide a pivot exactly when a
    branch names an irreversible tool, and it can open a scope exactly when a branch declares one. *)
Theorem capabilityOf_sound resolved draft :
  let c := capabilityOf (traits_of resolved draft) in
  (forall e, can_cause resolved draft e -> effectRank e <= effectRank (maxEffectClass c)) /\
  (maxEffectClass c = e_none \/ can_cause resolved draft (maxEffectClass c)) /\
  (isPureReadOnly c = true <-> forall e, can_cause resolved draft e -> e = e_none) /\
  (canProvidePivot c = true <-> can_cause resolved draft e_irreversible) /\
  (canOpenScope c = true <-> exists b, b ∈ branches draft /\ p_scopes (subDag b) <> []).
Proof.
  intros c. pose proof (max_fold (traits_of resolved draft) e_none) as Hm. cbv zeta in Hm.
  change (fold_left _ _ _) with (maxEffectClass c) in Hm. destruct Hm as (_ & Hup & Hatt).
  assert (forall e, can_cause resolved draft e -> effectRank e <= effectRank (maxEffectClass c)) as Hbound.
  { intros e (b & v & Hb & Hv & He). destruct (traitsOf_spec b resolved) as (H1 & _).
    specialize (Hup (traitsOf b resolved)). specialize (H1 v e Hv He).
    unfold traits_of in Hup. rewrite elem_of_map in Hup. specialize (Hup ltac:(eauto)). lia. }
  assert (maxEffectClass c = e_none \/ can_cause resolved draft (maxEffectClass c)) as Hreach.
  { destruct Hatt as [->|(b & Hb & He)]; [by left|]. apply elem_of_map in Hb as (b0 & -> & Hb).
    destruct (traitsOf_spec b0 resolved) as (_ & [Hn|(v & Hv & Hve)] & _); [left; congruence|].
    right. exists b0, v. rewrite <- He. done. }
  split; [done|]. split; [done|]. split; [|split].
  - change (isPureReadOnly c) with (maxEffectClass c ==? e_none). rewrite eqb_true. split.
    + intros H0 e He. specialize (Hbound e He). rewrite H0 in Hbound. by destruct e.
    + intros Hall. destruct Hreach as [|Hr]; [done|by apply Hall].
  - change (canProvidePivot c) with (existsb ab_hasPivot (traits_of resolved draft)). rewrite existsb_true. split.
    + intros (b & Hb & Hp). apply elem_of_map in Hb as (b0 & -> & Hb).
      destruct (traitsOf_spec b0 resolved) as (_ & _ & Hpiv & _). apply Hpiv in Hp as (v & Hv & He). by exists b0, v.
    + intros (b & v & Hb & Hv & He). exists (traitsOf b resolved). split; [apply elem_of_map; eauto|].
      destruct (traitsOf_spec b resolved) as (_ & _ & Hpiv & _). apply Hpiv. eauto.
  - change (canOpenScope c) with (existsb ab_opensScope (traits_of resolved draft)). rewrite existsb_true. split.
    + intros (b & Hb & Hp). apply elem_of_map in Hb as (b0 & -> & Hb). exists b0. split; [done|].
      destruct (traitsOf_spec b0 resolved) as (_ & _ & _ & Hs). by apply Hs.
    + intros (b & Hb & Hs). exists (traitsOf b resolved). split; [apply elem_of_map; eauto|].
      destruct (traitsOf_spec b resolved) as (_ & _ & _ & Hs'). by apply Hs'.
Qed.

(** ** Publication admits exactly Q1-Q6 *)
Section Publish.
Variable sha256 : string -> string.
Context (resolved : ResolvedToolView).

(** The per-branch checks: no declared fallback (Q6), no impure token, every reference the scan finds in
    the condition is to a declared log field of a published tool (what the code checks of Q1), and every
    tool the branch calls is published (Q2). That the condition is a comparison is not among them: one
    without any reference passes. *)
Definition branch_wellformed (b : RuleBranch) : Prop :=
  Pattern.FALLBACK (condition b) = false /\ Pattern.IMPURE (condition b) = false /\
  (forall tool path, (tool, path) ∈ Pattern.FIELD_REFERENCE (condition b) ->
     ToolRegistry.has (rv_registry resolved) tool = true /\ exists fields, logFieldsOf resolved tool = Some fields /\ path ∈ fields) /\
  (forall v t, v ∈ p_vertices (subDag b) -> pv_kind v = k_tool -> truthy (pv_tool v) = Some t ->
     ToolRegistry.has (rv_registry resolved) t = true).

(** What publication checks of a template: Q3 and Q4 are the first two, Q5 the last. *)
Definition publishable (draft : RuleTemplateDraft) : Prop :=
  branches draft <> [] /\ NoDup (map condition (branches draft)) /\
  (forall b, b ∈ branches draft -> branch_wellformed b) /\
  (forall b, b ∈ branches draft -> exists r, checkSubDag (subDag b) (rv_registry resolved) [] = Ok r /\ accepted r = true).

Lemma references_nil i b :
  checkConditionPurity resolved b i = [] <-> Pattern.IMPURE (condition b) = false /\
  (forall tool path, (tool, path) ∈ Pattern.FIELD_REFERENCE (condition b) ->
     ToolRegistry.has (rv_registry resolved) tool = true /\ exists fields, logFieldsOf resolved tool = Some fields /\ path ∈ fields).
Proof.
  unfold checkConditionPurity. destruct (Pattern.IMPURE (condition b)); [split; [done|by intros [? _]]|].
  rewrite flat_map_nil. split.
  - intros H. split; [done|]. intros tool path Hin. specialize (H _ Hin). cbn in H.
    destruct (ToolRegistry.has _ tool); [|done]. split; [done|]. cbn [negb] in H.
    destruct (logFieldsOf resolved tool) as [fs|]; [|done]. exists fs. split; [done|].
    destruct (includes path fs) eqn:E; [by apply includes_true|done].
  - intros [_ H] [tool path] Hin. destruct (H _ _ Hin) as (Hh & fs & Hf & Hp). cbn. rewrite Hh, Hf. cbn [negb].
    apply includes_true in Hp as ->. done.
Qed.

Lemma tools_nil i b :
  unresolvedTools resolved b i = [] <->
  (forall v t, v ∈ p_vertices (subDag b) -> pv_kind v = k_tool -> truthy (pv_tool v) = Some t ->
     ToolRegistry.has (rv_registry resolved) t = true).
Proof.
  unfold unresolvedTools. rewrite flat_map_nil. split.
  - intros H v t Hv Hk Ht. specialize (H v Hv). cbv beta in H. rewrite Hk, Ht in H. by destruct (ToolRegistry.has _ t).
  - intros H v Hv. destruct (pv_kind v) eqn:Hk; [done| |done|done]. destruct (truthy (pv_tool v)) as [t|] eqn:Ht; [|done].
    by rewrite (H v t Hv Hk Ht).
Qed.

Lemma branchStep_nil l n cs vs :
  snd (fold_left (branchStep resolved) (entries_from n l) (cs, vs)) = [] <->
  vs = [] /\ NoDup (map condition l) /\ (forall b, b ∈ l -> condition b ∉ cs) /\ (forall b, b ∈ l -> branch_wellformed b).
Proof.
  unfold entries_from. revert n cs vs; induction l as [|b l IH]; intros n cs vs; cbn [length seq combine fold_left map].
  - cbn [snd]. split; [intros ->; split_and!; [done|constructor|set_solver|set_solver]|by intros [-> _]].
  - unfold branchStep at 2. rewrite IH. clear IH. rewrite !app_eq_nil_iff, !if_nil, JSet_has_false, references_nil, tools_nil.
    rewrite NoDup_cons. setoid_rewrite elem_of_cons. setoid_rewrite elem_of_add. split.
    + intros ((-> & Hc & Hf & Hp & Ht) & Hnd & Hcs & Hwf). split_and!; [done| |done| |].
      * rewrite elem_of_map. intros (x & Hx & Hin). apply (Hcs x Hin). by left.
      * intros x [->|Hx]; [done|]. intros Hin. apply (Hcs x Hx). by right.
      * intros x [->|Hx]; [|by apply Hwf]. unfold branch_wellformed. tauto.
    + intros (-> & (Hb & Hnd) & Hcs & Hwf). pose proof (Hwf b (or_introl eq_refl)) as Hw. unfold branch_wellformed in Hw.
      split_and!; try tauto.
      * apply Hcs. by left.
      * intros x Hx [Heq|Hin]; [|eapply Hcs; [by right|done]]. apply Hb. rewrite <- Heq. apply elem_of_map. eauto.
      * intros x Hx. apply Hwf. by right.
Qed.

Lemma structural_nil draft :
  structuralViolations resolved draft = [] <->
  branches draft <> [] /\ NoDup (map condition (branches draft)) /\ (forall b, b ∈ branches draft -> branch_wellformed b).
Proof.
  unfold structuralViolations. unfold entries. rewrite branchStep_nil. destruct (branches draft) as [|b l]; [naive_solver|].
  split; [intros (_ & ? & _ & ?); done|]. intros (_ & ? & ?). split_and!; [done|done|intros ? _ []%elem_of_nil|done].
Qed.

Lemma isolation_nil l n vss :
  mapR (isolationViolations resolved) (entries_from n l) = Ok vss -> concat vss = [] ->
  forall b, b ∈ l -> exists r, checkSubDag (subDag b) (rv_registry resolved) [] = Ok r /\ accepted r = true.
Proof.
  unfold entries_from. revert n vss; induction l as [|b l IH]; intros n vss; cbn [length seq combine mapR].
  - intros _ _ b []%elem_of_nil.
  - intros H Hc. apply bind_Ok in H as (vs & Hv & H). apply bind_Ok in H as (rest & Hr & H). apply Ok_inj in H as <-.
    cbn [concat] in Hc. apply app_eq_nil in Hc as [-> Hc]. intros x [->|Hx]%elem_of_cons; [|by eapply IH].
    cbn in Hv. apply bind_Ok in Hv as (r & Hk & Hv). exists r. split; [done|]. apply Ok_inj in Hv.
    unfold checkSubDag in Hk. apply bind_Ok in Hk as (c & _ & Hk). apply Ok_inj in Hk as <-.
    apply checkResult_accepted. unfold checkResult in Hv. cbn [violations] in Hv.
    by destruct (fold_left add _ _).
Qed.

Lemma isolation_total l n :
  (forall b, b ∈ l -> exists r, checkSubDag (subDag b) (rv_registry resolved) [] = Ok r /\ accepted r = true) ->
  exists vss, mapR (isolationViolations resolved) (entries_from n l) = Ok vss /\ concat vss = [].
Proof.
  unfold entries_from. revert n; induction l as [|b l IH]; intros n H; cbn [length seq combine mapR]; [by exists []|].
  destruct (IH (S n)) as (vss & Hv & Hc); [intros; apply H; by right|]. destruct (H b) as (r & Hr & Ha); [left|].
  exists ([] :: vss). cbn [isolationViolations]. rewrite Hr. cbn [mbind result_bind].
  assert (violations r = []) as ->.
  { unfold checkSubDag in Hr. apply bind_Ok in Hr as (c & _ & Hr). apply Ok_inj in Hr as <-. by apply checkResult_accepted in Ha. }
  cbn [map]. by rewrite Hv.
Qed.

(** Publication admits exactly the publishable drafts, and publishes the draft's own content with
    derived traits, pinned by its digest. *)
Lemma publishRuleTemplate_admits draft t :
  publishRuleTemplate sha256 draft resolved = Ok (PublicationAdmitted t) <->
  publishable draft /\
  t = {| pt_templateRef := templateRef draft; pt_digest := digestOfTemplate sha256 draft; pt_author := author draft;
         pt_branches := traits_of resolved draft; pt_capability := capabilityOf (traits_of resolved draft);
         pt_slotId := truthy (slotId draft) |}.
Proof.
  unfold publishRuleTemplate, publishable, entries. destruct (structuralViolations resolved draft) as [|v vs] eqn:E.
  - apply structural_nil in E as (Hne & Hnd & Hwf). split.
    + intros H. apply bind_Ok in H as (vss & Hv & H). destruct (concat vss) as [|x xs] eqn:Ec; [|done].
      apply Ok_inj in H. injection H as <-. split_and!; try done. by eapply isolation_nil.
    + intros ((_ & _ & _ & Hiso) & ->). destruct (isolation_total _ 0 Hiso) as (vss & -> & Hc).
      cbn [mbind result_bind]. by rewrite Hc.
  - split; [done|]. intros ((Hne & Hnd & Hwf & _) & _).
    assert (structuralViolations resolved draft = []) by by apply structural_nil. congruence.
Qed.
End Publish.

(** ** The store resolves what was published *)
Section StoreHistory.
Variable sha256 : string -> string.
Context {Log : Type}.
Variable appendConfigEvent : Log -> string -> string -> object -> result Log.

(** The store after a sequence of publications, with the admitted ones in order. *)
Inductive history : Log -> RuleTemplateStore -> list (RuleTemplateDraft * PublishedRuleTemplate) -> Prop :=
| history_empty log : history log emptyStore []
| history_admitted log s h draft view t log' s' :
    history log s h -> publish sha256 appendConfigEvent log s draft view = (Ok (PublicationAdmitted t), log', s') ->
    history log' s' (h ++ [(draft, t)])
| history_other log s h draft view r log' s' :
    history log s h -> publish sha256 appendConfigEvent log s draft view = (r, log', s') ->
    (forall t, r <> Ok (PublicationAdmitted t)) -> history log' s' h.

(** The latest publication under a reference. *)
Definition latest (h : list (RuleTemplateDraft * PublishedRuleTemplate)) (ref : string) : option (RuleTemplateDraft * PublishedRuleTemplate) :=
  last (filter_by (fun p => templateRef (fst p) ==? ref) h).

Record indexed (s : RuleTemplateStore) (h : list (RuleTemplateDraft * PublishedRuleTemplate)) : Prop := {
  ix_ref : forall ref, JMap.get (byRef s) ref = snd <$> latest h ref;
  ix_draft : forall ref, JMap.get (drafts s) ref = fst <$> latest h ref;
  ix_digest : forall g t, JMap.get (byDigest s) g = Some t -> pt_digest t = g /\ exists d, (d, t) ∈ h;
  ix_total : forall d t, (d, t) ∈ h -> is_Some (JMap.get (byDigest s) (pt_digest t));
  ix_content : forall d t, (d, t) ∈ h -> pt_digest t = digestOfTemplate sha256 d;
  ix_slot : forall slot ref, JMap.get (bySlot s) slot = Some ref -> exists d t, (d, t) ∈ h /\ templateRef d = ref
}.

Lemma latest_snoc h d t ref : latest (h ++ [(d, t)]) ref = if templateRef d ==? ref then Some (d, t) else latest h ref.
Proof.
  unfold latest. rewrite filter_by_app. cbn [List.filter fst]. destruct (templateRef d ==? ref); [|by rewrite app_nil_r].
  apply last_snoc.
Qed.

Lemma publish_admitted log s draft view t log' s' :
  publish sha256 appendConfigEvent log s draft view = (Ok (PublicationAdmitted t), log', s') ->
  publishRuleTemplate sha256 draft view = Ok (PublicationAdmitted t) /\ s' = index s draft t.
Proof.
  unfold publish. destruct (publishRuleTemplate _ _ _) as [[t0|vs]|e]; [|done|done].
  destruct (appendConfigEvent _ _ _ _); [|done]. intros [= -> _ <-]. done.
Qed.

Lemma publish_refused log s draft view r log' s' :
  publish sha256 appendConfigEvent log s draft view = (r, log', s') -> (forall t, r <> Ok (PublicationAdmitted t)) -> s' = s.
Proof.
  unfold publish. destruct (publishRuleTemplate _ _ _) as [[t0|vs]|e]; [|by intros [= _ _ <-]|by intros [= _ _ <-]].
  destruct (appendConfigEvent _ _ _ _); [|by intros [= _ _ <-]]. intros [= <- _ _] H. by destruct (H t0).
Qed.

Lemma admitted_digest draft view t : publishRuleTemplate sha256 draft view = Ok (PublicationAdmitted t) -> pt_digest t = digestOfTemplate sha256 draft.
Proof.
  unfold publishRuleTemplate. destruct (structuralViolations _ _); [|done]. intros H. apply bind_Ok in H as (vss & _ & H).
  destruct (concat vss); [|done]. apply Ok_inj in H. by injection H as <-.
Qed.

Lemma history_indexed log s h : history log s h -> indexed s h.
Proof.
  induction 1 as [log|log s h draft view t log' s' _ IH Hp|log s h draft view r log' s' _ IH Hp Hr].
  - split; try done; intros ? ? []%elem_of_nil.
  - apply publish_admitted in Hp as [Ht ->]. pose proof (admitted_digest _ _ _ Ht) as Hd. destruct IH as [I1 I2 I3 I4 I5 I6].
    split; cbn [byRef drafts byDigest bySlot index].
    + intros ref. rewrite get_set, latest_snoc, I1. by destruct (templateRef draft ==? ref).
    + intros ref. rewrite get_set, latest_snoc, I2. by destruct (templateRef draft ==? ref).
    + intros g u. rewrite get_set. setoid_rewrite elem_of_app. case_eqb.
      * intros [= <-]. split; [done|]. exists draft. right. by apply list_elem_of_singleton.
      * intros Hu. destruct (I3 _ _ Hu) as (? & d & ?). eauto.
    + intros d u Hin. rewrite get_set. case_eqb; [by eexists|]. apply elem_of_app in Hin as [Hin|[= -> ->]%list_elem_of_singleton]; [by eapply I4|done].
    + intros d u [Hin|[= -> ->]%list_elem_of_singleton]%elem_of_app; [by apply I5|done].
    + intros slot ref Hs. setoid_rewrite elem_of_app. destruct (truthy (slotId draft)) as [sl|].
      * rewrite get_set in Hs. case_eqb; [injection Hs as <-; exists draft, t; split; [right; by apply list_elem_of_singleton|done]|].
        destruct (I6 _ _ Hs) as (d & u & ? & ?). eauto.
      * destruct (I6 _ _ Hs) as (d & u & ? & ?). eauto.
  - apply publish_refused in Hp as ->; [exact IH|exact Hr].
Qed.

(** What was published stays resolvable. After any sequence of publications — refused, failed or
    admitted — a reference resolves to its latest admitted version; a digest that is not itself used
    as a reference resolves to a published template with that digest, whose reference and branches are
    those of every draft ever published under it unless SHA-256 collides on their two texts; and a bound slot resolves to
    the latest version of some published reference. *)
Theorem published_pins log s h d t :
  history log s h -> (d, t) ∈ h ->
  resolve s (templateRef d) = snd <$> latest h (templateRef d) /\ is_Some (latest h (templateRef d)) /\
  (latest h (pt_digest t) = None -> exists d' t', resolve s (pt_digest t) = Some t' /\ (d', t') ∈ h /\ pt_digest t' = pt_digest t /\
     ((templateRef d' = templateRef d /\ branches d' = branches d) \/
      collides sha256 (Text.canonicalText (content_value d')) (Text.canonicalText (content_value d)))) /\
  (forall slot t', resolveSlot s slot = Some t' -> exists d', (d', t') ∈ h /\ latest h (templateRef d') = Some (d', t')).
Proof.
  intros Hh Hin. destruct (history_indexed _ _ _ Hh) as [I1 I2 I3 I4 I5 I6]. clear Hh.
  assert (forall ref p, latest h ref = Some p -> p ∈ h /\ templateRef (fst p) = ref) as Hlast.
  { intros ref p H. unfold latest in H. apply last_Some_elem_of in H. apply elem_of_filter_by in H as [? H]. by bool_prop. }
  assert (is_Some (latest h (templateRef d))) as [p Hp].
  { unfold latest. apply last_is_Some. intros Hnil. assert ((d, t) ∈ filter_by (fun p => templateRef (fst p) ==? templateRef d) h) as H
      by (apply elem_of_filter_by; split; [done|apply eqb_refl]). rewrite Hnil in H. by apply elem_of_nil in H. }
  split; [|split; [by eexists|split]].
  - unfold resolve. by rewrite I1, Hp.
  - intros Hnone. destruct (I4 _ _ Hin) as [t' Ht']. destruct (I3 _ _ Ht') as (Hg & d' & Hd'). exists d', t'.
    split; [unfold resolve; by rewrite I1, Hnone|]. split; [done|]. split; [done|].
    apply digestOfTemplate_binding. rewrite <- (I5 _ _ Hd'), <- (I5 _ _ Hin). done.
  - intros slot t' Hs. unfold resolveSlot in Hs. destruct (truthy _) as [ref|]; [|done]. rewrite I1 in Hs.
    destruct (latest h ref) as [[d' t'']|] eqn:E; [|done]. injection Hs as <-. destruct (Hlast _ _ E) as [? <-]. by exists d'.
Qed.
End StoreHistory.

(** ** A published template *)
Definition sample_look : ProposalVertex :=
  {| pv_id := "a"; pv_parents := []; pv_kind := k_tool; pv_tool := Some "look"; pv_scopeId := None; pv_confirmedOutput := None; pv_templateRef := None |}.
Definition sample_draft : RuleTemplateDraft :=
  {| templateRef := "rule://dispatch@v1"; author := "ops"; slotId := None;
     branches := [{| condition := "ready"; subDag := {| p_vertices := [sample_look]; p_scopes := [] |} |}] |}.
Definition sample_template : PublishedRuleTemplate :=
  {| pt_templateRef := templateRef sample_draft; pt_digest := digestOfTemplate sample_hash sample_draft; pt_author := "ops";
     pt_branches := traits_of sample_view sample_draft; pt_capability := capabilityOf (traits_of sample_view sample_draft); pt_slotId := None |}.
Definition sample_sink (log : list object) (_ _ : string) (p : object) : result (list object) := Ok (log ++ [p]).

Lemma published_pins_witness :
  exists log, history sample_hash sample_sink log (index emptyStore sample_draft sample_template) [(sample_draft, sample_template)] /\
    resolve (index emptyStore sample_draft sample_template) "rule://dispatch@v1" = Some sample_template.
Proof.
  assert (history sample_hash sample_sink [publishedPayload sample_hash None sample_draft sample_template]
            (index emptyStore sample_draft sample_template) ([] ++ [(sample_draft, sample_template)])) as H.
  { apply (history_admitted sample_hash sample_sink [] emptyStore [] sample_draft sample_view); [constructor|].
    vm_compute. reflexivity. }
  eexists. split; [exact H|].
  etransitivity; [apply (published_pins sample_hash sample_sink _ _ _ sample_draft sample_template H); left|].
  vm_compute. reflexivity.
Defined.
