(* ===== verification/Workflow.v ===== *)
(** * Workflow submission: normalization and compilation (engine/src/admission/workflow.ts)

    A workflow as its author wrote it, the pass that puts a router in front of every planner, the
    lossy lowering to the checker's proposal, and the compilation of an admitted workflow into the
    [vertex/created] drafts that persist it. The theorems are in WorkflowFacts.v. *)

From S2P Require Import Prelude Collections Number Json Events CheckRules ToolView Gateway RuleTemplate.

Inductive SubmittedKind : Type :=
| SubmittedTool (tool : string) (input : option object) (idempotencyKey : option string) (confirmedOutput : option bool)
| SubmittedPlanner (goal : option string)
| SubmittedRouter (templateRef : option string)
| SubmittedBarrier.

Record SubmittedVertex : Type := {
  sv_id : string;
  sv_parents : option (list string);
  sv_scope : option string;
  sv_kind : SubmittedKind
}.

Inductive SubmissionSource : Type := src_submitted | src_router.

Record WorkflowSubmission : Type := {
  submissionId : string;
  w_vertices : list SubmittedVertex;
  w_scopes : option (list ProposalScope);
  workflowType : option string;
  attachTo : option (list string);
  source : option SubmissionSource
}.

Record NormalizedWorkflow : Type := { nw_workflow : WorkflowSubmission; interposed : list string }.

Record RouterBinding : Type := { rb_placement : RouterPlacement; rb_pinVersion : option string }.

Record CompiledSubgraph : Type := {
  cs_vertexIds : list (string * string);
  cs_scopeIds : list (string * string);
  cs_drafts : list EventDraft
}.

Inductive BracketState : Type := br_sealed | br_confirmed | br_cancelled.
#[export] Instance BracketState_eq_dec : EqDecision BracketState.
Proof. solve_decision. Defined.
Record BracketRecord : Type := { br_idempotencyKey : string; br_state : BracketState }.

Definition kind_of (v : SubmittedVertex) : VertexKind :=
  match sv_kind v with SubmittedTool _ _ _ _ => k_tool | SubmittedPlanner _ => k_planner | SubmittedRouter _ => k_router | SubmittedBarrier => k_barrier end.

(** [vertex.parents ?? []] *)
Definition parents (v : SubmittedVertex) : list string := default [] (sv_parents v).

Definition vertices_by_id (vs : list SubmittedVertex) : list (string * SubmittedVertex) := JMap.of_entries (map (fun v => (sv_id v, v)) vs).

Definition INTERPOSED_ROUTER_SUFFIX : string := "#router".

(** [s.endsWith(suffix)] *)
Definition ends_with (suffix s : string) : bool :=
  (String.length suffix <=? String.length s)%nat && (drop_str (String.length s - String.length suffix) s ==? suffix).

(** ** Normalization *)
Definition needsInterposedRouter (ps : list string) (byId : list (string * SubmittedVertex)) : bool :=
  match ps with
  | [] => false
  | [p] => negb (match JMap.get byId p with Some v => kind_of v ==? k_router | None => false end)
  | _ => true
  end.

Definition with_vertices (w : WorkflowSubmission) (vs : list SubmittedVertex) : WorkflowSubmission :=
  {| submissionId := submissionId w; w_vertices := vs; w_scopes := w_scopes w; workflowType := workflowType w;
     attachTo := attachTo w; source := source w |}.

Definition checkParents (byId : list (string * SubmittedVertex)) (v : SubmittedVertex) : result unit :=
  foldM (fun _ p => if JMap.has byId p then Ok tt else Throw ("workflow names unknown parent " +:+ p +:+ " for " +:+ sv_id v)) tt (parents v).

Definition interposedRouter (v : SubmittedVertex) : SubmittedVertex :=
  {| sv_id := sv_id v +:+ INTERPOSED_ROUTER_SUFFIX; sv_parents := Some (parents v); sv_scope := None; sv_kind := SubmittedRouter None |}.

Definition behindRouter (v : SubmittedVertex) : SubmittedVertex :=
  {| sv_id := sv_id v; sv_parents := Some [sv_id v +:+ INTERPOSED_ROUTER_SUFFIX]; sv_scope := sv_scope v; sv_kind := sv_kind v |}.

Definition normalizeStep (byId : list (string * SubmittedVertex)) (acc : list SubmittedVertex * list string) (v : SubmittedVertex)
    : result (list SubmittedVertex * list string) :=
  let '(vs, interposed) := acc in
  if kind_of v !=? k_planner then Ok (vs ++ [v], interposed) else
  if negb (needsInterposedRouter (parents v) byId) then Ok (vs ++ [v], interposed) else
  let routerId := sv_id v +:+ INTERPOSED_ROUTER_SUFFIX in
  if JMap.has byId routerId then Throw ("cannot interpose a router for " +:+ sv_id v +:+ ": " +:+ routerId +:+ " already exists")
  else Ok (vs ++ [interposedRouter v; behindRouter v], interposed ++ [routerId]).

Definition normalizeWorkflow (submission : WorkflowSubmission) : result NormalizedWorkflow :=
  let byId := vertices_by_id (w_vertices submission) in
  _ ← foldM (fun _ v => checkParents byId v) tt (w_vertices submission);
  st ← foldM (normalizeStep byId) ([], []) (w_vertices submission);
  Ok {| nw_workflow := with_vertices submission (fst st); interposed := snd st |}.

(** ** Lowering *)
Definition lowerVertex (v : SubmittedVertex) : ProposalVertex :=
  {| pv_id := sv_id v; pv_parents := parents v; pv_kind := kind_of v;
     pv_tool := match sv_kind v with SubmittedTool t _ _ _ => Some t | _ => None end;
     pv_scopeId := truthy (sv_scope v);
     pv_confirmedOutput := match sv_kind v with SubmittedTool _ _ _ (Some true) => Some true | _ => None end;
     pv_templateRef := match sv_kind v with SubmittedRouter r => truthy r | _ => None end |}.

Definition lowerToProposal (w : WorkflowSubmission) : SubDagProposal :=
  {| p_vertices := map lowerVertex (w_vertices w); p_scopes := default [] (w_scopes w) |}.

(** ** Topological order

    [visit] emits a vertex after its parents. The visiting path holds distinct known vertices, so the
    fuel — one more than the number of vertices — runs out only on a path that repeats one. *)
Fixpoint visit (byId : list (string * SubmittedVertex)) (fuel : nat) (visiting : list string)
    (st : list SubmittedVertex * list string) (id : string) : result (list SubmittedVertex * list string) :=
  if JSet.has (snd st) id then Ok st else
  match fuel with
  | O => Throw ("workflow contains a cycle at " +:+ id)
  | S fuel =>
      if JSet.has visiting id then Throw ("workflow contains a cycle at " +:+ id) else
      match JMap.get byId id with
      | None => Throw "Cannot read properties of undefined (reading 'parents')"
      | Some v =>
          st' ← foldM (visit byId fuel (visiting ++ [id])) st (parents v);
          Ok (fst st' ++ [v], JSet.add (snd st') id)
      end
  end.

Definition topologicalOrder (vs : list SubmittedVertex) : result (list SubmittedVertex) :=
  let byId := vertices_by_id vs in
  st ← foldM (fun st v => visit byId (S (length vs)) [] st (sv_id v)) ([], []) vs;
  Ok (fst st).

(** ** Slots of interposed routers *)
Section Compile.
Variable sha256 : string -> string.

Definition slotTarget (id : string) : string := take_str (String.length id - String.length INTERPOSED_ROUTER_SUFFIX) id.

Definition upstreamTools (byId : list (string * SubmittedVertex)) (v : SubmittedVertex) : list string :=
  omap (fun p => match JMap.get byId p with
                 | Some u => match sv_kind u with SubmittedTool t _ _ _ => Some t | _ => None end
                 | None => None end) (parents v).

Definition slotStep (w : WorkflowSubmission) (byId : list (string * SubmittedVertex)) (slots : list (string * string)) (v : SubmittedVertex)
    : list (string * string) :=
  match sv_kind v with
  | SubmittedRouter r =>
      match truthy r with
      | Some _ => slots
      | None => if negb (ends_with INTERPOSED_ROUTER_SUFFIX (sv_id v)) then slots
                else JMap.set slots (sv_id v) (slotIdOf sha256 (default "default" (workflowType w)) (upstreamTools byId v) (slotTarget (sv_id v)))
      end
  | _ => slots
  end.

Definition routerSlotIds (w : WorkflowSubmission) : list (string * string) :=
  fold_left (slotStep w (vertices_by_id (w_vertices w))) (w_vertices w) [].

(** ** Arguments by path *)

(** [path.replace(/^\$\.?/, '').split('.').filter(Boolean)] *)
Definition segments (path : string) : list string :=
  let stripped := match path with
                  | String "$"%char (String "."%char s) => s
                  | String "$"%char s => s
                  | s => s end in
  filter_by (fun s => s !=? "") (Js.split_char "."%char stripped).

(** The walk both readers do: only a plain object has members. Arguments are JSON, so a member is an
    own property. *)
Fixpoint walk (current : value) (segs : list string) : value :=
  match segs with
  | [] => current
  | s :: segs => match current with VObj o => walk (Js.field o s) segs | _ => VUndef end
  end.

Definition valueAtArgumentPath (input : object) (path : string) : value := walk (VObj input) (segments path).

(** A submitted tool call, as the three functions below take it. *)
Record SubmittedToolVertex : Type := {
  st_id : string;
  st_tool : string;
  st_input : option object;
  st_idempotencyKey : option string
}.

Definition resolveArguments (v : SubmittedToolVertex) (contract : ToolViewTool) (field : string) (mapping : list (string * string)) : result object :=
  foldM (fun resolved entry =>
    match valueAtArgumentPath (default [] (st_input v)) (snd entry) with
    | VUndef => Throw (st_id v +:+ " calls " +:+ tool_id contract +:+ ", whose " +:+ field +:+ " reads " +:+ snd entry +:+ ", absent from its frozen arguments")
    | x => Ok (JMap.set resolved (fst entry) x)
    end) [] mapping.

Definition companionInputs (v : SubmittedToolVertex) (contract : ToolViewTool) : result object :=
  foldM (fun inputs entry =>
    match snd entry with
    | None => Ok inputs
    | Some mapping => resolved ← resolveArguments v contract (fst entry) mapping; Ok (JMap.set inputs (fst entry) (VObj resolved))
    end) [] [("confirm_input", confirm_arguments (txn contract)); ("cancel_input", cancel_arguments (txn contract));
             ("compensate_input", compensate_arguments (txn contract))].

(** ** Idempotency keys *)
Definition derivedIdempotencyKey (v : SubmittedToolVertex) (contract : ToolViewTool) : result (option string) :=
  match truthy (idempotency_key_path (txn contract)) with
  | None => Ok None
  | Some path =>
      match walk (VObj (default [] (st_input v))) (segments path) with
      | (VStr _ | VNum _) as x => Ok (Some (tool_id contract +:+ ":" +:+ Js.to_text x))
      | _ => Throw (st_id v +:+ " calls " +:+ tool_id contract +:+ ", whose idempotency key path " +:+ path +:+ " resolves to nothing in its input")
      end
  end.

Definition baseIdempotencyKey (v : SubmittedToolVertex) (contract : ToolViewTool) : result (option string) :=
  match st_idempotencyKey v with Some k => Ok (Some k) | None => derivedIdempotencyKey v contract end.

Definition GENERATION_SEPARATOR : string := "#".

(** [/^[1-9][0-9]*$/] *)
Definition generation_text (s : string) : bool :=
  match s with
  | "" => false
  | String a s' => Pattern.digit a && (a !=? "0"%char) && all_chars Pattern.digit s'
  end.

(** A generation is a count; the integer its digits denote. *)
Definition generationOf (base key : string) : option Z :=
  if key ==? base then Some 1 else
  if negb (starts_with (base +:+ GENERATION_SEPARATOR) key) then None else
  let suffix := drop_str (String.length base + String.length GENERATION_SEPARATOR) key in
  if generation_text suffix then Some (fst (fst (Num.digits 0 0 suffix))) else None.

(** [`${latest + 1}`]: exact while the sum is a safe integer, rounded as binary64 beyond. *)
Definition successor_text (latest : Z) : string :=
  if latest <? 2 ^ 53 - 1 then zstr (latest + 1) else Num.to_string (Num.add (Num.of_Z latest) (Num.of_Z 1)).

Definition generations (base : string) (existing : list BracketRecord) : list (BracketRecord * Z) :=
  omap (fun r => (fun g => (r, g)) <$> generationOf base (br_idempotencyKey r)) existing.

Definition nextIdempotencyKey (base : string) (existing : list BracketRecord) : string :=
  match generations base existing with
  | [] => base
  | ((_, g0) :: rest) as all =>
      match find (fun e => br_state (fst e) !=? br_cancelled) all with
      | Some live => br_idempotencyKey (fst live)
      | None => base +:+ GENERATION_SEPARATOR +:+ successor_text (fold_left (fun m e => Z.max m (snd e)) rest g0)
      end
  end.

(** ** Compilation *)
Definition placement_name (p : RouterPlacement) : string := match p with at_savepoint => "at_savepoint" | inside_scope => "inside_scope" end.

Definition retryPolicy (r : ToolViewRetry) : value :=
  VObj [("max_attempts", VNum (max_attempts r)); ("initial_backoff_ms", VNum (initial_backoff_ms r));
        ("multiplier", VNum (Num.div (multiplier_milli r) (Num.of_Z 1000))); ("max_backoff_ms", VNum (max_backoff_ms r))].

(** [...(x ? {k: x} : {})] on a number *)
Definition num_prop (k : string) (o : option number) : object :=
  match o with Some n => if Js.truthy_value (VNum n) then [(k, VNum n)] else [] | None => [] end.

Definition toolPayload (v : SubmittedToolVertex) (contract : ToolViewTool) (resolved : ResolvedToolView)
    (brackets : list (string * list BracketRecord)) : result object :=
  base ← baseIdempotencyKey v contract;
  let idempotencyKey := (fun b => nextIdempotencyKey b (JMap.get_or [] brackets b)) <$> base in
  companions ← companionInputs v contract;
  let t := txn contract in
  Ok [("role", VStr "tool"); ("tool", VStr (tool_id contract)); ("tool_version", VStr (tool_version contract));
      ("tool_view_digest", VStr (tool_view_digest (rv_identity resolved))); ("input", VObj (default [] (st_input v)));
      ("retry_policy", retryPolicy (retry_constraints contract));
      ("txn", VObj ([("effect_class", VStr (effect_name (effect_class t))); ("mode", VStr (mode_name (tvt_mode t)))] ++
                    opt_prop "idempotency_key" VStr (truthy idempotencyKey) ++ num_prop "try_timeout_s" (try_timeout_s t) ++
                    opt_prop "confirm_tool" VStr (truthy (confirm_tool t)) ++ opt_prop "cancel_tool" VStr (truthy (cancel_tool t)) ++
                    opt_prop "compensate_tool" VStr (truthy (compensate_tool t)) ++ opt_prop "status_tool" VStr (truthy (status_tool t)) ++
                    companions))].

Definition vertexPayload (v : SubmittedVertex) (contracts : list (string * ToolViewTool)) (resolved : ResolvedToolView)
    (slotId : option string) (binding : option RouterBinding) (brackets : list (string * list BracketRecord)) : result object :=
  match sv_kind v with
  | SubmittedPlanner goal => Ok ([("role", VStr "planner")] ++ opt_prop "goal" VStr (truthy goal))
  | SubmittedBarrier => Ok [("role", VStr "confirmation-barrier")]
  | SubmittedRouter ref =>
      Ok ([("role", VStr "router"); ("origin", VStr (if ends_with INTERPOSED_ROUTER_SUFFIX (sv_id v) then "interposed" else "declared"))] ++
          opt_prop "template_ref" VStr (truthy ref) ++ opt_prop "slot_id" VStr (truthy slotId) ++
          opt_prop "placement" (fun b => VStr (placement_name (rb_placement b))) binding)
  | SubmittedTool tool input key _ =>
      match JMap.get contracts tool with
      | None => Throw (sv_id v +:+ " names " +:+ tool +:+ ", absent from the resolved tool view")
      | Some contract =>
          toolPayload {| st_id := sv_id v; st_tool := tool; st_input := input; st_idempotencyKey := key |} contract resolved brackets
      end
  end.

Definition contractMap (resolved : ResolvedToolView) : list (string * ToolViewTool) :=
  JMap.of_entries (map (fun t => (tool_id t, t)) (tools (rv_document resolved))).

(** The ids freeze allocates: [newId] is called once per vertex, then once per scope. *)
Definition allocate (newId : nat -> string) (offset : nat) (names : list string) : list (string * string) :=
  JMap.of_entries (map (fun p => (snd p, newId (fst p))) (entries_from offset names)).

Definition compileVertex (w : WorkflowSubmission) (resolved : ResolvedToolView) (bindings : list (string * RouterBinding))
    (brackets : list (string * list BracketRecord)) (vertexIds scopeIds : list (string * string)) (v : SubmittedVertex) : result EventDraft :=
  let parentRefs := match parents v with
                    | [] => default [] (attachTo w)
                    | declared => map (fun p => JMap.get_or "" vertexIds p) declared
                    end in
  let scopeId := match truthy (sv_scope v) with Some s => JMap.get scopeIds s | None => None end in
  _ ← match truthy (sv_scope v), truthy scopeId with
      | Some s, None => Throw (sv_id v +:+ " names undeclared scope " +:+ s)
      | _, _ => Ok tt
      end;
  payload ← vertexPayload v (contractMap resolved) resolved (JMap.get (routerSlotIds w) (sv_id v)) (JMap.get bindings (sv_id v)) brackets;
  Ok {| d_event_type := vertex_created; d_vertex_id := Some (JMap.get_or "" vertexIds (sv_id v)); d_parent_refs := Some parentRefs;
        d_planner_id := None; d_scope_id := truthy scopeId; d_pin_version := truthy (JMap.get bindings (sv_id v) ≫= rb_pinVersion);
        d_ignorable := false; d_payload := payload |}.

Definition compileVertexDrafts (w : WorkflowSubmission) (resolved : ResolvedToolView) (bindings : list (string * RouterBinding))
    (newId : nat -> string) (brackets : list (string * list BracketRecord)) : result CompiledSubgraph :=
  let vertexIds := allocate newId 0 (map sv_id (w_vertices w)) in
  let scopeIds := allocate newId (length (w_vertices w)) (map ps_id (default [] (w_scopes w))) in
  ordered ← topologicalOrder (w_vertices w);
  drafts ← mapR (compileVertex w resolved bindings brackets vertexIds scopeIds) ordered;
  Ok {| cs_vertexIds := vertexIds; cs_scopeIds := scopeIds; cs_drafts := drafts |}.

(** ** The content address of a submission *)
Definition submitted_value (v : SubmittedVertex) : value :=
  VObj ([("id", VStr (sv_id v))] ++ opt_prop "parents" strings (sv_parents v) ++ opt_prop "scope" VStr (sv_scope v) ++
        match sv_kind v with
        | SubmittedTool tool input key confirmed =>
            [("kind", VStr "tool"); ("tool", VStr tool)] ++ opt_prop "input" VObj input ++ opt_prop "idempotencyKey" VStr key ++
            opt_prop "confirmedOutput" VBool confirmed
        | SubmittedPlanner goal => ("kind", VStr "planner") :: opt_prop "goal" VStr goal
        | SubmittedRouter ref => ("kind", VStr "router") :: opt_prop "templateRef" VStr ref
        | SubmittedBarrier => [("kind", VStr "confirmation-barrier")]
        end).

Definition source_name (s : SubmissionSource) : string := match s with src_submitted => "submitted" | src_router => "router" end.

Definition submission_value (w : WorkflowSubmission) : value :=
  VObj ([("submissionId", VStr (submissionId w)); ("schemaVersion", VStr "v1"); ("vertices", VArr (map submitted_value (w_vertices w)))] ++
        opt_prop "scopes" (fun l => VArr (map scope_value l)) (w_scopes w) ++ opt_prop "workflowType" VStr (workflowType w) ++
        opt_prop "attachTo" strings (attachTo w) ++ opt_prop "source" (fun s => VStr (source_name s)) (source w)).

Definition submissionDigest (w : WorkflowSubmission) : string := "sha256:" +:+ sha256 (Text.canonicalText (submission_value w)).
End Compile.
