(* ===== verification/WorkflowFacts.v ===== *)
(** * Facts about workflow submission

    Normalization puts every planner behind one router and does nothing the second time; compilation
    emits every vertex after its parents exactly for acyclic workflows; an idempotency key is a live
    one or a fresh generation. *)

From S2P Require Import Prelude Collections Number Json JsonParse Events Graph CheckRules CheckRulesFacts ToolView Gateway RuleTemplate Workflow.

(** ** Decimal text *)
Lemma pattern_digit c : Pattern.digit c = Parse.is_digit c.
Proof. by destruct c as [[] [] [] [] [] [] [] []]. Qed.

Lemma generation_zstr z : 1 <= z -> generation_text (zstr z) = true /\ fst (fst (Num.digits 0 0 (zstr z))) = z.
Proof.
  intros Hz. destruct z as [|p|p]; [lia| |lia]. destruct (zstr_positive p) as (c & t & -> & Hc & H0 & Ht & k & _ & Hdig). rewrite Hdig.
  split; [|done]. cbn [generation_text]. rewrite pattern_digit, Hc, (proj2 (neqb_true c "0"%char) H0). cbn [andb].
  clear -Ht. induction t as [|a t IH]; [done|]. cbn [all_chars] in *. bool_prop. by rewrite pattern_digit, IH, andb_true_r.
Qed.

(** ** Generations of a key *)
Lemma starts_with_app p s : starts_with p (p +:+ s) = true.
Proof. induction p as [|a p IH]; [done|]. change ((a ==? a) && starts_with p (p +:+ s) = true). by rewrite eqb_refl. Qed.

Lemma drop_str_app p s : drop_str (String.length p) (p +:+ s) = s.
Proof. induction p as [|a p IH]; [done|]. exact IH. Qed.

Lemma generationOf_base base : generationOf base base = Some 1.
Proof. unfold generationOf. by rewrite eqb_refl. Qed.

Lemma generationOf_next base z : 1 <= z -> generationOf base (base +:+ GENERATION_SEPARATOR +:+ zstr z) = Some z.
Proof.
  intros Hz. unfold generationOf. assert ((base +:+ GENERATION_SEPARATOR +:+ zstr z ==? base) = false) as ->.
  { apply eqb_false. intros H. apply (f_equal String.length) in H. rewrite !sapp_length in H. cbn in H. lia. }
  rewrite <- sapp_assoc, starts_with_app. cbn [negb]. rewrite <- sapp_length, drop_str_app.
  destruct (generation_zstr z Hz) as [-> ->]. done.
Qed.

Lemma fold_max {A} (key : A -> Z) l g0 :
  g0 <= fold_left (fun m e => Z.max m (key e)) l g0 /\ (forall e, e ∈ l -> key e <= fold_left (fun m e => Z.max m (key e)) l g0) /\
  (fold_left (fun m e => Z.max m (key e)) l g0 = g0 \/ exists e, e ∈ l /\ fold_left (fun m e => Z.max m (key e)) l g0 = key e).
Proof.
  revert g0; induction l as [|e l IH]; intros g0; cbn [fold_left].
  - split; [lia|]. split; [intros ? []%elem_of_nil|by left].
  - destruct (IH (Z.max g0 (key e))) as (H1 & H2 & H3). split; [lia|]. split.
    + intros x [->|Hx]%elem_of_cons; [lia|by apply H2].
    + destruct H3 as [->|(x & Hx & ->)]; [|right; exists x; split; [by right|done]].
      destruct (Z.max_spec g0 (key e)) as [[_ ->]|[_ ->]]; [right; exists e; split; [left|done]|by left].
Qed.

Lemma elem_of_generations base existing r g :
  (r, g) ∈ generations base existing <-> r ∈ existing /\ generationOf base (br_idempotencyKey r) = Some g.
Proof.
  unfold generations. rewrite list_elem_of_omap. split.
  - intros (r' & Hr & H). destruct (generationOf base (br_idempotencyKey r')) as [g'|] eqn:E; [|done].
    injection H as <- <-. done.
  - intros [Hr Hg]. exists r. split; [done|]. by rewrite Hg.
Qed.

(** The chosen key is a live recorded one or a fresh generation above all the cancelled ones. *)
Lemma nextIdempotencyKey_spec base existing :
  (forall r g, r ∈ existing -> generationOf base (br_idempotencyKey r) = Some g -> 1 <= g < 2 ^ 53 - 1) ->
  let key := nextIdempotencyKey base existing in
  (exists g, generationOf base key = Some g /\
    ((exists r, r ∈ existing /\ br_idempotencyKey r = key /\ br_state r <> br_cancelled) \/
     (forall r h, r ∈ existing -> generationOf base (br_idempotencyKey r) = Some h ->
        br_state r = br_cancelled /\ h < g /\ br_idempotencyKey r <> key))).
Proof.
  intros Hsafe. cbv zeta. unfold nextIdempotencyKey. destruct (generations base existing) as [|[r0 g0] rest] eqn:E.
  - exists 1. split; [apply generationOf_base|]. right. intros r h Hr Hh.
    assert ((r, h) ∈ generations base existing) as H by by apply elem_of_generations. rewrite E in H. by apply elem_of_nil in H.
  - destruct (find _ _) as [[r g]|] eqn:Ef.
    + apply find_Some in Ef as [Hin Hlive]. rewrite <- E in Hin. apply elem_of_generations in Hin as [Hr Hg]. cbn [fst] in *.
      exists g. split; [done|]. left. exists r. bool_prop. done.
    + rewrite find_None in Ef. set (m := fold_left _ rest g0).
      assert (forall r h, (r, h) ∈ generations base existing -> h <= m) as Hmax.
      { intros r h. rewrite E. destruct (fold_max snd rest g0) as (H1 & H2 & _). intros [[= -> ->]|Hin]%elem_of_cons; [done|]. by apply (H2 (r, h)). }
      assert (1 <= m < 2 ^ 53 - 1) as Hm.
      { assert (exists r, (r, m) ∈ generations base existing) as [r Hr].
        { rewrite E. destruct (fold_max snd rest g0) as (_ & _ & [Hm|([r g] & Hin & Hm)]); fold m in Hm; rewrite Hm; [exists r0; left|exists r; right; done]. }
        apply elem_of_generations in Hr as [Hr Hg]. by apply (Hsafe r). }
      unfold successor_text. rewrite (proj2 (Z.ltb_lt _ _)) by lia.
      assert (generationOf base (base +:+ GENERATION_SEPARATOR +:+ zstr (m + 1)) = Some (m + 1)) as Hnext by (apply generationOf_next; lia).
      exists (m + 1). split; [done|]. right. intros r h Hr Hh.
      assert ((r, h) ∈ generations base existing) as Hin by by apply elem_of_generations. specialize (Hmax _ _ Hin).
      split; [|split; [lia|]].
      * rewrite E in Hin. specialize (Ef _ Hin). cbn [fst] in Ef. by bool_prop.
      * intros Heq. rewrite Heq, Hnext in Hh. injection Hh as <-. lia.
Qed.

Example nextIdempotencyKey_reads :
  nextIdempotencyKey "hold:O1" [{| br_idempotencyKey := "hold:O1"; br_state := br_cancelled |}; {| br_idempotencyKey := "hold:O1#2"; br_state := br_cancelled |}] = "hold:O1#3" /\
  nextIdempotencyKey "hold:O1" [{| br_idempotencyKey := "hold:O1"; br_state := br_cancelled |}; {| br_idempotencyKey := "hold:O1#2"; br_state := br_sealed |}] = "hold:O1#2".
Proof. vm_compute. done. Qed.

(** ** Normalization *)
Section Normalize.
Context (byId : list (string * SubmittedVertex)).

Definition routerId (v : SubmittedVertex) : string := sv_id v +:+ INTERPOSED_ROUTER_SUFFIX.
Definition interposes (v : SubmittedVertex) : bool := (kind_of v ==? k_planner) && needsInterposedRouter (parents v) byId.
Definition expand (v : SubmittedVertex) : list SubmittedVertex := if interposes v then [interposedRouter v; behindRouter v] else [v].

Lemma normalizeStep_spec acc v acc' :
  normalizeStep byId acc v = Ok acc' <->
  (interposes v = true -> JMap.has byId (routerId v) = false) /\
  acc' = (fst acc ++ expand v, snd acc ++ if interposes v then [routerId v] else []).
Proof.
  destruct acc as [vs is_]. unfold normalizeStep, expand, interposes, routerId.
  destruct (kind_of v ==? k_planner); cbn [negb andb fst snd].
  - destruct (needsInterposedRouter (parents v) byId); cbn [negb].
    + destruct (JMap.has byId _); [split; [done|intros [H _]; by specialize (H eq_refl)]|]. split; [intros [= <-]; done|by intros [_ ->]].
    + rewrite app_nil_r. split; [intros [= <-]; done|by intros [_ ->]].
  - rewrite app_nil_r. split; [intros [= <-]; done|by intros [_ ->]].
Qed.

Lemma normalizeFold_spec l acc acc' :
  foldM (normalizeStep byId) acc l = Ok acc' <->
  (forall v, v ∈ l -> interposes v = true -> JMap.has byId (routerId v) = false) /\
  acc' = (fst acc ++ flat_map expand l, snd acc ++ map routerId (filter_by interposes l)).
Proof.
  revert acc; induction l as [|v l IH]; intros acc; cbn [foldM flat_map List.filter map].
  - rewrite !app_nil_r. destruct acc; cbn. split; [intros [= <-]; split; [intros ? []%elem_of_nil|done]|by intros [_ ->]].
  - rewrite bind_Ok. setoid_rewrite elem_of_cons. split.
    + intros (a & Hs & H). apply normalizeStep_spec in Hs as [Hv ->]. apply IH in H as [Hl ->]. cbn [fst snd].
      split; [intros u [->|Hu]; auto|]. rewrite <- !(assoc (++)). by destruct (interposes v).
    + intros [Hl ->]. eexists. split; [apply normalizeStep_spec; split; [intros; apply Hl; auto|reflexivity]|].
      apply IH. split; [intros; apply Hl; auto|]. cbn [fst snd]. rewrite <- !(assoc (++)). by destruct (interposes v).
Qed.
End Normalize.

Lemma checkParents_spec byId v : checkParents byId v = Ok tt <-> forall p, p ∈ parents v -> p ∈ JMap.keys byId.
Proof.
  unfold checkParents. induction (parents v) as [|p ps IH]; cbn [foldM]; [split; [intros _ ? []%elem_of_nil|done]|].
  setoid_rewrite elem_of_cons. destruct (JMap.has byId p) eqn:E; cbn [mbind result_bind].
  - rewrite IH. apply has_keys in E. naive_solver.
  - apply has_keys_false in E. split; [done|]. intros H. exfalso. apply E. apply H. by left.
Qed.

Lemma checkAll_spec byId l : foldM (fun _ v => checkParents byId v) tt l = Ok tt <-> forall v p, v ∈ l -> p ∈ parents v -> p ∈ JMap.keys byId.
Proof.
  induction l as [|v l IH]; cbn [foldM]; [split; [intros _ ? ? []%elem_of_nil|done]|].
  setoid_rewrite elem_of_cons. rewrite bind_Ok. split.
  - intros ([] & Hv & H). rewrite IH in H. rewrite checkParents_spec in Hv. naive_solver.
  - intros H. exists tt. rewrite checkParents_spec, IH. naive_solver.
Qed.

Lemma vertices_by_id_keys vs x : x ∈ JMap.keys (vertices_by_id vs) <-> x ∈ map sv_id vs.
Proof. unfold vertices_by_id. by rewrite keys_of_entries, map_map. Qed.

Lemma vertices_by_id_snoc vs v x :
  JMap.get (vertices_by_id (vs ++ [v])) x = if sv_id v ==? x then Some v else JMap.get (vertices_by_id vs) x.
Proof. unfold vertices_by_id. rewrite map_app. cbn [map]. by rewrite of_entries_snoc, get_set. Qed.

(** A vertex reads back as a vertex of the list with that id. *)
Lemma vertices_by_id_elem vs x v : JMap.get (vertices_by_id vs) x = Some v -> v ∈ vs /\ sv_id v = x.
Proof.
  induction vs as [|u vs IH] using rev_ind; [done|]. rewrite vertices_by_id_snoc, elem_of_app. case_eqb.
  - intros [= <-]. split; [right; by apply list_elem_of_singleton|done].
  - intros H. destruct (IH H). auto.
Qed.

(** The kinds of the expanded list. *)
Lemma expand_kind byId l x :
  (forall u v, u ∈ l -> v ∈ l -> interposes byId u = true -> sv_id v <> routerId u) ->
  kind_of <$> JMap.get (vertices_by_id (flat_map (expand byId) l)) x =
  if existsb (fun u => interposes byId u && (routerId u ==? x)) l then Some k_router else kind_of <$> JMap.get (vertices_by_id l) x.
Proof.
  induction l as [|v l IH] using rev_ind; intros Hfresh; [done|].
  rewrite flat_map_app, existsb_app. cbn [flat_map existsb]. rewrite app_nil_r, orb_false_r, (vertices_by_id_snoc l).
  assert (forall u, u ∈ l -> interposes byId u = true -> sv_id v <> routerId u) as Hv.
  { intros u Hu. apply Hfresh; apply elem_of_app; [by left|right; by apply list_elem_of_singleton]. }
  specialize (IH ltac:(intros; apply Hfresh; [apply elem_of_app; by left|apply elem_of_app; by left|done])).
  assert (sv_id v = x -> existsb (fun u => interposes byId u && (routerId u ==? x)) l = false) as Hx.
  { intros <-. apply existsb_false. intros u Hu. destruct (interposes byId u) eqn:Ei; [|done]. cbn. apply eqb_false.
    intros Heq. by apply (Hv u Hu Ei). }
  unfold expand at 2. destruct (interposes byId v) eqn:Ei.
  - change [interposedRouter v; behindRouter v] with ([interposedRouter v] ++ [behindRouter v]). rewrite (assoc (++)), !vertices_by_id_snoc.
    cbn [sv_id behindRouter interposedRouter]. fold (routerId v). cbn [andb]. case_eqb.
    + rewrite Hx by done. assert ((routerId v ==? x) = false) as ->; [|done]. apply eqb_false. intros Hr.
      apply (Hfresh v v); [apply elem_of_app; right; by apply list_elem_of_singleton..|done|congruence].
    + destruct (routerId v ==? x); [by rewrite orb_true_r|]. by rewrite orb_false_r.
  - rewrite vertices_by_id_snoc. cbn [andb]. rewrite orb_false_r. case_eqb; [by rewrite Hx|done].
Qed.

(** Every planner with parents reaches them through exactly one router. *)
Definition canonical (w : WorkflowSubmission) : Prop :=
  forall v, v ∈ w_vertices w -> kind_of v = k_planner -> parents v <> [] ->
  exists r u, parents v = [r] /\ JMap.get (vertices_by_id (w_vertices w)) r = Some u /\ kind_of u = k_router.

Definition closed (w : WorkflowSubmission) : Prop :=
  forall v p, v ∈ w_vertices w -> p ∈ parents v -> p ∈ map sv_id (w_vertices w).

Lemma normalizeWorkflow_spec w n :
  normalizeWorkflow w = Ok n <->
  closed w /\
  (forall v, v ∈ w_vertices w -> interposes (vertices_by_id (w_vertices w)) v = true -> routerId v ∉ map sv_id (w_vertices w)) /\
  n = {| nw_workflow := with_vertices w (flat_map (expand (vertices_by_id (w_vertices w))) (w_vertices w));
         interposed := map routerId (filter_by (interposes (vertices_by_id (w_vertices w))) (w_vertices w)) |}.
Proof.
  unfold normalizeWorkflow, closed. setoid_rewrite <- vertices_by_id_keys. rewrite bind_Ok. setoid_rewrite bind_Ok. split.
  - intros ([] & Hc & st & Hs & H). pose proof (proj1 (checkAll_spec _ _) Hc) as Hcl. apply normalizeFold_spec in Hs as [Hf ->]. apply Ok_inj in H as <-.
    split; [done|]. split; [|done]. intros v Hv Hi. apply has_keys_false. by apply Hf.
  - intros (Hc & Hf & ->). exists tt. split; [by apply checkAll_spec|].
    exists (flat_map (expand (vertices_by_id (w_vertices w))) (w_vertices w), map routerId (filter_by (interposes (vertices_by_id (w_vertices w))) (w_vertices w))).
    split; [|reflexivity].
    apply normalizeFold_spec. split; [|done]. intros v Hv Hi. apply has_keys_false. by apply Hf.
Qed.

Lemma needs_false v byId :
  kind_of v = k_planner -> interposes byId v = false -> parents v <> [] ->
  exists r u, parents v = [r] /\ JMap.get byId r = Some u /\ kind_of u = k_router.
Proof.
  unfold interposes. intros -> Hi Hp. rewrite eqb_refl in Hi. cbn [andb] in Hi. unfold needsInterposedRouter in Hi.
  destruct (parents v) as [|r [|q l]]; [done| |done]. destruct (JMap.get byId r) as [u|] eqn:E; [|done]. bool_prop. by exists r, u.
Qed.

Lemma canonical_no_interposition w v :
  canonical w -> v ∈ w_vertices w -> interposes (vertices_by_id (w_vertices w)) v = false.
Proof.
  intros Hc Hv. unfold interposes. case_eqb; [|done]. cbn [andb]. destruct (parents v) as [|p ps] eqn:Ep; [done|].
  destruct (Hc v Hv E) as (r & u & Hr & Hu & Hk); [congruence|]. rewrite Ep in Hr. injection Hr as -> ->.
  cbn. by rewrite Hu, Hk.
Qed.

Lemma expand_id byId l : (forall v, v ∈ l -> interposes byId v = false) -> flat_map (expand byId) l = l /\ filter_by (interposes byId) l = [].
Proof.
  induction l as [|v l IH]; cbn [flat_map List.filter]; intros H; [done|]. unfold expand at 1. rewrite (H v) by left.
  destruct IH as [-> ->]; [intros u Hu; apply H; by right|]. done.
Qed.

Lemma normalized_canonical w n : normalizeWorkflow w = Ok n -> canonical (nw_workflow n) /\ closed (nw_workflow n).
Proof.
  intros H. apply normalizeWorkflow_spec in H as (Hc & Hf & ->). set (B := vertices_by_id (w_vertices w)) in *.
  unfold canonical, closed. cbn [nw_workflow with_vertices w_vertices].
  assert (forall u v, u ∈ w_vertices w -> v ∈ w_vertices w -> interposes B u = true -> sv_id v <> routerId u) as Hfresh.
  { intros u v Hu Hv Hi Heq. apply (Hf u Hu Hi). rewrite <- Heq. apply elem_of_map. eauto. }
  assert (forall x, x ∈ map sv_id (w_vertices w) -> x ∈ map sv_id (flat_map (expand B) (w_vertices w))) as Hkeep.
  { intros x. rewrite !elem_of_map. intros (v & -> & Hv). unfold expand.
    destruct (interposes B v) eqn:Ei; [exists (behindRouter v)|exists v]; (split; [done|]); apply elem_of_flat_map; exists v; split; try done;
      rewrite Ei; [right; left|left]. }
  assert (forall u, u ∈ w_vertices w -> interposes B u = true ->
    exists r, JMap.get (vertices_by_id (flat_map (expand B) (w_vertices w))) (routerId u) = Some r /\ kind_of r = k_router) as Hrouter.
  { intros u Hu Hi. pose proof (expand_kind B (w_vertices w) (routerId u) Hfresh) as Hk.
    assert (existsb (fun v => interposes B v && (routerId v ==? routerId u)) (w_vertices w) = true) as He.
    { apply existsb_true. exists u. split; [done|]. by rewrite Hi, eqb_refl. }
    rewrite He in Hk. destruct (JMap.get _ (routerId u)) as [r|]; [|done]. exists r. split; [done|]. by injection Hk. }
  split.
  - intros v Hv Hk Hp. apply elem_of_flat_map in Hv as (u & Hu & Hv). unfold expand in Hv. destruct (interposes B u) eqn:Ei.
    + apply elem_of_cons in Hv as [->|Hv]; [done|]. apply list_elem_of_singleton in Hv as ->.
      destruct (Hrouter u Hu Ei) as (r & Hr & Hkr). exists (routerId u), r. done.
    + apply list_elem_of_singleton in Hv as ->. destruct (needs_false u B Hk Ei Hp) as (r & x & Hr & Hx & Hkx).
      pose proof (expand_kind B (w_vertices w) r Hfresh) as Hkind. fold B in Hkind. rewrite Hx in Hkind. cbn in Hkind.
      assert (existsb (fun v => interposes B v && (routerId v ==? r)) (w_vertices w) = false) as He.
      { apply existsb_false. intros v Hv. destruct (interposes B v) eqn:Ev; [|done]. cbn. apply eqb_false. intros <-.
        apply (Hf v Hv Ev). apply vertices_by_id_elem in Hx as [Hx <-]. apply elem_of_map. eauto. }
      rewrite He in Hkind. destruct (JMap.get (vertices_by_id (flat_map (expand B) (w_vertices w))) r) as [y|] eqn:Ey; [|done]. assert (kind_of y = kind_of x) as Hy by (cbn in Hkind; congruence). exists r, y. split_and!; [done|done|congruence].
  - intros v p Hv Hp. apply elem_of_flat_map in Hv as (u & Hu & Hv). unfold expand in Hv. destruct (interposes B u) eqn:Ei.
    + apply elem_of_cons in Hv as [->|Hv].
      * apply Hkeep. by apply (Hc u).
      * apply list_elem_of_singleton in Hv as ->. apply list_elem_of_singleton in Hp as ->. destruct (Hrouter u Hu Ei) as (r & Hr & _).
        apply vertices_by_id_elem in Hr as [Hr Hid]. apply elem_of_map. exists r. done.
    + apply list_elem_of_singleton in Hv as ->. apply Hkeep. by apply (Hc u).
Qed.

(** The checker's vertex map of a lowered workflow is the lowered vertex map. *)
Lemma lowered_vertex w x :
  JMap.get (vertex_map (lowerToProposal w)) x = lowerVertex <$> JMap.get (vertices_by_id (w_vertices w)) x.
Proof.
  unfold vertex_map, vertices_by_id, lowerToProposal. cbn [p_vertices]. rewrite map_map. cbn [lowerVertex pv_id].
  induction (w_vertices w) as [|v vs IH] using rev_ind; [done|].
  rewrite !map_app. cbn [map]. rewrite !of_entries_snoc, !get_set. by destruct (sv_id v ==? x).
Qed.

Lemma canonical_R14 w reg c : canonical w -> buildContext (lowerToProposal w) reg = Ok c -> ruleR14 c = [].
Proof.
  intros Hc Hb. apply (R14_nil (lowerToProposal w) reg c Hb). intros child cv parent pv Hchild Hk Hin Hparent Ht.
  unfold vertex_at in *. destruct (context_ancestors _ _ _ Hb) as (Hv & _). rewrite Hv, lowered_vertex in Hchild, Hparent.
  destruct (JMap.get _ child) as [v|] eqn:Ev; [|done]. cbn in Hchild. injection Hchild as <-.
  apply vertices_by_id_elem in Ev as [Hv0 _]. cbn [lowerVertex pv_parents pv_kind] in Hin, Hk.
  destruct (Hc v Hv0 Hk) as (r & u & Hr & Hu & Hku); [intros Hn; rewrite Hn in Hin; by apply elem_of_nil in Hin|].
  rewrite Hr in Hin. apply list_elem_of_singleton in Hin as ->. rewrite Hu in Hparent. cbn in Hparent. injection Hparent as <-.
  cbn [lowerVertex pv_kind] in Ht. congruence.
Qed.

(** Normalization succeeds exactly on the workflows whose parents all exist and whose interposed
    router ids are free, and it delivers the canonical form: every planner with parents has exactly
    one and it is a router, the author's vertices are kept in order with only such planners rewired,
    a second pass changes nothing, and the checker can find no R14 violation in the result. *)
Theorem normalizeWorkflow_correct w :
  (is_ok (normalizeWorkflow w) = true <->
     closed w /\ forall v, v ∈ w_vertices w -> interposes (vertices_by_id (w_vertices w)) v = true -> routerId v ∉ map sv_id (w_vertices w)) /\
  forall n, normalizeWorkflow w = Ok n ->
    canonical (nw_workflow n) /\ closed (nw_workflow n) /\
    w_vertices (nw_workflow n) =
      flat_map (fun v => if interposes (vertices_by_id (w_vertices w)) v then [interposedRouter v; behindRouter v] else [v]) (w_vertices w) /\
    normalizeWorkflow (nw_workflow n) = Ok {| nw_workflow := nw_workflow n; interposed := [] |} /\
    forall reg c, buildContext (lowerToProposal (nw_workflow n)) reg = Ok c -> ruleR14 c = [].
Proof.
  split.
  - split.
    + intros H. destruct (normalizeWorkflow w) as [n|] eqn:E; [|done]. apply normalizeWorkflow_spec in E as (? & ? & _). done.
    + intros [Hc Hf]. by rewrite (proj2 (normalizeWorkflow_spec w _) (conj Hc (conj Hf eq_refl))).
  - intros n Hn. destruct (normalized_canonical w n Hn) as [Hcan Hclo]. split; [done|]. split; [done|].
    split; [by apply normalizeWorkflow_spec in Hn as (_ & _ & ->)|]. split; [|by intros; eapply canonical_R14].
    apply normalizeWorkflow_spec. split; [done|]. pose proof (fun v => canonical_no_interposition (nw_workflow n) v Hcan) as Hno.
    split; [intros v Hv Hi; rewrite Hno in Hi by done; done|]. destruct (expand_id _ _ Hno) as [-> ->].
    cbn [map]. f_equal. by destruct (nw_workflow n).
Qed.

(** ** Topological order *)
Section Topological.
Context (w : WorkflowSubmission).
Let byId := vertices_by_id (w_vertices w).
Let G := vertex_map (lowerToProposal w).

Lemma parents_at_lowered id v : JMap.get byId id = Some v -> parents_at G id = parents v.
Proof. intros H. unfold parents_at, G. rewrite lowered_vertex. fold byId. by rewrite H. Qed.

Lemma lowered_keys x : x ∈ JMap.keys G <-> x ∈ JMap.keys byId.
Proof. rewrite <- !get_is_Some. unfold G. rewrite lowered_vertex. fold byId. rewrite fmap_is_Some. done. Qed.

(** Every vertex comes after its parents. *)
Definition causal (l : list SubmittedVertex) : Prop :=
  forall pre v post, l = pre ++ v :: post -> forall p, p ∈ parents v -> p ∈ map sv_id pre.

Lemma causal_snoc l v : causal l -> (forall p, p ∈ parents v -> p ∈ map sv_id l) -> causal (l ++ [v]).
Proof.
  intros Hl Hv pre u post Heq. destruct post as [|x post] using rev_ind.
  - apply app_inj_tail in Heq as [-> ->]. done.
  - change (u :: post ++ [x]) with ((u :: post) ++ [x]) in Heq. rewrite (assoc (++)) in Heq.
    apply app_inj_tail in Heq as [-> _]. exact (Hl pre u post eq_refl).
Qed.

Record order_inv (st : list SubmittedVertex * list string) : Prop := {
  oi_placed : forall x, x ∈ snd st <-> x ∈ map sv_id (fst st);
  oi_nodup : NoDup (map sv_id (fst st));
  oi_known : forall v, v ∈ fst st -> JMap.get byId (sv_id v) = Some v;
  oi_causal : causal (fst st);
  oi_good : forall x, x ∈ snd st -> good G x
}.

Definition visited_by (visiting : list string) (st st' : list SubmittedVertex * list string) : Prop :=
  order_inv st' /\ (forall x, x ∈ snd st -> x ∈ snd st') /\ (forall x, x ∈ visiting -> x ∈ snd st' -> x ∈ snd st).

Lemma visit_order fuel visiting st id st' :
  order_inv st -> visit byId fuel visiting st id = Ok st' -> visited_by visiting st st' /\ id ∈ snd st'.
Proof.
  revert visiting st id st'; induction fuel as [|fuel IH]; intros visiting st id st' Hinv Hv; cbn [visit] in Hv;
    destruct (JSet.has (snd st) id) eqn:Ep.
  1,3: apply Ok_inj in Hv as <-; apply JSet_has_true in Ep; unfold visited_by; split_and!; done.
  { done. }
  destruct (JSet.has visiting id) eqn:Ev; [done|]. destruct (JMap.get byId id) as [v|] eqn:Eg; [|done].
  apply bind_Ok in Hv as (st1 & Hf & Hv). apply Ok_inj in Hv as <-. apply JSet_has_false in Ep, Ev.
  assert (visited_by (visiting ++ [id]) st st1 /\ forall p, p ∈ parents v -> p ∈ snd st1) as ((Hinv1 & Hgrow & Hvis) & Hall).
  { apply (foldM_prefix_inv (fun pre s => visited_by (visiting ++ [id]) st s /\ forall p, p ∈ pre -> p ∈ snd s)) in Hf; [done| |].
    - split; [split_and!; done|intros ? []%elem_of_nil].
    - intros pre p s s' ((Hi & Hg & Hvs) & Hpre) Hs. apply IH in Hs as ((Hi' & Hg' & Hvs') & Hp); [|done].
      split; [split_and!; [done|auto|auto]|]. intros q [Hq|Hq%list_elem_of_singleton]%elem_of_app; [auto|by subst]. }
  destruct (vertices_by_id_elem _ _ _ Eg) as [_ Hid].
  assert (id ∉ snd st1) as Hfresh.
  { intros Hin. apply Ep, Hvis; [apply elem_of_app; right; by apply list_elem_of_singleton|done]. }
  destruct Hinv1 as [I1 I2 I3 I4 I5]. split; [|cbn; apply elem_of_add; by left]. split_and!.
  - split; cbn [fst snd].
    + intros x. rewrite elem_of_add, map_app, elem_of_app, I1. cbn. rewrite list_elem_of_singleton, Hid. tauto.
    + rewrite map_app. apply NoDup_app. split; [done|]. split; [|apply NoDup_singleton].
      intros x Hx Hx'. cbn in Hx'. apply list_elem_of_singleton in Hx' as ->. rewrite Hid in Hx. by apply I1 in Hx.
    + intros u [Hu|Hu%list_elem_of_singleton]%elem_of_app; [by apply I3|]. subst. by rewrite Eg.
    + apply causal_snoc; [done|]. intros p Hp. by apply I1, Hall.
    + intros x Hx. apply elem_of_add in Hx as [->|Hx]; [|by apply I5]. apply good_of_parents.
      * apply lowered_keys, get_is_Some. by eexists.
      * intros p Hp. unfold up in Hp. rewrite (parents_at_lowered id v Eg) in Hp. by apply I5, Hall.
  - intros x Hx. cbn. apply elem_of_add. right. by apply Hgrow.
  - intros x Hx Hin. cbn in Hin. apply elem_of_add in Hin as [->|Hin]; [done|]. apply Hvis; [apply elem_of_app; by left|done].
Qed.

Lemma visit_reaches fuel visiting st id :
  good G id -> order_inv st -> NoDup visiting ->
  (forall x, x ∈ visiting -> x ∈ JMap.keys byId /\ tc (up G) x id) ->
  (length (w_vertices w) < fuel + length visiting)%nat ->
  exists st', visit byId fuel visiting st id = Ok st'.
Proof.
  revert visiting st id; induction fuel as [|fuel IH]; intros visiting st id Hg Hi Hnd Hvis Hlen; cbn [visit];
    (destruct (JSet.has (snd st) id) eqn:Ep; [by eexists|]).
  - exfalso. assert (length visiting <= length (JSet.of_list (map sv_id (w_vertices w))))%nat as Hle.
    { apply submseteq_length, NoDup_submseteq; [done|]. intros x Hx. apply elem_of_JSet_of_list, vertices_by_id_keys. by apply Hvis. }
    assert (length (JSet.of_list (map sv_id (w_vertices w))) <= length (map sv_id (w_vertices w)))%nat; [|rewrite length_map in *; lia].
    apply submseteq_length, NoDup_submseteq; [apply NoDup_JSet_of_list|]. intros x. by rewrite elem_of_JSet_of_list.
  - destruct (JSet.has visiting id) eqn:Ev.
    { exfalso. apply JSet_has_true, Hvis in Ev as [_ Hcyc]. by apply (Hg id (rtc_refl _ _)) in Hcyc. }
    apply JSet_has_false in Ev. destruct (Hg id (rtc_refl _ _)) as [Hk _]. apply lowered_keys in Hk as Hk'.
    apply get_is_Some in Hk' as [v Hv]. rewrite Hv.
    enough (forall ps s, (forall p, p ∈ ps -> up G id p) -> order_inv s -> exists s', foldM (visit byId fuel (visiting ++ [id])) s ps = Ok s') as Hfold.
    { destruct (Hfold (parents v) st) as [s' ->]; [|done|by eexists]. intros p Hp. unfold up. by rewrite (parents_at_lowered id v). }
    induction ps as [|p ps IHp]; intros s Hps Hs; [by eexists|]. cbn [foldM]. assert (up G id p) as Hp by (apply Hps; left).
    destruct (IH (visiting ++ [id]) s p) as [s1 Hs1].
    + by eapply good_parent.
    + done.
    + apply NoDup_app. split; [done|]. split; [|apply NoDup_singleton]. intros x Hx ->%list_elem_of_singleton. done.
    + intros x. rewrite elem_of_app, list_elem_of_singleton. intros [Hx| ->].
      * split; [by apply Hvis|]. eapply tc_r; [by apply Hvis|done].
      * split; [by apply lowered_keys|by apply tc_once].
    + rewrite length_app. cbn. lia.
    + rewrite Hs1. cbn [mbind result_bind]. apply visit_order in Hs1 as ((Hi1 & _) & _); [|done].
      apply IHp; [intros q Hq; apply Hps; by right|done].
Qed.
End Topological.

Definition acyclic (w : WorkflowSubmission) : Prop := forall id, ~ tc (up (vertex_map (lowerToProposal w))) id id.

Lemma order_inv_init w : order_inv w ([], []).
Proof.
  split; cbn.
  - done.
  - constructor.
  - intros ? []%elem_of_nil.
  - intros pre v post H. by destruct pre.
  - intros ? []%elem_of_nil.
Qed.

Lemma order_fold w vs st st' :
  order_inv w st -> foldM (fun st v => visit (vertices_by_id (w_vertices w)) (S (length (w_vertices w))) [] st (sv_id v)) st vs = Ok st' ->
  order_inv w st' /\ (forall x, x ∈ snd st -> x ∈ snd st') /\ forall v, v ∈ vs -> sv_id v ∈ snd st'.
Proof.
  revert st; induction vs as [|v vs IH]; intros st Hi Hf; cbn [foldM] in Hf.
  - apply Ok_inj in Hf as <-. split_and!; [done|done|intros ? []%elem_of_nil].
  - apply bind_Ok in Hf as (s & Hv & Hf). apply visit_order in Hv as ((Hs & Hg & _) & Hid); [|done].
    apply IH in Hf as (? & Hg' & Hall); [|done]. split_and!; [done|auto|]. intros u [->|Hu]%elem_of_cons; auto.
Qed.

Lemma order_total w vs st :
  (forall v, v ∈ vs -> good (vertex_map (lowerToProposal w)) (sv_id v)) -> order_inv w st ->
  exists st', foldM (fun st v => visit (vertices_by_id (w_vertices w)) (S (length (w_vertices w))) [] st (sv_id v)) st vs = Ok st'.
Proof.
  revert st; induction vs as [|v vs IH]; intros st Hg Hi; [by eexists|]. cbn [foldM].
  destruct (visit_reaches w (S (length (w_vertices w))) [] st (sv_id v)) as [s Hs];
    [apply Hg; left|done|constructor|intros ? []%elem_of_nil|cbn; lia|].
  rewrite Hs. cbn [mbind result_bind]. apply visit_order in Hs as ((? & _) & _); [|done]. apply IH; [intros u Hu; apply Hg; by right|done].
Qed.

Lemma topologicalOrder_inv w o :
  topologicalOrder (w_vertices w) = Ok o ->
  NoDup (map sv_id o) /\ causal o /\ (forall v, v ∈ o -> JMap.get (vertices_by_id (w_vertices w)) (sv_id v) = Some v) /\
  (forall x, x ∈ map sv_id o <-> x ∈ map sv_id (w_vertices w)) /\ (forall x, x ∈ map sv_id o -> good (vertex_map (lowerToProposal w)) x).
Proof.
  unfold topologicalOrder. intros H. apply bind_Ok in H as (st & Hf & H). apply Ok_inj in H as <-.
  apply order_fold in Hf as ([I1 I2 I3 I4 I5] & _ & Hall); [|apply order_inv_init]. split_and!; try done.
  - intros x. split.
    + rewrite !elem_of_map. intros (v & -> & Hv). exists v. split; [done|]. by apply I3, vertices_by_id_elem in Hv as [? _].
    + rewrite elem_of_map. intros (v & -> & Hv). by apply I1, Hall.
  - intros x Hx. by apply I5, I1.
Qed.

(** The topological order exists exactly for acyclic workflows whose parents are known — the
    search never gives up before it has seen a cycle — and then it lists every vertex once, the one
    its id names, each after all of its parents. *)
Theorem topologicalOrder_correct w :
  closed w ->
  (is_ok (topologicalOrder (w_vertices w)) = true <-> acyclic w) /\
  forall o, topologicalOrder (w_vertices w) = Ok o ->
    causal o /\ NoDup (map sv_id o) /\ (forall x, x ∈ map sv_id o <-> x ∈ map sv_id (w_vertices w)) /\
    (NoDup (map sv_id (w_vertices w)) -> o ≡ₚ w_vertices w).
Proof.
  intros Hc. split; [split|].
  - intros H. destruct (topologicalOrder (w_vertices w)) as [o|] eqn:E; [|done].
    apply topologicalOrder_inv in E as (_ & _ & _ & Hids & Hgood). intros id Hcyc.
    assert (id ∈ map sv_id o) as Hin.
    { pose proof Hcyc as Hc'. apply tc_up_inv in Hc' as (p & Hp & _). unfold up, parents_at in Hp. rewrite lowered_vertex in Hp.
      destruct (JMap.get _ id) as [v|] eqn:Ev; [|by apply elem_of_nil in Hp]. apply vertices_by_id_elem in Ev as [Hv <-].
      apply Hids, elem_of_map. eauto. }
    by apply (Hgood id Hin id (rtc_refl _ _)).
  - intros Hac. unfold topologicalOrder. destruct (order_total w (w_vertices w) ([], [])) as [st Hst]; [|apply order_inv_init|by rewrite Hst].
    intros v Hv x Hx. split; [|apply Hac]. apply lowered_keys, vertices_by_id_keys.
    destruct (rtc_inv_r _ _ Hx) as [<-|(y & _ & Hy)]; [apply elem_of_map; eauto|].
    unfold up, parents_at in Hy. rewrite lowered_vertex in Hy. destruct (JMap.get _ y) as [u|] eqn:Eu; [|by apply elem_of_nil in Hy].
    apply vertices_by_id_elem in Eu as [Hu _]. by apply (Hc u).
  - intros o Ho. apply topologicalOrder_inv in Ho as (Hnd & Hcau & Hget & Hids & _). split_and!; [done|done|done|].
    intros Hnd'. apply NoDup_Permutation; [by apply NoDup_fmap_1 in Hnd|by apply NoDup_fmap_1 in Hnd'|].
    intros v. split.
    + intros Hv. by apply Hget, vertices_by_id_elem in Hv as [? _].
    + intros Hv. assert (sv_id v ∈ map sv_id o) as Hin by (apply Hids, elem_of_map; eauto).
      apply elem_of_map in Hin as (u & Heq & Hu). pose proof (Hget u Hu) as Hgu. apply vertices_by_id_elem in Hgu as [Hu' _].
      enough (v = u) as -> by done. clear -Hnd' Hv Hu' Heq. revert Hnd' Hv Hu'.
      induction (w_vertices w) as [|x l IH]; intros Hnd Hv Hu; [by apply elem_of_nil in Hv|].
      cbn in Hnd. apply NoDup_cons in Hnd as [Hx Hnd]. apply elem_of_cons in Hv as [->|Hv], Hu as [->|Hu]; [done| | |by apply IH].
      * exfalso. apply Hx. rewrite Heq. apply elem_of_map. eauto.
      * exfalso. apply Hx. rewrite <- Heq. apply elem_of_map. eauto.
Qed.

(** ** A two-branch workflow, for concrete instances *)
Definition sample_tool_vertex (id : string) (ps : list string) (tool : string) : SubmittedVertex :=
  {| sv_id := id; sv_parents := Some ps; sv_scope := None; sv_kind := SubmittedTool tool (Some [("order", VStr "O1")]) None None |}.
Definition sample_workflow : WorkflowSubmission :=
  {| submissionId := "s1"; w_scopes := None; workflowType := None; attachTo := Some ["root"]; source := None;
     w_vertices := [{| sv_id := "plan"; sv_parents := Some ["a"]; sv_scope := None; sv_kind := SubmittedPlanner None |};
                    sample_tool_vertex "a" [] "look"] |}.

Lemma sample_closed : closed sample_workflow.
Proof.
  intros v p Hv Hp. assert (checkParents (vertices_by_id (w_vertices sample_workflow)) v = Ok tt) as H.
  { apply elem_of_cons in Hv as [->|Hv]; [vm_compute; reflexivity|]. apply list_elem_of_singleton in Hv as ->. vm_compute. reflexivity. }
  rewrite <- vertices_by_id_keys. by apply (proj1 (checkParents_spec _ _) H).
Qed.

Lemma topologicalOrder_witness :
  closed sample_workflow /\ acyclic sample_workflow /\ is_ok (topologicalOrder (w_vertices sample_workflow)) = true.
Proof.
  split; [exact sample_closed|]. split; [|vm_compute; reflexivity].
  apply (topologicalOrder_correct sample_workflow sample_closed). vm_compute. reflexivity.
Defined.

(** ** Compilation *)
Lemma allocate_elem newId off names x a :
  JMap.get (allocate newId off names) x = Some a -> exists i, names !! i = Some x /\ a = newId (off + i)%nat.
Proof.
  unfold allocate. intros H. apply get_of_entries_elem in H. apply elem_of_map in H as ([k n] & [= -> ->] & Hin).
  unfold entries_from in Hin. cbn [fst snd]. revert off Hin. induction names as [|m names IH]; intros off; cbn [length seq combine]; [by intros ?%elem_of_nil|].
  intros [[= -> ->]|Hin]%elem_of_cons; [exists 0%nat; by rewrite Nat.add_0_r|].
  destruct (IH (S off) Hin) as (i & Hi & ->). exists (S i). split; [done|]. f_equal. lia.
Qed.

Lemma allocate_total newId off names x : x ∈ names -> is_Some (JMap.get (allocate newId off names) x).
Proof.
  intros Hx. apply get_is_Some. unfold allocate. rewrite keys_of_entries, map_map. cbn [fst].
  unfold entries_from. revert off Hx. induction names as [|m names IH]; intros off; cbn [length seq combine map]; [by intros ?%elem_of_nil|].
  rewrite !elem_of_cons. cbn [snd]. intros [->|Hx]; [by left|]. right. by apply IH.
Qed.

Lemma allocate_inj newId off names x y a :
  (forall i j, newId i = newId j -> i = j) ->
  JMap.get (allocate newId off names) x = Some a -> JMap.get (allocate newId off names) y = Some a -> x = y.
Proof.
  intros Hinj Hx Hy. apply allocate_elem in Hx as (i & Hi & ->). apply allocate_elem in Hy as (j & Hj & Heq).
  apply Hinj in Heq. assert (i = j) as -> by lia. congruence.
Qed.

Section CompileFacts.
Variable sha256 : string -> string.
Context (w : WorkflowSubmission) (resolved : ResolvedToolView) (bindings : list (string * RouterBinding)).
Context (newId : nat -> string) (brackets : list (string * list BracketRecord)).
Hypothesis Hinj : forall i j, newId i = newId j -> i = j.

Let vertexIds := allocate newId 0 (map sv_id (w_vertices w)).
Let scopeIds := allocate newId (length (w_vertices w)) (map ps_id (default [] (w_scopes w))).

Lemma vertexIds_get x : x ∈ map sv_id (w_vertices w) -> JMap.get vertexIds x = Some (JMap.get_or "" vertexIds x).
Proof. intros Hx. destruct (allocate_total newId 0 _ x Hx) as [a Ha]. unfold JMap.get_or, vertexIds. by rewrite Ha. Qed.

Lemma vertexIds_inj x y : x ∈ map sv_id (w_vertices w) -> y ∈ map sv_id (w_vertices w) ->
  JMap.get_or "" vertexIds x = JMap.get_or "" vertexIds y -> x = y.
Proof.
  intros Hx Hy Heq. apply (allocate_inj newId 0 (map sv_id (w_vertices w)) x y (JMap.get_or "" vertexIds x) Hinj); [by apply vertexIds_get|].
  rewrite Heq. by apply vertexIds_get.
Qed.

(** What one vertex compiles to. *)
Lemma compileVertex_spec v d :
  compileVertex sha256 w resolved bindings brackets vertexIds scopeIds v = Ok d ->
  d_event_type d = vertex_created /\ d_vertex_id d = Some (JMap.get_or "" vertexIds (sv_id v)) /\
  d_parent_refs d = Some (match parents v with [] => default [] (attachTo w) | ps => map (JMap.get_or "" vertexIds) ps end) /\
  (forall s, truthy (sv_scope v) = Some s -> exists a, d_scope_id d = Some a /\ JMap.get scopeIds s = Some a) /\
  (truthy (sv_scope v) = None -> d_scope_id d = None).
Proof.
  unfold compileVertex. intros H. apply bind_Ok in H as ([] & Hs & H). apply bind_Ok in H as (p & _ & H). apply Ok_inj in H as <-.
  cbn [d_event_type d_vertex_id d_parent_refs d_scope_id]. split_and!; [done|done|by destruct (parents v)| |].
  - intros s Hsc. rewrite Hsc in *. destruct (JMap.get scopeIds s) as [a|] eqn:Ea; [|done].
    destruct (truthy (Some a)) as [b|] eqn:Eb; [|done]. apply truthy_Some in Eb as [[= ->] _]. by exists b.
  - by intros ->.
Qed.

Lemma drafts_shape o ds :
  (forall v, v ∈ o -> sv_id v ∈ map sv_id (w_vertices w)) -> NoDup (map sv_id o) ->
  Forall2 (fun v d => compileVertex sha256 w resolved bindings brackets vertexIds scopeIds v = Ok d) o ds ->
  map d_vertex_id ds = map (fun v => Some (JMap.get_or "" vertexIds (sv_id v))) o /\ NoDup (map d_vertex_id ds).
Proof.
  intros Hids Hnd HF. assert (map d_vertex_id ds = map (fun v => Some (JMap.get_or "" vertexIds (sv_id v))) o) as ->.
  { clear Hids Hnd. induction HF as [|v d o ds Hv _ IH]; cbn [map]; [done|]. apply compileVertex_spec in Hv as (_ & -> & _). by rewrite IH. }
  split; [done|]. clear HF. induction o as [|v o IH]; cbn [map] in *; [constructor|]. apply NoDup_cons in Hnd as [Hv Hnd]. apply NoDup_cons. split.
  - rewrite elem_of_map. intros (u & Heq & Hu). injection Heq as Heq. apply vertexIds_inj in Heq; [|apply Hids; left|apply Hids; by right].
    apply Hv. rewrite Heq. apply elem_of_map. eauto.
  - apply IH; [intros u Hu; apply Hids; by right|done].
Qed.

Lemma vertices_by_id_last vs x : JMap.get (vertices_by_id vs) x = last (filter_by (fun u => sv_id u ==? x) vs).
Proof.
  induction vs as [|v vs IH] using rev_ind; [done|]. rewrite vertices_by_id_snoc, filter_by_app. cbn [List.filter].
  destruct (sv_id v ==? x); [by rewrite last_snoc|by rewrite app_nil_r].
Qed.

(** C35. A compiled subgraph is a causally ordered set of fresh vertices: one [vertex/created] draft per
    distinct author id, made from the last vertex that carries it (an earlier one with the same id is
    dropped), under an id of its own taken from the generator; a root hangs on the submission's attach
    points, and any other vertex refers to exactly the ids of its own parents, in their order, each
    created by an earlier draft of the same freeze; a scoped vertex carries the id allocated to its scope,
    any other vertex none. Ids are assumed not to repeat. *)
Theorem compileVertexDrafts_causal c :
  closed w -> compileVertexDrafts sha256 w resolved bindings newId brackets = Ok c ->
  NoDup (map d_vertex_id (cs_drafts c)) /\
  (forall x, x ∈ map sv_id (w_vertices w) -> exists a, JMap.get (cs_vertexIds c) x = Some a /\ Some a ∈ map d_vertex_id (cs_drafts c)) /\
  (forall x a, JMap.get (cs_vertexIds c) x = Some a -> exists k, a = newId k) /\
  forall pre d post, cs_drafts c = pre ++ d :: post ->
    d_event_type d = vertex_created /\
    exists v, last (filter_by (fun u => sv_id u ==? sv_id v) (w_vertices w)) = Some v /\ d_vertex_id d = JMap.get (cs_vertexIds c) (sv_id v) /\
      (parents v = [] -> d_parent_refs d = Some (default [] (attachTo w))) /\
      (parents v <> [] -> exists refs, d_parent_refs d = Some refs /\
         Forall2 (fun p r => JMap.get (cs_vertexIds c) p = Some r /\ Some r ∈ map d_vertex_id pre) (parents v) refs) /\
      (forall s, truthy (sv_scope v) = Some s -> exists a, d_scope_id d = Some a /\ JMap.get (cs_scopeIds c) s = Some a) /\
      (truthy (sv_scope v) = None -> d_scope_id d = None).
Proof.
  intros Hc H. unfold compileVertexDrafts in H. apply bind_Ok in H as (o & Ho & H). apply bind_Ok in H as (ds & Hd & H).
  apply Ok_inj in H as <-. cbn [cs_drafts cs_vertexIds cs_scopeIds]. fold vertexIds scopeIds in Hd |- *.
  apply topologicalOrder_inv in Ho as (Hnd & Hcau & Hget & Hids & _). apply mapR_Ok in Hd.
  destruct (drafts_shape o ds) as [Hmap HndD]; [intros v Hv; apply Hids, elem_of_map; eauto|done|done|]. split; [done|]. split; [|split].
  - intros x Hx. exists (JMap.get_or "" vertexIds x). split; [by apply vertexIds_get|]. rewrite Hmap.
    apply Hids, elem_of_map in Hx as (v & -> & Hv). apply elem_of_map. eauto.
  - intros x a Ha. apply allocate_elem in Ha as (i & _ & ->). by eexists.
  - intros pre d post ->. apply Forall2_app_inv_r in Hd as (o1 & o2 & Hpre & Hpost & ->).
    inversion Hpost as [|v d' o3 ds3 Hv Hrest]; subst. destruct (compileVertex_spec v d Hv) as (Ht & Hid & Hpar & Hsc & Hns).
    assert (v ∈ o1 ++ v :: o3) as Hin by (apply elem_of_app; right; left). apply Hget in Hin. pose proof (vertices_by_id_elem _ _ _ Hin) as [Hvw _].
    split; [done|]. exists v. split; [by rewrite <- vertices_by_id_last|]. split; [rewrite Hid; symmetry; apply vertexIds_get, elem_of_map; eauto|].
    split; [intros Hp; by rewrite Hpar, Hp|]. split; [|done]. intros Hp.
    exists (map (JMap.get_or "" vertexIds) (parents v)). split; [rewrite Hpar; by destruct (parents v)|].
    apply Forall2_fmap_r, Forall_Forall2_diag, Forall_forall. intros p Hp'. assert (p ∈ map sv_id o1) as Hin1 by (by apply (Hcau o1 v o3 eq_refl)).
    split; [apply vertexIds_get, Hids; rewrite map_app; apply elem_of_app; by left|].
    rewrite map_app in Hmap. rewrite map_app in Hmap. cbn [map] in Hmap.
    assert (map d_vertex_id pre = map (fun v => Some (JMap.get_or "" vertexIds (sv_id v))) o1) as ->.
    { apply app_inj_1 in Hmap as [? _]; [done|]. rewrite !length_map. by apply Forall2_length in Hpre. }
    apply elem_of_map in Hin1 as (u & -> & Hu). apply elem_of_map. eauto.
Qed.
End CompileFacts.

(** Distinct ids for concrete instances. *)
Definition sample_newId (n : nat) : string := "id" +:+ nstr n.

Lemma sample_newId_inj i j : sample_newId i = sample_newId j -> i = j.
Proof. unfold sample_newId, nstr. intros H. apply (inj (String.append "id")), (inj pretty) in H. lia. Qed.

Definition sample_compiled : option CompiledSubgraph :=
  match compileVertexDrafts sample_hash sample_workflow sample_view [] sample_newId [] with Ok c => Some c | Throw _ => None end.

Lemma compileVertexDrafts_witness :
  exists c, compileVertexDrafts sample_hash sample_workflow sample_view [] sample_newId [] = Ok c /\
    map d_vertex_id (cs_drafts c) = [Some "id1"; Some "id0"] /\ NoDup (map d_vertex_id (cs_drafts c)).
Proof.
  destruct (compileVertexDrafts sample_hash sample_workflow sample_view [] sample_newId []) as [c|e] eqn:E.
  - exists c. split; [done|]. split.
    + assert (map d_vertex_id <$> (cs_drafts <$> sample_compiled) = Some [Some "id1"; Some "id0"]) as H by (vm_compute; reflexivity).
      unfold sample_compiled in H. rewrite E in H. cbn in H. congruence.
    + apply (compileVertexDrafts_causal sample_hash sample_workflow sample_view [] sample_newId [] sample_newId_inj c sample_closed E).
  - exfalso. assert (is_Some sample_compiled) as [c Hc] by (vm_compute; by eexists). unfold sample_compiled in Hc. by rewrite E in Hc.
Defined.

(** Two vertices under one author id: the last one is compiled, the first is silently dropped. *)
Lemma duplicate_author_id_dropped :
  let w := with_vertices sample_workflow [sample_tool_vertex "a" [] "look"; sample_tool_vertex "a" [] "hold"] in
  normalizeWorkflow w = Ok {| nw_workflow := w; interposed := [] |} /\
  exists c, compileVertexDrafts sample_hash w sample_view [] sample_newId [] = Ok c /\ length (cs_drafts c) = 1%nat.
Proof. split; [vm_compute; reflexivity|]. eexists. split; vm_compute; reflexivity. Qed.
