(* ===== verification/Store.v ===== *)
(** * The event store (engine/src/log/store.ts)

    Appends, locked decisions, reads and forks over a PostgreSQL database. The database is an
    interface: the functions and queries the store calls, and the laws the schema keeps — positions
    allocated from the run row's counter, streams of other runs untouched, copies at or below the seed
    floor. [MemoryDb] is an executable instance of it that follows the SQL functions of db/migrations. *)

From S2P Require Import Prelude Collections Number Json Events Graph Fork Scopes CheckRules ToolView Gateway RuleTemplate Workflow.

Inductive Actor : Type := engine | coordinator.
#[export] Instance Actor_eq_dec : EqDecision Actor.
Proof. solve_decision. Defined.

Record LockedScopeRow : Type := {
  lr_scope_id : string;
  lr_state : string;
  lr_pivot_count : Z;
  lr_has_sealed_try : bool;
  lr_has_expired_try : bool;
  lr_fenced : bool
}.

Record RunAdmissionContext : Type := {
  rac_scopes : list ScopeSnapshot;
  rac_isCounterfactual : bool;
  rac_brackets : list (string * list BracketRecord)
}.

Inductive FreezeDecision : Type :=
| FreezeAdmitted (events : list EventDraft)
| FreezeRefused.

Record ScopeLockedView : Type := { slv_events : list StoredEvent; slv_scopes : list LockedScope }.

Record ForkRequest : Type := {
  fr_source_run_id : string;
  fr_at_vertex_id : string;
  fr_eval_up_to_seq : number;
  fr_substitutions : list ForkSubstitution;
  fr_fold_mode : string;
  fr_evaluator_pin : string;
  fr_projector_version : string;
  fr_harness_state_version : string
}.

Record ForkResult : Type := { fk_child_run_id : string; fk_end_seed_seq : Z; fk_inherited_event_count : Z }.

(** ** The database *)
Class Database (db : Type) : Type := {
  create_run : db -> string -> result db;
  (** [append_events]: the positions it allocated and the new state *)
  append_events : db -> string -> list EventDraft -> result (list Z * db);
  (** [SELECT * FROM run_event_log WHERE run_id = $1 ORDER BY run_seq] *)
  select_stream : db -> string -> list StoredEvent;
  (** [run.next_seq], when the run exists *)
  next_seq : db -> string -> option Z;
  (** [seed_floor IS NOT NULL], when the run exists *)
  is_fork : db -> string -> option bool;
  lock_run_scopes : db -> string -> result (list LockedScopeRow);
  (** the rows of [txn_bracket] *)
  brackets : db -> list BracketRecord;
  lock_fork_source : db -> string -> result Z;
  create_fork_run : db -> string -> Z -> result db;
  copy_inherited_events : db -> string -> list InheritedCopy -> result db
}.

(** A row an append stores for a draft. Positions of the whole log and timestamps are the database's. *)
Definition stored_as (run : string) (position : Z) (d : EventDraft) (e : StoredEvent) : Prop :=
  run_id e = run /\ run_seq e = position /\ event_type e = d_event_type d /\ vertex_id e = truthy (d_vertex_id d) /\
  parent_refs e = default [] (d_parent_refs d) /\ planner_id e = truthy (d_planner_id d) /\ scope_id e = truthy (d_scope_id d) /\
  pin_version e = truthy (d_pin_version d) /\ ignorable e = d_ignorable d /\ inherited e = false /\ payload e = d_payload d.

(** A row a copy stores. *)
Definition copied_as (run : string) (c : InheritedCopy) (e : StoredEvent) : Prop :=
  run_id e = run /\ run_seq e = ic_run_seq c /\ event_type e = ic_event_type c /\ vertex_id e = truthy (ic_vertex_id c) /\
  parent_refs e = ic_parent_refs c /\ planner_id e = truthy (ic_planner_id c) /\ scope_id e = truthy (ic_scope_id c) /\
  pin_version e = truthy (ic_pin_version c) /\ ignorable e = ic_ignorable c /\ inherited e = true /\ payload e = ic_payload c.

(** [n, n + 1, ..., n + count - 1] *)
Definition positions (n : Z) (count : nat) : list Z := map (fun i => n + Z.of_nat i) (seq 0 count).

Class DatabaseLaws (db : Type) `{Database db} : Prop := {
  append_law : forall d run events seqs d', append_events d run events = Ok (seqs, d') ->
    exists n rows, next_seq d run = Some n /\ seqs = positions n (length events) /\
      next_seq d' run = Some (n + Z.of_nat (length events)) /\
      Forall2 (fun pd e => stored_as run (fst pd) (snd pd) e) (combine seqs events) rows /\
      select_stream d' run = select_stream d run ++ rows /\
      (forall other, other <> run -> select_stream d' other = select_stream d other /\ next_seq d' other = next_seq d other);
  fork_source_law : forall d run tail, lock_fork_source d run = Ok tail -> next_seq d run = Some (tail + 1);
  fork_run_law : forall d run floor d', create_fork_run d run floor = Ok d' ->
    next_seq d run = None /\ next_seq d' run = Some (floor + 1) /\ select_stream d' run = [] /\
    (forall other, other <> run -> select_stream d' other = select_stream d other /\ next_seq d' other = next_seq d other);
  copy_law : forall d run copies d', copy_inherited_events d run copies = Ok d' ->
    select_stream d run = [] -> StronglySorted (fun a b => ic_run_seq a < ic_run_seq b) copies ->
    next_seq d' run = next_seq d run /\
    Forall2 (copied_as run) copies (select_stream d' run) /\
    (forall other, other <> run -> select_stream d' other = select_stream d other /\ next_seq d' other = next_seq d other)
}.

(** ** Snapshots of scope rows *)
Definition snapshotState (stored : string) (hasSealedTry : bool) : SnapshotState :=
  if stored ==? "committed" then s_committed else if stored ==? "cancelled" then s_cancelled
  else if hasSealedTry then s_half_open else s_open.

Definition admissionBlock (stored : string) (hasExpiredSealedTry fenced : bool) : option ScopeAdmissionBlock :=
  if stored ==? "cancelling" then Some b_cancelling else if stored ==? "suspended" then Some b_suspended
  else if stored ==? "pivot-inflight" then Some b_pivot_inflight else if stored ==? "pivot-passed" then Some b_pivot_passed
  else if fenced && (stored ==? "open") then Some b_fenced
  else if hasExpiredSealedTry then Some b_expired_try else None.

Definition rowToScopeSnapshot (row : LockedScopeRow) : ScopeSnapshot :=
  {| ss_scopeId := lr_scope_id row; ss_state := snapshotState (lr_state row) (lr_has_sealed_try row);
     ss_pivotCount := lr_pivot_count row;
     ss_admissionBlock := admissionBlock (lr_state row) (lr_has_expired_try row) (lr_fenced row) |}.

Definition rowToLockedScope (row : LockedScopeRow) : LockedScope :=
  {| ls_scopeId := lr_scope_id row; ls_state := lr_state row; ls_fenced := lr_fenced row;
     ls_hasSealedTry := lr_has_sealed_try row; ls_hasExpiredTry := lr_has_expired_try row |}.

(** ** The store *)
Section Store.
Context {db : Type} `{Database db}.
Variable validateSchema : EventDraft -> bool.
Variable schemaErrors : EventDraft -> string.
Variable actor : Actor.

(** What the body of a transaction ends in. *)
Inductive tx (A : Type) : Type :=
| Commit (a : A) (d : db)
| Rollback (a : A).
Arguments Commit {A} a d.
Arguments Rollback {A} a.

(** [BEGIN], the body, and [COMMIT] or [ROLLBACK]; an exception rolls back and is thrown again. *)
Definition transaction {A} (d : db) (body : db -> result (tx A)) : result A * db :=
  match body d with
  | Ok (Commit a d') => (Ok a, d')
  | Ok (Rollback a) => (Ok a, d)
  | Throw e => (Throw e, d)
  end.

Definition requireEngine : result unit := if actor !=? engine then Throw "operation requires engine role" else Ok tt.

Definition createRun (d : db) (runId : string) : result string * db :=
  match (_ ← requireEngine; create_run d runId) with Ok d' => (Ok runId, d') | Throw e => (Throw e, d) end.

Definition assertAll (events : list EventDraft) : result unit :=
  foldM (fun _ e => assertEventDraft validateSchema schemaErrors e) tt events.

Definition appendWith (d : db) (runId : string) (events : list EventDraft) : result (list Z * db) :=
  _ ← assertAll events; append_events d runId events.

Definition appendEvents (d : db) (runId : string) (events : list EventDraft) : result (list Z) * db :=
  match events with
  | [] => (Throw "appendEvents requires at least one event", d)
  | _ => match appendWith d runId events with Ok (seqs, d') => (Ok seqs, d') | Throw e => (Throw e, d) end
  end.

(** The join of each distinct key with the brackets under it or under one of its generations. *)
Definition bracketRows (d : db) (keys : list string) : list (string * BracketRecord) :=
  flat_map (fun base => map (fun b => (base, b))
    (filter_by (fun b => (br_idempotencyKey b ==? base) || starts_with (base +:+ "#") (br_idempotencyKey b)) (brackets d))) (JSet.of_list keys).

Definition readBracketsWith (d : db) (keys : list string) : list (string * list BracketRecord) :=
  fold_left (fun found row => JMap.set found (fst row) (JMap.get_or [] found (fst row) ++ [snd row])) (bracketRows d keys) [].

Definition readAdmissionContextWith (d : db) (runId : string) (keys : list string) : result RunAdmissionContext :=
  scopes ← lock_run_scopes d runId;
  Ok {| rac_scopes := map rowToScopeSnapshot scopes; rac_isCounterfactual := default false (is_fork d runId);
        rac_brackets := readBracketsWith d keys |}.

Definition frozenShape (events : list EventDraft) : bool :=
  match events with
  | frozen :: vertices => (d_event_type frozen ==? subgraph_frozen) && forallb (fun e => d_event_type e ==? vertex_created) vertices
  | [] => false
  end.

(** [freezeUnderScopeLock]. [decide] returns its decision and what its closure leaves in the caller's
    variables. *)
Definition freezeUnderScopeLock {X} (d : db) (runId : string) (decide : RunAdmissionContext -> result (FreezeDecision * X))
    (keys : list string) : result (option (list Z) * X) * db :=
  match requireEngine with
  | Throw e => (Throw e, d)
  | Ok _ =>
      transaction d (fun d =>
        context ← readAdmissionContextWith d runId keys;
        decision ← decide context;
        match fst decision with
        | FreezeRefused => Ok (Rollback (None, snd decision))
        | FreezeAdmitted events =>
            if negb (frozenShape events) then Throw "frozen subgraph requires one frozen event followed by vertex/created events" else
            appended ← appendWith d runId events;
            Ok (Commit (Some (fst appended), snd decision) (snd appended))
        end)
  end.

(** [appendUnderScopeLock]: no drafts, or none decided, appends nothing. *)
Definition appendUnderScopeLock {X} (d : db) (runId : string) (decide : ScopeLockedView -> result (option (list EventDraft) * X))
    : result (option (list Z) * X) * db :=
  match requireEngine with
  | Throw e => (Throw e, d)
  | Ok _ =>
      transaction d (fun d =>
        locked ← lock_run_scopes d runId;
        decision ← decide {| slv_events := select_stream d runId; slv_scopes := map rowToLockedScope locked |};
        match fst decision with
        | None | Some [] => Ok (Rollback (None, snd decision))
        | Some drafts =>
            appended ← appendWith d runId drafts;
            Ok (Commit (Some (fst appended), snd decision) (snd appended))
        end)
  end.

Definition readStream (d : db) (runId : string) (atRunSeq : option Z) : list StoredEvent :=
  filter_by (fun e => match atRunSeq with Some n => run_seq e <=? n | None => true end) (select_stream d runId).

Definition readStreamAfter (d : db) (runId : string) (afterRunSeq : Z) (limit : nat) : list StoredEvent :=
  take limit (filter_by (fun e => afterRunSeq <? run_seq e) (select_stream d runId)).

Definition substitution_value (s : ForkSubstitution) : value :=
  VObj [("run_seq", VNum (Num.of_Z (sub_run_seq s))); ("pin_version", VStr (sub_pin_version s))].

Definition forkCreated (request : ForkRequest) (childRunId : string) (slice : ForkSlice) : EventDraft :=
  draft fork_created
    [("child_run_id", VStr childRunId); ("source_run_id", VStr (fr_source_run_id request)); ("at_vertex_id", VStr (fr_at_vertex_id request));
     ("eval_up_to_seq", VNum (fr_eval_up_to_seq request));
     ("inherited_event_count", VNum (Num.of_Z (Z.of_nat (length (fs_seed slice) + length (fs_independent slice)))));
     ("substitutions", VArr (map substitution_value (fr_substitutions request))); ("fold_mode", VStr (fr_fold_mode request));
     ("evaluator_pin", VStr (fr_evaluator_pin request)); ("projector_version", VStr (fr_projector_version request));
     ("harness_state_version", VStr (fr_harness_state_version request))].

Definition endSeed (request : ForkRequest) (count : nat) : EventDraft :=
  draft run_end_seed
    [("source_run_id", VStr (fr_source_run_id request)); ("at_vertex_id", VStr (fr_at_vertex_id request));
     ("eval_up_to_seq", VNum (fr_eval_up_to_seq request)); ("substitutions", VArr (map substitution_value (fr_substitutions request)));
     ("inherited_event_count", VNum (Num.of_Z (Z.of_nat count)))].

Definition copyInheritedWith (d : db) (runId : string) (copies : list InheritedCopy) : result db :=
  match copies with [] => Ok d | _ => copy_inherited_events d runId copies end.

(** The copies a fork inherits: the seed, then the independent remainder, with the substituted pins. *)
Definition inheritedCopies (request : ForkRequest) (slice : ForkSlice) : list InheritedCopy :=
  let substituted := JMap.of_entries (map (fun i => (sub_run_seq i, sub_pin_version i)) (fr_substitutions request)) in
  map (fun e => toInheritedCopy e (JMap.get substituted (run_seq e))) (fs_seed slice ++ fs_independent slice).

(** [fork]; [childRunId] is the fresh identifier. *)
Definition fork (d : db) (request : ForkRequest) (childRunId : string) : result ForkResult * db :=
  match requireEngine with
  | Throw e => (Throw e, d)
  | Ok _ =>
      transaction d (fun d =>
        sourceTailEnd ← lock_fork_source d (fr_source_run_id request);
        match Num.to_Z (fr_eval_up_to_seq request) with
        | None => Throw "eval_up_to_seq must name a recorded source position"
        | Some upTo =>
            if (upTo <? 1) || (sourceTailEnd <? upTo) then Throw "eval_up_to_seq must name a recorded source position" else
            slice ← computeForkSlice (select_stream d (fr_source_run_id request)) (fr_at_vertex_id request) (fr_substitutions request) upTo;
            d1 ← create_fork_run d childRunId upTo;
            a ← appendWith d1 (fr_source_run_id request) [forkCreated request childRunId slice];
            d3 ← copyInheritedWith (snd a) childRunId (inheritedCopies request slice);
            seeded ← appendWith d3 childRunId [endSeed request (length (fs_seed slice) + length (fs_independent slice))];
            Ok (Commit {| fk_child_run_id := childRunId; fk_end_seed_seq := default 0 (head (fst seeded));
                          fk_inherited_event_count := Z.of_nat (length (fs_seed slice) + length (fs_independent slice)) |} (snd seeded))
        end)
  end.
End Store.

(** ** An executable database

    The functions of db/migrations the store calls: [create_run], [append_events],
    [lock_fork_source], [create_fork_run] and [copy_inherited_events], with the session role they check
    and the primary key of the log. The triggers on the log, which derive the scope and bracket tables,
    are not part of it: those tables are given. *)
Module MemoryDb.

Record MemRun : Type := { mr_next_seq : Z; mr_seed_floor : option Z; mr_events : list StoredEvent }.
Record Mem : Type := {
  m_user : string;
  m_runs : list (string * MemRun);
  m_scopes : list (string * LockedScopeRow);
  m_brackets : list BracketRecord
}.

(** [IF session_user <> 'engine_role' THEN RAISE EXCEPTION ...] *)
Definition engine_only (m : Mem) (what : string) : result unit :=
  if m_user m !=? "engine_role" then Throw ("only engine_role may " +:+ what) else Ok tt.

Definition set_run (m : Mem) (run : string) (r : MemRun) : Mem :=
  {| m_user := m_user m; m_runs := JMap.set (m_runs m) run r; m_scopes := m_scopes m; m_brackets := m_brackets m |}.

(** A stored row; empty strings become NULL. *)
Definition row (run : string) (position : Z) (d : EventDraft) : StoredEvent :=
  {| run_id := run; run_seq := position; global_seq := 0; event_type := d_event_type d; vertex_id := truthy (d_vertex_id d);
     parent_refs := default [] (d_parent_refs d); planner_id := truthy (d_planner_id d); scope_id := truthy (d_scope_id d);
     pin_version := truthy (d_pin_version d); ignorable := d_ignorable d; inherited := false; payload := d_payload d; created_at := "" |}.

Definition copy_row (run : string) (c : InheritedCopy) : StoredEvent :=
  {| run_id := run; run_seq := ic_run_seq c; global_seq := 0; event_type := ic_event_type c; vertex_id := truthy (ic_vertex_id c);
     parent_refs := ic_parent_refs c; planner_id := truthy (ic_planner_id c); scope_id := truthy (ic_scope_id c);
     pin_version := truthy (ic_pin_version c); ignorable := ic_ignorable c; inherited := true; payload := ic_payload c; created_at := "" |}.

Definition mem_create_run (m : Mem) (run : string) : result Mem :=
  _ ← engine_only m "create runs";
  if JMap.has (m_runs m) run then Throw "duplicate key value violates unique constraint"
  else Ok (set_run m run {| mr_next_seq := 1; mr_seed_floor := None; mr_events := [] |}).

Definition mem_append (m : Mem) (run : string) (events : list EventDraft) : result (list Z * Mem) :=
  match events, JMap.get (m_runs m) run with
  | [], _ => Throw "append_events requires a non-empty event array"
  | _, None => Throw ("run " +:+ run +:+ " does not exist")
  | _, Some r =>
      let seqs := positions (mr_next_seq r) (length events) in
      Ok (seqs, set_run m run {| mr_next_seq := mr_next_seq r + Z.of_nat (length events); mr_seed_floor := mr_seed_floor r;
                                 mr_events := mr_events r ++ map (fun pd => row run (fst pd) (snd pd)) (combine seqs events) |})
  end.

Definition mem_stream (m : Mem) (run : string) : list StoredEvent := match JMap.get (m_runs m) run with Some r => mr_events r | None => [] end.

Definition mem_lock_fork_source (m : Mem) (run : string) : result Z :=
  _ ← engine_only m "lock a fork source";
  match JMap.get (m_runs m) run with Some r => Ok (mr_next_seq r - 1) | None => Throw ("source run " +:+ run +:+ " does not exist") end.

Definition mem_create_fork_run (m : Mem) (run : string) (floor : Z) : result Mem :=
  _ ← engine_only m "create fork runs";
  if floor <? 1 then Throw "fork run requires a positive evaluation boundary" else
  if JMap.has (m_runs m) run then Throw "duplicate key value violates unique constraint"
  else Ok (set_run m run {| mr_next_seq := floor + 1; mr_seed_floor := Some floor; mr_events := [] |}).

(** The primary key [(run_id, run_seq)]. *)
Definition distinct (positions : list Z) : bool := Nat.eqb (length (JSet.of_list positions)) (length positions).

Definition mem_copy (m : Mem) (run : string) (copies : list InheritedCopy) : result Mem :=
  _ ← engine_only m "copy inherited events";
  match copies, JMap.get (m_runs m) run with
  | [], _ => Throw "copy_inherited_events requires a non-empty event array"
  | _, None => Throw ("run " +:+ run +:+ " does not exist")
  | _, Some r =>
      match mr_seed_floor r with
      | None => Throw ("run " +:+ run +:+ " is not a fork; inherited copies require a seed floor")
      | Some floor =>
          if existsb (fun c => (ic_run_seq c <? 1) || (floor <? ic_run_seq c)) copies
          then Throw "inherited run_seq must lie within the seed floor"
          else if negb (distinct (map run_seq (mr_events r) ++ map ic_run_seq copies))
          then Throw "duplicate key value violates unique constraint"
          else Ok (set_run m run {| mr_next_seq := mr_next_seq r; mr_seed_floor := mr_seed_floor r;
                                    mr_events := js_sort (fun a b => run_seq a - run_seq b) (mr_events r ++ map (copy_row run) copies) |})
      end
  end.

#[global] Instance mem_database : Database Mem := {
  create_run := mem_create_run;
  append_events := mem_append;
  select_stream := mem_stream;
  next_seq m run := mr_next_seq <$> JMap.get (m_runs m) run;
  is_fork m run := (fun r => match mr_seed_floor r with Some _ => true | None => false end) <$> JMap.get (m_runs m) run;
  lock_run_scopes m run := Ok (map snd (filter_by (fun p => fst p ==? run) (m_scopes m)));
  brackets m := m_brackets m;
  lock_fork_source := mem_lock_fork_source;
  create_fork_run := mem_create_fork_run;
  copy_inherited_events := mem_copy
}.

Lemma get_set_run m run r other : JMap.get (m_runs (set_run m run r)) other = if run ==? other then Some r else JMap.get (m_runs m) other.
Proof. apply get_set. Qed.

Lemma combine_rows run (l : list (Z * EventDraft)) :
  Forall2 (fun pd e => stored_as run (fst pd) (snd pd) e) l (map (fun pd => row run (fst pd) (snd pd)) l).
Proof. induction l as [|[p d] l IH]; cbn; constructor; [unfold stored_as; cbn; split_and!; done|done]. Qed.

#[global] Instance mem_laws : DatabaseLaws Mem.
Proof.
  split; cbn [append_events next_seq select_stream lock_fork_source create_fork_run copy_inherited_events mem_database].
  - intros m run events seqs m'. unfold mem_append, mem_stream. destruct events as [|e events]; [done|].
    destruct (JMap.get (m_runs m) run) as [r|] eqn:E; [|done]. intros H. apply Ok_inj in H. injection H as <- <-.
    exists (mr_next_seq r), (map (fun pd => row run (fst pd) (snd pd)) (combine (positions (mr_next_seq r) (S (length events))) (e :: events))).
    rewrite get_set_run, eqb_refl. split_and!; [done|done|done|apply combine_rows|done|].
    intros other Hne. rewrite get_set_run. by rewrite (proj2 (eqb_false run other)) by congruence.
  - intros m run tail. unfold mem_lock_fork_source. destruct (engine_only m _); [|done]. cbn [mbind result_bind]. destruct (JMap.get (m_runs m) run) as [r|]; [|done].
    intros H. apply Ok_inj in H as <-. cbn. f_equal. lia.
  - intros m run floor m'. unfold mem_create_fork_run, mem_stream. destruct (engine_only m _); [|done]. cbn [mbind result_bind]. destruct (floor <? 1); [done|].
    destruct (JMap.has (m_runs m) run) eqn:E; [done|]. intros H. apply Ok_inj in H as <-.
    apply has_keys_false, get_None in E. rewrite E, get_set_run, eqb_refl. split_and!; [done|done|done|].
    intros other Hne. rewrite get_set_run. by rewrite (proj2 (eqb_false run other)) by congruence.
  - intros m run copies m'. unfold mem_copy, mem_stream. destruct (engine_only m _); [|done]. cbn [mbind result_bind]. destruct copies as [|c cs]; [done|].
    destruct (JMap.get (m_runs m) run) as [r|] eqn:E; [|done]. destruct (mr_seed_floor r) as [floor|]; [|done].
    destruct (existsb _ _); [done|]. destruct (distinct _); [|done]. cbn [negb]. intros H Hemp Hs. apply Ok_inj in H as <-. rewrite get_set_run, eqb_refl. split_and!; [done| |].
    + cbn [mr_events]. rewrite Hemp. cbn [app]. rewrite (js_sort_id (fun a b => run_seq a - run_seq b)).
      * generalize (c :: cs). intros l. induction l as [|x l IH]; cbn; constructor; [unfold copied_as; cbn; split_and!; done|done].
      * clear -Hs. revert Hs. generalize (c :: cs). intros l. induction 1 as [|x l Hl IH Hx]; cbn [map]; constructor; [done|].
        apply Forall_forall. intros e (y & -> & Hy)%elem_of_map. rewrite Forall_forall in Hx. specialize (Hx y Hy). cbn. lia.
    + intros other Hne. rewrite get_set_run. by rewrite (proj2 (eqb_false run other)) by congruence.
Qed.
End MemoryDb.
