(* ===== verification/StoreFacts.v ===== *)
(** * Facts about the event store

    A locked decision commits exactly the events it decided, on the state it saw, or changes nothing;
    a fork's stream is its inherited copies followed by its own numbering; scope rows block admission
    exactly in the states that refuse work. Everything is proved against the database interface. *)

From S2P Require Import Prelude Collections Number Json Events Graph Fork Scopes CheckRules CheckRulesFacts ToolView Gateway RuleTemplate Workflow WorkflowFacts Store.

Section Facts.
Context {db : Type} `{!Database db} `{!DatabaseLaws db}.
Variable validateSchema : EventDraft -> bool.
Variable schemaErrors : EventDraft -> string.

(** [events] were appended to [run] at the positions [seqs], and nothing else changed in any stream. *)
Definition recorded (d : db) (run : string) (events : list EventDraft) (seqs : list Z) (d' : db) : Prop :=
  exists n rows, next_seq d run = Some n /\ seqs = positions n (length events) /\
    next_seq d' run = Some (n + Z.of_nat (length events)) /\
    Forall2 (fun pd e => stored_as run (fst pd) (snd pd) e) (combine seqs events) rows /\
    select_stream d' run = select_stream d run ++ rows /\
    (forall other, other <> run -> select_stream d' other = select_stream d other /\ next_seq d' other = next_seq d other).

Lemma appendWith_recorded d run events seqs d' :
  appendWith validateSchema schemaErrors d run events = Ok (seqs, d') ->
  recorded d run events seqs d' /\ forall e, e ∈ events -> assertEventDraft validateSchema schemaErrors e = Ok tt.
Proof.
  unfold appendWith, assertAll. intros H. apply bind_Ok in H as ([] & Ha & H). split; [by apply append_law|].
  by apply (foldM_unit_Ok _ _ _ Ha).
Qed.

Lemma appendEvents_recorded d run events r d' :
  appendEvents validateSchema schemaErrors d run events = (r, d') ->
  match r with Ok seqs => recorded d run events seqs d' /\ events <> [] | Throw _ => d' = d end.
Proof.
  unfold appendEvents. destruct events as [|e events]; [by intros [= <- <-]|].
  destruct (appendWith _ _ d run (e :: events)) as [[seqs d1]|] eqn:E; intros [= <- <-]; [|done].
  split; [|done]. by apply appendWith_recorded in E as [? _].
Qed.

(** A freeze that returns positions committed what it decided on the state it read. *)
Lemma freeze_committed {X} actor d run (decide : RunAdmissionContext -> result (FreezeDecision * X)) keys seqs x d' :
  freezeUnderScopeLock validateSchema schemaErrors actor d run decide keys = (Ok (Some seqs, x), d') ->
  actor = engine /\ exists context events,
    readAdmissionContextWith d run keys = Ok context /\ decide context = Ok (FreezeAdmitted events, x) /\
    frozenShape events = true /\ recorded d run events seqs d' /\
    forall e, e ∈ events -> assertEventDraft validateSchema schemaErrors e = Ok tt.
Proof.
  unfold freezeUnderScopeLock, requireEngine, transaction. destruct (actor !=? engine) eqn:Ea; [done|]. bool_prop.
  destruct (readAdmissionContextWith d run keys) as [c|] eqn:Ec; cbn [mbind result_bind]; [|done].
  destruct (decide c) as [[dec y]|] eqn:Ed; cbn [mbind result_bind fst snd]; [|done].
  destruct dec as [events|]; [|done]. destruct (frozenShape events) eqn:Es; cbn [negb]; [|done].
  destruct (appendWith _ _ d run events) as [[seqs1 d1]|] eqn:E; cbn [mbind result_bind fst snd]; [|done]. intros [= <- <- <-].
  apply appendWith_recorded in E as [Hr Hv]. split; [done|]. exists c, events. split_and!; done.
Qed.

(** Any other outcome leaves the database as it was. *)
Lemma freeze_uncommitted {X} actor d run (decide : RunAdmissionContext -> result (FreezeDecision * X)) keys r d' :
  freezeUnderScopeLock validateSchema schemaErrors actor d run decide keys = (r, d') -> (forall seqs x, r <> Ok (Some seqs, x)) ->
  d' = d /\ forall x, r = Ok (None, x) ->
    exists context, readAdmissionContextWith d run keys = Ok context /\ decide context = Ok (FreezeRefused, x).
Proof.
  unfold freezeUnderScopeLock, requireEngine, transaction. destruct (actor !=? engine); [by intros [= <- <-]|].
  destruct (readAdmissionContextWith d run keys) as [c|] eqn:Ec; cbn [mbind result_bind]; [|by intros [= <- <-]].
  destruct (decide c) as [[dec y]|] eqn:Ed; cbn [mbind result_bind fst snd]; [|by intros [= <- <-]].
  destruct dec as [events|].
  - destruct (frozenShape events); cbn [negb]; [|by intros [= <- <-]].
    destruct (appendWith _ _ d run events) as [[seqs1 d1]|]; cbn [mbind result_bind fst snd]; intros [= <- <-] Hno; [by destruct (Hno seqs1 y)|done].
  - intros [= <- <-] _. split; [done|]. intros x [= ->]. eauto.
Qed.

(** C14. A freeze is one atomic step: it either appends exactly the frozen event and vertices its
    decision produced — valid drafts, contiguous positions, one run touched — having decided on the
    scopes, fork flag and brackets of the very state it appends to, or it leaves the database as it
    was: refused decisions, malformed decisions, schema failures and exceptions all roll back. *)
Theorem freezeUnderScopeLock_atomic {X} actor d run (decide : RunAdmissionContext -> result (FreezeDecision * X)) keys r d' :
  freezeUnderScopeLock validateSchema schemaErrors actor d run decide keys = (r, d') ->
  match r with
  | Ok (Some seqs, x) => actor = engine /\ exists context events,
      readAdmissionContextWith d run keys = Ok context /\ decide context = Ok (FreezeAdmitted events, x) /\
      frozenShape events = true /\ recorded d run events seqs d' /\
      forall e, e ∈ events -> assertEventDraft validateSchema schemaErrors e = Ok tt
  | Ok (None, x) => d' = d /\ exists context, readAdmissionContextWith d run keys = Ok context /\ decide context = Ok (FreezeRefused, x)
  | Throw _ => d' = d
  end.
Proof.
  intros H. destruct r as [[[seqs|] x]|e]; [by apply freeze_committed in H| |];
    (apply freeze_uncommitted in H as [-> Hx]; [|done]); [split; [done|by apply Hx]|done].
Qed.

(** What a decision under the scope lock saw and left. *)
Lemma append_under_lock {X} actor d run (decide : ScopeLockedView -> result (option (list EventDraft) * X)) r d' :
  appendUnderScopeLock validateSchema schemaErrors actor d run decide = (r, d') ->
  match r with
  | Ok (seqs, x) => actor = engine /\ exists rows drafts,
      lock_run_scopes d run = Ok rows /\
      decide {| slv_events := select_stream d run; slv_scopes := map rowToLockedScope rows |} = Ok (drafts, x) /\
      match seqs with
      | Some seqs => default [] drafts <> [] /\ recorded d run (default [] drafts) seqs d'
      | None => default [] drafts = [] /\ d' = d
      end
  | Throw _ => d' = d
  end.
Proof.
  unfold appendUnderScopeLock, requireEngine. destruct (actor !=? engine) eqn:Ea; [by intros [= <- <-]|]. bool_prop.
  unfold transaction. destruct (lock_run_scopes d run) as [rows|] eqn:Ec; cbn [mbind result_bind]; [|by intros [= <- <-]].
  destruct (decide _) as [[dec x]|] eqn:Ed; cbn [mbind result_bind fst snd]; [|by intros [= <- <-]].
  destruct dec as [[|e drafts]|].
  - intros [= <- <-]. split; [done|]. exists rows, (Some []). done.
  - destruct (appendWith _ _ d run (e :: drafts)) as [[seqs d1]|] eqn:E; cbn [mbind result_bind fst snd]; intros [= <- <-]; [|done].
    apply appendWith_recorded in E as [Hr Hv]. split; [done|]. exists rows, (Some (e :: drafts)). split_and!; done.
  - intros [= <- <-]. split; [done|]. exists rows, None. done.
Qed.

(** A recovery decision under the scope lock sees the whole log and every scope row of the state
    its events are appended to, and appends all of its drafts or none: positions are returned exactly
    when there were drafts and all of them are in the log, and otherwise nothing changed. *)
Theorem appendUnderScopeLock_atomic {X} actor d run (decide : ScopeLockedView -> result (option (list EventDraft) * X)) r d' :
  appendUnderScopeLock validateSchema schemaErrors actor d run decide = (r, d') ->
  match r with
  | Ok (seqs, x) => actor = engine /\ exists rows drafts,
      lock_run_scopes d run = Ok rows /\
      decide {| slv_events := select_stream d run; slv_scopes := map rowToLockedScope rows |} = Ok (drafts, x) /\
      match seqs with
      | Some seqs => default [] drafts <> [] /\ recorded d run (default [] drafts) seqs d'
      | None => default [] drafts = [] /\ d' = d
      end
  | Throw _ => d' = d
  end.
Proof. apply append_under_lock. Qed.

(** ** Scope rows *)

(** A row that refuses new work. *)
Definition blocks (row : LockedScopeRow) : Prop :=
  lr_state row ∈ ["cancelling"; "suspended"; "pivot-inflight"; "pivot-passed"] \/
  (lr_fenced row = true /\ lr_state row = "open") \/ lr_has_expired_try row = true.

Lemma admissionBlock_iff row : admissionBlock (lr_state row) (lr_has_expired_try row) (lr_fenced row) = None <-> ~ blocks row.
Proof.
  unfold admissionBlock, blocks. rewrite !elem_of_cons, elem_of_nil.
  repeat case_eqb; try (split; [done|]; intros Hb; exfalso; apply Hb; match goal with Heq : lr_state row = _ |- _ => rewrite Heq end; tauto).
  - destruct (lr_fenced row); cbn [andb]; [split; [done|intros Hb; exfalso; apply Hb; tauto]|].
    destruct (lr_has_expired_try row); [split; [done|intros Hb; exfalso; apply Hb; tauto]|]. split; [|done].
    intros _ [Hin|[[? _]|?]]; [destruct_or? Hin; congruence|done|done].
  - rewrite andb_false_r. destruct (lr_has_expired_try row); [split; [done|intros Hb; exfalso; apply Hb; tauto]|]. split; [|done].
    intros _ [Hin|[[_ ?]|?]]; [destruct_or? Hin; congruence|congruence|done].
Qed.

(** Under the scope lock a submission is refused at the runtime gate exactly when some scope row of
    the run refuses work: it is cancelling, suspended or at or past its pivot, it is open and fenced,
    or it holds a sealed try past its deadline. *)
Theorem scope_rows_admission rows :
  accepted (checkScopeAdmission (map rowToScopeSnapshot rows)) = true <-> forall row, row ∈ rows -> ~ blocks row.
Proof.
  unfold checkScopeAdmission. rewrite checkResult_accepted. induction rows as [|row rows IH]; cbn [map omap list_omap].
  - split; [intros _ ? []%elem_of_nil|done].
  - setoid_rewrite elem_of_cons. cbn [rowToScopeSnapshot ss_admissionBlock].
    destruct (admissionBlock _ _ _) as [b|] eqn:E; cbn [fmap option_fmap option_map].
    + split; [done|]. intros Hall. assert (~ blocks row) as Hb by (apply Hall; by left). apply admissionBlock_iff in Hb. congruence.
    + apply admissionBlock_iff in E. change (omap _ _) with (omap (fun s => (fun b => {| rule := R12; v_vertices := [];
        message := "scope " +:+ ss_scopeId s +:+ " admits no new work: " +:+ blockReason b |}) <$> ss_admissionBlock s) (map rowToScopeSnapshot rows)).
      rewrite IH. naive_solver.
Qed.
End Facts.

(** ** Forks *)
Lemma sorted_filter (p : StoredEvent -> bool) l : seq_ordered l -> seq_ordered (filter_by p l).
Proof. apply StronglySorted_filter_by. Qed.

(** The inherited events of a slice are in source order and at or before the evaluation position. *)
Lemma inherited_sorted source at_ subs upTo s :
  seq_ordered source -> computeForkSlice source at_ subs upTo = Ok s ->
  seq_ordered (fs_seed s ++ fs_independent s) /\ forall e, e ∈ fs_seed s ++ fs_independent s -> run_seq e <= upTo.
Proof.
  intros Hs. unfold computeForkSlice. set (window := filter_by _ source).
  destruct (find _ window) as [div|]; [|done]. destruct (negb _); [done|]. intros H.
  apply bind_Ok in H as ([] & _ & H). apply bind_Ok in H as ([] & _ & H). apply Ok_inj in H as <-.
  match goal with |- context [fold_left (partitionStep ?bad ?q) window ?s0] =>
    destruct (partition_fold bad q window s0) as (-> & -> & _) end. cbn [fs_seed fs_independent app]. split.
  - unfold seq_ordered. apply StronglySorted_app. split_and!.
    + intros a b. rewrite !elem_of_filter_by. intros [_ Ha] [_ Hb]. bool_prop. lia.
    + by apply sorted_filter, sorted_filter.
    + by apply sorted_filter, sorted_filter.
  - intros e. rewrite elem_of_app, !elem_of_filter_by. intros [[[_ He]%elem_of_filter_by _]|[[_ He]%elem_of_filter_by _]]; by bool_prop.
Qed.

Lemma copies_sorted request s :
  seq_ordered (fs_seed s ++ fs_independent s) -> StronglySorted (fun a b => ic_run_seq a < ic_run_seq b) (inheritedCopies request s).
Proof.
  unfold inheritedCopies, seq_ordered. induction 1 as [|x l Hl IH Hx]; cbn [map]; constructor; [done|].
  apply Forall_forall. intros y (z & -> & Hz)%elem_of_map. rewrite Forall_forall in Hx. by apply Hx.
Qed.

Section ForkFacts.
Context {db : Type} `{!Database db} `{!DatabaseLaws db}.
Variable validateSchema : EventDraft -> bool.
Variable schemaErrors : EventDraft -> string.

Lemma recorded_one d run e seqs d' :
  recorded d run [e] seqs d' -> exists n row, next_seq d run = Some n /\ seqs = [n] /\ stored_as run n e row /\
    select_stream d' run = select_stream d run ++ [row] /\ next_seq d' run = Some (n + 1) /\
    (forall other, other <> run -> select_stream d' other = select_stream d other /\ next_seq d' other = next_seq d other).
Proof.
  intros (n & rows & Hn & Hs & Hn' & HF & Hst & Ho). cbn in Hs. rewrite Z.add_0_r in Hs. subst seqs. cbn in HF.
  inversion HF as [|? row ? ? Hrow Hrest]; subst. inversion Hrest; subst. exists n, row. split_and!; done.
Qed.

(** The rows the copies become. *)
Lemma copyInherited_rows d run copies d' :
  copyInheritedWith d run copies = Ok d' -> select_stream d run = [] -> StronglySorted (fun a b => ic_run_seq a < ic_run_seq b) copies ->
  next_seq d' run = next_seq d run /\ Forall2 (copied_as run) copies (select_stream d' run) /\
  (forall other, other <> run -> select_stream d' other = select_stream d other /\ next_seq d' other = next_seq d other).
Proof.
  unfold copyInheritedWith. destruct copies as [|c cs]; [|apply copy_law]. intros H He _. apply Ok_inj in H as <-.
  rewrite He. split_and!; [done|constructor|done].
Qed.

Lemma copied_sorted run upTo copies rows :
  Forall2 (copied_as run) copies rows -> StronglySorted (fun a b => ic_run_seq a < ic_run_seq b) copies ->
  (forall c, c ∈ copies -> ic_run_seq c <= upTo) -> seq_ordered rows /\ forall e, e ∈ rows -> run_seq e <= upTo.
Proof.
  intros HF. induction HF as [|c e copies rows Hce HF IH]; intros Hs Hle; [split; [constructor|intros ? []%elem_of_nil]|].
  inversion Hs as [|? ? Hs' Hc]; subst. destruct IH as [IH1 IH2]; [done|intros x Hx; apply Hle; by right|].
  destruct Hce as (_ & Hq & _). split.
  - constructor; [done|]. apply Forall_forall. intros x Hx. rewrite Forall_forall in Hc.
    clear -HF Hx Hc Hq. induction HF as [|c' e' copies rows (_ & Hq' & _) HF IH]; [by apply elem_of_nil in Hx|].
    apply elem_of_cons in Hx as [->|Hx]; [rewrite Hq, Hq'; apply Hc; left|]. apply IH; [|done]. intros y Hy. apply Hc. by right.
  - intros x [->|Hx]%elem_of_cons; [rewrite Hq; apply Hle; left|by apply IH2].
Qed.

(** The pin of a substituted position: that of the last substitution that names it. *)
Definition pin_for (subs : list ForkSubstitution) (seq : Z) (own : option string) : option string :=
  match last (filter_by (fun s => sub_run_seq s =? seq) subs) with Some s => Some (sub_pin_version s) | None => own end.

(** The row a child inherits of an event of its source. *)
Record inherits (child : string) (subs : list ForkSubstitution) (e row : StoredEvent) : Prop := {
  ih_run : run_id row = child;
  ih_seq : run_seq row = run_seq e;
  ih_type : event_type row = event_type e;
  ih_vertex : vertex_id row = truthy (vertex_id e);
  ih_parents : parent_refs row = parent_refs e;
  ih_planner : planner_id row = truthy (planner_id e);
  ih_scope : scope_id row = truthy (scope_id e);
  ih_pin : pin_version row = truthy (pin_for subs (run_seq e) (pin_version e));
  ih_ignorable : ignorable row = ignorable e;
  ih_inherited : inherited row = true;
  ih_payload : payload row = payload e
}.

Lemma substituted_get subs seq : JMap.get (JMap.of_entries (map (fun i => (sub_run_seq i, sub_pin_version i)) subs)) seq =
  sub_pin_version <$> last (filter_by (fun s => sub_run_seq s =? seq) subs).
Proof.
  induction subs as [|s subs IH] using rev_ind; [done|]. rewrite map_app, filter_by_app. cbn [map]. rewrite of_entries_snoc, get_set, IH. cbn [List.filter].
  destruct (Z.eqb_spec (sub_run_seq s) seq) as [->|Hne]; [by rewrite eqb_refl, last_snoc|]. rewrite (proj2 (eqb_false _ _)) by done. by rewrite app_nil_r.
Qed.

Lemma copies_inherit child request slice rows : Forall2 (copied_as child) (inheritedCopies request slice) rows ->
  Forall2 (inherits child (fr_substitutions request)) (fs_seed slice ++ fs_independent slice) rows.
Proof.
  unfold inheritedCopies. generalize (fs_seed slice ++ fs_independent slice). intros l. revert rows. induction l as [|e l IH]; intros rows HF; inversion HF as [|? row ? rest Hc HF']; subst; constructor; [|by apply IH].
  destruct Hc as (H1 & H2 & H3 & H4 & H5 & H6 & H7 & H8 & H9 & H10 & H11). cbn in *. split; try done. rewrite H8, substituted_get. unfold pin_for. by destruct (last _).
Qed.

(** C12. A fork is atomic, and its stream is well numbered and inherits faithfully. On success the child
    holds one row for each event of the slice (seed, then independent remainder), at its source position
    and with its content, marked inherited, its pin replaced where a substitution names its position;
    then its [run/end-seed] at the evaluation position plus one, strictly increasing. The source gains
    exactly one [fork/created], which names the child and the request; no other run changes. On any
    exception nothing changes. *)
Theorem fork_correct actor d request child r d' :
  seq_ordered (select_stream d (fr_source_run_id request)) ->
  fork validateSchema schemaErrors actor d request child = (r, d') ->
  match r with
  | Throw _ => d' = d
  | Ok res => exists upTo slice copies seed created,
      Num.to_Z (fr_eval_up_to_seq request) = Some upTo /\
      computeForkSlice (select_stream d (fr_source_run_id request)) (fr_at_vertex_id request) (fr_substitutions request) upTo = Ok slice /\
      fk_child_run_id res = child /\ fk_end_seed_seq res = upTo + 1 /\ fk_inherited_event_count res = Z.of_nat (length copies) /\
      select_stream d' child = copies ++ [seed] /\ Forall2 (inherits child (fr_substitutions request)) (fs_seed slice ++ fs_independent slice) copies /\
      event_type seed = run_end_seed /\ run_seq seed = upTo + 1 /\ inherited seed = false /\ seq_ordered (select_stream d' child) /\
      select_stream d' (fr_source_run_id request) = select_stream d (fr_source_run_id request) ++ [created] /\ event_type created = fork_created /\
      pstr created "child_run_id" = Some child /\ pstr created "at_vertex_id" = Some (fr_at_vertex_id request) /\ pstr seed "source_run_id" = Some (fr_source_run_id request) /\
      pfield created "substitutions" = VArr (map substitution_value (fr_substitutions request)) /\
      forall other, other <> child -> other <> fr_source_run_id request -> select_stream d' other = select_stream d other
  end.
Proof.
  intros Hord. unfold fork, transaction. destruct (requireEngine actor) as [[]|]; [|by intros [= <- <-]].
  set (src := fr_source_run_id request) in *.
  destruct (lock_fork_source d src) as [tail|] eqn:Etail; cbn [mbind result_bind]; [|by intros [= <- <-]].
  destruct (Num.to_Z (fr_eval_up_to_seq request)) as [upTo|] eqn:Eup; [|by intros [= <- <-]].
  destruct ((upTo <? 1) || (tail <? upTo)) eqn:Erange; [by intros [= <- <-]|].
  destruct (computeForkSlice _ _ _ _) as [slice|] eqn:Eslice; cbn [mbind result_bind]; [|by intros [= <- <-]].
  destruct (create_fork_run d child upTo) as [d1|] eqn:Ecreate; cbn [mbind result_bind]; [|by intros [= <- <-]].
  destruct (appendWith _ _ d1 src _) as [[s1 d2]|] eqn:Eapp; cbn [mbind result_bind fst snd]; [|by intros [= <- <-]].
  destruct (copyInheritedWith d2 child _) as [d3|] eqn:Ecopy; cbn [mbind result_bind]; [|by intros [= <- <-]].
  destruct (appendWith _ _ d3 child _) as [[s2 d4]|] eqn:Eseed; cbn [mbind result_bind fst snd]; [|by intros [= <- <-]].
  intros [= <- <-].
  apply fork_source_law in Etail. apply fork_run_law in Ecreate as (Hnone & Hnext & Hempty & Hother1).
  assert (child <> src) as Hne by (intros ->; congruence).
  apply appendWith_recorded in Eapp as [Eapp _]. apply recorded_one in Eapp as (n1 & created & Hn1 & _ & Hcreated & Hsrc & _ & Hother2).
  destruct (Hother2 child Hne) as [Hs2 Hn2]. destruct (inherited_sorted _ _ _ _ _ Hord Eslice) as [Hsorted Hle].
  apply copyInherited_rows in Ecopy as (Hn3 & Hcopies & Hother3); [|congruence|by apply copies_sorted].
  apply appendWith_recorded in Eseed as [Eseed _]. apply recorded_one in Eseed as (n2 & seed & Hn4 & -> & Hseed & Hchild & _ & Hother4).
  assert (n2 = upTo + 1) as -> by congruence.
  exists upTo, slice, (select_stream d3 child), seed, created. cbn [fk_child_run_id fk_end_seed_seq fk_inherited_event_count head default].
  destruct Hseed as (_ & Hseq & Hty & _ & _ & _ & _ & _ & _ & Hinh & Hps). destruct Hcreated as (_ & _ & Hty' & _ & _ & _ & _ & _ & _ & _ & Hpc).
  assert (length (select_stream d3 child) = (length (fs_seed slice) + length (fs_independent slice))%nat) as Hlen.
  { apply Forall2_length in Hcopies. unfold inheritedCopies in Hcopies. rewrite length_map, length_app in Hcopies. done. }
  destruct (copied_sorted child upTo _ _ Hcopies) as [Hso Hbound]; [by apply copies_sorted| |].
  { intros c Hc. unfold inheritedCopies in Hc. apply elem_of_map in Hc as (e & -> & He). by apply Hle. }
  pose proof (copies_inherit _ _ _ _ Hcopies) as Hinherits. unfold pstr, pfield. rewrite Hps, Hpc.
  split_and!; try done; [by rewrite Hlen| | |].
  - rewrite Hchild. unfold seq_ordered. apply StronglySorted_app. split_and!; [|done|by repeat constructor].
    intros a b Ha ->%list_elem_of_singleton. rewrite Hseq. specialize (Hbound a Ha). lia.
  - rewrite (proj1 (Hother4 src ltac:(congruence))), (proj1 (Hother3 src ltac:(congruence))), Hsrc.
    by rewrite (proj1 (Hother1 src ltac:(congruence))).
  - intros other H1 H2. rewrite (proj1 (Hother4 other H1)), (proj1 (Hother3 other H1)), (proj1 (Hother2 other H2)).
    apply (Hother1 other H1).
Qed.
End ForkFacts.

(** ** Keys frozen against recorded brackets *)
Lemma group_get {V} (rows : list (string * V)) k :
  JMap.get_or [] (fold_left (fun found row => JMap.set found (fst row) (JMap.get_or [] found (fst row) ++ [snd row])) rows []) k =
  map snd (filter_by (fun row => fst row ==? k) rows).
Proof.
  induction rows as [|[b v] rows IH] using rev_ind; [done|]. rewrite fold_left_app, filter_by_app, map_app. cbn [fold_left List.filter fst snd].
  unfold JMap.get_or at 1. rewrite get_set. case_eqb; cbn; [subst; by rewrite IH|]. rewrite app_nil_r. exact IH.
Qed.

Lemma starts_with_prefix p s : starts_with p s = true -> exists r, s = p +:+ r.
Proof.
  revert s; induction p as [|a p IH]; intros s; [by exists s|]. destruct s as [|b s]; [done|]. cbn. intros H. bool_prop. subst b.
  destruct (IH s) as [r ->]; [done|]. by exists r.
Qed.

Section Brackets.
Context {db : Type} `{!Database db}.

Lemma readBracketsWith_elem (d : db) keys base b :
  base ∈ keys ->
  b ∈ JMap.get_or [] (readBracketsWith d keys) base <->
  b ∈ brackets d /\ ((br_idempotencyKey b ==? base) || starts_with (base +:+ "#") (br_idempotencyKey b)) = true.
Proof.
  intros Hk. unfold readBracketsWith. rewrite group_get, elem_of_map. unfold bracketRows. split.
  - intros ([k b'] & -> & Hin). apply elem_of_filter_by in Hin as [Hin Hkk]. cbn [fst snd] in *. bool_prop. subst k.
    apply elem_of_flat_map in Hin as (k & _ & Hin). apply elem_of_map in Hin as (b0 & [= <- <-] & Hin). by apply elem_of_filter_by in Hin.
  - intros Hb. exists (base, b). split; [done|]. apply elem_of_filter_by. split; [|apply eqb_refl]. apply elem_of_flat_map. exists base.
    split; [by apply elem_of_JSet_of_list|]. apply elem_of_map. exists b. split; [done|]. by apply elem_of_filter_by.
Qed.

Lemma generation_selected base key g :
  generationOf base key = Some g -> ((key ==? base) || starts_with (base +:+ "#") key) = true.
Proof.
  unfold generationOf. destruct (key ==? base); [done|]. cbn [orb]. change GENERATION_SEPARATOR with "#".
  by destruct (starts_with (base +:+ "#") key).
Qed.

(** The idempotency key a freeze puts on a call never names a finished operation of any run. Read
    against the brackets under the lock, it is a generation of the call's business key, and either a
    bracket that is still live holds it — so the database refuses the duplicate — or every recorded
    generation was cancelled and the key is above them all and unused. Recorded generations are below
    2^53 - 1, beyond which the runtime's increment rounds. *)
Theorem frozen_key_live_or_fresh (d : db) keys base :
  base ∈ keys ->
  (forall b g, b ∈ brackets d -> generationOf base (br_idempotencyKey b) = Some g -> 1 <= g < 2 ^ 53 - 1) ->
  let key := nextIdempotencyKey base (JMap.get_or [] (readBracketsWith d keys) base) in
  exists g, generationOf base key = Some g /\
    ((exists b, b ∈ brackets d /\ br_idempotencyKey b = key /\ br_state b <> br_cancelled) \/
     ((forall b h, b ∈ brackets d -> generationOf base (br_idempotencyKey b) = Some h -> br_state b = br_cancelled /\ h < g) /\
      forall b, b ∈ brackets d -> br_idempotencyKey b <> key)).
Proof.
  intros Hk Hsafe. cbv zeta. pose proof (fun b => readBracketsWith_elem d keys base b Hk) as Hread.
  destruct (nextIdempotencyKey_spec base (JMap.get_or [] (readBracketsWith d keys) base)) as (g & Hg & Hcase).
  { intros b h Hb. apply Hread in Hb as [Hb _]. by apply Hsafe. }
  exists g. split; [done|]. destruct Hcase as [(b & Hb & Hkey & Hlive)|Hall].
  - left. exists b. apply Hread in Hb as [Hb _]. done.
  - right. assert (forall b h, b ∈ brackets d -> generationOf base (br_idempotencyKey b) = Some h ->
      b ∈ JMap.get_or [] (readBracketsWith d keys) base) as Hsel.
    { intros b h Hb Hh. apply Hread. split; [done|]. by eapply generation_selected. }
    split.
    + intros b h Hb Hh. destruct (Hall b h (Hsel b h Hb Hh) Hh) as (? & ? & _). done.
    + intros b Hb Heq. rewrite <- Heq in Hg. destruct (Hall b g (Hsel b g Hb Hg) Hg) as (_ & _ & Hne). done.
Qed.
End Brackets.

(** ** Concrete instances over the in-memory database *)
Definition sample_bracket (key : string) (s : BracketState) : BracketRecord := {| br_idempotencyKey := key; br_state := s |}.
Definition sample_db : MemoryDb.Mem :=
  {| MemoryDb.m_user := "engine_role"; MemoryDb.m_runs := [("r1", {| MemoryDb.mr_next_seq := 8; MemoryDb.mr_seed_floor := None; MemoryDb.mr_events := sample_run |})];
     MemoryDb.m_scopes := []; MemoryDb.m_brackets := [sample_bracket "hold:O1" br_cancelled] |}.
Definition any_schema (_ : EventDraft) : bool := true.
Definition no_errors (_ : EventDraft) : string := "".
Definition sample_frozen : EventDraft := draft subgraph_frozen [("proposed_seq", VNum (Num.of_Z 7))].
Definition sample_decide (_ : RunAdmissionContext) : result (FreezeDecision * unit) := Ok (FreezeAdmitted [sample_frozen], tt).
Definition sample_recover (_ : ScopeLockedView) : result (option (list EventDraft) * unit) := Ok (Some [draft replan_boundary []], tt).
Definition sample_fork : ForkRequest :=
  {| fr_source_run_id := "r1"; fr_at_vertex_id := "v1"; fr_eval_up_to_seq := Num.of_Z 7;
     fr_substitutions := [{| sub_run_seq := 2; sub_pin_version := "p2" |}]; fr_fold_mode := "live"; fr_evaluator_pin := "e";
     fr_projector_version := "1"; fr_harness_state_version := "1" |}.

Lemma freezeUnderScopeLock_witness :
  exists d', freezeUnderScopeLock any_schema no_errors engine sample_db "r1" sample_decide [] = (Ok (Some [8], tt), d') /\
    recorded sample_db "r1" [sample_frozen] [8] d'.
Proof.
  destruct (freezeUnderScopeLock any_schema no_errors engine sample_db "r1" sample_decide []) as [r d'] eqn:E. exists d'.
  assert (r = Ok (Some [8], tt)) as -> by (change r with (fst (r, d')); rewrite <- E; vm_compute; reflexivity). split; [done|].
  apply (freezeUnderScopeLock_atomic any_schema no_errors engine sample_db "r1" sample_decide []) in E.
  destruct E as (_ & c & events & _ & Hd & _ & Hr & _). injection Hd as <-. exact Hr.
Defined.

Lemma appendUnderScopeLock_witness :
  exists d', appendUnderScopeLock any_schema no_errors engine sample_db "r1" sample_recover = (Ok (Some [8], tt), d') /\
    recorded sample_db "r1" [draft replan_boundary []] [8] d'.
Proof.
  destruct (appendUnderScopeLock any_schema no_errors engine sample_db "r1" sample_recover) as [r d'] eqn:E. exists d'.
  assert (r = Ok (Some [8], tt)) as -> by (change r with (fst (r, d')); rewrite <- E; vm_compute; reflexivity). split; [done|].
  apply (appendUnderScopeLock_atomic any_schema no_errors engine sample_db "r1" sample_recover) in E.
  destruct E as (_ & rows & drafts & _ & Hd & _ & Hr). injection Hd as <-. exact Hr.
Defined.

Lemma sample_run_ordered : seq_ordered sample_run.
Proof. unfold seq_ordered, sample_run. repeat constructor; cbn; lia. Qed.

Lemma sample_db_ordered : seq_ordered (select_stream sample_db (fr_source_run_id sample_fork)).
Proof. assert (select_stream sample_db (fr_source_run_id sample_fork) = sample_run) as -> by (vm_compute; reflexivity). exact sample_run_ordered. Qed.

Lemma fork_witness :
  exists res d', fork any_schema no_errors engine sample_db sample_fork "child" = (Ok res, d') /\ fk_end_seed_seq res = 8 /\
    seq_ordered (select_stream d' "child").
Proof.
  destruct (fork any_schema no_errors engine sample_db sample_fork "child") as [r d'] eqn:E.
  assert (is_ok r = true) as Hok by (change r with (fst (r, d')); rewrite <- E; vm_compute; reflexivity).
  destruct r as [res|]; [|done]. exists res, d'. split; [done|].
  apply (fork_correct any_schema no_errors engine sample_db sample_fork "child" (Ok res) d' sample_db_ordered) in E.
  destruct E as (upTo & slice & copies & seed & created & Hup & _ & _ & Hend & _ & _ & _ & _ & _ & _ & Hord & _). split; [|exact Hord].
  assert (Num.to_Z (fr_eval_up_to_seq sample_fork) = Some 7) as H7 by (vm_compute; reflexivity). rewrite Hend. assert (upTo = 7) as -> by congruence. reflexivity.
Defined.

Lemma frozen_key_witness :
  nextIdempotencyKey "hold:O1" (JMap.get_or [] (readBracketsWith sample_db ["hold:O1"]) "hold:O1") = "hold:O1#2" /\
  exists g, generationOf "hold:O1" (nextIdempotencyKey "hold:O1" (JMap.get_or [] (readBracketsWith sample_db ["hold:O1"]) "hold:O1")) = Some g.
Proof.
  split; [vm_compute; reflexivity|].
  destruct (frozen_key_live_or_fresh sample_db ["hold:O1"] "hold:O1") as (g & Hg & _); [left| |by exists g].
  intros b g Hb. change (brackets sample_db) with [sample_bracket "hold:O1" br_cancelled] in Hb.
  apply list_elem_of_singleton in Hb as ->. assert (generationOf "hold:O1" "hold:O1" = Some 1) as Hg by (vm_compute; reflexivity).
  cbn [sample_bracket br_idempotencyKey]. rewrite Hg. intros [= <-]. lia.
Defined.
