(* ===== verification/Submission.v ===== *)
(** * Workflow submission (engine/src/admission/submission.ts)

    [submit] normalizes a workflow, records the proposal, and freezes or rejects it under the scope
    lock. The gateway's answer, the template resolver, the fresh identifiers and the database are
    parameters. *)

From S2P Require Import Prelude Collections Number Json Events Graph Fork Scopes CheckRules CheckRulesFacts ToolView Gateway RuleTemplate Workflow WorkflowFacts Store StoreFacts.

Inductive RejectionStage : Type := stage_resolution | stage_registry | stage_admission.

Definition stage_name (s : RejectionStage) : string :=
  match s with stage_resolution => "resolution" | stage_registry => "registry" | stage_admission => "admission" end.

Inductive SubmissionResult : Type :=
| SubmissionAccepted (proposedSeq frozenSeq : Z) (vertexIds : list (string * string))
| SubmissionRejected (proposedSeq rejectedSeq : Z) (stage : RejectionStage) (violations : list CheckViolation).

Definition REGISTRY_RULES : list RuleCode := [R4; R6].

(** The two lookups freeze needs, when rules are configured. *)
Record TemplateResolver : Type := {
  tr_resolve : string -> option PublishedRuleTemplate;
  tr_resolveSlot : string -> option PublishedRuleTemplate
}.

Record BoundRouter : Type := { bo_template : option PublishedRuleTemplate; bo_binding : RouterBinding }.

Definition resolutionViolations (workflow : WorkflowSubmission) (resolved : ResolvedToolView) : list CheckViolation :=
  flat_map (fun v => match sv_kind v with
    | SubmittedTool tool _ _ _ =>
        if ToolRegistry.has (rv_registry resolved) tool then []
        else [{| rule := R13; message := sv_id v +:+ " names " +:+ tool +:+ ", absent from this run's role-scoped tool view"; v_vertices := [sv_id v] |}]
    | _ => [] end) (w_vertices workflow).

(** A key its contract cannot derive is left out here; the freeze refuses it later. *)
Definition businessKeys (workflow : WorkflowSubmission) (resolved : ResolvedToolView) : list string :=
  omap (fun v => match sv_kind v with
    | SubmittedTool tool input key _ =>
        match JMap.get (contractMap resolved) tool with
        | None => None
        | Some contract =>
            match baseIdempotencyKey {| st_id := sv_id v; st_tool := tool; st_input := input; st_idempotencyKey := key |} contract with
            | Ok k => k
            | Throw _ => None
            end
        end
    | _ => None end) (w_vertices workflow).

Definition violation_value (v : CheckViolation) : value :=
  VObj [("rule", VStr (rule_name (rule v))); ("message", VStr (message v)); ("vertices", strings (v_vertices v))].

Section Submit.
Variable sha256 : string -> string.
Variable templates : option TemplateResolver.

Definition bindRouter (slots : list (string * string)) (placement : RouterPlacement) (bound : list (string * BoundRouter)) (v : SubmittedVertex)
    : list (string * BoundRouter) :=
  match sv_kind v with
  | SubmittedRouter ref =>
      let template := match truthy ref with
                      | Some r => t ← templates; tr_resolve t r
                      | None => match truthy (JMap.get slots (sv_id v)) with
                                | Some s => t ← templates; tr_resolveSlot t s
                                | None => None end
                      end in
      JMap.set bound (sv_id v) {| bo_template := template; bo_binding := {| rb_placement := placement; rb_pinVersion := pt_digest <$> template |} |}
  | _ => bound
  end.

Definition bindRouters (workflow : WorkflowSubmission) (placement : RouterPlacement) : list (string * BoundRouter) :=
  fold_left (bindRouter (routerSlotIds sha256 workflow) placement) (w_vertices workflow) [].

(** The branches of every bound router, judged where its router sits. *)
Definition admissionViolations (bound : list (string * BoundRouter)) (resolved : ResolvedToolView) (scopes : list ScopeSnapshot) (isCounterfactual : bool)
    : result (list CheckViolation) :=
  vss ← mapR (fun entry => match bo_template (snd entry) with
    | None => Ok []
    | Some t =>
        outcome ← checkFreezeAdmission {| sp_placement := rb_placement (bo_binding (snd entry)); sp_isReadOnlyContext := isCounterfactual;
                                          sp_roleToolView := rv_registry resolved |} scopes (pt_branches t);
        Ok (map (fun v => {| rule := rule v; message := fst entry +:+ " pins " +:+ pt_templateRef t +:+ ": " +:+ message v; v_vertices := v_vertices v |})
                (violations outcome))
    end) bound;
  Ok (concat vss).

(** What the decision leaves in the caller: the refusal, and the allocated vertex ids. *)
Abbreviation aside := (option (RejectionStage * list CheckViolation) * list (string * string))%type.

Definition role_name (v : SubmittedVertex) : string := kind_name (kind_of v).

Definition frozenDraft (workflow : WorkflowSubmission) (resolved : ResolvedToolView) (proposedSeq : Z) (compiled : CompiledSubgraph) : EventDraft :=
  draft subgraph_frozen
    [("proposed_seq", VNum (Num.of_Z proposedSeq)); ("tool_view_ref", VStr (tool_view_ref (rv_identity resolved)));
     ("tool_view_digest", VStr (tool_view_digest (rv_identity resolved)));
     ("vertices", VArr (map (fun v => VObj [("author_id", VStr (sv_id v)); ("vertex_id", VStr (JMap.get_or "" (cs_vertexIds compiled) (sv_id v)));
                                            ("role", VStr (role_name v))]) (w_vertices workflow)));
     ("scopes", VArr (map (fun p => VObj [("author_id", VStr (fst p)); ("scope_id", VStr (snd p))]) (cs_scopeIds compiled)))].

(** The decision taken under the scope lock. *)
Definition decideFreeze (workflow : WorkflowSubmission) (resolved : ResolvedToolView) (newId : nat -> string) (proposedSeq : Z)
    (context : RunAdmissionContext) : result (FreezeDecision * aside) :=
  let runtime := checkScopeAdmission (rac_scopes context) in
  if negb (accepted runtime) then Ok (FreezeRefused, (Some (stage_admission, violations runtime), [])) else
  checked ← checkSubDag (lowerToProposal workflow) (rv_registry resolved) (rac_scopes context);
  if negb (accepted checked) then
    Ok (FreezeRefused, (Some (if forallb (fun v => includes (rule v) REGISTRY_RULES) (violations checked) then stage_registry else stage_admission,
                              violations checked), []))
  else
  let bound := bindRouters workflow (derivePlacement (rac_scopes context)) in
  branchViolations ← admissionViolations bound resolved (rac_scopes context) (rac_isCounterfactual context);
  match branchViolations with
  | (_ :: _) as vs => Ok (FreezeRefused, (Some (stage_admission, vs), []))
  | [] =>
      compiled ← compileVertexDrafts sha256 workflow resolved (JMap.of_entries (map (fun e => (fst e, bo_binding (snd e))) bound)) newId (rac_brackets context);
      Ok (FreezeAdmitted (frozenDraft workflow resolved proposedSeq compiled :: cs_drafts compiled), (None, cs_vertexIds compiled))
  end.

Definition proposedDraft (submission : WorkflowSubmission) (n : NormalizedWorkflow) (resolved : ResolvedToolView) : EventDraft :=
  draft subgraph_proposed
    [("tool_view_ref", VStr (tool_view_ref (rv_identity resolved))); ("tool_view_digest", VStr (tool_view_digest (rv_identity resolved)));
     ("submission_id", VStr (submissionId submission)); ("submission_digest", VStr (submissionDigest sha256 submission));
     ("source", VStr (source_name (default src_submitted (source submission))));
     ("vertex_count", VNum (Num.of_Z (Z.of_nat (length (w_vertices (nw_workflow n)))))); ("interposed_routers", strings (interposed n))].

Definition rejectedDraft (proposedSeq : Z) (stage : RejectionStage) (vs : list CheckViolation) : EventDraft :=
  draft subgraph_rejected
    [("proposed_seq", VNum (Num.of_Z proposedSeq)); ("stage", VStr (stage_name stage)); ("violations", VArr (map violation_value vs))].

Context {db : Type} `{!Database db}.
Variable validateSchema : EventDraft -> bool.
Variable schemaErrors : EventDraft -> string.
Variable actor : Actor.

Definition appendOne (d : db) (runId : string) (e : EventDraft) : result Z * db :=
  let '(r, d') := appendEvents validateSchema schemaErrors d runId [e] in (seqs ← r; Ok (default 0 (head seqs)), d').

Definition reject (d : db) (runId : string) (proposedSeq : Z) (stage : RejectionStage) (vs : list CheckViolation) : result SubmissionResult * db :=
  let '(r, d') := appendOne d runId (rejectedDraft proposedSeq stage vs) in
  (rejectedSeq ← r; Ok (SubmissionRejected proposedSeq rejectedSeq stage vs), d').

(** [submit]; [view] is what the gateway's discovery answers. *)
Definition submit (d : db) (runId : string) (submission : WorkflowSubmission) (view : result ResolvedToolView) (newId : nat -> string)
    : result SubmissionResult * db :=
  match (n ← normalizeWorkflow submission; resolved ← view; Ok (n, resolved)) with
  | Throw e => (Throw e, d)
  | Ok (n, resolved) =>
      let workflow := nw_workflow n in
      match appendOne d runId (proposedDraft submission n resolved) with
      | (Throw e, d1) => (Throw e, d1)
      | (Ok proposedSeq, d1) =>
          match resolutionViolations workflow resolved with
          | (_ :: _) as vs => reject d1 runId proposedSeq stage_resolution vs
          | [] =>
              match freezeUnderScopeLock validateSchema schemaErrors actor d1 runId
                      (decideFreeze workflow resolved newId proposedSeq) (businessKeys workflow resolved) with
              | (Throw e, d2) => (Throw e, d2)
              | (Ok (sequences, (Some (stage, vs), _)), d2) => reject d2 runId proposedSeq stage vs
              | (Ok (sequences, (None, vertexIds)), d2) =>
                  (Ok (SubmissionAccepted proposedSeq (default 0 (sequences ≫= head)) vertexIds), d2)
              end
          end
      end
  end.
End Submit.

(** ** What a submission leaves in the log *)
Section SubmitFacts.
Variable sha256 : string -> string.
Variable templates : option TemplateResolver.
Context {db : Type} `{!Database db} `{!DatabaseLaws db}.
Variable validateSchema : EventDraft -> bool.
Variable schemaErrors : EventDraft -> string.
Variable actor : Actor.

Lemma appendOne_spec d run e r (d' : db) :
  appendOne validateSchema schemaErrors d run e = (r, d') ->
  match r with
  | Ok n => exists row, next_seq d run = Some n /\ stored_as run n e row /\ select_stream d' run = select_stream d run ++ [row] /\
      next_seq d' run = Some (n + 1) /\
      (forall other, other <> run -> select_stream d' other = select_stream d other /\ next_seq d' other = next_seq d other)
  | Throw _ => d' = d
  end.
Proof.
  unfold appendOne. destruct (appendEvents _ _ d run [e]) as [r0 d0] eqn:E. apply appendEvents_recorded in E.
  destruct r0 as [seqs|]; cbn [mbind result_bind]; intros [= <- <-]; [|done]. destruct E as [E _].
  apply recorded_one in E as (n & row & Hn & -> & Hrow & Hst & Hn' & Ho). exists row. cbn. split_and!; done.
Qed.

(** What a rejection appends. *)
Lemma reject_spec d run p stage vs r (d' : db) :
  reject validateSchema schemaErrors d run p stage vs = (r, d') ->
  match r with
  | Ok res => exists j row, res = SubmissionRejected p j stage vs /\ next_seq d run = Some j /\ stored_as run j (rejectedDraft p stage vs) row /\
      select_stream d' run = select_stream d run ++ [row] /\ (forall other, other <> run -> select_stream d' other = select_stream d other)
  | Throw _ => d' = d
  end.
Proof.
  unfold reject. destruct (appendOne _ _ d run _) as [r0 d0] eqn:E. apply appendOne_spec in E.
  destruct r0 as [j|]; cbn [mbind result_bind]; intros [= <- <-]; [|done]. destruct E as (row & Hn & Hrow & Hst & _ & Ho).
  exists j, row. split_and!; try done. intros other Hne. by apply Ho.
Qed.

(** The gates an admitted decision passed. *)
Definition gates_passed (workflow : WorkflowSubmission) (resolved : ResolvedToolView) (context : RunAdmissionContext) : Prop :=
  accepted (checkScopeAdmission (rac_scopes context)) = true /\
  (exists c, checkSubDag (lowerToProposal workflow) (rv_registry resolved) (rac_scopes context) = Ok c /\ accepted c = true) /\
  admissionViolations (bindRouters sha256 templates workflow (derivePlacement (rac_scopes context))) resolved (rac_scopes context) (rac_isCounterfactual context) = Ok [].

Lemma decideFreeze_spec workflow resolved newId p context dec x :
  decideFreeze sha256 templates workflow resolved newId p context = Ok (dec, x) ->
  match dec with
  | FreezeAdmitted events => gates_passed workflow resolved context /\ fst x = None /\ exists c rest, events = frozenDraft workflow resolved p c :: rest
  | FreezeRefused => is_Some (fst x)
  end.
Proof.
  unfold decideFreeze, gates_passed. destruct (accepted (checkScopeAdmission _)) eqn:Ea; cbn [negb]; [|intros [= <- <-]; by eexists].
  intros H. apply bind_Ok in H as (c & Hc & H). destruct (accepted c) eqn:Eac; cbn [negb] in H; [|injection H as <- <-; by eexists].
  apply bind_Ok in H as (vs & Hv & H). destruct vs as [|v vs]; [|injection H as <- <-; by eexists].
  apply bind_Ok in H as (comp & _ & H). injection H as <- <-. split_and!; [done|by exists c|done|done|by eexists _, _].
Qed.

Lemma combine_positions_cons n e (events : list EventDraft) :
  combine (positions n (length (e :: events))) (e :: events) = (n, e) :: combine (map (fun i => n + Z.of_nat i) (seq 1 (length events))) events.
Proof. unfold positions. cbn [length seq map combine]. by rewrite Z.add_0_r. Qed.

(** What a submission leaves behind, by its result. *)
Definition submit_outcome (d : db) (run : string) (submission : WorkflowSubmission) (view : result ResolvedToolView)
    (r : result SubmissionResult) (d' : db) : Prop :=
  (forall other, other <> run -> select_stream d' other = select_stream d other) /\
  match r with
  | Ok (SubmissionAccepted p f ids) => exists n resolved context d1 proposed frozen rows,
      normalizeWorkflow submission = Ok n /\ view = Ok resolved /\
      readAdmissionContextWith d1 run (businessKeys (nw_workflow n) resolved) = Ok context /\
      select_stream d1 run = select_stream d run ++ [proposed] /\
      select_stream d' run = select_stream d run ++ proposed :: frozen :: rows /\
      event_type proposed = subgraph_proposed /\ run_seq proposed = p /\ event_type frozen = subgraph_frozen /\ run_seq frozen = f /\ f = p + 1 /\
      (forall e, e ∈ rows -> event_type e = vertex_created) /\
      resolutionViolations (nw_workflow n) resolved = [] /\ gates_passed (nw_workflow n) resolved context
  | Ok (SubmissionRejected p j stage vs) => exists proposed rejected,
      select_stream d' run = select_stream d run ++ [proposed; rejected] /\
      event_type proposed = subgraph_proposed /\ run_seq proposed = p /\ event_type rejected = subgraph_rejected /\ run_seq rejected = j /\ j = p + 1 /\
      pfield rejected "proposed_seq" = VNum (Num.of_Z p)
  | Throw _ => select_stream d' run = select_stream d run \/
      exists proposed, event_type proposed = subgraph_proposed /\ select_stream d' run = select_stream d run ++ [proposed]
  end.

Lemma reject_outcome d dx run submission view p proposed stage vs rx dy :
  event_type proposed = subgraph_proposed -> run_seq proposed = p ->
  select_stream dx run = select_stream d run ++ [proposed] -> next_seq dx run = Some (p + 1) ->
  (forall other, other <> run -> select_stream dx other = select_stream d other) ->
  reject validateSchema schemaErrors dx run p stage vs = (rx, dy) -> submit_outcome d run submission view rx dy.
Proof.
  intros Hty Hseq Hx Hnx Hox Hr. apply reject_spec in Hr. destruct rx as [res|e].
  - destruct Hr as (j & row & -> & Hj & (_ & Hq & Ht & _ & _ & _ & _ & _ & _ & _ & Hpl) & Hs & Ho). split; [intros other Hne; rewrite Ho by done; by apply Hox|].
    assert (j = p + 1) as -> by congruence. exists proposed, row. rewrite Hs, Hx, <- (assoc (++)). split_and!; try done. unfold pfield. by rewrite Hpl.
  - subst dy. split; [done|]. right. by exists proposed.
Qed.

Lemma accepted_outcome d run submission view n resolved d1 proposed context c rest seqs ids p d2 :
  event_type proposed = subgraph_proposed -> run_seq proposed = p ->
  select_stream d1 run = select_stream d run ++ [proposed] -> next_seq d1 run = Some (p + 1) ->
  (forall other, other <> run -> select_stream d1 other = select_stream d other /\ next_seq d1 other = next_seq d other) ->
  normalizeWorkflow submission = Ok n -> view = Ok resolved ->
  readAdmissionContextWith d1 run (businessKeys (nw_workflow n) resolved) = Ok context ->
  resolutionViolations (nw_workflow n) resolved = [] -> gates_passed (nw_workflow n) resolved context ->
  frozenShape (frozenDraft (nw_workflow n) resolved p c :: rest) = true ->
  recorded d1 run (frozenDraft (nw_workflow n) resolved p c :: rest) seqs d2 ->
  submit_outcome d run submission view (Ok (SubmissionAccepted p (default 0 (Some seqs ≫= head)) ids)) d2.
Proof.
  intros Hty Hseq Hst Hnx Hox Hn Hv Hctx Hres Hg Hshape (m & rows & Hm & -> & _ & HF & Hs & Ho).
  rewrite combine_positions_cons in HF. inversion HF as [|? frozen ? rows' (_ & Hfq & Hft & _) HF']; subst.
  split; [intros other Hne; rewrite (proj1 (Ho other Hne)); by apply Hox|].
  exists n, resolved, context, d1, proposed, frozen, rows'. assert (m = run_seq proposed + 1) as -> by congruence. cbn [fst snd] in *.
  split_and!; try done.
  - by rewrite Hs, Hst, <- (assoc (++)).
  - rewrite Hfq. unfold positions. cbn. lia.
  - unfold positions. cbn. lia.
  - intros e He. cbn [frozenShape] in Hshape. bool_prop. rewrite forallb_true in H0.
    clear -HF' He H0. remember (combine _ rest) as l eqn:El.
    assert (forall pd, pd ∈ l -> snd pd ∈ rest) as Hl.
    { intros [q x] Hx. subst l. by apply list_elem_of_In, in_combine_r, list_elem_of_In in Hx. }
    clear El. induction HF' as [|[q x] row l rows (_ & _ & Ht & _) HF IH]; [by apply elem_of_nil in He|].
    apply elem_of_cons in He as [->|He]; [|apply IH; [done|intros; apply Hl; by right]].
    rewrite Ht. specialize (H0 x (Hl (q, x) ltac:(left))). by bool_prop.
Qed.

(** Every run of [submit] ends in one of the outcomes. *)
Lemma submit_outcome_holds d run submission view newId r d' :
  submit sha256 templates validateSchema schemaErrors actor d run submission view newId = (r, d') ->
  submit_outcome d run submission view r d'.
Proof.
  unfold submit. destruct (_ ← normalizeWorkflow submission; _) as [[n resolved]|] eqn:En; [|intros [= <- <-]; by split; [|left]].
  apply bind_Ok in En as (n0 & Hn & En). apply bind_Ok in En as (v0 & Hview & En). apply Ok_inj in En. injection En as -> ->.
  destruct (appendOne _ _ d run _) as [[p|] d1] eqn:Eone; apply appendOne_spec in Eone; [|intros [= <- <-]; subst d1; by split; [|left]].
  destruct Eone as (proposed & Hp & (_ & Hpseq & Hpty & _) & Hst1 & Hnext1 & Hother1).
  change (event_type proposed = subgraph_proposed) in Hpty.
  assert (forall dx stage vs rx dy, select_stream dx run = select_stream d run ++ [proposed] -> next_seq dx run = Some (p + 1) ->
    (forall other, other <> run -> select_stream dx other = select_stream d other) ->
    reject validateSchema schemaErrors dx run p stage vs = (rx, dy) -> submit_outcome d run submission view rx dy) as Hreject.
  { intros dx stage vs rx dy Hx Hnx Hox Hr. by eapply reject_outcome. }
  destruct (resolutionViolations (nw_workflow n) resolved) as [|v vs] eqn:Eres.
  2:{ intros Hr. apply (Hreject d1) in Hr; [exact Hr|done|done|intros other Hne; by apply Hother1]. }
  destruct (freezeUnderScopeLock _ _ _ d1 run _ _) as [[[seqs [refusal ids]]|e] d2] eqn:Ef.
  2:{ intros [= <- <-]. apply freeze_uncommitted in Ef as [-> _]; [|done]. split; [intros other Hne; by apply Hother1|]. right. by exists proposed. }
  destruct seqs as [seqs|].
  - apply freeze_committed in Ef as (_ & context & events & Hctx & Hdec & Hshape & Hrec & _).
    apply decideFreeze_spec in Hdec as (Hgates & Hnone & c & rest & ->). cbn [fst] in Hnone. subst refusal. intros [= <- <-].
    by eapply (accepted_outcome d run submission view n resolved d1 proposed context c rest).
  - apply freeze_uncommitted in Ef as [-> Hx]; [|done]. destruct (Hx _ eq_refl) as (context & _ & Hdec).
    apply decideFreeze_spec in Hdec as [[stage vs] Href]. cbn [fst] in Href. subst refusal. intros Hr.
    apply (Hreject d1) in Hr; [exact Hr|done|done|intros other Hne; by apply Hother1].
Qed.

(** C2. A submission answers its proposal in the log. If it is accepted, the run's stream grew by the
    proposal, then [subgraph/frozen] in the next position, then only [vertex/created] events, and the
    frozen workflow is the normalized one, with every tool resolved, no scope refusing work, the check
    rules satisfied and every bound branch admissible where its router sits. If it is rejected, the
    stream grew by the proposal and [subgraph/rejected] in the next position, which names the proposal. If it throws, the stream
    is unchanged or holds a proposal without an answer. No other run is touched. *)
Theorem submit_terminal d run submission view newId r d' :
  submit sha256 templates validateSchema schemaErrors actor d run submission view newId = (r, d') ->
  submit_outcome d run submission view r d'.
Proof. apply submit_outcome_holds. Qed.
End SubmitFacts.

(** ** Concrete submissions *)
Definition sample_submit (w : WorkflowSubmission) : result SubmissionResult * MemoryDb.Mem :=
  submit sample_hash None any_schema no_errors engine sample_db "r1" w (Ok sample_view) sample_newId.

Definition new_events (m : MemoryDb.Mem) : list EventType := map event_type (drop (length sample_run) (select_stream m "r1")).

Lemma submit_witness :
  new_events (snd (sample_submit sample_workflow)) = [subgraph_proposed; subgraph_frozen; vertex_created; vertex_created; vertex_created] /\
  submit_outcome sample_hash None sample_db "r1" sample_workflow (Ok sample_view) (fst (sample_submit sample_workflow)) (snd (sample_submit sample_workflow)).
Proof.
  split; [vm_compute; reflexivity|].
  apply (submit_terminal sample_hash None any_schema no_errors engine sample_db "r1" sample_workflow (Ok sample_view) sample_newId).
  unfold sample_submit. by destruct (submit _ _ _ _ _ _ _ _ _ _).
Defined.

(** A workflow whose two vertices are each other's parents passes normalization, is recorded as
    proposed, and then the checker throws inside the lock: the proposal is never answered. *)
Definition cyclic_workflow : WorkflowSubmission :=
  with_vertices sample_workflow [sample_tool_vertex "a" ["b"] "look"; sample_tool_vertex "b" ["a"] "look"].

Lemma cyclic_submission_unanswered :
  is_ok (normalizeWorkflow cyclic_workflow) = true /\ is_ok (fst (sample_submit cyclic_workflow)) = false /\
  new_events (snd (sample_submit cyclic_workflow)) = [subgraph_proposed].
Proof. vm_compute. done. Qed.

(** So does an admissible workflow whose call carries no value at its contract's key path. *)
Definition keyless_workflow : WorkflowSubmission :=
  with_vertices sample_workflow
    [{| sv_id := "a"; sv_parents := None; sv_scope := None; sv_kind := SubmittedTool "look" None None None |}].

Lemma keyless_submission_unanswered :
  is_ok (fst (sample_submit keyless_workflow)) = false /\ new_events (snd (sample_submit keyless_workflow)) = [subgraph_proposed].
Proof. vm_compute. done. Qed.
