(* ===== verification/Planner.v ===== *)
(** * Planner turns (engine/src/planner/planner-executor.ts, engine/src/planner/planner-loop.ts)

    One thought call of a planner vertex and its record in the log, the reading of the model's answer
    as a proposal, and the submission of what was read. The theorems are in PlannerFacts.v. *)

From S2P Require Import Prelude Collections Number Json JsonParse JsText Events Graph Fork Projection Scopes Llm CheckRules ToolView Gateway RuleTemplate Workflow Store Submission.

(** ** The executor *)
Record PlannerExecutionResult : Type := { pe_result : LlmCallResult; pe_inputDigest : string; pe_outputDigest : string }.

(** [secrets.reduce(...)] over the secrets that are not empty. *)
Definition redact (secrets : list string) (message : string) : string :=
  fold_left (fun value secret => if secret ==? "" then value else replaceAll secret REDACTED value) secrets message.

Definition safeFailure (error : thrown) (secrets : list string) : object :=
  match error with
  | NotAnError => [("error_type", VStr "unknown"); ("message", VStr "LLM call failed")]
  | JsError name message => [("error_type", VStr name); ("message", VStr (take_str 500 (redact secrets message)))]
  end.

Definition usage_value (u : LlmUsage) : value :=
  VObj [("input_tokens", VNum (input_tokens u)); ("output_tokens", VNum (output_tokens u)); ("total_tokens", VNum (total_tokens u));
        ("reasoning_tokens", VNum (reasoning_tokens u)); ("cache_hit_input_tokens", VNum (cache_hit_input_tokens u));
        ("cache_miss_input_tokens", VNum (cache_miss_input_tokens u))].

Definition estimate_value (e : LlmCostEstimate) : value :=
  VObj ([("currency", VStr (ce_currency e)); ("amount", VNum (ce_amount e)); ("pricing_ref", VStr (ce_pricing_ref e))] ++
        opt_prop "pricing_tier" VStr (ce_pricing_tier e) ++
        [("rates_per_million", VObj [("cache_hit_input", VNum (ce_cache_hit_input e)); ("cache_miss_input", VNum (ce_cache_miss_input e));
                                     ("output", VNum (ce_output e))])]).

Definition or_null (o : option string) : value := match o with Some s => VStr s | None => VNull end.

Section Executor.
Variable sha256 : string -> string.
Variable parseUrl : string -> result Url.
Variable href : Url -> string.
Context {db : Type} `{!Database db}.
Variable validateSchema : EventDraft -> bool.
Variable schemaErrors : EventDraft -> string.
(** The client: its settings and the call it makes. *)
Variable config : LlmProviderConfig.
Variable llmCall : list LlmMessage -> completion LlmCallResult.

Definition digest (v : value) : string := "sha256:" +:+ sha256 (Text.canonicalText v).

Definition appendC (d : db) (runId : string) (events : list EventDraft) : completion (list Z) * db :=
  let '(r, d') := appendEvents validateSchema schemaErrors d runId events in (of_result r, d').

Definition startedDraft (plannerId inputDigest : string) : EventDraft :=
  vertex_draft vertex_started plannerId [("attempt", VNum (Num.of_Z 1)); ("execution", VStr "llm"); ("input_digest", VStr inputDigest)].

Definition chargedDraft (plannerId endpoint : string) (result : LlmCallResult) : EventDraft :=
  vertex_draft budget_charged plannerId
    ([("category", VStr "llm"); ("provider", VStr (lc_provider config)); ("protocol", VStr (protocol_name (lc_protocol config)));
      ("endpoint", VStr endpoint); ("requested_model", VStr (lc_model config)); ("response_model", VStr (cr_responseModel result));
      ("duration_ms", VNum (cr_durationMs result)); ("usage", usage_value (cr_usage result))] ++
     opt_prop "estimated_cost" (fun p => estimate_value (estimateLlmCost (cr_usage result) p)) (lc_pricing config)).

Definition succeededDraft (plannerId outputDigest : string) (result : LlmCallResult) : EventDraft :=
  vertex_draft vertex_succeeded plannerId
    [("attempts", VNum (Num.of_Z 1));
     ("result", VObj [("response_id", or_null (cr_responseId result)); ("response_model", VStr (cr_responseModel result));
                      ("finish_reason", or_null (cr_finishReason result)); ("output_digest", VStr outputDigest)])].

Definition failedDraft (plannerId : string) (error : thrown) : EventDraft :=
  vertex_draft vertex_failed plannerId
    [("attempts", VNum (Num.of_Z 1)); ("failure", VObj (safeFailure error [lc_apiKey config; lc_endpoint config]))].

(** The body of the [try]: the call, its price and its outcome. *)
Definition thoughtCall (d : db) (runId plannerId : string) (messages : list LlmMessage) : completion (LlmCallResult * string) * db :=
  match llmCall messages with
  | Abrupt e => (Abrupt e, d)
  | Normal result =>
      let outputDigest := digest (VStr (cr_content result)) in
      match of_result (publicEndpoint parseUrl href (lc_endpoint config)) with
      | Abrupt e => (Abrupt e, d)
      | Normal endpoint =>
          match appendC d runId [chargedDraft plannerId endpoint result; succeededDraft plannerId outputDigest result] with
          | (Abrupt e, d1) => (Abrupt e, d1)
          | (Normal _, d1) => (Normal (result, outputDigest), d1)
          end
      end
  end.

(** [execute]: an error of the call, of its pricing or of its record is recorded as the vertex's
    failure and thrown again. *)
Definition execute (d : db) (runId plannerId : string) (messages : list LlmMessage) : completion PlannerExecutionResult * db :=
  let inputDigest := digest (VArr (map message_value messages)) in
  match appendC d runId [startedDraft plannerId inputDigest] with
  | (Abrupt e, d1) => (Abrupt e, d1)
  | (Normal _, d1) =>
      match thoughtCall d1 runId plannerId messages with
      | (Normal (result, outputDigest), d2) =>
          (Normal {| pe_result := result; pe_inputDigest := inputDigest; pe_outputDigest := outputDigest |}, d2)
      | (Abrupt error, d2) =>
          match appendC d2 runId [failedDraft plannerId error] with
          | (Abrupt e, d3) => (Abrupt e, d3)
          | (Normal _, d3) => (Abrupt error, d3)
          end
      end
  end.
End Executor.

(** ** Reading an answer *)

(** [/^\s*```(?:json)?\s*\n([\s\S]*?)\n?\s*```\s*$/]: after the opening fence, the last line break of
    the white space that follows it; then the shortest text before a closing fence. *)
Definition FENCE : string := "```".

Fixpoint after_last_newline (s : string) : option string :=
  match s with
  | "" => None
  | String c t =>
      if negb (Num.is_space c) then None
      else match after_last_newline t with Some r => Some r | None => if c ==? ascii_of_nat 10 then Some t else None end
  end.

(** White space, the closing fence, white space, the end. *)
Definition closes (s : string) : bool :=
  let t := Num.trim_left s in starts_with FENCE t && (Num.trim_left (drop_str 3 t) ==? "").

Fixpoint until_close (s : string) : option string :=
  if closes s then Some "" else match s with "" => None | String c t => String c <$> until_close t end.

Definition fenced (content : string) : option string :=
  let t := Num.trim_left content in
  if negb (starts_with FENCE t) then None else
  let u := drop_str 3 t in
  let u := if starts_with "json" u then drop_str 4 u else u in
  after_last_newline u ≫= until_close.

Definition unfence (content : string) : string := Num.trim (default content (fenced content)).

Record ReadProposal : Type := { rp_vertices : list SubmittedVertex; rp_scopes : list ProposalScope }.

(** [Array.isArray(v) && v.every((x) => typeof x === 'string')] *)
Definition string_array (v : value) : option (list string) :=
  match v with VArr l => if forallb (fun x => Js.typeof x ==? "string") l then Some (omap Js.as_string l) else None | _ => None end.

(** One element of the answer's [vertices]. The reason of a refusal is the [Throw] of these readers. *)
Definition readVertex (index : nat) (raw : value) : result SubmittedVertex :=
  match Js.as_object raw with
  | None => Throw ("vertex " +:+ nstr index +:+ " is not an object")
  | Some vertex =>
  match Js.str_field vertex "id" with
  | None => Throw ("vertex " +:+ nstr index +:+ " has no id")
  | Some id =>
  if Num.trim id ==? "" then Throw ("vertex " +:+ nstr index +:+ " has no id") else
  match string_array (Js.nullish_or (Js.field vertex "parents") (VArr [])) with
  | None => Throw (id +:+ " has a malformed parents list")
  | Some ps =>
  let base := fun kind => {| sv_id := id; sv_parents := Some ps; sv_scope := Js.str_field vertex "scope"; sv_kind := kind |} in
  if Js.strict_eq (Js.field vertex "kind") (VStr "planner") then Ok (base (SubmittedPlanner (Js.str_field vertex "goal"))) else
  if negb (Js.strict_eq (Js.field vertex "kind") (VStr "tool"))
  then Throw (id +:+ " declares kind " +:+ Stringify.compact_text (Js.field vertex "kind") +:+ "; a planner may propose only tool and planner vertices") else
  match Js.str_field vertex "tool" with
  | None => Throw (id +:+ " is a tool vertex with no tool")
  | Some tool =>
  if Num.trim tool ==? "" then Throw (id +:+ " is a tool vertex with no tool") else
  match Js.as_object (Js.nullish_or (Js.field vertex "input") (VObj [])) with
  | None => Throw (id +:+ " has a malformed input")
  | Some input => Ok (base (SubmittedTool tool (Some input) None None))
  end end end end end.

Definition readScope (index : nat) (raw : value) : result ProposalScope :=
  match Js.as_object raw with
  | None => Throw ("scope " +:+ nstr index +:+ " is malformed")
  | Some scope =>
      match Js.str_field scope "id", string_array (Js.field scope "members") with
      | Some id, Some members => Ok {| ps_id := id; ps_members := members |}
      | _, _ => Throw ("scope " +:+ nstr index +:+ " is malformed")
      end
  end.

Definition readScopes (v : value) : result (list ProposalScope) :=
  match v with
  | VUndef => Ok []
  | VArr l => mapR (fun ir => readScope (fst ir) (snd ir)) (entries l)
  | _ => Throw "scopes is not an array"
  end.

(** The first parent outside the answer, when it is not the empty text. *)
Definition checkLocal (ids : list string) (v : SubmittedVertex) : result unit :=
  match truthy (find (fun p => negb (JSet.has ids p)) (parents v)) with
  | Some foreign => Throw (sv_id v +:+ " names parent " +:+ foreign +:+ ", which is not in this answer; where this work attaches is not the planner's to choose")
  | None => Ok tt
  end.

(** ** Scope membership *)
Definition declareMember (scopeId : string) (declared : list (string * string)) (member : string) : result (list (string * string)) :=
  match truthy (JMap.get declared member) with
  | Some existing => if existing !=? scopeId then Throw (member +:+ " is claimed by both scope " +:+ existing +:+ " and scope " +:+ scopeId)
                     else Ok (JMap.set declared member scopeId)
  | None => Ok (JMap.set declared member scopeId)
  end.

Definition declareScopes (scopes : list ProposalScope) : result (list (string * string)) :=
  foldM (fun declared s => foldM (declareMember (ps_id s)) declared (ps_members s)) [] scopes.

Definition with_scope (v : SubmittedVertex) (scope : string) : SubmittedVertex :=
  {| sv_id := sv_id v; sv_parents := sv_parents v; sv_scope := Some scope; sv_kind := sv_kind v |}.

Definition bindVertex (declared : list (string * string)) (v : SubmittedVertex) : SubmittedVertex :=
  match truthy (JMap.get declared (sv_id v)), truthy (sv_scope v) with
  | Some membership, None => with_scope v membership
  | _, _ => v
  end.

Definition checkMembership (declared : list (string * string)) (scopes : list ProposalScope) (v : SubmittedVertex) : result unit :=
  match truthy (sv_scope v) with
  | None => Ok tt
  | Some scope =>
      match truthy (JMap.get declared (sv_id v)) with
      | Some membership =>
          if scope !=? membership then Throw (sv_id v +:+ " names scope " +:+ scope +:+ " but scope " +:+ membership +:+ " lists it as a member")
          else if existsb (fun s => ps_id s ==? scope) scopes then Ok tt else Throw (sv_id v +:+ " names scope " +:+ scope +:+ ", which is not declared")
      | None =>
          if existsb (fun s => ps_id s ==? scope) scopes then Ok tt else Throw (sv_id v +:+ " names scope " +:+ scope +:+ ", which is not declared")
      end
  end.

Definition completeScope (bound : list SubmittedVertex) (s : ProposalScope) : ProposalScope :=
  {| ps_id := ps_id s; ps_members := JSet.of_list (ps_members s ++ map sv_id (filter_by (fun v => sv_scope v ==? Some (ps_id s)) bound)) |}.

Definition bindScopeMembership (vertices : list SubmittedVertex) (scopes : list ProposalScope) : result ReadProposal :=
  declared ← declareScopes scopes;
  let bound := map (bindVertex declared) vertices in
  _ ← foldM (fun _ v => checkMembership declared scopes v) tt bound;
  Ok {| rp_vertices := bound; rp_scopes := map (completeScope bound) scopes |}.

(** The checks of [readProposal] once the answer is a value. *)
Definition readBody (decoded : value) : result ReadProposal :=
  match Js.as_object decoded with
  | None => Throw "answer is not a JSON object"
  | Some body =>
      match Js.field body "vertices" with
      | VArr ((_ :: _) as raws) =>
          vertices ← mapR (fun ir => readVertex (fst ir) (snd ir)) (entries raws);
          scopes ← readScopes (Js.field body "scopes");
          _ ← foldM (fun _ v => checkLocal (JSet.of_list (map sv_id vertices)) v) tt vertices;
          if negb (Nat.eqb (length (JSet.of_list (map sv_id vertices))) (length vertices)) then Throw "two vertices share an id"
          else bindScopeMembership vertices scopes
      | _ => Throw "answer declares no vertices"
      end
  end.

Definition readProposal (syntaxError : string -> string) (content : string) : result ReadProposal :=
  match Parse.JSON_parse syntaxError (unfence content) with
  | Throw e => Throw ("answer is not JSON: " +:+ e)
  | Ok decoded => readBody decoded
  end.

(** ** The prompt *)

(** A text written with single quotes where the source has double ones; the source has no other. *)
Fixpoint double_quoted (s : string) : string :=
  match s with "" => "" | String c t => String (if c ==? ascii_of_nat 39 then ascii_of_nat 34 else c) (double_quoted t) end.

Definition SYSTEM_CONTRACT : string := double_quoted (join newline
  ["You plan one step of a long-running business workflow.";
   "";
   "Answer with a single JSON object and no prose, no markdown fence:";
   "{'vertices': [...], 'scopes': [...]}";
   "";
   "Each vertex is {'id': string, 'kind': 'tool'|'planner', 'parents': [ids within this answer], 'tool'?: string, 'input'?: object, 'scope'?: string, 'goal'?: string}.";
   "Each scope is {'id': string, 'members': [tool vertex ids]}.";
   "";
   "Rules:";
   "- Plan only the next step. Do not plan the whole workflow; you will be called again with the results.";
   "- 'tool' is required on a tool vertex and must be one of the listed tool ids. A planner vertex has no tool.";
   "- Only tool vertices may belong to a scope. Group into one scope the side-effecting tools that must succeed or fail together.";
   "- Every tool whose effect_class is not 'none' must belong to a scope.";
   "- A scope may contain at most one tool whose effect_class is 'irreversible'.";
   "- If a side-effecting tool reads the output of another side-effecting tool, both must be in the SAME scope.";
   "- An uncommitted effect may not be consumed across a scope boundary, so a chain of dependent side effects is one scope, not several.";
   "- A scope holding an irreversible tool must also hold every reversible tool that irreversible one depends on.";
   "- Never emit a vertex of kind 'router'. Routing is not yours to decide.";
   "- Never name a tool version, a tool view digest, or a rule template. Those are resolved for you.";
   "- Every value in 'input' must come from the task, or from a result you can see above. Do not invent identifiers, prices, or quantities.";
   "- 'parents' may only name ids inside this same answer. Where your work attaches to the existing graph is decided for you."]).

Definition catalogue (view : ResolvedToolView) : string :=
  join newline (map (fun t => Stringify.compact_text
    (VObj [("tool", VStr (tool_id t)); ("description", VStr (default "" (description t))); ("effect_class", VStr (effect_name (effect_class (txn t))));
           ("mode", VStr (mode_name (tvt_mode (txn t)))); ("input_schema", VObj (input_schema t))])) (tools (rv_document view))).

Record PlannerTurnRequest : Type := {
  tr_runId : string;
  tr_plannerVertexId : string;
  tr_taskInput : object;
  tr_workflowType : string;
  tr_goal : string;
  tr_evidence : option object;
  tr_attempt : option Z
}.

Definition compose (context : string) (request : PlannerTurnRequest) (view : ResolvedToolView) : list LlmMessage :=
  [{| lm_role := role_system; lm_content := SYSTEM_CONTRACT |};
   {| lm_role := role_user; lm_content := join (newline +:+ newline)
        (["# Task" +:+ newline +:+ Stringify.indented_text (VObj (tr_taskInput request));
          "# Goal for this step" +:+ newline +:+ tr_goal request;
          "# Tools you may call" +:+ newline +:+ catalogue view;
          "# What has happened so far" +:+ newline +:+ context] ++
         match tr_evidence request with
         | Some e => ["# A previous attempt from here failed and was discarded" +:+ newline +:+ Stringify.indented_text (VObj e) +:+ newline +:+
                      "Propose a different approach. Repeating the failed call will fail again."]
         | None => []
         end ++
         ["# Your answer" +:+ newline +:+ "Return one JSON object and nothing else."]) |}].

(** ** The turn *)
Inductive PlannerTurn : Type :=
| turn_frozen (result : SubmissionResult) (content : string)
| turn_rejected (result : SubmissionResult) (content : string)
| turn_unreadable (reason content : string).

(** [`${planner}:replan-${attempt}`], or [:turn] where there is no attempt or it is 0. *)
Definition turnId (request : PlannerTurnRequest) : string :=
  match tr_attempt request with
  | Some n => if n =? 0 then tr_plannerVertexId request +:+ ":turn" else tr_plannerVertexId request +:+ ":replan-" +:+ zstr n
  | None => tr_plannerVertexId request +:+ ":turn"
  end.

Definition turnSubmission (request : PlannerTurnRequest) (p : ReadProposal) : WorkflowSubmission :=
  {| submissionId := turnId request; w_vertices := rp_vertices p;
     w_scopes := match rp_scopes p with [] => None | scopes => Some scopes end;
     workflowType := Some (tr_workflowType request); attachTo := Some [tr_plannerVertexId request]; source := None |}.

Section Loop.
Context `{Collation}.
Variable sha256 : string -> string.
Variable parseUrl : string -> result Url.
Variable href : Url -> string.
Variable syntaxError : string -> string.
Variable templates : option TemplateResolver.
Context {db : Type} `{!Database db}.
Variable validateSchema : EventDraft -> bool.
Variable schemaErrors : EventDraft -> string.
Variable actor : Actor.
Variable config : LlmProviderConfig.
Variable llmCall : list LlmMessage -> completion LlmCallResult.
Variable versions : Versions.

Definition context (d : db) (runId plannerVertexId : string) : result string :=
  view ← surface (readStream d runId None);
  relevant ← slice view plannerVertexId;
  Ok (fst (assemble sha256 (linearize relevant) versions)).

Definition unreadableDraft (plannerVertexId reason content : string) : EventDraft :=
  vertex_draft subgraph_unreadable plannerVertexId
    [("planner_vertex_id", VStr plannerVertexId); ("reason", VStr reason); ("answer_digest", VStr ("sha256:" +:+ sha256 content));
     ("answer_length", VNum (Num.of_Z (Z.of_nat (String.length content))))].

(** What [advance] does with the model's answer. *)
Definition settle (d : db) (request : PlannerTurnRequest) (content : string) (discovered : result ResolvedToolView) (newId : nat -> string)
    : completion PlannerTurn * db :=
  match readProposal syntaxError content with
  | Throw reason =>
      match appendC validateSchema schemaErrors d (tr_runId request) [unreadableDraft (tr_plannerVertexId request) reason content] with
      | (Abrupt e, d1) => (Abrupt e, d1)
      | (Normal _, d1) => (Normal (turn_unreadable reason content), d1)
      end
  | Ok parsed =>
      match submit sha256 templates validateSchema schemaErrors actor d (tr_runId request) (turnSubmission request parsed) discovered newId with
      | (Throw e, d1) => (raise e, d1)
      | (Ok (SubmissionAccepted p f ids as result), d1) => (Normal (turn_frozen result content), d1)
      | (Ok (SubmissionRejected p j stage vs as result), d1) => (Normal (turn_rejected result content), d1)
      end
  end.

(** [advance]; [discovered] and [newId] are what the submitter's discovery answers and allocates. *)
Definition advance (d : db) (request : PlannerTurnRequest) (view : ResolvedToolView) (discovered : result ResolvedToolView) (newId : nat -> string)
    : completion PlannerTurn * db :=
  match context d (tr_runId request) (tr_plannerVertexId request) with
  | Throw e => (raise e, d)
  | Ok text =>
      match execute sha256 parseUrl href validateSchema schemaErrors config llmCall d (tr_runId request) (tr_plannerVertexId request) (compose text request view) with
      | (Abrupt e, d1) => (Abrupt e, d1)
      | (Normal executed, d1) => settle d1 request (cr_content (pe_result executed)) discovered newId
      end
  end.
End Loop.

Example unfence_cases :
  unfence ("```json" +:+ newline +:+ " {} " +:+ newline +:+ "```" +:+ newline) = "{}" /\ unfence " [1] " = "[1]" /\
  unfence ("```" +:+ newline +:+ "a```b" +:+ newline +:+ "``` ") = "a```b" /\ unfence "```json {}```" = "```json {}```".
Proof. vm_compute. done. Qed.
