(* ===== verification/ProposalFacts.v ===== *)
(** * Reading a proposal: what is accepted

    The reader of a model's answer (planner-loop.ts) against a declarative description of the
    proposals it may hand to the submitter, in both directions, and what is left for normalization
    to refuse. *)

From S2P Require Import Prelude Collections Number Json JsonParse JsText Events Graph Fork Projection Scopes Llm CheckRules ToolView Gateway RuleTemplate Workflow WorkflowFacts Store StoreFacts Submission Planner.

(** What a planner may propose of one vertex. *)
Definition proposable (v : SubmittedVertex) : Prop :=
  Num.trim (sv_id v) <> "" /\ is_Some (sv_parents v) /\
  match sv_kind v with
  | SubmittedTool tool (Some _) None None => Num.trim tool <> ""
  | SubmittedPlanner _ => True
  | _ => False
  end.

(** Parents are named inside the answer, up to the first empty one. *)
Definition local_parents (ids : list string) (v : SubmittedVertex) : Prop :=
  forall pre q post, parents v = pre ++ q :: post -> (forall x, x ∈ pre -> x ∈ ids) -> q ∈ ids \/ q = "".

(** The claims the scopes make: scope and member. *)
Definition claims (scopes : list ProposalScope) : list (string * string) :=
  flat_map (fun s => map (fun m => (ps_id s, m)) (ps_members s)) scopes.

Record well_formed (p : ReadProposal) : Prop := {
  wf_nonempty : rp_vertices p <> [];
  wf_distinct : NoDup (map sv_id (rp_vertices p));
  wf_vertices : forall v, v ∈ rp_vertices p -> proposable v;
  wf_local : forall v, v ∈ rp_vertices p -> local_parents (map sv_id (rp_vertices p)) v;
  wf_declared : forall v s, v ∈ rp_vertices p -> sv_scope v = Some s -> s <> "" -> exists sc, sc ∈ rp_scopes p /\ ps_id sc = s;
  wf_agree : forall v sc, v ∈ rp_vertices p -> sc ∈ rp_scopes p -> ps_id sc <> "" -> (sv_id v ∈ ps_members sc <-> sv_scope v = Some (ps_id sc));
  wf_single : forall s1 s2 m, (s1, m) ∈ claims (rp_scopes p) -> (s2, m) ∈ claims (rp_scopes p) -> s1 <> "" -> s2 <> "" -> s1 = s2;
  wf_members : forall sc, sc ∈ rp_scopes p -> NoDup (ps_members sc)
}.

(** ** Lists *)
Lemma length_JSet_of_list {A} `{EqDecision A} (l : list A) : length (JSet.of_list l) = length l <-> NoDup l.
Proof.
  assert (JSet.of_list l ⊆+ l) as Hs by (apply NoDup_submseteq; [apply NoDup_JSet_of_list|intros x; by rewrite elem_of_JSet_of_list]).
  split.
  - intros Hl. pose proof (submseteq_length_Permutation _ _ Hs ltac:(lia)) as Hp. rewrite <- Hp. apply NoDup_JSet_of_list.
  - intros Hn. apply Permutation_length, NoDup_Permutation; [apply NoDup_JSet_of_list|done|]. intros x. by rewrite elem_of_JSet_of_list.
Qed.

Lemma foldM_flat_map {S A B} (f : A -> list B) (body : S -> B -> result S) s xs :
  foldM (fun s x => foldM body s (f x)) s xs = foldM body s (flat_map f xs).
Proof. revert s; induction xs as [|x xs IH]; intros s; cbn [foldM flat_map]; [done|]. rewrite foldM_app. destruct (foldM body s (f x)); cbn; [apply IH|done]. Qed.

Lemma foldM_map {S A B} (g : A -> B) (body : S -> B -> result S) s xs : foldM body s (map g xs) = foldM (fun s x => body s (g x)) s xs.
Proof. revert s; induction xs as [|x xs IH]; intros s; cbn [foldM map]; [done|]. destruct (body s (g x)); cbn; [apply IH|done]. Qed.

(** ** Membership *)
Lemma declareScopes_claims scopes : declareScopes scopes = foldM (fun d c => declareMember (fst c) d (snd c)) [] (claims scopes).
Proof.
  unfold declareScopes, claims. rewrite <- foldM_flat_map. generalize (@nil (string * string)).
  induction scopes as [|s scopes IH]; intros d; cbn [foldM]; [done|]. rewrite foldM_map. cbn [fst snd].
  destruct (foldM _ d (ps_members s)); cbn; [apply IH|done].
Qed.

Record declared_inv (pre : list (string * string)) (d : list (string * string)) : Prop := {
  declared_all : forall s m, (s, m) ∈ pre -> s <> "" -> JMap.get d m = Some s;
  declared_only : forall s m, JMap.get d m = Some s -> (s, m) ∈ pre
}.

Lemma declared_step pre d s m d' : declared_inv pre d -> declareMember s d m = Ok d' -> declared_inv (pre ++ [(s, m)]) d'.
Proof.
  intros [Ha Ho] Hd.
  assert (d' = JMap.set d m s /\ forall s', (s', m) ∈ pre -> s' <> "" -> s' = s) as [-> Hone].
  { unfold declareMember in Hd. destruct (truthy (JMap.get d m)) as [e|] eqn:Et.
    - apply truthy_Some in Et as [Et _]. destruct (e ==? s) eqn:Es; cbn in Hd; [|done]. apply eqb_true_1 in Es as ->. injection Hd as <-.
      split; [done|]. intros s' Hs' Hne. specialize (Ha _ _ Hs' Hne). congruence.
    - injection Hd as <-. split; [done|]. intros s' Hs' Hne. rewrite (Ha _ _ Hs' Hne) in Et. by destruct s'. }
  split.
  - intros s' m' Hin Hne. rewrite get_set. apply elem_of_app in Hin as [Hin|Hin].
    + case_eqb; [subst m'; f_equal; symmetry; by apply Hone|by apply Ha].
    + apply list_elem_of_singleton in Hin. injection Hin as -> ->. by rewrite eqb_refl.
  - intros s' m'. rewrite get_set, elem_of_app, list_elem_of_singleton. case_eqb; [intros [= <-]; subst; by right|intros H; left; by apply Ho].
Qed.

Lemma declareScopes_inv scopes d : declareScopes scopes = Ok d -> declared_inv (claims scopes) d.
Proof.
  rewrite declareScopes_claims. apply (foldM_prefix_inv declared_inv); [split; [intros ? ? []%elem_of_nil|done]|].
  intros pre [s m] d0 d1. apply declared_step.
Qed.

(** Claims of scopes that are not anonymous all succeed when each member has one claimant. *)
Lemma declareScopes_total scopes :
  (forall s m, (s, m) ∈ claims scopes -> s <> "") ->
  (forall s1 s2 m, (s1, m) ∈ claims scopes -> (s2, m) ∈ claims scopes -> s1 = s2) -> exists d, declareScopes scopes = Ok d.
Proof.
  rewrite declareScopes_claims. intros Hne Hone.
  assert (forall post pre d, claims scopes = pre ++ post -> declared_inv pre d ->
    exists d', foldM (fun d c => declareMember (fst c) d (snd c)) d post = Ok d') as Hgo.
  { induction post as [|[s m] post IH]; intros pre d Heq Hinv; [by exists d|]. cbn [foldM fst snd].
    assert (exists d1, declareMember s d m = Ok d1) as [d1 Hd1].
    { unfold declareMember. destruct (truthy (JMap.get d m)) as [e|] eqn:Et; [|by eexists]. apply truthy_Some in Et as [Et _].
      rewrite (Hone e s m); [rewrite eqb_refl; by eexists| |]; rewrite Heq, elem_of_app; [left; by apply (declared_only _ _ Hinv)|right; left]. }
    rewrite Hd1. cbn. apply (IH (pre ++ [(s, m)])); [by rewrite <- (assoc (++))|by eapply declared_step]. }
  apply (Hgo (claims scopes) [] []); [done|split; [intros ? ? []%elem_of_nil|done]].
Qed.

Lemma elem_of_claims scopes s m : (s, m) ∈ claims scopes <-> exists sc, sc ∈ scopes /\ ps_id sc = s /\ m ∈ ps_members sc.
Proof.
  unfold claims. rewrite elem_of_flat_map. setoid_rewrite elem_of_map. split.
  - intros (sc & Hsc & m' & [= -> ->] & Hm). eauto.
  - intros (sc & Hsc & <- & Hm). eauto.
Qed.

Lemma bindVertex_fields declared v :
  sv_id (bindVertex declared v) = sv_id v /\ sv_parents (bindVertex declared v) = sv_parents v /\ sv_kind (bindVertex declared v) = sv_kind v.
Proof. unfold bindVertex. destruct (truthy (JMap.get _ _)), (truthy (sv_scope v)); done. Qed.

Lemma map_id_bound declared vs : map sv_id (map (bindVertex declared) vs) = map sv_id vs.
Proof. rewrite map_map. apply map_ext. intros v. apply bindVertex_fields. Qed.

(** What the membership check leaves of a bound vertex. *)
Lemma checkMembership_Ok declared scopes v :
  checkMembership declared scopes v = Ok tt <->
  forall s, sv_scope v = Some s -> s <> "" ->
    (exists sc, sc ∈ scopes /\ ps_id sc = s) /\ forall m, JMap.get declared (sv_id v) = Some m -> m <> "" -> m = s.
Proof.
  unfold checkMembership. destruct (truthy (sv_scope v)) as [s|] eqn:Es.
  - apply truthy_Some in Es as [-> Hne].
    assert (existsb (fun sc => ps_id sc ==? s) scopes = true <-> exists sc, sc ∈ scopes /\ ps_id sc = s) as Hex.
    { rewrite existsb_true. by setoid_rewrite eqb_true. }
    destruct (truthy (JMap.get declared (sv_id v))) as [m|] eqn:Em.
    + apply truthy_Some in Em as [Hm Hm0]. case_eqb; cbn [negb].
      * subst m. destruct (existsb _ scopes) eqn:Ex; split; try done; intros H.
        -- intros s' [= <-] _. split; [by apply Hex|]. intros m Hm' _. congruence.
        -- destruct (H s eq_refl Hne) as [Hx _]. by apply Hex in Hx.
      * split; [done|]. intros H. destruct (H s eq_refl Hne) as [_ Hx]. by rewrite (Hx m Hm Hm0) in E.
    + destruct (existsb _ scopes) eqn:Ex; split; try done; intros H.
      * intros s' [= <-] _. split; [by apply Hex|]. intros m Hm' Hm0. rewrite Hm' in Em. by destruct m.
      * destruct (H s eq_refl Hne) as [Hx _]. by apply Hex in Hx.
  - split; [|done]. intros _ s Hs Hne. rewrite Hs in Es. by destruct s.
Qed.

(** A bound vertex has the scope that claims it. *)
Lemma bound_scope declared scopes v m :
  checkMembership declared scopes (bindVertex declared v) = Ok tt -> JMap.get declared (sv_id v) = Some m -> m <> "" ->
  sv_scope (bindVertex declared v) = Some m.
Proof.
  intros Hc Hm Hne. destruct (truthy (sv_scope v)) as [s|] eqn:Es.
  - assert (bindVertex declared v = v) as Hb by (unfold bindVertex; rewrite Es; by destruct (truthy (JMap.get declared (sv_id v)))).
    rewrite Hb in *. apply truthy_Some in Es as [Es Hs]. destruct (proj1 (checkMembership_Ok _ _ _) Hc s Es Hs) as [_ Hx].
    rewrite Es. f_equal. symmetry. by apply Hx.
  - unfold bindVertex. rewrite Es. assert (truthy (JMap.get declared (sv_id v)) = Some m) as -> by (by apply truthy_Some). done.
Qed.

Lemma elem_of_completed bound s x :
  x ∈ ps_members (completeScope bound s) <-> x ∈ ps_members s \/ exists v, v ∈ bound /\ sv_id v = x /\ sv_scope v = Some (ps_id s).
Proof.
  cbn [completeScope ps_members]. rewrite elem_of_JSet_of_list, elem_of_app, elem_of_map. setoid_rewrite elem_of_filter_by. setoid_rewrite eqb_true. naive_solver.
Qed.

Section Bound.
Variables (vertices : list SubmittedVertex) (scopes : list ProposalScope) (p : ReadProposal).
Hypothesis Hdistinct : NoDup (map sv_id vertices).
Hypothesis Hbound : bindScopeMembership vertices scopes = Ok p.

Lemma bound_shape : exists declared, declareScopes scopes = Ok declared /\ rp_vertices p = map (bindVertex declared) vertices /\
  rp_scopes p = map (completeScope (rp_vertices p)) scopes /\ forall v, v ∈ rp_vertices p -> checkMembership declared scopes v = Ok tt.
Proof.
  unfold bindScopeMembership in Hbound. apply bind_Ok in Hbound as (declared & Hd & H). apply bind_Ok in H as ([] & Hc & H). injection H as <-.
  exists declared. cbn. split_and!; try done. by apply (foldM_unit_Ok _ _ _ Hc).
Qed.

(** A claim of the completed scopes on a vertex, or of the declared ones on anything else. *)
Lemma completed_claim s m : (s, m) ∈ claims (rp_scopes p) -> s <> "" ->
  (exists v, v ∈ rp_vertices p /\ sv_id v = m /\ sv_scope v = Some s) \/ ((s, m) ∈ claims scopes /\ m ∉ map sv_id vertices).
Proof.
  destruct bound_shape as (declared & Hd & Hv & Hs & Hc). apply declareScopes_inv in Hd. rewrite elem_of_claims. intros (sc & Hsc & Hid & Hm) Hne.
  rewrite Hs, elem_of_map in Hsc. destruct Hsc as (s0 & -> & Hs0). cbn [completeScope ps_id] in Hid. apply elem_of_completed in Hm as [Hm|(v & H1 & H2 & H3)].
  - assert ((s, m) ∈ claims scopes) as Hcl by (apply elem_of_claims; eauto). destruct (decide (m ∈ map sv_id vertices)) as [Hin|]; [|by right].
    apply elem_of_map in Hin as (v & -> & Hin). left. exists (bindVertex declared v).
    assert (bindVertex declared v ∈ rp_vertices p) as Hb by (rewrite Hv; apply elem_of_map; eauto).
    split; [done|]. split; [apply bindVertex_fields|]. eapply bound_scope; [by apply Hc|by apply (declared_all _ _ Hd)|done].
  - left. exists v. subst. done.
Qed.

Lemma bound_agree v sc : v ∈ rp_vertices p -> sc ∈ rp_scopes p -> ps_id sc <> "" -> (sv_id v ∈ ps_members sc <-> sv_scope v = Some (ps_id sc)).
Proof.
  intros Hv Hsc Hne. assert (map sv_id (rp_vertices p) = map sv_id vertices) as Hids.
  { destruct bound_shape as (declared & _ & -> & _). apply map_id_bound. }
  split.
  - intros Hm. destruct (completed_claim (ps_id sc) (sv_id v)) as [(u & Hu & Hid & Hs)|[_ Hn]]; [apply elem_of_claims; eauto|done| |].
    + assert (u = v) as ->; [|done]. rewrite <- Hids in Hdistinct.
      clear -Hu Hv Hid Hdistinct. induction (rp_vertices p) as [|x l IH]; [by apply elem_of_nil in Hu|]. cbn in Hdistinct. apply NoDup_cons in Hdistinct as [Hx Hl].
      apply elem_of_cons in Hu as [->|Hu], Hv as [->|Hv]; auto; exfalso; apply Hx; apply elem_of_map; eauto.
    + exfalso. apply Hn. rewrite <- Hids. apply elem_of_map. eauto.
  - intros Hs. destruct bound_shape as (declared & _ & _ & Hsc' & _). rewrite Hsc', elem_of_map in Hsc. destruct Hsc as (s0 & -> & Hs0).
    apply elem_of_completed. right. exists v. done.
Qed.

Lemma bound_single s1 s2 m : (s1, m) ∈ claims (rp_scopes p) -> (s2, m) ∈ claims (rp_scopes p) -> s1 <> "" -> s2 <> "" -> s1 = s2.
Proof.
  intros H1 H2 Hn1 Hn2. pose proof (proj1 (elem_of_claims _ _ _) H1) as (sc1 & Hsc1 & Hid1 & Hm1). pose proof (proj1 (elem_of_claims _ _ _) H2) as (sc2 & Hsc2 & Hid2 & Hm2).
  destruct (completed_claim s1 m H1 Hn1) as [(u & Hu & <- & Hs)|[Hc1 Hout]].
  - subst s2. apply (bound_agree u sc2) in Hm2; [|done|done|done]. congruence.
  - destruct (completed_claim s2 m H2 Hn2) as [(u & Hu & <- & Hs)|[Hc2 _]].
    + exfalso. apply Hout. destruct bound_shape as (declared & _ & Hv & _). rewrite <- (map_id_bound declared), <- Hv. apply elem_of_map. eauto.
    + destruct bound_shape as (declared & Hd & _). apply declareScopes_inv in Hd. pose proof (declared_all _ _ Hd _ _ Hc1 Hn1).
      pose proof (declared_all _ _ Hd _ _ Hc2 Hn2). congruence.
Qed.
End Bound.

(** ** Vertices *)
Lemma readVertex_proposable i raw v : readVertex i raw = Ok v -> proposable v.
Proof.
  unfold readVertex. destruct (Js.as_object raw) as [o|]; [|done]. destruct (Js.str_field o "id") as [id|]; [|done].
  destruct (Num.trim id ==? "") eqn:Eid; [done|]. destruct (string_array _) as [ps|]; [|done].
  destruct (Js.strict_eq _ (VStr "planner")); [intros [= <-]; bool_prop; split_and!; by eauto|].
  destruct (Js.strict_eq _ (VStr "tool")); [|done]. destruct (Js.str_field o "tool") as [tool|]; [|done].
  destruct (Num.trim tool ==? "") eqn:Et; [done|]. destruct (Js.as_object _) as [input|]; [|done]. intros [= <-]. bool_prop. split_and!; by eauto.
Qed.

Lemma checkLocal_Ok ids v : checkLocal (JSet.of_list ids) v = Ok tt <-> local_parents ids v.
Proof.
  unfold checkLocal, local_parents.
  enough (truthy (find (fun p => negb (JSet.has (JSet.of_list ids) p)) (parents v)) = None <->
    forall pre q post, parents v = pre ++ q :: post -> (forall x, x ∈ pre -> x ∈ ids) -> q ∈ ids \/ q = "") as H.
  { destruct (truthy _); [|by rewrite <- H]. rewrite <- H. done. }
  assert (forall x, JSet.has (JSet.of_list ids) x = true <-> x ∈ ids) as Hhas by (intros x; by rewrite JSet_has_true, elem_of_JSet_of_list).
  induction (parents v) as [|x l IH]; cbn [find List.find].
  - split; [|done]. intros _ [|] ? ? ?; done.
  - destruct (JSet.has (JSet.of_list ids) x) eqn:Ex; cbn [negb].
    + apply Hhas in Ex. rewrite IH. split.
      * intros Hl [|y pre] q post Heq Hpre; cbn in Heq; [injection Heq as <- <-; by left|]. injection Heq as <- Heq.
        apply (Hl pre q post Heq). intros z Hz. apply Hpre. by right.
      * intros Hl pre q post -> Hpre. apply (Hl (x :: pre) q post eq_refl). intros z [->|Hz]%elem_of_cons; auto.
    + assert (x ∉ ids) as Hx by (intros Hc; apply Hhas in Hc; congruence). split.
      * intros Ht [|y pre] q post Heq Hpre; cbn in Heq; injection Heq as <- Heq.
        -- right. unfold truthy in Ht. by destruct x.
        -- exfalso. apply Hx, Hpre. left.
      * intros Hl. destruct (Hl [] x l eq_refl) as [?| ->]; [by intros ? []%elem_of_nil|done|done].
Qed.

Lemma readBody_well_formed decoded p : readBody decoded = Ok p -> well_formed p.
Proof.
  unfold readBody. destruct (Js.as_object decoded) as [body|]; [|done]. destruct (Js.field body "vertices") as [| | | | |[|r raws]|]; try done.
  intros H. apply bind_Ok in H as (vs & Hvs & H). apply bind_Ok in H as (scopes & Hscopes & H). apply bind_Ok in H as ([] & Hlocal & H).
  destruct (Nat.eqb _ _) eqn:El; [|done]. apply Nat.eqb_eq in El. rewrite <- (length_map sv_id vs) in El. apply length_JSet_of_list in El.
  cbn [negb] in H. pose proof (bound_shape _ _ _ H) as (declared & Hd & Hv & Hs & Hc).
  assert (map sv_id (rp_vertices p) = map sv_id vs) as Hids by (rewrite Hv; apply map_id_bound).
  apply mapR_Ok in Hvs.
  assert (forall v, v ∈ rp_vertices p -> exists u, u ∈ vs /\ v = bindVertex declared u) as Hback by (intros v; rewrite Hv, elem_of_map; naive_solver).
  assert (forall u, u ∈ vs -> proposable u) as Hprop.
  { intros u Hu. clear -Hvs Hu. induction Hvs as [|ir u' l l' Hr HF IH]; [by apply elem_of_nil in Hu|].
    apply elem_of_cons in Hu as [->|Hu]; [by apply readVertex_proposable in Hr|by apply IH]. }
  split.
  - intros Hnil. assert (vs = []) as ->; [by apply (f_equal length) in Hids; rewrite Hnil, !length_map in Hids; destruct vs|].
    apply Forall2_length in Hvs. unfold entries, entries_from in Hvs. rewrite length_combine, length_seq in Hvs. cbn in Hvs. lia.
  - by rewrite Hids.
  - intros v Hin. apply Hback in Hin as (u & Hu & ->). destruct (bindVertex_fields declared u) as (H1 & H2 & H3).
    unfold proposable. rewrite H1, H2, H3. by apply Hprop.
  - intros v Hin. apply Hback in Hin as (u & Hu & ->). rewrite Hids. unfold local_parents, parents.
    rewrite (proj1 (proj2 (bindVertex_fields declared u))). pose proof (foldM_unit_Ok _ _ _ Hlocal u Hu) as Hl. by apply checkLocal_Ok in Hl.
  - intros v s Hin Hsc Hne. destruct (proj1 (checkMembership_Ok _ _ _) (Hc v Hin) s Hsc Hne) as [(sc & Hin' & Hid) _].
    exists (completeScope (rp_vertices p) sc). split; [rewrite Hs; apply elem_of_map; eauto|done].
  - intros v sc. by eapply bound_agree.
  - intros s1 s2 m. by eapply bound_single.
  - intros sc Hsc. rewrite Hs, elem_of_map in Hsc. destruct Hsc as (s0 & -> & _). apply NoDup_JSet_of_list.
Qed.

(** ** The answer a proposal is written as *)
Definition proposed_vertex_value (v : SubmittedVertex) : value :=
  VObj (match sv_kind v with SubmittedPlanner (Some goal) => [("goal", VStr goal)] | _ => [] end ++
        [("id", VStr (sv_id v))] ++
        match sv_kind v with SubmittedTool _ (Some input) _ _ => [("input", VObj input)] | _ => [] end ++
        [("kind", VStr (match sv_kind v with SubmittedTool _ _ _ _ => "tool" | SubmittedPlanner _ => "planner" | SubmittedRouter _ => "router" | SubmittedBarrier => "confirmation-barrier" end));
         ("parents", strings (parents v))] ++
        opt_prop "scope" VStr (sv_scope v) ++
        match sv_kind v with SubmittedTool tool _ _ _ => [("tool", VStr tool)] | _ => [] end).

Definition proposal_value (p : ReadProposal) : value :=
  VObj [("scopes", VArr (map scope_value (rp_scopes p))); ("vertices", VArr (map proposed_vertex_value (rp_vertices p)))].

Lemma string_array_strings l : string_array (strings l) = Some l.
Proof.
  unfold string_array, strings. assert (forallb (fun x => Js.typeof x ==? "string") (map VStr l) = true) as ->.
  { apply forallb_true. intros x Hx. apply elem_of_map in Hx as (s & -> & _). done. }
  f_equal. induction l as [|s l IH]; [done|]. change (s :: omap Js.as_string (map VStr l) = s :: l). by rewrite IH.
Qed.

Lemma readVertex_back i v : proposable v -> readVertex i (proposed_vertex_value v) = Ok v.
Proof.
  destruct v as [id ps scope kind]. unfold proposable. cbn [sv_id sv_parents sv_kind]. intros (Hid & [l ->] & Hk).
  assert ((Num.trim id ==? "") = false) as Hb by (by apply eqb_false).
  destruct kind as [tool [input|] [|] [|]|goal| |]; try done; [|destruct goal as [goal|]]; destruct scope as [scope|];
    unfold readVertex; cbn [proposed_vertex_value Js.as_object];
    match goal with |- context [Js.str_field ?o "id"] => change (Js.str_field o "id") with (Some id) end; cbv iota beta; rewrite Hb;
    match goal with |- context [Js.nullish_or (Js.field ?o "parents") _] => change (Js.nullish_or (Js.field o "parents") (VArr [])) with (strings l) end;
    rewrite string_array_strings; try reflexivity;
    match goal with |- context [Js.str_field ?o "tool"] => change (Js.str_field o "tool") with (Some tool) end;
    cbv iota beta; rewrite (proj2 (eqb_false _ _) Hk); reflexivity.
Qed.

Lemma mapR_entries {A B C} (f : nat -> A -> result B) (g : C -> A) (h : C -> B) l :
  (forall i c, c ∈ l -> f i (g c) = Ok (h c)) -> mapR (fun ir => f (fst ir) (snd ir)) (entries (map g l)) = Ok (map h l).
Proof.
  unfold entries. generalize 0%nat. induction l as [|c l IH]; intros n H; [done|]. unfold entries_from. cbn [map length seq combine mapR fst snd].
  rewrite (H n c) by left. cbn [mbind result_bind]. fold (entries_from (S n) (map g l)). rewrite IH by (intros; apply H; by right). done.
Qed.

Lemma JSet_addAll_id {A} `{EqDecision A} (s l : list A) : (forall x, x ∈ l -> x ∈ s) -> JSet.addAll s l = s.
Proof.
  unfold JSet.addAll. revert s; induction l as [|x l IH]; intros s Hl; [done|]. cbn [fold_left]. unfold JSet.add.
  rewrite (proj2 (JSet_has_true s x)) by (apply Hl; left). apply IH. intros y Hy. apply Hl. by right.
Qed.

Lemma JSet_of_list_id {A} `{EqDecision A} (l : list A) : NoDup l -> JSet.of_list l = l.
Proof.
  unfold JSet.of_list, JSet.addAll. enough (forall pre, NoDup (pre ++ l) -> fold_left JSet.add l pre = pre ++ l) as H by (apply (H [])).
  induction l as [|x l IH]; intros pre Hn; [by rewrite app_nil_r|]. cbn [fold_left].
  assert (JSet.add pre x = pre ++ [x]) as ->; [|rewrite IH; rewrite <- (assoc (++)); done].
  unfold JSet.add. rewrite (proj2 (JSet_has_false pre x)); [done|].
  apply NoDup_app in Hn as (_ & Hn & _). intros Hx. apply (Hn x Hx). left.
Qed.

Section Back.
Variable p : ReadProposal.
Hypothesis Hwf : well_formed p.
Hypothesis Hnamed : forall sc, sc ∈ rp_scopes p -> ps_id sc <> "".

Lemma completeScope_back sc : sc ∈ rp_scopes p -> completeScope (rp_vertices p) sc = sc.
Proof.
  intros Hsc. destruct sc as [id members] eqn:Esc. unfold completeScope. cbn [ps_id ps_members]. f_equal.
  unfold JSet.of_list, JSet.addAll. rewrite fold_left_app. fold (JSet.addAll (fold_left JSet.add members []) (map sv_id (filter_by (fun v => sv_scope v ==? Some id) (rp_vertices p)))).
  change (fold_left JSet.add members []) with (JSet.of_list members). rewrite JSet_of_list_id by (apply (wf_members p Hwf _ Hsc)).
  apply JSet_addAll_id. intros x. rewrite elem_of_map. setoid_rewrite elem_of_filter_by. setoid_rewrite eqb_true. intros (v & -> & Hv & Hs).
  apply (wf_agree p Hwf v _ Hv Hsc); [by apply (Hnamed _ Hsc)|done].
Qed.

Lemma bindScopeMembership_back : bindScopeMembership (rp_vertices p) (rp_scopes p) = Ok p.
Proof.
  assert (forall s m, (s, m) ∈ claims (rp_scopes p) -> s <> "") as Hne by (intros s m; rewrite elem_of_claims; intros (sc & Hsc & <- & _); by apply Hnamed).
  destruct (declareScopes_total (rp_scopes p)) as [declared Hd]; [done|intros s1 s2 m H1 H2; eapply (wf_single p Hwf); eauto|].
  pose proof (declareScopes_inv _ _ Hd) as Hinv. unfold bindScopeMembership. rewrite Hd. cbn [mbind result_bind].
  assert (forall v m, v ∈ rp_vertices p -> JMap.get declared (sv_id v) = Some m -> m <> "" /\ sv_scope v = Some m) as Hdecl.
  { intros v m Hv Hm. apply (declared_only _ _ Hinv) in Hm. pose proof (Hne _ _ Hm). split; [done|]. apply elem_of_claims in Hm as (sc & Hsc & <- & Hin).
    by apply (wf_agree p Hwf v sc). }
  assert (map (bindVertex declared) (rp_vertices p) = rp_vertices p) as ->.
  { rewrite <- (map_id (rp_vertices p)) at 2. apply map_ext_in. intros v Hv%list_elem_of_In. unfold bindVertex.
    destruct (truthy (JMap.get declared (sv_id v))) as [m|] eqn:Em; [|done]. apply truthy_Some in Em as [Em Hm].
    destruct (Hdecl v m Hv Em) as [_ Hs]. rewrite Hs. by destruct m. }
  rewrite (foldM_unit_total (checkMembership declared (rp_scopes p))).
  - cbn. rewrite (map_ext_in _ id), map_id; [by destruct p|]. intros sc Hsc%list_elem_of_In. by apply completeScope_back.
  - intros v Hv. apply checkMembership_Ok. intros s Hs Hn. split; [by eapply (wf_declared p Hwf)|].
    intros m Hm _. destruct (Hdecl v m Hv Hm) as [_ Hx]. congruence.
Qed.

Lemma readBody_back : readBody (proposal_value p) = Ok p.
Proof.
  unfold readBody, proposal_value. cbn [Js.as_object].
  change (Js.field _ "vertices") with (VArr (map proposed_vertex_value (rp_vertices p))).
  change (Js.field _ "scopes") with (VArr (map scope_value (rp_scopes p))).
  assert (exists r rs, map proposed_vertex_value (rp_vertices p) = r :: rs) as (r & rs & Hr).
  { pose proof (wf_nonempty p Hwf). destruct (rp_vertices p); [done|]. by eexists _, _. }
  rewrite Hr. cbv iota beta. rewrite <- Hr. rewrite (mapR_entries readVertex _ id) by (intros; apply readVertex_back; by apply (wf_vertices p Hwf)).
  rewrite map_id. cbn [mbind result_bind readScopes].
  rewrite (mapR_entries readScope _ id), map_id.
  2:{ intros i [id members] _. unfold readScope, scope_value. cbn [Js.as_object ps_id ps_members].
      change (Js.str_field _ "id") with (Some id). change (Js.field _ "members") with (strings members). by rewrite string_array_strings. }
  cbn [mbind result_bind]. rewrite (foldM_unit_total (checkLocal (JSet.of_list (map sv_id (rp_vertices p))))).
  2:{ intros v Hv. apply checkLocal_Ok. by apply (wf_local p Hwf). }
  cbn [mbind result_bind]. rewrite (proj2 (length_JSet_of_list (map sv_id (rp_vertices p))) (wf_distinct p Hwf)), length_map, Nat.eqb_refl.
  apply bindScopeMembership_back.
Qed.
End Back.

(** *** As text *)

(** Inputs as canonical text carries them: members distinct and in key order, integers only. *)
Definition canonical_inputs (p : ReadProposal) : Prop :=
  forall v tool input key confirmed, v ∈ rp_vertices p -> sv_kind v = SubmittedTool tool (Some input) key confirmed ->
  distinct_keys (VObj input) = true /\ Text.normal (VObj input) = VObj input.

Lemma normal_strings l : Text.normal (strings l) = strings l.
Proof. unfold strings. cbn [Text.normal]. f_equal. rewrite map_map. by apply map_ext. Qed.

Lemma distinct_strings l : distinct_keys (strings l) = true.
Proof. cbn. apply forallb_true. intros x Hx. apply elem_of_map in Hx as (s & -> & _). done. Qed.

Lemma distinct_VObj fields :
  NoDup (map fst fields) -> (forall q, q ∈ fields -> distinct_keys (snd q) = true) -> distinct_keys (VObj fields) = true.
Proof.
  intros Hn Hd. cbn [distinct_keys]. apply andb_true_iff. split; [|by apply forallb_true].
  apply bool_decide_eq_true. clear Hd. induction fields as [|q l IH]; cbn; [constructor|]. cbn in Hn. apply NoDup_cons in Hn as [Hq Hl].
  destruct (is_defined q); [|by apply IH]. cbn. constructor; [|by apply IH]. rewrite elem_of_map. intros (r & Hr & Hin). apply elem_of_filter_by in Hin as [Hin _].
  apply Hq. apply elem_of_map. eauto.
Qed.

Lemma vertex_value_normal v :
  proposable v -> (forall tool input key confirmed, sv_kind v = SubmittedTool tool (Some input) key confirmed -> Text.normal (VObj input) = VObj input) ->
  Text.normal (proposed_vertex_value v) = proposed_vertex_value v.
Proof.
  intros Hp Hi. unfold proposed_vertex_value. rewrite normal_VObj. destruct v as [id ps scope kind]. destruct Hp as (_ & _ & Hk). cbn [sv_kind sv_id sv_scope] in *.
  destruct kind as [tool [input|] [|] [|]|[goal|]| |]; try done; destruct scope as [scope|]; cbn [app opt_prop];
    match goal with |- context [Text.sort_members (filter_by is_defined ?l)] => change (Text.sort_members (filter_by is_defined l)) with l end;
    cbn [map fst snd]; rewrite ?normal_strings, ?(Hi tool input None None eq_refl); reflexivity.
Qed.

Lemma vertex_value_distinct v :
  proposable v -> (forall tool input key confirmed, sv_kind v = SubmittedTool tool (Some input) key confirmed -> distinct_keys (VObj input) = true) ->
  distinct_keys (proposed_vertex_value v) = true.
Proof.
  intros Hp Hi. unfold proposed_vertex_value. apply distinct_VObj; destruct v as [id ps scope kind]; destruct Hp as (_ & _ & Hk); cbn [sv_kind sv_id sv_scope] in *;
    destruct kind as [tool [input|] [|] [|]|[goal|]| |]; try done; destruct scope as [scope|]; cbn [app opt_prop map fst].
  all: try (apply (bool_decide_eq_true_1 _); vm_compute; reflexivity).
  all: apply Forall_forall; repeat constructor; cbn [snd]; try apply distinct_strings; by eapply Hi.
Qed.

Lemma scope_value_normal s : Text.normal (scope_value s) = scope_value s /\ distinct_keys (scope_value s) = true.
Proof.
  unfold scope_value. split.
  - rewrite normal_VObj. change (Text.sort_members (filter_by is_defined [("id", VStr (ps_id s)); ("members", strings (ps_members s))])) with [("id", VStr (ps_id s)); ("members", strings (ps_members s))].
    cbn [map fst snd]. by rewrite normal_strings.
  - apply distinct_VObj; [apply (bool_decide_eq_true_1 _); vm_compute; reflexivity|]. apply Forall_forall. repeat constructor. apply distinct_strings.
Qed.

Lemma normal_array {A} (f : A -> value) l : (forall x, x ∈ l -> Text.normal (f x) = f x) -> Text.normal (VArr (map f l)) = VArr (map f l).
Proof. intros H. cbn [Text.normal]. f_equal. rewrite map_map. apply map_ext_in. intros x Hx%list_elem_of_In. by apply H. Qed.

Lemma distinct_array {A} (f : A -> value) l : (forall x, x ∈ l -> distinct_keys (f x) = true) -> distinct_keys (VArr (map f l)) = true.
Proof. intros H. cbn [distinct_keys]. apply forallb_true. intros x Hx. apply elem_of_map in Hx as (y & -> & Hy). by apply H. Qed.

Lemma proposal_value_canonical p :
  well_formed p -> canonical_inputs p -> Text.normal (proposal_value p) = proposal_value p /\ distinct_keys (proposal_value p) = true.
Proof.
  intros Hwf Hi. unfold proposal_value. split.
  - rewrite normal_VObj. match goal with |- context [Text.sort_members (filter_by is_defined ?l)] => change (Text.sort_members (filter_by is_defined l)) with l end.
    cbn [map fst snd]. rewrite !normal_array; [done| |].
    + intros v Hv. apply vertex_value_normal; [by apply (wf_vertices p Hwf)|]. intros. by eapply Hi.
    + intros s _. apply scope_value_normal.
  - apply distinct_VObj; [apply (bool_decide_eq_true_1 _); vm_compute; reflexivity|]. apply Forall_forall. repeat constructor; cbn [snd]; apply distinct_array.
    + intros s _. apply scope_value_normal.
    + intros v Hv. apply vertex_value_distinct; [by apply (wf_vertices p Hwf)|]. intros. by eapply Hi.
Qed.

(** Text between two characters that are not space is not trimmed. *)
Lemma trim_right_snoc s c : Num.is_space c = false -> Num.trim_right (s +:+ String c "") = s +:+ String c "".
Proof.
  intros Hc. induction s as [|x s IH]; [rewrite sapp_nil; cbn [Num.trim_right]; by rewrite Hc|]. rewrite sapp_cons. cbn [Num.trim_right]. rewrite IH.
  destruct s; reflexivity.
Qed.

Lemma unfence_object s : unfence ("{" +:+ s +:+ "}") = "{" +:+ s +:+ "}".
Proof.
  unfold unfence, fenced. change ("{" +:+ s +:+ "}") with (String "{" (s +:+ "}")). cbn [Num.trim_left]. change (Num.is_space "{") with false. cbv iota.
  change (starts_with FENCE (String "{" (s +:+ "}"))) with false. cbn [negb]. cbv iota. cbn [default]. unfold Num.trim. cbn [Num.trim_left]. change (Num.is_space "{") with false. cbv iota.
  change (String "{" (s +:+ "}")) with (String "{" s +:+ "}"). by apply trim_right_snoc.
Qed.

(** *** Inside a fence *)
Definition fence (t : string) : string := FENCE +:+ "json" +:+ newline +:+ t +:+ newline +:+ FENCE.

Definition fence_char (c : ascii) : bool := Num.is_space c || (c ==? "`"%char).

Lemma trim_left_chars s : all_chars fence_char (Num.trim_left s) = true -> all_chars fence_char s = true.
Proof. induction s as [|c s IH]; [done|]. cbn [Num.trim_left]. destruct (Num.is_space c) eqn:Ec; [|done]. cbn [all_chars]. intros H. rewrite (IH H). unfold fence_char. by rewrite Ec. Qed.

Lemma closes_chars s : closes s = true -> all_chars fence_char s = true.
Proof.
  unfold closes. intros H. apply andb_true_iff in H as [H1 H2]. apply trim_left_chars. apply eqb_true_1 in H2.
  destruct (starts_with_prefix _ _ H1) as [r Hr]. rewrite Hr in *. change (drop_str 3 (FENCE +:+ r)) with r in H2.
  assert (all_chars fence_char r = true) as Hall by (apply trim_left_chars; by rewrite H2).
  unfold FENCE. rewrite !sapp_cons, sapp_nil. cbn [all_chars]. by rewrite Hall.
Qed.

Lemma closes_brace x y : closes (x +:+ String "}" y) = false.
Proof.
  apply not_true_iff_false. intros H. apply closes_chars in H. induction x as [|c x IH]; [done|]. rewrite sapp_cons in H. cbn [all_chars] in H. bool_prop. by apply IH.
Qed.

Lemma until_close_object s : until_close (s +:+ "}" +:+ newline +:+ FENCE) = Some (s +:+ "}").
Proof.
  induction s as [|c s IH].
  - rewrite !sapp_nil. change ("}" +:+ newline +:+ FENCE) with (String "}" (newline +:+ FENCE)). cbn [until_close].
    pose proof (closes_brace "" (newline +:+ FENCE)) as Hc. rewrite sapp_nil in Hc. rewrite Hc. reflexivity.
  - rewrite sapp_cons. cbn [until_close]. rewrite <- sapp_cons.
    pose proof (closes_brace (String c s) (newline +:+ FENCE)) as Hc. change (String "}" (newline +:+ FENCE)) with ("}" +:+ newline +:+ FENCE) in Hc. rewrite Hc.
    rewrite IH. done.
Qed.

Lemma unfence_fence s : unfence (fence ("{" +:+ s +:+ "}")) = "{" +:+ s +:+ "}".
Proof.
  unfold unfence, fence, fenced.
  change (Num.trim_left (FENCE +:+ ?x)) with (FENCE +:+ x). change (starts_with FENCE (FENCE +:+ ?x)) with true. cbn [negb]. cbv iota.
  change (drop_str 3 (FENCE +:+ ?x)) with x. change (starts_with "json" ("json" +:+ ?x)) with true. cbv iota. change (drop_str 4 ("json" +:+ ?x)) with x.
  assert (after_last_newline (newline +:+ ("{" +:+ s +:+ "}") +:+ newline +:+ FENCE) = Some (String "{" s +:+ "}" +:+ newline +:+ FENCE)) as ->.
  { rewrite !sapp_assoc. reflexivity. }
  cbn [mbind option_bind]. rewrite until_close_object.
  change (Num.trim_right (String "{" s +:+ "}") = String "{" s +:+ "}"). by apply trim_right_snoc.
Qed.

(** ** What the reader promises *)
Lemma readProposal_well_formed syntaxError content p : readProposal syntaxError content = Ok p -> well_formed p.
Proof. unfold readProposal. destruct (Parse.JSON_parse _ _) as [v|]; [|done]. apply readBody_well_formed. Qed.

(** C10. What the reader hands on is a proposal a planner may make. An accepted answer has at least one
    vertex; the ids are distinct and not blank; every vertex is a planner or a tool call with a named
    tool and an input object, and carries no key, pin, router or barrier; parents name vertices of the
    same answer, except from the first empty one on; a vertex names a scope only if that scope is
    declared, and it names a scope exactly when that scope lists it, no member is claimed by two named
    scopes and no scope lists a member twice. *)
Theorem readProposal_sound syntaxError content p : readProposal syntaxError content = Ok p -> well_formed p.
Proof. apply readProposal_well_formed. Qed.

(** The reader refuses nothing a planner may say: the canonical JSON of a well-formed proposal whose
    scopes are named, with its inputs in canonical form, is read back as that proposal, and so is the
    same text inside a markdown fence. *)
Theorem readProposal_roundtrip syntaxError p text :
  well_formed p -> (forall sc, sc ∈ rp_scopes p -> ps_id sc <> "") -> canonical_inputs p ->
  Text.canonicalize (proposal_value p) = Ok text ->
  readProposal syntaxError text = Ok p /\ readProposal syntaxError (fence text) = Ok p.
Proof.
  intros Hwf Hn Hi Ht. destruct (proposal_value_canonical p Hwf Hi) as [Hnorm Hdist]. unfold readProposal.
  assert (unfence text = text /\ unfence (fence text) = text) as [-> ->].
  { unfold proposal_value in Ht. rewrite canonicalize_VObj in Ht. apply bind_Ok in Ht as (ts & _ & Ht). apply Ok_inj in Ht as <-.
    split; [apply unfence_object|apply unfence_fence]. }
  rewrite (JSON_parse_canonicalize syntaxError _ _ Hdist Ht), Hnorm. split; by apply readBody_back.
Qed.

Lemma wf_parents_closed p : well_formed p ->
  (forall v, v ∈ rp_vertices p -> "" ∉ parents v) <-> (forall v q, v ∈ rp_vertices p -> q ∈ parents v -> q ∈ map sv_id (rp_vertices p)).
Proof.
  intros Hwf. split.
  - intros Hne v q Hv Hq. pose proof (wf_local p Hwf v Hv) as Hl. specialize (Hne v Hv). unfold local_parents in Hl.
    assert (forall post pre, parents v = pre ++ post -> (forall x, x ∈ pre -> x ∈ map sv_id (rp_vertices p)) -> forall x, x ∈ post -> x ∈ map sv_id (rp_vertices p)) as Hgo.
    { induction post as [|y post IH]; intros pre Heq Hpre x; [by intros []%elem_of_nil|].
      destruct (Hl pre y post Heq Hpre) as [Hy| ->]; [|exfalso; apply Hne; rewrite Heq, elem_of_app; right; left].
      rewrite elem_of_cons. intros [->|Hx]; [done|]. apply (IH (pre ++ [y])); [by rewrite <- (assoc (++))| |done].
      intros z. rewrite elem_of_app, list_elem_of_singleton. intros [Hz| ->]; auto. }
    apply (Hgo (parents v) []); [done|by intros ? []%elem_of_nil|done].
  - intros Hc v Hv Hin. specialize (Hc v "" Hv Hin). apply elem_of_map in Hc as (u & Hu & Hin'). destruct (wf_vertices p Hwf u Hin') as [Ht _].
    by rewrite <- Hu in Ht.
Qed.

(** Without routers of their own, exactly the planners with parents get one. *)
Lemma wf_interposes p v : well_formed p -> v ∈ rp_vertices p ->
  interposes (vertices_by_id (rp_vertices p)) v = true <-> kind_of v = k_planner /\ parents v <> [].
Proof.
  intros Hwf Hv. unfold interposes. rewrite andb_true_iff, eqb_true.
  assert (needsInterposedRouter (parents v) (vertices_by_id (rp_vertices p)) = true <-> parents v <> []) as ->; [|done].
  unfold needsInterposedRouter. destruct (parents v) as [|q [|q' l]]; [done| |done].
  destruct (JMap.get _ q) as [u|] eqn:Eu; [|done]. apply vertices_by_id_elem in Eu as [Hu _]. destruct (wf_vertices p Hwf u Hu) as (_ & _ & Hk).
  unfold kind_of. destruct (sv_kind u); done.
Qed.

(** What is left for the submission path to refuse: a proposal the reader accepted normalizes unless
    a vertex names the empty parent or a planner's interposed router would take the id of a vertex of
    the same answer. Both make the turn throw instead of recording a refusal. *)
Theorem proposal_normalizes syntaxError content p request :
  readProposal syntaxError content = Ok p ->
  (is_ok (normalizeWorkflow (turnSubmission request p)) = true <->
   (forall v, v ∈ rp_vertices p -> "" ∉ parents v) /\
   (forall v, v ∈ rp_vertices p -> kind_of v = k_planner -> parents v <> [] -> routerId v ∉ map sv_id (rp_vertices p))).
Proof.
  intros Hr. apply readProposal_well_formed in Hr as Hwf. rewrite (wf_parents_closed p Hwf).
  assert (forall P : Prop, (exists n, P /\ normalizeWorkflow (turnSubmission request p) = Ok n) -> is_ok (normalizeWorkflow (turnSubmission request p)) = true) as Hok.
  { intros P (n & _ & ->). done. }
  split.
  - destruct (normalizeWorkflow _) as [n|] eqn:En; [|done]. intros _. apply normalizeWorkflow_spec in En as (Hc & Hf & _). split; [exact Hc|].
    intros v Hv Hk Hp. apply Hf; [done|]. by apply wf_interposes.
  - intros [Hc Hf]. apply (Hok True). eexists. split; [done|]. apply normalizeWorkflow_spec. split; [exact Hc|]. split; [|reflexivity].
    intros v Hv Hi. cbn [turnSubmission w_vertices] in *. apply wf_interposes in Hi as [Hk Hp]; [|done|done]. by apply Hf.
Qed.

(** ** Concrete answers *)
Definition sample_proposal_read : ReadProposal :=
  {| rp_vertices := [{| sv_id := "find"; sv_parents := Some []; sv_scope := None; sv_kind := SubmittedTool "look" (Some [("order_id", VStr "o1")]) None None |};
                     {| sv_id := "book"; sv_parents := Some ["find"]; sv_scope := Some "s"; sv_kind := SubmittedTool "pay" (Some []) None None |};
                     {| sv_id := "next"; sv_parents := Some ["book"]; sv_scope := None; sv_kind := SubmittedPlanner (Some "go on") |}];
     rp_scopes := [{| ps_id := "s"; ps_members := ["book"] |}] |}.

Definition sample_answer : string := match Text.canonicalize (proposal_value sample_proposal_read) with Ok t => t | Throw _ => "" end.

Definition sample_request : PlannerTurnRequest :=
  {| tr_runId := "r1"; tr_plannerVertexId := "v4"; tr_taskInput := [("order", VStr "o1")]; tr_workflowType := "orders"; tr_goal := "ship it"; tr_evidence := None; tr_attempt := None |}.

Lemma sample_answer_read : readProposal (fun _ => "") sample_answer = Ok sample_proposal_read.
Proof. vm_compute. reflexivity. Qed.

Lemma readProposal_sound_witness : well_formed sample_proposal_read.
Proof. apply (readProposal_sound (fun _ => "") sample_answer). vm_compute. reflexivity. Defined.

Lemma readProposal_roundtrip_witness :
  readProposal (fun _ => "") sample_answer = Ok sample_proposal_read /\ readProposal (fun _ => "") (fence sample_answer) = Ok sample_proposal_read.
Proof.
  apply (readProposal_roundtrip (fun _ => "") sample_proposal_read sample_answer).
  - apply (readProposal_well_formed (fun _ => "") sample_answer). apply sample_answer_read.
  - intros sc Hsc. apply list_elem_of_singleton in Hsc as ->. done.
  - intros v tool input key confirmed Hv Hk. assert (forall x, x ∈ rp_vertices sample_proposal_read -> match sv_kind x with
      SubmittedTool _ (Some i) _ _ => distinct_keys (VObj i) = true /\ Text.normal (VObj i) = VObj i | _ => True end) as H.
    { apply Forall_forall. repeat constructor. }
    specialize (H v Hv). by rewrite Hk in H.
  - vm_compute. reflexivity.
Defined.

Lemma proposal_normalizes_witness :
  is_ok (normalizeWorkflow (turnSubmission sample_request sample_proposal_read)) = true /\
  ((forall v, v ∈ rp_vertices sample_proposal_read -> "" ∉ parents v) /\
   (forall v, v ∈ rp_vertices sample_proposal_read -> kind_of v = k_planner -> parents v <> [] -> routerId v ∉ map sv_id (rp_vertices sample_proposal_read))).
Proof.
  split; [vm_compute; reflexivity|].
  apply (proposal_normalizes (fun _ => "") sample_answer sample_proposal_read sample_request); vm_compute; reflexivity.
Defined.

(** An answer whose vertex names the empty parent is read, and then cannot be submitted. *)
Lemma empty_parent_read :
  exists p, readBody (VObj [("vertices", VArr [VObj [("id", VStr "a"); ("kind", VStr "planner"); ("parents", strings [""])]])]) = Ok p /\
  is_ok (normalizeWorkflow (turnSubmission sample_request p)) = false.
Proof. eexists. split; [vm_compute; reflexivity|]. vm_compute. done. Qed.
