(* ===== verification/PlannerFacts.v ===== *)
(** * Planner turns: what they leave in the log

    The trajectory of one thought call and of one planner turn, on success and on every error path,
    and what a recorded failure may not contain. *)

From S2P Require Import Prelude Collections Number Json JsonParse JsText Events Graph Fork Projection Scopes Llm CheckRules ToolView Gateway RuleTemplate Workflow WorkflowFacts Store StoreFacts Submission Planner ProposalFacts.

(** ** Redaction *)
Lemma redact_removes secrets message s :
  (forall x, x ∈ secrets -> redactable x = true) -> s ∈ secrets -> occurs s (redact secrets message) = false.
Proof.
  unfold redact. intros Hall. revert message. induction secrets as [|x secrets IH]; intros message Hs; [by apply elem_of_nil in Hs|]. cbn [fold_left].
  assert (x <> "") as Hx by (apply redactable_nonempty, Hall; left). rewrite (proj2 (eqb_false x "")) by done.
  assert (forall y, y ∈ secrets -> redactable y = true) as Htail by (intros; apply Hall; by right).
  destruct (decide (s ∈ secrets)) as [Hin|Hout]; [by apply IH|]. apply elem_of_cons in Hs as [->|Hs]; [|done].
  assert (redactable x = true) as Hr by (apply Hall; left). pose proof (replaceAll_removes x Hr message) as H0. revert H0.
  generalize (replaceAll x REDACTED message). clear IH Hall Hout. induction secrets as [|y secrets IH]; intros m Hm; [done|]. cbn [fold_left].
  assert (y <> "") as Hy by (apply redactable_nonempty, Htail; left). rewrite (proj2 (eqb_false y "")) by done.
  apply IH; [intros; apply Htail; by right|]. by apply replaceAll_keeps.
Qed.

Section Executions.
Variable sha256 : string -> string.
Variable parseUrl : string -> result Url.
Variable href : Url -> string.
Context {db : Type} `{!Database db} `{!DatabaseLaws db}.
Variable validateSchema : EventDraft -> bool.
Variable schemaErrors : EventDraft -> string.
Variable config : LlmProviderConfig.
Variable llmCall : list LlmMessage -> completion LlmCallResult.

(** A row holding a draft, at whatever position. *)
Definition holds (run : string) (e : EventDraft) (row : StoredEvent) : Prop := exists n, stored_as run n e row.

(** The streams after an append: the run's grew by rows holding the drafts, no other moved. *)
Definition extended (d : db) (run : string) (rows : list StoredEvent) (d' : db) : Prop :=
  select_stream d' run = select_stream d run ++ rows /\ forall other, other <> run -> select_stream d' other = select_stream d other.

Lemma extended_refl d run : extended d run [] d.
Proof. split; [by rewrite app_nil_r|done]. Qed.

Lemma extended_trans d run rows d1 rows' d2 : extended d run rows d1 -> extended d1 run rows' d2 -> extended d run (rows ++ rows') d2.
Proof. intros [H1 O1] [H2 O2]. split; [by rewrite H2, H1, <- (assoc (++))|]. intros other Hne. by rewrite O2, O1. Qed.

Lemma appendC_rows d run events r (d' : db) :
  appendC validateSchema schemaErrors d run events = (r, d') ->
  match r with Normal _ => exists rows, Forall2 (holds run) events rows /\ extended d run rows d' | Abrupt _ => d' = d end.
Proof.
  unfold appendC. destruct (appendEvents _ _ d run events) as [r0 d0] eqn:E. apply appendEvents_recorded in E.
  destruct r0 as [seqs|]; cbn [of_result]; intros [= <- <-]; [|done]. destruct E as [(n & rows & _ & -> & _ & HF & Hst & Ho) _].
  exists rows. split; [|split; [done|intros other Hne; by apply Ho]].
  clear -HF. unfold positions in HF. generalize dependent rows. generalize 0%nat. induction events as [|e events IH]; intros k rows HF; cbn [length seq map combine] in HF.
  - inversion HF; constructor.
  - inversion HF as [|? row ? rows' Hrow Hrest]; subst. constructor; [by eexists|]. by apply (IH (S k)).
Qed.

Lemma appendC_one d run e r (d' : db) :
  appendC validateSchema schemaErrors d run [e] = (r, d') ->
  match r with Normal _ => exists row, holds run e row /\ extended d run [row] d' | Abrupt _ => d' = d end.
Proof.
  intros H. apply appendC_rows in H. destruct r; [|done]. destruct H as (rows & HF & He).
  inversion HF as [|? row ? rest Hrow Hrest]; subst. inversion Hrest; subst. eauto.
Qed.

Lemma thoughtCall_spec d run planner messages r (d' : db) :
  thoughtCall sha256 parseUrl href validateSchema schemaErrors config llmCall d run planner messages = (r, d') ->
  match r with
  | Normal (result, dg) => llmCall messages = Normal result /\ dg = Planner.digest sha256 (VStr (cr_content result)) /\ exists endpoint charged succeeded,
      publicEndpoint parseUrl href (lc_endpoint config) = Ok endpoint /\ extended d run [charged; succeeded] d' /\
      holds run (chargedDraft config planner endpoint result) charged /\ holds run (succeededDraft planner dg result) succeeded
  | Abrupt _ => d' = d
  end.
Proof.
  unfold thoughtCall. destruct (llmCall messages) as [result|e]; [|by intros [= <- <-]].
  destruct (publicEndpoint parseUrl href (lc_endpoint config)) as [endpoint|e] eqn:Ee; cbn [of_result raise]; [|by intros [= <- <-]].
  destruct (appendC _ _ d run _) as [r1 d1] eqn:E. apply appendC_rows in E. destruct r1; intros [= <- <-]; [|done].
  split; [done|]. split; [done|]. destruct E as (rows & HF & He). inversion HF as [|? charged ? rest Hc Hrest]; subst. inversion Hrest as [|? succeeded ? rest' Hs Hrest']; subst. inversion Hrest'; subst.
  exists endpoint, charged, succeeded. done.
Qed.

(** What one execution leaves: nothing, a start, a start and a failure, or the whole success. *)
Definition execution (d : db) (run planner : string) (messages : list LlmMessage) (r : completion PlannerExecutionResult) (d' : db) : Prop :=
  match r with
  | Normal x => llmCall messages = Normal (pe_result x) /\ exists endpoint started charged succeeded,
      extended d run [started; charged; succeeded] d' /\ holds run (startedDraft planner (pe_inputDigest x)) started /\
      holds run (chargedDraft config planner endpoint (pe_result x)) charged /\
      holds run (succeededDraft planner (pe_outputDigest x) (pe_result x)) succeeded
  | Abrupt e => d' = d \/ exists started, holds run (startedDraft planner (Planner.digest sha256 (VArr (map message_value messages)))) started /\
      (extended d run [started] d' \/ exists failed, extended d run [started; failed] d' /\ holds run (failedDraft config planner e) failed)
  end.

Lemma execute_execution d run planner messages r (d' : db) :
  execute sha256 parseUrl href validateSchema schemaErrors config llmCall d run planner messages = (r, d') -> execution d run planner messages r d'.
Proof.
  unfold execute. destruct (appendC _ _ d run _) as [r1 d1] eqn:E1. apply appendC_one in E1.
  destruct r1; [|intros [= <- <-]; by left]. destruct E1 as (started & Hst & He1).
  destruct (thoughtCall _ _ _ _ _ _ _ d1 run planner messages) as [r2 d2] eqn:E2. apply thoughtCall_spec in E2.
  destruct r2 as [[result dg]|error].
  - intros [= <- <-]. cbn. destruct E2 as (Hcall & _ & endpoint & charged & succeeded & _ & He2 & Hc & Hs). split; [done|].
    exists endpoint, started, charged, succeeded. split; [by apply (extended_trans _ _ [started] d1)|done].
  - subst d2. destruct (appendC _ _ d1 run _) as [r3 d3] eqn:E3. apply appendC_one in E3. destruct r3; intros [= <- <-]; right; exists started; (split; [done|]).
    + right. destruct E3 as (failed & Hf & He3). exists failed. split; [by apply (extended_trans _ _ [started] d1)|done].
    + left. by subst d3.
Qed.

(** A thought call has one trajectory. Executed to completion, it left [vertex/started],
    [budget/charged] and [vertex/succeeded] of its planner, in that order, and returns the model's own
    answer. If it throws, it left nothing, or a start without an end because the log refused the
    record, or a start and the [vertex/failed] that describes exactly the error it throws. There is
    never a second terminal event, and no other run is touched. *)
Theorem execute_trajectory d run planner messages r (d' : db) :
  execute sha256 parseUrl href validateSchema schemaErrors config llmCall d run planner messages = (r, d') -> execution d run planner messages r d'.
Proof. apply execute_execution. Qed.

(** C33. No secret reaches the log through a failure: when the key and the endpoint are texts that
    cannot overlap the redaction mark, the message of every [vertex/failed] an execution leaves
    contains neither of them, whatever error the provider, the transport or the log raised; of
    something thrown that is not an error only a fixed text is recorded. *)
Theorem failure_redacted d run planner messages r (d' : db) row failure :
  redactable (lc_apiKey config) = true -> redactable (lc_endpoint config) = true ->
  execute sha256 parseUrl href validateSchema schemaErrors config llmCall d run planner messages = (r, d') ->
  row ∈ drop (length (select_stream d run)) (select_stream d' run) -> event_type row = vertex_failed ->
  Js.field (payload row) "failure" = VObj failure ->
  exists message, Js.field failure "message" = VStr message /\
    (message = "LLM call failed" \/ occurs (lc_apiKey config) message = false /\ occurs (lc_endpoint config) message = false).
Proof.
  intros Hk Hu He Hrow Ht Hf. apply execute_execution in He.
  assert (forall rows, extended d run rows d' -> row ∈ rows) as Hin by (intros rows [Hs _]; by rewrite Hs, drop_app_length in Hrow).
  assert (forall e, holds run e row -> d_event_type e = vertex_failed /\ payload row = d_payload e) as Hholds.
  { intros e (n & _ & _ & Hty & _ & _ & _ & _ & _ & _ & _ & Hp). by rewrite <- Hty. }
  destruct r as [x|e].
  - destruct He as (_ & endpoint & started & charged & succeeded & He & Hs & Hc & Hsu). apply Hin in He. rewrite !elem_of_cons, elem_of_nil in He.
    destruct He as [->|[->|[->|[]]]]; [apply Hholds in Hs as [? _]|apply Hholds in Hc as [? _]|apply Hholds in Hsu as [? _]]; done.
  - destruct He as [->|(started & Hs & He)]; [by rewrite drop_all in Hrow; apply elem_of_nil in Hrow|].
    assert (row = started \/ exists failed, row = failed /\ holds run (failedDraft config planner e) failed) as [->|(failed & -> & Hfail)].
    { destruct He as [He|(failed & He & Hfl)]; apply Hin in He; rewrite !elem_of_cons, elem_of_nil in He; [destruct He as [->|[]]; by left|].
      destruct He as [->|[->|[]]]; [by left|right; eauto]. }
    + by apply Hholds in Hs as [? _].
    + apply Hholds in Hfail as [_ Hp]. rewrite Hp in Hf. unfold failedDraft in Hf. cbn [d_payload vertex_draft] in Hf.
      change (Js.field _ "failure") with (VObj (safeFailure e [lc_apiKey config; lc_endpoint config])) in Hf. injection Hf as <-.
      assert (forall x, x ∈ [lc_apiKey config; lc_endpoint config] -> redactable x = true) as Hall.
      { intros x. rewrite !elem_of_cons, elem_of_nil. by intros [->|[->|[]]]. }
      destruct e as [name message|]; eexists; (split; [reflexivity|]).
      * right. split; apply not_true_iff_false; intros Hocc; apply occurs_take in Hocc; try done; rewrite redact_removes in Hocc; try done; set_solver.
      * by left.
Qed.
End Executions.

(** ** Turns *)
Section Turns.
Context `{Collation}.
Variable sha256 : string -> string.
Variable parseUrl : string -> result Url.
Variable href : Url -> string.
Variable syntaxError : string -> string.
Variable templates : option TemplateResolver.
Context {db : Type} `{!Database db} `{!DatabaseLaws db}.
Variable validateSchema : EventDraft -> bool.
Variable schemaErrors : EventDraft -> string.
Variable actor : Actor.
Variable config : LlmProviderConfig.
Variable llmCall : list LlmMessage -> completion LlmCallResult.
Variable versions : Versions.

(** What a turn records after its call has succeeded. *)
Definition answered (request : PlannerTurnRequest) (turn : PlannerTurn) (rest : list StoredEvent) : Prop :=
  match turn with
  | turn_unreadable reason content => readProposal syntaxError content = Throw reason /\
      exists row, rest = [row] /\ holds (tr_runId request) (unreadableDraft sha256 (tr_plannerVertexId request) reason content) row
  | turn_frozen (SubmissionAccepted p f ids) content => is_ok (readProposal syntaxError content) = true /\ exists proposed frozen rows,
      rest = proposed :: frozen :: rows /\ event_type proposed = subgraph_proposed /\ run_seq proposed = p /\
      event_type frozen = subgraph_frozen /\ run_seq frozen = f /\ forall e, e ∈ rows -> event_type e = vertex_created
  | turn_rejected (SubmissionRejected p j stage vs) content => is_ok (readProposal syntaxError content) = true /\ exists proposed rejected,
      rest = [proposed; rejected] /\ event_type proposed = subgraph_proposed /\ run_seq proposed = p /\
      event_type rejected = subgraph_rejected /\ run_seq rejected = j
  | _ => False
  end.

Definition turn_content (turn : PlannerTurn) : string :=
  match turn with turn_frozen _ c | turn_rejected _ c | turn_unreadable _ c => c end.

Lemma settle_spec d request content discovered newId r (d' : db) :
  settle sha256 syntaxError templates validateSchema schemaErrors actor d request content discovered newId = (r, d') ->
  match r with
  | Normal turn => turn_content turn = content /\ exists rest, extended d (tr_runId request) rest d' /\ answered request turn rest
  | Abrupt _ => exists rest, extended d (tr_runId request) rest d' /\ (rest = [] \/ is_ok (readProposal syntaxError content) = true /\ exists proposed, rest = [proposed] /\ event_type proposed = subgraph_proposed)
  end.
Proof.
  unfold settle. destruct (readProposal syntaxError content) as [parsed|reason] eqn:Er.
  - destruct (submit _ _ _ _ _ d _ _ discovered newId) as [r1 d1] eqn:Es. apply submit_outcome_holds in Es; [|done]. destruct Es as [Ho Es].
    destruct r1 as [[p f ids|p j stage vs]|e]; intros [= <- <-].
    + destruct Es as (n & resolved & ctx & dx & proposed & frozen & rows & _ & _ & _ & _ & Hs & Hpt & Hps & Hft & Hfs & _ & Hrows & _).
      split; [done|]. exists (proposed :: frozen :: rows). split; [done|]. cbn. rewrite Er. split; [done|]. by exists proposed, frozen, rows.
    + destruct Es as (proposed & rejected & Hs & Hpt & Hps & Hrt & Hrs & _). split; [done|]. exists [proposed; rejected]. split; [done|]. cbn. rewrite Er.
      split; [done|]. by exists proposed, rejected.
    + destruct Es as [Hs|(proposed & Hpt & Hs)]; [exists []|exists [proposed]].
      * split; [split; [by rewrite app_nil_r|done]|by left].
      * split; [done|]. right. split; [done|]. eauto.
  - destruct (appendC _ _ d _ _) as [r1 d1] eqn:Ea. apply appendC_one in Ea. destruct r1; intros [= <- <-].
    + destruct Ea as (row & Hrow & He). split; [done|]. exists [row]. split; [done|]. split; [done|]. eauto.
    + subst d1. exists []. split; [apply extended_refl|by left].
Qed.

(** C9. A planner turn is always legible in the log. A turn that returns left its planner's
    [vertex/started], [budget/charged] and [vertex/succeeded], then the answer's fate: one
    [subgraph/unreadable] with the reader's reason when the answer cannot be read; the proposal and its
    rejection, or the proposal, its freeze and only [vertex/created] events when it can. The prompt was
    composed from the planner's own context and the content is the model's answer to it. A turn that
    throws left a prefix of such a trajectory, or a start and a failure; no other run is touched. *)
Theorem advance_trajectory d request view discovered newId r (d' : db) :
  advance sha256 parseUrl href syntaxError templates validateSchema schemaErrors actor config llmCall versions d request view discovered newId = (r, d') ->
  exists rows, extended d (tr_runId request) rows d' /\
  match r with
  | Normal turn => exists text result started charged succeeded rest,
      context sha256 versions d (tr_runId request) (tr_plannerVertexId request) = Ok text /\
      llmCall (compose text request view) = Normal result /\ turn_content turn = cr_content result /\
      rows = started :: charged :: succeeded :: rest /\
      map event_type [started; charged; succeeded] = [vertex_started; budget_charged; vertex_succeeded] /\
      (forall e, e ∈ [started; charged; succeeded] -> vertex_id e = truthy (Some (tr_plannerVertexId request))) /\ answered request turn rest
  | Abrupt _ => map event_type rows ∈
      [[]; [vertex_started]; [vertex_started; vertex_failed]; [vertex_started; budget_charged; vertex_succeeded];
       [vertex_started; budget_charged; vertex_succeeded; subgraph_proposed]]
  end.
Proof.
  unfold advance. destruct (context _ _ d _ _) as [text|e] eqn:Ec; [|intros [= <- <-]; exists []; split; [apply extended_refl|by left]].
  destruct (execute _ _ _ _ _ _ _ d _ _ _) as [r1 d1] eqn:Ee. apply execute_execution in Ee; [|done].
  assert (forall run e row, holds run e row -> event_type row = d_event_type e /\ vertex_id row = truthy (d_vertex_id e)) as Hholds.
  { by intros run e row (n & _ & _ & Ht & Hv & _). }
  destruct r1 as [x|e].
  - destruct Ee as (Hcall & endpoint & started & charged & succeeded & He & Hs & Hc & Hsu). apply Hholds in Hs as [Hs Hsv], Hc as [Hc Hcv], Hsu as [Hsu Hsuv].
    intros Hset. apply settle_spec in Hset. destruct r as [turn|e].
    + destruct Hset as (Hcontent & rest & Hrest & Hans). exists (started :: charged :: succeeded :: rest).
      split; [by apply (extended_trans _ _ [started; charged; succeeded] d1)|].
      exists text, (pe_result x), started, charged, succeeded, rest. split_and!; try done.
      * cbn [map]. by rewrite Hs, Hc, Hsu.
      * intros e. rewrite !elem_of_cons, elem_of_nil. intros [->|[->|[->|[]]]]; done.
    + destruct Hset as (rest & Hrest & Hshape). exists (started :: charged :: succeeded :: rest).
      split; [by apply (extended_trans _ _ [started; charged; succeeded] d1)|]. cbn [map]. rewrite Hs, Hc, Hsu.
      destruct Hshape as [->|(_ & proposed & -> & Hp)]; cbn [map]; [|rewrite Hp]; set_solver.
  - intros [= <- <-]. destruct Ee as [->|(started & Hs & [He|(failed & He & Hf)])].
    + exists []. split; [apply extended_refl|left].
    + exists [started]. split; [done|]. apply Hholds in Hs as [Hs _]. cbn [map]. rewrite Hs. set_solver.
    + exists [started; failed]. split; [done|]. apply Hholds in Hs as [Hs _], Hf as [Hf _]. cbn [map]. rewrite Hs, Hf. set_solver.
Qed.
End Turns.

(** ** Concrete turns *)
Definition sample_config : LlmProviderConfig :=
  {| lc_provider := "acme"; lc_protocol := anthropic_messages; lc_endpoint := "https://llm.example/"; lc_apiKey := "k-123"; lc_model := "m1";
     lc_timeoutMs := Num.of_Z 2500; lc_maxOutputTokens := None; lc_requestOptions := None; lc_additionalHeaders := None; lc_pricing := None |}.

Definition answering (answer : string) (_ : LlmHttpRequest) : completion LlmHttpResponse :=
  Normal {| hp_ok := true; hp_status := 200; hp_json := Normal
    {| pr_id := Some "x"; pr_model := None; pr_choices := None; pr_content := Some [{| part_type := Some "text"; part_text := Some answer |}];
       pr_stop_reason := None; pr_usage := None; pr_error := None |} |}.

Definition leaking (_ : LlmHttpRequest) : completion LlmHttpResponse :=
  Abrupt (JsError "TypeError" "POST https://llm.example/ refused key k-123").

Definition sample_llm (fetch : LlmHttpRequest -> completion LlmHttpResponse) : list LlmMessage -> completion LlmCallResult :=
  Llm.call sample_config fetch (Num.of_Z 12).

Definition turn_answer : string :=
  match Text.canonicalize (proposal_value
    {| rp_vertices := [{| sv_id := "find"; sv_parents := Some []; sv_scope := None; sv_kind := SubmittedTool "look" (Some [("order", VStr "o1")]) None None |};
                       {| sv_id := "next"; sv_parents := Some ["find"]; sv_scope := None; sv_kind := SubmittedPlanner None |}];
       rp_scopes := [] |}) with Ok t => t | Throw _ => "" end.

Definition sample_execute (fetch : LlmHttpRequest -> completion LlmHttpResponse) : completion PlannerExecutionResult * MemoryDb.Mem :=
  execute sample_hash sample_url sample_href any_schema no_errors sample_config (sample_llm fetch) sample_db "r1" "v4" [{| lm_role := role_user; lm_content := "go" |}].

Lemma execute_trajectory_witness :
  new_events (snd (sample_execute (answering "done"))) = [vertex_started; budget_charged; vertex_succeeded] /\
  execution sample_hash sample_config (sample_llm (answering "done")) sample_db "r1" "v4" [{| lm_role := role_user; lm_content := "go" |}]
    (fst (sample_execute (answering "done"))) (snd (sample_execute (answering "done"))).
Proof.
  split; [vm_compute; reflexivity|].
  apply (execute_trajectory sample_hash sample_url sample_href any_schema no_errors sample_config (sample_llm (answering "done")) sample_db "r1" "v4").
  apply surjective_pairing.
Defined.

Definition leaked_rows : list StoredEvent := drop 7 (select_stream (snd (sample_execute leaking)) "r1").
Definition leaked_row : StoredEvent := default (sample_event 0 run_start None [] None []) (last leaked_rows).
Definition leaked_failure : object := [("error_type", VStr "TypeError"); ("message", VStr "POST [redacted] refused key [redacted]")].

Lemma failure_redacted_witness :
  Js.field (payload leaked_row) "failure" = VObj leaked_failure /\
  exists message, Js.field leaked_failure "message" = VStr message /\
    (message = "LLM call failed" \/ occurs (lc_apiKey sample_config) message = false /\ occurs (lc_endpoint sample_config) message = false).
Proof.
  split; [vm_compute; reflexivity|].
  apply (failure_redacted sample_hash sample_url sample_href any_schema no_errors sample_config (sample_llm leaking) sample_db "r1" "v4"
    [{| lm_role := role_user; lm_content := "go" |}] (fst (sample_execute leaking)) (snd (sample_execute leaking)) leaked_row leaked_failure);
    try (vm_compute; reflexivity).
  change (drop _ _) with leaked_rows. assert (exists a, leaked_rows = [a; leaked_row]) as [a ->] by (eexists; vm_compute; reflexivity). right. left.
Defined.

Definition sample_versions : Versions := {| projector_version := "p1"; harness_state_version := "h1" |}.
Definition sample_advance (answer : string) : completion PlannerTurn * MemoryDb.Mem :=
  advance (H := code_unit_collation) sample_hash sample_url sample_href (fun _ => "Unexpected token") None any_schema no_errors engine sample_config
    (sample_llm (answering answer)) sample_versions sample_db sample_request sample_view (Ok sample_view) sample_newId.

Lemma advance_trajectory_witness :
  new_events (snd (sample_advance turn_answer)) =
    [vertex_started; budget_charged; vertex_succeeded; subgraph_proposed; subgraph_frozen; vertex_created; vertex_created; vertex_created] /\
  new_events (snd (sample_advance "no")) = [vertex_started; budget_charged; vertex_succeeded; subgraph_unreadable] /\
  exists rows, extended sample_db "r1" rows (snd (sample_advance turn_answer)) /\ length rows = 8%nat.
Proof.
  split; [vm_compute; reflexivity|]. split; [vm_compute; reflexivity|].
  destruct (advance_trajectory (H := code_unit_collation) sample_hash sample_url sample_href (fun _ => "Unexpected token") None any_schema no_errors engine sample_config
    (sample_llm (answering turn_answer)) sample_versions sample_db sample_request sample_view (Ok sample_view) sample_newId
    (fst (sample_advance turn_answer)) (snd (sample_advance turn_answer))) as (rows & He & _).
  - unfold sample_advance. apply surjective_pairing.
  - exists rows. split; [exact He|]. destruct He as [Hs _]. apply (f_equal length) in Hs. rewrite length_app in Hs.
    assert (length (select_stream (snd (sample_advance turn_answer)) (tr_runId sample_request)) = 15%nat) as Hl by (vm_compute; reflexivity).
    assert (length (select_stream sample_db (tr_runId sample_request)) = 7%nat) as Hd by (vm_compute; reflexivity). rewrite Hl, Hd in Hs. lia.
Defined.
