(* ===== verification/Router.v ===== *)
(** * Deterministic routers (engine/src/router/router.ts, engine/src/router/router-executor.ts)

    The evaluation of a pinned template over the summary fields its upstream tools reported: one
    comparison, a condition in disjunctive form, the first branch that matches, and the vertex that
    executes it. Text is Latin-1, so the line terminators are LF and CR; facts are JSON, so a member
    is an own property. *)

From S2P Require Import Prelude Collections Number Json Events Graph Fork Scopes CheckRules ToolView Gateway RuleTemplate Workflow Store Submission.

(** The summary fields of the upstream tools, by tool type. *)
Abbreviation RouterFacts := (list (string * object)).

Inductive RouterOutcome : Type :=
| matched (branch : nat) (cond : string) (dag : SubDagProposal)
| no_match
| evaluation_error (reason : string)
| proposal_rejected (vs : list CheckViolation).

(** ** The comparison pattern *)
Definition line_end (a : ascii) : bool := (a ==? ascii_of_nat 10) || (a ==? ascii_of_nat 13).

(** The last character of a text that is not a line terminator. *)
Fixpoint last_inline (s : string) : option ascii :=
  match s with
  | "" => None
  | String a s => match last_inline s with Some b => Some b | None => if line_end a then None else Some a end
  end.

(** [\s*(.+?)\s*$] after an operator: the text without its surrounding space, on one line; of a text
    that is all space, the last character the dot can match. *)
Definition literal_of (s : string) : option string :=
  match Num.trim_right (Pattern.skip_space s) with
  | "" => (fun a => String a "") <$> last_inline s
  | core => if all_chars (fun a => negb (line_end a)) core then Some core else None
  end.

(** The operators in the order the alternation tries them. *)
Definition OPERATORS : list string := ["=="; "!="; "<="; ">="; "<"; ">"].

Fixpoint operator_at (ops : list string) (s : string) : option (string * string) :=
  match ops with
  | [] => None
  | op :: ops =>
      match Pattern.prefix_of op s with
      | Some rest => match literal_of rest with Some l => Some (op, l) | None => operator_at ops s end
      | None => operator_at ops s
      end
  end.

(** [COMPARISON.exec(clause)]: tool, path, operator and literal. A shorter name leaves the same text
    after its path or none, so the longest one with a path decides. *)
Definition COMPARISON (clause : string) : option (string * string * string * string) :=
  match Pattern.reference_at (Pattern.skip_space clause) with
  | Some (toolId, path, rest) =>
      (fun ol => (toolId, path, fst ol, snd ol)) <$> operator_at OPERATORS (Pattern.skip_space rest)
  | None => None
  end.

(** ** Reading facts *)

(** A member of an object, an element or the length of an array. *)
Definition member_of (current : value) (segment : string) : value :=
  match current with
  | VObj o => Js.field o segment
  | VArr l => if segment ==? "length" then VNum (Num.of_Z (Z.of_nat (length l)))
              else match find (fun i => nstr i ==? segment) (seq 0 (length l)) with Some i => default VUndef (l !! i) | None => VUndef end
  | _ => VUndef
  end.

Definition readPath (facts : object) (path : string) : value :=
  if Js.has_field facts path then Js.field facts path
  else fold_left member_of (Js.split_char "."%char path) (VObj facts).

(** [/^".*"$/] and [/^'.*'$/] *)
Definition quoted (q : ascii) (s : string) : bool :=
  match s with
  | String a s' => (a ==? q) && (Pattern.last_char None s' ==? Some q) && all_chars (fun a => negb (line_end a)) s
  | "" => false
  end.

Definition parseLiteral (text : string) : result value :=
  if quoted (ascii_of_nat 34) text || quoted (ascii_of_nat 39) text then Ok (VStr (take_str (String.length text - 2) (drop_str 1 text)))
  else if text ==? "true" then Ok (VBool true)
  else if text ==? "false" then Ok (VBool false)
  else if text ==? "null" then Ok VNull
  else if negb (Num.is_nan (Num.of_string text)) && (Num.trim text !=? "") then Ok (VNum (Num.of_string text))
  else Throw ("unsupported literal " +:+ text).

Definition compare (left : value) (operator : string) (right : value) : result bool :=
  if operator ==? "==" then Ok (Js.strict_eq left right)
  else if operator ==? "!=" then Ok (negb (Js.strict_eq left right))
  else match left, right with
       | VNum a, VNum b =>
           Ok (if operator ==? "<" then Num.lt a b else if operator ==? "<=" then Num.le a b
               else if operator ==? ">" then Num.lt b a else Num.le b a)
       | _, _ => Throw ("operator " +:+ operator +:+ " requires numbers, got " +:+ Js.typeof left +:+ " and " +:+ Js.typeof right)
       end.

Definition evaluateComparison (clause : string) (facts : RouterFacts) : result bool :=
  match COMPARISON clause with
  | None => Throw ("cannot parse condition clause " +:+ Text.dquote +:+ Num.trim clause +:+ Text.dquote)
  | Some (toolId, path, operator, literal) =>
      match JMap.get facts toolId with
      | None => Throw ("condition reads " +:+ toolId +:+ ", which produced no summary fields upstream")
      | Some produced =>
          match readPath produced path with
          | VUndef => Throw (toolId +:+ " did not report the summary field " +:+ path)
          | v => r ← parseLiteral literal; compare v operator r
          end
      end
  end.

(** ** Conditions *)

(** [s.split(cc)] for a doubled character. *)
Fixpoint split_pair (c : ascii) (s : string) : list string :=
  match s with
  | "" => [""]
  | String a s' =>
      match s' with
      | String b s'' =>
          if (a ==? c) && (b ==? c) then "" :: split_pair c s''
          else match split_pair c s' with w :: ws => String a w :: ws | [] => [String a ""] end
      | "" => [String a ""]
      end
  end.

(** [xs.every(f)] and [xs.some(f)] where [f] may throw. *)
Fixpoint everyR {A} (f : A -> result bool) (l : list A) : result bool :=
  match l with [] => Ok true | x :: l => b ← f x; if b : bool then everyR f l else Ok false end.
Fixpoint someR {A} (f : A -> result bool) (l : list A) : result bool :=
  match l with [] => Ok false | x :: l => b ← f x; if b : bool then Ok true else someR f l end.

Definition evaluateCondition (cond : string) (facts : RouterFacts) : result bool :=
  someR (fun disjunct => everyR (fun clause => evaluateComparison clause facts) (split_pair "&"%char disjunct)) (split_pair "|"%char cond).

(** The branch loop of [evaluateRouter]. *)
Fixpoint firstMatch (index : nat) (branches : list BranchTraits) (facts : RouterFacts) : RouterOutcome :=
  match branches with
  | [] => no_match
  | b :: branches =>
      match evaluateCondition (ab_condition b) facts with
      | Throw e => evaluation_error e
      | Ok true => matched index (ab_condition b) (ab_subDag b)
      | Ok false => firstMatch (S index) branches facts
      end
  end.

Definition evaluateRouter (template : option PublishedRuleTemplate) (facts : RouterFacts) : RouterOutcome :=
  match template with None => no_match | Some t => firstMatch 0 (pt_branches t) facts end.

(** ** The router vertex *)
Definition summaryFacts (events : list StoredEvent) (parentRefs : list string) : RouterFacts :=
  let toolOf := fold_left (fun m e => match vid e, truthy (pstr e "tool") with
      | Some v, Some tool => if is_type vertex_created e && JSet.has (JSet.of_list parentRefs) v then JMap.set m v tool else m
      | _, _ => m end) events [] in
  fold_left (fun facts e => match vid e with
    | Some v => if is_type vertex_succeeded e then
                  match JMap.get toolOf v with
                  | Some tool => match Js.as_object (pfield e "log_fields") with Some lifted => JMap.set facts tool lifted | None => facts end
                  | None => facts end
                else facts
    | None => facts end) events [].

Definition toSubmittedVertex (v : ProposalVertex) : SubmittedVertex :=
  {| sv_id := pv_id v; sv_parents := Some (pv_parents v); sv_scope := truthy (pv_scopeId v);
     sv_kind := match pv_kind v with
                | k_tool => SubmittedTool (default "" (pv_tool v)) None None None
                | k_router => SubmittedRouter None
                | k_planner => SubmittedPlanner None
                | k_barrier => SubmittedBarrier
                end |}.

Definition branchSubmission (routerVertexId : string) (branch : nat) (dag : SubDagProposal) : WorkflowSubmission :=
  {| submissionId := routerVertexId +:+ ":branch-" +:+ nstr branch; w_vertices := map toSubmittedVertex (p_vertices dag);
     w_scopes := Some (p_scopes dag); workflowType := None; attachTo := Some [routerVertexId]; source := Some src_router |}.

(** [bind]: the recorded pin first, then the two mutable lookups. *)
Definition bind (store : RuleTemplateStore) (created : StoredEvent) : option PublishedRuleTemplate :=
  match truthy (pin_version created) with
  | Some pin => resolve store pin
  | None => match truthy (pstr created "template_ref") with
            | Some r => resolve store r
            | None => match truthy (pstr created "slot_id") with Some s => resolveSlot store s | None => None end
            end
  end.

Record RouterEvaluation : Type := { re_outcome : RouterOutcome; re_emitted : option (list (string * string)) }.

Section Execute.
Variable sha256 : string -> string.
Variable templates : RuleTemplateStore.
Context {db : Type} `{!Database db}.
Variable validateSchema : EventDraft -> bool.
Variable schemaErrors : EventDraft -> string.
Variable actor : Actor.

Definition storeResolver : TemplateResolver := {| tr_resolve := resolve templates; tr_resolveSlot := resolveSlot templates |}.

Definition terminalDraft (routerVertexId : string) (outcome : RouterOutcome) : EventDraft :=
  match outcome with
  | evaluation_error reason => vertex_draft vertex_failed routerVertexId [("outcome", VStr "evaluation_error"); ("reason", VStr reason)]
  | no_match => vertex_draft vertex_succeeded routerVertexId [("matched_condition", VNull)]
  | proposal_rejected vs => vertex_draft vertex_failed routerVertexId [("outcome", VStr "proposal_rejected"); ("violations", VArr (map violation_value vs))]
  | matched branch cond _ => vertex_draft vertex_succeeded routerVertexId [("matched_condition", VStr cond); ("branch", VNum (Num.of_Z (Z.of_nat branch)))]
  end.

(** Appends the terminal event and returns the outcome. *)
Definition finish (d : db) (runId routerVertexId : string) (outcome : RouterOutcome) (emitted : option (list (string * string)))
    : result RouterEvaluation * db :=
  let '(r, d') := appendEvents validateSchema schemaErrors d runId [terminalDraft routerVertexId outcome] in
  (_ ← r; Ok {| re_outcome := outcome; re_emitted := emitted |}, d').

(** [evaluate]; [view] and [newId] are what the submitter's discovery answers and allocates. *)
Definition evaluate (d : db) (runId routerVertexId : string) (view : result ResolvedToolView) (newId : nat -> string)
    : result RouterEvaluation * db :=
  let events := readStream d runId None in
  match find (fun e => is_type vertex_created e && names_vertex routerVertexId e) events with
  | None => (Throw ("run " +:+ runId +:+ " has no vertex/created for router " +:+ routerVertexId), d)
  | Some created =>
      let template := bind templates created in
      let facts := summaryFacts events (parent_refs created) in
      match appendEvents validateSchema schemaErrors d runId
              [vertex_draft vertex_started routerVertexId [("attempt", VNum (Num.of_Z 1)); ("execution", VStr "router")]] with
      | (Throw e, d1) => (Throw e, d1)
      | (Ok _, d1) =>
          match evaluateRouter template facts with
          | matched branch cond dag =>
              match submit sha256 (Some storeResolver) validateSchema schemaErrors actor d1 runId (branchSubmission routerVertexId branch dag) view newId with
              | (Throw e, d2) => (Throw e, d2)
              | (Ok (SubmissionRejected _ _ _ vs), d2) => finish d2 runId routerVertexId (proposal_rejected vs) None
              | (Ok (SubmissionAccepted _ _ ids), d2) => finish d2 runId routerVertexId (matched branch cond dag) (Some ids)
              end
          | outcome => finish d1 runId routerVertexId outcome None
          end
      end
  end.
End Execute.

Example COMPARISON_reads :
  COMPARISON "  order.lookup.output.risk_score  <= 30 " = Some ("order.lookup", "risk_score", "<=", "30") /\
  COMPARISON "a.output.b.output. == 'x y'" = Some ("a", "b.output.", "==", "'x y'") /\
  COMPARISON "a.output.b <=" = Some ("a", "b", "<", "=") /\ COMPARISON "ready" = None.
Proof. vm_compute. done. Qed.
