(* ===== verification/RouterProofs.v ===== *)
(** * Facts about routers

    The evaluator takes the first branch whose condition holds and never turns an undecidable
    condition into a silent miss; every field a condition reads at run time was checked when its
    template was published; a router vertex starts before it ends, and ends once. *)

From S2P Require Import Prelude Collections Number Json JsonParse Events Graph Fork Scopes CheckRules ToolView Gateway RuleTemplate RuleTemplateFacts Workflow WorkflowFacts Store StoreFacts Submission Router.

(** ** First match *)
Definition falsified (facts : RouterFacts) (b : BranchTraits) : Prop := evaluateCondition (ab_condition b) facts = Ok false.

Lemma firstMatch_spec n bs facts :
  match firstMatch n bs facts with
  | no_match => Forall (falsified facts) bs
  | matched i cond dag => exists pre b post, bs = pre ++ b :: post /\ i = (n + length pre)%nat /\ Forall (falsified facts) pre /\
      evaluateCondition (ab_condition b) facts = Ok true /\ cond = ab_condition b /\ dag = ab_subDag b
  | evaluation_error e => exists pre b post, bs = pre ++ b :: post /\ Forall (falsified facts) pre /\
      evaluateCondition (ab_condition b) facts = Throw e
  | proposal_rejected _ => False
  end.
Proof.
  revert n; induction bs as [|b bs IH]; intros n; cbn [firstMatch]; [constructor|].
  destruct (evaluateCondition (ab_condition b) facts) as [[]|e] eqn:E.
  - exists [], b, bs. split_and!; [done|cbn; lia|constructor|done|done|done].
  - specialize (IH (S n)). destruct (firstMatch (S n) bs facts).
    + destruct IH as (pre & b' & post & -> & -> & Hpre & ? & ? & ?). exists (b :: pre), b', post.
      split_and!; [done|cbn; lia|by constructor|done|done|done].
    + by constructor.
    + destruct IH as (pre & b' & post & -> & Hpre & ?). exists (b :: pre), b', post. split_and!; [done|by constructor|done].
    + done.
  - exists [], b, bs. split_and!; [done|constructor|done].
Qed.

(** A router decides by first match and by nothing else: it takes a branch exactly when that
    branch's condition holds and every earlier condition was decided false; it falls through exactly
    when every condition was decided false (or no template is bound); and a condition that cannot be
    decided, met before any match, is an evaluation error rather than a miss. *)
Theorem evaluateRouter_first_match t facts :
  evaluateRouter None facts = no_match /\
  (evaluateRouter (Some t) facts = no_match <-> forall b, b ∈ pt_branches t -> evaluateCondition (ab_condition b) facts = Ok false) /\
  (forall i cond dag, evaluateRouter (Some t) facts = matched i cond dag <->
     exists b, pt_branches t !! i = Some b /\ evaluateCondition (ab_condition b) facts = Ok true /\ cond = ab_condition b /\ dag = ab_subDag b /\
       forall j b', (j < i)%nat -> pt_branches t !! j = Some b' -> evaluateCondition (ab_condition b') facts = Ok false) /\
  (forall e, evaluateRouter (Some t) facts = evaluation_error e <->
     exists i b, pt_branches t !! i = Some b /\ evaluateCondition (ab_condition b) facts = Throw e /\
       forall j b', (j < i)%nat -> pt_branches t !! j = Some b' -> evaluateCondition (ab_condition b') facts = Ok false).
Proof.
  split; [done|]. cbn [evaluateRouter]. pose proof (firstMatch_spec 0 (pt_branches t) facts) as Hs.
  assert (forall pre b post, pt_branches t = pre ++ b :: post -> Forall (falsified facts) pre ->
    pt_branches t !! length pre = Some b /\
    forall j b', (j < length pre)%nat -> pt_branches t !! j = Some b' -> evaluateCondition (ab_condition b') facts = Ok false) as Hpos.
  { intros pre b post -> Hpre. split; [by apply list_lookup_middle|]. intros j b' Hj Hb'. rewrite lookup_app_l in Hb' by done.
    rewrite Forall_lookup in Hpre. by apply (Hpre j b'). }
  assert (forall i j b c, pt_branches t !! i = Some b -> pt_branches t !! j = Some c ->
    evaluateCondition (ab_condition b) facts <> Ok false -> evaluateCondition (ab_condition c) facts <> Ok false ->
    (forall k x, (k < i)%nat -> pt_branches t !! k = Some x -> evaluateCondition (ab_condition x) facts = Ok false) ->
    (forall k x, (k < j)%nat -> pt_branches t !! k = Some x -> evaluateCondition (ab_condition x) facts = Ok false) -> i = j) as Huniq.
  { intros i j b c Hb Hc Hnb Hnc Hi Hj. destruct (Nat.lt_trichotomy i j) as [Hlt|[->|Hlt]]; [|done|]; exfalso; eauto. }
  destruct (firstMatch 0 (pt_branches t) facts) as [i cond dag| |e|vs]; [| | |done].
  - destruct Hs as (pre & b & post & Heq & -> & Hpre & Hb & -> & ->). destruct (Hpos _ _ _ Heq Hpre) as [Hat Hbefore]. cbn [Nat.add].
    split_and!.
    + split; [done|]. intros Hall. rewrite Hall in Hb; [done|]. rewrite Heq. apply elem_of_app. right. left.
    + intros i c d. split; [intros [= <- <- <-]; eauto 10|]. intros (b' & Hb' & Ht & -> & -> & Hi).
      assert (i = length pre) as -> by (eapply Huniq; eauto; congruence). congruence.
    + intros e. split; [done|]. intros (i & b' & Hb' & Ht & Hi). exfalso.
      assert (i = length pre) as -> by (eapply Huniq; eauto; congruence). congruence.
  - rewrite Forall_forall in Hs. split_and!; [done| |].
    + intros i c d. split; [done|]. intros (b & Hb & Ht & _). apply list_elem_of_lookup_2 in Hb. rewrite (Hs b Hb) in Ht. done.
    + intros e. split; [done|]. intros (i & b & Hb & Ht & _). apply list_elem_of_lookup_2 in Hb. rewrite (Hs b Hb) in Ht. done.
  - destruct Hs as (pre & b & post & Heq & Hpre & Hb). destruct (Hpos _ _ _ Heq Hpre) as [Hat Hbefore]. split_and!.
    + split; [done|]. intros Hall. rewrite Hall in Hb; [done|]. rewrite Heq. apply elem_of_app. right. left.
    + intros i c d. split; [done|]. intros (b' & Hb' & Ht & _ & _ & Hi). exfalso.
      assert (i = length pre) as -> by (eapply Huniq; eauto; congruence). congruence.
    + intros e'. split; [intros [= <-]; eauto 10|]. intros (i & b' & Hb' & Ht & Hi).
      assert (i = length pre) as -> by (eapply Huniq; eauto; congruence). congruence.
Qed.

(** ** Text *)
Lemma sapp_split u rest pre body :
  u +:+ rest = pre +:+ body -> (exists x, pre = u +:+ x /\ rest = x +:+ body) \/ (exists a x, u = pre +:+ String a x).
Proof.
  revert pre; induction u as [|c u IH]; intros pre H.
  - left. exists pre. by rewrite sapp_nil in H.
  - destruct pre as [|d pre].
    + right. by exists c, u.
    + rewrite !sapp_cons in H. injection H as -> H. destruct (IH pre H) as [(x & -> & ->)|(a & x & ->)]; [left; by exists x|right; by exists a, x].
Qed.

Lemma last_char_app prev s t : Pattern.last_char prev (s +:+ t) = Pattern.last_char (Pattern.last_char prev s) t.
Proof. revert prev; induction s as [|a s IH]; intros prev; [done|]. rewrite sapp_cons. cbn. apply IH. Qed.

Lemma last_char_all p s a : all_chars p s = true -> Pattern.last_char None s = Some a -> p a = true.
Proof.
  enough (forall prev, all_chars p s = true -> (forall b, prev = Some b -> p b = true) -> Pattern.last_char prev s = Some a -> p a = true) as H
    by (intros; by eapply (H None)).
  induction s as [|b s IH]; cbn; intros prev Hall Hprev Hl; [by apply Hprev|]. bool_prop.
  eapply IH; [done| |exact Hl]. by intros ? [= <-].
Qed.

(** [p] fails at the first character of [s], or there is none. *)
Definition stops (p : ascii -> bool) (s : string) : Prop := match s with "" => True | String a _ => p a = false end.

Lemma span_app p s t : stops p t -> Pattern.span p (s +:+ t) = (fst (Pattern.span p s), snd (Pattern.span p s) +:+ t).
Proof.
  intros Ht. induction s as [|a s IH]; [destruct t as [|b t]; [done|]; rewrite sapp_nil; cbn [Pattern.span]; cbn in Ht; by rewrite Ht|].
  rewrite sapp_cons. cbn [Pattern.span]. destruct (p a); [|done]. rewrite IH. by destruct (Pattern.span p s).
Qed.

Lemma span_spec p s : fst (Pattern.span p s) +:+ snd (Pattern.span p s) = s /\ all_chars p (fst (Pattern.span p s)) = true.
Proof.
  induction s as [|a s IH]; [done|]. cbn [Pattern.span]. destruct (p a) eqn:E; [|done].
  destruct (Pattern.span p s) as [x r]. cbn [fst snd] in *. destruct IH as [<- H]. split; [done|]. cbn. by rewrite E.
Qed.

Lemma drop_app_le k s t : (k <= String.length s)%nat -> drop_str k (s +:+ t) = drop_str k s +:+ t.
Proof. revert s; induction k as [|k IH]; intros [|a s] H; cbn in H; try done; [lia|]. rewrite sapp_cons. apply IH. lia. Qed.

Lemma take_app_le k s t : (k <= String.length s)%nat -> take_str k (s +:+ t) = take_str k s.
Proof. revert s; induction k as [|k IH]; intros [|a s] H; cbn in H; try done; [lia|]. rewrite sapp_cons. cbn. f_equal. apply IH. lia. Qed.

Lemma take_drop_str k s : take_str k s +:+ drop_str k s = s.
Proof. revert s; induction k as [|k IH]; intros [|a s]; try done. cbn [take_str drop_str]. rewrite sapp_cons. by rewrite IH. Qed.

Lemma starts_with_app_stop q u t p :
  stops p t -> all_chars p q = true -> starts_with q (u +:+ t) = starts_with q u.
Proof.
  revert u; induction q as [|a q IH]; intros u Ht Hq; [by destruct u|]. cbn in Hq. bool_prop. destruct u as [|b u].
  - destruct t as [|c t]; [done|]. rewrite sapp_nil. cbn [starts_with]. cbn in Ht. case_eqb; [congruence|done].
  - rewrite sapp_cons. cbn. by rewrite IH.
Qed.

(** ** What a reference match consumes *)

(** The attempt at one name length. *)
Definition reference_here (k : nat) (s : string) : option (string * string * string) :=
  let '(path, rest) := Pattern.span Pattern.path_char (drop_str 8 (drop_str k s)) in
  if starts_with ".output." (drop_str k s) && (path !=? "") then Some (take_str k s, path, rest) else None.

Lemma reference_from_step k s :
  Pattern.reference_from k s =
  match reference_here k s with
  | Some r => Some r
  | None => match k with O | S O => None | S k' => Pattern.reference_from k' s end
  end.
Proof.
  unfold reference_here. destruct k as [|k]; cbn [Pattern.reference_from];
    destruct (Pattern.span _ _) as [x r]; by destruct (_ && _).
Qed.

Definition extend (t : string) (r : string * string * string) : string * string * string :=
  let '(name, path, rest) := r in (name, path, rest +:+ t).

Lemma path_stops t : stops Pattern.name_char t -> stops Pattern.path_char t.
Proof.
  destruct t as [|a t]; [done|]. cbn. unfold Pattern.name_char, Pattern.path_char. by destruct (Pattern.word a), (a ==? "."%char).
Qed.

Lemma reference_here_app k s t :
  stops Pattern.name_char t -> (k <= String.length s)%nat -> reference_here k (s +:+ t) = extend t <$> reference_here k s.
Proof.
  intros Ht Hk. unfold reference_here. rewrite (drop_app_le k s t Hk), (take_app_le k s t Hk).
  rewrite (starts_with_app_stop ".output." _ t Pattern.name_char) by done. destruct (starts_with ".output." (drop_str k s)) eqn:Es.
  - assert (8 <= String.length (drop_str k s))%nat as H8 by (apply starts_with_prefix in Es as [r ->]; rewrite sapp_length; cbn; lia).
    rewrite (drop_app_le 8 _ t H8), (span_app _ _ t (path_stops t Ht)). destruct (Pattern.span _ _) as [path rest]. cbn [fst snd andb].
    by destruct (path !=? "").
  - destruct (Pattern.span Pattern.path_char (drop_str 8 (drop_str k s +:+ t))) as [? ?], (Pattern.span Pattern.path_char (drop_str 8 (drop_str k s))) as [? ?]. done.
Qed.

Lemma reference_from_app k s t :
  stops Pattern.name_char t -> (k <= String.length s)%nat -> Pattern.reference_from k (s +:+ t) = extend t <$> Pattern.reference_from k s.
Proof.
  intros Ht. induction k as [|k IH]; intros Hk; rewrite (reference_from_step _ (s +:+ t)), (reference_from_step _ s), reference_here_app by done;
    destruct (reference_here _ s); cbn [fmap option_fmap option_map]; try done.
  destruct k; [done|]. apply IH. lia.
Qed.

Lemma reference_at_app s t r name path :
  stops Pattern.name_char t -> Pattern.reference_at s = Some (name, path, r) -> Pattern.reference_at (s +:+ t) = Some (name, path, r +:+ t).
Proof.
  intros Ht. destruct s as [|a s]; [done|]. rewrite sapp_cons. cbn [Pattern.reference_at]. destruct (Pattern.head a); [|done].
  rewrite (span_app Pattern.name_char s t Ht). cbn [fst]. intros H.
  rewrite <- sapp_cons, reference_from_app; [by rewrite H|done|].
  cbn [String.length]. destruct (span_spec Pattern.name_char s) as [Heq _]. apply (f_equal String.length) in Heq. rewrite sapp_length in Heq. lia.
Qed.

Lemma path_name_chars x : all_chars Pattern.path_char x = true -> all_chars Pattern.name_char x = true.
Proof.
  induction x as [|a x IH]; [done|]. cbn. intros H. bool_prop. rewrite IH by done. rewrite andb_true_r.
  unfold Pattern.name_char, Pattern.path_char in *. by destruct (Pattern.word a), (a ==? "."%char).
Qed.

Lemma take_all_chars p k j s : (j <= k)%nat -> all_chars p (take_str k s) = true -> all_chars p (take_str j s) = true.
Proof.
  revert j s; induction k as [|k IH]; intros [|j] s Hj H; try done; [lia|]. destruct s as [|a s]; [done|]. cbn in *. bool_prop.
  rewrite H. cbn. apply IH; [lia|done].
Qed.

(** A match is a non-empty text of name characters. *)
Lemma reference_here_shape k s name path rest :
  all_chars Pattern.name_char (take_str k s) = true -> reference_here k s = Some (name, path, rest) ->
  exists u, s = u +:+ rest /\ all_chars Pattern.name_char u = true /\ u <> "".
Proof.
  intros Hall. unfold reference_here. pose proof (span_spec Pattern.path_char (drop_str 8 (drop_str k s))) as [Hsp Hap].
  destruct (Pattern.span _ _) as [x r]. cbn [fst snd] in *. destruct (starts_with ".output." (drop_str k s)) eqn:Es; [|done].
  cbn [andb]. destruct (x !=? ""); [|done]. intros [= <- <- <-]. apply starts_with_prefix in Es as [r' Er].
  rewrite Er in Hsp. change 8%nat with (String.length ".output.") in Hsp. rewrite drop_str_app in Hsp. subst r'.
  exists (take_str k s +:+ ".output." +:+ x). split; [rewrite !sapp_assoc, <- Er; by rewrite take_drop_str|].
  split; [rewrite !all_chars_app, Hall; cbn [andb]; by apply path_name_chars|].
  intros Hnil. apply (f_equal String.length) in Hnil. rewrite !sapp_length in Hnil. cbn in Hnil. lia.
Qed.

Lemma reference_from_shape k s name path rest :
  all_chars Pattern.name_char (take_str k s) = true -> Pattern.reference_from k s = Some (name, path, rest) ->
  exists u, s = u +:+ rest /\ all_chars Pattern.name_char u = true /\ u <> "".
Proof.
  induction k as [|k IH]; intros Hall H; rewrite reference_from_step in H; (destruct (reference_here _ s) as [r|] eqn:E; [injection H as ->|]).
  - by eapply reference_here_shape.
  - done.
  - by eapply reference_here_shape.
  - destruct k as [|k]; [done|]. apply IH; [|done]. eapply (take_all_chars _ (S (S k))); [lia|done].
Qed.

Lemma span_take p s : take_str (String.length (fst (Pattern.span p s))) s = fst (Pattern.span p s).
Proof. destruct (span_spec p s) as [H _]. rewrite <- H at 2. rewrite take_app_le by done. clear H. generalize (fst (Pattern.span p s)). intros u. induction u as [|a u IH]; cbn; [done|by rewrite IH]. Qed.

Lemma reference_at_shape s name path rest :
  Pattern.reference_at s = Some (name, path, rest) -> exists u, s = u +:+ rest /\ all_chars Pattern.name_char u = true /\ u <> "".
Proof.
  destruct s as [|a s]; [done|]. cbn [Pattern.reference_at]. destruct (Pattern.head a) eqn:Eh; [|done]. apply reference_from_shape.
  cbn [take_str all_chars]. rewrite span_take. destruct (span_spec Pattern.name_char s) as [_ ->]. rewrite andb_true_r.
  unfold Pattern.head in Eh. unfold Pattern.name_char, Pattern.word. by destruct (Pattern.lower a), (Pattern.upper a), (a ==? "_"%char), (Pattern.digit a).
Qed.

(** ** The scan meets every reference that starts a word *)

(** The text before a position does not end in a name character. *)
Definition clear_before (pre : string) : Prop := match Pattern.last_char None pre with Some a => Pattern.name_char a = false | None => True end.

Lemma last_char_cons prev a s : Pattern.last_char prev (String a s) <> None.
Proof. revert prev a; induction s as [|b s IH]; intros prev a; [done|]. exact (IH (Some a) b). Qed.

Lemma clear_before_tail a pre : clear_before (String a pre) -> clear_before pre.
Proof. unfold clear_before. destruct pre as [|b pre]; [done|]. done. Qed.

Lemma clear_before_app u x : u +:+ x <> "" -> x <> "" -> clear_before (u +:+ x) -> clear_before x.
Proof.
  intros _ Hx. unfold clear_before. rewrite last_char_app. destruct x as [|a x]; [done|]. done.
Qed.

Lemma references_complete fuel pre body name path rest :
  (String.length (pre +:+ body) <= fuel)%nat -> clear_before pre ->
  Pattern.reference_at body = Some (name, path, rest) -> (name, path) ∈ Pattern.references fuel (pre +:+ body).
Proof.
  revert pre; induction fuel as [|fuel IH]; intros pre Hlen Hpre Hbody.
  { destruct body as [|a body]; [done|]. rewrite sapp_length in Hlen. cbn in Hlen. lia. }
  destruct pre as [|c pre].
  - rewrite sapp_nil. destruct body as [|a body]; [done|]. cbn [Pattern.references]. rewrite Hbody. left.
  - rewrite sapp_cons in *. cbn [Pattern.references]. cbn [String.length] in Hlen.
    destruct (Pattern.reference_at (String c (pre +:+ body))) as [[[n0 p0] r0]|] eqn:E.
    + apply reference_at_shape in E as (u & Hu & Hall & Hne). right. rewrite <- sapp_cons in Hu. symmetry in Hu.
      apply sapp_split in Hu as [(x & Hx & ->)|(a & x & ->)].
      * assert (x <> "") as Hxne.
        { intros ->. rewrite sapp_empty in Hx. subst u. unfold clear_before in Hpre.
          destruct (Pattern.last_char None (String c pre)) as [b|] eqn:El; [|by destruct (last_char_cons None c pre)].
          rewrite (last_char_all Pattern.name_char _ b Hall El) in Hpre. done. }
        apply IH; [|rewrite Hx in Hpre; by eapply clear_before_app; [rewrite <- Hx| |]|done].
        assert (0 < String.length u)%nat by (destruct u; [done|cbn; lia]).
        apply (f_equal String.length) in Hx. rewrite sapp_length in Hx. cbn [String.length] in Hx. rewrite sapp_length in *. lia.
      * exfalso. rewrite all_chars_app in Hall. bool_prop. unfold clear_before in Hpre.
        destruct (Pattern.last_char None (String c pre)) as [b|] eqn:El; [|by destruct (last_char_cons None c pre)].
        match goal with Hc : all_chars _ (String c pre) = true |- _ => rewrite (last_char_all Pattern.name_char _ b Hc El) in Hpre end. done.
    + apply IH; [lia|by eapply clear_before_tail|done].
Qed.

(** ** Pieces of a split text *)
Definition bounded_by (p : ascii -> bool) (pre post : string) : Prop :=
  match Pattern.last_char None pre with Some a => p a = true | None => True end /\ match post with "" => True | String a _ => p a = true end.

Lemma split_pair_eq c a b s :
  split_pair c (String a (String b s)) =
  if (a ==? c) && (b ==? c) then "" :: split_pair c s
  else match split_pair c (String b s) with w :: ws => String a w :: ws | [] => [String a ""] end.
Proof. reflexivity. Qed.

Lemma split_pair_cons c s :
  exists w ws, split_pair c s = w :: ws /\
    ((ws = [] /\ s = w) \/ exists rest, s = w +:+ String c (String c rest) /\ ws = split_pair c rest /\ (String.length rest < String.length s)%nat).
Proof.
  enough (forall n s, (String.length s <= n)%nat -> exists w ws, split_pair c s = w :: ws /\
    ((ws = [] /\ s = w) \/ exists rest, s = w +:+ String c (String c rest) /\ ws = split_pair c rest /\ (String.length rest < String.length s)%nat)) as H
    by (by apply (H (String.length s))).
  clear s. induction n as [|n IH]; intros s Hn.
  { destruct s; [|cbn in Hn; lia]. exists "", []. split; [done|by left]. }
  destruct s as [|a [|b s]]; [exists "", []; split; [done|by left]|exists (String a ""), []; split; [done|by left]|].
  rewrite split_pair_eq. destruct ((a ==? c) && (b ==? c)) eqn:E.
  - bool_prop. subst a b. exists "", (split_pair c s). split; [done|]. right. exists s. cbn. split_and!; [done|done|lia].
  - destruct (IH (String b s)) as (w & ws & -> & Hcase); [cbn in *; lia|].
    exists (String a w), ws. split; [done|]. destruct Hcase as [[-> <-]|(rest & Heq & Hws & Hlen)]; [by left|]. right. exists rest.
    rewrite sapp_cons, <- Heq. split_and!; [done|done|cbn in *; lia].
Qed.

Lemma split_pair_pieces c s w :
  w ∈ split_pair c s -> exists pre post, s = pre +:+ w +:+ post /\ bounded_by (fun a => a ==? c) pre post.
Proof.
  enough (forall n s, (String.length s <= n)%nat -> w ∈ split_pair c s ->
    exists pre post, s = pre +:+ w +:+ post /\ bounded_by (fun a => a ==? c) pre post) as H by (by apply (H (String.length s))).
  clear s. induction n as [|n IH]; intros s Hn Hw; destruct (split_pair_cons c s) as (w0 & ws & Hs & Hcase); rewrite Hs in Hw;
    (destruct Hcase as [[-> ->]|(rest & Heq & -> & Hlen)]; [apply list_elem_of_singleton in Hw as ->; exists "", ""; by rewrite sapp_nil, sapp_empty|]);
    [lia|].
  apply elem_of_cons in Hw as [->|Hw].
  - exists "", (String c (String c rest)). split; [done|]. split; [done|]. cbn. apply eqb_refl.
  - destruct (IH rest) as (pre & post & Hrest & Hpre & Hpost); [lia|done|]. exists (w0 +:+ String c (String c pre)), post.
    split; [rewrite Heq, Hrest, sapp_assoc; done|]. split; [|done]. rewrite last_char_app. cbn [Pattern.last_char].
    destruct pre as [|d pre]; [cbn; apply eqb_refl|]. exact Hpre.
Qed.

(** A separator is not a character of a reference. *)
Lemma bounded_clear c pre post :
  Pattern.name_char c = false -> bounded_by (fun a => a ==? c) pre post -> clear_before pre /\ stops Pattern.name_char post.
Proof.
  intros Hc [Hpre Hpost]. unfold clear_before, stops. split.
  - destruct (Pattern.last_char None pre); [|done]. bool_prop. by subst.
  - destruct post; [done|]. bool_prop. by subst.
Qed.

Lemma skip_space_split s : exists ws, s = ws +:+ Pattern.skip_space s /\ all_chars Num.is_space ws = true.
Proof.
  induction s as [|a s IH]; [by exists ""|]. cbn [Pattern.skip_space]. destruct (Num.is_space a) eqn:E; [|by exists ""].
  destruct IH as (ws & Heq & Hall). exists (String a ws). rewrite sapp_cons, <- Heq. split; [done|]. cbn [all_chars]. by rewrite E.
Qed.

Lemma space_not_name a : Num.is_space a = true -> Pattern.name_char a = false.
Proof. destruct a as [[] [] [] [] [] [] [] []]; vm_compute; done. Qed.

Lemma clear_before_glue pre ws :
  clear_before pre -> (forall a, Pattern.last_char None ws = Some a -> Pattern.name_char a = false) -> clear_before (pre +:+ ws).
Proof.
  intros Hpre Hws. unfold clear_before in *. rewrite last_char_app. destruct ws as [|a ws]; [exact Hpre|].
  change (Pattern.last_char (Pattern.last_char None pre) (String a ws)) with (Pattern.last_char None (String a ws)).
  destruct (Pattern.last_char None (String a ws)) as [b|] eqn:E; [by apply Hws|done].
Qed.

Lemma stops_glue a b : stops Pattern.name_char a -> stops Pattern.name_char b -> stops Pattern.name_char (a +:+ b).
Proof. by destruct a. Qed.

(** Publication saw every field the evaluator will read: whatever clause of a published template's
    condition the evaluator parses as a comparison of a tool's summary field, that tool is in the
    published view and declares that field as a log field. So a decision never needs a blob, and an
    evaluation error can only come from a field that was not reported or a literal, never from an
    undeclared one. *)
Lemma evaluator_reads_declared resolved draft b disjunct clause tool path op literal :
  publishable resolved draft -> b ∈ branches draft ->
  disjunct ∈ split_pair "|"%char (condition b) -> clause ∈ split_pair "&"%char disjunct ->
  COMPARISON clause = Some (tool, path, op, literal) ->
  ToolRegistry.has (rv_registry resolved) tool = true /\ exists fields, logFieldsOf resolved tool = Some fields /\ path ∈ fields.
Proof.
  intros (_ & _ & Hwf & _) Hb Hd Hc Hcmp. destruct (Hwf b Hb) as (_ & _ & Href & _). apply Href. clear Href Hwf.
  unfold COMPARISON in Hcmp. destruct (Pattern.reference_at (Pattern.skip_space clause)) as [[[t p] rest]|] eqn:Er; [|done].
  destruct (operator_at _ _) as [[o l]|]; [|done]. injection Hcmp as -> -> _ _.
  apply split_pair_pieces in Hd as (pre1 & post1 & Hcond & H1). apply split_pair_pieces in Hc as (pre2 & post2 & Hdis & H2).
  apply bounded_clear in H1 as [Hp1 Hs1]; [|done]. apply bounded_clear in H2 as [Hp2 Hs2]; [|done].
  destruct (skip_space_split clause) as (ws & Hclause & Hws).
  assert (condition b = (pre1 +:+ (pre2 +:+ ws)) +:+ (Pattern.skip_space clause +:+ (post2 +:+ post1))) as Heq.
  { rewrite Hcond, Hdis. rewrite Hclause at 1. by rewrite !sapp_assoc. }
  unfold Pattern.FIELD_REFERENCE. rewrite Heq. eapply references_complete; [done| |].
  - apply clear_before_glue; [done|]. intros a Ha. destruct ws as [|x ws]; [rewrite sapp_empty in Ha|].
    + unfold clear_before in Hp2. by rewrite Ha in Hp2.
    + rewrite last_char_app in Ha. apply space_not_name. by apply (last_char_all Num.is_space (String x ws)).
  - apply reference_at_app; [by apply stops_glue|exact Er].
Qed.

(** C36. What publication admits, and what that is worth to the evaluator. A draft is admitted exactly when
    it has a branch, repeats no condition, declares no fallback, holds no impure token in a condition,
    every reference the scan finds in a condition names a declared log field of a published tool, every
    tool it calls is published and every branch passes the proposal rules on its own; what is published is
    the draft's own content with derived traits, pinned by its digest. Of an admitted template every
    clause the evaluator can read as a comparison is over a declared log field, so no decision reads a
    blob. A condition need not be a comparison to be admitted: one without any reference is, and its
    evaluation is then an error. *)
Theorem publishRuleTemplate_correct sha256 resolved draft :
  (forall t, publishRuleTemplate sha256 draft resolved = Ok (PublicationAdmitted t) <->
     publishable resolved draft /\
     t = {| pt_templateRef := templateRef draft; pt_digest := digestOfTemplate sha256 draft; pt_author := author draft;
            pt_branches := traits_of resolved draft; pt_capability := capabilityOf (traits_of resolved draft);
            pt_slotId := truthy (slotId draft) |}) /\
  (forall t b disjunct clause tool path op literal, publishRuleTemplate sha256 draft resolved = Ok (PublicationAdmitted t) ->
     b ∈ branches draft -> disjunct ∈ split_pair "|"%char (condition b) -> clause ∈ split_pair "&"%char disjunct ->
     COMPARISON clause = Some (tool, path, op, literal) ->
     ToolRegistry.has (rv_registry resolved) tool = true /\ exists fields, logFieldsOf resolved tool = Some fields /\ path ∈ fields).
Proof.
  split; [intros t; apply publishRuleTemplate_admits|]. intros t b disjunct clause tool path op literal Ht.
  apply publishRuleTemplate_admits in Ht as [Hp _]. by apply evaluator_reads_declared.
Qed.

(** ** The trajectory of a router vertex *)
Section Trajectory.
Variable sha256 : string -> string.
Variable templates : RuleTemplateStore.
Context {db : Type} `{!Database db} `{!DatabaseLaws db}.
Variable validateSchema : EventDraft -> bool.
Variable schemaErrors : EventDraft -> string.
Variable actor : Actor.

(** *** What a router decides with

    The rule: the template its recorded pin names; without a pin the one it refers to, and without
    either the one bound to its slot. *)
Record bound (created : StoredEvent) (t : option PublishedRuleTemplate) : Prop := {
  bo_pin : forall pin, truthy (pin_version created) = Some pin -> t = resolve templates pin;
  bo_ref : forall r, truthy (pin_version created) = None -> truthy (pstr created "template_ref") = Some r -> t = resolve templates r;
  bo_slot : forall s, truthy (pin_version created) = None -> truthy (pstr created "template_ref") = None ->
    truthy (pstr created "slot_id") = Some s -> t = resolveSlot templates s;
  bo_none : truthy (pin_version created) = None -> truthy (pstr created "template_ref") = None -> truthy (pstr created "slot_id") = None -> t = None
}.

(** The tool a vertex was created to call. *)
Definition declared_tool (log : list StoredEvent) (v : string) : option string :=
  last (omap (fun e => if is_type vertex_created e && (vid e ==? Some v) then truthy (pstr e "tool") else None) log).

(** The fields a success of a parent that called [tool] lifted into the log. *)
Definition lifted (log : list StoredEvent) (parents : list string) (tool : string) (e : StoredEvent) : option object :=
  match vid e with
  | Some v => if is_type vertex_succeeded e && includes v parents && (declared_tool log v ==? Some tool) then Js.as_object (pfield e "log_fields") else None
  | None => None
  end.

(** The facts: for each tool, what the last such success lifted. *)
Definition facts_of (log : list StoredEvent) (parents : list string) (facts : RouterFacts) : Prop :=
  forall tool, JMap.get facts tool = last (omap (lifted log parents tool) log).

(** First match: earlier conditions were decided false, and one that cannot be decided is an error. *)
Inductive decides (facts : RouterFacts) : option PublishedRuleTemplate -> RouterOutcome -> Prop :=
| dc_unbound : decides facts None no_match
| dc_through t : Forall (falsified facts) (pt_branches t) -> decides facts (Some t) no_match
| dc_match t pre b post : pt_branches t = pre ++ b :: post -> Forall (falsified facts) pre -> evaluateCondition (ab_condition b) facts = Ok true ->
    decides facts (Some t) (matched (length pre) (ab_condition b) (ab_subDag b))
| dc_error t pre b post e : pt_branches t = pre ++ b :: post -> Forall (falsified facts) pre -> evaluateCondition (ab_condition b) facts = Throw e ->
    decides facts (Some t) (evaluation_error e).

(** One vertex of a branch, as it is submitted. *)
Record submitted_as (v : ProposalVertex) (s : SubmittedVertex) : Prop := {
  sa_id : sv_id s = pv_id v;
  sa_parents : sv_parents s = Some (pv_parents v);
  sa_scope : sv_scope s = truthy (pv_scopeId v);
  sa_kind : match pv_kind v with
            | k_tool => sv_kind s = SubmittedTool (default "" (pv_tool v)) None None None
            | k_router => sv_kind s = SubmittedRouter None
            | k_planner => sv_kind s = SubmittedPlanner None
            | k_barrier => sv_kind s = SubmittedBarrier
            end
}.

(** The workflow a branch is submitted as: its vertices and scopes below the router, decided by a rule. *)
Record branch_of (router : string) (i : nat) (dag : SubDagProposal) (w : WorkflowSubmission) : Prop := {
  bh_id : submissionId w = router +:+ ":branch-" +:+ nstr i;
  bh_vertices : Forall2 submitted_as (p_vertices dag) (w_vertices w);
  bh_scopes : w_scopes w = Some (p_scopes dag);
  bh_attached : attachTo w = Some [router];
  bh_source : source w = Some src_router
}.

(** A branch submitted to the run as [d1] holds it, with the submission's result and the events it appended. *)
Definition branch_submitted (d1 : db) (run router : string) (view : result ResolvedToolView) (i : nat) (dag : SubDagProposal)
    (r : SubmissionResult) (mid : list StoredEvent) : Prop :=
  exists w d2, branch_of router i dag w /\ submit_outcome sha256 (Some (storeResolver templates)) d1 run w view (Ok r) d2 /\
    select_stream d2 run = select_stream d1 run ++ mid.

(** What the log holds between the start and the end of a router, and how it ends, when [decided]
    was the evaluation and [outcome] what became of it. [d1] holds the start. *)
Inductive trajectory (d1 : db) (run router : string) (view : result ResolvedToolView) (terminal : StoredEvent) :
    RouterOutcome -> RouterOutcome -> list StoredEvent -> Prop :=
| tr_through :
    event_type terminal = vertex_succeeded -> payload terminal = [("matched_condition", VNull)] ->
    trajectory d1 run router view terminal no_match no_match []
| tr_error reason :
    event_type terminal = vertex_failed -> payload terminal = [("outcome", VStr "evaluation_error"); ("reason", VStr reason)] ->
    trajectory d1 run router view terminal (evaluation_error reason) (evaluation_error reason) []
| tr_matched i cond dag proposed frozen rows ids :
    branch_submitted d1 run router view i dag (SubmissionAccepted (run_seq proposed) (run_seq frozen) ids) (proposed :: frozen :: rows) ->
    event_type proposed = subgraph_proposed -> event_type frozen = subgraph_frozen -> (forall e, e ∈ rows -> event_type e = vertex_created) ->
    event_type terminal = vertex_succeeded ->
    payload terminal = [("matched_condition", VStr cond); ("branch", VNum (Num.of_Z (Z.of_nat i)))] ->
    trajectory d1 run router view terminal (matched i cond dag) (matched i cond dag) (proposed :: frozen :: rows)
| tr_refused i cond dag proposed rejected stage vs :
    branch_submitted d1 run router view i dag (SubmissionRejected (run_seq proposed) (run_seq rejected) stage vs) [proposed; rejected] ->
    event_type proposed = subgraph_proposed -> event_type rejected = subgraph_rejected ->
    event_type terminal = vertex_failed ->
    payload terminal = [("outcome", VStr "proposal_rejected"); ("violations", VArr (map violation_value vs))] ->
    trajectory d1 run router view terminal (matched i cond dag) (proposal_rejected vs) [proposed; rejected].

Lemma bind_bound created : bound created (bind templates created).
Proof. unfold bind. split; intros *; repeat case_match; congruence. Qed.

Lemma evaluateRouter_decides t facts : decides facts t (evaluateRouter t facts).
Proof.
  destruct t as [t|]; cbn [evaluateRouter]; [|constructor]. pose proof (firstMatch_spec 0 (pt_branches t) facts) as Hs.
  destruct (firstMatch 0 (pt_branches t) facts); [| | |done].
  - destruct Hs as (pre & b & post & Hb & -> & Hpre & Hc & -> & ->). by eapply dc_match.
  - by apply dc_through.
  - destruct Hs as (pre & b & post & Hb & Hpre & Hc). by eapply dc_error.
Qed.

Lemma branchSubmission_branch router i dag : branch_of router i dag (branchSubmission router i dag).
Proof.
  split; cbn [branchSubmission submissionId w_vertices w_scopes attachTo source]; try done.
  apply Forall2_fmap_r, Forall_Forall2_diag, Forall_true. intros v. split; try done. cbn [toSubmittedVertex sv_kind]. by destruct (pv_kind v).
Qed.

(** A map built event by event holds the last value written under a key. *)
Lemma fold_writes {V} (write : StoredEvent -> option (string * V)) log m k :
  JMap.get (fold_left (fun m e => match write e with Some (key, v) => JMap.set m key v | None => m end) log m) k =
  match last (omap (fun e => match write e with Some (key, v) => if key ==? k then Some v else None | None => None end) log) with
  | Some v => Some v
  | None => JMap.get m k
  end.
Proof.
  induction log as [|e log IH] using rev_ind; [done|]. rewrite fold_left_app, omap_app.
  assert (forall (f : StoredEvent -> option V), omap f [e] = match f e with Some v => [v] | None => [] end) as -> by (intros f; cbn; by destruct (f e)).
  cbn [fold_left]. destruct (write e) as [[key v]|]; [|by rewrite app_nil_r].
  rewrite get_set. destruct (key ==? k) eqn:Ek; [by rewrite last_snoc|by rewrite app_nil_r].
Qed.

(** Two folds whose steps agree. *)
Lemma fold_steps {A B} (f g : A -> B -> A) l a : (forall a b, f a b = g a b) -> fold_left f l a = fold_left g l a.
Proof. intros H. revert a; induction l as [|b l IH]; intros a; [done|]. cbn [fold_left]. by rewrite H. Qed.

Lemma omap_same {A B} (f g : A -> option B) (l : list A) : (forall a, f a = g a) -> omap f l = omap g l.
Proof. intros H. induction l as [|a l IH]; [done|]. cbn. by rewrite H, IH. Qed.

Lemma omap_none {A B} (f : A -> option B) (l : list A) : (forall a, f a = None) -> omap f l = [].
Proof. intros H. induction l as [|a l IH]; [done|]. cbn. by rewrite H, IH. Qed.

Definition tool_write (parents : list string) (e : StoredEvent) : option (string * string) :=
  match vid e, truthy (pstr e "tool") with
  | Some v, Some tool => if is_type vertex_created e && JSet.has (JSet.of_list parents) v then Some (v, tool) else None
  | _, _ => None
  end.

(** The tools [summaryFacts] keeps are the parents' declared ones. *)
Lemma tools_declared log parents v :
  JMap.get (fold_left (fun m e => match tool_write parents e with Some (key, v) => JMap.set m key v | None => m end) log []) v =
  if includes v parents then declared_tool log v else None.
Proof.
  rewrite fold_writes. cbn [JMap.get find]. unfold declared_tool. destruct (includes v parents) eqn:Ei.
  - rewrite (omap_same _ (fun e => if is_type vertex_created e && (vid e ==? Some v) then truthy (pstr e "tool") else None)); [by destruct (last _)|].
    intros e. unfold tool_write. destruct (vid e) as [w|]; [|by rewrite andb_false_r]. destruct (decide (w = v)) as [->|Hne].
    + rewrite (eqb_refl (Some v)), andb_true_r. apply includes_true in Ei. rewrite (proj2 (JSet_has_true _ _)) by (by apply elem_of_JSet_of_list).
      rewrite andb_true_r. destruct (truthy _); [|by destruct (is_type _ _)]. destruct (is_type _ _); [|done]. by rewrite eqb_refl.
    + rewrite (proj2 (eqb_false (Some w) (Some v))) by congruence. rewrite andb_false_r. destruct (truthy _); [|done]. destruct (_ && _); [|done].
      by rewrite (proj2 (eqb_false w v)).
  - rewrite omap_none; [done|]. intros e. unfold tool_write. destruct (vid e) as [w|]; [|done]. destruct (truthy _); [|done].
    destruct (_ && _) eqn:Ea; [|done]. apply andb_true_iff in Ea as [_ Hh]. destruct (w ==? v) eqn:Ew; [|done]. apply eqb_true in Ew as ->.
    apply JSet_has_true in Hh. rewrite elem_of_JSet_of_list in Hh. apply includes_true in Hh. by rewrite Hh in Ei.
Qed.

Lemma summaryFacts_facts log parents : facts_of log parents (summaryFacts log parents).
Proof.
  intros tool. unfold summaryFacts. cbv zeta.
  rewrite (fold_steps _ (fun m e => match tool_write parents e with Some (key, v) => JMap.set m key v | None => m end) log [])
    by (intros m e; unfold tool_write; by repeat case_match; simplify_eq).
  set (tools := fold_left (fun m e => match tool_write parents e with Some (key, v) => JMap.set m key v | None => m end) log []).
  set (write := fun e => match vid e with
    | Some v => if is_type vertex_succeeded e then match JMap.get tools v with Some t => pair t <$> Js.as_object (pfield e "log_fields") | None => None end else None
    | None => None end).
  match goal with |- JMap.get (fold_left ?f log ?m) _ = _ =>
    rewrite (fold_steps f (fun facts e => match write e with Some (key, v) => JMap.set facts key v | None => facts end) log m) end.
  2:{ intros m e. unfold write. destruct (vid e); [|done]; destruct (is_type _ e); [|done]; destruct (JMap.get tools _); [|done]; by destruct (Js.as_object _). }
  rewrite fold_writes. cbn [JMap.get find]. rewrite (omap_same _ (lifted log parents tool)); [by destruct (last _)|].
  intros e. unfold write, lifted. destruct (vid e) as [v|]; [|done]. destruct (is_type _ e); [|done]. unfold tools. rewrite tools_declared. cbn [andb].
  destruct (includes v parents); [|done]. destruct (declared_tool log v) as [t|]; [|done]. cbn [andb].
  assert ((Some t ==? Some tool) = (t ==? tool)) as -> by (destruct (decide (t = tool)) as [->|Hne]; [by rewrite !eqb_refl|rewrite !(proj2 (eqb_false _ _)); congruence]).
  destruct (Js.as_object _); [done|]. cbn. by destruct (t ==? tool).
Qed.

Lemma append_single d run e r (d' : db) :
  appendEvents validateSchema schemaErrors d run [e] = (r, d') ->
  match r with
  | Ok _ => exists n row, stored_as run n e row /\ select_stream d' run = select_stream d run ++ [row]
  | Throw _ => d' = d
  end.
Proof.
  intros H. apply appendEvents_recorded in H. destruct r as [seqs|]; [|done]. destruct H as [H _].
  apply recorded_one in H as (n & row & _ & _ & Hrow & Hst & _). eauto.
Qed.

Lemma finish_spec d run router outcome emitted ev (d' : db) :
  finish validateSchema schemaErrors d run router outcome emitted = (Ok ev, d') ->
  ev = {| re_outcome := outcome; re_emitted := emitted |} /\
  exists n terminal, stored_as run n (terminalDraft router outcome) terminal /\ select_stream d' run = select_stream d run ++ [terminal].
Proof.
  unfold finish. destruct (appendEvents _ _ d run _) as [r d1] eqn:E. apply append_single in E.
  destruct r as [seqs|]; cbn [mbind result_bind]; intros [= <- <-]. done.
Qed.

(** The terminal event names the router and carries the outcome. *)
Lemma terminal_shape run n router outcome terminal :
  stored_as run n (terminalDraft router outcome) terminal ->
  vertex_id terminal = truthy (Some router) /\
  event_type terminal = match outcome with evaluation_error _ | proposal_rejected _ => vertex_failed | _ => vertex_succeeded end /\
  payload terminal = match outcome with
    | no_match => [("matched_condition", VNull)]
    | matched i cond _ => [("matched_condition", VStr cond); ("branch", VNum (Num.of_Z (Z.of_nat i)))]
    | evaluation_error reason => [("outcome", VStr "evaluation_error"); ("reason", VStr reason)]
    | proposal_rejected vs => [("outcome", VStr "proposal_rejected"); ("violations", VArr (map violation_value vs))]
    end.
Proof. intros (_ & _ & Ht & Hv & _ & _ & _ & _ & _ & _ & Hp). rewrite Ht, Hv, Hp. by destruct outcome. Qed.

End Trajectory.

(** ** A router that matches *)
Definition routed_contract : ToolViewTool :=
  {| tool_id := "look"; tool_version := "1"; description := None; input_schema := []; output_schema := []; route_id := "r";
     adapter_protocol := "http"; adapter_operation := None;
     txn := {| effect_class := e_none; tvt_mode := m_plain; idempotency_key_path := None; idempotent_retryable := true;
               try_timeout_s := None; confirm_tool := None; cancel_tool := None; compensate_tool := None; status_tool := None;
               confirm_arguments := None; cancel_arguments := None; compensate_arguments := None |};
     compensation_style := "none"; footprint := ["stock"]; writes := []; timeout_ms := Num.of_Z 1000;
     retry_constraints := {| max_attempts := Num.of_Z 3; initial_backoff_ms := Num.of_Z 10; multiplier_milli := Num.of_Z 2000; max_backoff_ms := Num.of_Z 100 |};
     owner := "team"; allowed_roles := []; log_fields := Some ["qty"] |}.
Definition routed_view : ResolvedToolView :=
  {| rv_identity := {| tool_view_ref := "ref"; tool_view_digest := "d" |}; rv_document := {| tool_view_version := "1"; tools := [routed_contract] |};
     rv_registry := [("look", toolDefinition routed_contract)]; rv_authorizationIdentity := None |}.
Definition routed_branch : RuleBranch :=
  {| condition := "look.output.qty < 2 || look.output.qty >= 3 && look.output.qty != 9"; subDag := {| p_vertices := [sample_look]; p_scopes := [] |} |}.
Definition routed_draft : RuleTemplateDraft :=
  {| templateRef := "rule://dispatch@v1"; author := "ops"; slotId := None; branches := [routed_branch] |}.
Definition routed_store : RuleTemplateStore :=
  match publishRuleTemplate sample_hash routed_draft routed_view with Ok (PublicationAdmitted t) => index emptyStore routed_draft t | _ => emptyStore end.
Definition routed_db : MemoryDb.Mem :=
  {| MemoryDb.m_user := "engine_role"; MemoryDb.m_runs := [("r1", {| MemoryDb.mr_next_seq := 5; MemoryDb.mr_seed_floor := None; MemoryDb.mr_events :=
       [sample_event 1 run_start None [] None [];
        sample_event 2 vertex_created (Some "v1") [] None [("tool", VStr "look")];
        sample_event 3 vertex_succeeded (Some "v1") [] None [("log_fields", VObj [("qty", VNum (Num.of_Z 5))])];
        sample_event 4 vertex_created (Some "r") ["v1"] None [("template_ref", VStr "rule://dispatch@v1")]] |})];
     MemoryDb.m_scopes := []; MemoryDb.m_brackets := [] |}.

Lemma routed_publishable : publishable routed_view routed_draft.
Proof.
  pose proof (proj1 (structural_nil routed_view routed_draft) ltac:(vm_compute; reflexivity)) as (Hne & Hnd & Hwf).
  split; [exact Hne|]. split; [exact Hnd|]. split; [exact Hwf|].
  eapply (isolation_nil routed_view (branches routed_draft) 0 [[]]); vm_compute; reflexivity.
Qed.

Lemma publishRuleTemplate_witness :
  COMPARISON " look.output.qty != 9" = Some ("look", "qty", "!=", "9") /\
  exists fields, logFieldsOf routed_view "look" = Some fields /\ "qty" ∈ fields.
Proof.
  split; [vm_compute; reflexivity|]. destruct (publishRuleTemplate_correct sample_hash routed_view routed_draft) as [Hadm Hread].
  refine (proj2 (Hread _ routed_branch " look.output.qty >= 3 && look.output.qty != 9" " look.output.qty != 9" "look" "qty" "!=" "9"
    (proj2 (Hadm _) (conj routed_publishable eq_refl)) _ _ _ _)).
  - left.
  - vm_compute. right. left.
  - vm_compute. right. left.
  - vm_compute. reflexivity.
Defined.

(** A condition that is no comparison is published, and every evaluation of it is an error. *)
Definition bare_draft : RuleTemplateDraft :=
  {| templateRef := "rule://bare@v1"; author := "ops"; slotId := None;
     branches := [{| condition := "ready"; subDag := {| p_vertices := [sample_look]; p_scopes := [] |} |}] |}.

Example bare_condition_published :
  exists t, publishRuleTemplate sample_hash bare_draft routed_view = Ok (PublicationAdmitted t) /\
    forall facts, exists reason, evaluateRouter (Some t) facts = evaluation_error reason.
Proof. eexists. split; [vm_compute; reflexivity|]. intros facts. eexists. reflexivity. Qed.

