(* ===== verification/RecoveryLoop.v ===== *)
(** * The recovery loop (engine/src/recovery.ts, [RecoveryLoop])

    One recovery attempt over the store and the planner: the decision is made and appended while the
    run's scope rows are held, and the planner is called after that has committed. *)

From S2P Require Import Prelude Collections Number Json JsonParse JsText Events Graph Fork Projection Scopes Lineage Llm CheckRules ToolView Gateway RuleTemplate Workflow WorkflowFacts Store StoreFacts Submission Planner ProposalFacts PlannerFacts Recovery RecoveryFacts.

(** What a replanned turn needs that the log cannot supply. *)
Record RecoveryRequest : Type := {
  rr_runId : string;
  rr_taskInput : object;
  rr_workflowType : string;
  rr_goalFor : string -> string
}.

(** [{...evidence}] *)
Definition evidence_object (e : FailureEvidence) : object :=
  [("failed_vertex_id", VStr (fe_failed_vertex_id e)); ("tool", nullable (fe_tool e)); ("error_class", fe_error_class e); ("error", fe_error e);
   ("attempts", fe_attempts e); ("discarded_vertices", int (fe_discarded_vertices e)); ("cancelled_scopes", str_array (fe_cancelled_scopes e))].

Definition replanRequest (request : RecoveryRequest) (d : BoundaryDecision) (planner : string) (evidence : FailureEvidence) : PlannerTurnRequest :=
  {| tr_runId := rr_runId request; tr_plannerVertexId := planner; tr_taskInput := rr_taskInput request; tr_workflowType := rr_workflowType request;
     tr_goal := rr_goalFor request planner; tr_evidence := Some (evidence_object evidence); tr_attempt := Some (bd_episode d + 1) |}.

Section Loop.
Context `{Collation}.
Context {db : Type} `{!Database db}.
Variable validateSchema : EventDraft -> bool.
Variable schemaErrors : EventDraft -> string.
Variable actor : Actor.
Variable policy : RecoveryPolicy.
(** [planner.advance] *)
Variable advance : db -> PlannerTurnRequest -> completion PlannerTurn * db.

(** The callback under the lock: the drafts to append, and what its closure leaves in the caller's
    variables. *)
Definition decideUnderLock (view : ScopeLockedView) : result (option (list EventDraft) * (Attempt * list StoredEvent)) :=
  a ← attempt (slv_events view) policy (slv_scopes view);
  Ok (at_drafts a, (a, slv_events view)).

Definition recoverOne (d : db) (request : RecoveryRequest) : completion (RecoveryResult PlannerTurn) * db :=
  match appendUnderScopeLock validateSchema schemaErrors actor d (rr_runId request) decideUnderLock with
  | (Throw e, d1) => (raise e, d1)
  | (Ok (sequences, (a, events)), d1) =>
      match at_acted a with
      | None => (Normal (match at_waiting a with [] => idle | ws => awaiting_cancellation ws end), d1)
      | Some dec =>
          if bd_action dec ==? Recovery.request then (Normal (cancel_requested_result dec (sequences ≫= head)), d1) else
          match truthy (bd_selected dec) with
          | None => (Normal (escalated dec), d1)
          | Some planner =>
              let evidence := failureEvidence events (bd_failedVertexId dec) (bd_shadowed dec) (bd_cancelledScopes dec) in
              match advance d1 (replanRequest request dec planner evidence) with
              | (Abrupt e, d2) => (Abrupt e, d2)
              | (Normal turn, d2) => (Normal (replanned dec evidence turn), d2)
              end
          end
      end
  end.
End Loop.

(** ** What one recovery attempt does *)
Section LoopFacts.
Context `{Collation}.
Context {db : Type} `{!Database db} `{!DatabaseLaws db}.
Variable validateSchema : EventDraft -> bool.
Variable schemaErrors : EventDraft -> string.
Variable actor : Actor.
Variable policy : RecoveryPolicy.
Variable advance : db -> PlannerTurnRequest -> completion PlannerTurn * db.

(** The decision was made on the oldest outstanding failure that could act. *)
Definition acted_on (events : list StoredEvent) (locked : list LockedScope) (d : BoundaryDecision) (drafts : list EventDraft) : Prop :=
  exists skipped later, outstanding events = skipped ++ bd_failedVertexId d :: later /\
    (forall v, v ∈ skipped -> exists w, bd_action w = wait /\ decideRecovery events v policy (Some locked) = Ok (w, [])) /\
    decideRecovery events (bd_failedVertexId d) policy (Some locked) = Ok (d, drafts) /\ bd_action d <> wait.

Lemma decide_selectBoundary events v locked d drafts :
  decideRecovery events v policy locked = Ok (d, drafts) ->
  selectBoundary events v policy locked = Ok d /\ bd_failedVertexId d = v /\
  match bd_action d with
  | wait => drafts = []
  | Recovery.request => exists e, cancelRequestEvent d = Ok e /\ drafts = [e]
  | record => drafts = replanEvents d (failureEvidence events v (bd_shadowed d) (bd_cancelledScopes d))
  end.
Proof.
  unfold decideRecovery. intros Hd. apply bind_Ok in Hd as (d' & Hs & Hd). assert (d' = d) as ->.
  { destruct (bd_action d'); [|apply bind_Ok in Hd as (? & _ & Hd)|]; congruence. }
  split; [done|]. split; [by eapply selectBoundary_failed|]. destruct (bd_action d); [congruence| |congruence].
  apply bind_Ok in Hd as (e & He & Hd). injection Hd as <-. eauto.
Qed.

(** A row of the store holds its draft as the recovery reading needs it. *)
Lemma stored_reading run n e row :
  d_vertex_id e <> Some "" -> Store.stored_as run n e row -> RecoveryFacts.stored_as e row.
Proof.
  intros Hne (_ & _ & Ht & Hv & _ & _ & _ & _ & _ & _ & Hp). split; [done|]. split; [|done]. rewrite Hv.
  destruct (d_vertex_id e) as [[|]|]; done.
Qed.

Lemma recorded_reading d run events seqs (d' : db) :
  (forall e, e ∈ events -> d_vertex_id e <> Some "") -> recorded d run events seqs d' ->
  exists rows, Forall2 RecoveryFacts.stored_as events rows /\ extended d run rows d' /\ head seqs = run_seq <$> head rows.
Proof.
  intros Hne (n & rows & _ & -> & _ & HF & Hs & Ho). exists rows. split; [|split].
  - clear -HF Hne. unfold positions in HF. revert HF. generalize 0%nat. revert rows. induction events as [|e events IH]; intros rows k HF; cbn [length seq map combine] in HF.
    + inversion HF; constructor.
    + inversion HF as [|? row ? rows' Hrow Hrest]; subst. constructor; [eapply stored_reading; [apply Hne; left|exact Hrow]|].
      apply (IH ltac:(intros; apply Hne; by right) rows' (S k)). exact Hrest.
  - split; [done|]. intros other Hn. by apply Ho.
  - destruct events as [|e events]; [by inversion HF|]. cbn [length positions seq map combine] in HF. unfold positions in HF. cbn [length seq map combine] in HF.
    inversion HF as [|? row ? rows' Hrow Hrest]; subst. cbn. destruct Hrow as (_ & Hq & _). cbn in Hq. by rewrite Hq.
Qed.

Lemma replanEvents_vertices d ev e : e ∈ replanEvents d ev -> d_vertex_id e <> Some "".
Proof.
  unfold replanEvents. destruct (truthy (bd_selected d)) as [s|] eqn:Et; rewrite !elem_of_cons, elem_of_nil; [|by intros [->|[]]].
  apply truthy_Some in Et as [_ Hs]. intros [->|[->|[]]]; cbn; congruence.
Qed.

(** A stored boundary answers its failure. *)
Lemma boundary_answers dec p e row : d_event_type e = replan_boundary -> d_payload e = boundaryPayload dec p -> RecoveryFacts.stored_as e row ->
  answers_with (bd_failedVertexId dec) (bd_selected dec) row.
Proof. intros Ht Hp (Hrt & _ & Hrp). unfold answers_with, pstr, pfield. rewrite Hrt, Hrp, Ht, Hp. done. Qed.

(** The failures that wait, each with its decision. *)
Definition waits (events : list StoredEvent) (locked : list LockedScope) (v : string) (w : BoundaryDecision) : Prop :=
  bd_action w = wait /\ decideRecovery events v policy (Some locked) = Ok (w, []).

Lemma waits_named events locked skipped ws : Forall2 (waits events locked) skipped ws ->
  Forall2 (fun v w => bd_failedVertexId w = v /\ bd_action w = wait) skipped ws.
Proof. intros HF. eapply Forall2_impl; [exact HF|]. intros v w [Hw Hd]. split; [|done]. by apply decide_selectBoundary in Hd as (_ & ? & _). Qed.

Lemma waits_acted events locked skipped ws later dec drafts : Forall2 (waits events locked) skipped ws ->
  outstanding events = skipped ++ bd_failedVertexId dec :: later -> decideRecovery events (bd_failedVertexId dec) policy (Some locked) = Ok (dec, drafts) -> bd_action dec <> wait ->
  acted_on events locked dec drafts.
Proof.
  intros HF Hout Hdec Hnw. exists skipped, later. split_and!; try done. intros v Hv'. apply list_elem_of_lookup in Hv' as (i & Hlook).
  destruct (Forall2_lookup_l _ _ _ _ _ HF Hlook) as (w & _ & Hw & Hd). eauto.
Qed.

(** C3. One recovery attempt, end to end. It decides and appends under the scope lock on the log it
    read there, acting on the oldest outstanding failure that does not have to wait. An idle result
    means nothing is outstanding, a waiting one that every outstanding failure waits, and neither
    changes the log. A cancellation request appends that one event, at the position returned. An
    escalation appends one [replan/boundary] that answers the failure, which is then no longer
    outstanding. A replan appends the boundary and what it discards, answers the failure, is safe in
    the sense of the ladder, and only then calls the planner it selected, in the state where the
    decision has committed, with the evidence read from that log and the next attempt number. *)
Theorem recoverOne_correct d request r (d' : db) :
  recoverOne validateSchema schemaErrors actor policy advance d request = (r, d') ->
  let run := rr_runId request in let events := select_stream d run in
  match r with
  | Normal idle => d' = d /\ outstanding events = []
  | Normal (awaiting_cancellation ds) => d' = d /\ ds <> [] /\ Forall2 (fun v w => bd_failedVertexId w = v /\ bd_action w = wait) (outstanding events) ds
  | Normal (cancel_requested_result dec seq) => exists locked e row, acted_on events locked dec [e] /\
      extended d run [row] d' /\ event_type row = replan_cancel_requested /\ seq = Some (run_seq row) /\
      pstr row "failed_vertex_id" = Some (bd_failedVertexId dec)
  | Normal (escalated dec) => exists locked drafts row, acted_on events locked dec drafts /\ extended d run [row] d' /\
      answers_with (bd_failedVertexId dec) (bd_selected dec) row /\
      (bd_selected dec = None -> bd_failedVertexId dec ∉ outstanding (select_stream d' run))
  | Normal (replanned dec evidence turn) => exists locked drafts planner boundary shadowed d1, acted_on events locked dec drafts /\
      bd_selected dec = Some planner /\ safe_replan events (bd_failedVertexId dec) policy planner dec /\
      extended d run [boundary; shadowed] d1 /\ answers_with (bd_failedVertexId dec) (Some planner) boundary /\
      event_type shadowed = subgraph_shadowed /\ pstrings shadowed "vertex_ids" = shadowSet events planner /\
      (planner <> bd_failedVertexId dec -> bd_failedVertexId dec ∉ outstanding (select_stream d1 run)) /\
      evidence = failureEvidence events (bd_failedVertexId dec) (bd_shadowed dec) (bd_cancelledScopes dec) /\
      advance d1 (replanRequest request dec planner evidence) = (Normal turn, d')
  | Abrupt e => d' = d \/ exists planner dec evidence d1 boundary shadowed, extended d run [boundary; shadowed] d1 /\
      answers_with (bd_failedVertexId dec) (Some planner) boundary /\ advance d1 (replanRequest request dec planner evidence) = (Abrupt e, d')
  end.
Proof.
  unfold recoverOne. destruct (appendUnderScopeLock _ _ _ d _ _) as [[[sequences [a events]]|e] d1] eqn:El; apply append_under_lock in El; [|intros [= <- <-]; by left].
  destruct El as (_ & rows & drafts & _ & Hdec & Hseq). unfold decideUnderLock in Hdec. cbn [slv_events slv_scopes] in Hdec.
  apply bind_Ok in Hdec as (a' & Ha & Hdec). injection Hdec as <- <- <-. set (events := select_stream d (rr_runId request)) in *.
  set (locked := map rowToLockedScope rows) in *. apply attempt_first in Ha as (skipped & rest & Hout & HF & Hact).
  destruct (at_acted a') as [dec|].
  2:{ destruct Hact as [-> Hnone]. rewrite app_nil_r in Hout. rewrite Hnone in Hseq. destruct sequences; [by destruct Hseq|]. destruct Hseq as [_ ->].
      intros Hr. pose proof (waits_named _ _ _ _ HF) as HF'.
      destruct (at_waiting a') as [|w ws]; injection Hr as <- <-; cbn zeta; rewrite Hout.
      - split; [done|]. by inversion HF'.
      - split; [done|]. split; [done|]. exact HF'. }
  destruct Hact as (v & later & drafts & -> & Hnw & Hdr & Hdec). rewrite Hdr in Hseq. cbn [default] in Hseq.
  pose proof (decide_selectBoundary _ _ _ _ _ Hdec) as (Hsel & Hv & Hshape). subst v.
  pose proof (waits_acted _ _ _ _ _ _ _ HF Hout Hdec Hnw) as Hacted.
  destruct (bd_action dec) eqn:Eact; [| |done].
  - rewrite (proj2 (eqb_false _ _)) by done. destruct sequences as [seqs|].
    2:{ destruct Hseq as [Hnil _]. rewrite Hshape in Hnil. unfold replanEvents in Hnil. by destruct (truthy _). }
    destruct Hseq as [_ Hrec]. apply recorded_reading in Hrec as (new & HFn & Hext & _); [|rewrite Hshape; apply replanEvents_vertices].
    assert (forall sel, bd_selected dec = sel -> sel <> Some (bd_failedVertexId dec) -> bd_failedVertexId dec ∉ outstanding (select_stream d1 (rr_runId request))) as Hsettled.
    { intros sel Hs Hne. rewrite (proj1 Hext). eapply (recorded_settles events); [exact Hdec|done|exact HFn|left; congruence]. }
    rewrite Hshape in HFn. unfold replanEvents in HFn. destruct (truthy (bd_selected dec)) as [planner|] eqn:Et.
    + apply truthy_Some in Et as [Et Hne]. apply Forall2_cons_inv_l in HFn as (boundary & l1 & Hb & HFn & ->). apply Forall2_cons_inv_l in HFn as (shadowed & l2 & Hs & HFn & ->).
      apply Forall2_nil_inv_l in HFn as ->. eapply boundary_answers in Hb; [|reflexivity|reflexivity]. rewrite Et in Hb.
      set (evidence := failureEvidence events (bd_failedVertexId dec) (bd_shadowed dec) (bd_cancelledScopes dec)) in *.
      destruct (advance d1 (replanRequest request dec planner evidence)) as [rt d2] eqn:Ead.
      pose proof (selected_safe _ _ _ _ _ planner Hsel Et) as [_ Hsafe].
      destruct rt as [turn|e]; intros [= <- <-]; cbn zeta.
      * exists locked, drafts, planner, boundary, shadowed, d1. destruct Hs as (Hst & _ & Hsp). split_and!; try done.
        -- unfold pstrings, pfield. rewrite Hsp. change (Js.field _ "vertex_ids") with (str_array (bd_shadowed dec)). rewrite string_list_array. apply (sr_shadowed _ _ _ _ _ Hsafe).
        -- intros Hpv. apply (Hsettled (Some planner) Et). intros Hc. apply Hpv. by injection Hc.
      * right. by exists planner, dec, evidence, d1, boundary, shadowed.
    + apply Forall2_cons_inv_l in HFn as (boundary & l1 & Hb & HFn & ->). apply Forall2_nil_inv_l in HFn as ->. eapply boundary_answers in Hb; [|reflexivity|reflexivity].
      intros [= <- <-]. cbn zeta. exists locked, drafts, boundary. split; [done|]. split; [done|]. split; [done|]. intros Hn. by apply (Hsettled None).
  - rewrite eqb_refl. destruct Hshape as (e & He & ->). destruct sequences as [seqs|]; [|by destruct Hseq]. destruct Hseq as [_ Hrec].
    unfold cancelRequestEvent in He. destruct (_ || _); [done|]. injection He as <-.
    apply recorded_reading in Hrec as (new & HFn & Hext & Hhead); [|by intros e ->%list_elem_of_singleton].
    apply Forall2_cons_inv_l in HFn as (row & l1 & Hrow & HFn & ->). apply Forall2_nil_inv_l in HFn as ->. destruct Hrow as (Ht & _ & Hp).
    intros [= <- <-]. cbn zeta. eexists locked, _, row. split; [exact Hacted|]. split; [done|]. split; [done|]. split; [exact Hhead|].
    unfold pstr, pfield. by rewrite Hp.
Qed.
End LoopFacts.

(** ** A failure recovered *)
#[local] Existing Instance code_unit_collation.

Definition failing_db : MemoryDb.Mem :=
  {| MemoryDb.m_user := "engine_role"; MemoryDb.m_runs := [("r1", {| MemoryDb.mr_next_seq := 10; MemoryDb.mr_seed_floor := None; MemoryDb.mr_events := failing_run |})];
     MemoryDb.m_scopes := []; MemoryDb.m_brackets := [] |}.

Definition sample_recovery : RecoveryRequest :=
  {| rr_runId := "r1"; rr_taskInput := [("order", VStr "o1")]; rr_workflowType := "orders"; rr_goalFor := fun p => "again from " +:+ p |}.

Definition sample_planner (d : MemoryDb.Mem) (request : PlannerTurnRequest) : completion PlannerTurn * MemoryDb.Mem :=
  advance sample_hash sample_url sample_href (fun _ => "Unexpected token") None any_schema no_errors engine sample_config
    (sample_llm (answering turn_answer)) sample_versions d request sample_view (Ok sample_view) sample_newId.

Definition sample_recover_one : completion (RecoveryResult PlannerTurn) * MemoryDb.Mem :=
  recoverOne any_schema no_errors engine sample_policy sample_planner failing_db sample_recovery.

Lemma recoverOne_witness :
  map event_type (drop 9 (select_stream (snd sample_recover_one) "r1")) =
    [replan_boundary; subgraph_shadowed; vertex_started; budget_charged; vertex_succeeded; subgraph_proposed; subgraph_frozen; vertex_created; vertex_created; vertex_created] /\
  exists dec evidence turn, fst sample_recover_one = Normal (replanned dec evidence turn) /\ safe_replan failing_run (bd_failedVertexId dec) sample_policy "p1" dec.
Proof.
  split; [vm_compute; reflexivity|].
  pose proof (recoverOne_correct any_schema no_errors engine sample_policy sample_planner failing_db sample_recovery (fst sample_recover_one) (snd sample_recover_one)
    ltac:(unfold sample_recover_one; apply surjective_pairing)) as Hr.
  change (select_stream failing_db (rr_runId sample_recovery)) with failing_run in Hr.
  assert (match fst sample_recover_one with Normal (replanned dec _ _) => bd_selected dec = Some "p1" | _ => False end) as Hk by (vm_compute; reflexivity).
  destruct (fst sample_recover_one) as [[dec evidence turn|dec|dec seq|ds|]|e]; try (exfalso; exact Hk).
  exists dec, evidence, turn. split; [reflexivity|]. destruct Hr as (locked & drafts & planner & boundary & shadowed & d1 & _ & Hsel & Hsafe & _).
  rewrite Hk in Hsel. injection Hsel as <-. exact Hsafe.
Defined.
