(* ===== verification/ReadExecutor.v ===== *)
(** * The read executor (engine/src/read-executor.ts, db/migrations/006_orchestrator_read_execution.sql)

    Executes the tool calls that have no effect: claims one ready vertex from the work queue, routes
    one attempt through the gateway, records its outcome and settles the queue. The queue functions are
    those of the migration, over rows and a clock. Between the dispatch and the settlement other
    workers may change the queue in any way: [others] is what they do to it, once, since nothing between
    the two reads the queue. *)

From S2P Require Import Prelude Collections Number Json JsonParse JsText Events Graph Fork Projection Scopes Llm CheckRules ToolView Gateway RuleTemplate Workflow WorkflowFacts Store StoreFacts Submission Planner ProposalFacts PlannerFacts.

(** ** The work queue *)
Record WorkRow : Type := {
  wq_vertex_id : string;
  wq_run_id : string;
  wq_parent_refs : list string;
  wq_payload : object;
  wq_attempt : Z;
  wq_executor_class : string;
  wq_ready_at : Z;
  wq_claimed_by : option string;
  wq_lease_until : option Z
}.

Record WorkQueue : Type := { q_user : string; q_rows : list WorkRow }.

Definition with_claim (r : WorkRow) (attempt ready : Z) (by_ : option string) (until : option Z) : WorkRow :=
  {| wq_vertex_id := wq_vertex_id r; wq_run_id := wq_run_id r; wq_parent_refs := wq_parent_refs r; wq_payload := wq_payload r; wq_attempt := attempt;
     wq_executor_class := wq_executor_class r; wq_ready_at := ready; wq_claimed_by := by_; wq_lease_until := until |}.

Section Queue.
Context {db : Type} `{!Database db}.

(** Every parent has a [vertex/succeeded] in the run. *)
Definition parents_succeeded (d : db) (r : WorkRow) : bool :=
  forallb (fun p => existsb (fun e => is_type vertex_succeeded e && names_vertex p e) (select_stream d (wq_run_id r))) (wq_parent_refs r).

Definition claimable (d : db) (now : Z) (r : WorkRow) : bool :=
  (wq_executor_class r ==? "orchestrator") && (wq_ready_at r <=? now) &&
  match wq_lease_until r with Some until => until <? now | None => true end && parents_succeeded d r.

Definition by_readiness (a b : WorkRow) : Z := zor (wq_ready_at a - wq_ready_at b) (strcmp (wq_vertex_id a) (wq_vertex_id b)).

(** [claim_ready_read]: the first claimable row, leased; the primary key of the queue is the vertex. *)
Definition claim_ready_read (d : db) (q : WorkQueue) (now : Z) (worker : string) (lease_seconds : Z) : result (option WorkRow * WorkQueue) :=
  if q_user q !=? "engine_role" then Throw "only engine_role may claim reads" else
  match js_sort by_readiness (filter_by (claimable d now) (q_rows q)) with
  | [] => Ok (None, q)
  | c :: _ =>
      let claimed := with_claim c (wq_attempt c + 1) (wq_ready_at c) (Some worker) (Some (now + lease_seconds * 1000)) in
      Ok (Some claimed, {| q_user := q_user q; q_rows := map (fun r => if wq_vertex_id r ==? wq_vertex_id c then claimed else r) (q_rows q) |})
  end.
End Queue.

(** The rows a worker holds of a vertex. *)
Definition held (worker vertexId : string) (r : WorkRow) : bool :=
  (wq_vertex_id r ==? vertexId) && (wq_claimed_by r ==? Some worker) && (wq_executor_class r ==? "orchestrator").

Definition complete_read (q : WorkQueue) (worker vertexId : string) : result WorkQueue :=
  if q_user q !=? "engine_role" then Throw "only engine_role may complete reads" else
  if existsb (held worker vertexId) (q_rows q)
  then Ok {| q_user := q_user q; q_rows := filter_by (fun r => negb (held worker vertexId r)) (q_rows q) |}
  else Throw ("read work " +:+ vertexId +:+ " is not claimed by " +:+ worker).

Definition release_read (q : WorkQueue) (now : Z) (worker vertexId : string) (delay_ms : Z) : result WorkQueue :=
  if q_user q !=? "engine_role" then Throw "only engine_role may release reads" else
  Ok {| q_user := q_user q;
        q_rows := map (fun r => if held worker vertexId r then with_claim r (wq_attempt r) (now + delay_ms) None None else r) (q_rows q) |}.

(** ** The executor *)
Record ReadWorkItem : Type := {
  ri_vertexId : string;
  ri_runId : string;
  ri_attempt : Z;
  ri_tool : string;
  ri_toolVersion : string;
  ri_toolViewDigest : string;
  ri_input : object;
  ri_effectClass : string
}.

Inductive ReadOutcome : Type := read_attempted (o : AttemptOutcome) | read_blocked | read_refused.

Record ReadExecutionReport : Type := { rep_vertexId : string; rep_outcome : ReadOutcome; rep_detail : option string }.

Definition outcome_name (o : AttemptOutcome) : string :=
  match o with
  | succeeded => "succeeded" | retryable_failure => "retryable-failure" | permanent_failure => "permanent-failure" | unknown_outcome => "unknown"
  | other_outcome name => name
  end.

(** [path.split('.')] followed step by step; only a plain object has members. *)
Definition valueAtPath (result : object) (path : string) : value := walk (VObj result) (Js.split_char "."%char path).

(** The row of a claim as a work item; the payload is read by its cast. *)
Definition workItem (row : WorkRow) : Llm.completion ReadWorkItem :=
  let payload := wq_payload row in
  if negb (Js.str_field payload "role" ==? Some "tool") then Llm.raise ("claim_ready_read returned a non-tool vertex " +:+ wq_vertex_id row) else
  match truthy (Js.str_field payload "tool") with
  | None => Llm.raise ("claim_ready_read returned a non-tool vertex " +:+ wq_vertex_id row)
  | Some tool =>
      match truthy (Js.str_field payload "tool_version"), truthy (Js.str_field payload "tool_view_digest") with
      | Some version, Some digest =>
          Normal {| ri_vertexId := wq_vertex_id row; ri_runId := wq_run_id row; ri_attempt := wq_attempt row; ri_tool := tool; ri_toolVersion := version;
                    ri_toolViewDigest := digest; ri_input := default [] (Js.as_object (Js.field payload "input"));
                    ri_effectClass := default "unknown" (Js.as_object (Js.field payload "txn") ≫= fun t => Js.str_field t "effect_class") |}
      | _, _ => Llm.raise ("vertex " +:+ wq_vertex_id row +:+ " is not pinned to a tool version and view")
      end
  end.

(** The declared log fields of each tool of a view, by the digest it was asked for under. *)
Abbreviation LogFieldCache := (list (string * list (string * list string))).

Section Reads.
Context {db : Type} `{!Database db}.
Variable validateSchema : EventDraft -> bool.
Variable schemaErrors : EventDraft -> string.
Variable fetch : Request -> result Response.
Variable decode : string -> result ToolViewDocument.
Variable sha256 : string -> string.
Variable identityHeader : value -> string.
Variable worker : string.
Variable foldMode : string.
(** The clock at the claim and at a release, and what other workers do to the queue meanwhile. *)
Variables claimedAt releasedAt : Z.
Variable others : list WorkRow -> list WorkRow.

Record ReadState : Type := { rs_db : db; rs_queue : WorkQueue; rs_client : GatewayClient; rs_cache : LogFieldCache }.

Definition with_db (s : ReadState) (d : db) : ReadState := {| rs_db := d; rs_queue := rs_queue s; rs_client := rs_client s; rs_cache := rs_cache s |}.
Definition with_queue (s : ReadState) (q : WorkQueue) : ReadState := {| rs_db := rs_db s; rs_queue := q; rs_client := rs_client s; rs_cache := rs_cache s |}.
Definition with_client (s : ReadState) (c : GatewayClient) : ReadState := {| rs_db := rs_db s; rs_queue := rs_queue s; rs_client := c; rs_cache := rs_cache s |}.
Definition with_cache (s : ReadState) (c : LogFieldCache) : ReadState := {| rs_db := rs_db s; rs_queue := rs_queue s; rs_client := rs_client s; rs_cache := c |}.

Definition interfere (s : ReadState) : ReadState := with_queue s {| q_user := q_user (rs_queue s); q_rows := others (q_rows (rs_queue s)) |}.

Definition claim (s : ReadState) : completion (option ReadWorkItem) * ReadState :=
  match claim_ready_read (rs_db s) (rs_queue s) claimedAt worker 30 with
  | Throw e => (Llm.raise e, s)
  | Ok (None, q) => (Normal None, with_queue s q)
  | Ok (Some row, q) => (item ← workItem row; Normal (Some item), with_queue s q)
  end.

Definition complete (s : ReadState) (vertexId : string) : gateway unit * ReadState :=
  match complete_read (rs_queue s) worker vertexId with Ok q => (Answer tt, with_queue s q) | Throw e => (GatewayError e, s) end.

Definition release (s : ReadState) (vertexId : string) : completion unit * ReadState :=
  match release_read (rs_queue s) releasedAt worker vertexId 1000 with Ok q => (Normal tt, with_queue s q) | Throw e => (Llm.raise e, s) end.

(** [appendEvents] inside the [try] *)
Definition appendG (s : ReadState) (runId : string) (e : EventDraft) : gateway unit * ReadState :=
  let '(r, d') := appendEvents validateSchema schemaErrors (rs_db s) runId [e] in (_ ← lift r; Answer tt, with_db s d').

Definition declaredLogFields (s : ReadState) (toolViewDigest tool : string) : gateway (list string) * ReadState :=
  match JMap.get (rs_cache s) toolViewDigest with
  | Some fields => (Answer (JMap.get_or [] fields tool), s)
  | None =>
      match resolveToolView fetch decode sha256 (rs_client s) (Some toolViewDigest) None with
      | (Answer resolved, c) =>
          let fields := JMap.of_entries (map (fun contract => (tool_id contract, default [] (log_fields contract))) (tools (rv_document resolved))) in
          (Answer (JMap.get_or [] fields tool), with_cache (with_client s c) (JMap.set (rs_cache s) toolViewDigest fields))
      | (GatewayRefusal reason msg, c) => (GatewayRefusal reason msg, with_client s c)
      | (GatewayError msg, c) => (GatewayError msg, with_client s c)
      end
  end.

(** The fields present in the result, among those declared. *)
Definition liftFields (result : object) (declared : list string) : object :=
  fold_left (fun summary field => match valueAtPath result field with VUndef => summary | v => JMap.set summary field v end) declared [].

Definition summarize (s : ReadState) (item : ReadWorkItem) (result : object) : gateway object * ReadState :=
  let '(declared, s1) := declaredLogFields s (ri_toolViewDigest item) (ri_tool item) in
  (l ← declared; Answer (liftFields result l), s1).

Definition attempts_prop (item : ReadWorkItem) : string * value := ("attempts", VNum (Num.of_Z (ri_attempt item))).

Definition readStarted (item : ReadWorkItem) : EventDraft :=
  vertex_draft vertex_started (ri_vertexId item) [("attempt", VNum (Num.of_Z (ri_attempt item)))].
Definition readSucceeded (item : ReadWorkItem) (result summary : object) : EventDraft :=
  vertex_draft vertex_succeeded (ri_vertexId item)
    ([attempts_prop item; ("result", VObj result)] ++ match summary with [] => [] | _ => [("log_fields", VObj summary)] end).
Definition readFailed (item : ReadWorkItem) (outcome error : string) : EventDraft :=
  vertex_draft vertex_failed (ri_vertexId item) [attempts_prop item; ("outcome", VStr outcome); ("error", VStr error)].

Definition report (item : ReadWorkItem) (o : ReadOutcome) (detail : option string) : ReadExecutionReport :=
  {| rep_vertexId := ri_vertexId item; rep_outcome := o; rep_detail := detail |}.

Definition readPin (item : ReadWorkItem) : AttemptPin :=
  {| ap_runId := ri_runId item; ap_vertexId := ri_vertexId item; ap_scopeId := None; ap_toolVersion := ri_toolVersion item;
     ap_toolViewDigest := ri_toolViewDigest item; ap_attempt := ri_attempt item; ap_idempotencyKey := None; ap_deadlineMs := None; ap_authorizationIdentity := None |}.

(** Records a terminal event, removes the work and reports. *)
Definition settleRead (s : ReadState) (item : ReadWorkItem) (terminal : EventDraft) (rep : ReadExecutionReport) : gateway ReadExecutionReport * ReadState :=
  match appendG s (ri_runId item) terminal with
  | (Answer _, s1) => let '(r, s2) := complete s1 (ri_vertexId item) in (_ ← r; Answer rep, s2)
  | (GatewayRefusal reason msg, s1) => (GatewayRefusal reason msg, s1)
  | (GatewayError msg, s1) => (GatewayError msg, s1)
  end.

(** The body of the [try]. *)
Definition attemptRead (s : ReadState) (item : ReadWorkItem) : gateway ReadExecutionReport * ReadState :=
  let '(answer, c) := Gateway.call fetch identityHeader (rs_client s) (ri_tool item) (ri_input item) (readPin item) in
  let s1 := interfere (with_client s c) in
  match answer with
  | GatewayRefusal reason msg => (GatewayRefusal reason msg, s1)
  | GatewayError msg => (GatewayError msg, s1)
  | Answer result =>
      if ar_outcome result ==? succeeded then
        match summarize s1 item (default [] (ar_result result)) with
        | (Answer summary, s2) => settleRead s2 item (readSucceeded item (default [] (ar_result result)) summary) (report item (read_attempted succeeded) None)
        | (GatewayRefusal reason msg, s2) => (GatewayRefusal reason msg, s2)
        | (GatewayError msg, s2) => (GatewayError msg, s2)
        end
      else settleRead s1 item (readFailed item (outcome_name (ar_outcome result)) (default "" (ar_error result))) (report item (read_attempted (ar_outcome result)) (ar_error result))
  end.

Definition blocked (s : ReadState) (item : ReadWorkItem) (detail : string) : completion (option ReadExecutionReport) * ReadState :=
  let '(r, s1) := release s (ri_vertexId item) in (_ ← r; Normal (Some (report item read_blocked (Some detail))), s1).

(** What a call in the [catch] throws is thrown on. *)
Definition rethrow {A} (g : gateway A) : completion A :=
  match g with Answer a => Normal a | GatewayRefusal _ msg => Abrupt (JsError "GatewayRefusal" msg) | GatewayError msg => Llm.raise msg end.

(** [processOne] from a claimed item on. *)
Definition executeRead (s : ReadState) (item : ReadWorkItem) : completion (option ReadExecutionReport) * ReadState :=
  if ri_effectClass item !=? "none" then
    blocked s item (ri_tool item +:+ " declares effect_class " +:+ ri_effectClass item +:+ "; only the Coordinator may execute it")
  else if foldMode !=? "reads-live" then
    blocked s item ("fold_mode " +:+ foldMode +:+ " may not execute " +:+ ri_tool item +:+ " live")
  else match appendC validateSchema schemaErrors (rs_db s) (ri_runId item) [readStarted item] with
  | (Abrupt e, d1) => (Abrupt e, with_db s d1)
  | (Normal _, d1) =>
      match attemptRead (with_db s d1) item with
      | (Answer rep, s2) => (Normal (Some rep), s2)
      | (GatewayError detail, s2) =>
          let '(r, s3) := release s2 (ri_vertexId item) in
          (_ ← r; Normal (Some (report item (read_attempted unknown_outcome) (Some detail))), s3)
      | (GatewayRefusal _ detail, s2) =>
          let '(r, s3) := settleRead s2 item (readFailed item "permanent-failure" detail) (report item read_refused (Some detail)) in
          (rep ← rethrow r; Normal (Some rep), s3)
      end
  end.

Definition processOne (s : ReadState) : completion (option ReadExecutionReport) * ReadState :=
  match claim s with
  | (Abrupt e, s1) => (Abrupt e, s1)
  | (Normal None, s1) => (Normal None, s1)
  | (Normal (Some item), s1) => executeRead s1 item
  end.
End Reads.
