(* ===== verification/ReadExecutorFacts.v ===== *)
(** * The read executor: leases, trajectories and summaries *)

From S2P Require Import Prelude Collections Number Json JsonParse JsText Events Graph Fork Projection Scopes Llm CheckRules ToolView Gateway RuleTemplate Workflow WorkflowFacts Store StoreFacts Submission Planner ProposalFacts PlannerFacts ReadExecutor.

(** ** Leases *)
Section Leases.
Context {db : Type} `{!Database db}.

(** What a claim hands out, and what the queue holds after it. *)
Lemma claim_spec (d : db) q now worker lease row q' :
  claim_ready_read d q now worker lease = Ok (Some row, q') ->
  q_user q = "engine_role" /\ q_user q' = q_user q /\ exists c, c ∈ q_rows q /\ claimable d now c = true /\
    row = with_claim c (wq_attempt c + 1) (wq_ready_at c) (Some worker) (Some (now + lease * 1000)) /\
    q_rows q' = map (fun r => if wq_vertex_id r ==? wq_vertex_id c then row else r) (q_rows q).
Proof.
  unfold claim_ready_read. destruct (q_user q !=? "engine_role") eqn:Eu; [done|]. bool_prop.
  destruct (js_sort _ _) as [|c rest] eqn:Es; [done|]. intros [= <- <-]. cbn [q_user q_rows]. split; [done|]. split; [done|].
  exists c. assert (c ∈ js_sort by_readiness (filter_by (claimable d now) (q_rows q))) as Hc by (rewrite Es; left).
  rewrite elem_of_js_sort, elem_of_filter_by in Hc. by destruct Hc.
Qed.

Lemma claim_none (d : db) q now worker lease q' : claim_ready_read d q now worker lease = Ok (None, q') -> q' = q /\ forall r, r ∈ q_rows q -> claimable d now r = false.
Proof.
  unfold claim_ready_read. destruct (q_user q !=? "engine_role"); [done|]. destruct (js_sort _ _) as [|c rest] eqn:Es; [|done]. intros [= <-].
  split; [done|]. intros r Hr. destruct (claimable d now r) eqn:Ec; [|done]. assert (r ∈ js_sort by_readiness (filter_by (claimable d now) (q_rows q))) as Hin.
  { rewrite elem_of_js_sort, elem_of_filter_by. done. }
  rewrite Es in Hin. by apply elem_of_nil in Hin.
Qed.

(** A lease excludes: the row a claim hands out was ready, belongs to the orchestrator's executor
    and has all its parents succeeded; it is returned with the next attempt number and held by the
    worker; and until the lease ends no claim of any worker, on any later state of the log, returns
    the same vertex, as long as the row is neither released nor completed. *)
Theorem claim_exclusive (d : db) q now worker lease row q' :
  claim_ready_read d q now worker lease = Ok (Some row, q') ->
  wq_executor_class row = "orchestrator" /\ parents_succeeded d row = true /\ existsb (held worker (wq_vertex_id row)) (q_rows q') = true /\
  (exists c, c ∈ q_rows q /\ wq_vertex_id c = wq_vertex_id row /\ wq_attempt row = wq_attempt c + 1) /\
  forall d2 now2 worker2 lease2 row2 q2, now2 <= now + lease * 1000 ->
    claim_ready_read d2 q' now2 worker2 lease2 = Ok (Some row2, q2) -> wq_vertex_id row2 <> wq_vertex_id row.
Proof.
  intros H. apply claim_spec in H as (_ & _ & c & Hc & Hcl & Hrow & Hq). unfold claimable in Hcl. bool_prop.
  assert (wq_vertex_id row = wq_vertex_id c) as Hid by (by rewrite Hrow).
  split; [by rewrite Hrow|]. split; [by rewrite Hrow|]. split.
  - apply existsb_true. exists row. split; [rewrite Hq; apply elem_of_map; exists c; by rewrite eqb_refl|]. unfold held. rewrite Hrow. cbn. rewrite !eqb_refl. cbn. by apply eqb_true.
  - split; [exists c; by rewrite Hrow|]. intros d2 now2 worker2 lease2 row2 q2 Hnow Hcl0 Heq.
    apply claim_spec in Hcl0 as (_ & _ & c2 & Hc2 & Hcl2 & Hrow2 & _). assert (c2 = row) as ->.
    { rewrite Hq, elem_of_map in Hc2. destruct Hc2 as (r & -> & _). case_eqb; [done|]. rewrite Hrow2, Hid in Heq. done. }
    unfold claimable in Hcl2. rewrite Hrow in Hcl2. cbn [with_claim wq_lease_until] in Hcl2. bool_prop. lia.
Qed.
End Leases.

(** ** Trajectories *)
Section ReadTrajectories.
Context {db : Type} `{!Database db} `{!DatabaseLaws db}.
Variable validateSchema : EventDraft -> bool.
Variable schemaErrors : EventDraft -> string.
Variable fetch : Request -> result Response.
Variable decode : string -> result ToolViewDocument.
Variable sha256 : string -> string.
Variable identityHeader : value -> string.
Variable worker : string.
Variable foldMode : string.
Variables claimedAt releasedAt : Z.
Variable others : list WorkRow -> list WorkRow.
Implicit Types (s : ReadState (db := db)) (item : ReadWorkItem).

Definition holding (q : WorkQueue) (v : string) : bool := existsb (held worker v) (q_rows q).

Lemma appendG_spec s run e r s' :
  appendG validateSchema schemaErrors s run e = (r, s') ->
  rs_queue s' = rs_queue s /\ rs_client s' = rs_client s /\ rs_cache s' = rs_cache s /\
  match r with
  | Answer _ => exists row, holds run e row /\ extended (rs_db s) run [row] (rs_db s')
  | GatewayRefusal _ _ => False
  | GatewayError _ => rs_db s' = rs_db s
  end.
Proof.
  unfold appendG. destruct (appendEvents _ _ (rs_db s) run [e]) as [r0 d0] eqn:E.
  assert (appendC validateSchema schemaErrors (rs_db s) run [e] = (of_result r0, d0)) as Ec by (unfold appendC; by rewrite E).
  apply appendC_one in Ec. destruct r0; cbn [of_result lift mbind gateway_bind raise] in *; intros [= <- <-]; split_and!; try done.
Qed.

Lemma complete_spec s v r s' :
  complete worker s v = (r, s') -> rs_db s' = rs_db s /\
  match r with
  | Answer _ => holding (rs_queue s) v = true /\ q_rows (rs_queue s') = filter_by (fun x => negb (held worker v x)) (q_rows (rs_queue s)) /\ q_user (rs_queue s') = q_user (rs_queue s)
  | GatewayRefusal _ _ => False
  | GatewayError _ => s' = s /\ (q_user (rs_queue s) = "engine_role" -> holding (rs_queue s) v = false)
  end.
Proof.
  unfold complete, complete_read, holding. destruct (q_user (rs_queue s) !=? "engine_role") eqn:Eu; bool_prop; [by intros [= <- <-]|].
  destruct (existsb _ _) eqn:Ex; by intros [= <- <-].
Qed.

Lemma release_spec s v r s' :
  release worker releasedAt s v = (r, s') -> rs_db s' = rs_db s /\ rs_client s' = rs_client s /\
  match r with
  | Normal _ => holding (rs_queue s') v = false /\
      q_rows (rs_queue s') = map (fun x => if held worker v x then with_claim x (wq_attempt x) (releasedAt + 1000) None None else x) (q_rows (rs_queue s))
  | Abrupt _ => s' = s /\ q_user (rs_queue s) <> "engine_role"
  end.
Proof.
  unfold release, release_read. destruct (q_user (rs_queue s) !=? "engine_role") eqn:Eu; bool_prop; [by intros [= <- <-]|].
  intros [= <- <-]. cbn. split_and!; try done. unfold holding. apply existsb_false. intros x Hx. cbn in Hx. apply elem_of_map in Hx as (y & -> & _).
  destruct (held worker v y) eqn:Eh; [|done]. unfold held. cbn. by rewrite andb_false_r.
Qed.

(** From [d] and [q], the terminal event of a vertex is recorded and the work is gone from the queue. *)
Definition settled (d : db) (q : WorkQueue) (item : ReadWorkItem) (terminal : EventDraft) s' : Prop :=
  exists row, d_vertex_id terminal = Some (ri_vertexId item) /\ holds (ri_runId item) terminal row /\ extended d (ri_runId item) [row] (rs_db s') /\ holding q (ri_vertexId item) = true /\
    q_rows (rs_queue s') = filter_by (fun x => negb (held worker (ri_vertexId item) x)) (q_rows q).

(** Nothing was recorded, or a terminal event was and the lease had been lost. *)
Definition unsettled (d : db) (q : WorkQueue) (item : ReadWorkItem) (terminals : list EventType) s' : Prop :=
  rs_queue s' = q /\
  (rs_db s' = d \/ exists terminal row, d_event_type terminal ∈ terminals /\ d_vertex_id terminal = Some (ri_vertexId item) /\ holds (ri_runId item) terminal row /\
     extended d (ri_runId item) [row] (rs_db s') /\ (q_user q = "engine_role" -> holding q (ri_vertexId item) = false)).

Lemma settleRead_spec s item terminal rep r s' :
  d_vertex_id terminal = Some (ri_vertexId item) ->
  settleRead validateSchema schemaErrors worker s item terminal rep = (r, s') ->
  match r with
  | Answer rep' => rep' = rep /\ settled (rs_db s) (rs_queue s) item terminal s'
  | GatewayRefusal _ _ => False
  | GatewayError _ => unsettled (rs_db s) (rs_queue s) item [d_event_type terminal] s'
  end.
Proof.
  intros Hvt. unfold settleRead. destruct (appendG _ _ s _ terminal) as [r1 s1] eqn:Ea. apply appendG_spec in Ea as (Hq & _ & _ & Ha).
  destruct r1 as [|reason msg|msg]; [|done|intros [= <- <-]; split; [done|by left]].
  destruct Ha as (row & Hrow & Hext). destruct (complete worker s1 (ri_vertexId item)) as [r2 s2] eqn:Ec. apply complete_spec in Ec as [Hd Hc].
  destruct r2 as [|reason msg|msg]; cbn [mbind gateway_bind]; intros [= <- <-].
  - split; [done|]. exists row. rewrite Hd, <- Hq. destruct Hc as (H1 & H2 & _). done.
  - done.
  - destruct Hc as [-> Hl]. split; [done|]. right. exists terminal, row. split; [left|]. split; [done|]. split; [done|]. split; [done|]. by rewrite <- Hq.
Qed.

Lemma summarize_spec s item result r s' :
  summarize fetch decode sha256 s item result = (r, s') -> rs_db s' = rs_db s /\ rs_queue s' = rs_queue s.
Proof.
  unfold summarize, declaredLogFields. destruct (JMap.get (rs_cache s) (ri_toolViewDigest item)) as [fields|]; [by intros [= <- <-]|].
  destruct (resolveToolView _ _ _ _ _ _) as [[resolved|reason msg|msg] c]; by intros [= <- <-].
Qed.

(** The queue as the other workers left it. *)
Definition interfered (q : WorkQueue) : WorkQueue := {| q_user := q_user q; q_rows := others (q_rows q) |}.

Lemma attemptRead_spec s item r s' :
  attemptRead validateSchema schemaErrors fetch decode sha256 identityHeader worker others s item = (r, s') ->
  match r with
  | Answer rep => rep_vertexId rep = ri_vertexId item /\ exists o terminal, rep_outcome rep = read_attempted o /\
      d_event_type terminal = (if o ==? succeeded then vertex_succeeded else vertex_failed) /\ settled (rs_db s) (interfered (rs_queue s)) item terminal s'
  | GatewayRefusal _ _ => rs_db s' = rs_db s /\ rs_queue s' = interfered (rs_queue s)
  | GatewayError _ => unsettled (rs_db s) (interfered (rs_queue s)) item [vertex_succeeded; vertex_failed] s'
  end.
Proof.
  unfold attemptRead. destruct (Gateway.call _ _ _ _ _ _) as [answer c].
  destruct answer as [result|reason msg|msg]; [|by intros [= <- <-]|intros [= <- <-]; split; [done|by left]].
  destruct (ar_outcome result ==? succeeded) eqn:Eo.
  - destruct (summarize _ _ _ _ item _) as [[summary|reason msg|msg] s2] eqn:Es; apply summarize_spec in Es as [Hd Hq].
    + intros Hset. apply settleRead_spec in Hset; [|done]. rewrite Hd, Hq in Hset. destruct r as [rep|reason msg|msg]; [|done|].
      * destruct Hset as [-> Hset]. split; [done|]. exists succeeded. eexists. split; [done|]. split; [|exact Hset]. done.
      * destruct Hset as [Hq' [Hdb|(terminal & row & Ht & Hrest)]]; split; try done; [by left|]. right. exists terminal, row. split; [|done].
        apply list_elem_of_singleton in Ht. rewrite Ht. left.
    + by intros [= <- <-].
    + intros [= <- <-]. split; [done|]. by left.
  - intros Hset. apply settleRead_spec in Hset; [|done]. destruct r as [rep|reason msg|msg]; [|done|].
    + destruct Hset as [-> Hset]. split; [done|]. exists (ar_outcome result). eexists. split; [done|]. split; [|exact Hset]. by rewrite Eo.
    + destruct Hset as [Hq' [Hdb|(terminal & row & Ht & Hrest)]]; split; try done; [by left|]. right. exists terminal, row. split; [|done].
      apply list_elem_of_singleton in Ht. rewrite Ht. right. left.
Qed.

(** What a pass leaves of the work item [item], by its report; [q] is the queue right after the claim. *)
Definition read_outcome (d : db) (q : WorkQueue) (item : ReadWorkItem) (rep : ReadExecutionReport) s' : Prop :=
  rep_vertexId rep = ri_vertexId item /\ holding (rs_queue s') (ri_vertexId item) = false /\
  exists rows, extended d (ri_runId item) rows (rs_db s') /\ (forall e, e ∈ rows -> vertex_id e = truthy (Some (ri_vertexId item))) /\
  let done_with := fun terminal => map event_type rows = [vertex_started; terminal] /\ holding (interfered q) (ri_vertexId item) = true /\
    q_rows (rs_queue s') = filter_by (fun x => negb (held worker (ri_vertexId item) x)) (others (q_rows q)) in
  match rep_outcome rep with
  | read_blocked => rows = [] /\ (ri_effectClass item <> "none" \/ foldMode <> "reads-live")
  | read_refused => done_with vertex_failed
  | read_attempted o =>
      done_with (if o ==? succeeded then vertex_succeeded else vertex_failed) \/
      o = unknown_outcome /\
        (map event_type rows = [vertex_started] \/
         map event_type rows ∈ [[vertex_started; vertex_succeeded]; [vertex_started; vertex_failed]] /\ holding (interfered q) (ri_vertexId item) = false)
  end.

Lemma filter_not_held v l : existsb (held worker v) (filter_by (fun x => negb (held worker v x)) l) = false.
Proof. apply existsb_false. intros x Hx. apply elem_of_filter_by in Hx as [_ Hx]. by bool_prop. Qed.

(** A pass that does not run the read hands it back and leaves no trace in the log. *)
Lemma blocked_spec s item detail r s' : q_user (rs_queue s) = "engine_role" -> (ri_effectClass item <> "none" \/ foldMode <> "reads-live") ->
  blocked worker releasedAt s item detail = (r, s') ->
  match r with
  | Normal None => False
  | Normal (Some rep) => read_outcome (rs_db s) (rs_queue s) item rep s'
  | Abrupt _ => exists rows, extended (rs_db s) (ri_runId item) rows (rs_db s') /\ map event_type rows ∈ [[]; [vertex_started]; [vertex_started; vertex_failed]]
  end.
Proof.
  intros Huser Hwhy. unfold blocked. destruct (release _ _ s _) as [r1 s1] eqn:Er. apply release_spec in Er as (Hd & _ & Hr).
  destruct r1; cbn [mbind completion_bind]; intros [= <- <-].
  - split; [done|]. split; [by destruct Hr|]. exists []. rewrite Hd. split; [apply extended_refl|]. split; [by intros e []%elem_of_nil|]. done.
  - by destruct Hr.
Qed.

Lemma executeRead_spec s item r s' :
  q_user (rs_queue s) = "engine_role" ->
  executeRead validateSchema schemaErrors fetch decode sha256 identityHeader worker foldMode releasedAt others s item = (r, s') ->
  match r with
  | Normal None => False
  | Normal (Some rep) => read_outcome (rs_db s) (rs_queue s) item rep s'
  | Abrupt _ => exists rows, extended (rs_db s) (ri_runId item) rows (rs_db s') /\ map event_type rows ∈ [[]; [vertex_started]; [vertex_started; vertex_failed]]
  end.
Proof.
  intros Huser. unfold executeRead.
  destruct (ri_effectClass item !=? "none") eqn:Ee; [apply blocked_spec; [done|left; by bool_prop]|].
  destruct (foldMode !=? "reads-live") eqn:Ef; [apply blocked_spec; [done|right; by bool_prop]|]. clear Ee Ef.
  destruct (appendC _ _ (rs_db s) _ _) as [r1 d1] eqn:Ea. apply appendC_one in Ea.
  destruct r1; [|intros [= <- <-]; subst d1; exists []; split; [apply extended_refl|left]]. destruct Ea as (started & (n & _ & _ & Hst & Hsv & _) & Hext).
  cbn [d_event_type d_vertex_id readStarted vertex_draft] in Hst, Hsv.
  destruct (attemptRead _ _ _ _ _ _ _ _ _ item) as [r2 s2] eqn:E2. apply attemptRead_spec in E2. cbn [rs_db rs_queue with_db] in E2.
  assert (forall terminal row d', holds (ri_runId item) terminal row -> extended d1 (ri_runId item) [row] d' ->
    extended (rs_db s) (ri_runId item) [started; row] d' /\ map event_type [started; row] = [vertex_started; d_event_type terminal] /\ vertex_id row = truthy (d_vertex_id terminal)) as Htwo.
  { intros terminal row d' (m & _ & _ & Ht & Hv & _) He. split; [by apply (extended_trans _ _ [started] d1)|]. cbn. by rewrite Hst, Ht. }
  assert (forall e row, vertex_id row = truthy (Some (ri_vertexId item)) -> e ∈ [started; row] -> vertex_id e = truthy (Some (ri_vertexId item))) as Hids.
  { intros e row Hv. rewrite !elem_of_cons, elem_of_nil. by intros [->|[->|[]]]. }
  assert (forall rep terminal s3, rep_vertexId rep = ri_vertexId item -> settled d1 (interfered (rs_queue s)) item terminal s3 ->
    (forall rows, map event_type rows = [vertex_started; d_event_type terminal] /\ holding (interfered (rs_queue s)) (ri_vertexId item) = true /\
       q_rows (rs_queue s3) = filter_by (fun x => negb (held worker (ri_vertexId item) x)) (others (q_rows (rs_queue s))) ->
       match rep_outcome rep with read_blocked => False | read_refused => d_event_type terminal = vertex_failed
       | read_attempted o => d_event_type terminal = if o ==? succeeded then vertex_succeeded else vertex_failed end) ->
    read_outcome (rs_db s) (rs_queue s) item rep s3) as Hdone.
  { intros rep terminal s3 Hrep (row & Hvt & Hrow & He & Hhold & Hrows) Hmatch. destruct (Htwo _ _ _ Hrow He) as (Hext2 & Hty & Hv). rewrite Hvt in Hv.
    split; [done|]. split; [unfold holding; rewrite Hrows; apply filter_not_held|]. exists [started; row]. split; [done|]. split; [by intros e; apply Hids|].
    specialize (Hmatch [started; row] (conj Hty (conj Hhold Hrows))). destruct (rep_outcome rep) as [o| |]; [left|done|]; by rewrite <- Hmatch. }
  destruct r2 as [rep|reason detail|detail].
  - intros [= <- <-]. destruct E2 as (Hrep & o & terminal & Ho & Ht & Hset). apply (Hdone rep terminal); [done|done|]. intros rows _. by rewrite Ho.
  - destruct E2 as [Hd2 Hq2]. destruct (settleRead _ _ _ s2 item _ _) as [r3 s3] eqn:E3. apply settleRead_spec in E3; [|done]. rewrite Hd2, Hq2 in E3.
    destruct r3 as [rep|? ?|msg]; cbn [rethrow mbind completion_bind raise]; intros [= <- <-]; [|done|].
    + destruct E3 as [-> Hset]. eapply Hdone; [done|exact Hset|]. done.
    + destruct E3 as [_ [->|(terminal & row & Ht & _ & Hrow & He & _)]].
      * exists [started]. split; [done|]. cbn. rewrite Hst. right. left.
      * destruct (Htwo _ _ _ Hrow He) as (Hext2 & Hty & _). exists [started; row]. split; [done|]. apply list_elem_of_singleton in Ht. rewrite Hty, Ht. right. right. left.
  - destruct (release _ _ s2 _) as [r3 s3] eqn:E3. apply release_spec in E3 as (Hd3 & _ & E3). destruct E2 as [Hq2 Hdb].
    destruct r3; cbn [mbind completion_bind]; intros [= <- <-]; [|destruct E3 as [_ Hn]; by rewrite Hq2 in Hn].
    split; [done|]. split; [by destruct E3|]. rewrite Hd3. destruct Hdb as [->|(terminal & row & Ht & Hvt & Hrow & He & Hlost)].
    + exists [started]. split; [done|]. split; [by intros e ->%list_elem_of_singleton|]. cbn. right. split; [done|]. left. by rewrite Hst.
    + destruct (Htwo _ _ _ Hrow He) as (Hext2 & Hty & Hv). rewrite Hvt in Hv. exists [started; row]. split; [done|]. split; [by intros e; apply Hids|].
      cbn [report rep_outcome]. right. split; [done|]. right. rewrite Hty. split; [|by apply Hlost].
      rewrite !elem_of_cons, elem_of_nil in Ht. destruct Ht as [->|[->|[]]]; [left|right; left].
Qed.

(** C32. A read pass settles what it claimed. With nothing claimable it changes nothing. Otherwise, in
    every pass that returns, the worker no longer holds the vertex, and the log grew only by events of
    that vertex: by nothing when the pass was blocked; by its start and exactly one terminal event,
    with the work removed from the queue, when the tool answered or the gateway refused; and when an
    exception made the outcome unknown, by its start alone with the work released, or also by its
    terminal event if the lease had been lost to another worker meanwhile. A pass that throws left at
    most the start and a failure. *)
Theorem read_settles s r s' :
  processOne validateSchema schemaErrors fetch decode sha256 identityHeader worker foldMode claimedAt releasedAt others s = (r, s') ->
  match r with
  | Normal None => rs_db s' = rs_db s /\ rs_queue s' = rs_queue s /\ forall row, row ∈ q_rows (rs_queue s) -> claimable (rs_db s) claimedAt row = false
  | Normal (Some rep) => exists row q item, claim_ready_read (rs_db s) (rs_queue s) claimedAt worker 30 = Ok (Some row, q) /\
      workItem row = Normal item /\ read_outcome (rs_db s) q item rep s'
  | Abrupt _ => rs_db s' = rs_db s \/ exists row q item rows, claim_ready_read (rs_db s) (rs_queue s) claimedAt worker 30 = Ok (Some row, q) /\
      workItem row = Normal item /\ extended (rs_db s) (ri_runId item) rows (rs_db s') /\ map event_type rows ∈ [[]; [vertex_started]; [vertex_started; vertex_failed]]
  end.
Proof.
  unfold processOne, claim. destruct (claim_ready_read _ _ _ _ _) as [[[row|] q]|e] eqn:Ec; [| |intros [= <- <-]; by left].
  - destruct (workItem row) as [item|e] eqn:Ei; cbn [mbind completion_bind]; [|intros [= <- <-]; by left].
    intros He. pose proof (claim_spec _ _ _ _ _ _ _ Ec) as (Hu & Hu' & _). apply executeRead_spec in He; [|cbn; congruence].
    cbn [rs_db rs_queue with_queue] in He. destruct r as [[rep|]|e]; [by exists row, q, item|done|]. right. destruct He as (rows & He & Ht). by exists row, q, item, rows.
  - intros [= <- <-]. apply claim_none in Ec as [-> Hnone]. done.
Qed.
End ReadTrajectories.

(** ** Summaries *)
Lemma liftFields_get result declared f v :
  JMap.get (liftFields result declared) f = Some v <-> f ∈ declared /\ v <> VUndef /\ valueAtPath result f = v.
Proof.
  unfold liftFields. induction declared as [|g declared IH] using rev_ind; [split; [done|by intros [[]%elem_of_nil _]]|].
  rewrite fold_left_app, elem_of_app, list_elem_of_singleton. cbn [fold_left]. set (m := fold_left _ declared []) in *.
  assert (JMap.get match valueAtPath result g with VUndef => m | x => JMap.set m g x end f =
    if (g ==? f) && match valueAtPath result g with VUndef => false | _ => true end
    then Some (valueAtPath result g) else JMap.get m f) as ->.
  { destruct (valueAtPath result g); rewrite ?get_set; case_eqb; done. }
  case_eqb; cbn [andb].
  - subst g. destruct (valueAtPath result f) eqn:Ev; (split; [|]).
    all: try (intros [= <-]; split; [by right|done]).
    all: try (intros (_ & _ & <-); done).
    + intros H. apply IH in H. naive_solver.
    + intros (_ & Hne & <-). done.
  - rewrite IH. split; [naive_solver|]. intros ([Hin| ->] & H); [done|done].
Qed.

Section Summaries.
Context {db : Type} `{!Database db}.
Variable fetch : Request -> result Response.
Variable decode : string -> result ToolViewDocument.
Variable sha256 : string -> string.

(** The fields a document declares, by tool. *)
Definition declared_in (document : ToolViewDocument) : list (string * list string) :=
  JMap.of_entries (map (fun contract => (tool_id contract, default [] (log_fields contract))) (tools document)).

(** A view the gateway served when it was asked for [digest]. *)
Definition served (digest : string) (document : ToolViewDocument) : Prop :=
  exists c resolved c', resolveToolView fetch decode sha256 c (Some digest) None = (Answer resolved, c') /\ rv_document resolved = document.

Definition cache_sound (cache : LogFieldCache) : Prop :=
  forall digest fields, JMap.get cache digest = Some fields -> exists document, served digest document /\ fields = declared_in document.

(** A summary holds exactly the declared fields that are present: it has a field with a value if
    and only if the contract of the tool, in a view served for the digest the vertex is pinned to,
    declares the field and the result has that value there; an absent one is left out, a null one is
    kept. The cache stays sound, and a digest it holds is never asked for again. *)
Theorem summarize_exact (s : ReadState (db := db)) item result summary s' :
  cache_sound (rs_cache s) -> summarize fetch decode sha256 s item result = (Answer summary, s') ->
  cache_sound (rs_cache s') /\ (is_Some (JMap.get (rs_cache s) (ri_toolViewDigest item)) -> s' = s) /\
  exists document, served (ri_toolViewDigest item) document /\
    forall f v, JMap.get summary f = Some v <->
      f ∈ JMap.get_or [] (declared_in document) (ri_tool item) /\ v <> VUndef /\ valueAtPath result f = v.
Proof.
  intros Hc. unfold summarize, declaredLogFields. destruct (JMap.get (rs_cache s) (ri_toolViewDigest item)) as [fields|] eqn:Eg.
  - intros [= <- <-]. split; [done|]. split; [done|]. destruct (Hc _ _ Eg) as (document & Hs & ->). exists document. split; [done|]. intros f v. apply liftFields_get.
  - destruct (resolveToolView _ _ _ _ _ _) as [[resolved|reason msg|msg] c] eqn:Er; cbn [mbind gateway_bind]; intros [= <- <-].
    assert (served (ri_toolViewDigest item) (rv_document resolved)) as Hs by (by eexists _, resolved, _).
    split; [|split; [by intros [? ?]|]].
    + intros digest fields. cbn [rs_cache with_cache]. rewrite get_set. case_eqb; [intros [= <-]; subst; by eexists|apply Hc].
    + exists (rv_document resolved). split; [done|]. intros f v. apply liftFields_get.
Qed.
End Summaries.

(** ** Concrete passes *)
Definition read_row : WorkRow :=
  {| wq_vertex_id := "rd1"; wq_run_id := "r1"; wq_parent_refs := []; wq_attempt := 0; wq_executor_class := "orchestrator"; wq_ready_at := 5; wq_claimed_by := None; wq_lease_until := None;
     wq_payload := [("role", VStr "tool"); ("tool", VStr "look"); ("tool_version", VStr "1"); ("tool_view_digest", VStr sample_digest);
                    ("input", VObj [("order", VStr "o1")]); ("txn", VObj [("effect_class", VStr "none")])] |}.

(** A gateway that answers every call and serves one view, or refuses to serve it. *)
Definition serving (listed : result Response) (r : Request) : result Response :=
  match rq_body r with
  | VObj body => if Js.strict_eq (Js.field body "method") (VStr "tools/call")
                 then Ok {| ok := true; status := 200; json := Ok {| rr_result := Some [("structuredContent", VObj [("outcome", VStr "succeeded"); ("result", VObj [("risk", VNull)])])]; rr_error := None |} |}
                 else listed
  | _ => listed
  end.

Definition refusing : result Response :=
  Ok {| ok := true; status := 200; json := Ok {| rr_result := None; rr_error := Some {| re_message := "view withdrawn"; re_reason := Some "view_unavailable" |} |} |}.

Definition read_state : ReadState :=
  {| rs_db := sample_db; rs_queue := {| q_user := "engine_role"; q_rows := [read_row] |}; rs_client := newClient "http://gateway/"; rs_cache := [] |}.

Definition sample_pass (listed : result Response) : completion (option ReadExecutionReport) * ReadState :=
  processOne any_schema no_errors (serving listed) sample_decode sample_hash (fun _ => "") "w1" "reads-live" 10 20 id read_state.

Lemma read_settles_witness :
  new_events (rs_db (snd (sample_pass (sample_fetch (request (newClient "") "" [] []))))) = [vertex_started; vertex_succeeded] /\
  q_rows (rs_queue (snd (sample_pass (sample_fetch (request (newClient "") "" [] []))))) = [] /\
  exists rep, fst (sample_pass (sample_fetch (request (newClient "") "" [] []))) = Normal (Some rep) /\ rep_vertexId rep = "rd1".
Proof.
  split; [vm_compute; reflexivity|]. split; [vm_compute; reflexivity|]. set (listed := sample_fetch _).
  pose proof (read_settles any_schema no_errors (serving listed) sample_decode sample_hash (fun _ => "") "w1" "reads-live" 10 20 id read_state
    (fst (sample_pass listed)) (snd (sample_pass listed)) ltac:(unfold sample_pass; apply surjective_pairing)) as Hr.
  assert (match fst (sample_pass listed) with Normal (Some _) => True | _ => False end) as Hk by (vm_compute; exact I).
  destruct (fst (sample_pass listed)) as [[rep|]|e]; try (exfalso; exact Hk). exists rep. split; [reflexivity|].
  destruct Hr as (row & q & item & Hc & Hi & Ho & _). rewrite Ho.
  assert (exists q0 row0 item0, claim_ready_read sample_db (rs_queue read_state) 10 "w1" 30 = Ok (Some row0, q0) /\ workItem row0 = Normal item0 /\ ri_vertexId item0 = "rd1") as (q0 & row0 & item0 & H1 & H2 & H3).
  { eexists _, _, _. split; [vm_compute; reflexivity|]. split; vm_compute; reflexivity. }
  change (rs_db read_state) with sample_db in Hc. rewrite H1 in Hc. injection Hc as <- _. rewrite H2 in Hi. injection Hi as <-. exact H3.
Defined.

(** A call that succeeded is recorded as a permanent failure when its view cannot be read afterwards. *)
Example success_recorded_as_failure :
  new_events (rs_db (snd (sample_pass refusing))) = [vertex_started; vertex_failed] /\
  fst (sample_pass refusing) = Normal (Some {| rep_vertexId := "rd1"; rep_outcome := read_refused; rep_detail := Some "view withdrawn" |}).
Proof. vm_compute. done. Qed.

(** Discovery by digest accepts a view with another digest. *)
Example other_view_accepted :
  match fst (resolveToolView (serving (sample_fetch (request (newClient "") "" [] []))) sample_decode sample_hash (newClient "") (Some "sha256:other") None) with
  | Answer v => tool_view_digest (rv_identity v) = sample_digest
  | _ => False
  end /\ sample_digest <> "sha256:other".
Proof. vm_compute. done. Qed.

Definition sample_item : ReadWorkItem :=
  {| ri_vertexId := "rd1"; ri_runId := "r1"; ri_attempt := 1; ri_tool := "look"; ri_toolVersion := "1"; ri_toolViewDigest := sample_digest; ri_input := []; ri_effectClass := "none" |}.

Definition claimed_row : WorkRow := with_claim read_row 1 5 (Some "w1") (Some 30010).

Lemma claim_exclusive_witness :
  exists q', claim_ready_read sample_db (rs_queue read_state) 10 "w1" 30 = Ok (Some claimed_row, q') /\
  forall row2 q2, claim_ready_read sample_db q' 30010 "w2" 30 = Ok (Some row2, q2) -> wq_vertex_id row2 <> "rd1".
Proof.
  eexists. split; [vm_compute; reflexivity|]. intros row2 q2 H2.
  eapply (claim_exclusive sample_db (rs_queue read_state) 10 "w1" 30 claimed_row); [vm_compute; reflexivity| |exact H2]. lia.
Defined.

Definition lifting_document : ToolViewDocument :=
  {| tool_view_version := "1"; tools := [{| tool_id := "look"; tool_version := "1"; description := None; input_schema := []; output_schema := []; route_id := "r";
     adapter_protocol := "http"; adapter_operation := None; txn := txn (sample_contract "look" e_none); compensation_style := "none"; footprint := []; writes := [];
     timeout_ms := Num.of_Z 1000; retry_constraints := retry_constraints (sample_contract "look" e_none); owner := "team"; allowed_roles := []; log_fields := Some ["risk"; "order.total"; "missing"] |}] |}.

Definition lifting_fetch (_ : Request) : result Response :=
  Ok {| ok := true; status := 200; json := Ok {| rr_error := None; rr_result := Some [("_meta", VObj [("tool_view_ref", VStr "ref");
    ("tool_view_digest", VStr (match toolViewDigest sample_hash lifting_document with Ok g => g | Throw _ => "" end)); ("tool_view_document", VStr "text")])] |} |}.

Lemma summarize_exact_witness :
  exists summary s', summarize lifting_fetch (fun _ => Ok lifting_document) sample_hash read_state sample_item [("risk", VNull); ("order", VObj [("total", VStr "7")])] = (Answer summary, s') /\
  summary = [("risk", VNull); ("order.total", VStr "7")] /\ cache_sound lifting_fetch (fun _ => Ok lifting_document) sample_hash (rs_cache s').
Proof.
  eexists _, _. split; [vm_compute; reflexivity|]. split; [reflexivity|].
  eapply (summarize_exact lifting_fetch (fun _ => Ok lifting_document) sample_hash read_state sample_item [("risk", VNull); ("order", VObj [("total", VStr "7")])]);
    [by intros ? ?|vm_compute; reflexivity].
Defined.
