(* ===== verification/Oracles.v ===== *)
(** * The harness oracles (engine/src/harness/oracles.ts and runner.ts)

    An oracle reads a recorded run and passes or fails it. They are written independently of the
    engine: three of them read transaction state with [scopeHistory] rather than with the engine's
    scope fold. The runner persists a fixture and evaluates oracles on its stream. The theorems that
    the engine's own operations pass them are in OracleFacts.v. *)

From S2P Require Import Prelude Collections Number Json Events Graph Projection Store.
From Corelib Require Import SpecFloat.

Record OracleResult : Type := { or_name : string; or_passed : bool; or_detail : option string }.

Definition pass (name : string) : OracleResult := {| or_name := name; or_passed := true; or_detail := None |}.
Definition fail (name detail : string) : OracleResult := {| or_name := name; or_passed := false; or_detail := Some detail |}.

(** [${x}] of a nullable string, and of a payload field read as a string. *)
Definition null_text (o : option string) : string := default "null" o.

(** ** Forks and folds *)
Definition inheritedScopes (events : list StoredEvent) : list string :=
  JSet.of_list (omap sid (filter_by (fun e => is_type txn_try e && inherited e) events)).

Definition noInheritedMutation (events : list StoredEvent) : OracleResult :=
  let name := "O2.no_inherited_mutation" in
  let scopes := inheritedScopes events in
  if (length scopes =? 0)%nat then pass name else
  match find (fun e => negb (inherited e) && (is_type txn_cancel e || is_type txn_confirm e) &&
                       match sid e with Some s => JSet.has scopes s | None => false end) events with
  | Some violation => fail name ("mutation at run_seq " +:+ zstr (run_seq violation))
  | None => pass name
  end.

(** The object a surface vertex is; properties that were never set are absent. *)
Definition surface_vertex_value (v : SurfaceVertex) : value :=
  VObj ([("vertex_id", VStr (sv_vertex_id v)); ("parent_refs", VArr (map VStr (sv_parent_refs v))); ("role", opt_str (sv_role v));
         ("tool", opt_str (sv_tool v)); ("parameters", sv_parameters v); ("created_seq", VNum (Num.of_Z (sv_created_seq v)))] ++
        match sv_status v with Some s => [("status", VStr s)] | None => [] end ++
        match sv_result v with Some r => [("result", r)] | None => [] end ++
        match sv_matched_condition v with
        | Some (Some c) => [("matched_condition", VStr c)]
        | Some None => [("matched_condition", VNull)]
        | None => []
        end).

Section Oracles.
Context `{Collation}.
Variable sha256 : string -> string.

Definition surfaceText (events : list StoredEvent) : result string :=
  view ← surface events;
  Ok (Text.canonicalText (VArr (map surface_vertex_value (js_sort by_vertex_id (JMap.values (sf_vertices view)))))).

Definition replayIdentity (source child : list StoredEvent) : result OracleResult :=
  sourceSurface ← surfaceText source;
  childSurface ← surfaceText child;
  Ok {| or_name := "O2.replay_identity"; or_passed := sourceSurface ==? childSurface;
        or_detail := if sourceSurface ==? childSurface then None else Some "surfaces differ" |}.

(** A reducer is its reference and its function; a view is compared as JSON. *)
Definition foldPermutationInvariant (first second : list StoredEvent) (ref : string) (reduce : list StoredEvent -> value) : OracleResult :=
  let firstView := Text.canonicalText (reduce first) in
  let secondView := Text.canonicalText (reduce second) in
  {| or_name := "O4.permutation_invariant"; or_passed := firstView ==? secondView;
     or_detail := if firstView ==? secondView then None else Some ("fold differs for " +:+ ref) |}.

(** ** Routers *)

(** [proposed_seq ?? 0], a number by its type. *)
Definition proposedSeq (rejection : StoredEvent) : number :=
  match Js.nullish_or (pfield rejection "proposed_seq") (VNum (Num.of_Z 0)) with VNum n => n | _ => S754_nan end.

Definition frozenInside (events : list StoredEvent) (rejection : StoredEvent) : option StoredEvent :=
  find (fun e => is_type vertex_created e && Num.lt (proposedSeq rejection) (Num.of_Z (run_seq e)) && (run_seq e <? run_seq rejection)) events.

(** [for ... return] over a list: the first failing answer, or the last word. *)
Fixpoint first_failure {A} (check : A -> option OracleResult) (xs : list A) : option OracleResult :=
  match xs with
  | [] => None
  | x :: xs => match check x with Some r => Some r | None => first_failure check xs end
  end.

Definition routerAdmission (events : list StoredEvent) : OracleResult :=
  let name := "O2.router_admission" in
  default (pass name)
    (first_failure (fun rejection =>
       match frozenInside events rejection with
       | Some frozen => Some (fail name ("vertex " +:+ null_text (vertex_id frozen) +:+ " was created before the proposal at run_seq " +:+
                                         Num.to_string (proposedSeq rejection) +:+ " was refused"))
       | None => None
       end) (filter_by (is_type subgraph_rejected) events)).

(** [String(n).padStart(6, '0')] *)
Definition padStart6 (s : string) : string := Num.zeros (6 - String.length s) +:+ s.

Definition by_created_seq (a b : SurfaceVertex) : Z := sv_created_seq a - sv_created_seq b.

Definition ranks (vertices : list SurfaceVertex) : list (string * string) :=
  JMap.of_entries (map (fun p => (sv_vertex_id (snd p), "#" +:+ padStart6 (nstr (fst p)))) (entries (js_sort by_created_seq vertices))).

Definition byCausalRank (vertices : list SurfaceVertex) : list SurfaceVertex :=
  let rank := ranks vertices in
  map (fun v => {| sv_vertex_id := JMap.get_or "" rank (sv_vertex_id v);
                   sv_parent_refs := map (fun p => JMap.get_or p rank p) (sv_parent_refs v);
                   sv_role := sv_role v; sv_tool := sv_tool v; sv_parameters := sv_parameters v; sv_result := sv_result v;
                   sv_status := sv_status v; sv_matched_condition := sv_matched_condition v; sv_created_seq := sv_created_seq v |}) vertices.

Definition hashOf (events : list StoredEvent) (plannerVertexId : string) (versions : Versions) : result string :=
  view ← surface events;
  relevant ← slice view plannerVertexId;
  Ok (snd (assemble sha256 (linearize (byCausalRank relevant)) versions)).

Definition routerInvisibility (first second : list StoredEvent * string) (versions : Versions) : result OracleResult :=
  let name := "O4.router_invisibility" in
  firstHash ← hashOf (fst first) (snd first) versions;
  secondHash ← hashOf (fst second) (snd second) versions;
  Ok (if firstHash ==? secondHash then pass name
      else fail name ("prompt hashes differ: " +:+ firstHash +:+ " vs " +:+ secondHash)).

Definition shape_value (position : list (string * Z)) (v : SurfaceVertex) : value :=
  VObj [("role", opt_str (sv_role v)); ("tool", match sv_tool v with Some t => VStr t | None => VNull end);
        ("parents", VArr (map (fun n => VNum (Num.of_Z n))
           (js_sort Z.sub (map (fun parent => JMap.get_or (-1) position parent) (sv_parent_refs v)))))].

Definition shapeOf (events : list StoredEvent) : result string :=
  view ← surface events;
  let vertices := js_sort by_vertex_id (JMap.values (sf_vertices view)) in
  let position := JMap.of_entries (map (fun p => (sv_vertex_id (snd p), Z.of_nat (fst p))) (entries vertices)) in
  Ok (Text.canonicalText (VArr (map (shape_value position) vertices))).

Definition rulePinSubstitution (source fork : list StoredEvent) : result OracleResult :=
  let name := "O2.rule_pin_substitution" in
  sourceShape ← shapeOf source;
  forkShape ← shapeOf fork;
  Ok (if sourceShape ==? forkShape then pass name else fail name "fork and source differ structurally, not only in a pin").
End Oracles.

(** ** Deterministic branches *)
Definition created_events (events : list StoredEvent) : list StoredEvent :=
  filter_by (fun e => is_type vertex_created e && match vid e with Some _ => true | None => false end) events.

(** The created vertices of a role. *)
Definition role_set (role : string) (created : list StoredEvent) : list string :=
  JSet.of_list (omap vertex_id (filter_by (fun e => pstr e "role" ==? Some role) created)).

Definition startedAt (routers : list string) (events : list StoredEvent) : list (string * Z) :=
  JMap.of_entries (omap (fun e => match vid e with
                                  | Some v => if is_type vertex_started e && JSet.has routers v then Some (v, run_seq e) else None
                                  | None => None
                                  end) events).

(** [(startedAt.get(parent) ?? Infinity) < event.run_seq] *)
Definition startedBefore (started : list (string * Z)) (parent : string) (seq : Z) : bool :=
  match JMap.get started parent with Some q => q <? seq | None => false end.

Definition deterministicStep (started : list (string * Z)) (deterministic : list string) (e : StoredEvent) : list string :=
  match vid e with
  | Some v =>
      if existsb (fun parent => startedBefore started parent (run_seq e)) (parent_refs e) || existsb (JSet.has deterministic) (parent_refs e)
      then JSet.add deterministic v else deterministic
  | None => deterministic
  end.

Definition deterministicVertices (events : list StoredEvent) : list string :=
  let created := created_events events in
  fold_left (deterministicStep (startedAt (role_set "router" created) events)) created [].

Definition noDeterministicReplan (events : list StoredEvent) : OracleResult :=
  let name := "O2.no_deterministic_replan" in
  let deterministic := deterministicVertices events in
  match find (fun e => is_type vertex_failed e && match vid e with Some v => JSet.has deterministic v | None => false end) events with
  | None => pass name
  | Some failure =>
  match find (fun e => is_type replan_boundary e && (run_seq failure <? run_seq e) && Js.truthy_value (pfield e "selected")) events with
  | Some replan => fail name ("replan/boundary at run_seq " +:+ zstr (run_seq replan) +:+ " follows a deterministic branch failure at " +:+ zstr (run_seq failure))
  | None =>
  let planners := role_set "planner" (created_events events) in
  match find (fun e => is_type vertex_started e && (run_seq failure <? run_seq e) &&
                       match vid e with Some v => JSet.has planners v | None => false end) events with
  | Some called => fail name ("planner " +:+ null_text (vertex_id called) +:+ " started after a deterministic branch failure at run_seq " +:+ zstr (run_seq failure))
  | None => pass name
  end end end.

(** ** Cancel before replan *)

(** One scope's history; [None] of [openedAt] is [Infinity], of the others [undefined]. *)
Record ScopeHistory : Type := {
  sh_openedAt : option Z;
  sh_cancellingAt : option Z;
  sh_closedAt : option Z;
  sh_suspendedAt : option Z;
  sh_pivotAt : option Z;
  sh_members : list string
}.

Definition noHistory : ScopeHistory :=
  {| sh_openedAt := None; sh_cancellingAt := None; sh_closedAt := None; sh_suspendedAt := None; sh_pivotAt := None; sh_members := [] |}.

(** [field ??= seq] under a condition, and [Math.min(field, seq)] *)
Definition assign_once (b : bool) (field : option Z) (seq : Z) : option Z :=
  if b then match field with Some q => Some q | None => Some seq end else field.
Definition min_assign (b : bool) (field : option Z) (seq : Z) : option Z :=
  if b then Some (match field with Some q => Z.min q seq | None => seq end) else field.

(** The conditions of the assignments, on one event. *)
Definition opens (e : StoredEvent) : bool := is_type txn_scope e || is_type txn_try e.
Definition closes_state (e : StoredEvent) : bool :=
  is_type txn_scope e && ((pstr e "state" ==? Some "committed") || (pstr e "state" ==? Some "cancelled")).
Definition suspends (e : StoredEvent) : bool := is_type txn_scope e && (pstr e "state" ==? Some "suspended").
Definition starts_cancelling (e : StoredEvent) : bool := is_type txn_cancel e && (pstr e "phase" ==? Some "requested").
Definition completes_cancelling (e : StoredEvent) : bool := is_type txn_cancel e && (pstr e "phase" ==? Some "completed").
Definition starts_pivot (e : StoredEvent) : bool := is_type vertex_started e && (pstr e "phase" ==? Some "pivot").

Definition history_step (h : ScopeHistory) (e : StoredEvent) : ScopeHistory :=
  {| sh_openedAt := min_assign (opens e) (sh_openedAt h) (run_seq e);
     sh_cancellingAt := assign_once (starts_cancelling e) (sh_cancellingAt h) (run_seq e);
     sh_closedAt := assign_once (completes_cancelling e) (assign_once (closes_state e) (sh_closedAt h) (run_seq e)) (run_seq e);
     sh_suspendedAt := assign_once (suspends e) (sh_suspendedAt h) (run_seq e);
     sh_pivotAt := assign_once (starts_pivot e) (sh_pivotAt h) (run_seq e);
     sh_members := match vid e with
                   | Some v => if is_type vertex_created e then JSet.add (sh_members h) v else sh_members h
                   | None => sh_members h
                   end |}.

Definition scopeHistory (events : list StoredEvent) : list (string * ScopeHistory) :=
  fold_left (fun scopes e => match sid e with
                             | Some s => JMap.set scopes s (history_step (JMap.get_or noHistory scopes s) e)
                             | None => scopes
                             end) events [].

(** [seq !== undefined && seq < bound] *)
Definition before (seq : option Z) (bound : Z) : bool := match seq with Some q => q <? bound | None => false end.

Definition citedTooEarly (events : list StoredEvent) (scopes : list (string * ScopeHistory)) (boundary : StoredEvent) (cited : string) : bool :=
  let closed := JMap.get scopes cited ≫= sh_closedAt in
  let completed := existsb (fun e => (scope_id e ==? Some cited) && completes_cancelling e && (run_seq e <? run_seq boundary)) events in
  negb completed || match closed with None => true | Some _ => false end.

Definition escalationScope (events : list StoredEvent) (boundary : StoredEvent) : option string :=
  match pstr boundary "failed_vertex_id" with
  | Some failed => find (fun e => is_type vertex_created e && names_vertex failed e) events ≫= sid
  | None => None
  end.

Definition unreleased (scopes : list (string * ScopeHistory)) (own : string) (seq : Z) : bool :=
  match JMap.get scopes own with
  | Some scope => before (sh_openedAt scope) seq &&
                  negb (existsb (fun q => before q seq) [sh_closedAt scope; sh_suspendedAt scope; sh_pivotAt scope])
  | None => false
  end.

Definition discardsUnclosed (discarded : list string) (seq : Z) (scope : ScopeHistory) : bool :=
  match sh_openedAt scope with Some q => q <=? seq | None => false end &&
  existsb (JSet.has discarded) (sh_members scope) &&
  match sh_closedAt scope with None => true | Some q => seq <? q end.

(** The body of the loop at one boundary, with the events after it. *)
Definition checkBoundary (events : list StoredEvent) (scopes : list (string * ScopeHistory)) (boundary : StoredEvent) (later : list StoredEvent)
    : option OracleResult :=
  let name := "O2.cancel_before_replan" in
  match find (citedTooEarly events scopes boundary) (pstrings boundary "cancelled_scopes") with
  | Some cited => Some (fail name ("boundary at run_seq " +:+ zstr (run_seq boundary) +:+ " cites " +:+ cited +:+ " as cancelled before it had finished cancelling"))
  | None =>
  if negb (Js.truthy_value (pfield boundary "selected")) then
    match escalationScope events boundary with
    | Some own => if unreleased scopes own (run_seq boundary)
                  then Some (fail name ("escalation at run_seq " +:+ zstr (run_seq boundary) +:+ " left scope " +:+ own +:+ " of " +:+
                                        default "undefined" (pstr boundary "failed_vertex_id") +:+ " unreleased"))
                  else None
    | None => None
    end
  else
    let discarded := match find (is_type subgraph_shadowed) later with Some shadow => JSet.of_list (pstrings shadow "vertex_ids") | None => [] end in
    match find (fun p => discardsUnclosed discarded (run_seq boundary) (snd p)) scopes with
    | Some (scopeId, _) => Some (fail name ("boundary at run_seq " +:+ zstr (run_seq boundary) +:+ " discards work in scope " +:+ scopeId +:+ ", which had not closed"))
    | None => None
    end
  end.

Fixpoint checkBoundaries (events : list StoredEvent) (scopes : list (string * ScopeHistory)) (rest : list StoredEvent) : option OracleResult :=
  match rest with
  | [] => None
  | e :: later =>
      if negb (is_type replan_boundary e) then checkBoundaries events scopes later else
      match checkBoundary events scopes e later with
      | Some r => Some r
      | None => checkBoundaries events scopes later
      end
  end.

Definition cancelBeforeReplan (events : list StoredEvent) : OracleResult :=
  default (pass "O2.cancel_before_replan") (checkBoundaries events (scopeHistory events) events).

(** ** Cancellation requests *)

(** [Math.min] of two positions, [None] being [Infinity]. *)
Definition min_seq (a b : option Z) : option Z :=
  match a, b with Some x, Some y => Some (Z.min x y) | Some x, None | None, Some x => Some x | None, None => None end.

Definition resolvedAt (scopes : list (string * ScopeHistory)) (scopeId : string) : option Z :=
  min_seq (JMap.get scopes scopeId ≫= sh_closedAt) (JMap.get scopes scopeId ≫= sh_suspendedAt).

(** [seq < bound] where the bound may be [Infinity]. *)
Definition below (seq : Z) (bound : option Z) : bool := match bound with Some q => seq <? q | None => true end.

Definition checkRequest (events : list StoredEvent) (scopes : list (string * ScopeHistory)) (final : bool) (request : StoredEvent)
    (requested : list (string * Z)) (scopeId : string) : OracleResult + list (string * Z) :=
  let name := "O2.cancel_request_discipline" in
  let at_ := zstr (run_seq request) in
  match JMap.get requested scopeId with
  | Some q => inl (fail name ("scope " +:+ scopeId +:+ " requested twice, at run_seq " +:+ zstr q +:+ " and " +:+ at_))
  | None =>
  let requested := JMap.set requested scopeId (run_seq request) in
  let unopened := inl (fail name ("scope " +:+ scopeId +:+ " was requested at run_seq " +:+ at_ +:+ " before the Coordinator opened it")) in
  match JMap.get scopes scopeId with
  | None => unopened
  | Some scope =>
  if match sh_openedAt scope with Some q => run_seq request <? q | None => true end then unopened else
  if existsb (fun q => before q (run_seq request)) [sh_cancellingAt scope; sh_closedAt scope; sh_suspendedAt scope; sh_pivotAt scope]
  then inl (fail name ("scope " +:+ scopeId +:+ " was requested at run_seq " +:+ at_ +:+ " after it could no longer be cancelled")) else
  let resolved := resolvedAt scopes scopeId in
  match find (fun e => is_type replan_boundary e && Js.strict_eq (pfield e "failed_vertex_id") (pfield request "failed_vertex_id") &&
                       (run_seq request <? run_seq e) && below (run_seq e) resolved) events with
  | Some early => inl (fail name ("boundary at run_seq " +:+ zstr (run_seq early) +:+ " answered " +:+ Js.to_text (pfield request "failed_vertex_id") +:+
                                  " before scope " +:+ scopeId +:+ " resolved"))
  | None =>
  if final && match resolved with None => true | Some _ => false end
  then inl (fail name ("scope " +:+ scopeId +:+ " requested at run_seq " +:+ at_ +:+ " never resolved")) else inr requested
  end end end.

(** A loop that returns early with an answer, or goes on with its state. *)
Fixpoint loop {S A} (body : S -> A -> OracleResult + S) (s : S) (xs : list A) : OracleResult + S :=
  match xs with
  | [] => inr s
  | x :: xs => match body s x with inl r => inl r | inr s => loop body s xs end
  end.

Definition cancelRequestDiscipline (events : list StoredEvent) (final : bool) : OracleResult :=
  let scopes := scopeHistory events in
  match loop (fun requested request =>
                if negb (is_type replan_cancel_requested request) then inr requested
                else loop (checkRequest events scopes final request) requested (pstrings request "scope_ids")) [] events with
  | inl r => r
  | inr _ => pass "O2.cancel_request_discipline"
  end.

(** ** One answer per failure *)

(** The vertex whose answer an event makes due again. *)
Definition failedVertex (e : StoredEvent) : option string :=
  truthy (if is_type vertex_failed e then vertex_id e
          else if is_type subgraph_unreadable e then pstr e "planner_vertex_id" else None).

(** The map is keyed by what a boundary names, which may be nothing. *)
Definition answerStep (answers : list (option string * Z)) (e : StoredEvent) : OracleResult + list (option string * Z) :=
  let answers := match failedVertex e with Some v => JMap.set answers (Some v) 0 | None => answers end in
  if negb (is_type replan_boundary e) then inr answers else
  let answered := pstr e "failed_vertex_id" in
  let count := JMap.get_or 0 answers answered + 1 in
  if 1 <? count
  then inl (fail "O2.one_answer_per_failure" (default "undefined" answered +:+ " answered a second time at run_seq " +:+ zstr (run_seq e)))
  else inr (JMap.set answers answered count).

Definition oneAnswerPerFailure (events : list StoredEvent) : OracleResult :=
  match loop answerStep [] events with
  | inl r => r
  | inr _ => pass "O2.one_answer_per_failure"
  end.

(** ** The runner *)
Record Fixture : Type := { fx_id : string; fx_events : list EventDraft; fx_expected : option (list string) }.

Record FixtureResult : Type := { fr_id : string; fr_run_id : string; fr_events : list StoredEvent; fr_oracles : list OracleResult }.

Section Runner.
Context {db : Type} `{!Database db}.
Variable validateSchema : EventDraft -> bool.
Variable schemaErrors : EventDraft -> string.
Variable actor : Actor.

(** [oracles] defaults to [[noInheritedMutation]]; [runId] is what [createRun] allocates. *)
Definition runFixture (d : db) (runId : string) (fixture : Fixture) (oracles : option (list (list StoredEvent -> OracleResult))) : result FixtureResult * db :=
  match createRun actor d runId with
  | (Throw e, d1) => (Throw e, d1)
  | (Ok runId, d1) =>
      match appendEvents validateSchema schemaErrors d1 runId (fx_events fixture) with
      | (Throw e, d2) => (Throw e, d2)
      | (Ok _, d2) =>
          let events := readStream d2 runId None in
          (Ok {| fr_id := fx_id fixture; fr_run_id := runId; fr_events := events;
                 fr_oracles := map (fun oracle => oracle events) (default [noInheritedMutation] oracles) |}, d2)
      end
  end.
End Runner.
