(* ===== verification/OracleFacts.v ===== *)
(** * The engine passes its own oracles

    The harness checks recorded runs with readings of the log that are independent of the engine's
    ([scopeHistory] against [scopeCancellations], windows and counts against the decisions). Here the
    two readings are related, and the operations of the engine that append to a run are shown to keep
    the oracles passing. *)

From S2P Require Import Prelude Collections Number Json JsonParse JsText Events Graph Fork Projection Scopes Phases Lineage Llm CheckRules ToolView Gateway RuleTemplate Workflow WorkflowFacts Store StoreFacts Submission Planner ProposalFacts PlannerFacts Recovery RecoveryFacts RecoveryLoop Oracles.

(** ** The oracles' history of one scope *)
Definition own (s : string) (e : StoredEvent) : bool := sid e ==? Some s.
Definition history (events : list StoredEvent) (s : string) : ScopeHistory := fold_left history_step (filter_by (own s) events) noHistory.

Lemma history_snoc events e s :
  history (events ++ [e]) s = if own s e then history_step (history events s) e else history events s.
Proof. unfold history. rewrite filter_by_app, fold_left_app. cbn [List.filter]. by destruct (own s e). Qed.

Lemma get_scopeHistory events s :
  JMap.get (scopeHistory events) s = if existsb (own s) events then Some (history events s) else None.
Proof.
  induction events as [|e events IH] using rev_ind; [done|]. unfold scopeHistory in *. rewrite fold_left_app, existsb_app, history_snoc.
  cbn [fold_left existsb]. rewrite orb_false_r. unfold own at 2 3. destruct (sid e) as [t|].
  - rewrite get_set. unfold JMap.get_or in *. destruct (decide (t = s)) as [->|Hne].
    + rewrite !eqb_refl, orb_true_r, IH. destruct (existsb (own s) events) eqn:Ex; [done|]. cbn.
      do 2 f_equal. unfold history. rewrite existsb_false in Ex.
      assert (filter_by (own s) events = []) as ->; [|done]. apply elem_of_nil_inv. intros x Hx. apply elem_of_filter_by in Hx as [Hx Ho].
      by rewrite Ex in Ho.
    + rewrite (proj2 (eqb_false t s)), (proj2 (eqb_false (Some t) (Some s))), orb_false_r by congruence. done.
  - rewrite (proj2 (eqb_false None (Some s))), orb_false_r by done. done.
Qed.

Lemma NoDup_scopeHistory events : NoDup (JMap.keys (scopeHistory events)).
Proof.
  induction events as [|e events IH] using rev_ind; [constructor|]. unfold scopeHistory in *. rewrite fold_left_app. cbn [fold_left].
  destruct (sid e); [by apply NoDup_keys_set|done].
Qed.

(** A field that is assigned once holds the position of the first event that assigns it. *)
Lemma history_once (field : ScopeHistory -> option Z) (cond : StoredEvent -> bool) events s :
  field noHistory = None -> (forall h e, field (history_step h e) = assign_once (cond e) (field h) (run_seq e)) ->
  field (history events s) = run_seq <$> find (fun e => own s e && cond e) events.
Proof.
  intros H0 Hstep. induction events as [|e events IH] using rev_ind; [done|]. rewrite history_snoc.
  assert (forall p, find p (events ++ [e]) = match find p events with Some x => Some x | None => if p e then Some e else None end) as Hf.
  { intros p. clear. induction events as [|x l IHl]; cbn; [by destruct (p e)|]. by destruct (p x). }
  rewrite Hf. destruct (own s e); cbn [andb].
  - rewrite Hstep, IH. unfold assign_once. destruct (cond e), (find _ events); done.
  - rewrite IH. by destruct (find _ events).
Qed.

Definition closing (e : StoredEvent) : bool := closes_state e || completes_cancelling e.

Lemma closedAt_first events s : sh_closedAt (history events s) = run_seq <$> find (fun e => own s e && closing e) events.
Proof.
  apply (history_once sh_closedAt closing); [done|]. intros h e. cbn. unfold closing, assign_once.
  destruct (closes_state e), (completes_cancelling e), (sh_closedAt h); done.
Qed.
Lemma suspendedAt_first events s : sh_suspendedAt (history events s) = run_seq <$> find (fun e => own s e && suspends e) events.
Proof. by apply (history_once sh_suspendedAt suspends). Qed.
Lemma pivotAt_first events s : sh_pivotAt (history events s) = run_seq <$> find (fun e => own s e && starts_pivot e) events.
Proof. by apply (history_once sh_pivotAt starts_pivot). Qed.
Lemma cancellingAt_first events s : sh_cancellingAt (history events s) = run_seq <$> find (fun e => own s e && starts_cancelling e) events.
Proof. by apply (history_once sh_cancellingAt starts_cancelling). Qed.

Lemma openedAt_spec events s :
  match sh_openedAt (history events s) with
  | Some q => (exists e, e ∈ events /\ own s e = true /\ opens e = true /\ run_seq e = q) /\
              forall e, e ∈ events -> own s e = true -> opens e = true -> q <= run_seq e
  | None => forall e, e ∈ events -> own s e = true -> opens e = false
  end.
Proof.
  induction events as [|e events IH] using rev_ind; [cbn; set_solver|]. rewrite history_snoc. set (h := history events s) in *.
  assert (match sh_openedAt (if own s e then history_step h e else h) with
          | Some q => (exists x, (x ∈ events \/ x = e) /\ own s x = true /\ opens x = true /\ run_seq x = q) /\
                      forall x, (x ∈ events \/ x = e) -> own s x = true -> opens x = true -> q <= run_seq x
          | None => forall x, (x ∈ events \/ x = e) -> own s x = true -> opens x = false end) as Hgoal.
  2:{ destruct (sh_openedAt (if own s e then history_step h e else h)); setoid_rewrite elem_of_app; by setoid_rewrite list_elem_of_singleton. }
  destruct (own s e) eqn:Eo.
  2:{ destruct (sh_openedAt h) as [q|]; [|intros x [Hx| ->]; [by apply IH|congruence]]. destruct IH as [(x & Hx & ?) Hm].
      split; [exists x; tauto|]. intros y [Hy| ->]; [by apply Hm|congruence]. }
  cbn [history_step sh_openedAt]. unfold min_assign. destruct (opens e) eqn:Ep.
  - destruct (sh_openedAt h) as [q|].
    + destruct IH as [(x & Hx & Hxo & Hxp & Hq) Hm]. split.
      * destruct (Z.min_spec q (run_seq e)) as [[? ->]|[? ->]]; [exists x; tauto|exists e; tauto].
      * intros y [Hy| ->] Ho Hp; [specialize (Hm y Hy Ho Hp); lia|lia].
    + split; [exists e; tauto|]. intros y [Hy| ->] Ho Hp; [by rewrite (IH y Hy Ho) in Hp|lia].
  - destruct (sh_openedAt h) as [q|]; [|intros x [Hx| ->]; [by apply IH|done]]. destruct IH as [(x & Hx & ?) Hm].
    split; [exists x; tauto|]. intros y [Hy| ->]; [by apply Hm|congruence].
Qed.

Lemma members_step h e v : v ∈ sh_members (history_step h e) <-> v ∈ sh_members h \/ (is_type vertex_created e = true /\ vid e = Some v).
Proof.
  cbn [history_step sh_members]. destruct (vid e) as [w|]; [|naive_solver]. destruct (is_type vertex_created e); [rewrite elem_of_add|]; naive_solver.
Qed.

Lemma members_spec events s v :
  v ∈ sh_members (history events s) <-> exists e, e ∈ events /\ own s e = true /\ is_type vertex_created e = true /\ vid e = Some v.
Proof.
  induction events as [|e events IH] using rev_ind; [cbn; set_solver|]. rewrite history_snoc.
  setoid_rewrite elem_of_app. setoid_rewrite list_elem_of_singleton.
  transitivity (v ∈ sh_members (history events s) \/ (own s e = true /\ is_type vertex_created e = true /\ vid e = Some v)).
  - destruct (own s e); [rewrite members_step|]; intuition congruence.
  - rewrite IH. clear IH. split; [intros [(x & ?)|?]; [exists x; tauto|exists e; tauto]|]. intros (x & [Hx| ->] & Hr); [left; by exists x|by right].
Qed.

(** ** The phase against the history *)

(** Decides the comparisons of two given event types. *)
Ltac event_types :=
  repeat match goal with
  | |- context [@eqb EventType ?d ?a ?b] =>
      let r := eval vm_compute in (@eqb EventType d a b) in
      match r with true => idtac | false => idtac end; change (@eqb EventType d a b) with r
  end; cbn [andb orb].

(** The transitions of the machine, and the events that force one. *)
Lemma own_step_inv p e :
  own_step p e = p \/ (own_step p e = open /\ p = unmaterialized) \/
  (own_step p e = suspended /\ suspends e = true) \/
  ((own_step p e = committed \/ own_step p e = cancelled) /\ closing e = true) \/
  (own_step p e = pivot_inflight /\ starts_pivot e = true) \/ (own_step p e = pivot_passed /\ event_type e = txn_pivot_passed) \/
  (own_step p e = Scopes.fenced /\ (p = open \/ (p = pivot_inflight /\ pstr e "outcome" = Some "confirmed-absent"))) \/
  (own_step p e = cancelling /\ event_type e = txn_cancel /\ pstr e "phase" <> Some "completed").
Proof.
  unfold own_step, suspends, closing, closes_state, completes_cancelling, starts_pivot, is_type.
  destruct (event_type e); event_types; repeat case_eqb; subst; cbn [andb orb]; tauto.
Qed.

Ltac own_cases p e :=
  destruct (own_step_inv p e) as [Hp|[[Hp Hm]|[[Hp Hm]|[[[Hp|Hp] Hm]|[[Hp Hm]|[[Hp Hm]|[[Hp Hm]|[Hp Hm]]]]]]]].

(** The Coordinator writes a scope's state as open, suspended or committed; it reports a cancellation
    that started and one that finished with [txn/cancel]. *)
Definition coordinator_state (e : StoredEvent) : Prop :=
  (event_type e = txn_scope -> pstr e "state" ∈ [Some "open"; Some "suspended"; Some "committed"]) /\
  (event_type e = txn_cancel -> pstr e "phase" ∈ [Some "requested"; Some "completed"]).

Lemma own_step_marks p e :
  (closing e = true -> own_step p e = committed \/ own_step p e = cancelled) /\
  (suspends e = true -> own_step p e = suspended) /\ (starts_pivot e = true -> own_step p e = pivot_inflight) /\
  (starts_cancelling e = true -> own_step p e = cancelling) /\
  (coordinator_state e -> opens e = true -> own_step p e <> unmaterialized).
Proof.
  unfold own_step, suspends, closing, closes_state, completes_cancelling, starts_pivot, starts_cancelling, opens, coordinator_state, is_type.
  split_and!; destruct (event_type e); event_types; try done.
  - case_eqb; [intros _; rewrite E; tauto|]. cbn [orb]. rewrite orb_false_r. intros Hm. bool_prop. rewrite Hm. tauto.
  - intros Hm. bool_prop. rewrite Hm. tauto.
  - intros Hm. bool_prop. by rewrite Hm.
  - intros Hm. bool_prop. by rewrite Hm.
  - intros Hm. bool_prop. by rewrite Hm.
  - intros [Hs _] _. specialize (Hs eq_refl). rewrite !elem_of_cons, elem_of_nil in Hs. destruct Hs as [->|[->|[->|[]]]]; by repeat case_eqb.
  - intros _ _. by case_eqb.
Qed.

(** An event of the scope, somewhere in the log. *)
Definition seen (events : list StoredEvent) (s : string) (cond : StoredEvent -> bool) : Prop :=
  exists e, e ∈ events /\ own s e = true /\ cond e = true.

Lemma seen_snoc events e s cond : seen events s cond -> seen (events ++ [e]) s cond.
Proof. intros (x & Hx & H). exists x. rewrite elem_of_app. tauto. Qed.

Lemma seen_last events e s cond : own s e = true -> cond e = true -> seen (events ++ [e]) s cond.
Proof. intros Ho Hc. exists e. rewrite elem_of_app, list_elem_of_singleton. tauto. Qed.

Lemma unseen_snoc events e s cond : ~ seen events s cond -> (own s e = true -> cond e = false) -> ~ seen (events ++ [e]) s cond.
Proof.
  intros Hn He (x & Hx & Ho & Hc). apply elem_of_app in Hx as [Hx|Hx%list_elem_of_singleton]; [apply Hn; by exists x|subst].
  rewrite He in Hc; done.
Qed.

Lemma seen_find events s cond : seen events s cond <-> is_Some (run_seq <$> find (fun e => own s e && cond e) events).
Proof.
  rewrite fmap_is_Some, find_is_Some. unfold seen. split; intros (e & He & Hb); exists e.
  - destruct Hb as [-> ->]. done.
  - apply andb_true_iff in Hb as [? ?]. done.
Qed.

(** What a phase says has happened. *)
Record phase_evidence (events : list StoredEvent) (s : string) (p : ScopePhase) : Prop := {
  pe_unmaterialized : p = unmaterialized -> ~ seen events s opens;
  pe_closed : p = committed \/ p = cancelled -> seen events s closing;
  pe_suspended : p = suspended -> seen events s suspends;
  pe_passed : p = pivot_passed -> seen events s (is_type txn_pivot_passed);
  pe_inflight : p = pivot_inflight -> seen events s starts_pivot;
  pe_cancelling : p = cancelling -> seen events s starts_cancelling
}.

Lemma phase_step_other s p e :
  own s e = false -> phase_step s p e = p \/ (phase_step s p e = cancel_requested /\ (p = open \/ p = Scopes.fenced)).
Proof.
  intros Ho. unfold phase_step. unfold own in Ho. destruct (is_type _ e); [|rewrite Ho; tauto].
  destruct (includes s _); cbn [andb]; [|tauto]. destruct (includes p _) eqn:Ei; [|tauto]. apply includes_true in Ei. set_solver.
Qed.

(** The engine's own requests carry no scope. *)
Definition request_unscoped (e : StoredEvent) : Prop := event_type e = replan_cancel_requested -> sid e = None.

Lemma phase_step_own s p e : request_unscoped e -> own s e = true -> phase_step s p e = own_step p e.
Proof.
  intros Hr Ho. unfold phase_step. unfold own in Ho. rewrite Ho. destruct (is_type _ e) eqn:Et; [|done].
  apply is_type_true, Hr in Et. rewrite Et in Ho. done.
Qed.

Definition coordinated (e : StoredEvent) : Prop := coordinator_state e /\ request_unscoped e.

Lemma phase_evidence_holds events s : Forall coordinated events -> phase_evidence events s (phase_after events s).
Proof.
  induction events as [|e events IH] using rev_ind; intros Hall.
  { split; cbn; try done; [intros _ (x & []%elem_of_nil & _)|by intros []]. }
  apply Forall_app in Hall as [Hall He]. apply Forall_singleton in He as [Hst Hr]. destruct (IH Hall) as [H1 H2 H3 H4 H5 H6].
  rewrite phase_after_snoc. set (p := phase_after events s) in *. destruct (own s e) eqn:Eo.
  - rewrite phase_step_own by done. destruct (own_step_marks p e) as (_ & _ & _ & _ & Ho). split.
    + intros Hu. apply unseen_snoc.
      * own_cases p e; try congruence. apply H1. congruence.
      * intros _. destruct (opens e) eqn:Eop; [|done]. by specialize (Ho Hst eq_refl).
    + intros Hu. own_cases p e; try (destruct Hu; congruence); [|by apply seen_last..]. apply seen_snoc, H2. by rewrite <- Hp.
    + intros Hu. own_cases p e; try congruence; [|by apply seen_last]. apply seen_snoc, H3. congruence.
    + intros Hu. own_cases p e; try congruence; [apply seen_snoc, H4; congruence|]. apply seen_last; [done|]. by apply is_type_true.
    + intros Hu. own_cases p e; try congruence; [apply seen_snoc, H5; congruence|by apply seen_last].
    + intros Hu. own_cases p e; try congruence; [apply seen_snoc, H6; congruence|]. destruct Hm as [Ht Hph]. apply seen_last; [done|].
      destruct Hst as [_ Hst]. specialize (Hst Ht). rewrite !elem_of_cons, elem_of_nil in Hst. unfold starts_cancelling. apply is_type_true in Ht as ->.
      destruct Hst as [Hw|[Hw|[]]]; [by rewrite Hw|congruence].
  - destruct (phase_step_other s p e Eo) as [->|[-> _]]; (split; intros Hu; try congruence; try (by destruct Hu)).
    1: apply unseen_snoc; [by apply H1|congruence].
    all: apply seen_snoc; auto.
Qed.

(** ** What a decision cites and leaves *)
Section Decisions.
Context `{Collation}.
Context (events : list StoredEvent) (v : string) (policy : RecoveryPolicy) (locked : option (list LockedScope)).

Lemma elem_of_scope_values sc : sc ∈ JMap.values (scopeCancellations events) -> JMap.get (scopeCancellations events) (sc_scopeId sc) = Some sc.
Proof.
  intros Hin. apply elem_of_map in Hin as ([s sc'] & -> & Hin). cbn [snd].
  assert (NoDup (JMap.keys (scopeCancellations events))) as Hnd.
  { unfold scopeCancellations, JMap.keys. rewrite map_map. apply (NoDup_keys_foldScopes events). }
  pose proof (get_elem _ _ _ Hnd Hin) as Hg. by rewrite (scopeCancellations_ids _ _ _ Hg).
Qed.

Lemma cancelledFor_cancelled relevant s :
  s ∈ cancelledFor (contextOf events v policy locked) relevant -> exists sc, JMap.get (scopeCancellations events) s = Some sc /\ sc_phase sc = cancelled.
Proof.
  unfold cancelledFor. rewrite elem_of_js_sort, elem_of_addAll, elem_of_nil. intros [[]|Hs]. apply elem_of_map in Hs as (sc & -> & Hs).
  apply elem_of_filter_by in Hs as [Hs Hc]. bool_prop. exists sc. split; [by apply elem_of_scope_values|done].
Qed.

Lemma decision_cites d s :
  selectBoundary events v policy locked = Ok d -> s ∈ bd_cancelledScopes d ->
  exists sc, JMap.get (scopeCancellations events) s = Some sc /\ sc_phase sc = cancelled.
Proof.
  intros Hd. apply selectBoundary_decided in Hd. destruct Hd as [rows reason _ _|base level reason Hb _|view cmp best depth _ _ _ _ _ _].
  - by intros []%elem_of_nil.
  - unfold terminal. repeat case_match; cbn; try (by intros []%elem_of_nil); apply cancelledFor_cancelled.
  - unfold resumeAt. repeat case_match; cbn [with_outcome bd_cancelledScopes]; try (by intros []%elem_of_nil); apply cancelledFor_cancelled.
Qed.

Lemma decision_escalates d :
  selectBoundary events v policy locked = Ok d -> bd_action d = record -> bd_selected d = None ->
  forall sc, scopeOf events v (scopeCancellations events) = Some sc ->
    sc_phase sc ∉ [open; Scopes.fenced; cancel_requested; cancelling; pivot_inflight].
Proof.
  intros Hd Ha Hs. apply selectBoundary_decided in Hd. destruct Hd as [rows reason _ _|base level reason Hb _|view cmp best depth _ _ _ _ _ _].
  - done.
  - destruct (terminal_spec (contextOf events v policy locked) base level reason _ Hb eq_refl) as (_ & _ & _ & _ & Hact).
    rewrite Ha in Hact. by destruct Hact as (_ & _ & _ & Hact).
  - apply resumeAt_record in Ha as (_ & _ & _ & Hsel & _). congruence.
Qed.
End Decisions.

(** ** Scopes the log shows, read both ways *)

(** A pivot passes only after it was started. *)
Definition pivots_started (events : list StoredEvent) : Prop :=
  forall pre e post s, events = pre ++ e :: post -> event_type e = txn_pivot_passed -> own s e = true -> seen pre s starts_pivot.

Lemma passed_started events s : pivots_started events -> seen events s (is_type txn_pivot_passed) -> seen events s starts_pivot.
Proof.
  intros Hp (e & He & Ho & Ht). apply is_type_true in Ht. apply list_elem_of_split in He as (pre & post & ->).
  destruct (Hp pre e post s eq_refl Ht Ho) as (x & Hx & Hr). exists x. rewrite elem_of_app. tauto.
Qed.

Lemma own_reported events s e :
  Forall coordinated events -> e ∈ events -> own s e = true -> exists sc, JMap.get (scopeCancellations events) s = Some sc /\ scope_facts events s sc.
Proof.
  intros Hco He Ho. pose proof (scope_evidence events s) as Hev. destruct (JMap.get (scopeCancellations events) s) as [sc|].
  - exists sc. tauto.
  - specialize (Hev e He). rewrite Forall_forall in Hco. destruct (Hco e He) as [_ Hr]. unfold mentions in Hev. unfold own in Ho.
    destruct (is_type replan_cancel_requested e) eqn:Et; [|congruence]. apply is_type_true, Hr in Et. by rewrite Et in Ho.
Qed.

(** A position of the history is before a boundary that follows the whole log. *)
Lemma seen_before events s cond (field : ScopeHistory -> option Z) q :
  field (history events s) = run_seq <$> find (fun e => own s e && cond e) events ->
  (forall e, e ∈ events -> run_seq e < q) -> seen events s cond -> before (field (history events s)) q = true.
Proof.
  intros Hf Hq Hs. apply seen_find in Hs as [x Hx]. rewrite Hf, Hx. cbn. apply Z.ltb_lt.
  apply fmap_Some in Hx as (e & He & ->). apply find_Some in He as [He _]. by apply Hq.
Qed.

(** A cancelled phase has its completed [txn/cancel]. *)
Lemma cancelled_completed events s sc :
  Forall coordinated events -> JMap.get (scopeCancellations events) s = Some sc -> sc_phase sc = cancelled ->
  seen events s completes_cancelling.
Proof.
  intros Hco Hg Hp. pose proof (scope_evidence events s) as Hev. rewrite Hg in Hev. destruct Hev as [_ Hf].
  destruct (sf_cancelled _ _ _ Hf Hp) as (e & He & (Hsid & Hdone) & _). exists e. split; [done|]. split; [by apply eqb_true|].
  unfold completes_cancelling. destruct Hdone as [[Ht Hph]|[Ht Hst]].
  - apply is_type_true in Ht as ->. by rewrite Hph.
  - rewrite Forall_forall in Hco. destruct (Hco e He) as [[Hcs _] _]. specialize (Hcs Ht). rewrite Hst in Hcs. set_solver.
Qed.

(** ** Cancel before replan *)
Lemma checkBoundary_fails events scopes b later r : checkBoundary events scopes b later = Some r -> or_passed r = false.
Proof. unfold checkBoundary. repeat case_match; try done; by intros [= <-]. Qed.

Lemma checkBoundaries_None events scopes rest :
  checkBoundaries events scopes rest = None <->
  forall pre b later, rest = pre ++ b :: later -> event_type b = replan_boundary -> checkBoundary events scopes b later = None.
Proof.
  induction rest as [|e rest IH]; cbn [checkBoundaries].
  { split; [|done]. intros _ pre b later Hc. by destruct pre. }
  destruct (is_type replan_boundary e) eqn:Et; cbn [negb].
  - apply is_type_true in Et. destruct (checkBoundary events scopes e rest) eqn:Ec.
    + split; [done|]. intros Hall. by rewrite (Hall [] e rest) in Ec.
    + rewrite IH. split; intros Hall pre b later Heq Hb; [|by apply (Hall (e :: pre) b later); [by rewrite Heq|]].
      destruct pre as [|x pre]; injection Heq as -> ->; [done|]. by eapply Hall.
  - rewrite IH. split; intros Hall pre b later Heq Hb; [|by apply (Hall (e :: pre) b later); [by rewrite Heq|]].
    destruct pre as [|x pre]; injection Heq as -> ->; [|by eapply Hall]. apply is_type_true in Hb. congruence.
Qed.

Lemma cancelBeforeReplan_passed events :
  or_passed (cancelBeforeReplan events) = true <->
  forall pre b later, events = pre ++ b :: later -> event_type b = replan_boundary -> checkBoundary events (scopeHistory events) b later = None.
Proof.
  unfold cancelBeforeReplan. rewrite <- checkBoundaries_None. destruct (checkBoundaries _ _ _) as [r|] eqn:E; [|done].
  split; [|done]. cbn. intros Hp. exfalso.
  assert (exists b later, checkBoundary events (scopeHistory events) b later = Some r) as (b & later & Hb).
  { revert E. generalize events at 3. intros rest. induction rest as [|e rest IH]; [done|]. cbn [checkBoundaries].
    destruct (is_type _ e); cbn [negb]; [|exact IH]. destruct (checkBoundary _ _ e rest) eqn:Ec; [|exact IH]. intros [= ->]. eauto. }
  apply checkBoundary_fails in Hb. congruence.
Qed.

(** Rows that touch no scope and create nothing. *)
Definition inert (e : StoredEvent) : Prop := scope_id e = None /\ event_type e <> vertex_created.

Lemma scopeHistory_inert events rows : Forall inert rows -> scopeHistory (events ++ rows) = scopeHistory events.
Proof.
  induction rows as [|e rows IH] using rev_ind; intros Hall; [by rewrite app_nil_r|]. apply Forall_app in Hall as [Hall He].
  apply Forall_singleton in He as [He _]. rewrite (assoc (++)). unfold scopeHistory in *. rewrite fold_left_app. cbn [fold_left].
  unfold sid. rewrite He. cbn. by apply IH.
Qed.

Lemma find_app_None {A} (p : A -> bool) l1 l2 : (forall x, x ∈ l2 -> p x = false) -> find p (l1 ++ l2) = find p l1.
Proof.
  intros Hn. induction l1 as [|x l1 IH]; cbn; [by apply find_None|]. by destruct (p x).
Qed.

Lemma find_app_Some {A} (p : A -> bool) l1 l2 : (exists x, x ∈ l1 /\ p x = true) -> find p (l1 ++ l2) = find p l1.
Proof.
  intros (y & Hy & Hp). induction l1 as [|x l1 IH]; [by apply elem_of_nil in Hy|]. cbn. destruct (p x) eqn:E; [done|].
  apply elem_of_cons in Hy as [->|Hy]; [congruence|]. by apply IH.
Qed.

(** Every boundary that resumes is followed by what it discards. *)
Definition shadow_follows (b : StoredEvent) (later : list StoredEvent) : Prop :=
  Js.truthy_value (pfield b "selected") = true -> exists sh, sh ∈ later /\ is_type subgraph_shadowed sh = true.
Definition shadows_follow (events : list StoredEvent) : Prop :=
  forall pre b later, events = pre ++ b :: later -> event_type b = replan_boundary -> shadow_follows b later.

(** What is appended to a log leaves the judgement of its earlier boundaries. *)
Lemma checkBoundary_inert events rows b later :
  Forall inert rows -> shadow_follows b later ->
  checkBoundary (events ++ rows) (scopeHistory (events ++ rows)) b (later ++ rows) = checkBoundary events (scopeHistory events) b later.
Proof.
  intros Hin Hsh. rewrite scopeHistory_inert by done. rewrite Forall_forall in Hin. unfold checkBoundary.
  assert (forall c, citedTooEarly (events ++ rows) (scopeHistory events) b c = citedTooEarly events (scopeHistory events) b c) as Hc.
  { intros c. unfold citedTooEarly. rewrite existsb_app.
    assert (existsb (fun e => (scope_id e ==? Some c) && completes_cancelling e && (run_seq e <? run_seq b)) rows = false) as ->; [|by rewrite orb_false_r].
    apply existsb_false. intros e He. destruct (Hin e He) as [-> _]. done. }
  assert (forall l, find (citedTooEarly (events ++ rows) (scopeHistory events) b) l = find (citedTooEarly events (scopeHistory events) b) l) as ->.
  { induction l as [|x l IH]; [done|]. cbn. by rewrite Hc, IH. }
  destruct (find _ _); [done|]. destruct (Js.truthy_value _) eqn:Et; cbn [negb].
  - rewrite find_app_Some; [done|by apply Hsh].
  - unfold escalationScope. destruct (pstr b "failed_vertex_id"); [|done]. rewrite find_app_None; [done|].
    intros e He. destruct (Hin e He) as [_ Hne]. destruct (is_type vertex_created e) eqn:Ec; [by apply is_type_true in Ec|done].
Qed.

Section Boundary.
Context `{Collation}.
Context (events rows later : list StoredEvent) (v : string) (policy : RecoveryPolicy) (locked : option (list LockedScope)).
Context (d : BoundaryDecision) (ev : FailureEvidence) (b : StoredEvent).
Hypothesis Hd : selectBoundary events v policy locked = Ok d.
Hypothesis Hrecord : bd_action d = record.
Hypothesis Hco : Forall coordinated events.
Hypothesis Hpivots : pivots_started events.
Hypothesis Hseq : forall e, e ∈ events -> run_seq e < run_seq b.
Hypothesis Hpayload : payload b = boundaryPayload d ev.
Hypothesis Hcited : fe_cancelled_scopes ev = bd_cancelledScopes d.
Hypothesis Hinert : Forall inert rows.

Lemma history_opened s q : sh_openedAt (history events s) = Some q -> seen events s opens.
Proof. intros Hq. pose proof (openedAt_spec events s) as Ho. rewrite Hq in Ho. destruct Ho as [(e & He & Hown & Hop & _) _]. by exists e. Qed.

Lemma boundary_cites_closed c : c ∈ pstrings b "cancelled_scopes" -> citedTooEarly (events ++ rows) (scopeHistory events) b c = false.
Proof.
  unfold pstrings, pfield. rewrite Hpayload. change (Js.field (boundaryPayload d ev) "cancelled_scopes") with (str_array (fe_cancelled_scopes ev)).
  rewrite string_list_array, Hcited. intros Hc. destruct (decision_cites events v policy locked d c Hd Hc) as (sc & Hg & Hp).
  destruct (cancelled_completed events c sc Hco Hg Hp) as (e & He & Hown & Hcomp). unfold citedTooEarly.
  assert (existsb (fun e => (scope_id e ==? Some c) && completes_cancelling e && (run_seq e <? run_seq b)) (events ++ rows) = true) as ->.
  { apply existsb_true. exists e. rewrite elem_of_app. split; [by left|]. apply eqb_true, sid_Some in Hown as [-> _].
    rewrite eqb_refl, Hcomp. cbn. by apply Z.ltb_lt, Hseq. }
  rewrite get_scopeHistory. assert (existsb (own c) events = true) as -> by (apply existsb_true; by exists e). cbn [mbind option_bind negb orb].
  rewrite closedAt_first. assert (seen events c closing) as Hs%seen_find; [|by destruct Hs as [q ->]].
  exists e. unfold closing. by rewrite Hcomp, orb_true_r.
Qed.

Lemma boundary_releases o :
  bd_selected d = None -> scopeOf events v (scopeCancellations events) = JMap.get (scopeCancellations events) o ->
  unreleased (scopeHistory events) o (run_seq b) = false.
Proof.
  intros Hsel Hown. unfold unreleased. rewrite get_scopeHistory. destruct (existsb (own o) events) eqn:Ex; [|done].
  apply existsb_true in Ex as (e & He & Ho). destruct (own_reported events o e Hco He Ho) as (sc & Hg & _). rewrite Hg in Hown.
  pose proof (decision_escalates events v policy locked d Hd Hrecord Hsel sc Hown) as Hph. apply scope_phase in Hg as Hpa.
  destruct (phase_evidence_holds events o Hco) as [E1 E2 E3 E4 _ _]. rewrite <- Hpa in *.
  destruct (sh_openedAt (history events o)) as [q|] eqn:Eq; [|done]. apply history_opened in Eq. cbn [before].
  apply andb_false_intro2, negb_false_iff. cbn [existsb].
  destruct (sc_phase sc); try (exfalso; apply Hph; rewrite !elem_of_cons; tauto).
  - rewrite (seen_before events o closing sh_closedAt); [done|apply closedAt_first|done|by apply E2; right].
  - rewrite (seen_before events o suspends sh_suspendedAt); [by rewrite orb_true_r|apply suspendedAt_first|done|by apply E3].
  - rewrite (seen_before events o starts_pivot sh_pivotAt); [by rewrite !orb_true_r|apply pivotAt_first|done|by apply passed_started, E4].
  - rewrite (seen_before events o closing sh_closedAt); [done|apply closedAt_first|done|by apply E2; left].
Qed.

Lemma boundary_discards p s h :
  bd_selected d = Some p -> (s, h) ∈ scopeHistory events -> discardsUnclosed (JSet.of_list (bd_shadowed d)) (run_seq b) h = false.
Proof.
  intros Hsel Hin. pose proof (get_elem _ _ _ (NoDup_scopeHistory events) Hin) as Hg. rewrite get_scopeHistory in Hg.
  destruct (existsb (own s) events) eqn:Ex; [|done]. injection Hg as <-. apply existsb_true in Ex as (e & He & Ho).
  destruct (own_reported events s e Hco He Ho) as (sc & Hsc & Hfacts). apply scope_phase in Hsc as Hpa.
  destruct (selected_safe events v policy locked d p Hd Hsel) as [_ Hsafe].
  destruct (phase_evidence_holds events s Hco) as [E1 E2 _ _ _ _]. rewrite <- Hpa in *. unfold discardsUnclosed.
  destruct (sh_openedAt (history events s)) as [q|] eqn:Eq; [|done]. apply history_opened in Eq.
  destruct (existsb (JSet.has (JSet.of_list (bd_shadowed d))) (sh_members (history events s))) eqn:Em; [|by rewrite andb_false_r].
  apply existsb_true in Em as (m & Hm & Hsh). apply JSet_has_true in Hsh. rewrite elem_of_JSet_of_list, (sr_shadowed _ _ _ _ _ Hsafe) in Hsh.
  assert (sc_phase sc = cancelled \/ sc_phase sc = committed) as Hcl.
  { apply (sr_closed _ _ _ _ _ Hsafe sc); [apply elem_of_map; exists (s, sc); split; [done|by apply get_Some_elem]|].
    split; [intros Hu; by destruct (E1 Hu)|]. exists m. split; [|done]. rewrite (sf_members _ _ _ Hfacts).
    apply members_spec in Hm as (x & Hx & Hxo & Hxt & Hxv). apply list_elem_of_omap. exists x. split; [|done].
    apply elem_of_filter_by. split; [done|]. unfold created_of. unfold own in Hxo. by rewrite Hxt, Hxo. }
  assert (seen events s closing) as Hseen by (apply E2; tauto).
  pose proof (seen_before events s closing sh_closedAt (run_seq b) (closedAt_first events s) Hseq Hseen) as Hb. unfold before in Hb.
  apply andb_false_intro2. destruct (sh_closedAt (history events s)) as [c|]; [|done]. apply Z.ltb_lt in Hb. apply Z.ltb_ge. lia.
Qed.

Lemma checkBoundary_decided :
  bd_failedVertexId d = v ->
  (forall p, bd_selected d = Some p -> p <> "" /\ exists sh, find (is_type subgraph_shadowed) later = Some sh /\ pstrings sh "vertex_ids" = bd_shadowed d) ->
  checkBoundary (events ++ rows) (scopeHistory events) b later = None.
Proof.
  intros Hv Hsel. unfold checkBoundary.
  destruct (find _ (pstrings b "cancelled_scopes")) as [c|] eqn:Ec.
  { apply find_Some in Ec as [Hc Ht]. by rewrite boundary_cites_closed in Ht. }
  assert (pfield b "selected" = nullable (bd_selected d)) as -> by (unfold pfield; by rewrite Hpayload).
  destruct (bd_selected d) as [p|] eqn:Es; cbn [nullable].
  - destruct (Hsel p eq_refl) as (Hne & sh & -> & ->). cbn [Js.truthy_value]. rewrite (proj2 (eqb_false p "")) by done. cbn [negb].
    destruct (find _ (scopeHistory events)) as [[s h]|] eqn:Ef; [|done]. apply find_Some in Ef as [Hin Ht]. cbn [snd] in Ht.
    by rewrite (boundary_discards p s h) in Ht.
  - cbn [Js.truthy_value negb]. unfold escalationScope.
    assert (pstr b "failed_vertex_id" = Some v) as -> by (unfold pstr, pfield; rewrite Hpayload, <- Hv; done).
    rewrite find_app_None.
    2:{ intros e He. rewrite Forall_forall in Hinert. destruct (Hinert e He) as [_ Hne]. destruct (is_type vertex_created e) eqn:Et; [by apply is_type_true in Et|done]. }
    destruct (find _ events) as [cr|] eqn:Ef; [|done]. cbn [mbind option_bind]. destruct (sid cr) as [o|] eqn:Eo; [|done].
    rewrite boundary_releases; [done|done|]. unfold scopeOf. by rewrite Ef, Eo.
Qed.
End Boundary.

(** ** The recovery transaction *)

(** What a row keeps of its draft. *)
Definition written (e : EventDraft) (row : StoredEvent) : Prop :=
  event_type row = d_event_type e /\ payload row = d_payload e /\ scope_id row = truthy (d_scope_id e).

Lemma Forall2_combine_snd {A B C} (R : B -> C -> Prop) (l : list A) (bs : list B) (cs : list C) :
  length l = length bs -> Forall2 (fun p c => R (snd p) c) (combine l bs) cs -> Forall2 R bs cs.
Proof.
  revert bs cs; induction l as [|a l IH]; intros [|b bs] cs Hl HF; try done; cbn in *; inversion HF; subst; constructor; [done|].
  apply IH; [lia|done].
Qed.

Section Transaction.
Context `{Collation}.
Context {db : Type} `{!Database db} `{!DatabaseLaws db}.
Context (validateSchema : EventDraft -> bool) (schemaErrors : EventDraft -> string) (actor : Actor) (policy : RecoveryPolicy).

Lemma recorded_written (d : db) run drafts seqs d' :
  recorded d run drafts seqs d' -> exists rows, select_stream d' run = select_stream d run ++ rows /\ Forall2 written drafts rows.
Proof.
  intros (n & rows & _ & -> & _ & HF & Hs & _). exists rows. split; [done|].
  eapply (Forall2_combine_snd _ (positions n (length drafts))); [unfold positions; by rewrite length_map, length_seq|].
  eapply Forall2_impl; [exact HF|]. intros [q e] row (_ & _ & Ht & _ & _ & _ & Hsc & _ & _ & _ & Hp). done.
Qed.

(** One attempt appends nothing, or the drafts of one decision on an outstanding failure. *)
Lemma attempt_appends (d : db) run r d' :
  appendUnderScopeLock validateSchema schemaErrors actor d run (decideUnderLock policy) = (r, d') ->
  select_stream d' run = select_stream d run \/
  exists locked v dec drafts rows, v ∈ outstanding (select_stream d run) /\
    decideRecovery (select_stream d run) v policy locked = Ok (dec, drafts) /\ bd_action dec <> wait /\
    select_stream d' run = select_stream d run ++ rows /\ Forall2 written drafts rows.
Proof.
  intros El. apply append_under_lock in El. destruct r as [[seqs [a events]]|]; [|left; by subst].
  destruct El as (_ & rows & drafts & _ & Hdec & Hseq). unfold decideUnderLock in Hdec. cbn [slv_events slv_scopes] in Hdec.
  apply bind_Ok in Hdec as (a' & Ha & Hdec). injection Hdec as <- <- <-. destruct seqs as [seqs|]; [|left; destruct Hseq as [_ ->]; done].
  destruct Hseq as [Hne Hrec]. apply recorded_written in Hrec as (new & Hs & HF).
  apply attempt_first in Ha as (skipped & rest & Hout & _ & Hact). destruct (at_acted a') as [dec|]; [|destruct Hact as [_ Hn]; by rewrite Hn in Hne].
  destruct Hact as (v & later & drafts & -> & Hnw & Hdr & Hdec). rewrite Hdr in HF. right.
  exists (Some (map rowToLockedScope rows)), v, dec, drafts, new. split_and!; try done. rewrite Hout. set_solver.
Qed.

(** The rows of a recorded decision: the boundary, and after it what it discards. *)
Lemma record_rows (events : list StoredEvent) v locked dec drafts rows :
  decideRecovery events v policy locked = Ok (dec, drafts) -> bd_action dec = record -> Forall2 written drafts rows ->
  Forall inert rows /\ exists b later, rows = b :: later /\ event_type b = replan_boundary /\ (forall e, e ∈ later -> event_type e <> replan_boundary) /\
    payload b = boundaryPayload dec (failureEvidence events v (bd_shadowed dec) (bd_cancelledScopes dec)) /\
    (forall p, bd_selected dec = Some p -> p <> "" /\ exists sh, find (is_type subgraph_shadowed) later = Some sh /\ pstrings sh "vertex_ids" = bd_shadowed dec).
Proof.
  intros Hdec Hact HF. apply decide_selectBoundary in Hdec as (Hsel & _ & Hshape). rewrite Hact in Hshape. subst drafts.
  assert (forall p, bd_selected dec = Some p -> p <> "") as Hne.
  { intros p Hp. destruct (selected_safe _ _ _ _ _ _ Hsel Hp) as [_ Hsafe]. destruct (sr_planner _ _ _ _ _ Hsafe) as (k & q & Hab & _). by eapply planner_id_nonempty. }
  unfold replanEvents in HF. destruct (truthy (bd_selected dec)) as [p|] eqn:Et.
  - apply Forall2_cons_inv_l in HF as (b & l1 & (Hbt & Hbp & Hbs) & HF & ->). apply Forall2_cons_inv_l in HF as (sh & l2 & (Hst & Hsp & Hss) & HF & ->).
    apply Forall2_nil_inv_l in HF as ->. cbn in *. split; [repeat constructor; cbn; congruence|].
    exists b, [sh]. split_and!; try done; [by intros e ->%list_elem_of_singleton; congruence|].
    intros q Hq. split; [by apply Hne|]. exists sh. cbn. apply is_type_true in Hst as ->. split; [done|].
    unfold pstrings, pfield. rewrite Hsp. apply string_list_array.
  - apply Forall2_cons_inv_l in HF as (b & l1 & (Hbt & Hbp & Hbs) & HF & ->). apply Forall2_nil_inv_l in HF as ->. cbn in *.
    split; [repeat constructor; cbn; congruence|]. exists b, []. split_and!; try done; [by intros e []%elem_of_nil|].
    intros q Hq. rewrite Hq in Et. specialize (Hne q Hq). by destruct q.
Qed.

Lemma request_rows (events : list StoredEvent) v locked dec drafts rows :
  decideRecovery events v policy locked = Ok (dec, drafts) -> bd_action dec = Recovery.request -> Forall2 written drafts rows ->
  exists row, rows = [row] /\ inert row /\ event_type row = replan_cancel_requested /\ pstrings row "scope_ids" = js_sort strcmp (bd_requestScopes dec) /\
    pfield row "failed_vertex_id" = VStr v.
Proof.
  intros Hdec Hact HF. apply decide_selectBoundary in Hdec as (Hsel & Hv & Hshape). rewrite Hact in Hshape. destruct Hshape as (e & He & ->).
  unfold cancelRequestEvent in He. destruct (_ || _); [done|]. injection He as <-.
  apply Forall2_cons_inv_l in HF as (row & l1 & (Ht & Hp & Hs) & HF & ->). apply Forall2_nil_inv_l in HF as ->. cbn in *.
  exists row. split_and!; try done; [split; [done|congruence]|unfold pstrings, pfield; rewrite Hp; apply string_list_array|unfold pfield; rewrite Hp, <- Hv; done].
Qed.

(** C6. The engine passes [cancelBeforeReplan]. On a run written by the Coordinator's rules (scope
    states open, suspended or committed, requests without a scope, a pivot passed only after it
    started), whose earlier boundaries are followed by what they discard, a recovery transaction keeps
    the oracle passing: a boundary it records cites only scopes whose cancellation completed, discards
    work only of scopes that closed before it, and escalates only when the failure's own scope was
    released. The oracle reads the log with its own fold, so this also relates the two readings. *)
Theorem recovery_cancels_first (d : db) run r d' :
  appendUnderScopeLock validateSchema schemaErrors actor d run (decideUnderLock policy) = (r, d') ->
  Forall coordinated (select_stream d run) -> pivots_started (select_stream d run) -> shadows_follow (select_stream d run) ->
  seq_ordered (select_stream d' run) ->
  or_passed (cancelBeforeReplan (select_stream d run)) = true ->
  or_passed (cancelBeforeReplan (select_stream d' run)) = true /\ shadows_follow (select_stream d' run).
Proof.
  intros Ht Hco Hpi Hsh Hord Hpass. apply attempt_appends in Ht as [->|(locked & v & dec & drafts & rows & _ & Hdec & Hnw & Hs & HF)]; [done|].
  rewrite Hs in *. set (events := select_stream d run) in *. rewrite cancelBeforeReplan_passed in Hpass |- *.
  apply seq_ordered_app_inv in Hord as (_ & _ & Hlt).
  enough (Forall inert rows /\ (forall pre b later, rows = pre ++ b :: later -> event_type b = replan_boundary ->
    checkBoundary (events ++ rows) (scopeHistory (events ++ rows)) b later = None /\ shadow_follows b later)) as [Hin Hnew].
  { split; intros pre b later Heq Hb.
    - apply app_eq_inv in Heq as [(k & Hev & Hk)|(k & -> & Hk)]; [|by eapply Hnew]. destruct k as [|x k].
      + cbn in Hk. eapply (Hnew []); done.
      + injection Hk as <- ->. rewrite checkBoundary_inert; [by eapply Hpass|done|by eapply Hsh].
    - apply app_eq_inv in Heq as [(k & Hev & Hk)|(k & -> & Hk)]; [|by eapply Hnew]. destruct k as [|x k].
      + cbn in Hk. eapply (Hnew []); done.
      + injection Hk as <- ->. intros Hsel. destruct (Hsh _ _ _ Hev Hb Hsel) as (sh & ? & ?). exists sh. rewrite elem_of_app. tauto. }
  destruct (bd_action dec) eqn:Eact; [| |done].
  - pose proof (record_rows _ _ _ _ _ _ Hdec Eact HF) as (Hin & b & later & -> & Hb & Hrest & Hpl & Hsel). split; [done|].
    pose proof (decide_selectBoundary _ _ _ _ _ _ Hdec) as (Hd & Hv & _).
    intros pre x post Heq Hx. destruct pre as [|y pre].
    2:{ injection Heq as <- ->. exfalso. apply (Hrest x); [rewrite elem_of_app, elem_of_cons; tauto|done]. }
    injection Heq as <- <-. split.
    + rewrite scopeHistory_inert by done. eapply (checkBoundary_decided events (b :: later) later v policy locked dec); try done.
      * intros e He. apply Hlt; [done|by left].
      * unfold failureEvidence. by repeat case_match.
    + intros Htr. unfold pfield in Htr. rewrite Hpl in Htr. change (Js.field _ "selected") with (nullable (bd_selected dec)) in Htr.
      destruct (bd_selected dec) as [p|] eqn:Es; [|done]. destruct (Hsel p eq_refl) as (_ & sh & Hf & _). apply find_Some in Hf. eauto.
  - destruct (request_rows _ _ _ _ _ _ Hdec Eact HF) as (row & -> & Hin & Hty & _). split; [by constructor|].
    intros pre x post Heq Hx. destruct pre as [|y pre]; [injection Heq as <- _; congruence|]. by destruct pre.
Qed.
End Transaction.

(** ** Cancellation requests *)

(** Every scope a log asks to cancel, with the request that asks. *)
Definition asked (r : StoredEvent) : list (StoredEvent * string) :=
  if is_type replan_cancel_requested r then map (pair r) (pstrings r "scope_ids") else [].
Definition requestPairs (events : list StoredEvent) : list (StoredEvent * string) := flat_map asked events.

(** What [checkRequest] demands of one of them besides that it is the first. *)
Definition request_ok (events : list StoredEvent) (scopes : list (string * ScopeHistory)) (final : bool) (r : StoredEvent) (s : string) : Prop :=
  exists h, JMap.get scopes s = Some h /\ (exists q, sh_openedAt h = Some q /\ q <= run_seq r) /\
    (forall x, x ∈ [sh_cancellingAt h; sh_closedAt h; sh_suspendedAt h; sh_pivotAt h] -> before x (run_seq r) = false) /\
    (forall b, b ∈ events -> event_type b = replan_boundary -> Js.strict_eq (pfield b "failed_vertex_id") (pfield r "failed_vertex_id") = true ->
       run_seq r < run_seq b -> below (run_seq b) (resolvedAt scopes s) = false) /\
    (final = true -> resolvedAt scopes s <> None).

Lemma checkRequest_spec events scopes final r requested s :
  match checkRequest events scopes final r requested s with
  | inl res => or_passed res = false /\ ~ (JMap.get requested s = None /\ request_ok events scopes final r s)
  | inr m => m = JMap.set requested s (run_seq r) /\ JMap.get requested s = None /\ request_ok events scopes final r s
  end.
Proof.
  unfold checkRequest, request_ok. destruct (JMap.get requested s) eqn:Er; [split; [done|naive_solver]|].
  destruct (JMap.get scopes s) as [h|] eqn:Eh; [|split; [done|naive_solver]].
  destruct (match sh_openedAt h with Some q => run_seq r <? q | None => true end) eqn:Eo.
  { split; [done|]. intros (_ & h' & [= <-] & (q & Hq & Hle) & _). rewrite Hq in Eo. bool_prop. lia. }
  assert (exists q, sh_openedAt h = Some q /\ q <= run_seq r) as Hop.
  { destruct (sh_openedAt h) as [q|]; [|done]. bool_prop. exists q. split; [done|lia]. }
  destruct (existsb _ [sh_cancellingAt h; _; _; _]) eqn:Es.
  { split; [done|]. intros (_ & h' & [= <-] & _ & Hset & _). apply existsb_true in Es as (x & Hx & Hb). rewrite Hset in Hb by done. done. }
  rewrite existsb_false in Es. destruct (find _ events) as [b|] eqn:Ef.
  { split; [done|]. intros (_ & h' & [= <-] & _ & _ & Hearly & _). apply find_Some in Ef as [Hb Hc]. bool_prop.
    match goal with H : is_type _ _ = true |- _ => apply is_type_true in H end. rewrite Hearly in * by done. done. }
  rewrite find_None in Ef. destruct (final && _) eqn:Efin.
  { split; [done|]. intros (_ & h' & [= <-] & _ & _ & _ & Hfin). bool_prop. subst. destruct (resolvedAt scopes s); [done|]. by destruct Hfin. }
  split; [done|]. split; [done|]. exists h. split_and!; try done.
  - intros b Hb Ht Hf Hlt. specialize (Ef b Hb). apply is_type_true in Ht as Hty. apply Z.ltb_lt in Hlt. by rewrite Hty, Hf, Hlt in Ef.
  - intros ->. cbn in Efin. by destruct (resolvedAt scopes s).
Qed.

Lemma loop_app {S A} (body : S -> A -> OracleResult + S) s l1 l2 :
  loop body s (l1 ++ l2) = match loop body s l1 with inl r => inl r | inr s' => loop body s' l2 end.
Proof. revert s; induction l1 as [|x l1 IH]; intros s; [done|]. cbn. destruct (body s x); [done|apply IH]. Qed.

(** The nested loops go through the pairs. *)
Lemma requests_loop events scopes final m rest :
  loop (fun requested request => if negb (is_type replan_cancel_requested request) then inr requested
          else loop (checkRequest events scopes final request) requested (pstrings request "scope_ids")) m rest =
  loop (fun requested p => checkRequest events scopes final (fst p) requested (snd p)) m (requestPairs rest).
Proof.
  revert m; induction rest as [|e rest IH]; intros m; [done|]. cbn [loop requestPairs flat_map]. unfold asked at 1. rewrite loop_app.
  destruct (is_type replan_cancel_requested e); cbn [negb]; [|apply IH].
  assert (forall l m, loop (fun requested p => checkRequest events scopes final (fst p) requested (snd p)) m (map (pair e) l) =
    loop (checkRequest events scopes final e) m l) as Hl.
  { induction l as [|x l IHl]; intros m'; [done|]. cbn. destruct (checkRequest _ _ _ _ _ _); [done|apply IHl]. }
  rewrite Hl. destruct (loop _ m _); [done|apply IH].
Qed.

Lemma pairs_loop events scopes final m pairs :
  match loop (fun requested p => checkRequest events scopes final (fst p) requested (snd p)) m pairs with
  | inl r => or_passed r = false /\ ~ (NoDup (map snd pairs) /\ forall r s, (r, s) ∈ pairs -> (s ∉ JMap.keys m) /\ request_ok events scopes final r s)
  | inr _ => NoDup (map snd pairs) /\ forall r s, (r, s) ∈ pairs -> (s ∉ JMap.keys m) /\ request_ok events scopes final r s
  end.
Proof.
  revert m; induction pairs as [|[r s] pairs IH]; intros m; cbn [loop fst snd map].
  { split; [constructor|]. intros r s []%elem_of_nil. }
  pose proof (checkRequest_spec events scopes final r m s) as Hc. destruct (checkRequest _ _ _ _ _ _) as [res|m'].
  { destruct Hc as [Hp Hn]. split; [done|]. intros [_ Hall]. apply Hn. destruct (Hall r s ltac:(left)) as [Hk Hok]. split; [by apply get_None|done]. }
  destruct Hc as (-> & Hnone & Hok). apply get_None in Hnone. specialize (IH (JMap.set m s (run_seq r))).
  assert (forall P, (NoDup (map snd pairs) /\ forall r' s', (r', s') ∈ pairs -> (s' ∉ JMap.keys (JMap.set m s (run_seq r))) /\ P r' s') <->
    (NoDup (map snd pairs) /\ s ∉ map snd pairs) /\ forall r' s', (r', s') ∈ pairs -> (s' ∉ JMap.keys m) /\ P r' s') as Hiff.
  { intros P. setoid_rewrite keys_set. split.
    - intros [Hnd Hall]. split; [split; [done|]|].
      + intros Hs. apply elem_of_map in Hs as ([r' s'] & -> & Hin). destruct (Hall _ _ Hin) as [Hk _]. apply Hk. by left.
      + intros r' s' Hin. destruct (Hall _ _ Hin) as [Hk ?]. split; [|done]. intros Hi. apply Hk. by right.
    - intros [[Hnd Hs] Hall]. split; [done|]. intros r' s' Hin. destruct (Hall _ _ Hin) as [Hk ?]. split; [|done]. intros [->|Hi]; [|done].
      apply Hs. apply elem_of_map. by exists (r', s). }
  destruct (loop _ _ pairs) as [res|m'']; rewrite Hiff in IH.
  - destruct IH as [Hp Hn]. split; [done|]. intros [Hnd Hall]. apply Hn. apply NoDup_cons in Hnd as [? ?]. split; [done|]. intros r' s' Hin. apply Hall. by right.
  - destruct IH as [[Hnd Hs] Hall]. split; [by constructor|]. intros r' s'. rewrite elem_of_cons. intros [[= -> ->]|Hin]; auto.
Qed.

Lemma cancelRequestDiscipline_passed events final :
  or_passed (cancelRequestDiscipline events final) = true <->
  NoDup (map snd (requestPairs events)) /\ forall r s, (r, s) ∈ requestPairs events -> request_ok events (scopeHistory events) final r s.
Proof.
  unfold cancelRequestDiscipline. rewrite requests_loop. pose proof (pairs_loop events (scopeHistory events) final [] (requestPairs events)) as Hl.
  assert (forall s, s ∉ JMap.keys ([] : list (string * Z))) as Hn by (intros s; apply not_elem_of_nil).
  destruct (loop _ _ _) as [res|m].
  - destruct Hl as [-> Hno]. split; [done|]. intros [Hnd Hall]. exfalso. apply Hno. split; [done|]. intros r s Hin. auto.
  - destruct Hl as [Hnd Hall]. split; [|done]. intros _. split; [done|]. intros r s Hin. by apply Hall.
Qed.

(** ** Phases that can be asked to cancel *)

(** No failure proves a started pivot absent. *)
Definition absent_free (e : StoredEvent) : Prop := event_type e = vertex_failed -> pstr e "outcome" <> Some "confirmed-absent".

Lemma own_step_fenced p e : absent_free e -> own_step p e = Scopes.fenced -> p = open \/ p = Scopes.fenced.
Proof.
  intros Ha. unfold own_step. destruct (event_type e) eqn:Et; repeat case_eqb; cbn [orb andb]; try congruence; try tauto.
  by destruct (Ha Et).
Qed.

(** A scope that is not asked to cancel yet has nothing against it in the log. *)
Lemma unasked_quiet events s :
  Forall coordinated events -> Forall absent_free events -> phase_after events s ∈ [unmaterialized; open; Scopes.fenced] ->
  ~ seen events s starts_cancelling /\ ~ seen events s closing /\ ~ seen events s suspends /\ ~ seen events s starts_pivot.
Proof.
  induction events as [|e events IH] using rev_ind; intros Hco Hab Hp.
  { split_and!; intros (x & []%elem_of_nil & _). }
  apply Forall_app in Hco as [Hco He]. apply Forall_singleton in He as [_ Hr]. apply Forall_app in Hab as [Hab Ha]. rewrite Forall_singleton in Ha.
  specialize (IH Hco Hab). rewrite phase_after_snoc in Hp. set (p := phase_after events s) in *. destruct (own s e) eqn:Eo.
  - rewrite phase_step_own in Hp by done. destruct (own_step_marks p e) as (M1 & M2 & M3 & M4 & _).
    assert (p ∈ [unmaterialized; open; Scopes.fenced]) as Hq.
    { rewrite !elem_of_cons, elem_of_nil in Hp |- *. destruct Hp as [Ho|[Ho|[Ho|[]]]].
      - own_cases p e; try congruence. left. congruence.
      - own_cases p e; try congruence; [right; left; congruence|left; tauto].
      - apply (own_step_fenced p e Ha) in Ho; tauto. }
    specialize (IH Hq) as (I1 & I2 & I3 & I4). rewrite !elem_of_cons, elem_of_nil in Hp.
    split_and!; (apply unseen_snoc; [done|]); intros _; apply not_true_iff_false; intros Hm.
    + apply M4 in Hm. destruct_or! Hp; congruence.
    + apply M1 in Hm. destruct_or! Hm; destruct_or! Hp; congruence.
    + apply M2 in Hm. destruct_or! Hp; congruence.
    + apply M3 in Hm. destruct_or! Hp; congruence.
  - destruct (phase_step_other s p e Eo) as [Hs|[Hs _]]; rewrite Hs in Hp; [|by rewrite !elem_of_cons, elem_of_nil in Hp; destruct_or! Hp].
    destruct (IH Hp) as (I1 & I2 & I3 & I4). split_and!; (apply unseen_snoc; [done|congruence]).
Qed.

(** A phase that is open or was asked while open has an opening event. *)
Lemma asked_opened events s :
  Forall coordinated events -> Forall absent_free events -> phase_after events s ∈ [open; Scopes.fenced; cancel_requested] -> seen events s opens.
Proof.
  induction events as [|e events IH] using rev_ind; intros Hco Hab Hp; [rewrite !elem_of_cons, elem_of_nil in Hp; by destruct_or! Hp|].
  apply Forall_app in Hco as [Hco He]. apply Forall_singleton in He as [_ Hr]. apply Forall_app in Hab as [Hab Ha]. rewrite Forall_singleton in Ha.
  specialize (IH Hco Hab). rewrite phase_after_snoc in Hp. set (p := phase_after events s) in *.
  rewrite !elem_of_cons, elem_of_nil in IH, Hp. destruct (own s e) eqn:Eo.
  - rewrite phase_step_own in Hp by done. destruct (opens e) eqn:Eop; [by apply seen_last|]. apply seen_snoc, IH. destruct Hp as [Ho|[Ho|[Ho|[]]]].
    + unfold own_step in Ho. unfold opens, is_type in Eop. destruct (event_type e); repeat case_eqb; try congruence; try tauto; done.
    + apply (own_step_fenced p e Ha) in Ho; tauto.
    + own_cases p e; try congruence. right; right; left. congruence.
  - apply seen_snoc, IH. destruct (phase_step_other s p e Eo) as [Hs|[Hs Hq]]; [rewrite Hs in Hp; tauto|tauto].
Qed.

(** Once asked, a scope is never open again unless it starts a pivot. *)
Definition settling : list ScopePhase := [cancel_requested; cancelling; cancelled; suspended; committed].

Lemma settling_stays post s p :
  Forall coordinated post -> (forall e, e ∈ post -> own s e = true -> starts_pivot e = false /\ event_type e <> txn_pivot_passed) ->
  p ∈ settling -> fold_left (phase_step s) post p ∈ settling.
Proof.
  revert p; induction post as [|e post IH]; intros p Hco Hno Hset; [done|]. apply Forall_cons in Hco as [[_ Hr] Hco]. cbn [fold_left].
  apply IH; [done|intros x Hx; apply Hno; by right|]. unfold settling in *. rewrite !elem_of_cons, elem_of_nil in Hset |- *. destruct (own s e) eqn:Eo.
  - rewrite phase_step_own by done. destruct (Hno e ltac:(left) Eo) as [Hpi Hpp].
    own_cases p e; rewrite Hp; try tauto; exfalso; try congruence.
    + subst p. by destruct_or! Hset.
    + destruct Hm as [->|[-> _]]; by destruct_or! Hset.
  - destruct (phase_step_other s p e Eo) as [->|[-> _]]; tauto.
Qed.

(** ** The requests of a log, one by one *)
Definition asks (s : string) (e : StoredEvent) : bool := is_type replan_cancel_requested e && includes s (pstrings e "scope_ids").

Lemma elem_of_requestPairs events r s : (r, s) ∈ requestPairs events <-> r ∈ events /\ asks s r = true.
Proof.
  unfold requestPairs, asks. rewrite list_elem_of_In, in_flat_map. setoid_rewrite <- list_elem_of_In. unfold asked. split.
  - intros (x & Hx & Hp). destruct (is_type replan_cancel_requested x) eqn:Et; [|by apply elem_of_nil in Hp].
    apply elem_of_map in Hp as (y & [= -> ->] & Hy). rewrite Et. split; [done|]. by apply includes_true.
  - intros [Hr Ha]. bool_prop. exists r. split; [done|]. match goal with H : is_type _ _ = true |- _ => rewrite H end. apply elem_of_map. eauto.
Qed.

Lemma NoDup_snd_inj {A B} (l : list (A * B)) a a' b : NoDup (map snd l) -> (a, b) ∈ l -> (a', b) ∈ l -> a = a'.
Proof.
  induction l as [|[x y] l IH]; cbn; [by intros _ []%elem_of_nil|]. rewrite NoDup_cons, !elem_of_cons. intros [Hn Hnd] [E1|H1] [E2|H2]; simplify_eq; try done.
  - exfalso. apply Hn, elem_of_map. by exists (a', y).
  - exfalso. apply Hn, elem_of_map. by exists (a, y).
  - by apply IH.
Qed.

(** Whom a scope was last requested for. *)
Lemma scopeSwitch_requestedFor e s sc st :
  fst (cell st s) = Some sc -> (fst (cell (scopeSwitch e s sc st) s)) ≫= sc_requestedFor = sc_requestedFor sc.
Proof.
  intros Hst. unfold scopeSwitch, materialize. destruct (event_type e); repeat case_match;
    rewrite ?cell_put_tries, ?eqb_refl, ?cell_put, ?eqb_refl, ?Hst; cbn [fst]; rewrite ?Hst; done.
Qed.

Lemma foldScopes_requestedFor events s :
  fst (cell (foldScopes events) s) ≫= sc_requestedFor = last (filter_by (asks s) events) ≫= fun r => pstr r "failed_vertex_id".
Proof.
  induction events as [|e events IH] using rev_ind; [done|]. rewrite foldScopes_snoc, last_filter_snoc. unfold asks at 1.
  destruct (is_type replan_cancel_requested e) eqn:Er; cbn [andb].
  - unfold scopeStep. rewrite Er, cell_requests. destruct (includes s (pstrings e "scope_ids")); [done|exact IH].
  - destruct (decide (sid e = Some s)) as [Es|Es].
    + destruct (scopeStep_switch (foldScopes events) e s Er Es) as (st' & Hc & ->).
      rewrite scopeSwitch_requestedFor; [|rewrite Hc; unfold born; destruct (fst (cell (foldScopes events) s)) eqn:E; [by rewrite E|done]].
      rewrite <- IH. by destruct (fst (cell (foldScopes events) s)).
    + rewrite scopeStep_frame; [done|]. unfold mentions. rewrite Er. by apply eqb_false.
Qed.

Lemma requestedFor_last events s sc r :
  JMap.get (scopeCancellations events) s = Some sc -> NoDup (map snd (requestPairs events)) -> r ∈ events -> asks s r = true ->
  sc_requestedFor sc = pstr r "failed_vertex_id".
Proof.
  intros Hg Hnd Hr Ha. pose proof (foldScopes_requestedFor events s) as Hf. rewrite get_scopeCancellations in Hg.
  destruct (fst (cell (foldScopes events) s)) as [sc0|]; [|done]. injection Hg as <-. cbn [mbind option_bind] in Hf. cbn [countTries snd set_openTries sc_requestedFor].
  rewrite Hf. destruct (last (filter_by (asks s) events)) as [r'|] eqn:El.
  - apply last_Some_elem_of, elem_of_filter_by in El as [Hr' Ha']. cbn. f_equal.
    eapply (NoDup_snd_inj (requestPairs events)); [done|by apply elem_of_requestPairs..].
  - apply last_None in El. assert (r ∈ filter_by (asks s) events) as Hin by (by apply elem_of_filter_by). rewrite El in Hin. by apply elem_of_nil in Hin.
Qed.

(** A requested scope starts and passes no pivot. *)
Definition fences_hold (events : list StoredEvent) : Prop :=
  forall pre r post s e, events = pre ++ r :: post -> asks s r = true -> e ∈ post -> own s e = true ->
    starts_pivot e = false /\ event_type e <> txn_pivot_passed.

Lemma unseen_prefix pre r post s cond (field : ScopeHistory -> option Z) :
  seq_ordered (pre ++ r :: post) ->
  field (history (pre ++ r :: post) s) = run_seq <$> find (fun e => own s e && cond e) (pre ++ r :: post) ->
  before (field (history (pre ++ r :: post) s)) (run_seq r) = false -> ~ seen pre s cond.
Proof.
  intros Hord -> Hb Hs. apply seq_ordered_app_inv in Hord as (_ & _ & Hlt). rewrite find_app_Some in Hb.
  - apply seen_find in Hs as [q Hq]. rewrite Hq in Hb. apply fmap_Some in Hq as (e & He & ->). apply find_Some in He as [He _].
    cbn in Hb. apply Z.ltb_ge in Hb. specialize (Hlt e r He ltac:(left)). lia.
  - destruct Hs as (e & He & Ho & Hc). exists e. by rewrite Ho, Hc.
Qed.

Section Requested.
Context (pre post : list StoredEvent) (r : StoredEvent) (s : string) (final : bool).
Let events := pre ++ r :: post.
Hypothesis Hco : Forall coordinated events.
Hypothesis Hpivots : pivots_started events.
Hypothesis Hord : seq_ordered events.
Hypothesis Hasks : asks s r = true.
Hypothesis Hok : request_ok events (scopeHistory events) final r s.

Lemma asked_while_open : phase_after pre s ∈ [open; Scopes.fenced; cancel_requested].
Proof.
  destruct Hok as (h & Hg & (q & Hq & Hle) & Hset & _). rewrite get_scopeHistory in Hg. destruct (existsb _ events); [|done]. injection Hg as <-.
  assert (Forall coordinated pre) as Hcp by (by apply Forall_app in Hco as [? _]).
  assert (coordinated r) as [_ Hru] by (apply Forall_app in Hco as [_ H']; by apply Forall_cons in H' as [? _]).
  assert (seen pre s opens) as Hopen.
  { pose proof (openedAt_spec events s) as Ho. rewrite Hq in Ho. destruct Ho as [(e & He & Hown & Hop & <-) _]. exists e. split; [|done].
    unfold events in He. apply elem_of_app in He as [He|He]; [done|]. exfalso. apply elem_of_cons in He as [->|He].
    - apply andb_true_iff in Hasks as [Ht _]. apply is_type_true, Hru in Ht. unfold own in Hown. by rewrite Ht in Hown.
    - apply seq_ordered_app_inv in Hord as (_ & Hord' & _). inversion Hord' as [|? ? _ Hall]; subst. rewrite Forall_forall in Hall. specialize (Hall e He). lia. }
  destruct (phase_evidence_holds pre s Hcp) as [E1 E2 E3 E4 E5 E6].
  assert (pivots_started pre) as Hpp.
  { intros p0 e p1 t -> Ht Ho. eapply (Hpivots p0 e (p1 ++ r :: post) t); [unfold events; by rewrite <- (assoc (++))|done|done]. }
  pose proof (unseen_prefix pre r post s starts_cancelling sh_cancellingAt Hord (cancellingAt_first _ _) (Hset _ ltac:(left))) as U1.
  pose proof (unseen_prefix pre r post s closing sh_closedAt Hord (closedAt_first _ _) (Hset _ ltac:(right; left))) as U2.
  pose proof (unseen_prefix pre r post s suspends sh_suspendedAt Hord (suspendedAt_first _ _) (Hset _ ltac:(do 2 right; left))) as U3.
  pose proof (unseen_prefix pre r post s starts_pivot sh_pivotAt Hord (pivotAt_first _ _) (Hset _ ltac:(do 3 right; left))) as U4.
  rewrite !elem_of_cons. destruct (phase_after pre s); try tauto; exfalso.
  by apply U4, passed_started, E4.
Qed.

Lemma asked_settling : fences_hold events -> phase_after events s ∈ settling.
Proof.
  intros Hf. unfold phase_after, events. rewrite fold_left_app. cbn [fold_left]. fold (phase_after pre s). apply settling_stays.
  - apply Forall_app in Hco as [_ H']. by apply Forall_cons in H' as [_ ?].
  - intros e He Ho. by eapply (Hf pre r post s e).
  - pose proof asked_while_open as Hp. apply andb_true_iff in Hasks as [Ht Hi]. unfold phase_step. rewrite Ht, Hi. cbn [andb].
    destruct (includes (phase_after pre s) [open; Scopes.fenced]) eqn:Ei; [left|]. apply includes_false in Ei.
    assert (phase_after pre s = cancel_requested) as ->; [|left]. rewrite !elem_of_cons in Ei. rewrite !elem_of_cons, elem_of_nil in Hp. tauto.
Qed.
End Requested.

(** ** What a decision requests *)
Lemma NoDup_map_filter {A B} (f : A -> B) (p : A -> bool) l : NoDup (map f l) -> NoDup (map f (filter_by p l)).
Proof.
  induction l as [|x l IH]; [done|]. cbn. rewrite NoDup_cons. intros [Hn Hnd]. destruct (p x); [|by apply IH]. cbn. constructor; [|by apply IH].
  intros Hx. apply Hn. apply elem_of_map in Hx as (y & -> & Hy). apply elem_of_filter_by in Hy as [Hy _]. apply elem_of_map. eauto.
Qed.

Lemma NoDup_scope_ids events : NoDup (map sc_scopeId (JMap.values (scopeCancellations events))).
Proof.
  assert (map sc_scopeId (JMap.values (scopeCancellations events)) = JMap.keys (scopeCancellations events)) as ->.
  - unfold JMap.values, JMap.keys. rewrite map_map. apply map_ext_in. intros [s sc] Hin%list_elem_of_In. cbn.
    assert (NoDup (JMap.keys (scopeCancellations events))) as Hnd by (unfold scopeCancellations, JMap.keys; rewrite map_map; apply (NoDup_keys_foldScopes events)).
    apply (get_elem _ _ _ Hnd) in Hin. by apply scopeCancellations_ids in Hin.
  - unfold scopeCancellations, JMap.keys. rewrite map_map. apply (NoDup_keys_foldScopes events).
Qed.

Section Requests.
Context `{Collation}.
Context (events : list StoredEvent) (v : string) (policy : RecoveryPolicy) (locked : option (list LockedScope)).

Lemma verdict_requires_NoDup p scopes : verdictFor p (contextOf events v policy locked) = RequiresCancel scopes -> NoDup scopes.
Proof.
  unfold verdictFor. repeat (case_match; try done). intros [= <-]. apply NoDup_js_sort, NoDup_map_filter. unfold touchedScopes.
  rewrite (Permutation_map sc_scopeId (js_sort_Permutation _ _)). apply NoDup_map_filter, NoDup_scope_ids.
Qed.

Lemma decision_requests_NoDup d : selectBoundary events v policy locked = Ok d -> NoDup (bd_requestScopes d).
Proof.
  intros Hd. apply selectBoundary_decided in Hd. destruct Hd as [rows reason _ _|base level reason Hb _|view cmp best depth _ _ _ _ Hc Hbest].
  - constructor.
  - destruct (bd_action (terminal (contextOf events v policy locked) base level reason)) eqn:Ea;
      destruct (terminal_spec (contextOf events v policy locked) base level reason _ Hb eq_refl) as (_ & _ & _ & _ & Hact); rewrite Ea in Hact.
    + destruct Hact as [-> _]. constructor.
    + destruct Hact as (own & _ & _ & -> & _). apply NoDup_singleton.
    + destruct Hact as [_ ->]. constructor.
  - apply comparison_correct in Hc as [_ _ Hb]. specialize (Hb best depth Hbest) as [_ _ (p & scopes & priced & _ & _ & Hv & Hpr & ->) _ _].
    apply verdict_requires_NoDup in Hv. apply price_fields in Hpr as (_ & _ & _ & Hn & _).
    assert (NoDup (default [] (bc_requires_cancel (requiring scopes priced)))) as Hreq by (destruct scopes; cbn; [rewrite Hn; constructor|done]).
    unfold resumeAt. repeat (case_match; cbn [with_outcome bd_requestScopes]; try apply NoDup_nil_2).
    match goal with E : filter_by _ _ = _ :: _ |- _ => rewrite <- E end. by apply NoDup_filter_by.
Qed.

Lemma decision_resolved d :
  selectBoundary events v policy locked = Ok d -> bd_action d = record ->
  forall s sc, JMap.get (scopeCancellations events) s = Some sc -> sc_requestedFor sc = Some v -> sc_phase sc ∉ [cancel_requested; cancelling].
Proof.
  intros Hd Ha s sc Hg Hf Hp.
  assert (unresolvedRequests (contextOf events v policy locked) = []) as Hu.
  { apply selectBoundary_decided in Hd. destruct Hd as [rows reason _ _|base level reason Hb _|view cmp best depth _ _ _ _ _ _]; [done| |].
    - destruct (terminal_spec (contextOf events v policy locked) base level reason _ Hb eq_refl) as (_ & _ & _ & _ & Hact). rewrite Ha in Hact. tauto.
    - apply resumeAt_record in Ha. tauto. }
  unfold unresolvedRequests in Hu. apply map_eq_nil in Hu.
  assert (sc ∈ filter_by (fun s => (sc_requestedFor s ==? Some v) && includes (sc_phase s) [cancel_requested; cancelling])
    (scope_values (contextOf events v policy locked))) as Hin.
  { apply elem_of_filter_by. split; [apply elem_of_map; exists (s, sc); split; [done|by apply get_Some_elem]|].
    rewrite Hf, eqb_refl. cbn. by apply includes_true. }
  cbn [dc_failedVertexId contextOf] in Hu. rewrite Hu in Hin. by apply elem_of_nil in Hin.
Qed.
End Requests.

Lemma resolvedAt_before events s q :
  (forall e, e ∈ events -> run_seq e < q) -> seen events s closing \/ seen events s suspends ->
  below q (resolvedAt (scopeHistory events) s) = false.
Proof.
  intros Hq Hs. unfold resolvedAt. rewrite get_scopeHistory.
  assert (existsb (own s) events = true) as ->.
  { apply existsb_true. destruct Hs as [(e & He & Ho & _)|(e & He & Ho & _)]; by exists e. }
  cbn [mbind option_bind].
  assert (forall cond field, field (history events s) = run_seq <$> find (fun e => own s e && cond e) events -> seen events s cond ->
    exists x, field (history events s) = Some x /\ x < q) as Hx.
  { intros cond field Hf Hsn. pose proof (seen_before events s cond field q Hf Hq Hsn) as Hb. unfold before in Hb.
    destruct (field (history events s)) as [x|]; [|done]. exists x. split; [done|]. by apply Z.ltb_lt. }
  unfold below. destruct Hs as [Hs|Hs].
  - destruct (Hx closing sh_closedAt (closedAt_first events s) Hs) as (x & -> & Hlt). cbn.
    destruct (sh_suspendedAt (history events s)); apply Z.ltb_ge; lia.
  - destruct (Hx suspends sh_suspendedAt (suspendedAt_first events s) Hs) as (x & -> & Hlt).
    destruct (sh_closedAt (history events s)); cbn; apply Z.ltb_ge; lia.
Qed.

(** ** The recovery transaction under the request discipline *)
Section Discipline.
Context `{Collation}.
Context {db : Type} `{!Database db} `{!DatabaseLaws db}.
Context (validateSchema : EventDraft -> bool) (schemaErrors : EventDraft -> string) (actor : Actor) (policy : RecoveryPolicy).

(** A run the Coordinator and the engine wrote by their rules. *)
Record disciplined (events : list StoredEvent) : Prop := {
  di_coordinated : Forall coordinated events;
  di_absent : Forall absent_free events;
  di_pivots : pivots_started events;
  di_fences : fences_hold events;
  di_passed : or_passed (cancelRequestDiscipline events false) = true
}.

Lemma earlier_request_settling events r s :
  disciplined events -> seq_ordered events -> (r, s) ∈ requestPairs events -> phase_after events s ∈ settling.
Proof.
  intros [Hco _ Hpi Hf Hp] Hord Hin. apply cancelRequestDiscipline_passed in Hp as [_ Hok]. specialize (Hok r s Hin).
  apply elem_of_requestPairs in Hin as [Hr Ha]. apply list_elem_of_split in Hr as (pre & post & ->). by eapply asked_settling.
Qed.

(** A request that was in order stays in order when a later answer waits for it. *)
Lemma request_ok_extend events rows r s final :
  Forall inert rows -> request_ok events (scopeHistory events) final r s ->
  (forall b, b ∈ rows -> event_type b = replan_boundary -> Js.strict_eq (pfield b "failed_vertex_id") (pfield r "failed_vertex_id") = true ->
     below (run_seq b) (resolvedAt (scopeHistory events) s) = false) ->
  request_ok (events ++ rows) (scopeHistory (events ++ rows)) final r s.
Proof.
  intros Hin (h & Hg & Hop & Hset & Hearly & Hfin) Hnew. rewrite scopeHistory_inert by done. exists h. split_and!; try done.
  intros b Hb. apply elem_of_app in Hb as [Hb|Hb]; [by apply Hearly|]. intros. by apply Hnew.
Qed.

Lemma recorded_discipline events v locked dec drafts rows :
  disciplined events -> seq_ordered (events ++ rows) -> decideRecovery events v policy locked = Ok (dec, drafts) -> bd_action dec = record ->
  Forall2 written drafts rows -> or_passed (cancelRequestDiscipline (events ++ rows) false) = true.
Proof.
  intros Hdi Hord Hdec Hact HF. destruct (record_rows policy _ _ _ _ _ _ Hdec Hact HF) as (Hin & b & later & -> & Hb & Hrest & Hpl & _).
  pose proof (decide_selectBoundary _ _ _ _ _ _ Hdec) as (Hd & Hv & _). apply seq_ordered_app_inv in Hord as (Hord & _ & Hlt).
  pose proof (di_passed _ Hdi) as Hp. apply cancelRequestDiscipline_passed in Hp as [Hnd Hok]. apply cancelRequestDiscipline_passed.
  assert (requestPairs (events ++ b :: later) = requestPairs events) as ->.
  { unfold requestPairs. rewrite flat_map_app. assert (flat_map asked (b :: later) = []) as ->; [|apply app_nil_r].
    apply elem_of_nil_inv. intros [r s] Hrs. apply (elem_of_requestPairs (b :: later)) in Hrs as [Hr Ha]. apply andb_true_iff in Ha as [Ht _].
    apply is_type_true in Ht. destruct (decide_selectBoundary _ _ _ _ _ _ Hdec) as (_ & _ & Hsh). rewrite Hact in Hsh. subst drafts.
    unfold replanEvents in HF. destruct (truthy (bd_selected dec)).
    - apply Forall2_cons_inv_l in HF as (b' & l1 & _ & HF & [= <- ->]). apply Forall2_cons_inv_l in HF as (sh & l2 & (Hst & _) & HF & ->).
      apply Forall2_nil_inv_l in HF as ->. rewrite !elem_of_cons, elem_of_nil in Hr. destruct Hr as [->|[->|[]]]; cbn in *; congruence.
    - apply Forall2_cons_inv_l in HF as (b' & l1 & _ & HF & [= <- ->]). apply Forall2_nil_inv_l in HF as ->.
      rewrite !elem_of_cons, elem_of_nil in Hr. destruct Hr as [->|[]]; congruence. }
  split; [done|]. intros r s Hrs. apply request_ok_extend; [done|by apply Hok|]. intros x Hx Hxt Heq.
  apply elem_of_cons in Hx as [->|Hx]; [|by destruct (Hrest x Hx)].
  assert (pstr r "failed_vertex_id" = Some v) as Hfor.
  { unfold pfield at 1 in Heq. rewrite Hpl in Heq. change (Js.field (boundaryPayload _ _) "failed_vertex_id") with (VStr (bd_failedVertexId dec)) in Heq.
    unfold pstr. destruct (pfield r "failed_vertex_id"); try done. cbn in Heq. bool_prop. cbn. congruence. }
  apply resolvedAt_before; [intros e He; apply Hlt; [done|by left]|].
  pose proof (earlier_request_settling events r s Hdi Hord Hrs) as Hset. apply elem_of_requestPairs in Hrs as [Hr Ha].
  pose proof (Hok r s ltac:(by apply elem_of_requestPairs)) as (h & Hg & _). rewrite get_scopeHistory in Hg.
  destruct (existsb (own s) events) eqn:Ex; [|done]. apply existsb_true in Ex as (e & He & Ho).
  destruct (own_reported events s e (di_coordinated _ Hdi) He Ho) as (sc & Hsc & _).
  pose proof (requestedFor_last events s sc r Hsc Hnd Hr Ha) as Hrf. rewrite Hfor in Hrf.
  pose proof (decision_resolved events v policy locked dec Hd Hact s sc Hsc Hrf) as Hph.
  rewrite (scope_phase _ _ _ Hsc) in Hph. destruct (phase_evidence_holds events s (di_coordinated _ Hdi)) as [_ E2 E3 _ _ _].
  unfold settling in Hset. rewrite !elem_of_cons, elem_of_nil in Hset. rewrite !elem_of_cons in Hph. tauto.
Qed.

Lemma requested_discipline events v locked dec drafts rows :
  disciplined events -> seq_ordered (events ++ rows) -> decideRecovery events v policy locked = Ok (dec, drafts) -> bd_action dec = Recovery.request ->
  Forall2 written drafts rows -> or_passed (cancelRequestDiscipline (events ++ rows) false) = true.
Proof.
  intros Hdi Hord Hdec Hact HF. destruct (request_rows policy _ _ _ _ _ _ Hdec Hact HF) as (row & -> & Hin & Hty & Hids & _).
  pose proof (decide_selectBoundary _ _ _ _ _ _ Hdec) as (Hd & _ & _). apply seq_ordered_app_inv in Hord as (Hord & _ & Hlt).
  pose proof (selectBoundary_vocabulary _ _ _ _ _ Hd) as [_ Hvoc]. rewrite Hact in Hvoc. destruct Hvoc as (_ & _ & _ & Hopen).
  pose proof (di_passed _ Hdi) as Hp. apply cancelRequestDiscipline_passed in Hp as [Hnd Hok]. apply cancelRequestDiscipline_passed.
  assert (Forall inert [row]) as Hinr by (by constructor).
  assert (requestPairs (events ++ [row]) = requestPairs events ++ map (pair row) (js_sort strcmp (bd_requestScopes dec))) as Hpairs.
  { unfold requestPairs. rewrite flat_map_app. cbn. unfold asked at 2. apply is_type_true in Hty as ->. by rewrite Hids, app_nil_r. }
  assert (forall s, s ∈ bd_requestScopes dec -> exists sc, JMap.get (scopeCancellations events) s = Some sc /\ phase_after events s ∈ [open; Scopes.fenced]) as Hph.
  { intros s Hs. destruct (Hopen s Hs) as (sc & Hg & Hp). exists sc. split; [done|]. rewrite <- (scope_phase _ _ _ Hg), !elem_of_cons. tauto. }
  rewrite Hpairs. split.
  - rewrite map_app, map_map. cbn [snd]. rewrite map_id. apply NoDup_app. split; [done|]. split.
    + intros s Hs Hnew. apply elem_of_map in Hs as ([r s'] & -> & Hrs). cbn in Hnew. apply elem_of_js_sort, Hph in Hnew as (_ & _ & Hnew).
      pose proof (earlier_request_settling events r s' Hdi Hord Hrs) as Hset. unfold settling in Hset. rewrite !elem_of_cons, elem_of_nil in Hset. rewrite !elem_of_cons, elem_of_nil in Hnew.
      destruct_or! Hset; rewrite Hset in Hnew; by destruct_or! Hnew.
    + apply NoDup_js_sort. by eapply decision_requests_NoDup.
  - intros r s Hrs. apply elem_of_app in Hrs as [Hrs|Hrs].
    + apply request_ok_extend; [done|by apply Hok|]. intros b ->%list_elem_of_singleton Hb. congruence.
    + apply elem_of_map in Hrs as (s' & [= -> ->] & Hs). apply elem_of_js_sort, Hph in Hs as (sc & Hg & Hs). rewrite scopeHistory_inert by done.
      destruct Hdi as [Hco Hab _ _ _].
      destruct (unasked_quiet events s' Hco Hab) as (U1 & U2 & U3 & U4); [rewrite !elem_of_cons in Hs; rewrite !elem_of_cons; tauto|].
      assert (seen events s' opens) as (o & Ho & Hoo & Hop) by (apply asked_opened; [done|done|]; rewrite !elem_of_cons in Hs; rewrite !elem_of_cons; tauto).
      exists (history events s'). rewrite get_scopeHistory. assert (existsb (own s') events = true) as -> by (apply existsb_true; eauto).
      assert (forall cond field, field (history events s') = run_seq <$> find (fun e => own s' e && cond e) events -> ~ seen events s' cond ->
        before (field (history events s')) (run_seq row) = false) as Hnone.
      { intros cond field Hf Hn. rewrite Hf. destruct (run_seq <$> find _ events) eqn:Efd; [|done]. exfalso. apply Hn, seen_find. by eexists. }
      split_and!; [done| | | |done].
      * pose proof (openedAt_spec events s') as Hspec. destruct (sh_openedAt (history events s')) as [q|].
        -- exists q. split; [done|]. destruct Hspec as [_ Hmin]. specialize (Hmin o Ho Hoo Hop). specialize (Hlt o row Ho ltac:(left)). lia.
        -- by rewrite (Hspec o Ho Hoo) in Hop.
      * intros x. rewrite !elem_of_cons, elem_of_nil. intros [->|[->|[->|[->|[]]]]].
        -- apply (Hnone starts_cancelling sh_cancellingAt (cancellingAt_first _ _) U1).
        -- apply (Hnone closing sh_closedAt (closedAt_first _ _) U2).
        -- apply (Hnone suspends sh_suspendedAt (suspendedAt_first _ _) U3).
        -- apply (Hnone starts_pivot sh_pivotAt (pivotAt_first _ _) U4).
      * intros b Hb Hbt _ Hsq. exfalso. apply elem_of_app in Hb as [Hb|Hb%list_elem_of_singleton]; [|congruence]. specialize (Hlt b row Hb ltac:(left)). lia.
Qed.

(** C7. The engine passes [cancelRequestDiscipline]. On a run whose scopes are written by the
    Coordinator's rules, where no failure proves a started pivot absent and a requested scope starts
    no pivot, a recovery transaction keeps the oracle passing: it requests each scope at most once,
    only scopes that were opened and can still be cancelled, and records no answer to a failure before
    every scope requested for it closed or was suspended. *)
Theorem recovery_requests_once (d : db) run r d' :
  appendUnderScopeLock validateSchema schemaErrors actor d run (decideUnderLock policy) = (r, d') ->
  disciplined (select_stream d run) -> seq_ordered (select_stream d' run) ->
  or_passed (cancelRequestDiscipline (select_stream d' run) false) = true.
Proof.
  intros Ht Hdi Hord. apply attempt_appends in Ht as [->|(locked & v & dec & drafts & rows & _ & Hdec & Hnw & Hs & HF)]; [apply Hdi|].
  rewrite Hs in *. destruct (bd_action dec) eqn:Eact; [| |done].
  - by eapply recorded_discipline.
  - by eapply requested_discipline.
Qed.
End Discipline.
