(* ===== verification/OracleRuns.v ===== *)
(** * Answers and refusals under the oracles

    [oneAnswerPerFailure] and [routerAdmission] against the operations that append what they judge:
    the recovery transaction and the submission. Concrete runs instantiate the theorems of this file
    and of OracleFacts.v. *)

From S2P Require Import Prelude Collections Number Json JsonParse JsText Events Graph Fork Projection Scopes Phases Lineage Llm CheckRules ToolView Gateway RuleTemplate Workflow WorkflowFacts Store StoreFacts Submission Planner ProposalFacts PlannerFacts Recovery RecoveryFacts RecoveryLoop Oracles OracleFacts.

(** ** One answer per failure *)

(** The boundaries that name a vertex since its last failure. *)
Definition count_step (k : option string) (n : Z) (e : StoredEvent) : Z :=
  let n := match failedVertex e with Some v => if Some v ==? k then 0 else n | None => n end in
  if is_type replan_boundary e && (pstr e "failed_vertex_id" ==? k) then n + 1 else n.
Definition answered_times (events : list StoredEvent) (k : option string) : Z := fold_left (count_step k) events 0.

Lemma answered_times_snoc events e k : answered_times (events ++ [e]) k = count_step k (answered_times events k) e.
Proof. unfold answered_times. by rewrite fold_left_app. Qed.

Lemma oneAnswer_loop events :
  match loop answerStep [] events with
  | inl r => or_passed r = false
  | inr m => forall k, JMap.get_or 0 m k = answered_times events k
  end.
Proof.
  induction events as [|e events IH] using rev_ind; [done|]. rewrite loop_app. destruct (loop answerStep [] events) as [r|m]; [done|].
  cbn [loop]. unfold answerStep. set (m1 := match failedVertex e with Some v => JMap.set m (Some v) 0 | None => m end).
  assert (forall k, JMap.get_or 0 m1 k = match failedVertex e with Some v => if Some v ==? k then 0 else answered_times events k | None => answered_times events k end) as Hm1.
  { intros k. unfold m1. destruct (failedVertex e) as [v|]; [|apply IH]. unfold JMap.get_or. rewrite get_set. destruct (Some v ==? k); [done|apply IH]. }
  destruct (is_type replan_boundary e) eqn:Et; cbn [negb].
  - destruct (1 <? _); [done|]. intros k. rewrite answered_times_snoc. unfold count_step. rewrite Et. cbn [andb]. rewrite <- !Hm1.
    unfold JMap.get_or at 1. rewrite get_set. case_eqb; [subst; done|]. fold (JMap.get_or 0 m1 k). done.
  - intros k. rewrite answered_times_snoc. unfold count_step. rewrite Et. cbn [andb]. apply Hm1.
Qed.

Lemma oneAnswer_snoc events e :
  or_passed (oneAnswerPerFailure (events ++ [e])) = true <->
  or_passed (oneAnswerPerFailure events) = true /\
  (event_type e = replan_boundary -> answered_times (events ++ [e]) (pstr e "failed_vertex_id") <= 1).
Proof.
  unfold oneAnswerPerFailure. rewrite loop_app. pose proof (oneAnswer_loop events) as Hl. pose proof (oneAnswer_loop (events ++ [e])) as Hs.
  rewrite loop_app in Hs. destruct (loop answerStep [] events) as [r|m]; [rewrite Hl; naive_solver|]. cbn [loop] in *.
  unfold answerStep in *. set (m1 := match failedVertex e with Some v => JMap.set m (Some v) 0 | None => m end) in *.
  destruct (is_type replan_boundary e) eqn:Et; cbn [negb] in *.
  - apply is_type_true in Et as Et'. destruct (1 <? _) eqn:Ec.
    + rewrite Hs. split; [done|]. intros [_ Hle]. specialize (Hle Et'). exfalso. bool_prop.
      rewrite answered_times_snoc in Hle. unfold count_step in Hle. rewrite Et, eqb_refl in Hle. cbn [andb] in Hle.
      assert (JMap.get_or 0 m1 (pstr e "failed_vertex_id") = match failedVertex e with
        | Some v => if Some v ==? pstr e "failed_vertex_id" then 0 else answered_times events (pstr e "failed_vertex_id") | None => answered_times events (pstr e "failed_vertex_id") end) as Hm.
      { unfold m1. destruct (failedVertex e) as [v|]; [|apply Hl]. unfold JMap.get_or. rewrite get_set. destruct (Some v ==? _); [done|apply Hl]. }
      rewrite Hm in Ec. lia.
    + split; [|done]. intros _. split; [done|]. intros _. rewrite <- Hs. unfold JMap.get_or at 1. rewrite get_set_eq. cbn. bool_prop. lia.
  - split; [|done]. intros _. split; [done|]. intros Hb. apply is_type_true in Hb. congruence.
Qed.

(** A count above zero has its boundary, and no failure of the vertex after it. *)
Lemma answered_times_pos events v :
  0 <= answered_times events (Some v) /\
  (0 < answered_times events (Some v) -> exists pre b post, events = pre ++ b :: post /\ event_type b = replan_boundary /\
     pstr b "failed_vertex_id" = Some v /\ forall e, e ∈ post -> failedVertex e <> Some v).
Proof.
  induction events as [|e events [IH0 IH]] using rev_ind; [split; [done|intros Hx; cbn in Hx; lia]|]. rewrite answered_times_snoc. unfold count_step.
  set (n := match failedVertex e with Some v' => if Some v' ==? Some v then 0 else answered_times events (Some v) | None => answered_times events (Some v) end).
  assert (0 <= n /\ (0 < n -> 0 < answered_times events (Some v) /\ failedVertex e <> Some v)) as [Hn Hpos].
  { unfold n. destruct (failedVertex e) as [w|]; [|split; [done|intros; split; [lia|done]]]. case_eqb; [split; [done|lia]|]. split; [done|]. intros. split; [lia|congruence]. }
  destruct (is_type replan_boundary e && _) eqn:Eb.
  - apply andb_true_iff in Eb as [Et Ef]. apply is_type_true in Et. apply eqb_true_1 in Ef. split; [lia|]. intros _. exists events, e, [].
    split_and!; try done. by intros ? []%elem_of_nil.
  - split; [done|]. intros Hp. apply Hpos in Hp as [Hp Hne]. destruct (IH Hp) as (pre & b & post & -> & Hb & Hf & Hno).
    exists pre, b, (post ++ [e]). split; [by rewrite <- (assoc (++))|]. split_and!; try done.
    intros x. rewrite elem_of_app, list_elem_of_singleton. intros [Hx| ->]; [by apply Hno|done].
Qed.

(** The last outcome of a vertex is a failure. *)
Definition failing (events : list StoredEvent) (v : string) : Prop :=
  exists e, last (filter_by (outcome_of v) events) = Some e /\ event_type e = vertex_failed.

(** What a boundary records about a failing vertex stays readable: an escalation or a shadowing. *)
Definition answers_hold (events : list StoredEvent) : Prop :=
  forall pre b post v, events = pre ++ b :: post -> event_type b = replan_boundary -> pstr b "failed_vertex_id" = Some v ->
    failing pre v -> exists e, e ∈ events /\ is_answer v e.

Lemma failed_is_due v e : v <> "" -> outcome_of v e = true -> event_type e = vertex_failed -> failedVertex e = Some v.
Proof.
  intros Hne Ho Ht. unfold outcome_of in Ho. apply andb_true_iff in Ho as [Hv _]. apply eqb_true_1, vid_Some in Hv as [Hv _].
  unfold failedVertex. apply is_type_true in Ht as ->. rewrite Hv. by destruct v.
Qed.

Lemma outstanding_unanswered events v : answers_hold events -> v ∈ outstanding events -> answered_times events (Some v) = 0.
Proof.
  intros Hans Hout. destruct (answered_times_pos events v) as [H0 Hpos]. destruct (decide (0 < answered_times events (Some v))) as [Hp|]; [|lia].
  exfalso. destruct (Hpos Hp) as (pre & b & post & Heq & Hb & Hf & Hno). unfold outstanding in Hout. apply elem_of_app in Hout as [Hu|Hs].
  - apply elem_of_unrecovered in Hu as (Hne & (e & Hl & Ht) & Hna). apply Hna. eapply (Hans pre b post v Heq Hb Hf). exists e. split; [|done].
    rewrite Heq, filter_by_app in Hl. cbn [List.filter] in Hl. assert (outcome_of v b = false) as Hbo.
    { unfold outcome_of. rewrite Hb. apply andb_false_r. }
    rewrite Hbo in Hl. destruct (filter_by (outcome_of v) post) as [|x l] eqn:El; [by rewrite app_nil_r in Hl|].
    exfalso. rewrite last_app in Hl. destruct (last (x :: l)) as [y|] eqn:Ey; [|by apply last_None in Ey]. injection Hl as ->.
    apply last_Some_elem_of in Ey. rewrite <- El in Ey. apply elem_of_filter_by in Ey as [Hin Ho]. apply (Hno e Hin). by apply failed_is_due.
  - apply elem_of_stalled in Hs as [_ Hs]. apply Hs, elem_of_answeredPlanners. exists b. rewrite Heq, elem_of_app, elem_of_cons. tauto.
Qed.

Lemma filter_outcome_rows v rows : (forall e, e ∈ rows -> event_type e = replan_boundary \/ event_type e = subgraph_shadowed \/ event_type e = replan_cancel_requested) ->
  filter_by (outcome_of v) rows = [].
Proof.
  intros Hall. apply elem_of_nil_inv. intros e He. apply elem_of_filter_by in He as [He Ho]. unfold outcome_of in Ho. apply andb_true_iff in Ho as [_ Ho].
  destruct (Hall e He) as [Ht|[Ht|Ht]]; by rewrite Ht in Ho.
Qed.

Section Answers.
Context `{Collation}.
Context {db : Type} `{!Database db} `{!DatabaseLaws db}.
Context (validateSchema : EventDraft -> bool) (schemaErrors : EventDraft -> string) (actor : Actor) (policy : RecoveryPolicy).

(** The boundary resumes at the vertex whose failure it answers. *)
Definition self_boundary (b : StoredEvent) : Prop :=
  event_type b = replan_boundary /\ exists v, pstr b "failed_vertex_id" = Some v /\ pfield b "selected" = VStr v.

Lemma answers_hold_more events rows :
  answers_hold events -> (forall e, e ∈ rows -> event_type e <> replan_boundary) -> answers_hold (events ++ rows).
Proof.
  intros Hans Hno pre b post v Heq Hb Hf Hfail. apply app_eq_inv in Heq as [(k & Hev & Hk)|(k & -> & Hk)].
  - destruct k as [|x k]; [exfalso; apply (Hno b); [cbn in Hk; rewrite <- Hk; left|done]|]. injection Hk as <- ->.
    destruct (Hans pre b k v Hev Hb Hf Hfail) as (e & He & Ha). exists e. rewrite elem_of_app. tauto.
  - exfalso. apply (Hno b); [rewrite Hk, elem_of_app, elem_of_cons; tauto|done].
Qed.

(** The answer a recorded decision leaves. *)
Lemma recorded_answer_holds events v locked dec drafts rows :
  v ∈ outstanding events -> decideRecovery events v policy locked = Ok (dec, drafts) -> bd_action dec = record ->
  Forall2 written drafts rows -> bd_selected dec <> Some v -> failing events v -> exists e, e ∈ events ++ rows /\ is_answer v e.
Proof.
  intros Hout Hdec Hact HF Hsel (x & Hl & Hx). pose proof (decide_selectBoundary _ _ _ _ _ _ Hdec) as (Hd & Hv & Hsh). rewrite Hact in Hsh.
  destruct (record_rows policy _ _ _ _ _ _ Hdec Hact HF) as (_ & b & later & -> & Hb & _ & Hpl & Hs).
  destruct (bd_selected dec) as [p|] eqn:Es.
  2:{ exists b. split; [rewrite elem_of_app, elem_of_cons; tauto|]. right. split; [done|]. unfold pstr, pfield. rewrite Hpl. subst v. cbn. by rewrite Es. }
  destruct (Hs p eq_refl) as (_ & sh & Hfi & Hids). apply find_Some in Hfi as [Hin Hty]. apply is_type_true in Hty.
  destruct (decide (v ∈ alreadyHidden events)) as [Hh|Hh].
  { apply elem_of_alreadyHidden in Hh as (e & He & Het & Hev). exists e. rewrite elem_of_app. split; [by left|]. by left. }
  destruct (selected_safe _ _ _ _ _ _ Hd Es) as [_ Hsafe]. exists sh. split; [rewrite elem_of_app, elem_of_cons; tauto|]. left. split; [done|].
  rewrite Hids, (sr_shadowed _ _ _ _ _ Hsafe). apply elem_of_shadowSet. split; [|done].
  destruct (sr_planner _ _ _ _ _ Hsafe) as (k & q & [Hk _] & _). eapply nsteps_causes; [exact Hk|congruence].
Qed.

(** C8. The engine passes [oneAnswerPerFailure]. On a run in which every boundary about a failing
    vertex left an answer the log shows (an escalation, or a shadowing of the vertex), a recovery
    transaction keeps the oracle passing: a failure that is outstanding has no answer since it
    happened. It leaves such a run again, unless it resumed at the very vertex that failed. *)
Theorem recovery_answers_once (d : db) run r d' :
  appendUnderScopeLock validateSchema schemaErrors actor d run (decideUnderLock policy) = (r, d') ->
  answers_hold (select_stream d run) -> or_passed (oneAnswerPerFailure (select_stream d run)) = true ->
  or_passed (oneAnswerPerFailure (select_stream d' run)) = true /\
  (answers_hold (select_stream d' run) \/ exists b, b ∈ select_stream d' run /\ self_boundary b).
Proof.
  intros Ht Hans Hp. apply attempt_appends in Ht as [->|(locked & v & dec & drafts & rows & Hout & Hdec & Hnw & -> & HF)]; [tauto|].
  set (events := select_stream d run) in *. destruct (bd_action dec) eqn:Eact; [| |done].
  2:{ destruct (request_rows policy _ _ _ _ _ _ Hdec Eact HF) as (row & -> & _ & Hty & _). split.
      - apply oneAnswer_snoc. split; [done|]. intros Hb. congruence.
      - left. apply answers_hold_more; [done|]. intros e ->%list_elem_of_singleton. congruence. }
  destruct (record_rows policy _ _ _ _ _ _ Hdec Eact HF) as (_ & b & later & -> & Hb & Hrest & Hpl & _).
  pose proof (decide_selectBoundary _ _ _ _ _ _ Hdec) as (_ & Hv & _).
  assert (pstr b "failed_vertex_id" = Some v) as Hbf by (unfold pstr, pfield; rewrite Hpl, <- Hv; done).
  assert (or_passed (oneAnswerPerFailure (events ++ [b])) = true) as Hpb.
  { apply oneAnswer_snoc. split; [done|]. intros _. rewrite answered_times_snoc, Hbf. unfold count_step. rewrite (outstanding_unanswered events v) by done.
    case_match; repeat case_match; lia. }
  split.
  - change (b :: later) with ([b] ++ later). rewrite (assoc (++)). revert Hpb. generalize (events ++ [b]). clear -Hrest.
    induction later as [|e later IH] using rev_ind; intros l Hl; [by rewrite app_nil_r|].
    rewrite (assoc (++)). apply oneAnswer_snoc. split; [apply IH; [intros x Hx; apply Hrest, elem_of_app; by left|done]|].
    intros He. exfalso. apply (Hrest e); [apply elem_of_app; right; left|done].
  - destruct (decide (bd_selected dec = Some v)) as [Hself|Hself].
    + right. exists b. split; [rewrite elem_of_app, elem_of_cons; tauto|]. split; [done|]. exists v. split; [done|].
      unfold pfield. rewrite Hpl. cbn. by rewrite Hself.
    + left. intros pre x post w Heq Hx Hxf Hfail. apply app_eq_inv in Heq as [(k & Hev & Hk)|(k & -> & Hk)].
      * destruct k as [|y k].
        -- cbn in Hk. injection Hk as -> ->. rewrite app_nil_r in Hev. subst pre. assert (w = v) as -> by congruence.
           by eapply (recorded_answer_holds events v locked dec drafts (b :: later)).
        -- injection Hk as <- ->. destruct (Hans pre x k w Hev Hx Hxf Hfail) as (e & He & Ha). exists e. rewrite elem_of_app. tauto.
      * destruct k as [|y k]; injection Hk as <- ->; [|exfalso; apply (Hrest x); [rewrite elem_of_app, elem_of_cons; tauto|done]].
        rewrite app_nil_r in Hfail. assert (w = v) as -> by congruence. by eapply (recorded_answer_holds events v locked dec drafts (b :: post)).
Qed.
End Answers.

(** ** Refused proposals *)
Lemma first_failure_None {A} (check : A -> option OracleResult) xs : first_failure check xs = None <-> forall x, x ∈ xs -> check x = None.
Proof.
  induction xs as [|x xs IH]; cbn; [split; [by intros _ x []%elem_of_nil|done]|]. destruct (check x) eqn:E.
  - split; [done|]. intros Hall. by rewrite (Hall x ltac:(left)) in E.
  - rewrite IH. split; [intros Hall y [->|Hy]%elem_of_cons; [done|by apply Hall]|intros Hall y Hy; apply Hall; by right].
Qed.

(** No creation lies between a proposal and its refusal. *)
Definition clear_window (events : list StoredEvent) (rej : StoredEvent) : Prop :=
  forall c, c ∈ events -> event_type c = vertex_created -> Num.lt (proposedSeq rej) (Num.of_Z (run_seq c)) = true -> run_seq rej <= run_seq c.

Lemma routerAdmission_passed events :
  or_passed (routerAdmission events) = true <-> forall rej, rej ∈ events -> event_type rej = subgraph_rejected -> clear_window events rej.
Proof.
  unfold routerAdmission. set (check := fun rejection => match frozenInside events rejection with Some _ => _ | None => None end).
  assert (forall rej, check rej = None <-> clear_window events rej) as Hcheck.
  { intros rej. unfold check, clear_window, frozenInside. destruct (find _ events) as [c|] eqn:Ef.
    - split; [done|]. intros Hw. exfalso. apply find_Some in Ef as [Hc Hb]. bool_prop. match goal with H : is_type _ _ = true |- _ => apply is_type_true in H end.
      specialize (Hw c Hc ltac:(done) ltac:(done)). lia.
    - split; [|done]. intros _ c Hc Ht Hlt. rewrite find_None in Ef. specialize (Ef c Hc). apply is_type_true in Ht as Ht'. rewrite Ht', Hlt in Ef. cbn in Ef. bool_prop. done. }
  transitivity (first_failure check (filter_by (is_type subgraph_rejected) events) = None).
  - destruct (first_failure check _) as [r|] eqn:E; [|done]. split; [|done]. cbn. intros Hr. exfalso.
    assert (or_passed r = false); [|congruence]. clear -E. induction (filter_by _ _) as [|x l IH]; [done|]. cbn in E. destruct (check x) eqn:Ex; [|by apply IH].
    injection E as ->. unfold check in Ex. destruct (frozenInside events x); [|done]. by injection Ex as <-.
  - rewrite first_failure_None. setoid_rewrite elem_of_filter_by. setoid_rewrite Hcheck. setoid_rewrite is_type_true. naive_solver.
Qed.

Section Refusals.
Context {db : Type} `{!Database db} `{!DatabaseLaws db}.
Context (sha256 : string -> string) (templates : option TemplateResolver) (validateSchema : EventDraft -> bool) (schemaErrors : EventDraft -> string) (actor : Actor).

(** Positions a number holds exactly. *)
Definition exact_positions (events : list StoredEvent) : Prop := forall e, e ∈ events -> 0 <= run_seq e < 2 ^ 53.

(** The engine passes [routerAdmission]: whatever a submission answers, accepted, refused or
    thrown, no vertex lies between a proposal of the run and its refusal if none did before. Positions
    are compared as numbers, so they are taken to be exact. *)
Theorem submission_admission d run submission view newId r (d' : db) :
  submit sha256 templates validateSchema schemaErrors actor d run submission view newId = (r, d') ->
  seq_ordered (select_stream d' run) -> exact_positions (select_stream d' run) ->
  or_passed (routerAdmission (select_stream d run)) = true -> or_passed (routerAdmission (select_stream d' run)) = true.
Proof.
  intros Hs Hord Hex. apply submit_outcome_holds in Hs; [|done]. destruct Hs as [_ Hs]. rewrite !routerAdmission_passed. intros Hp.
  set (events := select_stream d run) in *.
  assert (forall rows, select_stream d' run = events ++ rows ->
    (forall rej, rej ∈ rows -> event_type rej = subgraph_rejected -> clear_window (events ++ rows) rej) ->
    forall rej, rej ∈ select_stream d' run -> event_type rej = subgraph_rejected -> clear_window (select_stream d' run) rej) as Hgrow.
  { intros rows Heq Hnew rej. rewrite Heq in *. apply seq_ordered_app_inv in Hord as (_ & _ & Hlt).
    intros [Hr|Hr]%elem_of_app Ht; [|by apply Hnew]. intros c [Hc|Hc]%elem_of_app Hct Hn; [by apply (Hp rej)|]. specialize (Hlt rej c Hr Hc). lia. }
  destruct r as [[p f ids|p j stage vs]|e].
  - destruct Hs as (n & resolved & context & d1 & proposed & frozen & rows & _ & _ & _ & _ & Heq & Hpt & _ & Hft & _ & _ & Hrows & _).
    apply (Hgrow _ Heq). intros rej. rewrite !elem_of_cons. intros [->|[->|Hr]] Ht; [congruence..|]. rewrite (Hrows rej Hr) in Ht. done.
  - destruct Hs as (proposed & rejected & Heq & Hpt & Hpq & Hrt & Hrq & Hj & Hpl). apply (Hgrow _ Heq). rewrite Heq in Hord, Hex.
    intros rej. rewrite !elem_of_cons, elem_of_nil. intros [->|[->|[]]] Ht; [congruence|]. intros c Hc Hct Hn.
    assert (proposedSeq rejected = Num.of_Z p) as Hps by (unfold proposedSeq; rewrite Hpl; done). rewrite Hps in Hn.
    assert (0 <= p < 2 ^ 53) as Hpr by (rewrite <- Hpq; apply Hex; rewrite elem_of_app, !elem_of_cons; tauto). pose proof (Hex c Hc) as Hcr.
    rewrite of_Z_lt in Hn by lia. apply Z.ltb_lt in Hn. lia.
  - destruct Hs as [Heq|(proposed & Hpt & Heq)]; [rewrite Heq; exact Hp|]. apply (Hgrow _ Heq). intros rej ->%list_elem_of_singleton Ht. congruence.
Qed.
End Refusals.

(** ** Concrete runs *)
#[local] Existing Instance code_unit_collation.

#[export] Instance coordinated_dec e : Decision (coordinated e).
Proof. unfold coordinated, coordinator_state, request_unscoped. apply _. Defined.
#[export] Instance absent_free_dec e : Decision (absent_free e).
Proof. unfold absent_free. apply _. Defined.

(** Runs without the events a rule is about obey it. *)
Lemma pivot_free events :
  forallb (fun e => negb (starts_pivot e) && negb (is_type txn_pivot_passed e)) events = true -> pivots_started events /\ fences_hold events.
Proof.
  rewrite forallb_true. intros Hno. split.
  - intros pre e post s -> Ht Ho. specialize (Hno e ltac:(rewrite elem_of_app, elem_of_cons; tauto)). bool_prop. apply is_type_true in Ht. congruence.
  - intros pre r post s e -> Ha He Ho. specialize (Hno e ltac:(rewrite elem_of_app, elem_of_cons; tauto)). bool_prop. split; [done|]. rewrite <- is_type_true. congruence.
Qed.

Lemma boundary_free events : forallb (fun e => negb (is_type replan_boundary e)) events = true -> shadows_follow events /\ answers_hold events.
Proof.
  rewrite forallb_true. intros Hno. split.
  - intros pre b post -> Hb. specialize (Hno b ltac:(rewrite elem_of_app, elem_of_cons; tauto)). bool_prop. apply is_type_true in Hb. congruence.
  - intros pre b post v -> Hb. specialize (Hno b ltac:(rewrite elem_of_app, elem_of_cons; tauto)). bool_prop. apply is_type_true in Hb. congruence.
Qed.

Definition run_db (next : Z) (events : list StoredEvent) : MemoryDb.Mem :=
  {| MemoryDb.m_user := "engine_role"; MemoryDb.m_runs := [("r1", {| MemoryDb.mr_next_seq := next; MemoryDb.mr_seed_floor := None; MemoryDb.mr_events := events |})];
     MemoryDb.m_scopes := []; MemoryDb.m_brackets := [] |}.

Definition recovered (next : Z) (events : list StoredEvent) : result (option (list Z) * (Attempt * list StoredEvent)) * MemoryDb.Mem :=
  appendUnderScopeLock any_schema no_errors engine (run_db next events) "r1" (decideUnderLock sample_policy).

Lemma recovered_pair next events :
  appendUnderScopeLock any_schema no_errors engine (run_db next events) "r1" (decideUnderLock sample_policy) =
  (fst (recovered next events), snd (recovered next events)).
Proof. unfold recovered. apply surjective_pairing. Qed.

Definition added (next : Z) (events : list StoredEvent) : list EventType :=
  map event_type (drop (length events) (select_stream (snd (recovered next events)) "r1")).

(** The scope of the failed call was asked to cancel and finished cancelling. *)
Definition cancelled_in_scope : list StoredEvent :=
  failing_in_scope ++
  [sample_event 12 replan_cancel_requested None [] None [("failed_vertex_id", VStr "t1"); ("scope_ids", str_array ["s1"])];
   scoped "s1" (sample_event 13 txn_cancel None [] None [("idempotency_key", VStr "k"); ("phase", VStr "requested")]);
   scoped "s1" (sample_event 14 txn_cancel None [] None [("idempotency_key", VStr "k"); ("phase", VStr "completed")])].

Ltac ordered := vm_compute; repeat (constructor; [|repeat (constructor; [reflexivity|])]); constructor.

Lemma cancels_first_witness :
  added 15 cancelled_in_scope = [replan_boundary; subgraph_shadowed] /\
  or_passed (cancelBeforeReplan (select_stream (snd (recovered 15 cancelled_in_scope)) "r1")) = true.
Proof.
  split; [vm_compute; reflexivity|].
  apply (recovery_cancels_first any_schema no_errors engine sample_policy (run_db 15 cancelled_in_scope) "r1" (fst (recovered 15 cancelled_in_scope)) (snd (recovered 15 cancelled_in_scope))).
  - apply recovered_pair.
  - apply (bool_decide_unpack _). vm_compute. exact I.
  - apply pivot_free. vm_compute. reflexivity.
  - apply boundary_free. vm_compute. reflexivity.
  - ordered.
  - vm_compute. reflexivity.
Defined.

Lemma requests_once_witness :
  added 12 failing_in_scope = [replan_cancel_requested] /\
  or_passed (cancelRequestDiscipline (select_stream (snd (recovered 12 failing_in_scope)) "r1") false) = true.
Proof.
  split; [vm_compute; reflexivity|].
  apply (recovery_requests_once any_schema no_errors engine sample_policy (run_db 12 failing_in_scope) "r1" (fst (recovered 12 failing_in_scope)) (snd (recovered 12 failing_in_scope))).
  - apply recovered_pair.
  - split.
    + apply (bool_decide_unpack _). vm_compute. exact I.
    + apply (bool_decide_unpack _). vm_compute. exact I.
    + apply pivot_free. vm_compute. reflexivity.
    + apply pivot_free. vm_compute. reflexivity.
    + vm_compute. reflexivity.
  - ordered.
Defined.

Lemma answers_once_witness :
  added 10 failing_run = [replan_boundary; subgraph_shadowed] /\
  or_passed (oneAnswerPerFailure (select_stream (snd (recovered 10 failing_run)) "r1")) = true.
Proof.
  split; [vm_compute; reflexivity|].
  apply (recovery_answers_once any_schema no_errors engine sample_policy (run_db 10 failing_run) "r1" (fst (recovered 10 failing_run)) (snd (recovered 10 failing_run))).
  - apply recovered_pair.
  - apply boundary_free. vm_compute. reflexivity.
  - vm_compute. reflexivity.
Defined.

Definition refused_workflow : WorkflowSubmission := with_vertices sample_workflow [sample_tool_vertex "a" [] "absent"].

Lemma submission_admission_witness :
  new_events (snd (sample_submit refused_workflow)) = [subgraph_proposed; subgraph_rejected] /\
  or_passed (routerAdmission (select_stream (snd (sample_submit refused_workflow)) "r1")) = true.
Proof.
  split; [vm_compute; reflexivity|].
  apply (submission_admission sample_hash None any_schema no_errors engine sample_db "r1" refused_workflow (Ok sample_view) sample_newId (fst (sample_submit refused_workflow)) (snd (sample_submit refused_workflow))).
  - unfold sample_submit. apply surjective_pairing.
  - ordered.
  - unfold exact_positions. apply Forall_forall, (bool_decide_unpack _). vm_compute. exact I.
  - vm_compute. reflexivity.
Defined.

(** A pivot that was started and then proven absent fences its scope again, and the engine asks for
    its cancellation; the oracle takes the pivot's start to have settled the scope and fails the run. *)
Definition absent_pivot : list StoredEvent :=
  take 9 failing_in_scope ++
  [scoped "s1" (sample_event 10 vertex_started (Some "t1") [] None [("phase", VStr "pivot")]);
   scoped "s1" (sample_event 11 vertex_failed (Some "t1") [] None [("outcome", VStr "confirmed-absent")])].

Example absent_pivot_fails :
  or_passed (cancelRequestDiscipline absent_pivot false) = true /\ added 12 absent_pivot = [replan_cancel_requested] /\
  or_detail (cancelRequestDiscipline (select_stream (snd (recovered 12 absent_pivot)) "r1") false) =
    Some "scope s1 was requested at run_seq 12 after it could no longer be cancelled".
Proof. vm_compute. done. Qed.

(** A planner that fails when it is called again is its own cheapest boundary. Until it starts once
    more the failure stays outstanding, and a second attempt answers it a second time. *)
Definition failed_again : list StoredEvent := take 5 failing_run ++ [sample_event 6 vertex_failed (Some "p1") [] None [("error_type", VStr "Error")]].

Example self_boundary_answered_twice :
  let once := select_stream (snd (recovered 7 failed_again)) "r1" in
  added 7 failed_again = [replan_boundary; subgraph_shadowed] /\ outstanding once = ["p1"] /\
  or_passed (oneAnswerPerFailure once) = true /\
  or_detail (oneAnswerPerFailure (select_stream (snd (recovered 9 once)) "r1")) = Some "p1 answered a second time at run_seq 9".
Proof. vm_compute. done. Qed.
