(* ===== verification/Console.v ===== *)
(** * The console's fold of a run (console/server/src/projection/model.ts, projection.ts, detail.ts)

    The operator's view: one run's events folded, batch by batch, into a graph with its scopes,
    replans, proposals and spend, and the deltas each batch produces. The source mutates one vertex,
    scope or proposal object in place; here a fold state holds the current values, and a delta that
    carries a replan object carries its index, because the object it was given goes on changing until
    the batch is finished.

    Payload fields that are only carried through stay [value]s. *)

From S2P Require Import Prelude Collections Number Json JsonParse JsText Events Projection Oracles.
From Corelib Require Import SpecFloat.

(** ** What the fold uses of the language *)

(** [a?.k] and [a.k] on a value that is not null: a member of an object, nothing of a primitive. *)
Definition chain (v : value) (k : string) : value := match v with VObj o => Js.field o k | _ => VUndef end.

(** [a.k] where [a] may be null or undefined. *)
Definition access (v : value) (k : string) : result value :=
  match v with
  | VUndef => Throw ("Cannot read properties of undefined (reading '" +:+ k +:+ "')")
  | VNull => Throw ("Cannot read properties of null (reading '" +:+ k +:+ "')")
  | _ => Ok (chain v k)
  end.

(** [for (const entry of v ?? [])] *)
Definition each (v : value) : result (list value) :=
  match v with
  | VUndef | VNull => Ok []
  | VArr vs => Ok vs
  | VStr s => Ok (map (fun c => VStr (String c "")) (String.list_ascii_of_string s))
  | VBool _ | VNum _ | VObj _ => Throw "value is not iterable"
  end.

(** [v ?? null] *)
Definition or_null (v : value) : value := Js.nullish_or v VNull.

(** [v + w]: text when an operand is a string or an object, else the sum of the operands as numbers. *)
Definition scalar_number (v : value) : number :=
  match v with
  | VNull => S754_zero false
  | VBool b => Num.of_Z (if b then 1 else 0)
  | VNum n => n
  | _ => S754_nan
  end.

Definition textual_operand (v : value) : bool := match v with VStr _ | VArr _ | VObj _ => true | _ => false end.

Definition plus (v w : value) : value :=
  if textual_operand v || textual_operand w then VStr (Js.to_text v +:+ Js.to_text w)
  else VNum (Num.add (scalar_number v) (scalar_number w)).

(** [Math.max(n, 1)] *)
Definition at_least_one (n : number) : number := if Num.lt n (Num.of_Z 1) then Num.of_Z 1 else n.

(** [Date.parse] of the texts [toISOString] writes for the years 0 to 9999,
    [YYYY-MM-DDTHH:mm:ss.sssZ]; anything else is [NaN]. *)
Module IsoDate.
Definition number_at (from len : nat) (s : string) : option Z :=
  match Num.digits 0 0 (take_str len (drop_str from s)) with
  | (n, count, "") => if count =? Z.of_nat len then Some n else None
  | _ => None
  end.

Definition char_at (at_ : nat) (s : string) : string := take_str 1 (drop_str at_ s).

(** Days since 1970-01-01 in the proleptic Gregorian calendar. *)
Definition days (y m d : Z) : Z :=
  let y' := if m <=? 2 then y - 1 else y in
  let era := y' / 400 in
  let yoe := y' - era * 400 in
  let doy := (153 * (if 2 <? m then m - 3 else m + 9) + 2) / 5 + d - 1 in
  era * 146097 + (yoe * 365 + yoe / 4 - yoe / 100 + doy) - 719468.

Definition leap (y : Z) : bool := (y mod 4 =? 0) && (negb (y mod 100 =? 0) || (y mod 400 =? 0)).
Definition month_length (y m : Z) : Z :=
  if m =? 2 then (if leap y then 29 else 28) else if existsb (Z.eqb m) [4; 6; 9; 11] then 30 else 31.

Definition in_range (lo n hi : Z) : bool := (lo <=? n) && (n <=? hi).

Definition parse (s : string) : option Z :=
  if (String.length s =? 24)%nat && (char_at 4 s ==? "-") && (char_at 7 s ==? "-") && (char_at 10 s ==? "T") &&
     (char_at 13 s ==? ":") && (char_at 16 s ==? ":") && (char_at 19 s ==? ".") && (char_at 23 s ==? "Z") then
    y ← number_at 0 4 s; mo ← number_at 5 2 s; d ← number_at 8 2 s;
    h ← number_at 11 2 s; mi ← number_at 14 2 s; sec ← number_at 17 2 s; ms ← number_at 20 3 s;
    if in_range 1 mo 12 && in_range 1 d (month_length y mo) && in_range 0 h 23 && in_range 0 mi 59 && in_range 0 sec 59
    then Some ((((days y mo d * 24 + h) * 60 + mi) * 60 + sec) * 1000 + ms) else None
  else None.
End IsoDate.

Definition date_parse (s : string) : number := from_option Num.of_Z S754_nan (IsoDate.parse s).

(** ** The model *)
Definition CONSOLE_PROJECTOR_VERSION : string := "console-projector@v2".

Inductive ConsoleRole : Type := planner_role | tool_role | router_role | confirmation_barrier_role | unknown_role.
Inductive ConsoleStatus : Type := created_status | started_status | succeeded_status | failed_status | retried_status.
Inductive ConsoleSource : Type := by_planner | by_router.
Inductive ConsoleKind : Type := production | counterfactual.
Inductive BracketState : Type := sealed | confirmed | cancelled_bracket.
Inductive ProposalOutcome : Type := outcome_frozen | outcome_rejected | outcome_open.

#[export] Instance ConsoleRole_eq_dec : EqDecision ConsoleRole. Proof. solve_decision. Defined.
#[export] Instance ConsoleStatus_eq_dec : EqDecision ConsoleStatus. Proof. solve_decision. Defined.
#[export] Instance ConsoleSource_eq_dec : EqDecision ConsoleSource. Proof. solve_decision. Defined.
#[export] Instance ConsoleKind_eq_dec : EqDecision ConsoleKind. Proof. solve_decision. Defined.
#[export] Instance BracketState_eq_dec : EqDecision BracketState. Proof. solve_decision. Defined.
#[export] Instance ProposalOutcome_eq_dec : EqDecision ProposalOutcome. Proof. solve_decision. Defined.

Definition role_name (r : ConsoleRole) : string :=
  match r with
  | planner_role => "planner" | tool_role => "tool" | router_role => "router"
  | confirmation_barrier_role => "confirmation-barrier" | unknown_role => "unknown"
  end.

Record ConsoleStall : Type := { st_reason : value; st_answer_digest : value; st_at_run_seq : Z }.

Record ConsoleTxn : Type := {
  tx_scope_id : option string;
  tx_is_pivot : bool;
  tx_effect_class : value;
  tx_pivot_passed : bool
}.

Record ConsoleTiming : Type := {
  tm_started_at : option string;
  tm_last_attempt_started_at : option string;
  tm_completed_at : option string;
  tm_duration_ms : option number;
  tm_attempts : number
}.

Record ConsoleBracket : Type := { br_state : BracketState; br_idempotency_key : value; br_deadline_at : value }.

Inductive ConsoleRouterOutcome : Type :=
| pending_outcome
| matched_outcome (matched_condition : string) (branch : value)
| fell_through
| evaluation_error (reason : value)
| proposal_rejected (violations : value).

Record ConsoleCallCost : Type := {
  cc_model : value;
  cc_duration_ms : value;
  cc_input_tokens : value;
  cc_output_tokens : value;
  cc_amount : value;
  cc_currency : value
}.

Record ConsoleVertex : Type := {
  cv_vertex_id : string;
  cv_parent_refs : list string;
  cv_label : value;
  cv_role : ConsoleRole;
  cv_tool : option string;
  cv_tool_version : option string;
  cv_decided_by : ConsoleSource;
  cv_pin_version : option string;
  cv_input : value;
  cv_created_seq : Z;
  cv_frozen_by_seq : option Z;
  cv_depth : Z;
  cv_status : ConsoleStatus;
  cv_is_shadowed : bool;
  cv_shadowed_at_seq : option Z;
  cv_log_fields : value;
  cv_txn : ConsoleTxn;
  cv_timing : ConsoleTiming;
  cv_bracket : option ConsoleBracket;
  cv_router_outcome : option ConsoleRouterOutcome;
  cv_cost : option ConsoleCallCost;
  cv_in_planner_prompt : bool;
  cv_stall : option ConsoleStall
}.

Record ConsoleScope : Type := {
  cs_scope_id : string;
  cs_state : value;
  cs_member_vertex_ids : list string;
  cs_pivot_vertex_id : option string;
  cs_pivot_passed_seq : option Z;
  cs_pivot_declaration_mismatch : bool;
  cs_opened_seq : Z;
  cs_closed_seq : option Z
}.

Record ConsoleReplan : Type := {
  cr_at_run_seq : Z;
  cr_vertex_ids : list string;
  cr_boundary_seq : value;
  cr_boundary_vertex_id : value;
  cr_reason : value
}.

Record ConsoleProposal : Type := {
  cp_proposed_seq : Z;
  cp_outcome : ProposalOutcome;
  cp_source : ConsoleSource;
  cp_terminal_seq : option Z;
  cp_stage : value;
  cp_violations : value
}.

Record ConsoleCancelRequest : Type := {
  cq_at_run_seq : Z;
  cq_failed_vertex_id : value;
  cq_scope_ids : value;
  cq_level : value;
  cq_intended_boundary_vertex_id : value;
  cq_reason : value
}.

Record ConsoleCounterfactual : Type := {
  cf_child_run_id : value;
  cf_at_vertex_id : value;
  cf_eval_up_to_seq : value;
  cf_at_run_seq : Z
}.

Record ConsoleSpend : Type := {
  sp_calls : Z;
  sp_input_tokens : value;
  sp_output_tokens : value;
  sp_amount : value;
  sp_currency : value
}.

Record Announced : Type := { an_label : value; an_frozen_by_seq : Z }.

Record ConsoleDagModel : Type := {
  md_run_id : string;
  md_kind : ConsoleKind;
  md_at_run_seq : Z;
  md_started_at : option string;
  md_vertices : list ConsoleVertex;
  md_scopes : list ConsoleScope;
  md_replans : list ConsoleReplan;
  md_proposals : list ConsoleProposal;
  md_cancel_requests : list ConsoleCancelRequest;
  md_counterfactuals : list ConsoleCounterfactual;
  md_spend : ConsoleSpend;
  md_announced : list (string * Announced);
  md_console_projector_version : string
}.

(** What a delta says changed, and the envelope every delta carries. *)
Inductive ConsoleChange : Type :=
| subgraph_appended (vertices : list ConsoleVertex) (scopes : list ConsoleScope)
| subgraph_hidden (replan : ConsoleReplan)
| vertex_patched (vertex : ConsoleVertex).

Record ConsoleDelta : Type := {
  cd_at_run_seq : Z;
  cd_ordinal : Z;
  cd_spend : ConsoleSpend;
  cd_change : ConsoleChange
}.

Record ConsoleStep : Type := { cst_model : ConsoleDagModel; cst_deltas : list ConsoleDelta }.

Definition no_spend : ConsoleSpend :=
  {| sp_calls := 0; sp_input_tokens := VNum (Num.of_Z 0); sp_output_tokens := VNum (Num.of_Z 0);
     sp_amount := VNull; sp_currency := VNull |}.

Definition emptyConsoleDag (runId : string) (version : string) : ConsoleDagModel :=
  {| md_run_id := runId; md_kind := production; md_at_run_seq := 0; md_started_at := None;
     md_vertices := []; md_scopes := []; md_replans := []; md_proposals := []; md_cancel_requests := [];
     md_counterfactuals := []; md_spend := no_spend; md_announced := []; md_console_projector_version := version |}.

(** ** Pure helpers *)
Definition vertexRole (role : value) : ConsoleRole :=
  match role with
  | VStr s => if s ==? "planner" then planner_role else if s ==? "tool" then tool_role
              else if s ==? "router" then router_role else if s ==? "confirmation-barrier" then confirmation_barrier_role else unknown_role
  | _ => unknown_role
  end.

Definition proposalOf (e : StoredEvent) : ConsoleProposal :=
  {| cp_proposed_seq := run_seq e; cp_outcome := outcome_open;
     cp_source := if Js.strict_eq (pfield e "source") (VStr "router") then by_router else by_planner;
     cp_terminal_seq := None; cp_stage := VNull; cp_violations := VArr [] |}.

Definition cancelRequestOf (e : StoredEvent) : ConsoleCancelRequest :=
  {| cq_at_run_seq := run_seq e;
     cq_failed_vertex_id := Js.nullish_or (pfield e "failed_vertex_id") (VStr "");
     cq_scope_ids := Js.nullish_or (pfield e "scope_ids") (VArr []);
     cq_level := Js.nullish_or (pfield e "level") (VStr "");
     cq_intended_boundary_vertex_id := or_null (pfield e "intended_boundary_vertex_id");
     cq_reason := Js.nullish_or (pfield e "reason") (VStr "") |}.

Definition counterfactualOf (e : StoredEvent) : ConsoleCounterfactual :=
  {| cf_child_run_id := Js.nullish_or (pfield e "child_run_id") (VStr "");
     cf_at_vertex_id := Js.nullish_or (pfield e "at_vertex_id") (VStr "");
     cf_eval_up_to_seq := Js.nullish_or (pfield e "eval_up_to_seq") (VNum (Num.of_Z 0));
     cf_at_run_seq := run_seq e |}.

(** [routerOutcome], called for a router that succeeded or failed. *)
Definition routerOutcome (failed : bool) (e : StoredEvent) : ConsoleRouterOutcome :=
  if failed then
    if Js.strict_eq (pfield e "outcome") (VStr "proposal_rejected")
    then proposal_rejected (Js.nullish_or (pfield e "violations") (VArr []))
    else evaluation_error (or_null (pfield e "reason"))
  else match pfield e "matched_condition" with
       | VStr c => matched_outcome c (or_null (pfield e "branch"))
       | _ => fell_through
       end.

Definition elapsed (startedAt : option string) (completedAt : string) : option number :=
  match truthy startedAt with
  | None => None
  | Some s => Some (Num.sub (date_parse completedAt) (date_parse s))
  end.

(** ** The working set of one fold step *)

Record FoldState : Type := {
  fs_model : ConsoleDagModel;
  fs_vertices : list (string * ConsoleVertex);
  fs_scopes : list (string * ConsoleScope);
  (** The replans the deltas pushed so far carry, as indices into the model's. *)
  fs_deltas : list nat;
  fs_appended : list (Z * list string);
  fs_patched : list string;
  fs_lastSeq : Z
}.

(** The fields of the state one operation replaces. *)
Definition set_model (s : FoldState) (m : ConsoleDagModel) : FoldState :=
  {| fs_model := m; fs_vertices := fs_vertices s; fs_scopes := fs_scopes s; fs_deltas := fs_deltas s;
     fs_appended := fs_appended s; fs_patched := fs_patched s; fs_lastSeq := fs_lastSeq s |}.
Definition set_vertex (s : FoldState) (id : string) (v : ConsoleVertex) : FoldState :=
  {| fs_model := fs_model s; fs_vertices := JMap.set (fs_vertices s) id v; fs_scopes := fs_scopes s; fs_deltas := fs_deltas s;
     fs_appended := fs_appended s; fs_patched := fs_patched s; fs_lastSeq := fs_lastSeq s |}.
Definition set_scope (s : FoldState) (id : string) (c : ConsoleScope) : FoldState :=
  {| fs_model := fs_model s; fs_vertices := fs_vertices s; fs_scopes := JMap.set (fs_scopes s) id c; fs_deltas := fs_deltas s;
     fs_appended := fs_appended s; fs_patched := fs_patched s; fs_lastSeq := fs_lastSeq s |}.
Definition push_delta (s : FoldState) (replan : nat) : FoldState :=
  {| fs_model := fs_model s; fs_vertices := fs_vertices s; fs_scopes := fs_scopes s; fs_deltas := fs_deltas s ++ [replan];
     fs_appended := fs_appended s; fs_patched := fs_patched s; fs_lastSeq := fs_lastSeq s |}.
Definition append_to (s : FoldState) (group : Z) (id : string) : FoldState :=
  {| fs_model := fs_model s; fs_vertices := fs_vertices s; fs_scopes := fs_scopes s; fs_deltas := fs_deltas s;
     fs_appended := JMap.set (fs_appended s) group (JMap.get_or [] (fs_appended s) group ++ [id]);
     fs_patched := fs_patched s; fs_lastSeq := fs_lastSeq s |}.

(** The fields of the model one event replaces. *)
Definition with_lists (m : ConsoleDagModel) (replans : list ConsoleReplan) (proposals : list ConsoleProposal)
    (requests : list ConsoleCancelRequest) (counterfactuals : list ConsoleCounterfactual) (announced : list (string * Announced)) : ConsoleDagModel :=
  {| md_run_id := md_run_id m; md_kind := md_kind m; md_at_run_seq := md_at_run_seq m; md_started_at := md_started_at m;
     md_vertices := md_vertices m; md_scopes := md_scopes m; md_replans := replans; md_proposals := proposals;
     md_cancel_requests := requests; md_counterfactuals := counterfactuals; md_spend := md_spend m;
     md_announced := announced; md_console_projector_version := md_console_projector_version m |}.
Definition with_replans (m : ConsoleDagModel) (rs : list ConsoleReplan) : ConsoleDagModel :=
  with_lists m rs (md_proposals m) (md_cancel_requests m) (md_counterfactuals m) (md_announced m).
Definition with_proposals (m : ConsoleDagModel) (ps : list ConsoleProposal) : ConsoleDagModel :=
  with_lists m (md_replans m) ps (md_cancel_requests m) (md_counterfactuals m) (md_announced m).
Definition with_requests (m : ConsoleDagModel) (qs : list ConsoleCancelRequest) : ConsoleDagModel :=
  with_lists m (md_replans m) (md_proposals m) qs (md_counterfactuals m) (md_announced m).
Definition with_counterfactuals (m : ConsoleDagModel) (cs : list ConsoleCounterfactual) : ConsoleDagModel :=
  with_lists m (md_replans m) (md_proposals m) (md_cancel_requests m) cs (md_announced m).
Definition with_announced (m : ConsoleDagModel) (a : list (string * Announced)) : ConsoleDagModel :=
  with_lists m (md_replans m) (md_proposals m) (md_cancel_requests m) (md_counterfactuals m) a.
Definition with_run (m : ConsoleDagModel) (runId : string) (kind : ConsoleKind) (startedAt : option string) (spend : ConsoleSpend) : ConsoleDagModel :=
  {| md_run_id := runId; md_kind := kind; md_at_run_seq := md_at_run_seq m; md_started_at := startedAt;
     md_vertices := md_vertices m; md_scopes := md_scopes m; md_replans := md_replans m; md_proposals := md_proposals m;
     md_cancel_requests := md_cancel_requests m; md_counterfactuals := md_counterfactuals m; md_spend := spend;
     md_announced := md_announced m; md_console_projector_version := md_console_projector_version m |}.
Definition with_graph (m : ConsoleDagModel) (atRunSeq : Z) (vs : list ConsoleVertex) (ss : list ConsoleScope) : ConsoleDagModel :=
  {| md_run_id := md_run_id m; md_kind := md_kind m; md_at_run_seq := atRunSeq; md_started_at := md_started_at m;
     md_vertices := vs; md_scopes := ss; md_replans := md_replans m; md_proposals := md_proposals m;
     md_cancel_requests := md_cancel_requests m; md_counterfactuals := md_counterfactuals m; md_spend := md_spend m;
     md_announced := md_announced m; md_console_projector_version := md_console_projector_version m |}.

(** The fields of a vertex the log may change after its creation. *)
Definition with_dynamic (v : ConsoleVertex) (status : ConsoleStatus) (shadow : bool * option Z) (log_fields : value) (txn : ConsoleTxn)
    (timing : ConsoleTiming) (bracket : option ConsoleBracket) (outcome : option ConsoleRouterOutcome)
    (cost : option ConsoleCallCost) (prompt : bool) (stall : option ConsoleStall) : ConsoleVertex :=
  {| cv_vertex_id := cv_vertex_id v; cv_parent_refs := cv_parent_refs v; cv_label := cv_label v; cv_role := cv_role v;
     cv_tool := cv_tool v; cv_tool_version := cv_tool_version v; cv_decided_by := cv_decided_by v; cv_pin_version := cv_pin_version v;
     cv_input := cv_input v; cv_created_seq := cv_created_seq v; cv_frozen_by_seq := cv_frozen_by_seq v; cv_depth := cv_depth v;
     cv_status := status; cv_is_shadowed := fst shadow; cv_shadowed_at_seq := snd shadow; cv_log_fields := log_fields;
     cv_txn := txn; cv_timing := timing; cv_bracket := bracket; cv_router_outcome := outcome; cv_cost := cost;
     cv_in_planner_prompt := prompt; cv_stall := stall |}.
Definition shadow_of (v : ConsoleVertex) : bool * option Z := (cv_is_shadowed v, cv_shadowed_at_seq v).
Definition with_shadow (v : ConsoleVertex) (sh : bool * option Z) : ConsoleVertex :=
  with_dynamic v (cv_status v) sh (cv_log_fields v) (cv_txn v) (cv_timing v) (cv_bracket v) (cv_router_outcome v) (cv_cost v) (cv_in_planner_prompt v) (cv_stall v).
Definition with_txn (v : ConsoleVertex) (t : ConsoleTxn) : ConsoleVertex :=
  with_dynamic v (cv_status v) (shadow_of v) (cv_log_fields v) t (cv_timing v) (cv_bracket v) (cv_router_outcome v) (cv_cost v) (cv_in_planner_prompt v) (cv_stall v).
Definition with_bracket (v : ConsoleVertex) (b : option ConsoleBracket) : ConsoleVertex :=
  with_dynamic v (cv_status v) (shadow_of v) (cv_log_fields v) (cv_txn v) (cv_timing v) b (cv_router_outcome v) (cv_cost v) (cv_in_planner_prompt v) (cv_stall v).
Definition with_cost (v : ConsoleVertex) (c : option ConsoleCallCost) : ConsoleVertex :=
  with_dynamic v (cv_status v) (shadow_of v) (cv_log_fields v) (cv_txn v) (cv_timing v) (cv_bracket v) (cv_router_outcome v) c (cv_in_planner_prompt v) (cv_stall v).
Definition with_stall (v : ConsoleVertex) (t : option ConsoleStall) : ConsoleVertex :=
  with_dynamic v (cv_status v) (shadow_of v) (cv_log_fields v) (cv_txn v) (cv_timing v) (cv_bracket v) (cv_router_outcome v) (cv_cost v) (cv_in_planner_prompt v) t.

(** [new FoldState(previous)] *)
Definition start (previous : ConsoleDagModel) : FoldState :=
  {| fs_model := with_graph previous (md_at_run_seq previous) [] [];
     fs_vertices := JMap.of_entries (map (fun v => (cv_vertex_id v, v)) (md_vertices previous));
     fs_scopes := JMap.of_entries (map (fun c => (cs_scope_id c, c)) (md_scopes previous));
     fs_deltas := []; fs_appended := []; fs_patched := []; fs_lastSeq := 0 |}.

(** [touch]: the vertex changed, unless this batch also created it. *)
Definition touch (s : FoldState) (id : string) : FoldState :=
  if existsb (fun ids => includes id ids) (JMap.values (fs_appended s)) then s
  else {| fs_model := fs_model s; fs_vertices := fs_vertices s; fs_scopes := fs_scopes s; fs_deltas := fs_deltas s;
          fs_appended := fs_appended s; fs_patched := JSet.add (fs_patched s) id; fs_lastSeq := fs_lastSeq s |}.

(** An in-place change of the vertex the event names, which is then touched. *)
Definition change_vertex (s : FoldState) (named : option string) (f : ConsoleVertex -> ConsoleVertex) : FoldState :=
  match named with
  | None => s
  | Some id => match JMap.get (fs_vertices s) id with
               | None => s
               | Some v => touch (set_vertex s id (f v)) (cv_vertex_id v)
               end
  end.

(** *** Proposals and freezes *)

(** The first proposal at the position the payload names, else the latest. *)
Definition proposal_at (ps : list ConsoleProposal) (seq : value) : option nat :=
  match list_find (fun p => Js.strict_eq (VNum (Num.of_Z (cp_proposed_seq p))) seq = true) ps with
  | Some (i, _) => Some i
  | None => match ps with [] => None | _ => Some (length ps - 1)%nat end
  end.

Definition closeProposal (s : FoldState) (e : StoredEvent) (outcome : ProposalOutcome) : FoldState :=
  let ps := md_proposals (fs_model s) in
  match proposal_at ps (pfield e "proposed_seq") with
  | None => s
  | Some i =>
      set_model s (with_proposals (fs_model s)
        (alter (fun p => {| cp_proposed_seq := cp_proposed_seq p; cp_outcome := outcome; cp_source := cp_source p;
                            cp_terminal_seq := Some (run_seq e); cp_stage := or_null (pfield e "stage");
                            cp_violations := Js.nullish_or (pfield e "violations") (VArr []) |}) i ps))
  end.

Definition new_scope (scopeId : string) (openedSeq : Z) : ConsoleScope :=
  {| cs_scope_id := scopeId; cs_state := VStr "open"; cs_member_vertex_ids := []; cs_pivot_vertex_id := None;
     cs_pivot_passed_seq := None; cs_pivot_declaration_mismatch := false; cs_opened_seq := openedSeq; cs_closed_seq := None |}.

(** [ensureScope]: the state, and the scope it now holds. *)
Definition ensureScope (s : FoldState) (scopeId : string) (openedSeq : Z) : FoldState * ConsoleScope :=
  match JMap.get (fs_scopes s) scopeId with
  | Some c => (s, c)
  | None => let c := new_scope scopeId openedSeq in (set_scope s scopeId c, c)
  end.

Definition announce (e : StoredEvent) (s : FoldState) (entry : value) : result FoldState :=
  id ← access entry "vertex_id";
  label ← access entry "author_id";
  Ok (set_model s (with_announced (fs_model s)
        (JMap.set (md_announced (fs_model s)) (Js.to_text id) {| an_label := label; an_frozen_by_seq := run_seq e |}))).

(** A scope id is a string by the schema of the frozen payload; it is read as its text. *)
Definition open_scope (e : StoredEvent) (s : FoldState) (entry : value) : result FoldState :=
  id ← access entry "scope_id"; Ok (fst (ensureScope s (Js.to_text id) (run_seq e))).

Definition freeze (s : FoldState) (e : StoredEvent) : result FoldState :=
  let s := closeProposal s e outcome_frozen in
  vertices ← each (pfield e "vertices");
  s ← foldM (announce e) s vertices;
  scopes ← each (pfield e "scopes");
  foldM (open_scope e) s scopes.

(** *** Vertices *)
Definition decidedBy (s : FoldState) : ConsoleSource :=
  match last (md_proposals (fs_model s)) with
  | Some p => if (cp_source p ==? by_router) && (cp_outcome p ==? outcome_frozen) then by_router else by_planner
  | None => by_planner
  end.

Definition depthOf (s : FoldState) (parents : list string) : Z :=
  fold_left (fun depth parent => match JMap.get (fs_vertices s) parent with Some k => Z.max depth (cv_depth k + 1) | None => depth end) parents 0.

Definition unstarted : ConsoleTiming :=
  {| tm_started_at := None; tm_last_attempt_started_at := None; tm_completed_at := None; tm_duration_ms := None; tm_attempts := Num.of_Z 0 |}.

Definition new_vertex (s : FoldState) (e : StoredEvent) (id : string) : ConsoleVertex :=
  let announced := JMap.get (md_announced (fs_model s)) id in
  let role := vertexRole (pfield e "role") in
  let effectClass := or_null (chain (pfield e "txn") "effect_class") in
  {| cv_vertex_id := id; cv_parent_refs := parent_refs e;
     cv_label := Js.nullish_or (from_option an_label VUndef announced) (VStr (take_str 8 id));
     cv_role := role; cv_tool := pstr e "tool"; cv_tool_version := pstr e "tool_version"; cv_decided_by := decidedBy s;
     cv_pin_version := pin_version e; cv_input := or_null (pfield e "input"); cv_created_seq := run_seq e;
     cv_frozen_by_seq := an_frozen_by_seq <$> announced; cv_depth := depthOf s (parent_refs e);
     cv_status := created_status; cv_is_shadowed := false; cv_shadowed_at_seq := None; cv_log_fields := VNull;
     cv_txn := {| tx_scope_id := scope_id e; tx_is_pivot := Js.strict_eq effectClass (VStr "irreversible");
                  tx_effect_class := effectClass; tx_pivot_passed := false |};
     cv_timing := unstarted; cv_bracket := None;
     cv_router_outcome := if role ==? router_role then Some pending_outcome else None;
     cv_cost := None; cv_in_planner_prompt := rendersInPlannerPrompt (Some (role_name role)) None; cv_stall := None |}.

Definition with_member (c : ConsoleScope) (id : string) (pivot : bool) : ConsoleScope :=
  {| cs_scope_id := cs_scope_id c; cs_state := cs_state c;
     cs_member_vertex_ids := if includes id (cs_member_vertex_ids c) then cs_member_vertex_ids c else cs_member_vertex_ids c ++ [id];
     cs_pivot_vertex_id := if pivot then Some id else cs_pivot_vertex_id c; cs_pivot_passed_seq := cs_pivot_passed_seq c;
     cs_pivot_declaration_mismatch := cs_pivot_declaration_mismatch c; cs_opened_seq := cs_opened_seq c; cs_closed_seq := cs_closed_seq c |}.

Definition create (s : FoldState) (e : StoredEvent) : FoldState :=
  match vid e with
  | None => s
  | Some id =>
      let v := new_vertex s e id in
      let s := set_vertex s id v in
      let s := match sid e with
               | None => s
               | Some scope => let (s, c) := ensureScope s scope (run_seq e) in set_scope s scope (with_member c id (tx_is_pivot (cv_txn v)))
               end in
      let s := set_model s (with_announced (fs_model s) (JMap.delete (md_announced (fs_model s)) id)) in
      append_to s (default (cv_created_seq v) (cv_frozen_by_seq v)) id
  end.

(** The status an event's name spells after [vertex/]. *)
Definition status_after (t : EventType) : ConsoleStatus :=
  match t with
  | vertex_started => started_status
  | vertex_succeeded => succeeded_status
  | vertex_failed => failed_status
  | vertex_retried => retried_status
  | _ => created_status
  end.

Definition next_timing (t : ConsoleTiming) (status : ConsoleStatus) (e : StoredEvent) : ConsoleTiming :=
  match status with
  | started_status =>
      {| tm_started_at := Some (default (created_at e) (tm_started_at t)); tm_last_attempt_started_at := Some (created_at e);
         tm_completed_at := None; tm_duration_ms := None; tm_attempts := at_least_one (tm_attempts t) |}
  | retried_status =>
      {| tm_started_at := tm_started_at t; tm_last_attempt_started_at := tm_last_attempt_started_at t;
         tm_completed_at := None; tm_duration_ms := None; tm_attempts := Num.add (tm_attempts t) (Num.of_Z 1) |}
  | _ =>
      {| tm_started_at := tm_started_at t; tm_last_attempt_started_at := tm_last_attempt_started_at t;
         tm_completed_at := Some (created_at e); tm_duration_ms := elapsed (tm_started_at t) (created_at e);
         tm_attempts := default (tm_attempts t) (Js.as_number (pfield e "attempts")) |}
  end.

Definition lifecycle_vertex (e : StoredEvent) (v : ConsoleVertex) : ConsoleVertex :=
  let status := status_after (event_type e) in
  let succeeded := status ==? succeeded_status in
  let failed := status ==? failed_status in
  let log_fields := if succeeded && Js.truthy_value (pfield e "log_fields") then pfield e "log_fields" else cv_log_fields v in
  let routed := (cv_role v ==? router_role) && (succeeded || failed) in
  let outcome := routerOutcome failed e in
  with_dynamic v status (shadow_of v) log_fields (cv_txn v) (next_timing (cv_timing v) status e) (cv_bracket v)
    (if routed then Some outcome else cv_router_outcome v) (cv_cost v)
    (if routed then rendersInPlannerPrompt (Some "router") (Some (match outcome with matched_outcome c _ => Some c | _ => None end))
     else cv_in_planner_prompt v)
    (cv_stall v).

Definition lifecycle (s : FoldState) (e : StoredEvent) : FoldState := change_vertex s (vid e) (lifecycle_vertex e).

(** *** Shadowing and replans *)

(** A planner answered, and the engine could not read the answer as a proposal. *)
Definition unreadable (s : FoldState) (e : StoredEvent) : FoldState :=
  change_vertex s (truthy (pstr e "planner_vertex_id"))
    (fun v => with_stall v (Some {| st_reason := Js.nullish_or (pfield e "reason") (VStr "the answer was not a proposal");
                                    st_answer_digest := Js.nullish_or (pfield e "answer_digest") (VStr ""); st_at_run_seq := run_seq e |})).

(** [replanFor]: the state, and the index of the replan the event belongs to. *)
Definition replanFor (s : FoldState) (e : StoredEvent) (boundarySeq boundaryVertexId : value) : FoldState * nat :=
  let rs := md_replans (fs_model s) in
  let existing := match boundarySeq with
                  | VUndef => None
                  | _ => list_find (fun r => Js.strict_eq (cr_boundary_seq r) boundarySeq = true) rs
                  end in
  match existing with
  | Some (i, _) => (s, i)
  | None =>
      (set_model s (with_replans (fs_model s) (rs ++ [{| cr_at_run_seq := run_seq e; cr_vertex_ids := []; cr_boundary_seq := or_null boundarySeq;
                                                        cr_boundary_vertex_id := or_null boundaryVertexId; cr_reason := VNull |}])), length rs)
  end.

(** The changes both events make to their replan. *)
Definition amend_replan (s : FoldState) (i : nat) (hidden : list string) (reason : value) : FoldState :=
  set_model s (with_replans (fs_model s)
    (alter (fun r => {| cr_at_run_seq := cr_at_run_seq r; cr_vertex_ids := JSet.of_list (cr_vertex_ids r ++ hidden);
                        cr_boundary_seq := cr_boundary_seq r; cr_boundary_vertex_id := cr_boundary_vertex_id r;
                        cr_reason := Js.nullish_or reason (cr_reason r) |}) i (md_replans (fs_model s)))).

(** The ids a discard names, by id or by the position that created them. *)
Definition hidden_by (s : FoldState) (e : StoredEvent) : list string :=
  let bySeq := match pfield e "vertex_seqs" with VArr l => omap Js.as_number l | _ => [] end in
  JSet.addAll (JSet.of_list (pstrings e "vertex_ids"))
    (map cv_vertex_id (filter_by (fun v => existsb (Num.eq (Num.of_Z (cv_created_seq v))) bySeq) (JMap.values (fs_vertices s)))).

(** Flagged, never deleted. *)
Definition flag (seq : Z) (s : FoldState) (id : string) : FoldState :=
  match JMap.get (fs_vertices s) id with
  | Some v => if cv_is_shadowed v then s else set_vertex s id (with_shadow v (true, Some seq))
  | None => s
  end.

Definition shadow (s : FoldState) (e : StoredEvent) : FoldState :=
  let hidden := hidden_by s e in
  let s := fold_left (flag (run_seq e)) hidden s in
  let (s, i) := replanFor s e (pfield e "boundary_seq") (pfield e "boundary_vertex_id") in
  push_delta (amend_replan s i hidden (pfield e "reason")) i.

Definition nullable_value (o : option string) : value := match o with Some s => VStr s | None => VNull end.

(** The reason is replaced; the ids stay as they are. *)
Definition boundary (s : FoldState) (e : StoredEvent) : FoldState :=
  let (s, i) := replanFor s e (pfield e "boundary_seq") (Js.nullish_or (pfield e "boundary_vertex_id") (nullable_value (vertex_id e))) in
  let s := set_model s (with_replans (fs_model s)
    (alter (fun r => {| cr_at_run_seq := cr_at_run_seq r; cr_vertex_ids := cr_vertex_ids r; cr_boundary_seq := cr_boundary_seq r;
                        cr_boundary_vertex_id := cr_boundary_vertex_id r; cr_reason := Js.nullish_or (pfield e "reason") (cr_reason r) |})
           i (md_replans (fs_model s)))) in
  push_delta s i.

(** *** Transactions *)
Definition with_state (c : ConsoleScope) (state : value) (closed : option Z) (mismatch : bool) : ConsoleScope :=
  {| cs_scope_id := cs_scope_id c; cs_state := state; cs_member_vertex_ids := cs_member_vertex_ids c;
     cs_pivot_vertex_id := cs_pivot_vertex_id c; cs_pivot_passed_seq := cs_pivot_passed_seq c;
     cs_pivot_declaration_mismatch := mismatch; cs_opened_seq := cs_opened_seq c; cs_closed_seq := closed |}.

(** A declared pivot that disagrees with the derived one. *)
Definition mismatched (declared : value) (c : ConsoleScope) : bool :=
  match truthy (cs_pivot_vertex_id c) with
  | Some p => Js.truthy_value declared && negb (Js.strict_eq declared (VStr p))
  | None => false
  end.

Definition scopeState (s : FoldState) (e : StoredEvent) : FoldState :=
  match sid e with
  | None => s
  | Some scope =>
      let (s, c) := ensureScope s scope (run_seq e) in
      let state := pfield e "state" in
      let closes := Js.strict_eq state (VStr "committed") || Js.strict_eq state (VStr "cancelled") in
      let c := with_state c (if Js.truthy_value state then state else cs_state c) (if closes then Some (run_seq e) else cs_closed_seq c)
                 (cs_pivot_declaration_mismatch c || mismatched (pfield e "pivot_vertex") c) in
      fold_left touch (cs_member_vertex_ids c) (set_scope s scope c)
  end.

Definition cancel_member (completed : bool) (s : FoldState) (id : string) : FoldState :=
  let s := match JMap.get (fs_vertices s) id with
           | Some v => match cv_bracket v with
                       | Some b => if completed && (br_state b ==? sealed)
                                   then set_vertex s id (with_bracket v (Some {| br_state := cancelled_bracket; br_idempotency_key := br_idempotency_key b; br_deadline_at := br_deadline_at b |}))
                                   else s
                       | None => s
                       end
           | None => s
           end in
  touch s id.

Definition bracket (s : FoldState) (e : StoredEvent) : FoldState :=
  if is_type txn_try e then
    change_vertex s (vid e) (fun v => with_bracket v
      (Some {| br_state := sealed; br_idempotency_key := or_null (pfield e "idempotency_key"); br_deadline_at := or_null (pfield e "deadline_at") |}))
  else if is_type txn_confirm e then
    match vid e with
    | None => s
    | Some id =>
        match JMap.get (fs_vertices s) id with
        | Some v =>
            match cv_bracket v with
            | Some b => touch (set_vertex s id (with_bracket v
                          (Some {| br_state := confirmed; br_idempotency_key := br_idempotency_key b; br_deadline_at := br_deadline_at b |}))) (cv_vertex_id v)
            | None => s
            end
        | None => s
        end
    end
  else
    match sid e with
    | None => s
    | Some scope =>
        let (s, c) := ensureScope s scope (run_seq e) in
        let completed := Js.strict_eq (pfield e "phase") (VStr "completed") in
        let c := with_state c (VStr (if completed then "cancelled" else "cancelling"))
                   (if completed then Some (run_seq e) else cs_closed_seq c) (cs_pivot_declaration_mismatch c) in
        fold_left (cancel_member completed) (cs_member_vertex_ids c) (set_scope s scope c)
    end.

Definition pivotPassed (s : FoldState) (e : StoredEvent) : FoldState :=
  let s := match sid e with
           | None => s
           | Some scope =>
               let (s, c) := ensureScope s scope (run_seq e) in
               set_scope s scope {| cs_scope_id := cs_scope_id c; cs_state := cs_state c; cs_member_vertex_ids := cs_member_vertex_ids c;
                 cs_pivot_vertex_id := cs_pivot_vertex_id c; cs_pivot_passed_seq := Some (run_seq e);
                 cs_pivot_declaration_mismatch := cs_pivot_declaration_mismatch c; cs_opened_seq := cs_opened_seq c; cs_closed_seq := cs_closed_seq c |}
           end in
  change_vertex s (vid e) (fun v => with_txn v
    {| tx_scope_id := tx_scope_id (cv_txn v); tx_is_pivot := tx_is_pivot (cv_txn v); tx_effect_class := tx_effect_class (cv_txn v); tx_pivot_passed := true |}).

(** *** Spend *)
Definition zero : value := VNum (Num.of_Z 0).

Definition cost_of (e : StoredEvent) : ConsoleCallCost :=
  {| cc_model := Js.nullish_or (Js.nullish_or (pfield e "response_model") (pfield e "requested_model")) (VStr "unknown");
     cc_duration_ms := Js.nullish_or (pfield e "duration_ms") zero;
     cc_input_tokens := Js.nullish_or (chain (pfield e "usage") "input_tokens") zero;
     cc_output_tokens := Js.nullish_or (chain (pfield e "usage") "output_tokens") zero;
     cc_amount := or_null (chain (pfield e "estimated_cost") "amount");
     cc_currency := or_null (chain (pfield e "estimated_cost") "currency") |}.

Definition is_null (v : value) : bool := match v with VNull => true | _ => false end.

Definition spend_after (spend : ConsoleSpend) (cost : ConsoleCallCost) : ConsoleSpend :=
  {| sp_calls := sp_calls spend + 1;
     sp_input_tokens := plus (sp_input_tokens spend) (cc_input_tokens cost);
     sp_output_tokens := plus (sp_output_tokens spend) (cc_output_tokens cost);
     sp_amount := if is_null (cc_amount cost) || (negb (is_null (sp_currency spend)) && negb (Js.strict_eq (sp_currency spend) (cc_currency cost)))
                  then VNull else plus (Js.nullish_or (sp_amount spend) zero) (cc_amount cost);
     sp_currency := Js.nullish_or (cc_currency cost) (sp_currency spend) |}.

Definition charge (s : FoldState) (e : StoredEvent) : FoldState :=
  let cost := cost_of e in
  let m := fs_model s in
  let s := set_model s (with_run m (md_run_id m) (md_kind m) (md_started_at m) (spend_after (md_spend m) cost)) in
  change_vertex s (vid e) (fun v => with_cost v (Some cost)).

(** *** One event *)

(** The position and run id every readable event leaves. *)
Definition arrive (s : FoldState) (e : StoredEvent) : FoldState :=
  let m := fs_model s in
  {| fs_model := with_run m (if md_run_id m ==? "" then run_id e else md_run_id m) (md_kind m) (md_started_at m) (md_spend m);
     fs_vertices := fs_vertices s; fs_scopes := fs_scopes s; fs_deltas := fs_deltas s;
     fs_appended := fs_appended s; fs_patched := fs_patched s; fs_lastSeq := Z.max (fs_lastSeq s) (run_seq e) |}.

(** The switch over the vocabulary. *)
Definition dispatch (s : FoldState) (e : StoredEvent) : result FoldState :=
  let m := fs_model s in
  match event_type e with
  | run_start => Ok (set_model s (with_run m (md_run_id m) (md_kind m) (Some (created_at e)) (md_spend m)))
  | run_end_seed => Ok (set_model s (with_run m (md_run_id m) counterfactual (md_started_at m) (md_spend m)))
  | fork_created => Ok (set_model s (with_counterfactuals m (md_counterfactuals m ++ [counterfactualOf e])))
  | subgraph_proposed => Ok (set_model s (with_proposals m (md_proposals m ++ [proposalOf e])))
  | subgraph_rejected => Ok (closeProposal s e outcome_rejected)
  | subgraph_frozen => freeze s e
  | vertex_created => Ok (create s e)
  | vertex_started | vertex_succeeded | vertex_failed | vertex_retried => Ok (lifecycle s e)
  | subgraph_shadowed => Ok (shadow s e)
  | replan_boundary => Ok (boundary s e)
  | replan_cancel_requested => Ok (set_model s (with_requests m (md_cancel_requests m ++ [cancelRequestOf e])))
  | subgraph_unreadable => Ok (unreadable s e)
  | txn_scope => Ok (scopeState s e)
  | txn_try | txn_confirm | txn_cancel => Ok (bracket s e)
  | txn_pivot_passed => Ok (pivotPassed s e)
  | budget_charged => Ok (charge s e)
  | rule_template_published | run_end | unknown_event _ => Ok s
  end.

Definition apply (s : FoldState) (e : StoredEvent) : result FoldState :=
  if negb (known (event_type e)) && negb (ignorable e)
  then Throw ("unknown non-ignorable event in stream: " +:+ event_name (event_type e))
  else if ignorable e && negb (known (event_type e)) then Ok s
  else dispatch (arrive s e) e.

(** ** A fold that throws

    The working set of a fold starts from the objects of the previous model: its vertices, scopes, replans
    and proposals are changed in place, its lists and its rollup are copies. A fold that throws is dropped
    with its copies; what it had changed by then stays changed in the previous model. *)

(** The event that throws: a freeze has closed its proposal before it reads the entries. *)
Definition halted (s : FoldState) (e : StoredEvent) : FoldState :=
  if is_type subgraph_frozen e then closeProposal (arrive s e) e outcome_frozen else s.

(** The working set when the fold stops: at the end, at an event that throws, or before [stop]. *)
Fixpoint rewrites (stop : StoredEvent -> bool) (s : FoldState) (events : list StoredEvent) : FoldState :=
  match events with
  | [] => s
  | e :: events => if stop e then s else match apply s e with Ok s' => rewrites stop s' events | Throw _ => halted s e end
  end.

(** An event that puts another object under a vertex's id. *)
Definition replaces (v : ConsoleVertex) (e : StoredEvent) : bool := is_type vertex_created e && (vid e ==? Some (cv_vertex_id v)).

(** The previous model after a fold of [events] from it that threw. *)
Definition spoiled (previous : ConsoleDagModel) (events : list StoredEvent) : ConsoleDagModel :=
  let s := rewrites (fun _ => false) (start previous) events in
  let vertex v := default v (JMap.get (fs_vertices (rewrites (replaces v) (start previous) events)) (cv_vertex_id v)) in
  let scope c := default c (JMap.get (fs_scopes s) (cs_scope_id c)) in
  with_replans (with_proposals (with_graph previous (md_at_run_seq previous) (map vertex (md_vertices previous)) (map scope (md_scopes previous)))
                  (take (length (md_proposals previous)) (md_proposals (fs_model s))))
    (take (length (md_replans previous)) (md_replans (fs_model s))).

(** ** Finishing a step *)
Section Finish.
Context `{Collation}.

Definition by_creation (a b : ConsoleVertex) : Z := zor (cv_created_seq a - cv_created_seq b) (localeCompare (cv_vertex_id a) (cv_vertex_id b)).
Definition by_created_seq (a b : ConsoleVertex) : Z := cv_created_seq a - cv_created_seq b.
Definition by_opened (a b : ConsoleScope) : Z := cs_opened_seq a - cs_opened_seq b.
Definition by_group (a b : Z * list string) : Z := fst a - fst b.

Definition appended_change (s : FoldState) (ids : list string) : ConsoleChange :=
  let vertices := js_sort by_created_seq (omap (JMap.get (fs_vertices s)) ids) in
  let scopeIds := JSet.of_list (omap (fun v => truthy (tx_scope_id (cv_txn v))) vertices) in
  subgraph_appended vertices (omap (JMap.get (fs_scopes s)) scopeIds).

(** The changes in send order: replans as they came, then branches by freeze, then patches. *)
Definition changes (s : FoldState) : list ConsoleChange :=
  omap (fun i => subgraph_hidden <$> md_replans (fs_model s) !! i) (fs_deltas s) ++
  map (fun g => appended_change s (snd g)) (js_sort by_group (fs_appended s)) ++
  omap (fun id => vertex_patched <$> JMap.get (fs_vertices s) id) (fs_patched s).

Definition watermark (s : FoldState) : Z := Z.max (md_at_run_seq (fs_model s)) (fs_lastSeq s).

Definition finish (s : FoldState) : ConsoleStep :=
  {| cst_model := with_graph (fs_model s) (watermark s) (js_sort by_creation (JMap.values (fs_vertices s))) (js_sort by_opened (JMap.values (fs_scopes s)));
     cst_deltas := map (fun p => {| cd_at_run_seq := watermark s; cd_ordinal := Z.of_nat (fst p);
                                    cd_spend := md_spend (fs_model s); cd_change := snd p |}) (entries (changes s)) |}.

Definition advanceConsoleDag (model : ConsoleDagModel) (batch : list StoredEvent) : result ConsoleStep :=
  s ← foldM apply (start model) batch; Ok (finish s).

Definition consoleDag (events : list StoredEvent) (atRunSeq : number) (version : string) : result ConsoleDagModel :=
  let included := filter_by (fun e => Num.le (Num.of_Z (run_seq e)) atRunSeq) events in
  let runId := match included with e :: _ => run_id e | [] => "" end in
  step ← advanceConsoleDag (emptyConsoleDag runId version) included; Ok (cst_model step).

(** [consoleDag(events)] with its defaults. *)
Definition consoleDag_now (events : list StoredEvent) : result ConsoleDagModel :=
  consoleDag events (Num.of_Z MAX_SAFE_INTEGER) CONSOLE_PROJECTOR_VERSION.

(** ** The oracle over both projections (projection/oracles.ts) *)

Definition outcome_kind (o : option ConsoleRouterOutcome) : string :=
  match o with
  | None => "undefined"
  | Some pending_outcome => "pending"
  | Some (matched_outcome _ _) => "matched"
  | Some fell_through => "fell_through"
  | Some (evaluation_error _) => "evaluation_error"
  | Some (proposal_rejected _) => "proposal_rejected"
  end.

Definition consoleRouterVisibility (events : list StoredEvent) (routerVertexId plannerVertexId : string) : result OracleResult :=
  let name := "O4.console_router_visibility" in
  model ← consoleDag_now events;
  match find (fun v => cv_vertex_id v ==? routerVertexId) (md_vertices model) with
  | None => Ok (fail name "the console projection does not carry the router at all")
  | Some router =>
      if outcome_kind (cv_router_outcome router) !=? "fell_through"
      then Ok (fail name ("router outcome is " +:+ outcome_kind (cv_router_outcome router) +:+ ", not a fall-through"))
      else if cv_is_shadowed router then Ok (fail name "the router is on the canvas but greyed out as discarded") else
      view ← surface events;
      relevant ← slice view plannerVertexId;
      match find (fun i => ci_vertex_id i ==? routerVertexId) (linearize relevant) with
      | Some item => Ok (fail name ("the fall-through router reached the planner's prompt as " +:+ Stringify.compact_text (item_value item)))
      | None =>
          if cv_in_planner_prompt router then Ok (fail name "the console says this router renders into a prompt, and it does not")
          else Ok (pass name)
      end
  end.
End Finish.

(** ** The inspector's bodies (projection/detail.ts) *)

Record PayloadDetail : Type := {
  dt_vertex_id : string;
  dt_role : string;
  dt_status : string;
  dt_input : value;
  dt_result : value;
  dt_failure : value;
  dt_log_fields : value;
  dt_attempts : value;
  dt_blob_refs : list string
}.

Definition is_terminal_of (vertexId : string) (e : StoredEvent) : bool :=
  names_vertex vertexId e && (is_type vertex_succeeded e || is_type vertex_failed e).

Definition payloadDetail (events : list StoredEvent) (vertexId : string) : option PayloadDetail :=
  created ← find (fun e => is_type vertex_created e && names_vertex vertexId e) events;
  let terminal := find (is_terminal_of vertexId) (rev events) in
  let outcome := fun k => Js.field (from_option payload [] terminal) k in
  let failed := from_option (is_type vertex_failed) false terminal in
  Some {| dt_vertex_id := vertexId; dt_role := default "unknown" (pstr created "role");
          dt_status := from_option (fun e => drop_str 7 (event_name (event_type e))) "pending" terminal;
          dt_input := or_null (Js.nullish_or (pfield created "input") (pfield created "goal"));
          dt_result := if failed then VNull else or_null (outcome "result");
          dt_failure := if failed then or_null (Js.nullish_or (outcome "failure") (outcome "error")) else VNull;
          dt_log_fields := or_null (outcome "log_fields"); dt_attempts := Js.nullish_or (outcome "attempts") zero; dt_blob_refs := [] |}.

Inductive RetentionKind : Type := retain_prompt | retain_logs.

Record RetentionUnavailable : Type := {
  ru_error : string;
  ru_reason : string;
  ru_input_digest : value;
  ru_output_digest : value;
  ru_prerequisite : string
}.

Definition retentionUnavailable (events : list StoredEvent) (vertexId : string) (kind : RetentionKind) : RetentionUnavailable :=
  let first := fun t => find (fun e => is_type t e && names_vertex vertexId e) events in
  {| ru_error := "retention_unavailable";
     ru_reason := match kind with
                  | retain_prompt => "raw model input and output are not retained; the log records their digests only"
                  | retain_logs => "tool execution output is not collected anywhere; the log records the returned result, which /payload serves"
                  end;
     ru_input_digest := or_null (from_option (fun e => pfield e "input_digest") VUndef (first vertex_started));
     ru_output_digest := or_null (chain (from_option (fun e => pfield e "result") VUndef (first vertex_succeeded)) "output_digest");
     ru_prerequisite := "no artifact write path exists: the engine has no blob client and nothing persists prompts or execution output" |}.
