(* ===== verification/ConsoleFacts.v ===== *)
(** * A fold that does not depend on where it is cut

    What every operation of the console's fold leaves alone ([steady]), that the fold reads only the
    part of its state a model keeps ([alike]), and the two together: folding a log in batches, each
    from the model the previous one produced, gives the model one fold of the whole log gives. *)

From S2P Require Import Prelude Collections Number Json Events Projection Console.

(** ** What a fold step keeps *)

(** Identity, position and discard flag of every vertex, in order. *)
Definition vertex_line (p : string * ConsoleVertex) : string * (string * Z * bool) :=
  (fst p, (cv_vertex_id (snd p), cv_created_seq (snd p), cv_is_shadowed (snd p))).
Definition outline (s : FoldState) : list (string * (string * Z * bool)) := map vertex_line (fs_vertices s).

(** The same without the flag. *)
Definition place_line (p : string * ConsoleVertex) : string * (string * Z) := (fst p, (cv_vertex_id (snd p), cv_created_seq (snd p))).

Definition scope_line (p : string * ConsoleScope) : string * (string * Z) := (fst p, (cs_scope_id (snd p), cs_opened_seq (snd p))).
Definition scope_outline (s : FoldState) : list (string * (string * Z)) := map scope_line (fs_scopes s).

(** The scopes an event at [seq] may add: new ones, opened there. *)
Definition scopes_grow (seq : Z) (s s' : FoldState) : Prop :=
  exists new, scope_outline s' = scope_outline s ++ map (fun id => (id, (id, seq))) new /\
              NoDup new /\ forall id, id ∈ new -> id ∉ JMap.keys (fs_scopes s).

(** [line] of every vertex, the scopes up to those opened at [seq], and the fences are kept. *)
Record keeps {B} (line : string * ConsoleVertex -> B) (seq : Z) (s s' : FoldState) : Prop := {
  sd_outline : map line (fs_vertices s') = map line (fs_vertices s);
  sd_scopes : scopes_grow seq s s';
  sd_at : md_at_run_seq (fs_model s') = md_at_run_seq (fs_model s);
  sd_graph : md_vertices (fs_model s') = md_vertices (fs_model s) /\ md_scopes (fs_model s') = md_scopes (fs_model s);
  sd_last : fs_lastSeq s' = fs_lastSeq s
}.
Abbreviation steady := (keeps vertex_line).

Lemma scopes_grow_same seq s s' : scope_outline s' = scope_outline s -> scopes_grow seq s s'.
Proof. exists []. rewrite app_nil_r. split; [done|]. split; [constructor|]. intros id Hid. by apply elem_of_nil in Hid. Qed.

Lemma scope_keys s : JMap.keys (fs_scopes s) = map fst (scope_outline s).
Proof. unfold JMap.keys, scope_outline. rewrite map_map. done. Qed.

Lemma vertex_keys s : JMap.keys (fs_vertices s) = map fst (outline s).
Proof. unfold JMap.keys, outline. rewrite map_map. done. Qed.

#[export] Instance keeps_refl {B} (line : string * ConsoleVertex -> B) seq : Reflexive (keeps line seq).
Proof. intros s. split; try done. by apply scopes_grow_same. Qed.

#[export] Instance keeps_trans {B} (line : string * ConsoleVertex -> B) seq : Transitive (keeps line seq).
Proof.
  intros s1 s2 s3 [O1 (n1 & E1 & D1 & F1) A1 [G1 G1'] L1] [O2 (n2 & E2 & D2 & F2) A2 [G2 G2'] L2].
  split; try congruence; [|split; congruence].
  exists (n1 ++ n2). rewrite E2, E1, map_app, <- app_assoc. split; [done|].
  assert (forall id, id ∈ n2 -> (id ∉ n1) /\ (id ∉ JMap.keys (fs_scopes s1))) as Hsep.
  { intros id Hid. apply F2 in Hid. rewrite scope_keys, E1, map_app, elem_of_app, map_map in Hid.
    rewrite scope_keys. cbn in Hid. rewrite map_id in Hid. split; intros Hin; apply Hid; [by right|by left]. }
  split.
  - apply NoDup_app. split_and!; [done| |done]. intros id H1 [H2 _]%Hsep. done.
  - intros id [Hid|Hid]%elem_of_app; [by apply F1|apply (proj2 (Hsep _ Hid))].
Qed.

(** A loop of steady steps is steady. *)
Lemma steady_fold {A B} (line : string * ConsoleVertex -> B) seq (f : FoldState -> A -> FoldState) xs s :
  (forall s x, keeps line seq s (f s x)) -> keeps line seq s (fold_left f xs s).
Proof. intros Hf. revert s; induction xs as [|x xs IH]; intros s; cbn; [done|]. etransitivity; [apply Hf|apply IH]. Qed.

Lemma steady_foldM {A B} (line : string * ConsoleVertex -> B) seq (f : FoldState -> A -> result FoldState) xs s s' :
  (forall s x s', f s x = Ok s' -> keeps line seq s s') -> foldM f s xs = Ok s' -> keeps line seq s s'.
Proof.
  intros Hf. revert s; induction xs as [|x xs IH]; cbn; intros s H; [by apply Ok_inj in H as <-|].
  inv_bind. etransitivity; [by eapply Hf|by apply IH].
Qed.

(** Replacing the value of a key by one with the same line keeps every line. *)
Lemma map_set_line {V B} (line : string * V -> B) (m : list (string * V)) k v v' :
  JMap.get m k = Some v -> line (k, v') = line (k, v) -> map line (JMap.set m k v') = map line m.
Proof.
  intros Hg Hl. induction m as [|[k0 v0] m IH]; [done|]. rewrite get_cons in Hg. cbn [JMap.set].
  destruct (k0 ==? k) eqn:E; cbn [map].
  - apply eqb_true_1 in E as ->. injection Hg as ->. by rewrite Hl.
  - by rewrite IH.
Qed.

Lemma steady_set_vertex {B} (line : string * ConsoleVertex -> B) seq s id v v' :
  JMap.get (fs_vertices s) id = Some v -> line (id, v') = line (id, v) -> keeps line seq s (set_vertex s id v').
Proof. intros Hg Hl. split; try done; [|by apply scopes_grow_same]. by eapply map_set_line. Qed.

(** Lines that do not read the brackets, the costs, the stalls and the passed pivots. *)
Class Blind {B} (line : string * ConsoleVertex -> B) : Prop := {
  blind_stall k v x : line (k, with_stall v x) = line (k, v);
  blind_txn k v x : line (k, with_txn v x) = line (k, v);
  blind_bracket k v x : line (k, with_bracket v x) = line (k, v);
  blind_cost k v x : line (k, with_cost v x) = line (k, v)
}.

#[export] Instance vertex_line_blind : Blind vertex_line.
Proof. by split. Qed.

Section Blind.
Context {B : Type} {line : string * ConsoleVertex -> B} `{!Blind line}.

Lemma steady_set_scope seq s id c c' :
  JMap.get (fs_scopes s) id = Some c -> scope_line (id, c') = scope_line (id, c) -> keeps line seq s (set_scope s id c').
Proof. intros Hg Hl. split; try done. apply scopes_grow_same. by eapply map_set_line. Qed.

Lemma steady_set_model seq s m :
  md_at_run_seq m = md_at_run_seq (fs_model s) -> md_vertices m = md_vertices (fs_model s) -> md_scopes m = md_scopes (fs_model s) ->
  keeps line seq s (set_model s m).
Proof. intros. split; try done. by apply scopes_grow_same. Qed.

Lemma steady_touch seq s id : keeps line seq s (touch s id).
Proof. unfold touch. destruct (existsb _ _); [done|]. split; try done. by apply scopes_grow_same. Qed.

Lemma steady_push_delta seq s i : keeps line seq s (push_delta s i).
Proof. split; try done. by apply scopes_grow_same. Qed.

Lemma steady_append_to seq s g id : keeps line seq s (append_to s g id).
Proof. split; try done. by apply scopes_grow_same. Qed.

Lemma steady_change_vertex seq s named f :
  (forall id v, line (id, f v) = line (id, v)) -> keeps line seq s (change_vertex s named f).
Proof.
  intros Hf. unfold change_vertex. destruct named as [id|]; [|done]. destruct (JMap.get _ id) as [v|] eqn:Eg; [|done].
  etransitivity; [eapply steady_set_vertex; [done|apply Hf]|apply steady_touch].
Qed.

Lemma ensureScope_get s id seq : JMap.get (fs_scopes (fst (ensureScope s id seq))) id = Some (snd (ensureScope s id seq)).
Proof. unfold ensureScope. destruct (JMap.get (fs_scopes s) id) as [c|] eqn:Eg; cbn; [done|apply get_set_eq]. Qed.

Lemma steady_ensureScope s id seq : keeps line seq s (fst (ensureScope s id seq)).
Proof.
  unfold ensureScope. destruct (JMap.get (fs_scopes s) id) as [c|] eqn:Eg; cbn; [done|].
  apply get_None in Eg. split; try done. exists [id]. unfold scope_outline. cbn. rewrite set_fresh, map_app by done.
  split; [done|]. split; [apply NoDup_singleton|]. intros i ->%list_elem_of_singleton. done.
Qed.

(** The scope an event ensures may then be given a new state. *)
Lemma steady_ensured s id seq (f : ConsoleScope -> ConsoleScope) :
  (forall c, scope_line (id, f c) = scope_line (id, c)) ->
  keeps line seq s (let (s', c) := ensureScope s id seq in set_scope s' id (f c)).
Proof.
  intros Hf. pose proof (ensureScope_get s id seq) as Hg. pose proof (steady_ensureScope s id seq) as Hs.
  destruct (ensureScope s id seq) as [s' c]. cbn in *. etransitivity; [done|]. by eapply steady_set_scope.
Qed.


Lemma steady_closeProposal seq s e o : keeps line seq s (closeProposal s e o).
Proof. unfold closeProposal. destruct (proposal_at _ _); [by apply steady_set_model|done]. Qed.

Lemma steady_freeze s e s' : freeze s e = Ok s' -> keeps line (run_seq e) s s'.
Proof.
  unfold freeze. intros H. inv_bind. etransitivity; [apply steady_closeProposal|]. etransitivity.
  - eapply steady_foldM; [|eassumption]. intros t entry t' Ht. unfold announce in Ht. inv_bind. subst. by apply steady_set_model.
  - eapply steady_foldM; [|eassumption]. intros t entry t' Ht. unfold open_scope in Ht. inv_bind. subst. apply steady_ensureScope.
Qed.

Lemma steady_replanFor seq s e b v : keeps line seq s (fst (replanFor s e b v)).
Proof.
  unfold replanFor. cbn zeta. destruct (match b with VUndef => None | _ => _ end : option (nat * ConsoleReplan)) as [[i r]|]; cbn; [done|]. by apply steady_set_model.
Qed.

Lemma steady_boundary seq s e : keeps line seq s (boundary s e).
Proof.
  unfold boundary. pose proof (steady_replanFor seq s e (pfield e "boundary_seq") (Js.nullish_or (pfield e "boundary_vertex_id") (nullable_value (vertex_id e)))) as Hr.
  destruct (replanFor _ _ _ _) as [s' i]. cbn in Hr. etransitivity; [exact Hr|].
  etransitivity; [|apply steady_push_delta]. by apply steady_set_model.
Qed.

Lemma steady_scopeState s e : keeps line (run_seq e) s (scopeState s e).
Proof.
  unfold scopeState. destruct (sid e) as [scope|]; [|done].
  pose proof (steady_ensureScope s scope (run_seq e)) as Hs. pose proof (ensureScope_get s scope (run_seq e)) as Hg.
  destruct (ensureScope _ _ _) as [s' c]. cbn in *. etransitivity; [exact Hs|].
  etransitivity; [|apply steady_fold; intros; apply steady_touch]. by eapply steady_set_scope.
Qed.

Lemma steady_cancel_member seq b s id : keeps line seq s (cancel_member b s id).
Proof.
  unfold cancel_member. etransitivity; [|apply steady_touch].
  destruct (JMap.get _ id) as [v|] eqn:Eg; [|done]. destruct (cv_bracket v) as [br|]; [|done].
  destruct (b && _); [|done]. eapply steady_set_vertex; [exact Eg|apply blind_bracket].
Qed.

Lemma steady_bracket s e : keeps line (run_seq e) s (bracket s e).
Proof.
  unfold bracket. destruct (is_type txn_try e); [apply steady_change_vertex; intros; apply blind_bracket|]. destruct (is_type txn_confirm e).
  - destruct (vid e) as [id|]; [|done]. destruct (JMap.get _ id) as [v|] eqn:Eg; [|done]. destruct (cv_bracket v); [|done].
    etransitivity; [|apply steady_touch]. eapply steady_set_vertex; [exact Eg|apply blind_bracket].
  - destruct (sid e) as [scope|]; [|done].
    pose proof (steady_ensureScope s scope (run_seq e)) as Hs. pose proof (ensureScope_get s scope (run_seq e)) as Hg.
    destruct (ensureScope _ _ _) as [s' c]. cbn in *. etransitivity; [exact Hs|].
    etransitivity; [|apply steady_fold; intros; apply steady_cancel_member]. by eapply steady_set_scope.
Qed.

Lemma steady_pivotPassed s e : keeps line (run_seq e) s (pivotPassed s e).
Proof.
  unfold pivotPassed. etransitivity; [|apply steady_change_vertex; intros; apply blind_txn].
  destruct (sid e) as [scope|]; [|done].
  apply (steady_ensured s scope (run_seq e)
    (fun c => {| cs_scope_id := cs_scope_id c; cs_state := cs_state c; cs_member_vertex_ids := cs_member_vertex_ids c;
                 cs_pivot_vertex_id := cs_pivot_vertex_id c; cs_pivot_passed_seq := Some (run_seq e);
                 cs_pivot_declaration_mismatch := cs_pivot_declaration_mismatch c; cs_opened_seq := cs_opened_seq c; cs_closed_seq := cs_closed_seq c |})).
  done.
Qed.

Lemma steady_unreadable seq s e : keeps line seq s (unreadable s e).
Proof. apply steady_change_vertex. intros. apply blind_stall. Qed.

Lemma steady_charge seq s e : keeps line seq s (charge s e).
Proof. unfold charge. etransitivity; [|apply steady_change_vertex; intros; apply blind_cost]. by apply steady_set_model. Qed.

(** Every event but a creation, a discard and a change of status. *)
Lemma steady_other s e s' :
  event_type e <> vertex_created -> event_type e <> subgraph_shadowed ->
  includes (event_type e) [vertex_started; vertex_succeeded; vertex_failed; vertex_retried] = false ->
  dispatch s e = Ok s' -> keeps line (run_seq e) s s'.
Proof.
  intros Hc Hs Hl. unfold dispatch. destruct (event_type e); try done; intros H;
    try (apply steady_freeze; exact H); apply Ok_inj in H as <-;
    first [reflexivity | apply steady_closeProposal | apply steady_boundary | apply steady_scopeState | apply steady_bracket
          | apply steady_pivotPassed | apply steady_charge | apply steady_unreadable | by apply steady_set_model].
Qed.
End Blind.

(** Every event but a creation and a discard leaves the outline alone. *)
Lemma steady_dispatch s e s' :
  event_type e <> vertex_created -> event_type e <> subgraph_shadowed -> dispatch s e = Ok s' -> steady (run_seq e) s s'.
Proof.
  intros Hc Hs H. destruct (includes (event_type e) [vertex_started; vertex_succeeded; vertex_failed; vertex_retried]) eqn:El; [|by apply steady_other].
  unfold dispatch in H. destruct (event_type e); try done; apply Ok_inj in H as <-; by apply steady_change_vertex.
Qed.

(** ** Creations and discards *)

Lemma keeps_places seq s s' : steady seq s s' -> keeps place_line seq s s'.
Proof.
  intros [O G A M L]. split; [|done..].
  assert (forall m, map place_line m = map (fun l => (fst l, fst (snd l))) (map vertex_line m)) as Hp by (intros m; by rewrite map_map).
  by rewrite !Hp, O.
Qed.

Lemma keeps_flag seq at_ s id : keeps place_line seq s (flag at_ s id).
Proof.
  unfold flag. destruct (JMap.get _ id) as [v|] eqn:Eg; [|done]. destruct (cv_is_shadowed v); [done|]. by eapply steady_set_vertex.
Qed.

Lemma steady_amend_replan seq s i hidden reason : steady seq s (amend_replan s i hidden reason).
Proof. by apply steady_set_model. Qed.

Lemma keeps_shadow seq s e : keeps place_line seq s (shadow s e).
Proof.
  unfold shadow. cbn zeta. set (s1 := fold_left _ _ s). assert (keeps place_line seq s s1) as H1 by (apply steady_fold; intros; apply keeps_flag).
  pose proof (steady_replanFor (line := vertex_line) seq s1 e (pfield e "boundary_seq") (pfield e "boundary_vertex_id")) as Hr.
  destruct (replanFor _ _ _ _) as [s2 i]. cbn in Hr. etransitivity; [exact H1|]. apply keeps_places. etransitivity; [exact Hr|].
  etransitivity; [apply steady_amend_replan|apply steady_push_delta].
Qed.

(** What a creation adds, once the vertex is in place. *)
Lemma create_new s e id : vid e = Some id ->
  let s' := set_vertex s id (new_vertex s e id) in steady (run_seq e) s' (create s e).
Proof.
  intros Hv. unfold create. rewrite Hv. cbn zeta. set (v := new_vertex s e id). set (s1 := set_vertex s id v).
  etransitivity; [|apply steady_append_to]. etransitivity; [|by apply steady_set_model].
  destruct (sid e) as [scope|]; [|done]. by apply (steady_ensured s1 scope (run_seq e) (fun c => with_member c id (tx_is_pivot (cv_txn v)))).
Qed.

Lemma create_outline s e id : vid e = Some id -> id ∉ JMap.keys (fs_vertices s) ->
  outline (create s e) = outline s ++ [(id, (id, run_seq e, false))].
Proof.
  intros Hv Hf. pose proof (create_new s e id Hv) as [O _ _ _ _]. unfold outline. rewrite O. cbn. by rewrite set_fresh, map_app.
Qed.

(** ** Sound states: every reading of the maps is in log order *)

Section Lines.
Variable R : Z -> Z -> Prop.

(** Distinct keys that are the ids, positions related along the list and none beyond [w]. *)
Record lines_ok (w : Z) (l : list (string * (string * Z))) : Prop := {
  lo_NoDup : NoDup (map fst l);
  lo_ids : Forall (fun p => fst p = fst (snd p)) l;
  lo_sorted : StronglySorted (fun a b => R (snd (snd a)) (snd (snd b))) l;
  lo_bound : Forall (fun p => snd (snd p) <= w) l
}.

Lemma lines_ok_nil w : lines_ok w [].
Proof. split; constructor. Qed.

Lemma lines_ok_weaken w w' l : w <= w' -> lines_ok w l -> lines_ok w' l.
Proof. intros Hw [? ? ? Hb]. split; [done..|]. eapply Forall_impl; [exact Hb|]. cbn. lia. Qed.

(** New lines at a later position go last. *)
Lemma lines_ok_app w seq l new :
  (forall a, a < seq -> R a seq) -> (length new <= 1)%nat \/ R seq seq -> w < seq ->
  NoDup new -> (forall id, id ∈ new -> id ∉ map fst l) -> lines_ok w l -> lines_ok seq (l ++ map (fun id => (id, (id, seq))) new).
Proof.
  intros Hlt Heq Hw Hn Hf [N I S B]. split.
  - rewrite map_app, map_map. cbn. rewrite map_id. apply NoDup_app. split_and!; [done| |done]. intros id H1 H2. by apply Hf in H2.
  - apply Forall_app. split; [done|]. by apply Forall_map, Forall_true.
  - apply StronglySorted_app. split_and!; [|done|].
    + intros a b Ha (id & -> & _)%elem_of_map. cbn. apply Hlt. rewrite Forall_forall in B. apply B in Ha. lia.
    + clear Hn Hf. induction new as [|id new IH]; cbn; constructor.
      * apply IH. destruct Heq as [Hlen|?]; [left; cbn in Hlen; lia|by right].
      * apply Forall_map. destruct Heq as [Hlen|Hs]; [|by apply Forall_true]. destruct new; [constructor|cbn in Hlen; lia].
  - apply Forall_app. split; [eapply Forall_impl; [exact B|]; cbn; lia|]. apply Forall_map, Forall_true. cbn. lia.
Qed.
End Lines.

Definition places (s : FoldState) : list (string * (string * Z)) := map place_line (fs_vertices s).

Record sound (s : FoldState) : Prop := {
  so_places : lines_ok Z.lt (watermark s) (places s);
  so_scopes : lines_ok Z.le (watermark s) (scope_outline s);
  so_graph : md_vertices (fs_model s) = [] /\ md_scopes (fs_model s) = []
}.

(** The vertices a batch creates. *)
Definition creates (e : StoredEvent) : option string := if is_type vertex_created e then vid e else None.

Lemma place_keys s : JMap.keys (fs_vertices s) = map fst (places s).
Proof. unfold JMap.keys, places. rewrite map_map. done. Qed.

Lemma scopes_grow_ok seq w s s' : w < seq -> scopes_grow seq s s' -> lines_ok Z.le w (scope_outline s) -> lines_ok Z.le seq (scope_outline s').
Proof.
  intros Hw (new & -> & Hn & Hf) Hl. eapply lines_ok_app; try done; [intros; lia|right; lia|]. intros id Hid. rewrite <- scope_keys. by apply Hf.
Qed.

(** A step in full: the places it adds, the scopes it opens, the fences it leaves. *)
Record step_effect (e : StoredEvent) (s s' : FoldState) : Prop := {
  se_places : places s' = places s ++ map (fun id => (id, (id, run_seq e))) (option_list (creates e));
  se_scopes : scopes_grow (run_seq e) s s';
  se_at : md_at_run_seq (fs_model s') = md_at_run_seq (fs_model s);
  se_graph : md_vertices (fs_model s') = md_vertices (fs_model s) /\ md_scopes (fs_model s') = md_scopes (fs_model s);
  se_last : fs_lastSeq s' = fs_lastSeq s
}.

Lemma keeps_effect e s s' : creates e = None -> keeps place_line (run_seq e) s s' -> step_effect e s s'.
Proof. intros Hc [O G A M L]. split; [|done..]. unfold places. by rewrite Hc, O, app_nil_r. Qed.

Lemma creates_other e : event_type e <> vertex_created -> creates e = None.
Proof. unfold creates, is_type. intros H. by rewrite (proj2 (eqb_false _ _)). Qed.

Lemma create_effect s e : event_type e = vertex_created -> (forall id, creates e = Some id -> id ∉ JMap.keys (fs_vertices s)) ->
  step_effect e s (create s e).
Proof.
  intros Ht Hf. destruct (vid e) as [id|] eqn:Ev.
  - assert (creates e = Some id) as Hc by (unfold creates, is_type; by rewrite Ht, eqb_refl).
    destruct (keeps_places _ _ _ (create_new s e id Ev)) as [O G A M L]. split; [|done..].
    unfold places. rewrite O, Hc. cbn. rewrite set_fresh, map_app by by apply Hf. done.
  - apply keeps_effect; [unfold creates; by destruct (is_type _ _)|]. unfold create. by rewrite Ev.
Qed.

Lemma dispatch_effect s e s' : (forall id, creates e = Some id -> id ∉ JMap.keys (fs_vertices s)) ->
  dispatch s e = Ok s' -> step_effect e s s'.
Proof.
  intros Hf Hd. destruct (decide (event_type e = vertex_created)) as [Ht|Ht].
  - unfold dispatch in Hd. rewrite Ht in Hd. apply Ok_inj in Hd as <-. by apply create_effect.
  - apply keeps_effect; [by apply creates_other|]. destruct (decide (event_type e = subgraph_shadowed)) as [Hs|Hs].
    + unfold dispatch in Hd. rewrite Hs in Hd. apply Ok_inj in Hd as <-. apply keeps_shadow.
    + by apply keeps_places, steady_dispatch.
Qed.

Lemma known_created e : event_type e = vertex_created -> known (event_type e) = true.
Proof. by intros ->. Qed.

(** An ignored event is no step at all. *)
Lemma apply_ok s e s' : apply s e = Ok s' ->
  (known (event_type e) = false /\ s' = s) \/ (known (event_type e) = true /\ dispatch (arrive s e) e = Ok s').
Proof.
  unfold apply. destruct (known (event_type e)); [rewrite andb_false_r|rewrite andb_true_r]; cbn [negb andb].
  - by right.
  - destruct (ignorable e); cbn; [|done]. intros H. left. by apply Ok_inj in H.
Qed.

Lemma arrive_watermark s e : watermark (arrive s e) = Z.max (watermark s) (run_seq e).
Proof. unfold watermark. cbn. lia. Qed.

Lemma apply_sound s e s' : sound s -> watermark s < run_seq e ->
  (forall id, creates e = Some id -> id ∉ JMap.keys (fs_vertices s)) -> apply s e = Ok s' ->
  sound s' /\ watermark s' <= run_seq e /\ JMap.keys (fs_vertices s') = JMap.keys (fs_vertices s) ++ option_list (creates e).
Proof.
  intros [P C [G1 G2]] Hw Hf Ha. apply apply_ok in Ha as [[Hk ->]|[Hk Hd]].
  - assert (creates e = None) as ->. { apply creates_other. intros Ht%known_created. congruence. }
    split; [by split|]. split; [lia|]. by rewrite app_nil_r.
  - destruct (dispatch_effect (arrive s e) e s' Hf Hd) as [Ep Es Ea [Eg1 Eg2] El].
    assert (watermark s' = run_seq e) as Hw'.
    { transitivity (watermark (arrive s e)); [unfold watermark; by rewrite Ea, El|]. rewrite arrive_watermark. lia. }
    split; [|split; [lia|]].
    + split; [| |by rewrite Eg1, Eg2]; rewrite Hw'; [|by eapply scopes_grow_ok].
      rewrite Ep. eapply lines_ok_app; try done.
      * left. destruct (creates e); cbn; lia.
      * destruct (creates e); [apply NoDup_singleton|apply NoDup_nil_2].
      * intros id Hid. change (places (arrive s e)) with (places s). rewrite <- place_keys. apply Hf. by destruct (creates e); [apply list_elem_of_singleton in Hid as ->|apply elem_of_nil in Hid].
    + rewrite !place_keys, Ep, map_app, map_map. cbn. by rewrite map_id.
Qed.

(** Batches a reader may fold: in log order, after the model, each vertex created once. *)
Record readable_after (w : Z) (keys : list string) (batch : list StoredEvent) : Prop := {
  ra_ordered : seq_ordered batch;
  ra_after : Forall (fun e => w < run_seq e) batch;
  ra_fresh : NoDup (keys ++ omap creates batch)
}.

Lemma fold_sound s batch s' : sound s -> readable_after (watermark s) (JMap.keys (fs_vertices s)) batch -> foldM apply s batch = Ok s' ->
  sound s' /\ JMap.keys (fs_vertices s') = JMap.keys (fs_vertices s) ++ omap creates batch /\
  (forall w, Forall (fun e => run_seq e < w) batch -> watermark s < w -> watermark s' < w).
Proof.
  revert s; induction batch as [|e batch IH]; cbn [foldM]; intros s Hs [Ho Ha Hf] H.
  - apply Ok_inj in H as <-. cbn. by rewrite app_nil_r.
  - inv_bind. rename x into s1. inversion Ho as [|? ? Ho' Hlt]; inversion Ha as [|? ? Ha1 Ha']; subst.
    assert (omap creates (e :: batch) = option_list (creates e) ++ omap creates batch) as Hom by (cbn; by destruct (creates e)).
    rewrite Hom in Hf.
    destruct (apply_sound s e s1) as (Hs1 & Hw1 & Hk1); [done|done| |done|].
    { intros id Hid Hin. rewrite Hid in Hf. apply NoDup_app in Hf as (_ & Hf & _). apply (Hf id Hin). cbn. apply list_elem_of_here. }
    destruct (IH s1) as (Hs' & Hk' & Hw'); [done| |done|].
    + split; [done| |by rewrite Hk1, <- app_assoc]. eapply Forall_impl; [exact Hlt|]. cbn. lia.
    + split; [done|]. split; [by rewrite Hk', Hk1, Hom, app_assoc|]. intros w Hall Hw.
      apply Forall_cons in Hall as [He Hall]. apply Hw'; [done|lia].
Qed.

(** ** The fold reads only what a model keeps

    Two states are alike when they differ at most in what they remember of the batch: the deltas, the
    created and the touched vertices, and how far it got. *)
Record alike (s t : FoldState) : Prop := {
  al_model : with_graph (fs_model s) 0 [] [] = with_graph (fs_model t) 0 [] [];
  al_vertices : fs_vertices s = fs_vertices t;
  al_scopes : fs_scopes s = fs_scopes t
}.

#[export] Instance alike_equiv : Equivalence alike.
Proof. split; [by split|intros ? ? []; by split|intros ? ? ? [] []; split; congruence]. Qed.

(** Alike states as records that share what is read. *)
Ltac alike_records :=
  match goal with
  | H : alike ?s ?t |- _ =>
      destruct s as [[? ? ? ? ? ? ? ? ? ? ? ? ?] ? ? ? ? ? ?], t as [[? ? ? ? ? ? ? ? ? ? ? ? ?] ? ? ? ? ? ?];
      destruct H as [Hm Hv Hc]; cbn in Hm, Hv, Hc; injection Hm; intros; subst; clear Hm
  end.

Lemma touch_alike s id : alike (touch s id) s.
Proof. unfold touch. by destruct (existsb _ _). Qed.

#[export] Instance touch_proper : Proper (alike ==> eq ==> alike) touch.
Proof. intros s t H id ? <-. by rewrite !touch_alike. Qed.

#[export] Instance set_vertex_proper : Proper (alike ==> eq ==> eq ==> alike) set_vertex.
Proof. intros s t H id ? <- v ? <-. by alike_records. Qed.

#[export] Instance set_scope_proper : Proper (alike ==> eq ==> eq ==> alike) set_scope.
Proof. intros s t H id ? <- v ? <-. by alike_records. Qed.

#[export] Instance push_delta_proper : Proper (alike ==> eq ==> alike) push_delta.
Proof. intros s t H i ? <-. by alike_records. Qed.

#[export] Instance append_to_proper : Proper (alike ==> eq ==> eq ==> alike) append_to.
Proof. intros s t H g ? <- i ? <-. by alike_records. Qed.

#[export] Instance arrive_proper : Proper (alike ==> eq ==> alike) arrive.
Proof. intros s t H e ? <-. by alike_records. Qed.

(** A loop of a respectful body is respectful. *)
Lemma fold_left_alike {A} (f : FoldState -> A -> FoldState) (Hf : Proper (alike ==> eq ==> alike) f) xs s t :
  alike s t -> alike (fold_left f xs s) (fold_left f xs t).
Proof. revert s t; induction xs as [|x xs IH]; intros s t H; cbn; [done|]. apply IH. by apply Hf. Qed.

(** The same outcome, up to [alike]. *)
Definition result_alike (r q : result FoldState) : Prop :=
  match r, q with
  | Ok s, Ok t => alike s t
  | Throw e, Throw e' => e = e'
  | _, _ => False
  end.

Lemma foldM_alike {A} (f : FoldState -> A -> result FoldState) (Hf : Proper (alike ==> eq ==> result_alike) f) xs s t :
  alike s t -> result_alike (foldM f s xs) (foldM f t xs).
Proof.
  revert s t; induction xs as [|x xs IH]; intros s t H; cbn; [done|]. pose proof (Hf _ _ H x x eq_refl) as Hx.
  destruct (f s x) as [s'|e], (f t x) as [t'|e']; cbn in *; [by apply IH|done..].
Qed.

Lemma change_vertex_alike s t named f : alike s t -> alike (change_vertex s named f) (change_vertex t named f).
Proof.
  intros H. unfold change_vertex. destruct named as [id|]; [|done]. rewrite (al_vertices _ _ H). destruct (JMap.get _ id); [|done].
  by rewrite !touch_alike, H.
Qed.

Lemma ensureScope_alike s t id seq : alike s t ->
  alike (fst (ensureScope s id seq)) (fst (ensureScope t id seq)) /\ snd (ensureScope s id seq) = snd (ensureScope t id seq).
Proof. intros H. unfold ensureScope. rewrite (al_scopes _ _ H). destruct (JMap.get _ id); cbn; split; try done. by rewrite H. Qed.

#[export] Instance cancel_member_proper b : Proper (alike ==> eq ==> alike) (cancel_member b).
Proof.
  intros s t H id ? <-. unfold cancel_member. rewrite !touch_alike, (al_vertices _ _ H). destruct (JMap.get _ id) as [v|]; [|done].
  destruct (cv_bracket v); [|done]. destruct (b && _); [|done]. by rewrite H.
Qed.

#[export] Instance flag_proper seq : Proper (alike ==> eq ==> alike) (flag seq).
Proof.
  intros s t H id ? <-. unfold flag. rewrite (al_vertices _ _ H). destruct (JMap.get _ id) as [v|]; [|done].
  destruct (cv_is_shadowed v); [done|]. by rewrite H.
Qed.

Lemma closeProposal_alike s t e o : alike s t -> alike (closeProposal s e o) (closeProposal t e o).
Proof. intros H. alike_records. unfold closeProposal. cbn. by destruct (proposal_at _ _). Qed.

Lemma freeze_alike s t e : alike s t -> result_alike (freeze s e) (freeze t e).
Proof.
  intros H%(fun H => closeProposal_alike s t e outcome_frozen H). unfold freeze. destruct (each (pfield e "vertices")) as [vs|]; cbn; [|done].
  assert (Proper (alike ==> eq ==> result_alike) (announce e)) as Ha.
  { intros s' t' H' x ? <-. unfold announce. destruct (access x "vertex_id"); cbn; [|done]. destruct (access x "author_id"); cbn; [|done]. by alike_records. }
  pose proof (foldM_alike _ Ha vs _ _ H) as Hv.
  destruct (foldM (announce e) _ vs) as [s'|], (foldM (announce e) (closeProposal t e _) vs) as [t'|]; cbn in *; try done.
  destruct (each (pfield e "scopes")) as [ss|]; cbn; [|done]. apply foldM_alike; [|done].
  intros s1 t1 H1 x ? <-. unfold open_scope. destruct (access x "scope_id"); cbn; [|done]. by apply ensureScope_alike.
Qed.

Lemma create_alike s t e : alike s t -> alike (create s e) (create t e).
Proof.
  intros H. unfold create. destruct (vid e) as [id|]; [|done].
  assert (new_vertex s e id = new_vertex t e id) as -> by by alike_records.
  cbn zeta. set (v := new_vertex t e id).
  assert (forall s t, alike s t -> alike
    (append_to (set_model s (with_announced (fs_model s) (JMap.delete (md_announced (fs_model s)) id))) (default (cv_created_seq v) (cv_frozen_by_seq v)) id)
    (append_to (set_model t (with_announced (fs_model t) (JMap.delete (md_announced (fs_model t)) id))) (default (cv_created_seq v) (cv_frozen_by_seq v)) id)) as Hc.
  { clearbody v. clear H. intros s0 t0 H. by alike_records. }
  apply Hc. destruct (sid e) as [scope|]; [|by rewrite H].
  destruct (ensureScope_alike (set_vertex s id v) (set_vertex t id v) scope (run_seq e)) as [H1 H2]; [by rewrite H|].
  destruct (ensureScope (set_vertex s id v) _ _), (ensureScope (set_vertex t id v) _ _). cbn in *. by rewrite H1, H2.
Qed.

Lemma replanFor_alike s t e b v : alike s t ->
  alike (fst (replanFor s e b v)) (fst (replanFor t e b v)) /\ snd (replanFor s e b v) = snd (replanFor t e b v).
Proof.
  intros H. alike_records. unfold replanFor. cbn.
  destruct (match b with VUndef => None | _ => _ end : option (nat * ConsoleReplan)) as [[i r]|]; by split.
Qed.

Lemma shadow_alike s t e : alike s t -> alike (shadow s e) (shadow t e).
Proof.
  intros H. unfold shadow. assert (hidden_by s e = hidden_by t e) as -> by (unfold hidden_by; by rewrite (al_vertices _ _ H)).
  cbn zeta. pose proof (fold_left_alike _ (flag_proper (run_seq e)) (hidden_by t e) _ _ H) as H1.
  destruct (replanFor_alike _ _ e (pfield e "boundary_seq") (pfield e "boundary_vertex_id") H1) as [H2 H3].
  destruct (replanFor (fold_left _ _ s) _ _ _) as [s' i], (replanFor (fold_left _ _ t) _ _ _) as [t' j]. cbn in *. subst j.
  clear H H1. by alike_records.
Qed.

Lemma boundary_alike s t e : alike s t -> alike (boundary s e) (boundary t e).
Proof.
  intros H. unfold boundary.
  destruct (replanFor_alike _ _ e (pfield e "boundary_seq") (Js.nullish_or (pfield e "boundary_vertex_id") (nullable_value (vertex_id e))) H) as [H2 H3].
  destruct (replanFor s _ _ _) as [s' i], (replanFor t _ _ _) as [t' j]. cbn in *. subst j. clear H. by alike_records.
Qed.

Lemma scopeState_alike s t e : alike s t -> alike (scopeState s e) (scopeState t e).
Proof.
  intros H. unfold scopeState. destruct (sid e) as [scope|]; [|done].
  destruct (ensureScope_alike _ _ scope (run_seq e) H) as [H1 H2]. destruct (ensureScope s _ _), (ensureScope t _ _). cbn in *. subst.
  apply fold_left_alike; [apply _|]. by rewrite H1.
Qed.

Lemma bracket_alike s t e : alike s t -> alike (bracket s e) (bracket t e).
Proof.
  intros H. unfold bracket. destruct (is_type txn_try e); [by apply change_vertex_alike|]. destruct (is_type txn_confirm e).
  - destruct (vid e) as [id|]; [|done]. rewrite (al_vertices _ _ H). destruct (JMap.get _ id) as [v|]; [|done].
    destruct (cv_bracket v); [|done]. by rewrite !touch_alike, H.
  - destruct (sid e) as [scope|]; [|done].
    destruct (ensureScope_alike _ _ scope (run_seq e) H) as [H1 H2]. destruct (ensureScope s _ _), (ensureScope t _ _). cbn in *. subst.
    apply fold_left_alike; [apply _|]. by rewrite H1.
Qed.

Lemma pivotPassed_alike s t e : alike s t -> alike (pivotPassed s e) (pivotPassed t e).
Proof.
  intros H. unfold pivotPassed. apply change_vertex_alike. destruct (sid e) as [scope|]; [|done].
  destruct (ensureScope_alike _ _ scope (run_seq e) H) as [H1 H2]. destruct (ensureScope s _ _), (ensureScope t _ _). cbn in *. subst. by rewrite H1.
Qed.

Lemma charge_alike s t e : alike s t -> alike (charge s e) (charge t e).
Proof.
  intros H. unfold charge. assert (md_spend (fs_model s) = md_spend (fs_model t)) as -> by by alike_records.
  apply change_vertex_alike. by alike_records.
Qed.

#[export] Instance dispatch_proper : Proper (alike ==> eq ==> result_alike) dispatch.
Proof.
  intros s t H e ? <-. unfold dispatch. destruct (event_type e);
    first [apply freeze_alike; exact H | exact H | apply closeProposal_alike; exact H | apply create_alike; exact H | apply shadow_alike; exact H
          | apply boundary_alike; exact H | apply scopeState_alike; exact H | apply bracket_alike; exact H | apply pivotPassed_alike; exact H
          | apply charge_alike; exact H | apply change_vertex_alike; exact H | by alike_records].
Qed.

#[export] Instance apply_proper : Proper (alike ==> eq ==> result_alike) apply.
Proof.
  intros s t H e ? <-. unfold apply. destruct (negb _ && negb _); [done|]. destruct (ignorable e && _); [done|].
  apply dispatch_proper; [by rewrite H|done].
Qed.

(** ** Stopping and resuming *)

Lemma dispatch_fences s e s' : dispatch s e = Ok s' ->
  md_at_run_seq (fs_model s') = md_at_run_seq (fs_model s) /\ fs_lastSeq s' = fs_lastSeq s.
Proof.
  intros Hd. destruct (decide (event_type e = vertex_created)) as [Ht|Ht].
  - unfold dispatch in Hd. rewrite Ht in Hd. apply Ok_inj in Hd as <-. destruct (vid e) as [id|] eqn:Ev.
    + by destruct (create_new s e id Ev) as [_ _ A _ L].
    + unfold create. by rewrite Ev.
  - destruct (decide (event_type e = subgraph_shadowed)) as [Hs|Hs].
    + unfold dispatch in Hd. rewrite Hs in Hd. apply Ok_inj in Hd as <-. by destruct (keeps_shadow (run_seq e) s e).
    + by destruct (steady_dispatch _ _ _ Ht Hs Hd).
Qed.

(** How far a batch takes the fence: the positions it understands. *)
Definition reach (w : Z) (batch : list StoredEvent) : Z :=
  fold_left (fun w e => if known (event_type e) then Z.max w (run_seq e) else w) batch w.

Lemma fold_watermark batch s s' : foldM apply s batch = Ok s' -> watermark s' = reach (watermark s) batch.
Proof.
  revert s; induction batch as [|e batch IH]; cbn [foldM reach fold_left]; intros s H; [by apply Ok_inj in H as <-|].
  inv_bind. rewrite (IH _ H). unfold reach. f_equal. apply apply_ok in H0 as [[-> ->]|[-> Hd]]; [done|].
  apply dispatch_fences in Hd as [A L]. rewrite <- arrive_watermark. unfold watermark. by rewrite A, L.
Qed.

Lemma with_graph_again m a vs ss b vs' ss' : with_graph (with_graph m a vs ss) b vs' ss' = with_graph m b vs' ss'.
Proof. done. Qed.

Lemma with_graph_same m m' a vs ss : with_graph m 0 [] [] = with_graph m' 0 [] [] -> with_graph m a vs ss = with_graph m' a vs ss.
Proof. intros H. rewrite <- (with_graph_again m 0 [] []), <- (with_graph_again m' 0 [] []). by rewrite H. Qed.

Section Resume.
Context `{Collation}.

Lemma finish_alike s t : alike s t -> watermark s = watermark t -> cst_model (finish s) = cst_model (finish t).
Proof. intros [Hm Hv Hc] Hw. cbn. rewrite Hv, Hc, Hw. by apply with_graph_same. Qed.

Definition model_places (m : ConsoleDagModel) := map (fun v => (cv_vertex_id v, (cv_vertex_id v, cv_created_seq v))) (md_vertices m).
Definition model_scopes (m : ConsoleDagModel) := map (fun c => (cs_scope_id c, (cs_scope_id c, cs_opened_seq c))) (md_scopes m).

(** A model a fold may have produced. *)
Record model_ok (m : ConsoleDagModel) : Prop := {
  mo_at : 0 <= md_at_run_seq m;
  mo_places : lines_ok Z.lt (md_at_run_seq m) (model_places m);
  mo_scopes : lines_ok Z.le (md_at_run_seq m) (model_scopes m)
}.

Lemma emptyConsoleDag_ok runId version : model_ok (emptyConsoleDag runId version).
Proof. split; [done|apply lines_ok_nil..]. Qed.

Lemma start_vertices m : model_ok m -> fs_vertices (start m) = map (fun v => (cv_vertex_id v, v)) (md_vertices m).
Proof. intros [_ [N _ _ _] _]. cbn. apply of_entries_NoDup. unfold model_places, model_scopes in N. rewrite map_map in *. exact N. Qed.

Lemma start_scopes m : model_ok m -> fs_scopes (start m) = map (fun c => (cs_scope_id c, c)) (md_scopes m).
Proof. intros [_ _ [N _ _ _]]. cbn. apply of_entries_NoDup. unfold model_places, model_scopes in N. rewrite map_map in *. exact N. Qed.

Lemma start_watermark m : model_ok m -> watermark (start m) = md_at_run_seq m.
Proof. intros [H0 _ _]. unfold watermark. cbn. lia. Qed.

Lemma start_keys m : model_ok m -> JMap.keys (fs_vertices (start m)) = map cv_vertex_id (md_vertices m).
Proof. intros Hm. rewrite (start_vertices m Hm). unfold JMap.keys. by rewrite map_map. Qed.

Lemma start_sound m : model_ok m -> sound (start m).
Proof.
  intros Hm. split; [| |done]; rewrite (start_watermark m Hm).
  - unfold places. rewrite (start_vertices m Hm), map_map. apply Hm.
  - unfold scope_outline. rewrite (start_scopes m Hm), map_map. apply Hm.
Qed.

Lemma by_creation_lt a b : cv_created_seq a < cv_created_seq b -> by_creation a b <= 0.
Proof. unfold by_creation, zor. destruct (cv_created_seq a - cv_created_seq b =? 0) eqn:E; bool_prop; lia. Qed.

#[local] Instance by_creation_comparator : Comparator by_creation := zor_comparator _ _.
#[local] Instance by_opened_comparator : Comparator by_opened := key_comparator cs_opened_seq.

Lemma sorted_values s : sound s ->
  js_sort by_creation (JMap.values (fs_vertices s)) = JMap.values (fs_vertices s) /\
  js_sort by_opened (JMap.values (fs_scopes s)) = JMap.values (fs_scopes s).
Proof.
  intros [[_ _ P _] [_ _ C _] _]. unfold places, scope_outline in *. split; apply js_sort_id; unfold JMap.values.
  - apply (proj1 (StronglySorted_map place_line _ _)) in P. apply (proj2 (StronglySorted_map snd _ _)). eapply StronglySorted_weaken; [|exact P]. cbn. intros. by apply by_creation_lt.
  - apply (proj1 (StronglySorted_map scope_line _ _)) in C. apply (proj2 (StronglySorted_map snd _ _)). eapply StronglySorted_weaken; [|exact C]. cbn. unfold by_opened. intros; lia.
Qed.

Lemma values_keyed {V} (id : V -> string) (m : list (string * V)) :
  Forall (fun p => fst p = id (snd p)) m -> map (fun v => (id v, v)) (JMap.values m) = m.
Proof. unfold JMap.values. rewrite map_map. induction 1 as [|[k v] m Hk _ IH]; cbn in *; [done|]. by rewrite IH, <- Hk. Qed.

Lemma sound_keyed s : sound s ->
  map (fun v => (cv_vertex_id v, v)) (JMap.values (fs_vertices s)) = fs_vertices s /\
  map (fun c => (cs_scope_id c, c)) (JMap.values (fs_scopes s)) = fs_scopes s.
Proof. intros [[_ P _ _] [_ C _ _] _]. apply Forall_map in P, C. by split; apply values_keyed. Qed.

Lemma finish_ok s : sound s -> 0 <= watermark s -> model_ok (cst_model (finish s)).
Proof.
  intros Hs H0. destruct (sorted_values s Hs) as [Hv Hc]. destruct (sound_keyed s Hs) as [Kv Kc].
  assert (model_places (cst_model (finish s)) = places s) as Hp.
  { unfold model_places, places. cbn [cst_model finish with_graph md_vertices]. rewrite Hv. rewrite <- Kv at 2. by rewrite map_map. }
  assert (model_scopes (cst_model (finish s)) = scope_outline s) as Hq.
  { unfold model_scopes, scope_outline. cbn [cst_model finish with_graph md_scopes]. rewrite Hc. rewrite <- Kc at 2. by rewrite map_map. }
  split; [done|rewrite Hp; apply Hs|rewrite Hq; apply Hs].
Qed.

(** Starting again from a finished step is the state the step ended in. *)
Lemma restart_alike s : sound s -> 0 <= watermark s -> alike (start (cst_model (finish s))) s.
Proof.
  intros Hs H0. destruct (sorted_values s Hs) as [Hv Hc]. destruct (sound_keyed s Hs) as [Kv Kc]. pose proof (finish_ok s Hs H0) as Hok. split.
  - done.
  - rewrite (start_vertices _ Hok). cbn [cst_model finish with_graph md_vertices]. by rewrite Hv.
  - rewrite (start_scopes _ Hok). cbn [cst_model finish with_graph md_scopes]. by rewrite Hc.
Qed.

Lemma readable_after_app w keys b1 b2 : readable_after w keys (b1 ++ b2) ->
  readable_after w keys b1 /\ seq_ordered b2 /\ NoDup ((keys ++ omap creates b1) ++ omap creates b2) /\ forall e, e ∈ b2 -> Forall (fun e' => run_seq e' < run_seq e) b1 /\ w < run_seq e.
Proof.
  intros [Ho Ha Hf]. apply seq_ordered_app_inv in Ho as (H1 & H2 & H12). apply Forall_app in Ha as [Ha1 Ha2].
  rewrite omap_app, app_assoc in Hf. split_and!; [|done|done|].
  - split; [done|done|]. by apply NoDup_app in Hf as [Hf _].
  - intros e He. split; [|by rewrite Forall_forall in Ha2; apply Ha2]. apply Forall_forall. intros e' He'. by apply H12.
Qed.

(** The model of a step, the ids it then holds, and what may be folded onto it. *)
Lemma advance_ok m b1 b2 step : model_ok m -> readable_after (md_at_run_seq m) (map cv_vertex_id (md_vertices m)) (b1 ++ b2) ->
  advanceConsoleDag m b1 = Ok step ->
  model_ok (cst_model step) /\ readable_after (md_at_run_seq (cst_model step)) (map cv_vertex_id (md_vertices (cst_model step))) b2 /\
  exists s, foldM apply (start m) b1 = Ok s /\ step = finish s /\ alike (start (cst_model step)) s /\ watermark s = md_at_run_seq (cst_model step).
Proof.
  intros Hm Hr Ha. apply readable_after_app in Hr as (Hr & Ho2 & Hf & H12). unfold advanceConsoleDag in Ha. inv_bind. subst step. rename x into s, H0 into Hfold.
  pose proof (start_watermark m Hm) as Hw. pose proof (start_keys m Hm) as Hk.
  destruct (fold_sound (start m) b1 s) as (Hs & Hks & Hws); [by apply start_sound|by rewrite Hw, Hk|done|].
  assert (0 <= watermark s) as Hpos.
  { rewrite (fold_watermark _ _ _ Hfold), Hw. clear -Hm. destruct Hm as [H0 _ _]. revert H0.
    generalize (md_at_run_seq m). induction b1 as [|e b1 IH]; cbn; intros w H0; [done|]. apply IH. destruct (known _); lia. }
  pose proof (restart_alike s Hs Hpos) as Hal. split_and!; [by apply finish_ok| |by exists s].
  split; [done| |].
  - apply Forall_forall. intros e He. destruct (H12 e He) as [H1 H2]. change (watermark s < run_seq e). apply Hws; [done|by rewrite Hw].
  - rewrite <- (start_keys _ (finish_ok s Hs Hpos)), (al_vertices _ _ Hal), Hks, Hk. exact Hf.
Qed.

(** The model a step leaves, without its deltas. *)
Definition advance_model (m : ConsoleDagModel) (batch : list StoredEvent) : result ConsoleDagModel :=
  step ← advanceConsoleDag m batch; Ok (cst_model step).

Lemma advance_model_app m b1 b2 : model_ok m -> readable_after (md_at_run_seq m) (map cv_vertex_id (md_vertices m)) (b1 ++ b2) ->
  (m1 ← advance_model m b1; advance_model m1 b2) = advance_model m (b1 ++ b2).
Proof.
  intros Hm Hr. unfold advance_model. destruct (advanceConsoleDag m b1) as [step|msg] eqn:E1; cbn.
  - destruct (advance_ok _ _ _ _ Hm Hr E1) as (Hok & _ & s & Hs & -> & Hal & Hw). unfold advanceConsoleDag. rewrite foldM_app, Hs. cbn [mbind result_bind].
    pose proof (foldM_alike _ _ b2 _ _ Hal) as Hb.
    destruct (foldM apply (start _) b2) as [s1|] eqn:F1, (foldM apply s b2) as [s2|] eqn:F2; cbn in Hb |- *; try done; [|by rewrite Hb].
    f_equal. apply finish_alike; [done|]. apply fold_watermark in F1, F2. rewrite F1, F2, (start_watermark _ Hok). by rewrite Hw.
  - unfold advanceConsoleDag in *. rewrite foldM_app. revert E1. destruct (foldM apply (start m) b1); cbn; congruence.
Qed.

(** A reader that folds batch after batch. *)
Definition follow (m : ConsoleDagModel) (batches : list (list StoredEvent)) : result ConsoleDagModel := foldM advance_model m batches.

Lemma follow_concat m batches : model_ok m -> readable_after (md_at_run_seq m) (map cv_vertex_id (md_vertices m)) (concat batches) ->
  batches <> [] -> follow m batches = advance_model m (concat batches).
Proof.
  revert m; induction batches as [|b bs IH]; intros m Hm Hr Hne; [done|]. unfold follow in *. cbn [foldM concat] in *.
  destruct bs as [|b' bs]; [cbn; rewrite app_nil_r; by destruct (advance_model m b)|].
  rewrite <- (advance_model_app m b (concat (b' :: bs))) by done. destruct (advance_model m b) as [m1|msg] eqn:E1; cbn [mbind result_bind]; [|done].
  unfold advance_model in E1. inv_bind. subst m1. destruct (advance_ok _ _ _ _ Hm Hr H0) as (Hok & Hr' & _). by apply IH.
Qed.

(** Where a reader cuts the log does not show in the model: following one run batch by batch,
    each batch folded onto the model the previous one produced, ends in the same model, or fails with
    the same error, as folding the whole log at once. The log is in row order and creates each vertex
    once; batches may split a freeze from its vertices, or be empty. *)
Theorem console_reconnect runId version batches :
  seq_ordered (concat batches) -> Forall (fun e => 0 < run_seq e) (concat batches) -> NoDup (omap creates (concat batches)) ->
  follow (emptyConsoleDag runId version) batches = advance_model (emptyConsoleDag runId version) (concat batches).
Proof.
  intros Ho Hp Hn. destruct batches as [|b bs]; [done|]. apply follow_concat; [apply emptyConsoleDag_ok| |done]. by split.
Qed.
End Resume.

(** ** A recorded run, for concrete instances: a planner, the branch it froze, and its discard *)
Definition console_log : list StoredEvent :=
  [sample_event 1 run_start None [] None [];
   sample_event 2 vertex_created (Some "planner-1") [] None [("role", VStr "planner")];
   sample_event 3 vertex_started (Some "planner-1") [] None [];
   sample_event 4 subgraph_proposed None [] None [];
   sample_event 5 subgraph_frozen None [] None
     [("proposed_seq", VNum (Num.of_Z 4));
      ("vertices", VArr [VObj [("author_id", VStr "check"); ("vertex_id", VStr "tool-1"); ("role", VStr "tool")];
                         VObj [("author_id", VStr "junction"); ("vertex_id", VStr "router-1"); ("role", VStr "router")]])];
   sample_event 6 vertex_created (Some "tool-1") ["planner-1"] None [("role", VStr "tool"); ("tool", VStr "stock.check")];
   sample_event 7 vertex_created (Some "router-1") ["tool-1"] None [("role", VStr "router")];
   sample_event 8 vertex_started (Some "tool-1") [] None [];
   sample_event 9 vertex_succeeded (Some "tool-1") [] None [("result", VObj [])];
   sample_event 10 vertex_succeeded (Some "router-1") [] None [("matched_condition", VNull)];
   sample_event 11 budget_charged (Some "planner-1") [] None
     [("response_model", VStr "m"); ("usage", VObj [("input_tokens", VNum (Num.of_Z 7)); ("output_tokens", VNum (Num.of_Z 2))])];
   sample_event 12 subgraph_shadowed None [] None [("vertex_ids", VArr [VStr "tool-1"; VStr "router-1"]); ("reason", VStr "replanned")]].

(** The freeze is cut from the vertices it announced. *)
Definition console_batches : list (list StoredEvent) := [firstn 5 console_log; []; firstn 2 (skipn 5 console_log); skipn 7 console_log].

Lemma console_reconnect_witness :
  @follow code_unit_collation (emptyConsoleDag "r1" CONSOLE_PROJECTOR_VERSION) console_batches =
  @advance_model code_unit_collation (emptyConsoleDag "r1" CONSOLE_PROJECTOR_VERSION) (concat console_batches).
Proof.
  apply (console_reconnect "r1" CONSOLE_PROJECTOR_VERSION console_batches).
  - repeat constructor.
  - repeat constructor.
  - apply (bool_decide_unpack _). vm_compute. exact I.
Defined.

(** The run the witness folds, as an operator sees it. *)
Example console_log_seen :
  (fun m => map (fun v => (cv_vertex_id v, cv_label v, cv_depth v, cv_is_shadowed v, cv_in_planner_prompt v)) (md_vertices m)) <$>
    match @follow code_unit_collation (emptyConsoleDag "r1" CONSOLE_PROJECTOR_VERSION) console_batches with Ok m => Some m | Throw _ => None end =
  Some [("planner-1", VStr "planner-", 0, false, true); ("tool-1", VStr "check", 1, true, true); ("router-1", VStr "junction", 2, true, false)].
Proof. vm_compute. reflexivity. Qed.
