(* ===== verification/ConsoleSurface.v ===== *)
(** * Two readers of one log: the console's model and the planner's surface

    [surface] drops what a planner must not reason about; [consoleDag] keeps it, flagged. On a log
    whose discards name vertices already created, the two agree about which vertices are active and
    about what each of them is. *)

From S2P Require Import Prelude Collections Number Json Events Graph Projection Oracles Console ConsoleFacts.

(** ** What the two record of one vertex *)

Definition status_text (s : ConsoleStatus) : option string :=
  match s with
  | created_status => None
  | started_status => Some "started"
  | succeeded_status => Some "succeeded"
  | failed_status => Some "failed"
  | retried_status => Some "retried"
  end.

(** How the console names the role a vertex was created with; any other text, or none, is unknown to it. *)
Inductive reads_role : option string -> ConsoleRole -> Prop :=
| rr_planner : reads_role (Some "planner") planner_role
| rr_tool : reads_role (Some "tool") tool_role
| rr_router : reads_role (Some "router") router_role
| rr_barrier : reads_role (Some "confirmation-barrier") confirmation_barrier_role
| rr_unknown r : r ∉ [Some "planner"; Some "tool"; Some "router"; Some "confirmation-barrier"] -> reads_role r unknown_role.

Record same_vertex (v : ConsoleVertex) (x : SurfaceVertex) : Prop := {
  sm_id : cv_vertex_id v = sv_vertex_id x;
  sm_parents : cv_parent_refs v = sv_parent_refs x;
  sm_created : cv_created_seq v = sv_created_seq x;
  sm_role : reads_role (sv_role x) (cv_role v);
  sm_status : status_text (cv_status v) = sv_status x
}.

Lemma sm_router v x : same_vertex v x -> cv_role v = router_role <-> sv_role x = Some "router".
Proof. intros [_ _ _ Hr _]. inversion Hr as [| | | |r Hn E1 E2]; try (by split). split; [done|]. intros E. exfalso. apply Hn. rewrite E. by do 2 right; left. Qed.

(** The console's lines that the comparison reads. *)
Definition face (v : ConsoleVertex) :=
  (cv_vertex_id v, cv_parent_refs v, cv_created_seq v, cv_role v, cv_status v, cv_is_shadowed v, cv_in_planner_prompt v).
Definition face_line (p : string * ConsoleVertex) := (fst p, face (snd p)).

#[export] Instance face_line_blind : Blind face_line.
Proof. by split. Qed.

(** Lines that carry the key determine the lookups they are about. *)
Lemma line_get {C} (f : ConsoleVertex -> C) (m m' : list (string * ConsoleVertex)) id :
  map (fun p => (fst p, f (snd p))) m' = map (fun p => (fst p, f (snd p))) m ->
  f <$> JMap.get m' id = f <$> JMap.get m id.
Proof.
  revert m'; induction m as [|[k v] m IH]; intros [|[k' v'] m'] H; try done. cbn in H. injection H as -> Hf H.
  rewrite !get_cons. destruct (k ==? id); [cbn; by rewrite Hf|by apply IH].
Qed.

(** The routers a log creates. *)
Definition routes (e : StoredEvent) : option string := if pstr e "role" ==? Some "router" then creates e else None.

(** The vertices with an outcome in the log. *)
Definition outcome_of (e : StoredEvent) : option string := if is_type vertex_succeeded e || is_type vertex_failed e then vid e else None.

(** ** The two folds side by side *)
Section Side.
(** The routers of the log. *)
Variable routers : list string.

Record agree (outs : list string) (s : FoldState) (st : surface_state) : Prop := {
  ag_keys : JMap.keys (fs_vertices s) = JMap.keys (fst st);
  ag_NoDup : NoDup (JMap.keys (fst st));
  ag_ids : forall id v, JMap.get (fs_vertices s) id = Some v -> cv_vertex_id v = id;
  ag_same : forall id v x, JMap.get (fs_vertices s) id = Some v -> JMap.get (fst st) id = Some x -> same_vertex v x;
  ag_flag : forall id v, JMap.get (fs_vertices s) id = Some v -> cv_is_shadowed v = true <-> id ∈ snd st;
  ag_prompt : forall id v x, JMap.get (fs_vertices s) id = Some v -> JMap.get (fst st) id = Some x ->
    cv_in_planner_prompt v = rendered x /\ (sv_role x = Some "router" -> id ∉ outs -> sv_matched_condition x = None);
  ag_routers : forall id x, JMap.get (fst st) id = Some x -> sv_role x = Some "router" -> id ∈ routers;
  ag_shadowed : forall id, id ∈ snd st -> id ∈ JMap.keys (fst st)
}.

(** Only the faces of the vertices are read. *)
Lemma agree_face outs s s' st :
  map face_line (fs_vertices s') = map face_line (fs_vertices s) -> agree outs s st -> agree outs s' st.
Proof.
  intros Hf [K N I S F P R D].
  assert (forall id v', JMap.get (fs_vertices s') id = Some v' -> exists v, JMap.get (fs_vertices s) id = Some v /\ face v = face v') as Hg.
  { intros id v' Hv'. pose proof (line_get face _ _ id Hf) as Hl. rewrite Hv' in Hl. destruct (JMap.get (fs_vertices s) id) as [v|]; [|done].
    exists v. split; [done|]. cbn in Hl. congruence. }
  split; [|done|intros id v' Hv'|intros id v' x Hv' Hx|intros id v' Hv'|intros id v' x Hv' Hx|done|done].
  - rewrite <- K. unfold JMap.keys. assert (forall m, map fst m = map fst (map face_line m)) as Hm by (intros m; by rewrite map_map). by rewrite !Hm, Hf.
  - destruct (Hg _ _ Hv') as (v & Hv & E). injection E as E1 E2 E3 E4 E5 E6 E7. rewrite <- E1. by apply I.
  - destruct (Hg _ _ Hv') as (v & Hv & E). injection E as E1 E2 E3 E4 E5 E6 E7. destruct (S _ _ _ Hv Hx) as [H1 H2 H3 H4 H5].
    split; [congruence|congruence|congruence|by rewrite <- E4|by rewrite <- E5].
  - destruct (Hg _ _ Hv') as (v & Hv & E). injection E as E1 E2 E3 E4 E5 E6 E7. rewrite <- E6. by apply F.
  - destruct (Hg _ _ Hv') as (v & Hv & E). injection E as E1 E2 E3 E4 E5 E6 E7. rewrite <- E7. by apply P.
Qed.

(** *** A creation *)
Lemma create_vertices s e id : vid e = Some id -> fs_vertices (create s e) = JMap.set (fs_vertices s) id (new_vertex s e id).
Proof.
  intros Hv. unfold create. rewrite Hv. destruct (sid e) as [scope|]; [|done]. unfold ensureScope. cbn zeta.
  by destruct (JMap.get (fs_scopes (set_vertex s id _)) scope).
Qed.

Lemma vertexRole_router v : vertexRole v = router_role <-> Js.as_string v = Some "router".
Proof.
  destruct v as [| | | |s| |]; cbn; try done. split; [|by intros [= ->]]. repeat case_eqb; congruence.
Qed.

Lemma vertexRole_reads v : reads_role (Js.as_string v) (vertexRole v).
Proof.
  destruct v as [| | | |s| |]; try (by constructor; rewrite !not_elem_of_cons; split_and!; try done; apply not_elem_of_nil).
  cbn [Js.as_string vertexRole]. repeat case_eqb; subst; try constructor. rewrite !not_elem_of_cons. split_and!; try congruence. apply not_elem_of_nil.
Qed.

Lemma creation_prompt role : rendersInPlannerPrompt (Some (role_name role)) None = negb (role ==? router_role).
Proof. by destruct role. Qed.

Lemma agree_create outs s st e id : agree outs s st -> event_type e = vertex_created -> vid e = Some id -> id ∉ JMap.keys (fs_vertices s) ->
  (pstr e "role" = Some "router" -> id ∈ routers) ->
  agree outs (create s e) (createStep (fst st) e, snd st).
Proof.
  intros [K N I S F P R D] Ht Hv Hn Hrt. assert (id ∉ JMap.keys (fst st)) as Hn' by by rewrite <- K.
  assert (is_type vertex_created e = true) as Hty by by apply is_type_true.
  split; cbn [fst snd].
  - rewrite (create_vertices s e id Hv). unfold createStep. rewrite Hv, Hty, !keys_set_app.
    rewrite (proj2 (has_keys_false _ _) Hn), (proj2 (has_keys_false _ _) Hn'). by rewrite K.
  - unfold createStep. rewrite Hv, Hty. by apply NoDup_keys_set.
  - intros k v. rewrite (create_vertices s e id Hv), get_set. case_eqb; [|apply I]. subst k. by intros [= <-].
  - intros k v x. rewrite (create_vertices s e id Hv), get_set, get_createStep, Hty, Hv. cbn [andb]. destruct (decide (id = k)) as [<-|Hne].
    + rewrite !eqb_refl. intros [= <-] [= <-]. split; try done. apply vertexRole_reads.
    + rewrite (proj2 (eqb_false id k)), (proj2 (eqb_false (Some id) (Some k))) by congruence. apply S.
  - intros k v. rewrite (create_vertices s e id Hv), get_set. case_eqb; [|apply F]. subst k. intros [= <-]. cbn. split; [done|].
    intros Hs. by apply D in Hs.
  - intros k v x. rewrite (create_vertices s e id Hv), get_set, get_createStep, Hty, Hv. cbn [andb]. destruct (decide (id = k)) as [<-|Hne].
    + rewrite !eqb_refl. intros [= <-] [= <-]. split; [|done]. cbn [cv_in_planner_prompt new_vertex]. rewrite creation_prompt. unfold rendered, rendersInPlannerPrompt. cbn.
      rewrite orb_false_r. f_equal. unfold eqb at 1 2. apply bool_decide_ext. rewrite vertexRole_router. unfold pstr. split; congruence.
    + rewrite (proj2 (eqb_false id k)), (proj2 (eqb_false (Some id) (Some k))) by congruence. apply P.
  - intros k x. rewrite get_createStep, Hty, Hv. cbn [andb]. destruct (decide (id = k)) as [<-|Hne].
    + rewrite eqb_refl. intros [= <-]. exact Hrt.
    + rewrite (proj2 (eqb_false (Some id) (Some k))) by congruence. apply R.
  - intros k Hk. apply D in Hk. apply createStep_keys. by left.
Qed.

(** *** A discard *)
Definition mark (seq : Z) (v : ConsoleVertex) : ConsoleVertex := if cv_is_shadowed v then v else with_shadow v (true, Some seq).

Lemma flag_get seq s id k : JMap.get (fs_vertices (flag seq s id)) k = (if id ==? k then mark seq else fun v => v) <$> JMap.get (fs_vertices s) k.
Proof.
  unfold flag, mark. destruct (JMap.get (fs_vertices s) id) as [v|] eqn:Eg.
  - destruct (cv_is_shadowed v) eqn:Es; cbn [fs_vertices set_vertex]; [|rewrite get_set]; case_eqb; subst; rewrite ?Eg; cbn; rewrite ?Es; try done; by destruct (JMap.get _ k).
  - case_eqb; subst; rewrite ?Eg; [done|]. by destruct (JMap.get _ k).
Qed.

Lemma mark_mark seq v : mark seq (mark seq v) = mark seq v.
Proof. unfold mark. destruct (cv_is_shadowed v) eqn:E; [by rewrite E|done]. Qed.

Lemma flags_get seq hidden s k :
  JMap.get (fs_vertices (fold_left (flag seq) hidden s)) k = (if includes k hidden then mark seq else fun v => v) <$> JMap.get (fs_vertices s) k.
Proof.
  revert s; induction hidden as [|id hidden IH]; intros s; cbn [fold_left]; [by destruct (JMap.get _ k)|].
  rewrite IH, flag_get. unfold includes. cbn [existsb]. destruct (JMap.get (fs_vertices s) k) as [v|]; cbn; [|done].
  f_equal. destruct (id ==? k); cbn [orb]; destruct (existsb _ _); rewrite ?mark_mark; done.
Qed.

Lemma shadow_vertices s e : fs_vertices (shadow s e) = fs_vertices (fold_left (flag (run_seq e)) (hidden_by s e) s).
Proof.
  unfold shadow, replanFor. cbn zeta.
  by destruct (match pfield e "boundary_seq" with VUndef => None | _ => _ end : option (nat * ConsoleReplan)) as [[i r]|].
Qed.

Lemma shadow_keys s e : JMap.keys (fs_vertices (shadow s e)) = JMap.keys (fs_vertices s).
Proof. rewrite !place_keys. unfold places. f_equal. apply (keeps_shadow (run_seq e) s e). Qed.

Lemma elem_of_hidden s e id : id ∈ hidden_by s e <-> id ∈ pstrings e "vertex_ids" \/
    exists n k v, VNum n ∈ match pfield e "vertex_seqs" with VArr l => l | _ => [] end /\
                  (k, v) ∈ fs_vertices s /\ Num.eq (Num.of_Z (cv_created_seq v)) n = true /\ cv_vertex_id v = id.
Proof.
  unfold hidden_by. rewrite elem_of_addAll, elem_of_JSet_of_list. apply or_iff_compat_l. rewrite elem_of_map. split.
  - intros (v & -> & [Hv Hn]%elem_of_filter_by). apply existsb_true in Hn as (n & Hn & Heq). apply elem_of_map in Hv as ([k w] & -> & Hw).
    exists n, k, w. split_and!; [|done..]. destruct (pfield e "vertex_seqs") as [| | | | |l|]; try (by apply elem_of_nil in Hn).
    apply list_elem_of_omap in Hn as (q & Hq & E). destruct q; try done. by injection E as ->.
  - intros (n & k & v & Hn & Hv & Heq & <-). exists v. split; [done|]. apply elem_of_filter_by. split; [apply elem_of_map; by exists (k, v)|].
    apply existsb_true. exists n. split; [|done]. destruct (pfield e "vertex_seqs") as [| | | | |l|]; try (by apply elem_of_nil in Hn).
    apply list_elem_of_omap. by exists (VNum n).
Qed.

Lemma agree_lookup outs s st id v : agree outs s st -> JMap.get (fs_vertices s) id = Some v ->
  exists x, JMap.get (fst st) id = Some x /\ same_vertex v x.
Proof.
  intros [K _ _ S _ _ _ _] Hv. assert (is_Some (JMap.get (fst st) id)) as [x Hx].
  { apply get_is_Some. rewrite <- K. by apply get_is_Some; exists v. }
  exists x. split; [done|]. by eapply S.
Qed.

Lemma agree_lookup_back outs s st id x : agree outs s st -> JMap.get (fst st) id = Some x ->
  exists v, JMap.get (fs_vertices s) id = Some v /\ same_vertex v x.
Proof.
  intros [K _ _ S _ _ _ _] Hx. assert (is_Some (JMap.get (fs_vertices s) id)) as [v Hv].
  { apply get_is_Some. rewrite K. by apply get_is_Some; exists x. }
  exists v. split; [done|]. by eapply S.
Qed.

(** What one discard hides is what the other does. *)
Lemma hidden_agree outs s st e sh' id : agree outs s st -> is_type subgraph_shadowed e = true -> shadowStep (fst st) (snd st) e = Ok sh' ->
  id ∈ sh' <-> id ∈ snd st \/ id ∈ hidden_by s e.
Proof.
  intros Ha Ht Hs. rewrite (elem_of_shadowStep _ _ _ _ _ Ht Hs), elem_of_hidden. apply or_iff_compat_l, or_iff_compat_l.
  pose proof Ha as [K N I _ _ _ _ _]. split; intros (n & k & y & Hn & Hy & Heq & <-); exists n, k.
  - destruct (agree_lookup_back _ _ _ k y Ha) as (v & Hv & Hsm); [by apply get_elem|].
    exists v. rewrite (sm_created _ _ Hsm), (sm_id _ _ Hsm). split_and!; [done|by apply get_Some_elem|done..].
  - destruct (agree_lookup _ _ _ k y Ha) as (x & Hx & Hsm); [apply get_elem; [by rewrite K|done]|].
    exists x. rewrite <- (sm_created _ _ Hsm), <- (sm_id _ _ Hsm). split_and!; [done|by apply get_Some_elem|done..].
Qed.

Lemma agree_shadow outs s st e sh' : agree outs s st -> is_type subgraph_shadowed e = true ->
  (forall id, id ∈ pstrings e "vertex_ids" -> id ∈ JMap.keys (fs_vertices s)) ->
  shadowStep (fst st) (snd st) e = Ok sh' -> agree outs (shadow s e) (fst st, sh').
Proof.
  intros Ha Ht Hn Hs. pose proof (fun id => hidden_agree _ _ _ _ _ id Ha Ht Hs) as Hh. pose proof Ha as [K N I S F P R D].
  assert (forall id v', JMap.get (fs_vertices (shadow s e)) id = Some v' -> exists v, JMap.get (fs_vertices s) id = Some v /\
            v' = (if includes id (hidden_by s e) then mark (run_seq e) v else v)) as Hg.
  { intros id v'. rewrite shadow_vertices, flags_get. destruct (JMap.get (fs_vertices s) id) as [v|]; [|done]. cbn. intros [= <-].
    exists v. split; [done|]. by destruct (includes _ _). }
  assert (forall q v, face (if q : bool then mark (run_seq e) v else v) =
            (cv_vertex_id v, cv_parent_refs v, cv_created_seq v, cv_role v, cv_status v, q || cv_is_shadowed v, cv_in_planner_prompt v)) as Hface.
  { intros [] v; [|done]. unfold mark, face. destruct (cv_is_shadowed v) eqn:Es; cbn; by rewrite ?Es. }
  split; cbn [fst snd].
  - by rewrite shadow_keys.
  - done.
  - intros id v' (v & Hv & ->)%Hg. pose proof (Hface (includes id (hidden_by s e)) v) as E. injection E as E1 _ _ _ _ _ _. rewrite E1. by apply I.
  - intros id v' x (v & Hv & ->)%Hg Hx. destruct (S _ _ _ Hv Hx) as [H1 H2 H3 H4 H5].
    pose proof (Hface (includes id (hidden_by s e)) v) as E. injection E as E1 E2 E3 E4 E5 _ _. split; [congruence|congruence|congruence|by rewrite E4|by rewrite E5].
  - intros id v' (v & Hv & ->)%Hg. pose proof (Hface (includes id (hidden_by s e)) v) as E. injection E as _ _ _ _ _ E6 _. rewrite E6, Hh, orb_true_iff, includes_true, (F _ _ Hv). tauto.
  - intros id v' x (v & Hv & ->)%Hg Hx. pose proof (Hface (includes id (hidden_by s e)) v) as E. injection E as _ _ _ _ _ _ E7. rewrite E7. by eapply P.
  - exact R.
  - intros id [Hid|Hid]%Hh; [by apply D|]. rewrite <- K. apply elem_of_hidden in Hid as [Hid|(n & k & v & _ & Hv & _ & <-)]; [by apply Hn|].
    assert (JMap.get (fs_vertices s) k = Some v) as Hv' by (apply get_elem; [by rewrite K|done]). rewrite (I _ _ Hv'). apply get_is_Some. by exists v.
Qed.

(** *** A change of status *)
Lemma change_vertex_get s named f k :
  JMap.get (fs_vertices (change_vertex s named f)) k = (if named ==? Some k then f else fun v => v) <$> JMap.get (fs_vertices s) k.
Proof.
  unfold change_vertex. destruct named as [id|]; [|cbn; by destruct (JMap.get _ k)].
  assert ((Some id ==? Some k) = (id ==? k)) as -> by (unfold eqb; apply bool_decide_ext; split; congruence).
  destruct (JMap.get (fs_vertices s) id) as [v|] eqn:Eg.
  - rewrite (al_vertices _ _ (touch_alike _ _)). cbn [fs_vertices set_vertex]. rewrite get_set. case_eqb; subst; [by rewrite Eg|by destruct (JMap.get _ k)].
  - case_eqb; subst; [by rewrite Eg|by destruct (JMap.get _ k)].
Qed.

Definition status_change (e : StoredEvent) (x : SurfaceVertex) : SurfaceVertex :=
  {| sv_vertex_id := sv_vertex_id x; sv_parent_refs := sv_parent_refs x; sv_role := sv_role x;
     sv_tool := sv_tool x; sv_parameters := sv_parameters x;
     sv_result := if is_type vertex_succeeded e then Some (pfield e "result") else sv_result x;
     sv_status := Some (drop_str 7 (event_name (event_type e)));
     sv_matched_condition := if is_type vertex_succeeded e && Js.has_field (payload e) "matched_condition"
                             then Some (pstr e "matched_condition") else sv_matched_condition x;
     sv_created_seq := sv_created_seq x |}.

Lemma statusStep_get vs e k : JMap.get (statusStep vs e) k = (if status_of k e then status_change e else fun x => x) <$> JMap.get vs k.
Proof.
  unfold statusStep, status_of. destruct (vid e) as [id|]; [|by destruct (JMap.get vs k)].
  assert ((Some id ==? Some k) = (id ==? k)) as -> by (unfold eqb; apply bool_decide_ext; split; congruence).
  destruct (includes (event_type e) _); [rewrite andb_true_r|rewrite andb_false_r; by destruct (JMap.get vs k)].
  destruct (JMap.get vs id) as [x|] eqn:Eg; [rewrite get_set|]; case_eqb; subst; rewrite ?Eg; try done; by destruct (JMap.get vs k).
Qed.

(** A lookup in the fold, and what the event did to it. *)
Lemma pfield_absent e k : Js.has_field (payload e) k = false -> pfield e k = VUndef.
Proof. unfold Js.has_field, pfield, Js.field. rewrite has_get. by destruct (JMap.get (payload e) k). Qed.

Lemma lifecycle_same e v x : includes (event_type e) [vertex_started; vertex_succeeded; vertex_failed; vertex_retried] = true ->
  same_vertex v x -> same_vertex (lifecycle_vertex e v) (status_change e x).
Proof.
  intros Hl [H1 H2 H3 H4 H5]. split; try done. unfold status_change. cbn [sv_status lifecycle_vertex with_dynamic cv_status].
  apply includes_true in Hl. rewrite !elem_of_cons, elem_of_nil in Hl. by destruct Hl as [->|[->|[->|[->|[]]]]].
Qed.

Lemma lifecycle_prompt e v x : includes (event_type e) [vertex_started; vertex_succeeded; vertex_failed; vertex_retried] = true ->
  same_vertex v x -> cv_in_planner_prompt v = rendered x ->
  ((is_type vertex_succeeded e || is_type vertex_failed e) = true -> sv_role x = Some "router" -> sv_matched_condition x = None) ->
  cv_in_planner_prompt (lifecycle_vertex e v) = rendered (status_change e x) /\
  ((is_type vertex_succeeded e || is_type vertex_failed e) = false -> sv_matched_condition (status_change e x) = sv_matched_condition x).
Proof.
  intros Hl Hsm Hp Hm. pose proof (sm_router _ _ Hsm) as Hr.
  unfold lifecycle_vertex, rendered, rendersInPlannerPrompt, status_change in *. cbn [cv_in_planner_prompt with_dynamic sv_role sv_matched_condition].
  assert ((cv_role v ==? router_role) = (sv_role x ==? Some "router")) as -> by (unfold eqb; by apply bool_decide_ext).
  unfold is_type in *. apply includes_true in Hl. rewrite !elem_of_cons, elem_of_nil in Hl. destruct Hl as [E|[E|[E|[E|[]]]]]; rewrite E in *; cbn in *.
  - rewrite andb_false_r. done.
  - rewrite andb_true_r. specialize (Hm eq_refl). split; [|done]. destruct (sv_role x ==? Some "router") eqn:Er; cbn; [|by rewrite Hp].
    apply eqb_true_1 in Er. unfold routerOutcome. destruct (Js.has_field (payload e) "matched_condition") eqn:Ef.
    + unfold pstr. by destruct (pfield e "matched_condition").
    + rewrite (pfield_absent _ _ Ef), (Hm Er). done.
  - rewrite andb_true_r. specialize (Hm eq_refl). split; [|done]. destruct (sv_role x ==? Some "router") eqn:Er; cbn; [|by rewrite Hp].
    apply eqb_true_1 in Er. rewrite (Hm Er). unfold routerOutcome. by destruct (Js.strict_eq _ _).
  - rewrite andb_false_r. done.
Qed.

Lemma agree_status outs s st e : agree outs s st ->
  includes (event_type e) [vertex_started; vertex_succeeded; vertex_failed; vertex_retried] = true ->
  (forall id, outcome_of e = Some id -> id ∈ routers -> id ∉ outs) ->
  agree (outs ++ option_list (outcome_of e)) (lifecycle s e) (statusStep (fst st) e, snd st).
Proof.
  intros Ha Hl Ho. pose proof Ha as [K N I S F P R D]. unfold lifecycle.
  assert (forall k, status_of k e = (vid e ==? Some k)) as Hst by (intros k; unfold status_of; by rewrite Hl, andb_true_r).
  assert (forall k v', JMap.get (fs_vertices (change_vertex s (vid e) (lifecycle_vertex e))) k = Some v' ->
            exists v, JMap.get (fs_vertices s) k = Some v /\ v' = if vid e ==? Some k then lifecycle_vertex e v else v) as Hv.
  { intros k v'. rewrite change_vertex_get. destruct (JMap.get (fs_vertices s) k) as [v|]; [|done]. cbn. intros [= <-]. exists v. split; [done|]. by destruct (_ ==? _). }
  assert (forall k x', JMap.get (statusStep (fst st) e) k = Some x' ->
            exists x, JMap.get (fst st) k = Some x /\ x' = if vid e ==? Some k then status_change e x else x) as Hx.
  { intros k x'. rewrite statusStep_get, Hst. destruct (JMap.get (fst st) k) as [x|]; [|done]. cbn. intros [= <-]. exists x. split; [done|]. by destruct (_ ==? _). }
  split; cbn [fst snd].
  - rewrite statusStep_keys, <- K, !place_keys. unfold places. f_equal.
    apply (keeps_places (run_seq e) s (change_vertex s (vid e) (lifecycle_vertex e))). by apply steady_change_vertex.
  - by rewrite statusStep_keys.
  - intros id v' (v & Hg & ->)%Hv. case_eqb; exact (I _ _ Hg).
  - intros id v' x' (v & Hg & ->)%Hv (x & Hg' & ->)%Hx. case_eqb; [apply lifecycle_same; [done|]|]; by eapply S.
  - intros id v' (v & Hg & ->)%Hv. rewrite <- (F _ _ Hg). by case_eqb.
  - intros id v' x' (v & Hg & ->)%Hv (x & Hg' & ->)%Hx. destruct (P _ _ _ Hg Hg') as [Hp Hm]. case_eqb.
    + assert (is_type vertex_succeeded e || is_type vertex_failed e = true -> outcome_of e = Some id) as Hoc by (unfold outcome_of; by intros ->).
      destruct (lifecycle_prompt e v x) as [H1 H2]; [done|by eapply S|done| |].
      * intros Hq%Hoc Hrx. apply Hm; [done|]. apply Ho; [done|by eapply R].
      * split; [done|]. rewrite elem_of_app. intros Hrx Hn. destruct (is_type vertex_succeeded e || is_type vertex_failed e).
        -- exfalso. apply Hn. right. rewrite (Hoc eq_refl). cbn. apply list_elem_of_here.
        -- rewrite H2 by done. apply Hm; [exact Hrx|]. intros Hi. apply Hn. by left.
    + split; [done|]. intros Hrx Hn. apply Hm; [exact Hrx|]. intros Hi. apply Hn, elem_of_app. by left.
  - intros id x' (x & Hg' & ->)%Hx Hrx. apply (R _ _ Hg'). by destruct (_ ==? _).
  - intros id Hid. rewrite statusStep_keys. by apply D.
Qed.

(** *** One event, and a whole log *)
Lemma createStep_other vs e : event_type e <> vertex_created -> createStep vs e = vs.
Proof. intros Hc. unfold createStep, is_type. rewrite (proj2 (eqb_false _ _) Hc). by destruct (vid e). Qed.

Lemma shadowStep_other vs sh e : event_type e <> subgraph_shadowed -> shadowStep vs sh e = Ok sh.
Proof. intros Hs. unfold shadowStep, is_type. by rewrite (proj2 (eqb_false _ _) Hs). Qed.

Lemma statusStep_other vs e : includes (event_type e) [vertex_started; vertex_succeeded; vertex_failed; vertex_retried] = false -> statusStep vs e = vs.
Proof. intros Hl. unfold statusStep. rewrite Hl. by destruct (vid e). Qed.

Lemma surface_other st e : event_type e <> vertex_created -> event_type e <> subgraph_shadowed ->
  includes (event_type e) [vertex_started; vertex_succeeded; vertex_failed; vertex_retried] = false -> surfaceStep st e = Ok st.
Proof.
  intros Hc Hs Hl. destruct st as [vs sh]. unfold surfaceStep. rewrite createStep_other, shadowStep_other by done. cbn. by rewrite statusStep_other.
Qed.

Lemma outcome_status e : includes (event_type e) [vertex_started; vertex_succeeded; vertex_failed; vertex_retried] = false -> outcome_of e = None.
Proof. intros Hl. unfold outcome_of, is_type. by destruct (event_type e). Qed.

Lemma agree_step outs s st e s' st' : agree outs s st -> (forall id, creates e = Some id -> id ∉ JMap.keys (fs_vertices s)) ->
  (event_type e = subgraph_shadowed -> forall id, id ∈ pstrings e "vertex_ids" -> id ∈ JMap.keys (fs_vertices s)) ->
  (forall id, outcome_of e = Some id -> id ∈ routers -> id ∉ outs) -> (forall id, routes e = Some id -> id ∈ routers) ->
  apply s e = Ok s' -> surfaceStep st e = Ok st' -> agree (outs ++ option_list (outcome_of e)) s' st'.
Proof.
  intros Ha Hc Hs Ho Hro Hap Hst. apply apply_ok in Hap as [[Hk ->]|[_ Hd]].
  { assert (includes (event_type e) [vertex_started; vertex_succeeded; vertex_failed; vertex_retried] = false) as Hl by by destruct (event_type e).
    rewrite surface_other in Hst by (done || by intros E; rewrite E in Hk). apply Ok_inj in Hst as <-. by rewrite outcome_status, app_nil_r. }
  apply (agree_face _ _ (arrive s e)) in Ha; [|done]. revert Ha Hc Hs. change (fs_vertices s) with (fs_vertices (arrive s e)).
  generalize (arrive s e) as s1, Hd. clear s Hd. intros s Hd Ha Hc Hs. unfold dispatch in Hd. destruct st as [vs sh].
  destruct (decide (event_type e = vertex_created)) as [E|Nc].
  { unfold surfaceStep in Hst. rewrite shadowStep_other in Hst by congruence. cbn in Hst. rewrite statusStep_other in Hst by by rewrite E.
    rewrite outcome_status, app_nil_r by by rewrite E. rewrite E in Hd. apply Ok_inj in Hd as <-. apply Ok_inj in Hst as <-.
    unfold creates, is_type in Hc. rewrite E in Hc. cbn in Hc. destruct (vid e) as [id|] eqn:Ev.
    - apply (agree_create outs s (vs, sh) e id); auto. intros Er. apply Hro. unfold routes, creates, is_type. by rewrite E, Er, Ev.
    - unfold create, createStep. by rewrite Ev. }
  destruct (decide (event_type e = subgraph_shadowed)) as [E|Ns].
  { unfold surfaceStep in Hst. cbn in Hst. rewrite createStep_other in Hst by done. inv_bind. subst st'. rewrite statusStep_other by by rewrite E.
    rewrite outcome_status, app_nil_r by by rewrite E. rewrite E in Hd. apply Ok_inj in Hd as <-.
    apply (agree_shadow outs s (vs, sh)); auto. by apply is_type_true. }
  destruct (includes (event_type e) [vertex_started; vertex_succeeded; vertex_failed; vertex_retried]) eqn:Hl.
  - unfold surfaceStep in Hst. rewrite createStep_other, shadowStep_other in Hst by done. apply Ok_inj in Hst as <-. cbn [fst snd].
    assert (lifecycle s e = s') as <-. { by destruct (event_type e); try done; apply Ok_inj in Hd. }
    by apply (agree_status outs s (vs, sh)).
  - rewrite surface_other in Hst by done. apply Ok_inj in Hst as <-. rewrite outcome_status, app_nil_r by done.
    eapply agree_face; [|exact Ha]. by eapply (steady_other (line := face_line)).
Qed.

(** Discards name vertices the log has created. *)
Definition discards_known (events : list StoredEvent) : Prop :=
  forall pre e post, events = pre ++ e :: post -> event_type e = subgraph_shadowed -> forall id, id ∈ pstrings e "vertex_ids" -> id ∈ omap creates pre.

Lemma omap_cons_list {A B} (f : A -> option B) x l : omap f (x :: l) = option_list (f x) ++ omap f l.
Proof. cbn. by destruct (f x). Qed.

Lemma apply_keys s e s' : (forall id, creates e = Some id -> id ∉ JMap.keys (fs_vertices s)) -> apply s e = Ok s' ->
  JMap.keys (fs_vertices s') = JMap.keys (fs_vertices s) ++ option_list (creates e).
Proof.
  intros Hf Ha. apply apply_ok in Ha as [[Hk ->]|[_ Hd]].
  - rewrite creates_other; [by rewrite app_nil_r|]. intros Ht%known_created. congruence.
  - destruct (dispatch_effect (arrive s e) e s' Hf Hd) as [Ep _ _ _ _]. rewrite !place_keys, Ep, map_app, map_map. cbn. by rewrite map_id.
Qed.

Lemma agree_fold outs s st events s' st' : agree outs s st ->
  NoDup (JMap.keys (fs_vertices s) ++ omap creates events) ->
  (forall pre e post id, events = pre ++ e :: post -> outcome_of e = Some id -> id ∈ routers -> id ∉ outs ++ omap outcome_of pre) ->
  (forall id, id ∈ omap routes events -> id ∈ routers) ->
  (forall pre e post, events = pre ++ e :: post -> event_type e = subgraph_shadowed ->
     forall id, id ∈ pstrings e "vertex_ids" -> id ∈ JMap.keys (fs_vertices s) ++ omap creates pre) ->
  foldM apply s events = Ok s' -> foldM surfaceStep st events = Ok st' -> agree (outs ++ omap outcome_of events) s' st'.
Proof.
  revert outs s st; induction events as [|e events IH]; intros outs s st Ha Hc Ho Hro Hd Hs Hst; cbn [foldM] in *.
  { apply Ok_inj in Hs as <-, Hst as <-. by rewrite app_nil_r. }
  inv_bind. rewrite omap_cons_list in Hc, Hro |- *. rewrite app_assoc in Hc |- *.
  assert (forall id, creates e = Some id -> id ∉ JMap.keys (fs_vertices s)) as Hf.
  { intros id E Hin. rewrite E in Hc. apply NoDup_app in Hc as [Hc _]. apply NoDup_app in Hc as (_ & Hc & _). apply (Hc id Hin). apply list_elem_of_here. }
  apply (IH _ x0 x); [|by erewrite apply_keys| | | |done|done].
  - eapply agree_step; eauto.
    + intros Ht id Hid. specialize (Hd [] e events eq_refl Ht id Hid). cbn in Hd. by rewrite app_nil_r in Hd.
    + intros id E Hin. specialize (Ho [] e events id eq_refl E Hin). cbn in Ho. by rewrite app_nil_r in Ho.
    + intros id E. apply Hro, elem_of_app. left. rewrite E. apply list_elem_of_here.
  - intros pre e' post id -> E Hin. rewrite <- app_assoc, <- omap_cons_list. by eapply (Ho (e :: pre)).
  - intros id Hin. apply Hro, elem_of_app. by right.
  - intros pre e' post -> Ht id Hid. erewrite apply_keys by done. rewrite <- app_assoc, <- omap_cons_list. by eapply (Hd (e :: pre)).
Qed.
End Side.

(** ** The readings compared *)
Section Compare.
Context `{Collation}.

(** Logs both readers take whole: positions a number holds exactly, each vertex created once, a router
    settled at most once (tools and planners may fail, be retried and succeed), discards of what exists. *)
Record plain_log (events : list StoredEvent) : Prop := {
  pl_positions : Forall (fun e => 0 <= run_seq e < 2 ^ 53) events;
  pl_created : NoDup (omap creates events);
  pl_settled : NoDup (filter_by (fun id => includes id (omap routes events)) (omap outcome_of events));
  pl_discards : discards_known events
}.

Lemma start_agree routers runId version : agree routers [] (start (emptyConsoleDag runId version)) ([], []).
Proof. split; cbn; try done. constructor. Qed.

(** Both folds of a plain log, from their beginnings. *)
Lemma plain_folds events view m : plain_log events -> surface events = Ok view -> consoleDag_now events = Ok m ->
  exists s st, agree (omap routes events) (omap outcome_of events) s st /\ md_vertices m = js_sort by_creation (JMap.values (fs_vertices s)) /\
               sf_vertices view = fold_left JMap.delete (snd st) (fst st) /\
               foldM apply (start (emptyConsoleDag (match events with e :: _ => run_id e | [] => "" end) CONSOLE_PROJECTOR_VERSION)) events = Ok s.
Proof.
  intros [Hp Hc Ho Hd] Hs Hm. unfold surface, surface_at in Hs. unfold consoleDag_now, consoleDag, advanceConsoleDag in Hm. inv_bind. subst m view.
  rewrite filter_by_all in *.
  2, 3, 4: eapply Forall_impl; [exact Hp|]; cbn; intros e He; rewrite ?of_Z_le by (unfold MAX_SAFE_INTEGER; lia); apply Z.leb_le; unfold MAX_SAFE_INTEGER; lia.
  subst x. exists x0, x2. split_and!; [|done..].
  eapply (agree_fold _ []); [apply start_agree|done| |done|done|done|done].
  intros pre e post id Hev E Hin. cbn [app]. intros Hpre.
  assert (omap outcome_of events = omap outcome_of pre ++ [id] ++ omap outcome_of post) as Hom by (rewrite Hev, omap_app, omap_cons_list, E; done).
  rewrite Hom, !filter_by_app in Ho. apply NoDup_app in Ho as (_ & Ho & _). rewrite <- includes_true in Hin.
  apply (Ho id); [apply elem_of_filter_by; by split|]. apply elem_of_app. left. apply elem_of_filter_by. split; [apply list_elem_of_here|done].
Qed.

(** The vertices a step shows are the ones it holds under their ids. *)
Lemma shown_vertices routers outs s st : agree routers outs s st ->
  forall v, v ∈ js_sort by_creation (JMap.values (fs_vertices s)) <-> JMap.get (fs_vertices s) (cv_vertex_id v) = Some v.
Proof.
  intros [K N I _ _ _ _ _] v. rewrite elem_of_js_sort. unfold JMap.values. rewrite elem_of_map. split.
  - intros ([k w] & -> & Hw). assert (JMap.get (fs_vertices s) k = Some w) as Hg by (apply get_elem; [by rewrite K|done]). cbn. by rewrite (I _ _ Hg).
  - intros Hg. apply get_Some_elem in Hg. exists (cv_vertex_id v, v). by split.
Qed.

(** C18. The operator's canvas and the planner's surface disagree about retention and agree about
    membership: over one log, the vertices the console shows as active are exactly those of the
    surface, and each is the same vertex to both readers: its parents, its position, its role (planner,
    tool, router, confirmation barrier, or none of these), its status, and whether it renders into a
    downstream planner's prompt. The log creates each vertex once, settles each router at most once,
    discards only what it has created, and its positions are below 2^53. *)
Theorem console_surface_agree events view m :
  plain_log events -> surface events = Ok view -> consoleDag_now events = Ok m ->
  (forall id, id ∈ JMap.keys (sf_vertices view) <-> exists v, v ∈ md_vertices m /\ cv_vertex_id v = id /\ cv_is_shadowed v = false) /\
  (forall v x, v ∈ md_vertices m -> JMap.get (sf_vertices view) (cv_vertex_id v) = Some x ->
     same_vertex v x /\ cv_in_planner_prompt v = rendered x).
Proof.
  intros Hp Hs Hm. destruct (plain_folds _ _ _ Hp Hs Hm) as (s & st & Ha & -> & -> & _). pose proof Ha as [K N I S F P R D].
  pose proof (shown_vertices _ _ _ _ Ha) as Hin.
  split.
  - intros id. rewrite <- get_is_Some, get_delete_all. split.
    + destruct (includes id (snd st)) eqn:Ei; [by intros [? ?]|]. intros [x Hx]. destruct (agree_lookup_back _ _ _ _ _ _ Ha Hx) as (v & Hv & _).
      pose proof (I _ _ Hv) as <-. exists v. split_and!; [by apply Hin|done|]. apply not_true_iff_false. rewrite (F _ _ Hv). by apply includes_false.
    + intros (v & Hv & <- & Hf). apply Hin in Hv. destruct (agree_lookup _ _ _ _ _ _ Ha Hv) as (x & Hx & _).
      rewrite (proj2 (includes_false _ _)); [by exists x|]. rewrite <- (F _ _ Hv), Hf. done.
  - intros v x Hv%Hin. rewrite get_delete_all. destruct (includes _ _); [done|]. intros Hx. split; [by eapply S|]. by destruct (P _ _ _ Hv Hx).
Qed.

(** ** A router that fell through *)

Definition outcome_line (p : string * ConsoleVertex) := (fst p, (cv_router_outcome (snd p), cv_in_planner_prompt (snd p))).

#[local] Instance outcome_line_blind : Blind outcome_line.
Proof. by split. Qed.

Definition fell_hidden (v : ConsoleVertex) : Prop := cv_router_outcome v = Some fell_through -> cv_in_planner_prompt v = false.

Lemma lifecycle_fell e v : fell_hidden v -> fell_hidden (lifecycle_vertex e v).
Proof.
  unfold fell_hidden, lifecycle_vertex. cbn [cv_router_outcome cv_in_planner_prompt with_dynamic].
  destruct ((cv_role v ==? router_role) && _); [|done]. intros _ [= ->]. done.
Qed.

Lemma fold_fell s events s' : foldM apply s events = Ok s' ->
  (forall id v, JMap.get (fs_vertices s) id = Some v -> fell_hidden v) -> forall id v, JMap.get (fs_vertices s') id = Some v -> fell_hidden v.
Proof.
  intros Hf Hs. revert Hf. apply (foldM_inv (fun s => forall id v, JMap.get (fs_vertices s) id = Some v -> fell_hidden v)); [exact Hs|].
  clear. intros s e s' _ Hs Ha. apply apply_ok in Ha as [[_ ->]|[_ Hd]]; [done|].
  change (fs_vertices s) with (fs_vertices (arrive s e)) in Hs. revert Hd Hs. generalize (arrive s e). clear s. intros s Hd Hs id v.
  destruct (decide (event_type e = vertex_created)) as [E|Nc].
  { unfold dispatch in Hd. rewrite E in Hd. apply Ok_inj in Hd as <-. destruct (vid e) as [w|] eqn:Ev.
    - rewrite (create_vertices s e w Ev), get_set. case_eqb; [|apply Hs]. intros [= <-]. unfold fell_hidden. cbn. by case_eqb.
    - unfold create. rewrite Ev. apply Hs. }
  destruct (decide (event_type e = subgraph_shadowed)) as [E|Ns].
  { unfold dispatch in Hd. rewrite E in Hd. apply Ok_inj in Hd as <-. rewrite shadow_vertices, flags_get.
    destruct (JMap.get (fs_vertices s) id) as [w|] eqn:Eg; [|done]. intros [= <-]. apply Hs in Eg. destruct (includes _ _); [|done]. unfold mark. by destruct (cv_is_shadowed w). }
  destruct (includes (event_type e) [vertex_started; vertex_succeeded; vertex_failed; vertex_retried]) eqn:Hl.
  - assert (lifecycle s e = s') as <-. { unfold dispatch in Hd. by destruct (event_type e); try done; apply Ok_inj in Hd. }
    unfold lifecycle. rewrite change_vertex_get. destruct (JMap.get (fs_vertices s) id) as [w|] eqn:Eg; [|done]. intros [= <-]. apply Hs in Eg.
    case_eqb; [by apply lifecycle_fell|done].
  - intros Hg. pose proof (sd_outline _ _ _ _ (steady_other (line := outcome_line) s e s' Nc Ns Hl Hd)) as Hline.
    apply (line_get (fun v => (cv_router_outcome v, cv_in_planner_prompt v)) _ _ id) in Hline. rewrite Hg in Hline.
    destruct (JMap.get (fs_vertices s) id) as [w|] eqn:Eg; [|done]. injection Hline as E1 E2. unfold fell_hidden. rewrite E1, E2. by apply (Hs id).
Qed.

(** The console's own oracle holds of every plain log: wherever it gives an answer for a router
    that fell through and was not discarded, the canvas carries the router, the planner's prompt does
    not, and the oracle passes. *)
Theorem visibility_oracle_passes events view r p res m v :
  plain_log events -> surface events = Ok view -> consoleDag_now events = Ok m ->
  v ∈ md_vertices m -> cv_vertex_id v = r -> cv_router_outcome v = Some fell_through -> cv_is_shadowed v = false ->
  consoleRouterVisibility events r p = Ok res -> res = pass "O4.console_router_visibility".
Proof.
  intros Hp Hs Hm Hv <- Hfell Hsh Hres. destruct (plain_folds _ _ _ Hp Hs Hm) as (s & st & Ha & Ems & Evs & Hf). pose proof (shown_vertices _ _ _ _ Ha) as Hin.
  rewrite <- Ems in Hin. apply Hin in Hv as Hg.
  assert (fell_hidden v) as Hhid by (eapply (fold_fell _ _ _ Hf); [done|exact Hg]).
  unfold consoleRouterVisibility in Hres. rewrite Hm, Hs in Hres. cbn [mbind result_bind] in Hres.
  destruct (find _ (md_vertices m)) as [router|] eqn:Ef.
  2: { pose proof (List.find_none _ _ Ef v ltac:(by apply list_elem_of_In)) as Hn. cbn in Hn. by rewrite eqb_refl in Hn. }
  apply List.find_some in Ef as [Hr%list_elem_of_In Hid%eqb_true_1]. apply Hin in Hr. rewrite Hid, Hg in Hr. injection Hr as <-.
  rewrite Hfell, Hsh, (Hhid Hfell) in Hres. cbn [outcome_kind] in Hres. rewrite eqb_refl in Hres. cbn [negb] in Hres. inv_bind. rename x into relevant.
  destruct (find _ (linearize relevant)) as [item|] eqn:Ei; [|by apply Ok_inj in Hres as <-]. exfalso.
  apply List.find_some in Ei as [Hi%list_elem_of_In Hid'%eqb_true_1]. unfold linearize in Hi. apply elem_of_map in Hi as (x & -> & Hx).
  apply elem_of_js_sort, elem_of_filter_by in Hx as [Hx Hrend].
  assert (exists id, JMap.get (fst st) id = Some x) as [id Hgx].
  { unfold slice in H0. destruct (negb _); [done|]. apply Ok_inj in H0 as <-. apply elem_of_js_sort, list_elem_of_omap in Hx as (id & _ & Hget).
    rewrite Evs, get_delete_all in Hget. destruct (includes _ _); [done|]. by exists id. }
  destruct (agree_lookup_back _ _ _ _ _ _ Ha Hgx) as (w & Hgw & Hsm). pose proof (ag_ids _ _ _ _ Ha _ _ Hgw) as Hw.
  cbn in Hid'. rewrite <- (sm_id _ _ Hsm), Hw in Hid'. subst id. rewrite Hg in Hgw. injection Hgw as <-.
  destruct (ag_prompt _ _ _ _ Ha _ _ _ Hg Hgx) as [Hpr _]. rewrite (Hhid Hfell) in Hpr. congruence.
Qed.
End Compare.

(** ** Concrete instances *)

Lemma console_log_plain : plain_log console_log.
Proof.
  split.
  - apply (bool_decide_unpack _). vm_compute. exact I.
  - apply (bool_decide_unpack _). vm_compute. exact I.
  - apply (bool_decide_unpack _). vm_compute. exact I.
  - intros pre e post E Ht id Hid. unfold console_log in E.
    do 12 (destruct pre as [|? pre]; [injection E as <- _; try discriminate Ht|injection E as <- E]); [|by destruct pre].
    change (id ∈ ["tool-1"; "router-1"]) in Hid. change (id ∈ ["planner-1"; "tool-1"; "router-1"]). rewrite !elem_of_cons in *. tauto.
Qed.

Definition seen_model : ConsoleDagModel :=
  match @consoleDag_now code_unit_collation console_log with Ok m => m | Throw _ => emptyConsoleDag "" "" end.
Definition seen_surface : Surface :=
  match surface console_log with Ok v => v | Throw _ => {| sf_run_id := ""; sf_at_run_seq := 0; sf_vertices := []; sf_shadowed := [] |} end.

Lemma console_surface_agree_witness :
  plain_log console_log /\ surface console_log = Ok seen_surface /\ @consoleDag_now code_unit_collation console_log = Ok seen_model /\
  (forall id, id ∈ JMap.keys (sf_vertices seen_surface) <-> exists v, v ∈ md_vertices seen_model /\ cv_vertex_id v = id /\ cv_is_shadowed v = false) /\
  (forall v x, v ∈ md_vertices seen_model -> JMap.get (sf_vertices seen_surface) (cv_vertex_id v) = Some x ->
     same_vertex v x /\ cv_in_planner_prompt v = rendered x).
Proof.
  split; [exact console_log_plain|]. split; [vm_compute; reflexivity|]. split; [vm_compute; reflexivity|].
  apply (@console_surface_agree code_unit_collation console_log); [exact console_log_plain|vm_compute; reflexivity|vm_compute; reflexivity].
Defined.

(** The same run before its branch was discarded, with a planner behind the junction. *)
Definition junction_log : list StoredEvent :=
  firstn 11 console_log ++ [sample_event 12 vertex_created (Some "planner-2") ["router-1"] None [("role", VStr "planner")]].

Lemma junction_log_plain : plain_log junction_log.
Proof.
  split.
  - apply (bool_decide_unpack _). vm_compute. exact I.
  - apply (bool_decide_unpack _). vm_compute. exact I.
  - apply (bool_decide_unpack _). vm_compute. exact I.
  - intros pre e post E Ht id Hid. unfold junction_log in E. cbn in E.
    do 12 (destruct pre as [|? pre]; [injection E as <- _; discriminate Ht|injection E as <- E]). by destruct pre.
Qed.

Definition junction_model : ConsoleDagModel :=
  match @consoleDag_now code_unit_collation junction_log with Ok m => m | Throw _ => emptyConsoleDag "" "" end.
Definition junction_surface : Surface :=
  match surface junction_log with Ok v => v | Throw _ => {| sf_run_id := ""; sf_at_run_seq := 0; sf_vertices := []; sf_shadowed := [] |} end.
Definition junction_router : ConsoleVertex :=
  match nth_error (md_vertices junction_model) 2 with Some v => v | None => new_vertex (start junction_model) (sample_event 0 run_end None [] None []) "" end.
Definition junction_verdict : OracleResult :=
  match @consoleRouterVisibility code_unit_collation junction_log "router-1" "planner-2" with Ok r => r | Throw msg => fail "thrown" msg end.

Lemma visibility_oracle_passes_witness :
  cv_vertex_id junction_router = "router-1" /\ cv_router_outcome junction_router = Some fell_through /\
  junction_verdict = pass "O4.console_router_visibility".
Proof.
  split; [vm_compute; reflexivity|]. split; [vm_compute; reflexivity|].
  apply (@visibility_oracle_passes code_unit_collation junction_log junction_surface "router-1" "planner-2" junction_verdict junction_model junction_router).
  - exact junction_log_plain.
  - vm_compute; reflexivity.
  - vm_compute; reflexivity.
  - apply list_elem_of_In. vm_compute. right. right. left. reflexivity.
  - vm_compute; reflexivity.
  - vm_compute; reflexivity.
  - vm_compute; reflexivity.
  - vm_compute; reflexivity.
Defined.

(** A shadow that names a vertex before the log creates it is where the two readers part: the surface
    drops the vertex when it comes, the canvas shows it as active. *)
Example early_discard_disagrees :
  let log := [sample_event 1 subgraph_shadowed None [] None [("vertex_ids", VArr [VStr "v1"])];
              sample_event 2 vertex_created (Some "v1") [] None [("role", VStr "tool")]] in
  (JMap.keys ∘ sf_vertices <$> match surface log with Ok v => Some v | Throw _ => None end) = Some [] /\
  (map cv_is_shadowed ∘ md_vertices <$> match @consoleDag_now code_unit_collation log with Ok m => Some m | Throw _ => None end) = Some [false].
Proof. vm_compute. split; reflexivity. Qed.
