(* ===== verification/ConsoleStream.v ===== *)
(** * The console's stream (console/server/src/stream/stream.ts, stream/tail.ts, reader.ts)

    The wire format, the resume protocol, the bounded buffer of recent deltas, and the tailer that
    polls one run and folds what it finds. A poll is two steps, because the query is awaited between
    them and other calls may come in the meantime. *)

From S2P Require Import Prelude Collections Number Json JsonParse JsText Events Projection Console.
From Corelib Require Import SpecFloat.

(** ** Events of the stream *)
Inductive ConsoleStreamEvent : Type :=
| stream_snapshot (at_run_seq ordinal : Z) (model : ConsoleDagModel)
| stream_delta (delta : ConsoleDelta).

Definition event_at (e : ConsoleStreamEvent) : Z := match e with stream_snapshot a _ _ => a | stream_delta d => cd_at_run_seq d end.
Definition event_ordinal (e : ConsoleStreamEvent) : Z := match e with stream_snapshot _ o _ => o | stream_delta d => cd_ordinal d end.

(** ** Cursors *)
Record StreamCursor : Type := { cu_at_run_seq : number; cu_ordinal : number }.

Definition cursorOf (e : ConsoleStreamEvent) : string := zstr (event_at e) +:+ "." +:+ zstr (event_ordinal e).

(** [/^(\d+)\.(\d+)$/] *)
Definition CURSOR (s : string) : option (string * string) :=
  match Parse.span_digits s with
  | (String c d, String "."%char r) =>
      match Parse.span_digits r with
      | (String c' d', "") => Some (String c d, String c' d')
      | _ => None
      end
  | _ => None
  end.

Definition parseCursor (value : option string) : option StreamCursor :=
  match truthy value with
  | None => None
  | Some s => match CURSOR (Num.trim s) with
              | Some (a, o) => Some {| cu_at_run_seq := Num.of_string a; cu_ordinal := Num.of_string o |}
              | None => None
              end
  end.

Definition precedes (a b : StreamCursor) : bool :=
  Num.lt (cu_at_run_seq a) (cu_at_run_seq b) ||
  (Num.eq (cu_at_run_seq a) (cu_at_run_seq b) && Num.lt (cu_ordinal a) (cu_ordinal b)).

Definition cursor_at (at_run_seq ordinal : Z) : StreamCursor := {| cu_at_run_seq := Num.of_Z at_run_seq; cu_ordinal := Num.of_Z ordinal |}.
Definition delta_cursor (d : ConsoleDelta) : StreamCursor := cursor_at (cd_at_run_seq d) (cd_ordinal d).

(** ** Resuming *)
Inductive ResumeRefusal : Type := first_connect | malformed_cursor | below_buffer | ahead_of_watermark.

Inductive ResumeDecision : Type :=
| replay (deltas : list ConsoleDelta)
| fresh_snapshot (reason : ResumeRefusal).

(** [Number.isInteger(n)] *)
Definition is_integer (n : number) : bool := match Num.to_Z n with Some _ => true | None => false end.

Record DeltaBuffer : Type := { db_capacity : nat; db_deltas : list ConsoleDelta; db_evicted : bool }.

Definition newBuffer (capacity : nat) : DeltaBuffer := {| db_capacity := capacity; db_deltas := []; db_evicted := false |}.

(** [push(...deltas)]. The entries refer to the vertices, scopes and replans of the tailer's model, which
    later batches change in place; what they refer to is read when they are written ([as_written]). Their
    positions, which decide what is kept and replayed, never change. *)
Definition push (b : DeltaBuffer) (deltas : list ConsoleDelta) : DeltaBuffer :=
  let all := db_deltas b ++ deltas in
  if (length all <=? db_capacity b)%nat then {| db_capacity := db_capacity b; db_deltas := all; db_evicted := db_evicted b |}
  else {| db_capacity := db_capacity b; db_deltas := drop (length all - db_capacity b) all; db_evicted := true |}.

Definition resolveResume (cursor : option StreamCursor) (buffer : DeltaBuffer) (watermark : Z) : ResumeDecision :=
  match cursor with
  | None => fresh_snapshot first_connect
  | Some c =>
      if negb (is_integer (cu_at_run_seq c)) || negb (is_integer (cu_ordinal c)) then fresh_snapshot malformed_cursor
      else if Num.lt (Num.of_Z watermark) (cu_at_run_seq c) then fresh_snapshot ahead_of_watermark
      else
        let served := replay (filter_by (fun d => precedes c (delta_cursor d)) (db_deltas buffer)) in
        if db_evicted buffer then
          match db_deltas buffer with
          | [] => fresh_snapshot below_buffer
          | floor :: _ => if precedes c (cursor_at (cd_at_run_seq floor) (cd_ordinal floor - 1)) then fresh_snapshot below_buffer else served
          end
        else served
  end.

(** ** The tailer *)

(** [readStreamAfter] of the console's reader, over the rows of one run in order. *)
Definition readAfter (log : list StoredEvent) (afterRunSeq : Z) (limit : nat) : list StoredEvent :=
  take limit (filter_by (fun e => afterRunSeq <? run_seq e) log).

Record RunTailerOptions : Type := {
  op_activeIntervalMs : Z;
  op_idleIntervalMs : Z;
  op_idleAfterPolls : Z;
  op_bufferSize : nat
}.

Definition default_options : RunTailerOptions :=
  {| op_activeIntervalMs := 250; op_idleIntervalMs := 2000; op_idleAfterPolls := 10; op_bufferSize := 512 |}.

(** Listeners are numbered; [rt_timer] is the delay of the pending timer. *)
Record RunTailer : Type := {
  rt_runId : string;
  rt_model : ConsoleDagModel;
  rt_buffer : DeltaBuffer;
  rt_listeners : list nat;
  rt_timer : option Z;
  rt_quietPolls : Z;
  rt_polling : bool;
  rt_options : RunTailerOptions
}.

Definition newTailer (runId : string) (options : RunTailerOptions) : RunTailer :=
  {| rt_runId := runId; rt_model := emptyConsoleDag runId CONSOLE_PROJECTOR_VERSION; rt_buffer := newBuffer (op_bufferSize options);
     rt_listeners := []; rt_timer := None; rt_quietPolls := 0; rt_polling := false; rt_options := options |}.

Definition with_watchers (t : RunTailer) (listeners : list nat) (timer : option Z) : RunTailer :=
  {| rt_runId := rt_runId t; rt_model := rt_model t; rt_buffer := rt_buffer t; rt_listeners := listeners; rt_timer := timer;
     rt_quietPolls := rt_quietPolls t; rt_polling := rt_polling t; rt_options := rt_options t |}.

Definition with_poll (t : RunTailer) (model : ConsoleDagModel) (buffer : DeltaBuffer) (quiet : Z) (polling : bool) : RunTailer :=
  {| rt_runId := rt_runId t; rt_model := model; rt_buffer := buffer; rt_listeners := rt_listeners t; rt_timer := rt_timer t;
     rt_quietPolls := quiet; rt_polling := polling; rt_options := rt_options t |}.

Definition schedule (t : RunTailer) (delay : Z) : RunTailer :=
  match rt_timer t, rt_listeners t with
  | None, _ :: _ => with_watchers t (rt_listeners t) (Some delay)
  | _, _ => t
  end.

Definition stop (t : RunTailer) : RunTailer := with_watchers t (rt_listeners t) None.

Definition subscribe (t : RunTailer) (listener : nat) : RunTailer :=
  schedule (with_watchers t (JSet.add (rt_listeners t) listener) (rt_timer t)) (op_activeIntervalMs (rt_options t)).

(** The function [subscribe] returns. *)
Definition unsubscribe (t : RunTailer) (listener : nat) : RunTailer :=
  let t := with_watchers t (JSet.delete (rt_listeners t) listener) (rt_timer t) in
  match rt_listeners t with [] => stop t | _ => t end.

(** The timer fires: the slot is empty before the poll starts. *)
Definition fire (t : RunTailer) : RunTailer := with_watchers t (rt_listeners t) None.

(** What follows the poll in [tick]. *)
Definition reschedule (t : RunTailer) : RunTailer :=
  schedule t (if op_idleAfterPolls (rt_options t) <=? rt_quietPolls t then op_idleIntervalMs (rt_options t) else op_activeIntervalMs (rt_options t)).

(** [pollOnce] up to its query: nothing while another poll is under way, else the position asked for. *)
Definition pollBegin (t : RunTailer) : option (RunTailer * Z) :=
  if rt_polling t then None
  else Some (with_poll t (rt_model t) (rt_buffer t) (rt_quietPolls t) true, md_at_run_seq (rt_model t)).

Section Poll.
Context `{Collation}.

(** [pollOnce] from the answer of its query: the tailer, and what each listener is handed. A fold that
    throws leaves the tailer its model with the same position and lists, and with the objects the fold had
    rewritten by then. *)
Definition pollEnd (t : RunTailer) (answer : result (list StoredEvent)) : RunTailer * result (list (nat * list ConsoleDelta)) :=
  match answer with
  | Throw msg => (with_poll t (rt_model t) (rt_buffer t) (rt_quietPolls t) false, Throw msg)
  | Ok [] => (with_poll t (rt_model t) (rt_buffer t) (rt_quietPolls t + 1) false, Ok [])
  | Ok events =>
      match advanceConsoleDag (rt_model t) events with
      | Throw msg => (with_poll t (spoiled (rt_model t) events) (rt_buffer t) 0 false, Throw msg)
      | Ok step =>
          match cst_deltas step with
          | [] => (with_poll t (cst_model step) (rt_buffer t) 0 false, Ok [])
          | ds => (with_poll t (cst_model step) (push (rt_buffer t) ds) 0 false, Ok (map (fun l => (l, ds)) (rt_listeners t)))
          end
      end
  end.

(** [pollOnce] with nothing in between. *)
Definition pollOnce (batchSize : nat) (log : list StoredEvent) (t : RunTailer) : RunTailer * result (list (nat * list ConsoleDelta)) :=
  match pollBegin t with
  | None => (t, Ok [])
  | Some (t1, after) => pollEnd t1 (Ok (readAfter log after batchSize))
  end.

(** [prime] *)
Definition prime (batchSize : nat) (log : list StoredEvent) (t : RunTailer) : RunTailer * result ConsoleDagModel :=
  let '(t1, r) := pollOnce batchSize log t in (t1, _ ← r; Ok (rt_model t1)).

(** [tick]: a poll that throws schedules nothing. *)
Definition tick (batchSize : nat) (log : list StoredEvent) (t : RunTailer) : RunTailer * result (list (nat * list ConsoleDelta)) :=
  let '(t1, r) := pollOnce batchSize log (fire t) in
  match r with Ok sent => (reschedule t1, Ok sent) | Throw msg => (t1, Throw msg) end.
End Poll.

(** ** A buffered delta when it is written

    The objects it refers to, as the tailer's model holds them by then: a vertex is known by its id and the
    position that created it, a scope by its id, a replan by the event that opened it. *)
Definition vertex_now (m : ConsoleDagModel) (v : ConsoleVertex) : ConsoleVertex :=
  default v (find (fun w => (cv_vertex_id w ==? cv_vertex_id v) && (cv_created_seq w =? cv_created_seq v)) (md_vertices m)).
Definition scope_now (m : ConsoleDagModel) (c : ConsoleScope) : ConsoleScope := default c (find (fun k => cs_scope_id k ==? cs_scope_id c) (md_scopes m)).
Definition replan_now (m : ConsoleDagModel) (r : ConsoleReplan) : ConsoleReplan := default r (find (fun k => cr_at_run_seq k =? cr_at_run_seq r) (md_replans m)).

Definition change_now (m : ConsoleDagModel) (c : ConsoleChange) : ConsoleChange :=
  match c with
  | subgraph_appended vs ss => subgraph_appended (map (vertex_now m) vs) (map (scope_now m) ss)
  | subgraph_hidden r => subgraph_hidden (replan_now m r)
  | vertex_patched v => vertex_patched (vertex_now m v)
  end.

Definition as_written (m : ConsoleDagModel) (d : ConsoleDelta) : ConsoleDelta :=
  {| cd_at_run_seq := cd_at_run_seq d; cd_ordinal := cd_ordinal d; cd_spend := cd_spend d; cd_change := change_now m (cd_change d) |}.

(** ** The registry *)
Record TailerRegistry : Type := { rg_tailers : list (string * RunTailer); rg_options : RunTailerOptions }.

(** [for(runId)] *)
Definition tailerFor (g : TailerRegistry) (runId : string) : TailerRegistry * RunTailer :=
  match JMap.get (rg_tailers g) runId with
  | Some t => (g, t)
  | None => let t := newTailer runId (rg_options g) in ({| rg_tailers := JMap.set (rg_tailers g) runId t; rg_options := rg_options g |}, t)
  end.

(** [stopAll]: the tailers it stopped, and an empty registry. *)
Definition stopAll (g : TailerRegistry) : TailerRegistry * list RunTailer :=
  ({| rg_tailers := []; rg_options := rg_options g |}, map stop (JMap.values (rg_tailers g))).
