(* ===== verification/ConsoleWire.v ===== *)
(** * The console's wire format ([encodeFrame] of console/server/src/stream/stream.ts)

    The JSON of a stream event, member by member in the order the source's literals write them, and
    the Server-Sent Events frame around it: one [id], one [event] and one [data] line, whatever text
    the run holds. *)

From S2P Require Import Prelude Collections Number Json JsonParse JsText Events Projection Console ConsoleStream.
From Corelib Require Import SpecFloat.

(** ** JSON.stringify(event) *)
Definition num (z : Z) : value := VNum (Num.of_Z z).
Definition str_or_null (o : option string) : value := match o with Some s => VStr s | None => VNull end.
Definition num_or_null (o : option Z) : value := match o with Some z => num z | None => VNull end.
Definition strings (l : list string) : value := VArr (map VStr l).

Definition status_name (s : ConsoleStatus) : string :=
  match s with created_status => "created" | started_status => "started" | succeeded_status => "succeeded" | failed_status => "failed" | retried_status => "retried" end.
Definition source_name (s : ConsoleSource) : string := match s with by_planner => "planner" | by_router => "router" end.

Definition txn_json (t : ConsoleTxn) : value :=
  VObj [("scope_id", str_or_null (tx_scope_id t)); ("is_pivot", VBool (tx_is_pivot t)); ("effect_class", tx_effect_class t); ("pivot_passed", VBool (tx_pivot_passed t))].
Definition timing_json (t : ConsoleTiming) : value :=
  VObj [("started_at", str_or_null (tm_started_at t)); ("last_attempt_started_at", str_or_null (tm_last_attempt_started_at t));
        ("completed_at", str_or_null (tm_completed_at t)); ("duration_ms", match tm_duration_ms t with Some n => VNum n | None => VNull end); ("attempts", VNum (tm_attempts t))].
Definition bracket_json (b : ConsoleBracket) : value :=
  VObj [("state", VStr (match br_state b with sealed => "sealed" | confirmed => "confirmed" | cancelled_bracket => "cancelled" end));
        ("idempotency_key", br_idempotency_key b); ("deadline_at", br_deadline_at b)].
Definition outcome_json (o : ConsoleRouterOutcome) : value :=
  VObj (("kind", VStr (outcome_kind (Some o))) ::
        match o with
        | matched_outcome c b => [("matched_condition", VStr c); ("branch", b)]
        | evaluation_error r => [("reason", r)]
        | proposal_rejected vs => [("violations", vs)]
        | pending_outcome | fell_through => []
        end).
Definition cost_json (c : ConsoleCallCost) : value :=
  VObj [("model", cc_model c); ("duration_ms", cc_duration_ms c); ("input_tokens", cc_input_tokens c); ("output_tokens", cc_output_tokens c);
        ("amount", cc_amount c); ("currency", cc_currency c)].
Definition stall_json (s : ConsoleStall) : value :=
  VObj [("reason", st_reason s); ("answer_digest", st_answer_digest s); ("at_run_seq", num (st_at_run_seq s))].
Definition or_null_json {A} (f : A -> value) (o : option A) : value := match o with Some a => f a | None => VNull end.

Definition vertex_json (v : ConsoleVertex) : value :=
  VObj [("vertex_id", VStr (cv_vertex_id v)); ("parent_refs", strings (cv_parent_refs v)); ("label", cv_label v); ("role", VStr (role_name (cv_role v)));
        ("tool", str_or_null (cv_tool v)); ("tool_version", str_or_null (cv_tool_version v)); ("status", VStr (status_name (cv_status v)));
        ("is_shadowed", VBool (cv_is_shadowed v)); ("shadowed_at_seq", num_or_null (cv_shadowed_at_seq v)); ("decided_by", VStr (source_name (cv_decided_by v)));
        ("pin_version", str_or_null (cv_pin_version v)); ("input", cv_input v); ("log_fields", cv_log_fields v); ("created_seq", num (cv_created_seq v));
        ("frozen_by_seq", num_or_null (cv_frozen_by_seq v)); ("depth", num (cv_depth v)); ("txn", txn_json (cv_txn v)); ("timing", timing_json (cv_timing v));
        ("bracket", or_null_json bracket_json (cv_bracket v)); ("router_outcome", or_null_json outcome_json (cv_router_outcome v));
        ("cost", or_null_json cost_json (cv_cost v)); ("stall", or_null_json stall_json (cv_stall v)); ("in_planner_prompt", VBool (cv_in_planner_prompt v))].
Definition scope_json (c : ConsoleScope) : value :=
  VObj [("scope_id", VStr (cs_scope_id c)); ("state", cs_state c); ("member_vertex_ids", strings (cs_member_vertex_ids c));
        ("pivot_vertex_id", str_or_null (cs_pivot_vertex_id c)); ("pivot_passed_seq", num_or_null (cs_pivot_passed_seq c));
        ("pivot_declaration_mismatch", VBool (cs_pivot_declaration_mismatch c)); ("opened_seq", num (cs_opened_seq c)); ("closed_seq", num_or_null (cs_closed_seq c))].
Definition replan_json (r : ConsoleReplan) : value :=
  VObj [("at_run_seq", num (cr_at_run_seq r)); ("vertex_ids", strings (cr_vertex_ids r)); ("boundary_seq", cr_boundary_seq r);
        ("boundary_vertex_id", cr_boundary_vertex_id r); ("reason", cr_reason r)].
Definition proposal_json (p : ConsoleProposal) : value :=
  VObj [("proposed_seq", num (cp_proposed_seq p)); ("outcome", VStr (match cp_outcome p with outcome_frozen => "frozen" | outcome_rejected => "rejected" | outcome_open => "open" end));
        ("source", VStr (source_name (cp_source p))); ("terminal_seq", num_or_null (cp_terminal_seq p)); ("stage", cp_stage p); ("violations", cp_violations p)].
Definition request_json (q : ConsoleCancelRequest) : value :=
  VObj [("at_run_seq", num (cq_at_run_seq q)); ("failed_vertex_id", cq_failed_vertex_id q); ("scope_ids", cq_scope_ids q); ("level", cq_level q);
        ("intended_boundary_vertex_id", cq_intended_boundary_vertex_id q); ("reason", cq_reason q)].
Definition counterfactual_json (c : ConsoleCounterfactual) : value :=
  VObj [("child_run_id", cf_child_run_id c); ("at_vertex_id", cf_at_vertex_id c); ("eval_up_to_seq", cf_eval_up_to_seq c); ("at_run_seq", num (cf_at_run_seq c))].
Definition spend_json (s : ConsoleSpend) : value :=
  VObj [("calls", num (sp_calls s)); ("input_tokens", sp_input_tokens s); ("output_tokens", sp_output_tokens s); ("amount", sp_amount s); ("currency", sp_currency s)].

Definition model_json (m : ConsoleDagModel) : value :=
  VObj [("run_id", VStr (md_run_id m)); ("kind", VStr (match md_kind m with production => "production" | counterfactual => "counterfactual" end));
        ("at_run_seq", num (md_at_run_seq m)); ("started_at", str_or_null (md_started_at m)); ("vertices", VArr (map vertex_json (md_vertices m)));
        ("scopes", VArr (map scope_json (md_scopes m))); ("replans", VArr (map replan_json (md_replans m)));
        ("proposals", VArr (map proposal_json (md_proposals m))); ("cancel_requests", VArr (map request_json (md_cancel_requests m)));
        ("counterfactuals", VArr (map counterfactual_json (md_counterfactuals m))); ("spend", spend_json (md_spend m));
        ("announced", VObj (map (fun p => (fst p, VObj [("label", an_label (snd p)); ("frozen_by_seq", num (an_frozen_by_seq (snd p)))])) (md_announced m)));
        ("console_projector_version", VStr (md_console_projector_version m))].

Definition event_type_name (e : ConsoleStreamEvent) : string :=
  match e with
  | stream_snapshot _ _ _ => "topology_snapshot"
  | stream_delta d => match cd_change d with
                      | subgraph_appended _ _ => "subgraph_appended"
                      | subgraph_hidden _ => "subgraph_shadowed"
                      | vertex_patched _ => "vertex_patched"
                      end
  end.

Definition change_json (c : ConsoleChange) : object :=
  match c with
  | subgraph_appended vs ss => [("vertices", VArr (map vertex_json vs)); ("scopes", VArr (map scope_json ss))]
  | subgraph_hidden r => [("replan", replan_json r)]
  | vertex_patched v => [("vertex", vertex_json v)]
  end.

Definition event_json (e : ConsoleStreamEvent) : value :=
  VObj ([("type", VStr (event_type_name e)); ("at_run_seq", num (event_at e)); ("ordinal", num (event_ordinal e))] ++
        match e with
        | stream_snapshot _ _ m => [("model", model_json m)]
        | stream_delta d => ("spend", spend_json (cd_spend d)) :: change_json (cd_change d)
        end).

(** ** The frame *)
Definition encodeFrame (e : ConsoleStreamEvent) : string :=
  "id: " +:+ cursorOf e +:+ newline +:+ "event: " +:+ event_type_name e +:+ newline +:+
  "data: " +:+ Stringify.compact_text (event_json e) +:+ newline +:+ newline.

Definition SSE_HEADERS : list (string * string) :=
  [("content-type", "text/event-stream; charset=utf-8"); ("cache-control", "no-cache, no-transform"); ("connection", "keep-alive"); ("x-accel-buffering", "no")].
Definition HEARTBEAT_FRAME : string := ":hb" +:+ newline +:+ newline.

(** ** No line break but the frame's own *)
Definition line_char (c : ascii) : bool := (c !=? ascii_of_nat 10) && (c !=? ascii_of_nat 13).
Abbreviation one_line s := (all_chars line_char s = true).

Lemma all_chars_impl (p q : ascii -> bool) s : (forall c, p c = true -> q c = true) -> all_chars p s = true -> all_chars q s = true.
Proof. intros Hpq. induction s as [|c s IH]; cbn; [done|]. intros [Hc Hs]%andb_true_iff. by rewrite (Hpq c Hc), IH. Qed.

Lemma one_line_zstr z : one_line (zstr z).
Proof. apply (all_chars_impl num_char); [|apply all_chars_zstr]. intros [[] [] [] [] [] [] [] []]; vm_compute; done. Qed.

Lemma one_line_zeros n : one_line (Num.zeros n).
Proof. induction n; cbn; [done|]. by rewrite IHn. Qed.

Lemma all_chars_take p n s : all_chars p s = true -> all_chars p (take_str n s) = true.
Proof. revert s; induction n as [|n IH]; intros [|c s]; cbn; try done. intros [Hc Hs]%andb_true_iff. by rewrite Hc, IH. Qed.

Lemma all_chars_drop p n s : all_chars p s = true -> all_chars p (drop_str n s) = true.
Proof. revert s; induction n as [|n IH]; intros [|c s]; cbn; try done. intros [Hc Hs]%andb_true_iff. by apply IH. Qed.

Create HintDb wire.
#[export] Hint Resolve one_line_zstr one_line_zeros all_chars_take all_chars_drop : wire.

Ltac one_line := rewrite ?all_chars_app; repeat (apply andb_true_intro; split); auto with wire.

Lemma one_line_format s k n : one_line (Num.format s k n).
Proof. unfold Num.format. repeat (destruct (_ && _); [one_line|]). destruct (0 <? n - 1), (k =? 1); one_line. Qed.

Lemma one_line_to_string x : one_line (Num.to_string x).
Proof.
  destruct x as [s|[]| |sgn m e]; try done. unfold Num.to_string. destruct (if 0 <=? e then _ else _) as [p q].
  destruct (Num.shortest _ _ _ _ _ _) as [[s k] n]. rewrite ?all_chars_app. rewrite one_line_format. by destruct sgn.
Qed.

Lemma one_line_escape c : one_line (Text.escape c).
Proof. destruct c as [[] [] [] [] [] [] [] []]; vm_compute; done. Qed.

Lemma one_line_quote s : one_line (Text.quote s).
Proof.
  unfold Text.quote. rewrite ?all_chars_app. rewrite andb_true_r. apply andb_true_intro. split; [done|].
  induction s as [|c s IH]; cbn [Text.escape_all]; [done|]. rewrite ?all_chars_app. by rewrite one_line_escape, IH.
Qed.

Lemma one_line_join ts : Forall (fun t => one_line t) ts -> one_line (join "," ts).
Proof. induction 1 as [|t ts Ht Hts IH]; [done|]. destruct ts as [|t' ts]; [done|]. cbn [join] in *. rewrite ?all_chars_app. by rewrite Ht, IH. Qed.

Lemma one_line_enclose a b ts : one_line a -> one_line b -> Forall (fun t => one_line t) ts -> one_line (Stringify.enclose a b "" "" ts).
Proof.
  intros Ha Hb Ht. unfold Stringify.enclose. destruct ts as [|t ts]; [rewrite ?all_chars_app; by rewrite Ha, Hb|].
  rewrite eqb_refl. rewrite ?all_chars_app. by rewrite Ha, Hb, one_line_join.
Qed.

(** The compact text of a value is one line. *)
Lemma one_line_compact v t : Stringify.compact v = Some t -> one_line t.
Proof.
  unfold Stringify.compact. revert t. induction v as [| |b|n|s|l IH|fields IH] using value_ind'; intros t H; cbn in H.
  - done.
  - by injection H as <-.
  - injection H as <-. by destruct b.
  - injection H as <-. destruct n; try done; apply one_line_to_string.
  - injection H as <-. apply one_line_quote.
  - injection H as <-. apply one_line_enclose; [done|done|]. apply Forall_map. eapply Forall_impl; [exact IH|]. intros v Hv. cbn in Hv |- *.
    change ("" +:+ "") with "". destruct (Stringify.at_indent "" "" v) as [t|]; [by apply Hv|done].
  - injection H as <-. apply one_line_enclose; [done|done|]. induction IH as [|[k v] fields Hv _ IHf]; cbn; [constructor|].
    apply Forall_app. split; [|exact IHf]. cbn in Hv. change ("" +:+ "") with "". destruct (Stringify.at_indent "" "" v) as [t|]; [|constructor].
    rewrite Forall_singleton. rewrite ?all_chars_app. rewrite one_line_quote. cbn. by apply Hv.
Qed.

Lemma one_line_cursor e : one_line (cursorOf e).
Proof. unfold cursorOf. one_line. Qed.

Lemma one_line_type e : one_line (event_type_name e).
Proof. destruct e as [a o m|d]; [done|]. cbn. by destruct (cd_change d). Qed.

(** A line and its break are cut off the front. *)
Lemma split_line s t : one_line s -> Js.split_char (ascii_of_nat 10) (s +:+ newline +:+ t) = s :: Js.split_char (ascii_of_nat 10) t.
Proof.
  induction s as [|c s IH]; cbn [all_chars]; intros H.
  - rewrite sapp_nil. unfold newline. rewrite sapp_cons, sapp_nil. cbn [Js.split_char]. by rewrite eqb_refl.
  - apply andb_true_iff in H as [Hc Hs]. rewrite sapp_cons. cbn [Js.split_char]. unfold line_char in Hc. apply andb_true_iff in Hc as [Hc%negb_true_iff _]. by rewrite Hc, (IH Hs).
Qed.

(** ** Cursors read back *)
Lemma zstr_digits z : 0 <= z -> exists c t, zstr z = String c t /\ all_chars Parse.is_digit (zstr z) = true.
Proof.
  intros Hz. destruct z as [|p|p]; [by exists "0"%char, ""| |lia]. destruct (zstr_positive p) as (c & t & -> & Hc & _ & Ht & _).
  exists c, t. split; [done|]. cbn. by rewrite Hc.
Qed.

Lemma span_digits_stop d r : all_chars Parse.is_digit d = true -> match r with "" => True | String c _ => Parse.is_digit c = false end ->
  Parse.span_digits (d +:+ r) = (d, r).
Proof.
  intros Hd Hr. induction d as [|c d IH].
  - rewrite sapp_nil. destruct r as [|c r]; [done|]. cbn. by rewrite Hr.
  - cbn in Hd. apply andb_true_iff in Hd as [Hc Hd]. rewrite sapp_cons. cbn [Parse.span_digits]. by rewrite Hc, IH.
Qed.

Lemma parseCursor_text a o : 0 <= a -> 0 <= o -> parseCursor (Some (zstr a +:+ "." +:+ zstr o)) = Some (cursor_at a o).
Proof.
  intros Ha Ho. destruct (zstr_digits a Ha) as (ca & ta & Ea & Da). destruct (zstr_digits o Ho) as (co & to & Eo & Do).
  unfold parseCursor. assert (truthy (Some (zstr a +:+ "." +:+ zstr o)) = Some (zstr a +:+ "." +:+ zstr o)) as ->.
  { apply truthy_Some. split; [done|]. rewrite Ea, sapp_cons. done. }
  rewrite trim_id. 2: { rewrite !all_chars_app, (digits_not_space (zstr a)), (digits_not_space (zstr o)) by done. vm_compute. done. }
  unfold CURSOR. rewrite span_digits_stop by done. rewrite Ea at 1. cbn [Parse.span_digits]. change ("." +:+ zstr o) with (String "."%char (zstr o)).
  cbv iota beta. rewrite <- (sapp_empty (zstr o)), (span_digits_stop (zstr o) "") by done. rewrite Eo. cbv iota beta.
  rewrite <- Ea, <- Eo, !of_string_zstr. done.
Qed.

(** A frame is one [id], one [event] and one [data] line closed by a blank one, whatever text the
    run holds, and the id it carries reads back as the position of the event: a browser that presents
    it on reconnecting presents exactly that position. *)
Theorem encodeFrame_lines e : 0 <= event_at e -> 0 <= event_ordinal e ->
  Js.split_char (ascii_of_nat 10) (encodeFrame e) =
    ["id: " +:+ cursorOf e; "event: " +:+ event_type_name e; "data: " +:+ Stringify.compact_text (event_json e); ""; ""] /\
  parseCursor (Some (cursorOf e)) = Some (cursor_at (event_at e) (event_ordinal e)).
Proof.
  intros Ha Ho. split; [|by apply parseCursor_text]. unfold encodeFrame.
  assert (one_line (Stringify.compact_text (event_json e))) as Hj.
  { unfold Stringify.compact_text. destruct (Stringify.compact (event_json e)) as [t|] eqn:Et; [by eapply one_line_compact|done]. }
  assert (forall p s t, one_line p -> one_line s -> Js.split_char (ascii_of_nat 10) (p +:+ s +:+ newline +:+ t) = (p +:+ s) :: Js.split_char (ascii_of_nat 10) t) as Hl.
  { intros p s t Hp Hs. rewrite <- sapp_assoc. apply split_line. rewrite all_chars_app. by rewrite Hp, Hs. }
  rewrite Hl, Hl, Hl by auto using one_line_cursor, one_line_type. done.
Qed.

(** A text with a line break and quotes in it. *)
Definition awkward_event : ConsoleStreamEvent :=
  stream_delta {| cd_at_run_seq := 12; cd_ordinal := 3; cd_spend := no_spend;
                  cd_change := subgraph_hidden {| cr_at_run_seq := 9; cr_vertex_ids := ["v1"]; cr_boundary_seq := num 8;
                                                  cr_boundary_vertex_id := VNull; cr_reason := VStr ("data: no" +:+ newline +:+ newline +:+ "id: 99.9") |} |}.

Lemma encodeFrame_lines_witness :
  length (Js.split_char (ascii_of_nat 10) (encodeFrame awkward_event)) = 5%nat /\ parseCursor (Some (cursorOf awkward_event)) = Some (cursor_at 12 3).
Proof.
  destruct (encodeFrame_lines awkward_event) as [Hl Hc]; [vm_compute; discriminate|vm_compute; discriminate|].
  split; [rewrite Hl; reflexivity|exact Hc].
Defined.
