(* ===== verification/ConsoleDecode.v ===== *)
(** * The wire format read back

    What [JSON.parse] makes of the text of a stream event, and the typed reading of the parsed value that
    the listener's cast [as ConsoleStreamEvent] stands for: member by member, every member required. Text
    written by [JSON.stringify] reads back as the value it was written from, and the value as the event. *)

From S2P Require Import Prelude Collections Number Json JsonParse JsText Events Projection Console ConsoleStream ConsoleWire.
From Corelib Require Import SpecFloat.

(** ** JSON.parse after JSON.stringify *)

(** A number whose printed form is a JSON number that reads back as it: not NaN, infinite or negative zero. *)
Definition printable (n : number) : bool :=
  match n with
  | S754_nan | S754_infinity _ => false
  | _ => match Parse.lexeme (Num.to_string n) with
         | Some (t, r) => (t ==? Num.to_string n) && (r ==? "") && (Num.of_string t ==? n)
         | None => false
         end
  end.

(** A value JSON can carry: nothing undefined, printable numbers, no member twice. *)
Fixpoint json_plain (v : value) : bool :=
  match v with
  | VUndef => false
  | VNull | VBool _ | VStr _ => true
  | VNum n => printable n
  | VArr l => forallb json_plain l
  | VObj fields => bool_decide (NoDup (map fst fields)) && forallb (fun p => json_plain (snd p)) fields
  end.

Lemma span_digits_more s r : ends r = true -> Parse.span_digits (s +:+ r) = (fst (Parse.span_digits s), snd (Parse.span_digits s) +:+ r).
Proof.
  intros Hr. induction s as [|c s IH].
  - rewrite sapp_nil. cbn [Parse.span_digits fst snd]. rewrite sapp_nil. exact (span_digits_app "" r eq_refl Hr).
  - rewrite sapp_cons. cbn [Parse.span_digits]. destruct (Parse.is_digit c); [|done]. rewrite IH. by destruct (Parse.span_digits s).
Qed.

Lemma int_part_more s r i x : ends r = true -> Parse.int_part s = Some (i, x) -> Parse.int_part (s +:+ r) = Some (i, x +:+ r).
Proof.
  intros Hr. destruct s as [|c s]; [done|]. rewrite sapp_cons. unfold Parse.int_part. destruct (c ==? "0"%char); [by intros [= <- <-]|].
  destruct (Parse.is_digit c); [|done]. rewrite <- sapp_cons, span_digits_more by done. intros H. assert (Parse.span_digits (String c s) = (i, x)) as -> by congruence. done.
Qed.

Lemma frac_part_other c s : c <> "."%char -> Parse.frac_part (String c s) = Some ("", String c s).
Proof. destruct c as [[] [] [] [] [] [] [] []]; intros H; try done; by destruct H. Qed.

Lemma exp_part_other c s : c <> "e"%char -> c <> "E"%char -> Parse.exp_part (String c s) = Some ("", String c s).
Proof. destruct c as [[] [] [] [] [] [] [] []]; intros H1 H2; try done; first [by destruct H1|by destruct H2]. Qed.

Lemma ends_stop r : ends r = true -> Parse.frac_part r = Some ("", r) /\ Parse.exp_part r = Some ("", r).
Proof.
  destruct r as [|c r]; [done|]. cbn [ends]. intros H. bool_prop. split; [by apply frac_part_other|by apply exp_part_other].
Qed.

Lemma frac_part_more s r f x : ends r = true -> Parse.frac_part s = Some (f, x) -> Parse.frac_part (s +:+ r) = Some (f, x +:+ r).
Proof.
  intros Hr. destruct s as [|c s]; [intros [= <- <-]; rewrite !sapp_nil; by apply ends_stop|]. rewrite sapp_cons. destruct (decide (c = "."%char)) as [->|Hc].
  - cbn [Parse.frac_part]. rewrite span_digits_more by done. destruct (Parse.span_digits s) as [d y]. cbn [fst snd]. destruct d; [done|]. by intros [= <- <-].
  - rewrite !frac_part_other by done. by intros [= <- <-].
Qed.

Lemma exp_digits_more mark s r e x : ends r = true -> Parse.exp_digits mark s = Some (e, x) -> Parse.exp_digits mark (s +:+ r) = Some (e, x +:+ r).
Proof.
  intros Hr. unfold Parse.exp_digits. rewrite span_digits_more by done. destruct (Parse.span_digits s) as [d y]. cbn [fst snd]. destruct d; [done|]. by intros [= <- <-].
Qed.

Definition exp_tail (t : string) : option (string * string) :=
  match t with String "+"%char u => Parse.exp_digits "e+" u | String "-"%char u => Parse.exp_digits "e-" u | _ => Parse.exp_digits "e" t end.

Lemma exp_tail_other c t : c <> "+"%char -> c <> "-"%char -> exp_tail (String c t) = Parse.exp_digits "e" (String c t).
Proof. destruct c as [[] [] [] [] [] [] [] []]; intros H1 H2; try done; first [by destruct H1|by destruct H2]. Qed.

Lemma exp_tail_more t r e x : ends r = true -> exp_tail t = Some (e, x) -> exp_tail (t +:+ r) = Some (e, x +:+ r).
Proof.
  intros Hr. destruct t as [|c t]; [done|]. rewrite sapp_cons. destruct (decide (c = "+"%char)) as [->|H1]; [by apply exp_digits_more|].
  destruct (decide (c = "-"%char)) as [->|H2]; [by apply exp_digits_more|]. rewrite !exp_tail_other by done. rewrite <- sapp_cons. by apply exp_digits_more.
Qed.

Lemma exp_part_more s r e x : ends r = true -> Parse.exp_part s = Some (e, x) -> Parse.exp_part (s +:+ r) = Some (e, x +:+ r).
Proof.
  intros Hr. destruct s as [|c s]; [intros [= <- <-]; rewrite !sapp_nil; by apply ends_stop|]. rewrite sapp_cons.
  destruct (decide (c = "e"%char)) as [->|H1]; [change (Parse.exp_part (String "e"%char ?y)) with (exp_tail y); by apply exp_tail_more|].
  destruct (decide (c = "E"%char)) as [->|H2]; [change (Parse.exp_part (String "E"%char ?y)) with (exp_tail y); by apply exp_tail_more|].
  rewrite !exp_part_other by done. by intros [= <- <-].
Qed.

Definition unsign (s : string) : string * string := match s with String "-"%char t => ("-", t) | _ => ("", s) end.

Lemma unsign_other c s : c <> "-"%char -> unsign (String c s) = ("", String c s).
Proof. destruct c as [[] [] [] [] [] [] [] []]; intros H; try done; by destruct H. Qed.

Lemma lexeme_eq y : Parse.lexeme y =
  let '(sign, s) := unsign y in match Parse.int_part s with None => None | Some (i, s) =>
    match Parse.frac_part s with None => None | Some (f, s) => match Parse.exp_part s with None => None | Some (e, r) => Some (sign +:+ i +:+ f +:+ e, r) end end end.
Proof. reflexivity. Qed.

Lemma lexeme_more s t r : ends r = true -> Parse.lexeme s = Some (t, "") -> Parse.lexeme (s +:+ r) = Some (t, r).
Proof.
  intros Hr. rewrite !lexeme_eq.
  destruct s as [|c s]; [done|]. assert (unsign (String c s +:+ r) = (fst (unsign (String c s)), snd (unsign (String c s)) +:+ r)) as ->.
  { rewrite sapp_cons. destruct (decide (c = "-"%char)) as [->|Hc]; [done|]. by rewrite !unsign_other. }
  destruct (unsign (String c s)) as [sign s0]. cbn [fst snd]. destruct (Parse.int_part s0) as [[i s1]|] eqn:Ei; [|done]. rewrite (int_part_more _ _ _ _ Hr Ei).
  destruct (Parse.frac_part s1) as [[f s2]|] eqn:Ef; [|done]. rewrite (frac_part_more _ _ _ _ Hr Ef). destruct (Parse.exp_part s2) as [[e s3]|] eqn:Ee; [|done].
  rewrite (exp_part_more _ _ _ _ Hr Ee). intros [= <- ->]. by rewrite sapp_nil.
Qed.

(** A written value is read back, whatever follows it. *)
Definition parses_back (x : value) : Prop :=
  forall t, Stringify.compact x = Some t -> forall r fuel, ends r = true -> (2 * String.length t + 1 <= fuel)%nat -> Parse.parse_value fuel (t +:+ r) = Parse.Parsed x r.

Lemma lexeme_head t r x : Parse.lexeme t = Some (x, r) -> exists c s, t = String c s /\ num_char c = true.
Proof.
  rewrite lexeme_eq. destruct t as [|c t]; [done|]. intros H. exists c, t. split; [done|]. destruct (decide (c = "-"%char)) as [->|Hc]; [done|].
  rewrite unsign_other in H by done.
  unfold Parse.int_part in H. destruct (c ==? "0"%char) eqn:E; [by apply eqb_true_1 in E as ->|]. destruct (Parse.is_digit c) eqn:Ed; [|done].
  clear -Ed. destruct c as [[] [] [] [] [] [] [] []]; vm_compute in Ed |- *; done.
Qed.

Lemma printable_spec n : printable n = true ->
  Parse.lexeme (Num.to_string n) = Some (Num.to_string n, "") /\ Num.of_string (Num.to_string n) = n /\ Stringify.compact (VNum n) = Some (Num.to_string n).
Proof.
  intros Hp. assert (match Parse.lexeme (Num.to_string n) with Some (t, r) => (t ==? Num.to_string n) && (r ==? "") && (Num.of_string t ==? n) | None => false end = true /\
    Stringify.compact (VNum n) = Some (Num.to_string n)) as [H Hc].
  { destruct n as [s|s| |s m e]; [split; [exact Hp|reflexivity]|discriminate Hp|discriminate Hp|split; [exact Hp|reflexivity]]. }
  split; [|split; [|exact Hc]]; destruct (Parse.lexeme (Num.to_string n)) as [[u y]|]; try discriminate H; rewrite !andb_true_iff, !eqb_true in H; destruct H as [[-> ->] H]; [reflexivity|exact H].
Qed.

Lemma number_back n t r fuel : printable n = true -> Stringify.compact (VNum n) = Some t -> ends r = true -> (1 <= fuel)%nat -> Parse.parse_value fuel (t +:+ r) = Parse.Parsed (VNum n) r.
Proof.
  intros Hp Ht Hr Hf. destruct (printable_spec n Hp) as (Hl & Hn & Hc). rewrite Hc in Ht. injection Ht as <-.
  revert Hl Hn. clear Hc Hp. generalize (Num.to_string n). intros t Hl Hn. destruct (lexeme_head _ _ _ Hl) as (c & s & -> & Hc).
  pose proof (lexeme_more _ _ r Hr Hl) as Hm. rewrite sapp_cons in Hm |- *.
  destruct fuel as [|fuel]; [lia|]. destruct (num_char_plain c Hc) as (Hws & H1 & H2 & H3).
  cbn [Parse.parse_value]. rewrite !expect_miss by done. cbn [Parse.skip_ws]. rewrite Hws. unfold Parse.scalar.
  rewrite !literal_number by done. by rewrite H3, Hm, Hn.
Qed.

Lemma compact_head x t : json_plain x = true -> Stringify.compact x = Some t -> exists c s, t = String c s /\ Parse.is_ws c = false /\ c <> "]"%char.
Proof.
  intros Hp Ht. destruct x as [| |[]|n|u|l|fields]; [discriminate Hp|..]; try (cbn [Stringify.compact Stringify.at_indent] in Ht).
  - injection Ht as <-. by eexists _, _.
  - injection Ht as <-. by eexists _, _.
  - injection Ht as <-. by eexists _, _.
  - destruct (printable_spec n Hp) as (Hl & _ & Hc'). change (Stringify.compact (VNum n) = Some t) in Ht. rewrite Hc' in Ht. injection Ht as <-.
    destruct (lexeme_head _ _ _ Hl) as (c & s & E & Hc). exists c, s. split; [done|]. destruct (num_char_plain c Hc) as (Hws & _). split; [done|]. by intros ->.
  - injection Ht as <-. unfold Text.quote. by eexists _, _.
  - injection Ht as <-. unfold Stringify.enclose. destruct (map _ l) as [|y ys]; [by eexists _, _|]. rewrite eqb_refl. by eexists _, _.
  - injection Ht as <-. unfold Stringify.enclose. destruct (flat_map _ fields) as [|y ys]; [by eexists _, _|]. rewrite eqb_refl. by eexists _, _.
Qed.

Lemma compact_some x : json_plain x = true -> exists t, Stringify.compact x = Some t.
Proof. intros H. destruct x; try done; by eexists. Qed.

(** The text of an element, and of a member. *)
Definition text_of (x : value) : string := match Stringify.compact x with Some t => t | None => "null" end.
Definition member_of (p : string * value) : string := Text.quote (fst p) +:+ ":" +:+ text_of (snd p).

Lemma elements_parse l : forall x acc r fuel,
  Forall (fun x => parses_back x /\ json_plain x = true) (x :: l) -> (2 * String.length (text_of x +:+ seps (map text_of l) "]") + 2 <= fuel)%nat ->
  Parse.elements fuel acc (text_of x +:+ seps (map text_of l) (String "]"%char r)) = Parse.Parsed (VArr (acc ++ x :: l)) r.
Proof.
  induction l as [|y l IH]; intros x acc r fuel Hf Hfuel; inversion Hf as [|? ? [Hback Hx] Hrest]; subst; destruct (compact_some x Hx) as [t Ht];
    unfold text_of in *; rewrite Ht in *; cbn [map seps] in *; rewrite sapp_length in Hfuel; (destruct fuel as [|fuel]; [lia|]); cbn [Parse.elements].
  - rewrite (Hback t Ht) by (done || lia). rewrite expect_miss, expect_hit by done. done.
  - rewrite (Hback t Ht); [|done|lia]. rewrite !sapp_length in Hfuel. cbn [String.length] in Hfuel.
    rewrite sapp_cons, sapp_nil, expect_hit by done. rewrite (IH y); [|done|rewrite sapp_length; lia]. by rewrite <- (assoc (++)).
Qed.

Lemma members_parse l : forall p acc r fuel,
  Forall (fun p => parses_back (snd p) /\ json_plain (snd p) = true) (p :: l) -> NoDup (map fst (p :: l)) -> (forall k, k ∈ map fst (p :: l) -> k ∉ JMap.keys acc) ->
  (2 * String.length (member_of p +:+ seps (map member_of l) "}") + 2 <= fuel)%nat ->
  Parse.members fuel acc (member_of p +:+ seps (map member_of l) (String "}"%char r)) = Parse.Parsed (VObj (acc ++ p :: l)) r.
Proof.
  induction l as [|q l IH]; intros [k x] acc r fuel Hf Hnd Hfresh Hfuel; inversion Hf as [|? ? [Hback Hx] Hrest]; subst; cbn [snd] in Hback, Hx; destruct (compact_some x Hx) as [t Ht];
    cbn [map fst] in Hnd, Hfresh; apply NoDup_cons in Hnd as [Hk Hnd];
    assert (member_of (k, x) = Text.quote k +:+ ":" +:+ t) as Hm by (unfold member_of, text_of; cbn [fst snd]; by rewrite Ht); rewrite Hm in *; clear Hm; cbn [map seps] in *;
    unfold Text.quote in *; rewrite !sapp_length in Hfuel; cbn [String.length Text.dquote] in Hfuel;
    (destruct fuel as [|fuel]; [lia|]); cbn [Parse.members]; rewrite !sapp_assoc;
    change (Text.dquote +:+ ?z) with (String (ascii_of_nat 34) z); rewrite expect_hit by done;
    change (String (ascii_of_nat 34) (":" +:+ ?z)) with (Text.dquote +:+ (":" +:+ z)); rewrite string_body_quote;
    change (":" +:+ ?z) with (String ":"%char z); rewrite expect_hit by done.
  - rewrite (Hback t Ht) by (done || lia). rewrite expect_miss, expect_hit by done. rewrite set_fresh; [done|]. apply Hfresh. left.
  - rewrite (Hback t Ht); [|done|lia]. rewrite sapp_cons, sapp_nil, expect_hit by done. rewrite set_fresh by (apply Hfresh; left).
    rewrite (IH q); [|done|done| |rewrite sapp_length; lia].
    + by rewrite <- (assoc (++)).
    + intros k' Hk'. unfold JMap.keys. rewrite map_app, elem_of_app. intros [Hin|Hin]; [by apply (Hfresh k'); [right|]|].
      apply list_elem_of_singleton in Hin as ->. by apply Hk.
Qed.

Lemma compact_VArr l : Stringify.compact (VArr l) = Some ("[" +:+ join "," (map text_of l) +:+ "]").
Proof.
  change (Stringify.compact (VArr l)) with (Some (Stringify.enclose "[" "]" "" "" (map (fun x => default "null" (Stringify.compact x)) l))). f_equal.
  assert (map (fun x => default "null" (Stringify.compact x)) l = map text_of l) as -> by (apply map_ext; intros x; unfold text_of; by destruct (Stringify.compact x)).
  unfold Stringify.enclose. destruct (map text_of l); [done|]. by rewrite eqb_refl.
Qed.

Lemma compact_VObj fields : Forall (fun p => json_plain (snd p) = true) fields -> Stringify.compact (VObj fields) = Some ("{" +:+ join "," (map member_of fields) +:+ "}").
Proof.
  intros Hf. change (Stringify.compact (VObj fields)) with (Some (Stringify.enclose "{" "}" "" "" (flat_map (fun p => match Stringify.compact (snd p) with
    | Some t => [Text.quote (fst p) +:+ (if "" ==? "" then ":" else ": ") +:+ t] | None => [] end) fields))). f_equal.
  assert (flat_map (fun p => match Stringify.compact (snd p) with Some t => [Text.quote (fst p) +:+ (if "" ==? "" then ":" else ": ") +:+ t] | None => [] end) fields = map member_of fields) as ->.
  { induction Hf as [|[k x] fields Hx _ IH]; [done|]. cbn [flat_map map fst snd] in *. rewrite IH. destruct (compact_some x Hx) as [t Ht]. unfold member_of at 2, text_of. cbn [fst snd]. by rewrite Ht, eqb_refl. }
  unfold Stringify.enclose. destruct (map member_of fields); [done|]. by rewrite eqb_refl.
Qed.

Lemma compact_parses_back v : json_plain v = true -> parses_back v.
Proof.
  induction v as [| |b|n|u|l IH|fields IH] using value_ind'; intros Hp t Ht r fuel Hr Hf.
  - discriminate Hp.
  - injection Ht as <-. destruct fuel; [lia|]. reflexivity.
  - injection Ht as <-. destruct fuel; [lia|]. by destruct b.
  - eapply number_back; [exact Hp|exact Ht|done|lia].
  - injection Ht as <-. apply string_back. lia.
  - rewrite compact_VArr in Ht. injection Ht as <-. cbn [json_plain] in Hp. rewrite forallb_true in Hp.
    assert (Forall (fun x => parses_back x /\ json_plain x = true) l) as Hall by (rewrite Forall_forall in IH |- *; auto). clear IH Hp.
    rewrite !sapp_length in Hf. cbn [String.length] in Hf. destruct fuel as [|fuel]; [lia|]. rewrite !sapp_assoc.
    change ("[" +:+ ?z) with (String "["%char z). change ("]" +:+ ?z) with (String "]"%char z).
    cbn [Parse.parse_value]. rewrite expect_hit by done. destruct l as [|x l]; [cbn [map join]; by rewrite sapp_nil, expect_hit|].
    cbn [map]. rewrite join_cons. inversion Hall as [|? ? [_ Hx] _]; subst. destruct (compact_some x Hx) as [t Ht]. destruct (compact_head x t Hx Ht) as (c & s & Et & Hc & Hne).
    assert (text_of x = String c s) as Htx by (unfold text_of; by rewrite Ht). rewrite Htx at 1. rewrite sapp_cons, expect_miss by done.
    rewrite elements_parse; [done|done|]. pose proof (join_cons (text_of x) (map text_of l) "]") as Hj. rewrite <- Hj, sapp_length. cbn [String.length map] in *. lia.
  - cbn [json_plain] in Hp. apply andb_true_iff in Hp as [Hnd Hp]. apply bool_decide_eq_true in Hnd. rewrite forallb_true in Hp.
    assert (Forall (fun p => json_plain (snd p) = true) fields) as Hpl by (by apply Forall_forall). rewrite (compact_VObj _ Hpl) in Ht. injection Ht as <-.
    assert (Forall (fun p => parses_back (snd p) /\ json_plain (snd p) = true) fields) as Hall by (rewrite Forall_forall in IH |- *; auto). clear IH Hp Hpl.
    rewrite !sapp_length in Hf. cbn [String.length] in Hf. destruct fuel as [|fuel]; [lia|]. rewrite !sapp_assoc.
    change ("{" +:+ ?z) with (String "{"%char z). change ("}" +:+ ?z) with (String "}"%char z).
    cbn [Parse.parse_value]. rewrite expect_miss, expect_hit by done. destruct fields as [|p fields]; [cbn [map join]; by rewrite sapp_nil, expect_hit|].
    cbn [map]. rewrite join_cons. assert (exists u, member_of p = String (ascii_of_nat 34) u) as [u Hu] by (unfold member_of, Text.quote; by eexists).
    rewrite Hu at 1. rewrite sapp_cons, expect_miss by done. rewrite members_parse; [done|done|done|intros k _; apply not_elem_of_nil|].
    pose proof (join_cons (member_of p) (map member_of fields) "}") as Hj. rewrite <- Hj, sapp_length. cbn [String.length map] in *. lia.
Qed.

(** [JSON.parse(JSON.stringify(v))] is [v]. *)
Lemma JSON_parse_compact syntaxError v : json_plain v = true -> Parse.JSON_parse syntaxError (Stringify.compact_text v) = Ok v.
Proof.
  intros Hp. destruct (compact_some v Hp) as [t Ht]. assert (Stringify.compact_text v = t) as -> by (unfold Stringify.compact_text; by rewrite Ht).
  unfold Parse.JSON_parse. pose proof (compact_parses_back v Hp t Ht "" (Parse.fuel_for t) eq_refl) as H. rewrite sapp_empty in H.
  rewrite H by (unfold Parse.fuel_for; lia). done.
Qed.

(** ** The typed reading of a parsed event *)
Definition exactly (z : Z) : bool := (0 <=? z) && (z <? 2 ^ 53).
Definition if_any {A} (p : A -> bool) (o : option A) : bool := match o with Some a => p a | None => true end.

Definition read_int (v : value) : option Z := match v with VNum n => Num.to_Z n | _ => None end.
Definition read_bool (v : value) : option bool := match v with VBool b => Some b | _ => None end.
Definition nullable {A} (f : value -> option A) (v : value) : option (option A) := match v with VNull => Some None | _ => Some <$> f v end.
Definition read_list {A} (f : value -> option A) (v : value) : option (list A) := match v with VArr l => mapM f l | _ => None end.

(** One of the names of an enumeration. *)
Definition read_name {A} (names : list (string * A)) (v : value) : option A := s ← Js.as_string v; JMap.get names s.

Definition ROLES : list (string * ConsoleRole) :=
  [("planner", planner_role); ("tool", tool_role); ("router", router_role); ("confirmation-barrier", confirmation_barrier_role); ("unknown", unknown_role)].
Definition STATUSES : list (string * ConsoleStatus) :=
  [("created", created_status); ("started", started_status); ("succeeded", succeeded_status); ("failed", failed_status); ("retried", retried_status)].
Definition SOURCES : list (string * ConsoleSource) := [("planner", by_planner); ("router", by_router)].
Definition BRACKETS : list (string * BracketState) := [("sealed", sealed); ("confirmed", confirmed); ("cancelled", cancelled_bracket)].
Definition OUTCOMES : list (string * ProposalOutcome) := [("frozen", outcome_frozen); ("rejected", outcome_rejected); ("open", outcome_open)].
Definition KINDS : list (string * ConsoleKind) := [("production", production); ("counterfactual", counterfactual)].

Definition read_txn (v : value) : option ConsoleTxn :=
  o ← Js.as_object v;
  scope ← JMap.get o "scope_id" ≫= nullable Js.as_string; pivot ← JMap.get o "is_pivot" ≫= read_bool;
  effect ← JMap.get o "effect_class"; passed ← JMap.get o "pivot_passed" ≫= read_bool;
  Some {| tx_scope_id := scope; tx_is_pivot := pivot; tx_effect_class := effect; tx_pivot_passed := passed |}.

Definition read_timing (v : value) : option ConsoleTiming :=
  o ← Js.as_object v;
  started ← JMap.get o "started_at" ≫= nullable Js.as_string; last_ ← JMap.get o "last_attempt_started_at" ≫= nullable Js.as_string;
  completed ← JMap.get o "completed_at" ≫= nullable Js.as_string; duration ← JMap.get o "duration_ms" ≫= nullable Js.as_number;
  attempts ← JMap.get o "attempts" ≫= Js.as_number;
  Some {| tm_started_at := started; tm_last_attempt_started_at := last_; tm_completed_at := completed; tm_duration_ms := duration; tm_attempts := attempts |}.

Definition read_bracket (v : value) : option ConsoleBracket :=
  o ← Js.as_object v;
  state ← JMap.get o "state" ≫= read_name BRACKETS; key ← JMap.get o "idempotency_key"; deadline ← JMap.get o "deadline_at";
  Some {| br_state := state; br_idempotency_key := key; br_deadline_at := deadline |}.

Definition read_outcome (v : value) : option ConsoleRouterOutcome :=
  o ← Js.as_object v; kind ← JMap.get o "kind" ≫= Js.as_string;
  if kind ==? "pending" then Some pending_outcome
  else if kind ==? "fell_through" then Some fell_through
  else if kind ==? "matched" then c ← JMap.get o "matched_condition" ≫= Js.as_string; b ← JMap.get o "branch"; Some (matched_outcome c b)
  else if kind ==? "evaluation_error" then evaluation_error <$> JMap.get o "reason"
  else if kind ==? "proposal_rejected" then proposal_rejected <$> JMap.get o "violations"
  else None.

Definition read_cost (v : value) : option ConsoleCallCost :=
  o ← Js.as_object v;
  model ← JMap.get o "model"; duration ← JMap.get o "duration_ms"; input ← JMap.get o "input_tokens"; output ← JMap.get o "output_tokens";
  amount ← JMap.get o "amount"; currency ← JMap.get o "currency";
  Some {| cc_model := model; cc_duration_ms := duration; cc_input_tokens := input; cc_output_tokens := output; cc_amount := amount; cc_currency := currency |}.

Definition read_stall (v : value) : option ConsoleStall :=
  o ← Js.as_object v;
  reason ← JMap.get o "reason"; digest ← JMap.get o "answer_digest"; at_ ← JMap.get o "at_run_seq" ≫= read_int;
  Some {| st_reason := reason; st_answer_digest := digest; st_at_run_seq := at_ |}.

Definition read_vertex (v : value) : option ConsoleVertex :=
  o ← Js.as_object v;
  id ← JMap.get o "vertex_id" ≫= Js.as_string; parents ← JMap.get o "parent_refs" ≫= read_list Js.as_string; label ← JMap.get o "label";
  role ← JMap.get o "role" ≫= read_name ROLES; tool ← JMap.get o "tool" ≫= nullable Js.as_string; version ← JMap.get o "tool_version" ≫= nullable Js.as_string;
  status ← JMap.get o "status" ≫= read_name STATUSES; shadowed ← JMap.get o "is_shadowed" ≫= read_bool; at_ ← JMap.get o "shadowed_at_seq" ≫= nullable read_int;
  decided ← JMap.get o "decided_by" ≫= read_name SOURCES; pin ← JMap.get o "pin_version" ≫= nullable Js.as_string; input ← JMap.get o "input";
  fields ← JMap.get o "log_fields"; created ← JMap.get o "created_seq" ≫= read_int; frozen ← JMap.get o "frozen_by_seq" ≫= nullable read_int;
  depth ← JMap.get o "depth" ≫= read_int; txn ← JMap.get o "txn" ≫= read_txn; timing ← JMap.get o "timing" ≫= read_timing;
  bracket ← JMap.get o "bracket" ≫= nullable read_bracket; outcome ← JMap.get o "router_outcome" ≫= nullable read_outcome;
  cost ← JMap.get o "cost" ≫= nullable read_cost; stall ← JMap.get o "stall" ≫= nullable read_stall; prompt ← JMap.get o "in_planner_prompt" ≫= read_bool;
  Some {| cv_vertex_id := id; cv_parent_refs := parents; cv_label := label; cv_role := role; cv_tool := tool; cv_tool_version := version; cv_decided_by := decided;
          cv_pin_version := pin; cv_input := input; cv_created_seq := created; cv_frozen_by_seq := frozen; cv_depth := depth; cv_status := status;
          cv_is_shadowed := shadowed; cv_shadowed_at_seq := at_; cv_log_fields := fields; cv_txn := txn; cv_timing := timing; cv_bracket := bracket;
          cv_router_outcome := outcome; cv_cost := cost; cv_in_planner_prompt := prompt; cv_stall := stall |}.

Definition read_scope (v : value) : option ConsoleScope :=
  o ← Js.as_object v;
  id ← JMap.get o "scope_id" ≫= Js.as_string; state ← JMap.get o "state"; members ← JMap.get o "member_vertex_ids" ≫= read_list Js.as_string;
  pivot ← JMap.get o "pivot_vertex_id" ≫= nullable Js.as_string; passed ← JMap.get o "pivot_passed_seq" ≫= nullable read_int;
  mismatch ← JMap.get o "pivot_declaration_mismatch" ≫= read_bool; opened ← JMap.get o "opened_seq" ≫= read_int; closed ← JMap.get o "closed_seq" ≫= nullable read_int;
  Some {| cs_scope_id := id; cs_state := state; cs_member_vertex_ids := members; cs_pivot_vertex_id := pivot; cs_pivot_passed_seq := passed;
          cs_pivot_declaration_mismatch := mismatch; cs_opened_seq := opened; cs_closed_seq := closed |}.

Definition read_replan (v : value) : option ConsoleReplan :=
  o ← Js.as_object v;
  at_ ← JMap.get o "at_run_seq" ≫= read_int; ids ← JMap.get o "vertex_ids" ≫= read_list Js.as_string; seq ← JMap.get o "boundary_seq";
  vertex ← JMap.get o "boundary_vertex_id"; reason ← JMap.get o "reason";
  Some {| cr_at_run_seq := at_; cr_vertex_ids := ids; cr_boundary_seq := seq; cr_boundary_vertex_id := vertex; cr_reason := reason |}.

Definition read_proposal (v : value) : option ConsoleProposal :=
  o ← Js.as_object v;
  proposed ← JMap.get o "proposed_seq" ≫= read_int; outcome ← JMap.get o "outcome" ≫= read_name OUTCOMES; source ← JMap.get o "source" ≫= read_name SOURCES;
  terminal ← JMap.get o "terminal_seq" ≫= nullable read_int; stage ← JMap.get o "stage"; violations ← JMap.get o "violations";
  Some {| cp_proposed_seq := proposed; cp_outcome := outcome; cp_source := source; cp_terminal_seq := terminal; cp_stage := stage; cp_violations := violations |}.

Definition read_request (v : value) : option ConsoleCancelRequest :=
  o ← Js.as_object v;
  at_ ← JMap.get o "at_run_seq" ≫= read_int; failed ← JMap.get o "failed_vertex_id"; scopes ← JMap.get o "scope_ids"; level ← JMap.get o "level";
  boundary ← JMap.get o "intended_boundary_vertex_id"; reason ← JMap.get o "reason";
  Some {| cq_at_run_seq := at_; cq_failed_vertex_id := failed; cq_scope_ids := scopes; cq_level := level; cq_intended_boundary_vertex_id := boundary; cq_reason := reason |}.

Definition read_counterfactual (v : value) : option ConsoleCounterfactual :=
  o ← Js.as_object v;
  child ← JMap.get o "child_run_id"; vertex ← JMap.get o "at_vertex_id"; up_to ← JMap.get o "eval_up_to_seq"; at_ ← JMap.get o "at_run_seq" ≫= read_int;
  Some {| cf_child_run_id := child; cf_at_vertex_id := vertex; cf_eval_up_to_seq := up_to; cf_at_run_seq := at_ |}.

Definition read_spend (v : value) : option ConsoleSpend :=
  o ← Js.as_object v;
  calls ← JMap.get o "calls" ≫= read_int; input ← JMap.get o "input_tokens"; output ← JMap.get o "output_tokens"; amount ← JMap.get o "amount"; currency ← JMap.get o "currency";
  Some {| sp_calls := calls; sp_input_tokens := input; sp_output_tokens := output; sp_amount := amount; sp_currency := currency |}.

Definition read_announced (p : string * value) : option (string * Announced) :=
  o ← Js.as_object (snd p);
  label ← JMap.get o "label"; frozen ← JMap.get o "frozen_by_seq" ≫= read_int;
  Some (fst p, {| an_label := label; an_frozen_by_seq := frozen |}).

Definition read_model (v : value) : option ConsoleDagModel :=
  o ← Js.as_object v;
  run ← JMap.get o "run_id" ≫= Js.as_string; kind ← JMap.get o "kind" ≫= read_name KINDS; at_ ← JMap.get o "at_run_seq" ≫= read_int;
  started ← JMap.get o "started_at" ≫= nullable Js.as_string; vertices ← JMap.get o "vertices" ≫= read_list read_vertex; scopes ← JMap.get o "scopes" ≫= read_list read_scope;
  replans ← JMap.get o "replans" ≫= read_list read_replan; proposals ← JMap.get o "proposals" ≫= read_list read_proposal;
  requests ← JMap.get o "cancel_requests" ≫= read_list read_request; counterfactuals ← JMap.get o "counterfactuals" ≫= read_list read_counterfactual;
  spend ← JMap.get o "spend" ≫= read_spend; announced ← (JMap.get o "announced" ≫= Js.as_object) ≫= mapM read_announced;
  version ← JMap.get o "console_projector_version" ≫= Js.as_string;
  Some {| md_run_id := run; md_kind := kind; md_at_run_seq := at_; md_started_at := started; md_vertices := vertices; md_scopes := scopes; md_replans := replans;
          md_proposals := proposals; md_cancel_requests := requests; md_counterfactuals := counterfactuals; md_spend := spend; md_announced := announced;
          md_console_projector_version := version |}.

Definition read_change (type : string) (o : object) : option ConsoleChange :=
  if type ==? "subgraph_appended" then
    vertices ← JMap.get o "vertices" ≫= read_list read_vertex; scopes ← JMap.get o "scopes" ≫= read_list read_scope; Some (subgraph_appended vertices scopes)
  else if type ==? "subgraph_shadowed" then subgraph_hidden <$> (JMap.get o "replan" ≫= read_replan)
  else if type ==? "vertex_patched" then vertex_patched <$> (JMap.get o "vertex" ≫= read_vertex)
  else None.

Definition read_event (v : value) : option ConsoleStreamEvent :=
  o ← Js.as_object v;
  type ← JMap.get o "type" ≫= Js.as_string; at_ ← JMap.get o "at_run_seq" ≫= read_int; ordinal ← JMap.get o "ordinal" ≫= read_int;
  if type ==? "topology_snapshot" then stream_snapshot at_ ordinal <$> (JMap.get o "model" ≫= read_model)
  else spend ← JMap.get o "spend" ≫= read_spend; change ← read_change type o;
       Some (stream_delta {| cd_at_run_seq := at_; cd_ordinal := ordinal; cd_spend := spend; cd_change := change |}).

(** [JSON.parse(data) as ConsoleStreamEvent]. The cast looks at nothing; what it takes for granted is what
    [read_event] reads, and a parsed value that is no event is outside the model, here a failure. *)
Definition readEvent (syntaxError : string -> string) (data : string) : result ConsoleStreamEvent :=
  v ← Parse.JSON_parse syntaxError data; match read_event v with Some e => Ok e | None => Throw "not a stream event" end.

(** ** Every event reads back *)

(** Positions and counts a number holds exactly. *)
Definition vertex_exact (v : ConsoleVertex) : bool :=
  exactly (cv_created_seq v) && exactly (cv_depth v) && if_any exactly (cv_shadowed_at_seq v) && if_any exactly (cv_frozen_by_seq v) && if_any (fun s => exactly (st_at_run_seq s)) (cv_stall v).
Definition scope_exact (c : ConsoleScope) : bool := exactly (cs_opened_seq c) && if_any exactly (cs_pivot_passed_seq c) && if_any exactly (cs_closed_seq c).
Definition replan_exact (r : ConsoleReplan) : bool := exactly (cr_at_run_seq r).
Definition proposal_exact (p : ConsoleProposal) : bool := exactly (cp_proposed_seq p) && if_any exactly (cp_terminal_seq p).
Definition model_exact (m : ConsoleDagModel) : bool :=
  exactly (md_at_run_seq m) && forallb vertex_exact (md_vertices m) && forallb scope_exact (md_scopes m) && forallb replan_exact (md_replans m) &&
  forallb proposal_exact (md_proposals m) && forallb (fun q => exactly (cq_at_run_seq q)) (md_cancel_requests m) &&
  forallb (fun c => exactly (cf_at_run_seq c)) (md_counterfactuals m) && exactly (sp_calls (md_spend m)) && forallb (fun p => exactly (an_frozen_by_seq (snd p))) (md_announced m).
Definition change_exact (c : ConsoleChange) : bool :=
  match c with
  | subgraph_appended vs ss => forallb vertex_exact vs && forallb scope_exact ss
  | subgraph_hidden r => replan_exact r
  | vertex_patched v => vertex_exact v
  end.
Definition event_exact (e : ConsoleStreamEvent) : bool :=
  exactly (event_at e) && exactly (event_ordinal e) &&
  match e with stream_snapshot _ _ m => model_exact m | stream_delta d => exactly (sp_calls (cd_spend d)) && change_exact (cd_change d) end.

Ltac member_of_literal o k := match o with (k, ?x) :: _ => x | _ :: ?r => member_of_literal r k end.
Ltac read_members := repeat match goal with |- context [JMap.get ?o ?k] => let x := member_of_literal o k in change (JMap.get o k) with (Some x); cbn [mbind option_bind] end.

Lemma read_num z : exactly z = true -> read_int (num z) = Some z.
Proof. unfold exactly, read_int, num. intros H. apply to_Z_of_Z. lia. Qed.

Lemma read_str_or_null o : nullable Js.as_string (str_or_null o) = Some o.
Proof. by destruct o. Qed.

Lemma read_num_or_null o : if_any exactly o = true -> nullable read_int (num_or_null o) = Some o.
Proof. destruct o as [z|]; [|done]. intros H. cbn [num_or_null if_any] in *. unfold nullable, num. fold (num z). by rewrite (read_num z H). Qed.

Lemma read_list_map {A} (f : value -> option A) (g : A -> value) (ok : A -> bool) l : (forall a, ok a = true -> f (g a) = Some a) -> forallb ok l = true -> read_list f (VArr (map g l)) = Some l.
Proof.
  intros Hf. cbn [read_list]. induction l as [|a l IH]; [done|]. cbn [forallb map]. intros [Ha Hl]%andb_true_iff.
  change (mapM f (g a :: map g l)) with (f (g a) ≫= fun x => mapM f (map g l) ≫= fun xs => Some (x :: xs)). by rewrite (Hf a Ha), (IH Hl).
Qed.

Lemma read_strings l : read_list Js.as_string (strings l) = Some l.
Proof. unfold strings. apply (read_list_map _ _ (fun _ => true)); [done|]. by induction l. Qed.

Lemma read_or_null {A} (f : value -> option A) (g : A -> value) (ok : A -> bool) (o : option A) :
  (forall a, ok a = true -> f (g a) = Some a /\ g a <> VNull) -> if_any ok o = true -> nullable f (or_null_json g o) = Some o.
Proof.
  intros Hf. destruct o as [a|]; [|done]. intros Ha. destruct (Hf a Ha) as [H1 H2]. cbn [or_null_json]. unfold nullable. rewrite H1. by destruct (g a).
Qed.

Lemma read_txn_json t : read_txn (txn_json t) = Some t.
Proof. unfold read_txn, txn_json. cbn [Js.as_object mbind option_bind]. read_members. rewrite read_str_or_null. by destruct t. Qed.

Lemma read_timing_json t : read_timing (timing_json t) = Some t.
Proof. unfold read_timing, timing_json. cbn [Js.as_object mbind option_bind]. read_members. rewrite !read_str_or_null. destruct t as [a b c [d|] e]; done. Qed.

Lemma read_bracket_json b : read_bracket (bracket_json b) = Some b.
Proof. unfold read_bracket, bracket_json. cbn [Js.as_object mbind option_bind]. read_members. destruct b as [[] k d]; done. Qed.

Lemma read_outcome_json x : read_outcome (outcome_json x) = Some x.
Proof. destruct x; reflexivity. Qed.

Lemma read_cost_json c : read_cost (cost_json c) = Some c.
Proof. unfold read_cost, cost_json. cbn [Js.as_object mbind option_bind]. read_members. by destruct c. Qed.

Lemma read_stall_json s : exactly (st_at_run_seq s) = true -> read_stall (stall_json s) = Some s.
Proof. intros H. unfold read_stall, stall_json. cbn [Js.as_object mbind option_bind]. read_members. rewrite read_num by done. by destruct s. Qed.

(** The same for a part without positions of its own. *)
Lemma read_part {A} (f : value -> option A) (g : A -> value) (o : option A) :
  (forall a, f (g a) = Some a) -> (forall a, g a <> VNull) -> nullable f (or_null_json g o) = Some o.
Proof. intros Hf Hg. apply (read_or_null f g (fun _ => true)); [by auto|by destruct o]. Qed.

Lemma read_vertex_json v : vertex_exact v = true -> read_vertex (vertex_json v) = Some v.
Proof.
  unfold vertex_exact. rewrite !andb_true_iff. intros [[[[H1 H2] H3] H4] H5]. unfold read_vertex, vertex_json. cbn [Js.as_object mbind option_bind]. read_members.
  rewrite read_strings, !read_str_or_null, !read_num_or_null, !read_num, read_txn_json, read_timing_json by done. cbn [mbind option_bind Js.as_string read_bool].
  rewrite (read_part _ _ _ read_bracket_json), (read_part _ _ _ read_outcome_json), (read_part _ _ _ read_cost_json) by done.
  rewrite (read_or_null read_stall stall_json (fun s => exactly (st_at_run_seq s))) by (done || (intros s Hs; split; [by apply read_stall_json|done])).
  assert (read_name ROLES (VStr (role_name (cv_role v))) = Some (cv_role v)) as -> by (by destruct (cv_role v)).
  assert (read_name STATUSES (VStr (status_name (cv_status v))) = Some (cv_status v)) as -> by (by destruct (cv_status v)).
  assert (read_name SOURCES (VStr (source_name (cv_decided_by v))) = Some (cv_decided_by v)) as -> by (by destruct (cv_decided_by v)).
  by destruct v.
Qed.

Lemma read_scope_json c : scope_exact c = true -> read_scope (scope_json c) = Some c.
Proof.
  unfold scope_exact. rewrite !andb_true_iff. intros [[H1 H2] H3]. unfold read_scope, scope_json. cbn [Js.as_object mbind option_bind]. read_members.
  rewrite read_strings, read_str_or_null, !read_num_or_null, read_num by done. by destruct c.
Qed.

Lemma read_replan_json r : replan_exact r = true -> read_replan (replan_json r) = Some r.
Proof. intros H. unfold read_replan, replan_json. cbn [Js.as_object mbind option_bind]. read_members. rewrite read_strings, read_num by done. by destruct r. Qed.

Lemma read_proposal_json p : proposal_exact p = true -> read_proposal (proposal_json p) = Some p.
Proof.
  unfold proposal_exact. rewrite !andb_true_iff. intros [H1 H2]. unfold read_proposal, proposal_json. cbn [Js.as_object mbind option_bind]. read_members.
  rewrite read_num_or_null, read_num by done. by destruct p as [? [] [] ? ? ?].
Qed.

Lemma read_request_json q : exactly (cq_at_run_seq q) = true -> read_request (request_json q) = Some q.
Proof. intros H. unfold read_request, request_json. cbn [Js.as_object mbind option_bind]. read_members. rewrite read_num by done. by destruct q. Qed.

Lemma read_counterfactual_json c : exactly (cf_at_run_seq c) = true -> read_counterfactual (counterfactual_json c) = Some c.
Proof. intros H. unfold read_counterfactual, counterfactual_json. cbn [Js.as_object mbind option_bind]. read_members. rewrite read_num by done. by destruct c. Qed.

Lemma read_spend_json s : exactly (sp_calls s) = true -> read_spend (spend_json s) = Some s.
Proof. intros H. unfold read_spend, spend_json. cbn [Js.as_object mbind option_bind]. read_members. rewrite read_num by done. by destruct s. Qed.

Definition announced_json (p : string * Announced) : string * value := (fst p, VObj [("label", an_label (snd p)); ("frozen_by_seq", num (an_frozen_by_seq (snd p)))]).

Lemma read_announced_json l : forallb (fun p => exactly (an_frozen_by_seq (snd p))) l = true -> mapM read_announced (map announced_json l) = Some l.
Proof.
  induction l as [|[k [label frozen]] l IH]; [done|]. cbn [forallb snd an_frozen_by_seq]. intros [Ha Hl]%andb_true_iff.
  change (mapM read_announced (map announced_json ((k, {| an_label := label; an_frozen_by_seq := frozen |}) :: l)))
    with (read_announced (announced_json (k, {| an_label := label; an_frozen_by_seq := frozen |})) ≫= fun x => mapM read_announced (map announced_json l) ≫= fun xs => Some (x :: xs)).
  rewrite (IH Hl). unfold read_announced, announced_json. cbn [fst snd Js.as_object mbind option_bind an_label an_frozen_by_seq]. read_members. by rewrite read_num.
Qed.

Lemma read_model_json m : model_exact m = true -> read_model (model_json m) = Some m.
Proof.
  unfold model_exact. rewrite !andb_true_iff. intros [[[[[[[[H1 H2] H3] H4] H5] H6] H7] H8] H9]. unfold read_model, model_json. cbn [Js.as_object mbind option_bind]. read_members.
  rewrite (read_list_map _ _ _ _ read_vertex_json), (read_list_map _ _ _ _ read_scope_json), (read_list_map _ _ _ _ read_replan_json), (read_list_map _ _ _ _ read_proposal_json),
    (read_list_map _ _ _ _ read_request_json), (read_list_map _ _ _ _ read_counterfactual_json), read_spend_json, read_num, read_str_or_null by done.
  cbn [Js.as_object mbind option_bind]. fold announced_json. rewrite read_announced_json by done. by destruct m as [? []].
Qed.

Lemma read_event_json e : event_exact e = true -> read_event (event_json e) = Some e.
Proof.
  unfold event_exact. rewrite !andb_true_iff. intros [[H1 H2] H3]. unfold read_event, event_json. cbn [app].
  destruct e as [a o m|[a o spend c]]; cbn [event_at event_ordinal cd_at_run_seq cd_ordinal cd_spend cd_change Js.as_object mbind option_bind] in *.
  - read_members. rewrite !read_num, read_model_json by done. done.
  - apply andb_true_iff in H3 as [H3 H4]. destruct c as [vs ss|r|v]; cbn [change_json change_exact app event_type_name cd_change] in *; read_members; rewrite !read_num, read_spend_json by done;
      cbn [Js.as_string mbind option_bind]; unfold read_change.
    + apply andb_true_iff in H4 as [H4 H5]. cbv [bool_decide]. read_members. rewrite (read_list_map _ _ _ _ read_vertex_json), (read_list_map _ _ _ _ read_scope_json) by done. reflexivity.
    + read_members. rewrite read_replan_json by done. reflexivity.
    + read_members. rewrite read_vertex_json by done. reflexivity.
Qed.

(** An event whose JSON holds nothing undefined, no repeated member and no number that does not print exactly. *)
Definition sendable (e : ConsoleStreamEvent) : bool := json_plain (event_json e) && event_exact e.

Lemma readEvent_event syntaxError e : sendable e = true -> readEvent syntaxError (Stringify.compact_text (event_json e)) = Ok e.
Proof. unfold sendable, readEvent. intros [Hp He]%andb_true_iff. rewrite JSON_parse_compact by done. cbn [mbind result_bind]. by rewrite read_event_json. Qed.

Lemma sendable_position e : sendable e = true -> 0 <= event_at e /\ 0 <= event_ordinal e.
Proof. unfold sendable, event_exact, exactly. rewrite !andb_true_iff. lia. Qed.

Example awkward_sendable : sendable awkward_event = true.
Proof. vm_compute. reflexivity. Qed.
