(* ===== verification/ConsoleTail.v ===== *)
(** * Following a run: the tailer, its buffer and the resume protocol

    The tailer as a state machine beside the growing log. In every state it reaches, its watermark is that
    of a prefix it could read, its model is the fold of that prefix unless it met an event it cannot read,
    and its buffer is the window of the deltas it emitted; so a replay hands over exactly the deltas after
    the cursor. Over a log it can read, polling reaches the
    end. *)

From S2P Require Import Prelude Collections Number Json Events Projection Console ConsoleFacts ConsoleStream.
From Corelib Require Import SpecFloat.

(** ** Prefixes of a log by position *)
Definition upto (w : Z) (log : list StoredEvent) : list StoredEvent := filter_by (fun e => run_seq e <=? w) log.
Definition beyond (w : Z) (log : list StoredEvent) : list StoredEvent := filter_by (fun e => w <? run_seq e) log.

Lemma elem_of_upto w log e : e ∈ upto w log <-> e ∈ log /\ run_seq e <= w.
Proof. unfold upto. rewrite elem_of_filter_by, Z.leb_le. done. Qed.

Lemma elem_of_beyond w log e : e ∈ beyond w log <-> e ∈ log /\ w < run_seq e.
Proof. unfold beyond. rewrite elem_of_filter_by, Z.ltb_lt. done. Qed.

Lemma upto_app w a b : upto w (a ++ b) = upto w a ++ upto w b.
Proof. apply filter_by_app. Qed.

Lemma beyond_app w a b : beyond w (a ++ b) = beyond w a ++ beyond w b.
Proof. apply filter_by_app. Qed.

Lemma upto_all w log : (forall e, e ∈ log -> run_seq e <= w) -> upto w log = log.
Proof. induction log as [|e log IH]; intros H; [done|]. cbn. rewrite (proj2 (Z.leb_le _ _)) by (apply H; left). f_equal. apply IH. intros; apply H; by right. Qed.

Lemma upto_none w log : (forall e, e ∈ log -> w < run_seq e) -> upto w log = [].
Proof. induction log as [|e log IH]; intros H; [done|]. cbn. rewrite (proj2 (Z.leb_gt _ _)) by (apply H; left). apply IH. intros; apply H; by right. Qed.

Lemma beyond_all w log : (forall e, e ∈ log -> w < run_seq e) -> beyond w log = log.
Proof. induction log as [|e log IH]; intros H; [done|]. cbn. rewrite (proj2 (Z.ltb_lt _ _)) by (apply H; left). f_equal. apply IH. intros; apply H; by right. Qed.

(** A log in order is cut in two by a position. *)
Lemma upto_beyond w log : seq_ordered log -> log = upto w log ++ beyond w log.
Proof.
  induction 1 as [|e log Hlog IH He]; [done|]. cbn. destruct (Z.leb_spec (run_seq e) w) as [Hw|Hw].
  - rewrite (proj2 (Z.ltb_ge _ _)) by lia. cbn. by f_equal.
  - rewrite (proj2 (Z.ltb_lt _ _)) by lia. rewrite Forall_forall in He.
    assert (forall x, x ∈ log -> w < run_seq x) as Hx by (intros x Hx; specialize (He x Hx); lia).
    change (filter_by (fun e => run_seq e <=? w) log) with (upto w log). change (filter_by (fun e => w <? run_seq e) log) with (beyond w log).
    by rewrite upto_none, beyond_all.
Qed.

(** ** Events a fold steps over *)
Lemma ignored_fold s batch s' : foldM apply s batch = Ok s' -> Forall (fun e => known (event_type e) = false) batch -> s' = s.
Proof.
  revert s; induction batch as [|e batch IH]; cbn; intros s H Hk; [by apply Ok_inj in H|]. inv_bind. apply Forall_cons in Hk as [He Hk].
  apply apply_ok in H0 as [[_ ->]|[Hn _]]; [|congruence]. by apply IH.
Qed.

Lemma reach_ge w batch : w <= reach w batch /\ forall e, e ∈ batch -> known (event_type e) = true -> run_seq e <= reach w batch.
Proof.
  unfold reach. revert w; induction batch as [|e batch IH]; intros w; cbn; [split; [lia|set_solver]|].
  destruct (IH (if known (event_type e) then Z.max w (run_seq e) else w)) as [H1 H2]. split; [destruct (known _); lia|].
  intros x [->|Hx]%elem_of_cons Hk; [rewrite Hk in *; lia|by apply H2].
Qed.

Lemma reach_at w batch : reach w batch = w \/ exists e, e ∈ batch /\ run_seq e = reach w batch.
Proof.
  unfold reach. revert w; induction batch as [|e batch IH]; intros w; cbn; [by left|].
  destruct (IH (if known (event_type e) then Z.max w (run_seq e) else w)) as [->|(x & Hx & Hr)].
  - destruct (known _); [|by left]. destruct (Z.max_spec w (run_seq e)) as [[_ ->]|[_ ->]]; [right; exists e; split; [left|done]|by left].
  - right. exists x. split; [by right|done].
Qed.

(** What a batch read beyond [w] leaves beyond the position it reached is what it ignored. *)
Lemma reach_split w batch rest log : seq_ordered log -> beyond w log = batch ++ rest ->
  upto (reach w batch) log = upto w log ++ upto (reach w batch) batch /\
  Forall (fun e => known (event_type e) = false) (beyond (reach w batch) batch).
Proof.
  intros Ho Hb. destruct (reach_ge w batch) as [Hw Hk]. split.
  - rewrite (upto_beyond w log Ho) at 1. rewrite upto_app, Hb, upto_app. f_equal.
    + apply upto_all. intros e [_ He]%elem_of_upto. lia.
    + assert (upto (reach w batch) rest = []) as ->; [|by rewrite app_nil_r]. apply upto_none. intros e He.
      assert (seq_ordered (batch ++ rest)) as Hs. { rewrite <- Hb. rewrite (upto_beyond w log Ho) in Ho. by apply seq_ordered_app_inv in Ho as (_ & Ho & _). }
      apply seq_ordered_app_inv in Hs as (_ & _ & Hs). destruct (reach_at w batch) as [->|(x & Hx & <-)]; [|by apply Hs].
      assert (e ∈ beyond w log) as [_ H]%elem_of_beyond by (rewrite Hb; apply elem_of_app; by right). done.
  - apply Forall_forall. intros e [He Hr]%elem_of_beyond. apply not_true_iff_false. intros Hkn. specialize (Hk e He Hkn). lia.
Qed.

(** ** Events a fold reads, and events it throws on *)

(** The entries of a freeze are objects. *)
Definition entries_read (keys : list string) (v : value) : bool :=
  match each v with Ok entries => forallb (fun entry => forallb (fun k => match access entry k with Ok _ => true | Throw _ => false end) keys) entries | Throw _ => false end.

(** An event of the vocabulary, a freeze with entries that can be read, or an event that may be skipped. *)
Definition understood (e : StoredEvent) : bool :=
  if known (event_type e) then negb (is_type subgraph_frozen e) || (entries_read ["vertex_id"; "author_id"] (pfield e "vertices") && entries_read ["scope_id"] (pfield e "scopes"))
  else ignorable e.

Lemma foldM_reads {A B} (f : A -> B -> result A) (ok : B -> bool) (xs : list B) : (forall a b, (exists a', f a b = Ok a') <-> ok b = true) ->
  forall a, (exists a', foldM f a xs = Ok a') <-> forallb ok xs = true.
Proof.
  intros Hf. induction xs as [|x xs IH]; intros a; cbn [foldM forallb]; [split; [done|by exists a]|]. rewrite andb_true_iff, <- (Hf a x). split.
  - intros [a' Ha]. inv_bind. split; [by eexists|]. apply (IH x0). by exists a'.
  - intros [[a1 ->] Hxs]. cbn [mbind result_bind]. by apply IH.
Qed.

(** What a fold throws on does not depend on what it has folded. *)
Lemma freeze_reads s e : (exists s', freeze s e = Ok s') <-> entries_read ["vertex_id"; "author_id"] (pfield e "vertices") && entries_read ["scope_id"] (pfield e "scopes") = true.
Proof.
  unfold freeze, entries_read. rewrite andb_true_iff. destruct (each (pfield e "vertices")) as [vs|m1]; cbn [mbind result_bind]; [|split; [intros [? [=]]|intros [[=] _]]].
  assert (forall s0 entry, (exists s', announce e s0 entry = Ok s') <-> forallb (fun k => match access entry k with Ok _ => true | Throw _ => false end) ["vertex_id"; "author_id"] = true) as Ha.
  { intros s0 entry. unfold announce. cbn [forallb]. destruct (access entry "vertex_id"), (access entry "author_id"); cbn; naive_solver. }
  assert (forall s0 entry, (exists s', open_scope e s0 entry = Ok s') <-> forallb (fun k => match access entry k with Ok _ => true | Throw _ => false end) ["scope_id"] = true) as Ho.
  { intros s0 entry. unfold open_scope. cbn [forallb]. destruct (access entry "scope_id"); cbn; naive_solver. }
  rewrite <- (foldM_reads _ _ vs Ha (closeProposal s e outcome_frozen)). split.
  - intros [s' Hs]. inv_bind. split; [by eexists|]. match goal with Hx : each _ = Ok _ |- _ => rewrite Hx end. apply (foldM_reads _ _ _ Ho x). by exists s'.
  - intros [[s1 ->] Hsc]. cbn [mbind result_bind]. destruct (each (pfield e "scopes")) as [scs|m2]; [|done]. cbn [mbind result_bind]. by apply (foldM_reads _ _ _ Ho).
Qed.

Lemma apply_understood s e : (exists s', apply s e = Ok s') <-> understood e = true.
Proof.
  unfold apply, understood. destruct (known (event_type e)) eqn:Ek; cbn [negb andb].
  - rewrite andb_false_r. destruct (is_type subgraph_frozen e) eqn:Et; cbn [negb orb].
    + apply eqb_true_1 in Et. unfold dispatch. rewrite Et. apply freeze_reads.
    + split; [done|]. intros _. unfold dispatch. unfold is_type in Et. destruct (event_type e); first [by rewrite eqb_refl in Et|by eexists].
  - rewrite andb_true_r. destruct (ignorable e); cbn; [split; [done|by exists s]|]. split; [by intros [s' ?]|done].
Qed.

Lemma fold_understood s batch : (exists s', foldM apply s batch = Ok s') <-> Forall (fun e => understood e = true) batch.
Proof. by rewrite (foldM_reads _ _ batch apply_understood), forallb_true, Forall_forall. Qed.

(** ** A model that follows its log *)
Record log_ok (log : list StoredEvent) : Prop := {
  lk_ordered : seq_ordered log;
  lk_positive : Forall (fun e => 0 < run_seq e) log;
  lk_created : NoDup (omap creates log)
}.

Section Follow.
Context `{Collation}.
Variable runId : string.
Abbreviation origin := (emptyConsoleDag runId CONSOLE_PROJECTOR_VERSION).

(** The model is the fold of the log up to its own watermark. *)
Definition follows (log : list StoredEvent) (m : ConsoleDagModel) : Prop := advance_model origin (upto (md_at_run_seq m) log) = Ok m.

Lemma follows_start log : Forall (fun e => 0 < run_seq e) log -> follows log origin.
Proof. intros Hp. unfold follows. rewrite upto_none; [done|]. rewrite Forall_forall in Hp. cbn. intros e He. by apply Hp. Qed.

Lemma readable_origin log pre post : log_ok log -> log = pre ++ post -> readable_after (md_at_run_seq origin) (map cv_vertex_id (md_vertices origin)) pre.
Proof.
  intros [Ho Hp Hc] ->. apply seq_ordered_app_inv in Ho as (Ho & _ & _). apply Forall_app in Hp as [Hp _].
  rewrite omap_app in Hc. apply NoDup_app in Hc as [Hc _]. by split.
Qed.

Lemma advance_model_inv m batch m' : advance_model m batch = Ok m' -> exists step, advanceConsoleDag m batch = Ok step /\ m' = cst_model step.
Proof. unfold advance_model. intros Ha. inv_bind. by eexists. Qed.

(** What may be folded next onto a model that follows its log. *)
Lemma follows_readable log m batch rest : log_ok log -> follows log m -> beyond (md_at_run_seq m) log = batch ++ rest ->
  model_ok m /\ readable_after (md_at_run_seq m) (map cv_vertex_id (md_vertices m)) batch.
Proof.
  intros Hl Hf Hb. destruct (advance_model_inv _ _ _ Hf) as (step & Hs & ->).
  assert (log = (upto (md_at_run_seq (cst_model step)) log ++ batch) ++ rest) as Hsplit.
  { rewrite <- app_assoc, <- Hb. apply upto_beyond, Hl. }
  destruct (advance_ok origin (upto (md_at_run_seq (cst_model step)) log) batch step) as (H1 & H2 & _); [apply emptyConsoleDag_ok|by eapply readable_origin|done|done].
Qed.

Lemma follows_at log m : log_ok log -> follows log m -> md_at_run_seq m = reach 0 (upto (md_at_run_seq m) log).
Proof.
  intros Hl Hf. destruct (advance_model_inv _ _ _ Hf) as (step & Hs & ->).
  destruct (advance_ok origin (upto (md_at_run_seq (cst_model step)) log) [] step) as (_ & _ & s & Hfold & _ & _ & Hw).
  - apply emptyConsoleDag_ok.
  - rewrite app_nil_r. eapply readable_origin; [exact Hl|]. apply upto_beyond, Hl.
  - exact Hs.
  - by rewrite <- Hw at 1; rewrite (fold_watermark _ _ _ Hfold).
Qed.

(** The watermark is a position of the log. *)
Lemma follows_bound log m w : log_ok log -> follows log m -> 0 < w -> (forall e, e ∈ log -> run_seq e < w) -> md_at_run_seq m < w.
Proof.
  intros Hl Hf H0 Hw. rewrite (follows_at log m Hl Hf). destruct (reach_at 0 (upto (md_at_run_seq m) log)) as [->|(e & He & <-)]; [done|].
  apply elem_of_upto in He as [He _]. by apply Hw.
Qed.

Lemma follows_append log m e : log_ok log -> (forall x, x ∈ log -> run_seq x < run_seq e) -> 0 < run_seq e -> follows log m -> follows (log ++ [e]) m.
Proof.
  intros Hl Hlast H0 Hf. pose proof (follows_bound log m (run_seq e) Hl Hf H0 Hlast) as Hlt. unfold follows in *.
  rewrite upto_app, (upto_none _ [e]), app_nil_r; [done|]. intros x ->%list_elem_of_singleton. done.
Qed.

Lemma reach_app w a b : reach w (a ++ b) = reach (reach w a) b.
Proof. unfold reach. apply fold_left_app. Qed.

Lemma reach_ignored w batch : Forall (fun e => known (event_type e) = false) batch -> reach w batch = w.
Proof. unfold reach. induction 1 as [|e batch He _ IH]; cbn; [done|]. by rewrite He. Qed.

(** A prefix that can be read folds to a model at the prefix's own position. *)
Lemma read_prefix log w : log_ok log -> Forall (fun e => understood e = true) (upto w log) -> reach 0 (upto w log) = w ->
  exists m, advance_model origin (upto w log) = Ok m /\ md_at_run_seq m = w.
Proof.
  intros Hl Hu Hw. apply (fold_understood (start origin)) in Hu as [s Hs]. exists (cst_model (finish s)). unfold advance_model, advanceConsoleDag. rewrite Hs. split; [done|].
  cbn [cst_model finish with_graph md_at_run_seq]. rewrite (fold_watermark _ _ _ Hs), (start_watermark _ (emptyConsoleDag_ok _ _)). exact Hw.
Qed.

Lemma advance_ignored m pre tail m' : advance_model m (pre ++ tail) = Ok m' -> Forall (fun e => known (event_type e) = false) tail -> advance_model m pre = Ok m'.
Proof.
  intros Ha Hk. unfold advance_model, advanceConsoleDag in *. rewrite foldM_app in Ha. inv_bind. subst.
  match goal with Hf : foldM apply (start m) pre = Ok _ |- _ => rewrite Hf end. match goal with Hf : foldM apply _ tail = Ok _ |- _ => by rewrite (ignored_fold _ _ _ Hf Hk) end.
Qed.

(** One batch further, whatever of it was ignored. *)
Lemma follows_advance log m batch rest step : log_ok log -> follows log m -> beyond (md_at_run_seq m) log = batch ++ rest ->
  advanceConsoleDag m batch = Ok step -> follows log (cst_model step) /\ md_at_run_seq (cst_model step) = reach (md_at_run_seq m) batch.
Proof.
  intros Hl Hf Hb Ha. destruct (follows_readable log m batch rest Hl Hf Hb) as [Hm Hr].
  destruct (advance_ok m batch [] step Hm) as (_ & _ & s & Hfold & -> & _ & Hw); [by rewrite app_nil_r|done|].
  assert (md_at_run_seq (cst_model (finish s)) = reach (md_at_run_seq m) batch) as Hat.
  { rewrite <- Hw, (fold_watermark _ _ _ Hfold). by rewrite start_watermark. }
  split; [|done]. unfold follows. rewrite Hat. pose proof Hl as [Ho _ _]. destruct (reach_split _ _ _ _ Ho Hb) as [Hu Hign]. rewrite Hu.
  set (w := reach (md_at_run_seq m) batch) in *. apply advance_ignored with (tail := beyond w batch); [|done].
  assert (seq_ordered batch) as Hob by apply Hr. rewrite <- app_assoc, <- (upto_beyond w batch Hob).
  rewrite <- advance_model_app.
  - unfold follows in Hf. rewrite Hf. cbn. unfold advance_model. by rewrite Ha.
  - apply emptyConsoleDag_ok.
  - eapply (readable_origin log _ rest Hl). rewrite <- app_assoc, <- Hb. by apply upto_beyond.
Qed.
End Follow.

(** ** The buffer is a window of what was emitted *)
Record buffered (b : DeltaBuffer) (sent : list ConsoleDelta) : Prop := {
  bf_window : db_deltas b = drop (length sent - db_capacity b) sent;
  bf_evicted : db_evicted b = true <-> (db_capacity b < length sent)%nat
}.

Lemma buffered_new n : buffered (newBuffer n) [].
Proof. split; cbn; [done|]. split; [done|lia]. Qed.

Lemma buffered_push b sent ds : buffered b sent -> buffered (push b ds) (sent ++ ds) /\ db_capacity (push b ds) = db_capacity b.
Proof.
  intros [Hw He]. unfold push. set (n := db_capacity b) in *. assert (length (db_deltas b) = Nat.min (length sent) n) as Hlen by (rewrite Hw, length_drop; lia).
  rewrite length_app, Hlen. destruct (Nat.leb_spec (Nat.min (length sent) n + length ds) n) as [Hle|Hgt]; (split; [|done]); split; cbn; fold n.
  - rewrite Hw, length_app. destruct (decide (length sent <= n)%nat).
    + replace (length sent - n)%nat with 0%nat by lia. replace (length sent + length ds - n)%nat with 0%nat by lia. done.
    + assert (ds = []) as -> by (destruct ds; [done|cbn in *; lia]). rewrite !app_nil_r. cbn. f_equal. lia.
  - rewrite He, length_app. lia.
  - rewrite Hw, length_app. rewrite <- (drop_app_le sent ds) by lia. rewrite drop_drop. f_equal. lia.
  - rewrite length_app. split; [lia|done].
Qed.

(** ** Deltas in the order they are sent *)
Definition before (a b : ConsoleDelta) : Prop := cd_at_run_seq a < cd_at_run_seq b \/ (cd_at_run_seq a = cd_at_run_seq b /\ cd_ordinal a < cd_ordinal b).

Lemma indexed_sorted {A} (w : Z) (sp : ConsoleSpend) (f : A -> ConsoleChange) n (l : list A) :
  let ds := map (fun p => {| cd_at_run_seq := w; cd_ordinal := Z.of_nat (fst p); cd_spend := sp; cd_change := f (snd p) |}) (entries_from n l) in
  StronglySorted before ds /\ Forall (fun d => cd_at_run_seq d = w /\ Z.of_nat n <= cd_ordinal d) ds.
Proof.
  revert n; induction l as [|x l IH]; intros n; cbn; [split; constructor|]. destruct (IH (S n)) as [Hs Hf]. split; constructor.
  - done.
  - eapply Forall_impl; [exact Hf|]. intros d [Hd1 Hd2]. right. cbn. lia.
  - cbn. lia.
  - eapply Forall_impl; [exact Hf|]. intros d [Hd1 Hd2]. cbn in *. lia.
Qed.

Section Feed.
Context `{Collation}.

Lemma finish_deltas s : StronglySorted before (cst_deltas (finish s)) /\
  Forall (fun d => cd_at_run_seq d = watermark s /\ 0 <= cd_ordinal d) (cst_deltas (finish s)).
Proof. apply (indexed_sorted (watermark s) (md_spend (fs_model s)) (fun c => c) 0 (changes s)). Qed.

Lemma deltas_move m batch step : advanceConsoleDag m batch = Ok step -> Forall (fun e => md_at_run_seq m < run_seq e) batch ->
  reach (md_at_run_seq m) batch = md_at_run_seq m -> cst_deltas step = [].
Proof.
  intros Ha Hlt Hr. unfold advanceConsoleDag in Ha. inv_bind. subst step.
  assert (x = start m) as ->; [|done]. eapply ignored_fold; [eassumption|]. apply Forall_forall. intros e He. apply not_true_iff_false. intros Hk.
  destruct (reach_ge (md_at_run_seq m) batch) as [_ Hg]. specialize (Hg e He Hk). rewrite Forall_forall in Hlt. specialize (Hlt e He). lia.
Qed.

(** ** The feed of one run

    The log others write, the tailer, and every delta it has emitted. *)
Record Feed : Type := { fd_log : list StoredEvent; fd_tailer : RunTailer; fd_sent : list ConsoleDelta }.

(** A row joins the log; a subscriber comes or goes; a timer fires; a poll begins, and ends with the
    rows its query saw, which may be fewer than the log holds by then, or with an error. *)
Inductive feed_step (batchSize : nat) : Feed -> Feed -> Prop :=
| fd_append log t sent e :
    (forall x, x ∈ log -> run_seq x < run_seq e) -> 0 < run_seq e -> (forall id, creates e = Some id -> id ∉ omap creates log) ->
    feed_step batchSize {| fd_log := log; fd_tailer := t; fd_sent := sent |} {| fd_log := log ++ [e]; fd_tailer := t; fd_sent := sent |}
| fd_watch log t sent t' l :
    t' = subscribe t l \/ t' = unsubscribe t l \/ t' = fire t \/ t' = reschedule t ->
    feed_step batchSize {| fd_log := log; fd_tailer := t; fd_sent := sent |} {| fd_log := log; fd_tailer := t'; fd_sent := sent |}
| fd_begin log t sent t' after :
    pollBegin t = Some (t', after) ->
    feed_step batchSize {| fd_log := log; fd_tailer := t; fd_sent := sent |} {| fd_log := log; fd_tailer := t'; fd_sent := sent |}
| fd_end log seen later t sent t' r :
    rt_polling t = true -> log = seen ++ later -> pollEnd t (Ok (readAfter seen (md_at_run_seq (rt_model t)) batchSize)) = (t', r) ->
    feed_step batchSize {| fd_log := log; fd_tailer := t; fd_sent := sent |}
      {| fd_log := log; fd_tailer := t';
         fd_sent := sent ++ match advanceConsoleDag (rt_model t) (readAfter seen (md_at_run_seq (rt_model t)) batchSize) with Ok step => cst_deltas step | Throw _ => [] end |}
| fd_lost log t sent t' msg r :
    rt_polling t = true -> pollEnd t (Throw msg) = (t', r) ->
    feed_step batchSize {| fd_log := log; fd_tailer := t; fd_sent := sent |} {| fd_log := log; fd_tailer := t'; fd_sent := sent |}.

Definition feed_start (runId : string) (options : RunTailerOptions) : Feed :=
  {| fd_log := []; fd_tailer := newTailer runId options; fd_sent := [] |}.

Record feed_inv (runId : string) (f : Feed) : Prop := {
  fi_log : log_ok (fd_log f);
  (** the position of the model: what is before it can be read, and ends there *)
  fi_read : Forall (fun e => understood e = true) (upto (md_at_run_seq (rt_model (fd_tailer f))) (fd_log f));
  fi_at : reach 0 (upto (md_at_run_seq (rt_model (fd_tailer f))) (fd_log f)) = md_at_run_seq (rt_model (fd_tailer f));
  fi_follows : Forall (fun e => understood e = true) (fd_log f) -> follows runId (fd_log f) (rt_model (fd_tailer f));
  fi_buffer : buffered (rt_buffer (fd_tailer f)) (fd_sent f);
  fi_sorted : StronglySorted before (fd_sent f);
  fi_bound : Forall (fun d => cd_at_run_seq d <= md_at_run_seq (rt_model (fd_tailer f)) /\ 0 <= cd_ordinal d) (fd_sent f)
}.

Lemma feed_inv_start runId options : feed_inv runId (feed_start runId options).
Proof.
  split; cbn.
  - split; constructor.
  - constructor.
  - done.
  - intros _. by apply follows_start.
  - apply buffered_new.
  - constructor.
  - constructor.
Qed.

(** A change of the listeners or the timer leaves the fold alone. *)
Lemma watch_same t t' l : t' = subscribe t l \/ t' = unsubscribe t l \/ t' = fire t \/ t' = reschedule t ->
  rt_model t' = rt_model t /\ rt_buffer t' = rt_buffer t.
Proof.
  unfold subscribe, unsubscribe, fire, reschedule, schedule, stop. cbn. intros [->|[->|[->| ->]]]; repeat case_match; done.
Qed.

(** The rows a query saw are the next ones of the log. *)
Lemma readAfter_prefix log seen later w n : log = seen ++ later -> exists rest, beyond w log = readAfter seen w n ++ rest.
Proof.
  intros ->. rewrite beyond_app. unfold readAfter. change (filter_by (fun e => w <? run_seq e) seen) with (beyond w seen).
  exists (drop n (beyond w seen) ++ beyond w later). by rewrite app_assoc, take_drop.
Qed.

Lemma sorted_app sent ds w : StronglySorted before sent -> StronglySorted before ds -> Forall (fun d => cd_at_run_seq d <= w) sent ->
  (ds <> [] -> Forall (fun d => w < cd_at_run_seq d) ds) -> StronglySorted before (sent ++ ds).
Proof.
  intros H1 H2 Hb Hd. apply StronglySorted_app. split_and!; [|done|done]. intros a b Ha Hb'. left. rewrite Forall_forall in Hb. specialize (Hb a Ha).
  assert (ds <> []) as Hne by (intros ->; by apply elem_of_nil in Hb'). specialize (Hd Hne). rewrite Forall_forall in Hd. specialize (Hd b Hb'). cbn in *. lia.
Qed.

(** The fold behind a position moves it to the last event it read. *)
Lemma advance_at m batch step : 0 <= md_at_run_seq m -> advanceConsoleDag m batch = Ok step -> md_at_run_seq (cst_model step) = reach (md_at_run_seq m) batch.
Proof.
  intros H0 Ha. unfold advanceConsoleDag in Ha. inv_bind. subst step. cbn [cst_model finish with_graph md_at_run_seq].
  match goal with Hf : foldM apply _ _ = Ok _ |- _ => rewrite (fold_watermark _ _ _ Hf) end. f_equal. unfold watermark. cbn. lia.
Qed.

Lemma read_on log w batch rest : seq_ordered log -> Forall (fun e => understood e = true) (upto w log) -> reach 0 (upto w log) = w ->
  beyond w log = batch ++ rest -> Forall (fun e => understood e = true) batch ->
  Forall (fun e => understood e = true) (upto (reach w batch) log) /\ reach 0 (upto (reach w batch) log) = reach w batch.
Proof.
  intros Ho Hu Hw Hb Hub. destruct (reach_split _ _ _ _ Ho Hb) as [-> Hign]. assert (seq_ordered batch) as Hob.
  { rewrite (upto_beyond w log Ho), Hb in Ho. apply seq_ordered_app_inv in Ho as (_ & Ho & _). by apply seq_ordered_app_inv in Ho as (Ho & _ & _). }
  split.
  - apply Forall_app. split; [done|]. apply Forall_forall. intros e [He _]%elem_of_upto. rewrite Forall_forall in Hub. by apply Hub.
  - rewrite reach_app, Hw. set (r := reach w batch) in *. transitivity (reach w (upto r batch ++ beyond r batch)); [|by rewrite <- (upto_beyond r batch Hob)].
    by rewrite reach_app, (reach_ignored _ _ Hign).
Qed.

Lemma readAfter_after log w n : Forall (fun e => w < run_seq e) (readAfter log w n).
Proof. unfold readAfter. apply Forall_take, Forall_forall. intros e [_ He]%elem_of_filter_by. lia. Qed.

(** A step that moves the model on: whatever the model held, position and deltas go forward. *)
Lemma moved_on sent m batch step w : w = md_at_run_seq m -> 0 <= w -> Forall (fun e => w < run_seq e) batch -> advanceConsoleDag m batch = Ok step ->
  StronglySorted before sent -> Forall (fun d => cd_at_run_seq d <= w /\ 0 <= cd_ordinal d) sent ->
  StronglySorted before (sent ++ cst_deltas step) /\ Forall (fun d => cd_at_run_seq d <= md_at_run_seq (cst_model step) /\ 0 <= cd_ordinal d) (sent ++ cst_deltas step).
Proof.
  intros Ew H0 Hlt Ha Hs Hbd. subst w. pose proof (advance_at _ _ _ H0 Ha) as Hat. destruct (reach_ge (md_at_run_seq m) batch) as [Hge _].
  assert (StronglySorted before (cst_deltas step) /\ Forall (fun d => cd_at_run_seq d = md_at_run_seq (cst_model step) /\ 0 <= cd_ordinal d) (cst_deltas step)) as [Hds Hdf].
  { unfold advanceConsoleDag in Ha. inv_bind. subst step. by destruct (finish_deltas x). }
  split.
  - eapply sorted_app with (w := md_at_run_seq m); [done|done| |].
    + eapply Forall_impl; [exact Hbd|]. cbn. tauto.
    + intros Hne. destruct (decide (reach (md_at_run_seq m) batch = md_at_run_seq m)) as [E|E]; [destruct Hne; by eapply deltas_move|].
      eapply Forall_impl; [exact Hdf|]. cbn. lia.
  - apply Forall_app. split; eapply Forall_impl; [exact Hbd| |exact Hdf|]; cbn; lia.
Qed.

Lemma feed_inv_end runId log seen later t sent t' r n : feed_inv runId {| fd_log := log; fd_tailer := t; fd_sent := sent |} -> log = seen ++ later ->
  pollEnd t (Ok (readAfter seen (md_at_run_seq (rt_model t)) n)) = (t', r) ->
  feed_inv runId {| fd_log := log; fd_tailer := t';
    fd_sent := sent ++ match advanceConsoleDag (rt_model t) (readAfter seen (md_at_run_seq (rt_model t)) n) with Ok step => cst_deltas step | Throw _ => [] end |}.
Proof.
  intros [Hl Hu Hw Hf Hb Hs Hbd] Hlog Hp. cbn [fd_log fd_tailer fd_sent] in *. destruct (readAfter_prefix log seen later (md_at_run_seq (rt_model t)) n Hlog) as [rest Hrest].
  pose proof (readAfter_after seen (md_at_run_seq (rt_model t)) n) as Hlt. set (batch := readAfter _ _ _) in *.
  assert (0 <= md_at_run_seq (rt_model t)) as H0 by (rewrite <- Hw; apply reach_ge).
  assert (Forall (fun e => understood e = true) log -> Forall (fun e => understood e = true) batch) as Hall.
  { rewrite (upto_beyond (md_at_run_seq (rt_model t)) log (lk_ordered _ Hl)), Hrest, !Forall_app. tauto. }
  destruct (advanceConsoleDag (rt_model t) batch) as [step|msg] eqn:Ha.
  - assert (Forall (fun e => understood e = true) batch) as Hub.
    { apply (fold_understood (start (rt_model t))). unfold advanceConsoleDag in Ha. inv_bind. by eexists. }
    destruct (read_on _ _ _ _ (lk_ordered _ Hl) Hu Hw Hrest Hub) as [Hu' Hw']. rewrite <- (advance_at _ _ _ H0 Ha) in Hu', Hw'.
    destruct (moved_on sent _ _ _ _ eq_refl H0 Hlt Ha Hs Hbd) as [Hs' Hbd'].
    assert (Forall (fun e => understood e = true) log -> follows runId log (cst_model step)) as Hf' by (intros H1; by destruct (follows_advance _ _ _ _ _ _ Hl (Hf H1) Hrest Ha)).
    assert (feed_inv runId {| fd_log := log; fd_tailer := with_poll t (cst_model step) (push (rt_buffer t) (cst_deltas step)) 0 false; fd_sent := sent ++ cst_deltas step |}) as Hinv.
    { split; cbn; [done|done|done|done|by apply buffered_push|done|done]. }
    destruct batch as [|e0 b0]; [|cbn [pollEnd] in Hp; rewrite Ha in Hp; destruct (cst_deltas step) as [|d ds] eqn:Eds; injection Hp as <- _].
    + injection Hp as <- _. unfold advanceConsoleDag in Ha. cbn in Ha. injection Ha as <-. cbn. rewrite app_nil_r. by split.
    + rewrite app_nil_r in *. by split.
    + exact Hinv.
  - rewrite app_nil_r. destruct batch as [|e0 b0]; [done|]. cbn [pollEnd] in Hp. rewrite Ha in Hp. injection Hp as <- _. split; cbn; try done.
    intros [s' Hs']%Hall%(fold_understood (start (rt_model t))). unfold advanceConsoleDag in Ha. by rewrite Hs' in Ha.
Qed.

(** The position of the model is one of the log. *)
Lemma read_before log w e : reach 0 (upto w log) = w -> 0 < run_seq e -> (forall x, x ∈ log -> run_seq x < run_seq e) -> w < run_seq e.
Proof. intros Hw H0 Hlast. rewrite <- Hw. destruct (reach_at 0 (upto w log)) as [->|(x & Hx & <-)]; [done|]. apply elem_of_upto in Hx as [Hx _]. by apply Hlast. Qed.

Lemma feed_inv_step runId n f f' : feed_inv runId f -> feed_step n f f' -> feed_inv runId f'.
Proof.
  intros Hi Hs. destruct Hs as [log t sent e Hlast H0 Hfresh|log t sent t' l Ht|log t sent t' after Hb|log seen later t sent t' r _ Hlog Hp|log t sent t' msg r _ Hp].
  - destruct Hi as [Hl Hu Hw Hf Hb Hs Hbd]. cbn [fd_log fd_tailer fd_sent] in *. assert (upto (md_at_run_seq (rt_model t)) (log ++ [e]) = upto (md_at_run_seq (rt_model t)) log) as Hup.
    { rewrite upto_app, (upto_none _ [e]), app_nil_r; [done|]. intros x ->%list_elem_of_singleton. by eapply read_before. }
    split; cbn [fd_log fd_tailer fd_sent]; [|by rewrite Hup|by rewrite Hup| |done..].
    + destruct Hl as [Ho Hpos Hc]. split.
      * apply StronglySorted_app. split_and!; [intros a b Ha ->%list_elem_of_singleton; by apply Hlast|done|repeat constructor].
      * apply Forall_app. split; [done|by rewrite Forall_singleton].
      * rewrite omap_app. apply NoDup_app. split_and!; [done| |].
        -- cbn. destruct (creates e) as [id|] eqn:Ec; [|intros ? _ Hx; by apply elem_of_nil in Hx]. intros x Hx ->%list_elem_of_singleton. by apply (Hfresh id).
        -- cbn. destruct (creates e); [apply NoDup_singleton|apply NoDup_nil_2].
    + intros [H1 _]%Forall_app. by apply follows_append; [..|apply Hf].
  - apply watch_same in Ht as [E1 E2]. destruct Hi as [Hl Hu Hw Hf Hb Hs Hbd]. cbn in *. split; cbn; rewrite ?E1, ?E2; done.
  - unfold pollBegin in Hb. destruct (rt_polling t); [done|]. injection Hb as <- _. destruct Hi as [Hl Hu Hw Hf Hb Hs Hbd]. by split.
  - by eapply feed_inv_end.
  - injection Hp as <- _. destruct Hi as [Hl Hu Hw Hf Hb Hs Hbd]. by split.
Qed.

Lemma feed_reachable runId options n f : rtc (feed_step n) (feed_start runId options) f -> feed_inv runId f.
Proof. intros Hr. remember (feed_start runId options) as f0 eqn:E. assert (feed_inv runId f0) as H0 by (subst; apply feed_inv_start). clear E. induction Hr; [done|]. apply IHHr. by eapply feed_inv_step. Qed.

Lemma pollEnd_throws t rows t' msg : pollEnd t (Ok rows) = (t', Throw msg) ->
  advanceConsoleDag (rt_model t) rows = Throw msg /\ t' = with_poll t (spoiled (rt_model t) rows) (rt_buffer t) 0 false.
Proof.
  unfold pollEnd. destruct rows as [|e rows]; [done|]. destruct (advanceConsoleDag _ _) as [step|m]; [by destruct (cst_deltas step)|]. by intros [= <- <-].
Qed.


(** ** Resuming *)

(** The deltas after a position of the stream. *)
Definition after (at_run_seq ordinal : Z) (d : ConsoleDelta) : bool :=
  (at_run_seq <? cd_at_run_seq d) || ((at_run_seq =? cd_at_run_seq d) && (ordinal <? cd_ordinal d)).

Definition exact (z : Z) : Prop := 0 <= z < 2 ^ 53.

Lemma precedes_exact a o d : exact a -> exact o -> exact (cd_at_run_seq d) -> exact (cd_ordinal d) -> precedes (cursor_at a o) (delta_cursor d) = after a o d.
Proof. intros [] [] [] []. unfold precedes, delta_cursor, cursor_at, after. cbn. by rewrite of_Z_lt, of_Z_eq, of_Z_lt. Qed.

(** The place just before a delta is not passed by a cursor below it in its batch. *)
Lemma precedes_floor a o d : exact a -> exact o -> exact (cd_at_run_seq d) -> exact (cd_ordinal d) ->
  precedes (cursor_at a o) (cursor_at (cd_at_run_seq d) (cd_ordinal d - 1)) = (a <? cd_at_run_seq d) || ((a =? cd_at_run_seq d) && (o <? cd_ordinal d - 1)).
Proof.
  intros [] [] [] []. unfold precedes, cursor_at. cbn. rewrite of_Z_lt, of_Z_eq by done. do 2 f_equal.
  destruct (decide (cd_ordinal d = 0)) as [->|]; [|apply of_Z_lt; lia]. rewrite (proj2 (Z.ltb_ge o (0 - 1))) by lia.
  change (0 - 1) with (-1). apply not_true_iff_false. rewrite num_lt_spec.
  assert (Num.of_Z (-1) = S754_finite true 4503599627370496 (-52)) as -> by (vm_compute; reflexivity). destruct o as [|p|p]; [by intros []| |lia]. destruct (of_Z_exact p) as (m & -> & _); [lia|]. by intros [].
Qed.

Lemma filter_after_sorted a o l1 l2 : StronglySorted before (l1 ++ l2) -> (forall d, d ∈ l1 -> after a o d = false) ->
  filter_by (after a o) (l1 ++ l2) = filter_by (after a o) l2.
Proof.
  intros _ Hn. rewrite filter_by_app. assert (filter_by (after a o) l1 = []) as ->; [|done].
  induction l1 as [|d l1 IH]; [done|]. cbn. rewrite Hn by left. apply IH. intros x Hx. apply Hn. by right.
Qed.

Lemma resume_exact runId f a o ds : feed_inv runId f -> exact a -> exact o -> Forall (fun d => exact (cd_at_run_seq d) /\ exact (cd_ordinal d)) (fd_sent f) ->
  resolveResume (Some (cursor_at a o)) (rt_buffer (fd_tailer f)) (md_at_run_seq (rt_model (fd_tailer f))) = replay ds -> ds = filter_by (after a o) (fd_sent f).
Proof.
  intros [_ _ _ _ [Hw He] Hs _] Ha Ho Hex Hres. set (b := rt_buffer (fd_tailer f)) in *. set (sent := fd_sent f) in *.
  set (l1 := take (length sent - db_capacity b) sent). assert (sent = l1 ++ db_deltas b) as Hsplit by (rewrite Hw; unfold l1; by rewrite take_drop).
  assert (filter_by (fun d => precedes (cursor_at a o) (delta_cursor d)) (db_deltas b) = filter_by (after a o) (db_deltas b)) as Hfilter.
  { apply List.filter_ext_in. intros d Hd%list_elem_of_In. rewrite Forall_forall in Hex. destruct (Hex d) as [H1 H2]; [rewrite Hsplit; apply elem_of_app; by right|]. by apply precedes_exact. }
  unfold resolveResume in Hres. cbn [cu_at_run_seq cu_ordinal cursor_at] in Hres. destruct (negb _ || negb _); [done|]. destruct (Num.lt _ _); [done|].
  rewrite Hfilter in Hres. rewrite Hsplit. rewrite Hsplit in Hs.
  destruct (db_evicted b) eqn:Ev.
  - destruct (db_deltas b) as [|floor rest] eqn:Ed; [done|]. rewrite Forall_forall in Hex.
    destruct (Hex floor) as [F1 F2]; [rewrite Hsplit; apply elem_of_app; right; left|]. rewrite precedes_floor in Hres by done.
    destruct ((a <? cd_at_run_seq floor) || _) eqn:Ef; [done|]. injection Hres as <-. symmetry. apply filter_after_sorted; [done|].
    intros d Hd. apply StronglySorted_app in Hs as (Hlt & _ & _). specialize (Hlt d floor Hd ltac:(left)). unfold after.
    apply orb_false_iff in Ef as [E1%Z.ltb_ge E2]. apply andb_false_iff in E2. destruct F2. destruct Hlt as [Hlt|[Hlt1 Hlt2]].
    + apply orb_false_iff. split; [lia|]. apply andb_false_iff. left. lia.
    + apply orb_false_iff. split; [lia|]. apply andb_false_iff. destruct E2; lia.
  - injection Hres as <-. assert (l1 = []) as ->; [|done]. unfold l1. assert (length sent - db_capacity b = 0)%nat as ->; [|done].
    assert (~ (db_capacity b < length sent)%nat) by (intros Hc; apply He in Hc; congruence). lia.
Qed.

(** C20. A replay is exact: a reconnecting client whose cursor the server accepts is handed every delta
    the process emitted after that cursor, in order, and no other; a cursor whose successors were
    partly evicted from the bounded buffer is never served a gap, it is sent to a fresh snapshot. *)
Theorem stream_resume_exact runId options n f a o ds :
  rtc (feed_step n) (feed_start runId options) f -> exact a -> exact o -> Forall (fun d => exact (cd_at_run_seq d) /\ exact (cd_ordinal d)) (fd_sent f) ->
  resolveResume (Some (cursor_at a o)) (rt_buffer (fd_tailer f)) (md_at_run_seq (rt_model (fd_tailer f))) = replay ds ->
  ds = filter_by (after a o) (fd_sent f).
Proof. intros Hr. by apply (resume_exact runId), (feed_reachable _ _ _ _ Hr). Qed.

(** C24. The buffer stays bounded however long the run lives, and it remembers that it lost something
    exactly when it did. *)
Theorem buffer_bounded runId options n f :
  rtc (feed_step n) (feed_start runId options) f ->
  let b := rt_buffer (fd_tailer f) in
  (length (db_deltas b) <= db_capacity b)%nat /\ db_deltas b `suffix_of` fd_sent f /\ (db_evicted b = true <-> db_deltas b <> fd_sent f).
Proof.
  intros Hr b. destruct (feed_reachable _ _ _ _ Hr) as [_ _ _ _ [Hw He] _ _]. fold b in Hw, He. split_and!.
  - rewrite Hw, length_drop. lia.
  - rewrite Hw. eexists (take _ _). by rewrite take_drop.
  - rewrite He, Hw. split.
    + intros Hlt Heq. apply (f_equal length) in Heq. rewrite length_drop in Heq. 
lia.
    + intros Hne. destruct (decide (db_capacity b < length (fd_sent f))%nat) as [|Hge]; [done|]. destruct Hne. by replace (length (fd_sent f) - db_capacity b)%nat with 0%nat by lia.
Qed.

(** ** Catching up *)
Lemma beyond_le w l : (length (beyond w l) <= length l)%nat.
Proof. induction l as [|e l IH]; cbn; [done|]. destruct (w <? run_seq e); cbn; unfold beyond in IH; lia. Qed.

(** A fold of nothing is the model it started from. *)
Lemma restart_model m : model_ok m -> cst_model (finish (start m)) = m.
Proof.
  intros Hm. destruct (sorted_values (start m) (start_sound m Hm)) as [Hv Hc]. cbn [cst_model finish].
  rewrite Hv, Hc, (start_watermark m Hm), (start_vertices m Hm), (start_scopes m Hm). unfold JMap.values. rewrite !map_map, !map_id. by destruct m.
Qed.

Definition polls (n : nat) (log : list StoredEvent) (k : nat) (t : RunTailer) : RunTailer := Nat.iter k (fun t => fst (pollOnce n log t)) t.

(** One poll of an idle tailer, by what its query returns. *)
Lemma pollOnce_model n log t : rt_polling t = false ->
  let batch := readAfter log (md_at_run_seq (rt_model t)) n in
  let t' := fst (pollOnce n log t) in
  rt_polling t' = false /\
  rt_model t' = match batch with
                | [] => rt_model t
                | _ => match advanceConsoleDag (rt_model t) batch with Ok step => cst_model step | Throw _ => spoiled (rt_model t) batch end
                end.
Proof.
  intros Hp. unfold pollOnce, pollBegin. rewrite Hp. cbn zeta. cbn [pollEnd rt_model with_poll].
  set (batch := readAfter _ _ _). destruct batch as [|e b] eqn:Eb; [done|]. cbn [pollEnd rt_model with_poll].
  destruct (advanceConsoleDag (rt_model t) (e :: b)) as [step|msg]; [|done]. by destruct (cst_deltas step).
Qed.

(** A poll that finds rows it understands leaves fewer of them behind. *)
Lemma poll_progress runId n log m t : log_ok log -> Forall (fun e => known (event_type e) = true) log -> (0 < n)%nat ->
  advance_model (emptyConsoleDag runId CONSOLE_PROJECTOR_VERSION) log = Ok m -> follows runId log (rt_model t) -> rt_polling t = false ->
  let t' := fst (pollOnce n log t) in
  rt_polling t' = false /\ follows runId log (rt_model t') /\
  (beyond (md_at_run_seq (rt_model t)) log = [] \/ (length (beyond (md_at_run_seq (rt_model t')) log) < length (beyond (md_at_run_seq (rt_model t)) log))%nat).
Proof.
  intros Hl Hk Hn Hm Hf Hp t'. destruct (pollOnce_model n log t Hp) as [Hp' Hmodel]. fold t' in Hp', Hmodel. split; [done|].
  set (w := md_at_run_seq (rt_model t)) in *. set (batch := readAfter log w n) in *.
  assert (beyond w log = batch ++ drop n (beyond w log)) as Hb by (unfold batch, readAfter; change (filter_by _ log) with (beyond w log); by rewrite take_drop).
  destruct batch as [|e b] eqn:Eb.
  { rewrite Hmodel. split; [done|]. left. unfold batch, readAfter in Eb. change (filter_by _ log) with (beyond w log) in Eb.
    destruct (beyond w log); [done|]. destruct n; [lia|done]. }
  destruct (follows_readable _ _ _ _ _ Hl Hf Hb) as [Hmo Hr].
  destruct (advanceConsoleDag (rt_model t) (e :: b)) as [step|msg] eqn:Ha.
  - rewrite Hmodel. destruct (follows_advance _ _ _ _ _ _ Hl Hf Hb Ha) as [Hf' Hat]. split; [done|]. right. rewrite Hat.
    destruct (reach_ge w (e :: b)) as [Hge Hkn]. fold w. set (r := reach w (e :: b)) in *. set (rest := drop n (beyond w log)) in *.
    assert (forall l, (forall x, x ∈ l -> run_seq x <= r) -> beyond r l = []) as Hnone.
    { intros l Hle. apply elem_of_nil_inv. intros x [Hx Hgt]%elem_of_beyond. specialize (Hle x Hx). lia. }
    assert (beyond r log = beyond r rest) as ->.
    { rewrite (upto_beyond w log (lk_ordered _ Hl)) at 1. rewrite Hb, !beyond_app, (Hnone (upto w log)), (Hnone (e :: b)); [done| |].
      - intros x Hx. apply Hkn; [done|]. rewrite Forall_forall in Hk. apply Hk. assert (x ∈ beyond w log) as [H1 _]%elem_of_beyond; [|done]. rewrite Hb. apply elem_of_app. by left.
      - intros x [_ Hx]%elem_of_upto. lia. }
    rewrite Hb, length_app. cbn [length]. pose proof (beyond_le r rest). lia.
  - exfalso. rewrite (upto_beyond w log (lk_ordered _ Hl)), Hb in Hm. rewrite <- advance_model_app in Hm.
    + unfold follows in Hf. fold w in Hf. rewrite Hf in Hm. cbn [mbind result_bind] in Hm. unfold advance_model, advanceConsoleDag in Hm, Ha. rewrite foldM_app in Hm.
      destruct (foldM apply (start (rt_model t)) (e :: b)); [done|]. done.
    + apply emptyConsoleDag_ok.
    + rewrite <- Hb. rewrite <- (upto_beyond w log (lk_ordered _ Hl)). apply (readable_origin runId log log []); [done|by rewrite app_nil_r].
Qed.

Lemma polls_catch_up runId n log m k t : log_ok log -> Forall (fun e => known (event_type e) = true) log -> (0 < n)%nat ->
  advance_model (emptyConsoleDag runId CONSOLE_PROJECTOR_VERSION) log = Ok m -> follows runId log (rt_model t) -> rt_polling t = false ->
  (length (beyond (md_at_run_seq (rt_model t)) log) <= k)%nat -> rt_model (polls n log k t) = m.
Proof.
  intros Hl Hk Hn Hm. revert t; induction k as [|k IH]; intros t Hf Hp Hlen.
  - assert (beyond (md_at_run_seq (rt_model t)) log = []) as Hb by (apply nil_length_inv; lia). cbn.
    unfold follows in Hf. rewrite (upto_beyond (md_at_run_seq (rt_model t)) log (lk_ordered _ Hl)), Hb, app_nil_r in Hm. rewrite Hf in Hm. by apply Ok_inj in Hm.
  - unfold polls. rewrite Nat.iter_succ_r. change (rt_model (polls n log k (fst (pollOnce n log t))) = m).
    destruct (poll_progress runId n log m t) as (Hp' & Hf' & Hlt); try done. apply IH; [done|done|].
    destruct Hlt as [Hb|Hlt]; [|lia]. destruct (pollOnce_model n log t Hp) as [_ Hmodel]. unfold readAfter in Hmodel.
    change (filter_by _ log) with (beyond (md_at_run_seq (rt_model t)) log) in Hmodel. rewrite Hb, take_nil in Hmodel. rewrite Hmodel, Hb. cbn. lia.
Qed.

(** C22. A tailer catches up: once the log stands still, and whatever happened before, at most one poll
    per row of the log brings its model to the fold of the whole log, for any positive batch size,
    when every event is of the vocabulary. *)
Theorem tail_catches_up runId options n f m k :
  rtc (feed_step n) (feed_start runId options) f -> rt_polling (fd_tailer f) = false -> (0 < n)%nat ->
  Forall (fun e => known (event_type e) = true) (fd_log f) ->
  advance_model (emptyConsoleDag runId CONSOLE_PROJECTOR_VERSION) (fd_log f) = Ok m -> (length (fd_log f) <= k)%nat ->
  rt_model (polls n (fd_log f) k (fd_tailer f)) = m.
Proof.
  intros Hr Hp Hn Hk Hm Hlen. destruct (feed_reachable _ _ _ _ Hr) as [Hl _ _ Hf _ _ _]. eapply polls_catch_up; try done.
  { apply Hf, (fold_understood (start (emptyConsoleDag runId CONSOLE_PROJECTOR_VERSION))). unfold advance_model, advanceConsoleDag in Hm. inv_bind. by eexists. }
  transitivity (length (fd_log f)); [apply beyond_le|done].
Qed.

(** A window of ignored events as long as a batch is read again at every poll and never passed, since
    ignored events do not move the watermark. *)
Theorem ignored_window_stalls n log t k : rt_polling t = false ->
  Forall (fun e => known (event_type e) = false /\ ignorable e = true) (readAfter log (md_at_run_seq (rt_model t)) n) ->
  model_ok (rt_model t) -> rt_model (polls n log k t) = rt_model t.
Proof.
  intros Hp Hall Hm. assert (rt_polling (polls n log k t) = false /\ rt_model (polls n log k t) = rt_model t) as [_ E]; [|done].
  induction k as [|k [IHp IHm]]; [done|]. change (polls n log (S k) t) with (fst (pollOnce n log (polls n log k t))). set (t' := polls n log k t) in *.
  destruct (pollOnce_model n log t' IHp) as [Hp' Hmodel]. split; [done|]. rewrite Hmodel, IHm. destruct (readAfter _ _ _) as [|e b] eqn:Eb; [done|].
  assert (forall s l, Forall (fun e => known (event_type e) = false /\ ignorable e = true) l -> foldM apply s l = Ok s) as Hfold.
  { intros s l Hl. induction Hl as [|x l [Hx Hi] _ IHl]; [done|]. cbn [foldM]. assert (apply s x = Ok s) as -> by (unfold apply; by rewrite Hx, Hi). exact IHl. }
  unfold advanceConsoleDag. rewrite Hfold by done. cbn [mbind result_bind].
  exact (restart_model (rt_model t) Hm).
Qed.
End Feed.

(** ** Concrete feeds: a log that is there, polled a number of times *)
Section Runs.
Context `{Collation}.

Definition loaded (runId : string) (options : RunTailerOptions) (log : list StoredEvent) : Feed :=
  {| fd_log := log; fd_tailer := newTailer runId options; fd_sent := [] |}.

Definition poll_feed (n : nat) (f : Feed) : Feed :=
  {| fd_log := fd_log f; fd_tailer := fst (pollOnce n (fd_log f) (fd_tailer f));
     fd_sent := fd_sent f ++ match advanceConsoleDag (rt_model (fd_tailer f)) (readAfter (fd_log f) (md_at_run_seq (rt_model (fd_tailer f))) n) with
                             | Ok step => cst_deltas step | Throw _ => [] end |}.

Lemma loaded_reachable runId options n log : log_ok log -> rtc (feed_step n) (feed_start runId options) (loaded runId options log).
Proof.
  induction log as [|e log IH] using rev_ind; intros [Ho Hp Hc]; [done|].
  apply seq_ordered_app_inv in Ho as (H1 & _ & H12). apply Forall_app in Hp as [Hp He]. rewrite Forall_singleton in He.
  rewrite omap_app in Hc. apply NoDup_app in Hc as (Hc & Hd & _). etransitivity; [apply IH; by split|]. apply rtc_once. apply fd_append; [|done|].
  - intros x Hx. apply H12; [done|left].
  - intros id Hid Hin. apply (Hd id Hin). cbn. rewrite Hid. left.
Qed.

Lemma poll_feed_steps n f : rt_polling (fd_tailer f) = false -> rtc (feed_step n) f (poll_feed n f) /\ rt_polling (fd_tailer (poll_feed n f)) = false.
Proof.
  intros Hp. destruct (pollOnce_model n (fd_log f) (fd_tailer f) Hp) as [Hp' _]. split; [|exact Hp'].
  destruct f as [log t sent]. cbn in *. unfold poll_feed, pollOnce, pollBegin. cbn. rewrite Hp.
  eapply rtc_l; [eapply fd_begin; unfold pollBegin; rewrite Hp; reflexivity|]. apply rtc_once.
  exact (fd_end n log log [] (with_poll t (rt_model t) (rt_buffer t) (rt_quietPolls t) true) sent _ _ eq_refl (eq_sym (app_nil_r log)) (surjective_pairing _)).
Qed.

Lemma poll_feed_reachable runId options n f : rtc (feed_step n) (feed_start runId options) f -> rt_polling (fd_tailer f) = false ->
  rtc (feed_step n) (feed_start runId options) (poll_feed n f) /\ rt_polling (fd_tailer (poll_feed n f)) = false.
Proof. intros Hr Hp. destruct (poll_feed_steps n f Hp) as [Hs Hp']. split; [by etransitivity|done]. Qed.
End Runs.

#[local] Instance witness_collation : Collation := code_unit_collation.

Definition small_options : RunTailerOptions :=
  {| op_activeIntervalMs := 250; op_idleIntervalMs := 2000; op_idleAfterPolls := 10; op_bufferSize := 2 |}.

Lemma console_log_ok : log_ok console_log.
Proof. split; [repeat constructor|repeat constructor|apply (bool_decide_unpack _); vm_compute; exact I]. Qed.

Definition watched : Feed := poll_feed 5 (poll_feed 5 (poll_feed 5 (loaded "r1" small_options console_log))).

Lemma watched_reachable : rtc (feed_step 5) (feed_start "r1" small_options) watched.
Proof.
  unfold watched. pose proof (loaded_reachable "r1" small_options 5 console_log console_log_ok) as H0.
  destruct (poll_feed_reachable _ _ _ _ H0 eq_refl) as [H1 P1]. destruct (poll_feed_reachable _ _ _ _ H1 P1) as [H2 P2].
  by destruct (poll_feed_reachable _ _ _ _ H2 P2) as [H3 P3].
Qed.

(** A retry, then an event of a later vocabulary that may not be skipped. *)
Definition unread_log : list StoredEvent :=
  [sample_event 1 run_start None [] None []; sample_event 2 vertex_created (Some "v1") [] None [("role", VStr "tool")];
   sample_event 3 vertex_retried (Some "v1") [] None []; sample_event 4 (unknown_event "audit/signed") None [] None []].

Lemma unread_log_ok : log_ok unread_log.
Proof. split; [repeat constructor|repeat constructor|apply (bool_decide_unpack _); vm_compute; exact I]. Qed.

Definition stuck : Feed := poll_feed 2 (poll_feed 2 (loaded "r1" small_options unread_log)).

Lemma stuck_reachable : rtc (feed_step 2) (feed_start "r1" small_options) stuck.
Proof.
  unfold stuck. destruct (poll_feed_reachable _ _ _ _ (loaded_reachable "r1" small_options 2 unread_log unread_log_ok) eq_refl) as [H1 P1].
  by destruct (poll_feed_reachable _ _ _ _ H1 P1) as [H2 _].
Qed.

Definition attempts_seen (t : RunTailer) : list number := map (fun v => tm_attempts (cv_timing v)) (md_vertices (rt_model t)).

(** Every poll folds the retry again onto the same vertex before it throws: the model at 2 counts an
    attempt more each time, and is no longer the fold of the log up to 2. *)
Example unread_event_spoils :
  map (fun k => md_at_run_seq (rt_model (polls 2 unread_log k (newTailer "r1" small_options)))) [1; 2; 3; 4]%nat = [2; 2; 2; 2] /\
  map (fun k => attempts_seen (polls 2 unread_log k (newTailer "r1" small_options))) [1; 2; 3; 4]%nat = map (fun z => [Num.of_Z z]) [0; 1; 2; 3].
Proof. vm_compute. auto. Qed.


(** Four deltas were sent and two are kept; a client that saw the discard is handed the patch after it. *)
Definition resumed : list ConsoleDelta := drop 3 (fd_sent watched).

Lemma stream_resume_exact_witness :
  length (fd_sent watched) = 4%nat /\ length (db_deltas (rt_buffer (fd_tailer watched))) = 2%nat /\ resumed = filter_by (after 12 0) (fd_sent watched) /\
  resolveResume (Some (cursor_at 5 0)) (rt_buffer (fd_tailer watched)) 12 = fresh_snapshot below_buffer.
Proof.
  split; [vm_compute; reflexivity|]. split; [vm_compute; reflexivity|]. split; [|vm_compute; reflexivity].
  apply (stream_resume_exact "r1" small_options 5 watched 12 0).
  - exact watched_reachable.
  - split; vm_compute; [discriminate|reflexivity].
  - split; vm_compute; [discriminate|reflexivity].
  - apply (bool_decide_unpack _). vm_compute. exact I.
  - vm_compute. reflexivity.
Defined.

Lemma buffer_bounded_witness :
  (length (db_deltas (rt_buffer (fd_tailer watched))) <= 2)%nat /\ db_evicted (rt_buffer (fd_tailer watched)) = true.
Proof.
  destruct (buffer_bounded "r1" small_options 5 watched watched_reachable) as (Hlen & _ & _).
  split; [exact Hlen|vm_compute; reflexivity].
Defined.

Definition console_model : ConsoleDagModel :=
  match advance_model (emptyConsoleDag "r1" CONSOLE_PROJECTOR_VERSION) console_log with Ok m => m | Throw _ => emptyConsoleDag "" "" end.

Lemma tail_catches_up_witness :
  rt_model (polls 5 console_log 12 (newTailer "r1" small_options)) = console_model.
Proof.
  apply (tail_catches_up "r1" small_options 5 (loaded "r1" small_options console_log) console_model 12).
  - apply loaded_reachable. exact console_log_ok.
  - reflexivity.
  - lia.
  - repeat constructor.
  - vm_compute. reflexivity.
  - vm_compute. lia.
Defined.

(** An event of a later vocabulary that may be skipped, in front of one that may not: a reader with
    batches of one never reaches the second. *)
Definition future_log : list StoredEvent :=
  [sample_event 1 run_start None [] None [];
   {| run_id := "r1"; run_seq := 2; global_seq := 2; event_type := unknown_event "metrics/sampled"; vertex_id := None; parent_refs := [];
      planner_id := None; scope_id := None; pin_version := None; ignorable := true; inherited := false; payload := []; created_at := "" |};
   sample_event 3 vertex_created (Some "v1") [] None [("role", VStr "tool")]].

Example future_log_stalls :
  md_at_run_seq (rt_model (polls 1 future_log 20 (newTailer "r1" small_options))) = 1 /\
  md_at_run_seq (rt_model (polls 2 future_log 20 (newTailer "r1" small_options))) = 3.
Proof. vm_compute. split; reflexivity. Qed.
