(* ===== verification/ConsoleClient.v ===== *)
(** * The browser's copy (console/client/src/stream/applyEvent.ts, stream/useRunStream.ts)

    Applying a delta is not folding an event: the client writes what the server named. A client that
    holds the server's model and applies the deltas of a batch without discards ends with the server's
    vertices. *)

From S2P Require Import Prelude Collections Number Json Events Projection Console ConsoleFacts ConsoleStream ConsoleTail.

(** ** Applying an event *)
Record ClientModel : Type := { cm_model : ConsoleDagModel; cm_byId : list (string * ConsoleVertex); cm_ordinal : Z }.

Definition index (vs : list ConsoleVertex) : list (string * ConsoleVertex) := JMap.of_entries (map (fun v => (cv_vertex_id v, v)) vs).

Definition clientModel (m : ConsoleDagModel) (ordinal : Z) : ClientModel := {| cm_model := m; cm_byId := index (md_vertices m); cm_ordinal := ordinal |}.

Inductive ResyncReason : Type := delta_before_snapshot | run_mismatch | unknown_vertex | unknown_event_type.

Inductive ApplyOutcome : Type :=
| applied_event (next : ClientModel)
| ignored_event
| resync (reason : ResyncReason).

(** The model with the server's rollup and position, and the lists a delta changes. *)
Definition with_changes (m : ConsoleDagModel) (vs : list ConsoleVertex) (ss : list ConsoleScope) (rs : list ConsoleReplan) (d : ConsoleDelta) : ConsoleDagModel :=
  {| md_run_id := md_run_id m; md_kind := md_kind m; md_at_run_seq := cd_at_run_seq d; md_started_at := md_started_at m; md_vertices := vs; md_scopes := ss;
     md_replans := rs; md_proposals := md_proposals m; md_cancel_requests := md_cancel_requests m; md_counterfactuals := md_counterfactuals m;
     md_spend := cd_spend d; md_announced := md_announced m; md_console_projector_version := md_console_projector_version m |}.

Definition applied (current : ClientModel) (d : ConsoleDelta) (vs : list ConsoleVertex) (ss : list ConsoleScope) (rs : list ConsoleReplan) : ApplyOutcome :=
  applied_event (clientModel (with_changes (cm_model current) vs ss rs d) (cd_ordinal d)).

(** The positions a client has already seen. *)
Definition behind (current : ClientModel) (d : ConsoleDelta) : bool :=
  (cd_at_run_seq d <? md_at_run_seq (cm_model current)) ||
  ((cd_at_run_seq d =? md_at_run_seq (cm_model current)) && (cd_ordinal d <=? cm_ordinal current)).

Definition shaded (r : ConsoleReplan) (v : ConsoleVertex) : ConsoleVertex :=
  if includes (cv_vertex_id v) (cr_vertex_ids r) then with_shadow v (true, Some (cr_at_run_seq r)) else v.

Definition swapped (w v : ConsoleVertex) : ConsoleVertex := if cv_vertex_id v ==? cv_vertex_id w then w else v.

Definition applyDelta (current : ClientModel) (d : ConsoleDelta) : ApplyOutcome :=
  let m := cm_model current in
  match cd_change d with
  | subgraph_appended vertices scopes =>
      let scopeIds := map cs_scope_id scopes in
      applied current d (md_vertices m ++ vertices) (filter_by (fun c => negb (includes (cs_scope_id c) scopeIds)) (md_scopes m) ++ scopes) (md_replans m)
  | subgraph_hidden r =>
      if forallb (fun id => JMap.has (cm_byId current) id) (cr_vertex_ids r)
      then applied current d (map (shaded r) (md_vertices m)) (md_scopes m)
             (filter_by (fun x => negb (cr_at_run_seq x =? cr_at_run_seq r)) (md_replans m) ++ [r])
      else resync unknown_vertex
  | vertex_patched v =>
      if JMap.has (cm_byId current) (cv_vertex_id v) then applied current d (map (swapped v) (md_vertices m)) (md_scopes m) (md_replans m)
      else resync unknown_vertex
  end.

Definition applyEvent (current : option ClientModel) (event : ConsoleStreamEvent) : ApplyOutcome :=
  match event with
  | stream_snapshot _ ordinal model => applied_event (clientModel model ordinal)
  | stream_delta d =>
      match current with
      | None => resync delta_before_snapshot
      | Some c => if behind c d then ignored_event else applyDelta c d
      end
  end.

(** ** The subscription ([useRunStream]): the model held, and the counters a resync bumps *)
Record RunStreamState : Type := { rs_model : option ClientModel; rs_resyncs : Z; rs_generation : Z }.

Definition onEvent (s : RunStreamState) (event : ConsoleStreamEvent) : RunStreamState :=
  match applyEvent (rs_model s) event with
  | applied_event next => {| rs_model := Some next; rs_resyncs := rs_resyncs s; rs_generation := rs_generation s |}
  | ignored_event => s
  | resync _ => {| rs_model := rs_model s; rs_resyncs := rs_resyncs s + 1; rs_generation := rs_generation s + 1 |}
  end.

(** The effect of a new generation: the connection is reopened with nothing held. *)
Definition reopen (s : RunStreamState) : RunStreamState :=
  {| rs_model := None; rs_resyncs := rs_resyncs s; rs_generation := rs_generation s |}.

(** ** What a batch changes is what it reports *)

Definition app_ids (s : FoldState) : list string := concat (JMap.values (fs_appended s)).

Record tracks (s s' : FoldState) : Prop := {
  tk_appended : fs_appended s' = fs_appended s;
  tk_deltas : fs_deltas s' = fs_deltas s;
  tk_patched : forall id, id ∈ fs_patched s -> id ∈ fs_patched s';
  tk_changed : forall id, JMap.get (fs_vertices s') id = JMap.get (fs_vertices s) id \/ id ∈ fs_patched s' \/ id ∈ app_ids s
}.

#[export] Instance tracks_refl : Reflexive tracks.
Proof. intros s. split; auto. Qed.

#[export] Instance tracks_trans : Transitive tracks.
Proof.
  intros s1 s2 s3 [A1 D1 P1 C1] [A2 D2 P2 C2]. split; [congruence|congruence|auto|]. intros id. unfold app_ids in *. rewrite A1 in C2.
  destruct (C2 id) as [->|[?|?]]; [|auto..]. destruct (C1 id) as [->|[?|?]]; auto.
Qed.

Lemma tracks_fold {A} (f : FoldState -> A -> FoldState) xs s : (forall s x, tracks s (f s x)) -> tracks s (fold_left f xs s).
Proof. intros Hf. revert s; induction xs as [|x xs IH]; intros s; cbn; [done|]. etransitivity; [apply Hf|apply IH]. Qed.

Lemma tracks_foldM {A} (f : FoldState -> A -> result FoldState) xs s s' :
  (forall s x s', f s x = Ok s' -> tracks s s') -> foldM f s xs = Ok s' -> tracks s s'.
Proof.
  intros Hf. revert s; induction xs as [|x xs IH]; cbn; intros s H; [by apply Ok_inj in H as <-|]. inv_bind. etransitivity; [by eapply Hf|by apply IH].
Qed.

Lemma app_ids_includes s id : existsb (fun ids => includes id ids) (JMap.values (fs_appended s)) = true <-> id ∈ app_ids s.
Proof.
  unfold app_ids. rewrite existsb_true. setoid_rewrite includes_true. induction (JMap.values (fs_appended s)) as [|l ls IH]; cbn; [set_solver|].
  rewrite elem_of_app, <- IH. setoid_rewrite elem_of_cons. naive_solver.
Qed.

Lemma touch_noted s id : fs_appended (touch s id) = fs_appended s /\ (forall k, k ∈ fs_patched s -> k ∈ fs_patched (touch s id)) /\
  (id ∈ fs_patched (touch s id) \/ id ∈ app_ids s).
Proof.
  unfold touch. destruct (existsb _ _) eqn:E; [apply app_ids_includes in E; auto|]. cbn. split; [done|]. split.
  - intros k Hk. apply elem_of_add. by right.
  - left. apply elem_of_add. by left.
Qed.

Lemma touch_deltas s id : fs_deltas (touch s id) = fs_deltas s.
Proof. unfold touch. by destruct (existsb _ _). Qed.

Lemma tracks_touch s id : tracks s (touch s id).
Proof. destruct (touch_noted s id) as (A & P & _). split; [done|apply touch_deltas|done|]. intros k. left. by rewrite (al_vertices _ _ (touch_alike s id)). Qed.

Lemma tracks_set_touch s id v : tracks s (touch (set_vertex s id v) id).
Proof.
  destruct (touch_noted (set_vertex s id v) id) as (A & P & N). split; [done|by rewrite touch_deltas|done|]. intros k. destruct (decide (id = k)) as [<-|Hne]; [by right|].
  left. rewrite (al_vertices _ _ (touch_alike _ _)). cbn. by apply get_set_ne.
Qed.

Lemma tracks_same s s' : fs_appended s' = fs_appended s -> fs_deltas s' = fs_deltas s -> fs_patched s' = fs_patched s -> fs_vertices s' = fs_vertices s -> tracks s s'.
Proof. intros A D P V. split; [done|done|by rewrite P|]. intros id. left. by rewrite V. Qed.

(** States that hold every vertex under its id. *)
Definition keyed (s : FoldState) : Prop := forall id v, JMap.get (fs_vertices s) id = Some v -> cv_vertex_id v = id.

Lemma tracks_change_vertex s named f : keyed s -> tracks s (change_vertex s named f).
Proof.
  intros Hk. unfold change_vertex. destruct named as [id|]; [|done]. destruct (JMap.get _ id) as [v|] eqn:Eg; [|done].
  rewrite (Hk _ _ Eg). apply tracks_set_touch.
Qed.

Lemma tracks_cancel_member b s id : tracks s (cancel_member b s id).
Proof.
  unfold cancel_member. destruct (JMap.get _ id) as [v|]; [|apply tracks_touch]. destruct (cv_bracket v); [|apply tracks_touch].
  destruct (b && _); [apply tracks_set_touch|apply tracks_touch].
Qed.

Lemma tracks_ensureScope s id seq : tracks s (fst (ensureScope s id seq)).
Proof. unfold ensureScope. destruct (JMap.get _ id); by apply tracks_same. Qed.

Lemma tracks_closeProposal s e o : tracks s (closeProposal s e o).
Proof. unfold closeProposal. destruct (proposal_at _ _); [by apply tracks_same|done]. Qed.

Lemma tracks_freeze s e s' : freeze s e = Ok s' -> tracks s s'.
Proof.
  unfold freeze. intros H. inv_bind. etransitivity; [apply tracks_closeProposal|]. etransitivity.
  - eapply tracks_foldM; [|eassumption]. intros t entry t' Ht. unfold announce in Ht. inv_bind. subst. by apply tracks_same.
  - eapply tracks_foldM; [|eassumption]. intros t entry t' Ht. unfold open_scope in Ht. inv_bind. subst. apply tracks_ensureScope.
Qed.

Lemma tracks_bracket s e : keyed s -> tracks s (bracket s e).
Proof.
  intros Hk. unfold bracket. destruct (is_type txn_try e); [by apply tracks_change_vertex|]. destruct (is_type txn_confirm e).
  - destruct (vid e) as [id|]; [|done]. destruct (JMap.get _ id) as [v|] eqn:Eg; [|done]. destruct (cv_bracket v); [|done]. rewrite (Hk _ _ Eg). apply tracks_set_touch.
  - destruct (sid e) as [scope|]; [|done]. pose proof (tracks_ensureScope s scope (run_seq e)) as Hs. destruct (ensureScope _ _ _) as [s' c]. cbn in Hs.
    etransitivity; [exact Hs|]. etransitivity; [|apply tracks_fold; intros; apply tracks_cancel_member]. by apply tracks_same.
Qed.

Lemma tracks_scopeState s e : tracks s (scopeState s e).
Proof.
  unfold scopeState. destruct (sid e) as [scope|]; [|done]. pose proof (tracks_ensureScope s scope (run_seq e)) as Hs. destruct (ensureScope _ _ _) as [s' c]. cbn in Hs.
  etransitivity; [exact Hs|]. etransitivity; [|apply tracks_fold; intros; apply tracks_touch]. by apply tracks_same.
Qed.

Lemma tracks_pivotPassed s e : keyed s -> tracks s (pivotPassed s e).
Proof.
  intros Hk. unfold pivotPassed. destruct (sid e) as [scope|]; [|by apply tracks_change_vertex].
  assert (fs_vertices (fst (ensureScope s scope (run_seq e))) = fs_vertices s) as Hv by (unfold ensureScope; by destruct (JMap.get _ scope)).
  pose proof (tracks_ensureScope s scope (run_seq e)) as Hs. destruct (ensureScope _ _ _) as [s' c]. cbn in Hs, Hv.
  etransitivity; [exact Hs|]. etransitivity; [|apply tracks_change_vertex]; [by apply tracks_same|]. unfold keyed. cbn. by rewrite Hv.
Qed.

(** Every event but a creation, a discard and a boundary. *)
Lemma tracks_dispatch s e s' : keyed s -> event_type e <> vertex_created -> event_type e <> subgraph_shadowed -> event_type e <> replan_boundary ->
  dispatch s e = Ok s' -> tracks s s'.
Proof.
  intros Hk Hc Hs Hb. unfold dispatch. destruct (event_type e); try done; intros H;
    try (eapply tracks_freeze; exact H); apply Ok_inj in H as <-;
    first [reflexivity | apply tracks_closeProposal | apply tracks_scopeState | by apply tracks_bracket | by apply tracks_pivotPassed
          | by apply tracks_same | by apply tracks_change_vertex | idtac].
  unfold charge. etransitivity; [|apply tracks_change_vertex; exact Hk]. by apply tracks_same.
Qed.

(** A creation reports the vertex it creates. *)
Lemma create_appended s e id : vid e = Some id ->
  exists g, fs_appended (create s e) = JMap.set (fs_appended s) g (JMap.get_or [] (fs_appended s) g ++ [id]) /\
            fs_patched (create s e) = fs_patched s /\ fs_deltas (create s e) = fs_deltas s.
Proof.
  intros Hv. unfold create. rewrite Hv. cbn zeta. eexists. destruct (sid e) as [scope|]; [|done]. unfold ensureScope.
  by destruct (JMap.get (fs_scopes (set_vertex s id _)) scope).
Qed.

(** ** The report of a whole batch *)
Lemma sound_get s : sound s -> keyed s.
Proof.
  intros [[_ Hi _ _] _ _] id v Hg%get_Some_elem. apply Forall_map in Hi. rewrite Forall_forall in Hi. symmetry. exact (Hi _ Hg).
Qed.

Definition no_discard (e : StoredEvent) : Prop := event_type e <> subgraph_shadowed /\ event_type e <> replan_boundary.

Record reported (s0 s : FoldState) (created : list string) : Prop := {
  rp_deltas : fs_deltas s = fs_deltas s0;
  rp_ids : app_ids s ≡ₚ app_ids s0 ++ created;
  rp_patched : forall id, id ∈ fs_patched s0 -> id ∈ fs_patched s;
  rp_changed : forall id, JMap.get (fs_vertices s) id = JMap.get (fs_vertices s0) id \/ id ∈ fs_patched s \/ id ∈ app_ids s
}.

Lemma reported_step s e s' : keyed s -> no_discard e -> apply s e = Ok s' -> reported s s' (option_list (creates e)).
Proof.
  intros Hk [Hns Hnb] Ha. apply apply_ok in Ha as [[Hkn ->]|[_ Hd]].
  { rewrite creates_other by (intros Ht%known_created; congruence). split; rewrite ?app_nil_r; auto. }
  assert (keyed (arrive s e)) as Hk' by exact Hk. destruct (decide (event_type e = vertex_created)) as [E|Nc].
  - unfold dispatch in Hd. rewrite E in Hd. apply Ok_inj in Hd as <-. unfold creates, is_type. rewrite E, eqb_refl. destruct (vid e) as [id|] eqn:Ev; cbn [option_list].
    + destruct (create_appended (arrive s e) e id Ev) as (g & Ea & Ep & Edl). assert (app_ids (create (arrive s e) e) ≡ₚ app_ids s ++ [id]) as Hids.
      { unfold app_ids at 1. rewrite Ea. apply values_set_snoc. }
      split; [done|done|by rewrite Ep|]. intros k. destruct (decide (id = k)) as [<-|Hne]; [right; right; rewrite Hids; apply elem_of_app; right; left|].
      left. unfold create. rewrite Ev. cbn zeta. destruct (sid e) as [scope|]; cbn; [|by apply get_set_ne]. unfold ensureScope. destruct (JMap.get _ scope); cbn; by apply get_set_ne.
    + unfold create. rewrite Ev. split; rewrite ?app_nil_r; auto.
  - rewrite creates_other by done. destruct (tracks_dispatch _ _ _ Hk' Nc Hns Hnb Hd) as [A D P C].
    assert (app_ids s' = app_ids s) as Hids by (unfold app_ids; by rewrite A). split; [done|by rewrite Hids, app_nil_r|done|]. intros id. rewrite Hids. apply C.
Qed.

Lemma reported_fold s batch s' : sound s -> readable_after (watermark s) (JMap.keys (fs_vertices s)) batch -> Forall no_discard batch ->
  foldM apply s batch = Ok s' -> reported s s' (omap creates batch).
Proof.
  revert s; induction batch as [|e batch IH]; cbn [foldM]; intros s Hs [Ho Ha Hf] Hd H.
  - apply Ok_inj in H as <-. split; [done|by rewrite app_nil_r|done|]. by left.
  - inv_bind. rename x into s1. inversion Ho as [|? ? Ho' Hlt]; inversion Ha as [|? ? Ha1 Ha']; inversion Hd as [|? ? Hd1 Hd']; subst.
    assert (omap creates (e :: batch) = option_list (creates e) ++ omap creates batch) as Hom by (cbn; by destruct (creates e)). rewrite Hom in Hf |- *.
    destruct (apply_sound s e s1) as (Hs1 & Hw1 & Hk1); [done|done| |done|].
    { intros id Hid Hin. rewrite Hid in Hf. apply NoDup_app in Hf as (_ & Hf & _). apply (Hf id Hin). cbn. apply list_elem_of_here. }
    destruct (reported_step s e s1 (sound_get s Hs) Hd1) as [D1 I1 P1 C1]; [done|].
    destruct (IH s1) as [D2 I2 P2 C2]; [done| |done|done|].
    { split; [done| |by rewrite Hk1, <- app_assoc]. eapply Forall_impl; [exact Hlt|]. cbn. lia. }
    split; [congruence|by rewrite I2, I1, app_assoc|auto|]. intros id. destruct (C2 id) as [->|[?|?]]; [|auto..]. destruct (C1 id) as [->|[?|Hi]]; [auto|auto|].
    right; right. rewrite I2. apply elem_of_app. by left.
Qed.

(** ** The client's lookups *)
Abbreviation ids vs := (map cv_vertex_id vs).

Lemma index_NoDup vs : NoDup (ids vs) -> index vs = map (fun v => (cv_vertex_id v, v)) vs.
Proof. intros Hn. unfold index. apply of_entries_NoDup. by rewrite map_map. Qed.

Lemma index_get vs k v : NoDup (ids vs) -> JMap.get (index vs) k = Some v <-> v ∈ vs /\ cv_vertex_id v = k.
Proof.
  intros Hn. rewrite index_NoDup by done. split.
  - intros Hg%get_Some_elem. apply elem_of_map in Hg as (w & [= -> <-] & Hw). done.
  - intros [Hv <-]. apply get_elem; [unfold JMap.keys; by rewrite map_map|]. apply elem_of_map. by exists v.
Qed.

Lemma index_has vs k : JMap.has (index vs) k = true <-> k ∈ ids vs.
Proof. rewrite has_keys. unfold index. rewrite keys_of_entries, map_map. done. Qed.

(** The vertices after one change, or a resync. *)
Definition effect (vs : list ConsoleVertex) (c : ConsoleChange) : option (list ConsoleVertex) :=
  match c with
  | subgraph_appended new _ => Some (vs ++ new)
  | subgraph_hidden r => if forallb (fun id => JMap.has (index vs) id) (cr_vertex_ids r) then Some (map (shaded r) vs) else None
  | vertex_patched v => if JMap.has (index vs) (cv_vertex_id v) then Some (map (swapped v) vs) else None
  end.

Fixpoint effects (vs : list ConsoleVertex) (cs : list ConsoleChange) : option (list ConsoleVertex) :=
  match cs with [] => Some vs | c :: cs => vs' ← effect vs c; effects vs' cs end.

Lemma effects_app vs a b : effects vs (a ++ b) = effects vs a ≫= fun vs' => effects vs' b.
Proof. revert vs; induction a as [|c a IH]; intros vs; cbn; [done|]. destruct (effect vs c); cbn; [apply IH|done]. Qed.

(** A client that applies deltas in turn; [None]: it has to resync. *)
Fixpoint applyAll (c : ClientModel) (ds : list ConsoleDelta) : option ClientModel :=
  match ds with
  | [] => Some c
  | d :: ds => match applyEvent (Some c) (stream_delta d) with
               | applied_event n => applyAll n ds
               | ignored_event => applyAll c ds
               | resync _ => None
               end
  end.

Definition current_index (c : ClientModel) : Prop := cm_byId c = index (md_vertices (cm_model c)).

Lemma applyDelta_effect c d : current_index c ->
  match effect (md_vertices (cm_model c)) (cd_change d) with
  | Some vs => exists n, applyDelta c d = applied_event n /\ md_vertices (cm_model n) = vs /\ current_index n /\
                         md_at_run_seq (cm_model n) = cd_at_run_seq d /\ md_spend (cm_model n) = cd_spend d /\ cm_ordinal n = cd_ordinal d
  | None => applyDelta c d = resync unknown_vertex
  end.
Proof.
  intros Hi. unfold applyDelta, effect. rewrite <- Hi. destruct (cd_change d) as [vs ss|r|v].
  - by eexists.
  - destruct (forallb _ _); [by eexists|done].
  - destruct (JMap.has _ _); [by eexists|done].
Qed.

Lemma applyAll_effects ds c : current_index c -> StronglySorted before ds -> (forall d, d ∈ ds -> behind c d = false) ->
  match effects (md_vertices (cm_model c)) (map cd_change ds) with
  | Some vs => exists n, applyAll c ds = Some n /\ md_vertices (cm_model n) = vs /\ current_index n /\
                 forall d, last ds = Some d -> md_at_run_seq (cm_model n) = cd_at_run_seq d /\ cm_ordinal n = cd_ordinal d /\ md_spend (cm_model n) = cd_spend d
  | None => applyAll c ds = None
  end.
Proof.
  revert c; induction ds as [|d ds IH]; intros c Hi Hs Hb; cbn [map effects applyAll]; [by eexists|].
  cbn [applyEvent]. rewrite Hb by left. pose proof (applyDelta_effect c d Hi) as Hd.
  destruct (effect _ (cd_change d)) as [vs|]; cbn [mbind option_bind]; [|by rewrite Hd].
  destruct Hd as (n & -> & Hv & Hi' & Hat & Hsp & Hor). inversion Hs as [|? ? Hs' Hlt]; subst.
  specialize (IH n Hi' Hs'). destruct (effects _ (map cd_change ds)) as [vs|].
  - destruct IH as (n' & Ha & Hv' & Hi'' & Hl).
    + intros x Hx. rewrite Forall_forall in Hlt. unfold behind. rewrite Hat, Hor. destruct (Hlt x Hx) as [?|[? ?]]; apply orb_false_iff; (split; [lia|]); apply andb_false_iff; lia.
    + exists n'. split_and!; [done|done|done|]. intros x Hx. destruct ds as [|y ds]; [|by apply Hl]. injection Hx as <-. cbn in Ha. injection Ha as <-. done.
  - apply IH. intros x Hx. rewrite Forall_forall in Hlt. unfold behind. rewrite Hat, Hor. destruct (Hlt x Hx) as [?|[? ?]]; apply orb_false_iff; (split; [lia|]); apply andb_false_iff; lia.
Qed.

(** ** A branch and a patch, as the client writes them *)
Section Converge.
Context `{Collation}.

Lemma entries_snd {A} n (l : list A) : map snd (entries_from n l) = l.
Proof. unfold entries_from. revert n; induction l as [|x l IH]; intros n; cbn; [done|]. by rewrite IH. Qed.

Lemma changes_sent s : map cd_change (cst_deltas (finish s)) = changes s.
Proof. cbn [finish cst_deltas]. rewrite map_map. apply entries_snd. Qed.

(** The vertices of a branch: those of the ids appended. *)
Definition branch (s : FoldState) (ids : list string) : list ConsoleVertex := js_sort by_created_seq (omap (JMap.get (fs_vertices s)) ids).

Lemma effects_appended s groups vs :
  effects vs (map (fun g : Z * list string => appended_change s (snd g)) groups) = Some (vs ++ concat (map (fun g => branch s (snd g)) groups)).
Proof.
  revert vs; induction groups as [|g gs IH]; intros vs; cbn; [by rewrite app_nil_r|]. rewrite IH. by rewrite <- app_assoc.
Qed.

Lemma swapped_ids w vs : ids (map (swapped w) vs) = ids vs.
Proof. rewrite map_map. apply map_ext. intros v. unfold swapped. destruct (_ ==? _) eqn:E; [by apply eqb_true_1 in E|done]. Qed.

(** Patches rewrite the vertices they name, and nothing else. *)
Lemma effects_patched (g : string -> option ConsoleVertex) ps vs :
  (forall k v, g k = Some v -> cv_vertex_id v = k /\ k ∈ ids vs) ->
  exists vs', effects vs (omap (fun id => vertex_patched <$> g id) ps) = Some vs' /\ ids vs' = ids vs /\
    forall v, v ∈ vs' -> g (cv_vertex_id v) = Some v \/ (v ∈ vs /\ (cv_vertex_id v ∈ ps -> g (cv_vertex_id v) = None)).
Proof.
  revert vs; induction ps as [|p ps IH]; intros vs Hg; cbn.
  - exists vs. split_and!; [done|done|]. intros v Hv. right. split; [done|]. by intros ?%elem_of_nil.
  - destruct (g p) as [w|] eqn:Ep; cbn.
    + destruct (Hg _ _ Ep) as [Hw Hin]. rewrite (proj2 (index_has vs (cv_vertex_id w))) by (by rewrite Hw). cbn.
      destruct (IH (map (swapped w) vs)) as (vs' & -> & Hi & Hv); [by rewrite swapped_ids|]. exists vs'. rewrite Hi, swapped_ids. split_and!; [done|done|].
      intros v Hin'. destruct (Hv v Hin') as [?|[Hm Hn]]; [by left|]. apply elem_of_map in Hm as (x & -> & Hx). unfold swapped in *.
      destruct (_ ==? _) eqn:E; [left; by rewrite Hw|]. right. split; [done|]. intros [Hp|?]%elem_of_cons; [|by apply Hn].
      apply (proj1 (eqb_false _ _)) in E. congruence.
    + destruct (IH vs Hg) as (vs' & -> & Hi & Hv). exists vs'. split_and!; [done|done|]. intros v Hin. destruct (Hv v Hin) as [?|[? Hn]]; [by left|].
      right. split; [done|]. intros [Hp|?]%elem_of_cons; [by rewrite Hp|by apply Hn].
Qed.

Lemma omap_get_ids (g : string -> option ConsoleVertex) l :
  (forall k, k ∈ l -> exists v, g k = Some v /\ cv_vertex_id v = k) -> ids (omap g l) = l.
Proof.
  induction l as [|k l IH]; intros Hg; cbn; [done|]. destruct (Hg k) as (v & -> & Hv); [left|]. cbn. rewrite Hv, IH; [done|]. intros k' Hk'. apply Hg. by right.
Qed.

(** A list that holds for each of its ids what [g] holds is the reading of [g] at its ids. *)
Lemma omap_ids_get (g : string -> option ConsoleVertex) vs : (forall v, v ∈ vs -> g (cv_vertex_id v) = Some v) -> omap g (ids vs) = vs.
Proof.
  induction vs as [|v vs IH]; intros Hg; cbn; [done|]. rewrite (Hg v) by left. f_equal. apply IH. intros w Hw. apply Hg. by right.
Qed.

Lemma same_reading (g : string -> option ConsoleVertex) vs ws :
  (forall v, v ∈ vs -> g (cv_vertex_id v) = Some v) -> (forall w, w ∈ ws -> g (cv_vertex_id w) = Some w) -> ids vs ≡ₚ ids ws -> vs ≡ₚ ws.
Proof. intros Hv Hw Hp. rewrite <- (omap_ids_get g vs Hv), <- (omap_ids_get g ws Hw). by rewrite Hp. Qed.

Lemma branches_ids s groups : (forall k, k ∈ concat (map snd groups) -> exists v, JMap.get (fs_vertices s) k = Some v /\ cv_vertex_id v = k) ->
  ids (concat (map (fun g : Z * list string => branch s (snd g)) groups)) ≡ₚ concat (map snd groups).
Proof.
  induction groups as [|g gs IH]; intros Hg; cbn [map concat] in *; [done|]. rewrite map_app, IH.
  - apply Permutation_app_tail. unfold branch. rewrite (Permutation_map cv_vertex_id (js_sort_Permutation by_created_seq _)).
    rewrite omap_get_ids; [done|]. intros k Hk. apply Hg, elem_of_app. by left.
  - intros k Hk. apply Hg, elem_of_app. by right.
Qed.

Lemma branches_elem s groups v : keyed s -> v ∈ concat (map (fun g : Z * list string => branch s (snd g)) groups) -> JMap.get (fs_vertices s) (cv_vertex_id v) = Some v.
Proof.
  intros Hk. induction groups as [|g gs IH]; cbn; [by intros ?%elem_of_nil|]. intros [Hv|Hv]%elem_of_app; [|by apply IH].
  apply elem_of_js_sort, list_elem_of_omap in Hv as (k & _ & Hg). by rewrite (Hk _ _ Hg).
Qed.

Lemma get_key {V} (m : list (string * V)) k v : JMap.get m k = Some v -> k ∈ JMap.keys m.
Proof. intros Hg. destruct (decide (k ∈ JMap.keys m)) as [?|Hn%get_None]; [done|congruence]. Qed.

Lemma sound_NoDup s : sound s -> NoDup (JMap.keys (fs_vertices s)).
Proof. intros Hs. rewrite place_keys. apply Hs. Qed.

Lemma sound_ids s : sound s -> ids (JMap.values (fs_vertices s)) = JMap.keys (fs_vertices s).
Proof. intros Hs. destruct (sound_keyed s Hs) as [K _]. rewrite <- K at 2. unfold JMap.keys. by rewrite map_map. Qed.

Lemma sound_value s v : sound s -> v ∈ JMap.values (fs_vertices s) -> JMap.get (fs_vertices s) (cv_vertex_id v) = Some v.
Proof.
  intros Hs Hv. destruct (sound_keyed s Hs) as [K _]. rewrite <- K. apply get_elem; [rewrite K; by apply sound_NoDup|]. apply elem_of_map. by exists v.
Qed.

Lemma sound_has s k : sound s -> k ∈ JMap.keys (fs_vertices s) -> exists v, JMap.get (fs_vertices s) k = Some v /\ cv_vertex_id v = k.
Proof.
  intros Hs Hin. destruct (JMap.get (fs_vertices s) k) as [v|] eqn:Eg; [exists v; split; [done|by apply (sound_get s Hs)]|]. by apply get_None in Eg.
Qed.

(** A vertex that was there and is neither patched nor created is as it was. *)
Lemma reported_kept s0 s created v : sound s0 -> sound s -> reported s0 s created -> app_ids s ≡ₚ created ->
  JMap.keys (fs_vertices s) = JMap.keys (fs_vertices s0) ++ created -> v ∈ JMap.values (fs_vertices s0) ->
  (cv_vertex_id v ∈ fs_patched s -> JMap.get (fs_vertices s) (cv_vertex_id v) = None) -> JMap.get (fs_vertices s) (cv_vertex_id v) = Some v.
Proof.
  intros Hs0 Hs [_ _ _ Rc] Hids Hkeys Hv Hp. pose proof (sound_value s0 v Hs0 Hv) as Hg0. pose proof (get_key _ _ _ Hg0) as Hin.
  destruct (Rc (cv_vertex_id v)) as [->|[Hpt%Hp%get_None|Hap]]; [done| |]; exfalso.
  - apply Hpt. rewrite Hkeys. apply elem_of_app. by left.
  - rewrite Hids in Hap. pose proof (sound_NoDup s Hs) as Hnd. rewrite Hkeys in Hnd. apply NoDup_app in Hnd as (_ & Hx & _). by apply (Hx (cv_vertex_id v)).
Qed.

(** What a batch reports, applied to the vertices it started from, gives the vertices it ended with. *)
Lemma reported_effects s0 s created vs : sound s0 -> sound s -> reported s0 s created -> fs_deltas s0 = [] -> fs_appended s0 = [] ->
  JMap.keys (fs_vertices s) = JMap.keys (fs_vertices s0) ++ created -> vs ≡ₚ JMap.values (fs_vertices s0) ->
  exists vs', effects vs (changes s) = Some vs' /\ vs' ≡ₚ JMap.values (fs_vertices s).
Proof.
  intros Hs0 Hs HR Hd0 Ha0 Hkeys Hvs. pose proof (sound_get s Hs) as Hk.
  assert (app_ids s ≡ₚ created) as Hids by (rewrite (rp_ids _ _ _ HR); unfold app_ids; by rewrite Ha0).
  assert (ids vs ≡ₚ JMap.keys (fs_vertices s0)) as Hi0 by (by rewrite (Permutation_map cv_vertex_id Hvs), sound_ids).
  unfold changes. rewrite (rp_deltas _ _ _ HR), Hd0. cbn [omap list_omap app]. rewrite effects_app, effects_appended. cbn [mbind option_bind].
  set (groups := js_sort by_group (fs_appended s)). set (new := concat (map _ groups)).
  assert (concat (map snd groups) ≡ₚ created) as Hg.
  { rewrite <- Hids. unfold app_ids, JMap.values, groups. by rewrite (js_sort_Permutation by_group (fs_appended s)). }
  assert (ids new ≡ₚ created) as Hnew.
  { rewrite <- Hg. apply branches_ids. intros k Hin. apply sound_has; [done|]. rewrite Hkeys, <- Hg. apply elem_of_app. by right. }
  assert (ids (vs ++ new) ≡ₚ JMap.keys (fs_vertices s)) as Hi1 by (by rewrite map_app, Hi0, Hnew, Hkeys).
  destruct (effects_patched (JMap.get (fs_vertices s)) (fs_patched s) (vs ++ new)) as (vs' & He & Hi' & Hv').
  { intros k v Hgv. split; [by apply Hk|]. rewrite Hi1. by eapply get_key. }
  exists vs'. split; [exact He|]. apply (same_reading (JMap.get (fs_vertices s))); [| |by rewrite Hi', Hi1, sound_ids].
  - intros v Hv. destruct (Hv' v Hv) as [?|[[Hold|Hn]%elem_of_app Hp]]; [done| |by eapply branches_elem].
    rewrite Hvs in Hold. by apply (reported_kept s0 s created).
  - intros v. by apply sound_value.
Qed.

(** ** Following the server *)

(** A client that is not ahead of the server's model and holds its vertices, in some order. *)
Record in_sync (c : ClientModel) (m : ConsoleDagModel) : Prop := {
  is_index : current_index c;
  is_vertices : md_vertices (cm_model c) ≡ₚ md_vertices m;
  is_at : md_at_run_seq (cm_model c) <= md_at_run_seq m
}.

Lemma in_sync_snapshot m ordinal : in_sync (clientModel m ordinal) m.
Proof. by split. Qed.

(** What the last delta applied leaves: its position and the server's rollup. *)
Definition ends_at (c : ClientModel) (ds : list ConsoleDelta) : Prop :=
  forall d, last ds = Some d -> md_at_run_seq (cm_model c) = cd_at_run_seq d /\ cm_ordinal c = cd_ordinal d /\ md_spend (cm_model c) = cd_spend d.

Lemma batch_moves m batch step : model_ok m -> readable_after (md_at_run_seq m) (ids (md_vertices m)) batch -> advanceConsoleDag m batch = Ok step ->
  md_at_run_seq m <= md_at_run_seq (cst_model step) /\ (cst_deltas step <> [] -> md_at_run_seq m < md_at_run_seq (cst_model step)).
Proof.
  intros Hm Hr Ha. pose proof Ha as Ha'. unfold advanceConsoleDag in Ha'. inv_bind. subst step. cbn [cst_model finish with_graph md_at_run_seq].
  match goal with Hf : foldM apply _ _ = Ok _ |- _ => rewrite (fold_watermark _ _ _ Hf), (start_watermark m Hm) end.
  destruct (reach_ge (md_at_run_seq m) batch) as [Hge _]. split; [done|]. intros Hne.
  destruct (decide (reach (md_at_run_seq m) batch = md_at_run_seq m)) as [E|E]; [|lia]. destruct Hne. by apply (deltas_move _ batch _ Ha (ra_after _ _ _ Hr)).
Qed.

(** One batch. *)
Lemma in_sync_step c m batch step : model_ok m -> readable_after (md_at_run_seq m) (ids (md_vertices m)) batch -> Forall no_discard batch ->
  advanceConsoleDag m batch = Ok step -> in_sync c m ->
  exists c', applyAll c (cst_deltas step) = Some c' /\ in_sync c' (cst_model step) /\ ends_at c' (cst_deltas step).
Proof.
  intros Hm Hr Hd Ha [Hi Hv Hat]. destruct (batch_moves _ _ _ Hm Hr Ha) as [Hge Hgt]. unfold advanceConsoleDag in Ha. inv_bind. subst step.
  match goal with Hx : foldM apply _ _ = Ok ?y |- _ => rename y into s, Hx into Hf end.
  pose proof (start_sound m Hm) as Hs0. assert (readable_after (watermark (start m)) (JMap.keys (fs_vertices (start m))) batch) as Hr0.
  { by rewrite (start_watermark m Hm), (start_keys m Hm). }
  destruct (fold_sound _ _ _ Hs0 Hr0 Hf) as (Hs & Hkeys & _). pose proof (reported_fold _ _ _ Hs0 Hr0 Hd Hf) as HR.
  destruct (reported_effects (start m) s (omap creates batch) (md_vertices (cm_model c))) as (vs' & He & Hp'); [done..| |].
  { rewrite Hv, (start_vertices m Hm). unfold JMap.values. rewrite map_map. cbn. by rewrite map_id. }
  destruct (finish_deltas s) as [Hso Hall]. pose proof (applyAll_effects (cst_deltas (finish s)) c Hi Hso) as HA.
  rewrite changes_sent, He in HA. destruct HA as (n & Hn & Hnv & Hni & Hl).
  { intros d Hin. rewrite Forall_forall in Hall. destruct (Hall d Hin) as [Hw _]. assert (cst_deltas (finish s) <> []) as Hne by (by intros E; rewrite E in Hin; apply elem_of_nil in Hin).
    specialize (Hgt Hne). cbn [cst_model finish with_graph md_at_run_seq] in Hgt. unfold behind. rewrite Hw. apply orb_false_iff. split; [lia|]. apply andb_false_iff. lia. }
  exists n. split_and!; [done| |exact Hl]. split; [done| |].
  - rewrite Hnv, Hp'. cbn [cst_model finish with_graph md_vertices]. by rewrite js_sort_Permutation.
  - destruct (last (cst_deltas (finish s))) as [d|] eqn:El.
    + destruct (Hl d eq_refl) as [-> _]. apply last_Some_elem_of in El. rewrite Forall_forall in Hall. by destruct (Hall d El) as [-> _].
    + apply last_None in El. rewrite El in Hn. injection Hn as <-. lia.
Qed.

(** A batch without discards reports branches and patches only. *)
Definition no_replan (d : ConsoleDelta) : Prop := match cd_change d with subgraph_hidden _ => False | _ => True end.

Lemma batch_no_replan m batch step : model_ok m -> readable_after (md_at_run_seq m) (ids (md_vertices m)) batch -> Forall no_discard batch ->
  advanceConsoleDag m batch = Ok step -> Forall no_replan (cst_deltas step).
Proof.
  intros Hm Hr Hd Ha. unfold advanceConsoleDag in Ha. inv_bind. subst step. rename x into s.
  assert (readable_after (watermark (start m)) (JMap.keys (fs_vertices (start m))) batch) as Hr0 by (by rewrite (start_watermark m Hm), (start_keys m Hm)).
  pose proof (rp_deltas _ _ _ (reported_fold _ _ _ (start_sound m Hm) Hr0 Hd H0)) as Hds.
  assert (Forall (fun c => match c with subgraph_hidden _ => False | _ => True end) (map cd_change (cst_deltas (finish s)))) as Hc; [|by apply Forall_map in Hc].
  rewrite changes_sent. unfold changes. rewrite Hds. cbn [start fs_deltas omap list_omap app]. apply Forall_app. split; apply Forall_forall; intros c Hin.
  - apply elem_of_map in Hin as (g & -> & _). done.
  - apply list_elem_of_omap in Hin as (k & _ & Hk). by destruct (JMap.get _ k); simplify_eq/=.
Qed.

(** *** Deltas that are written later than they were sent

    A client given the vertices a delta named as they are by now, beside one given them as they were sent. *)
Record beside (m : ConsoleDagModel) (c' c : ClientModel) : Prop := {
  bs_index : current_index c /\ current_index c';
  bs_at : md_at_run_seq (cm_model c') = md_at_run_seq (cm_model c) /\ cm_ordinal c' = cm_ordinal c;
  bs_vertices : Forall2 (fun x' x => x' = x \/ x' = vertex_now m x) (md_vertices (cm_model c')) (md_vertices (cm_model c))
}.

Lemma vertex_now_id m v : cv_vertex_id (vertex_now m v) = cv_vertex_id v.
Proof. unfold vertex_now. destruct (find _ _) as [w|] eqn:E; [|done]. apply find_some in E as [_ E]. by apply andb_true_iff in E as [E%eqb_true_1 _]. Qed.

Lemma beside_ids m vs' vs : Forall2 (fun x' x => x' = x \/ x' = vertex_now m x) vs' vs -> ids vs' = ids vs.
Proof. induction 1 as [|x' x vs' vs [->| ->] _ IH]; cbn; [done|by f_equal|]. by rewrite vertex_now_id, IH. Qed.

Lemma has_beside m vs' vs k : Forall2 (fun x' x => x' = x \/ x' = vertex_now m x) vs' vs -> JMap.has (index vs') k = JMap.has (index vs) k.
Proof. intros Hv. apply eq_true_iff_eq. by rewrite !index_has, (beside_ids _ _ _ Hv). Qed.

Lemma written_beside m ds c' c n : beside m c' c -> Forall no_replan ds -> applyAll c ds = Some n ->
  exists n', applyAll c' (map (as_written m) ds) = Some n' /\ beside m n' n.
Proof.
  intros Hb Hd. revert c c' Hb. induction Hd as [|d ds Hd _ IH]; intros c c' Hb; cbn [map applyAll]; [intros [= <-]; by exists c'|].
  pose proof Hb as [[I1 I2] [A1 A2] Hv]. cbn [applyEvent]. assert (behind c' (as_written m d) = behind c d) as -> by (unfold behind; by rewrite A1, A2).
  destruct (behind c d); [by apply IH|]. unfold applyDelta, as_written. unfold no_replan in Hd. cbn [cd_change].
  destruct (cd_change d) as [vs ss|r|v]; cbn [change_now]; [|done|].
  - apply IH. split; [done|done|]. cbn. apply Forall2_app; [done|]. clear. induction vs as [|v vs IHv]; constructor; [by right|done].
  - rewrite I1, I2, vertex_now_id, (has_beside _ _ _ _ Hv). destruct (JMap.has _ _); [|done]. apply IH. split; [done|done|]. cbn.
    clear -Hv. induction Hv as [|x' x vs' vs Hx Hv IHv]; cbn; constructor; [|done]. unfold swapped. rewrite vertex_now_id.
    assert (cv_vertex_id x' = cv_vertex_id x) as -> by (destruct Hx as [->| ->]; [done|apply vertex_now_id]). destruct (cv_vertex_id x ==? cv_vertex_id v); [by right|done].
Qed.

(** Beside a client that holds the server's vertices, it holds them too. *)
Lemma vertex_now_self m v : NoDup (ids (md_vertices m)) -> v ∈ md_vertices m -> vertex_now m v = v.
Proof.
  intros Hn Hv. unfold vertex_now. destruct (find _ _) as [w|] eqn:E.
  - apply find_some in E as [Hw E]. apply list_elem_of_In in Hw. apply andb_true_iff in E as [E%eqb_true_1 _]. cbn.
    pose proof (proj2 (index_get _ (cv_vertex_id v) v Hn) (conj Hv eq_refl)) as G1. pose proof (proj2 (index_get _ (cv_vertex_id v) w Hn) (conj Hw E)) as G2. congruence.
  - done.
Qed.

Lemma beside_in_sync m c' c : NoDup (ids (md_vertices m)) -> beside m c' c -> in_sync c m -> in_sync c' m.
Proof.
  intros Hn [[_ I2] [A1 _] Hv] [_ Hp Hat]. assert (md_vertices (cm_model c') = md_vertices (cm_model c)) as E; [|split; [done|by rewrite E|by rewrite A1]].
  assert (forall x, x ∈ md_vertices (cm_model c) -> x ∈ md_vertices m) as Hin by (intros x; by rewrite Hp). clear -Hn Hv Hin.
  induction Hv as [|x' x vs' vs Hx Hv IH]; [done|]. f_equal; [|apply IH; intros y Hy; apply Hin; by right].
  destruct Hx as [->| ->]; [done|]. apply vertex_now_self; [done|]. apply Hin. left.
Qed.

(** The server's models over a run of batches, and everything it sends. *)
Fixpoint session (m : ConsoleDagModel) (batches : list (list StoredEvent)) : result (ConsoleDagModel * list ConsoleDelta) :=
  match batches with
  | [] => Ok (m, [])
  | b :: bs => step ← advanceConsoleDag m b; rest ← session (cst_model step) bs; Ok (rest.1, cst_deltas step ++ rest.2)
  end.

Lemma applyAll_app c a b : applyAll c (a ++ b) = applyAll c a ≫= fun c' => applyAll c' b.
Proof. revert c; induction a as [|d a IH]; intros c; cbn [app applyAll]; [done|]. destruct (applyEvent _ _); [apply IH|apply IH|done]. Qed.

Lemma ends_at_app c1 c2 a b : ends_at c1 a -> applyAll c1 b = Some c2 -> ends_at c2 b -> ends_at c2 (a ++ b).
Proof.
  intros H1 Hb H2 d Hl. rewrite last_app in Hl. destruct (last b) as [y|] eqn:El; [injection Hl as ->; by apply H2|].
  apply last_None in El as ->. injection Hb as <-. by apply H1.
Qed.

Lemma in_sync_session batches c m m' ds : model_ok m -> readable_after (md_at_run_seq m) (ids (md_vertices m)) (concat batches) ->
  Forall no_discard (concat batches) -> session m batches = Ok (m', ds) -> in_sync c m ->
  model_ok m' /\ exists c', applyAll c ds = Some c' /\ in_sync c' m' /\ ends_at c' ds.
Proof.
  revert c m ds; induction batches as [|b bs IH]; intros c m ds Hm Hr Hd Hse Hc; cbn [session concat] in *.
  - injection Hse as <- <-. split; [done|]. exists c. by split_and!.
  - inv_bind. destruct x0 as [m2 ds2]. simplify_eq. rename x into step. apply Forall_app in Hd as [Hd1 Hd2].
    destruct (advance_ok _ _ _ _ Hm Hr H0) as (Hok & Hr' & _). destruct (readable_after_app _ _ _ _ Hr) as [Hr1 _].
    destruct (in_sync_step _ _ _ _ Hm Hr1 Hd1 H0 Hc) as (c1 & Ha1 & Hc1 & He1). destruct (IH c1 _ _ Hok Hr' Hd2 H1 Hc1) as (Hok' & c2 & Ha2 & Hc2 & He2).
    split; [done|]. exists c2. cbn [fst snd]. rewrite applyAll_app, Ha1. split_and!; [done|done|]. by eapply ends_at_app.
Qed.

Lemma index_perm vs ws k : NoDup (ids vs) -> vs ≡ₚ ws -> JMap.get (index vs) k = JMap.get (index ws) k.
Proof.
  intros Hn Hp. assert (NoDup (ids ws)) as Hn' by (by rewrite <- (Permutation_map cv_vertex_id Hp)). apply option_eq. intros v.
  rewrite (index_get vs k v Hn), (index_get ws k v Hn'). by rewrite Hp.
Qed.

Lemma model_ids m : model_ok m -> NoDup (ids (md_vertices m)).
Proof. intros [_ [N _ _ _] _]. unfold model_places in N. by rewrite map_map in N. Qed.

(** A browser that took a snapshot and applies every delta the server then sends, over any number
    of batches that discard nothing, never has to resync: it ends with the server's vertices, each
    under its id, and with the position and the spend of the last delta. The run is in row order
    after the snapshot and creates each vertex once. *)
Theorem client_converges m ordinal batches m' ds :
  model_ok m -> readable_after (md_at_run_seq m) (ids (md_vertices m)) (concat batches) -> Forall no_discard (concat batches) ->
  session m batches = Ok (m', ds) ->
  exists c, applyAll (clientModel m ordinal) ds = Some c /\ md_vertices (cm_model c) ≡ₚ md_vertices m' /\
            (forall id, JMap.get (cm_byId c) id = JMap.get (index (md_vertices m')) id) /\ ends_at c ds.
Proof.
  intros Hm Hr Hd Hs. destruct (in_sync_session _ _ _ _ _ Hm Hr Hd Hs (in_sync_snapshot m ordinal)) as (Hm' & c & Ha & [Hi Hv _] & He).
  exists c. split_and!; [done|done| |done]. intros id. rewrite Hi. apply index_perm; [|done].
  rewrite (Permutation_map cv_vertex_id Hv). by apply model_ids.
Qed.
End Converge.

#[export] Instance no_discard_dec e : Decision (no_discard e).
Proof. unfold no_discard. solve_decision. Defined.

(** The recorded run up to its discard, from an empty snapshot: the planner and its freeze, the branch,
    what happened to it. *)
Definition undiscarded : list (list StoredEvent) := [firstn 5 console_log; firstn 2 (skipn 5 console_log); firstn 4 (skipn 7 console_log)].
Definition snapshot0 : ConsoleDagModel := emptyConsoleDag "r1" CONSOLE_PROJECTOR_VERSION.
Definition session0 : ConsoleDagModel * list ConsoleDelta :=
  match @session code_unit_collation snapshot0 undiscarded with Ok p => p | Throw _ => (snapshot0, []) end.

Lemma client_converges_witness :
  (exists c, applyAll (clientModel snapshot0 0) session0.2 = Some c /\ md_vertices (cm_model c) ≡ₚ md_vertices session0.1 /\
             (forall id, JMap.get (cm_byId c) id = JMap.get (index (md_vertices session0.1)) id) /\ ends_at c session0.2) /\
  map (fun d => (cd_at_run_seq d, cd_ordinal d)) session0.2 = [(5, 0); (7, 0); (11, 0); (11, 1); (11, 2)].
Proof.
  split; [|vm_compute; reflexivity]. apply (@client_converges code_unit_collation snapshot0 0 undiscarded session0.1 session0.2).
  - apply emptyConsoleDag_ok.
  - split; [repeat constructor|repeat constructor|]. apply (bool_decide_unpack _). vm_compute. exact I.
  - apply (bool_decide_unpack _). vm_compute. exact I.
  - vm_compute. reflexivity.
Defined.

(** ** Where the copy and the server differ *)

Definition deltas_of (m : ConsoleDagModel) (batch : list StoredEvent) : list ConsoleDelta :=
  match @advanceConsoleDag code_unit_collation m batch with Ok step => cst_deltas step | Throw _ => [] end.
Definition model_of (m : ConsoleDagModel) (batch : list StoredEvent) : ConsoleDagModel :=
  match @advanceConsoleDag code_unit_collation m batch with Ok step => cst_model step | Throw _ => m end.

(** A discard is sent before the branch of its own batch, so a client that receives a branch and its
    discard in one batch does not know the vertices and resyncs. *)
Example discard_overtakes_branch : applyAll (clientModel snapshot0 0) (deltas_of snapshot0 console_log) = None.
Proof. vm_compute. reflexivity. Qed.

(** A boundary at 12 and the discard it announces at 13: the server dates the discard by its own event,
    the client by the boundary the replan record was opened with. *)
Definition replanned : list StoredEvent :=
  [sample_event 12 replan_boundary (Some "planner-1") [] None [("boundary_seq", VNum (Num.of_Z 2)); ("reason", VStr "tool failed")];
   sample_event 13 subgraph_shadowed None [] None
     [("boundary_seq", VNum (Num.of_Z 2)); ("vertex_ids", VArr [VStr "tool-1"; VStr "router-1"]); ("reason", VStr "replanned")]].

Example discard_dates_differ :
  let m := session0.1 in
  map cv_shadowed_at_seq (md_vertices (model_of m replanned)) = [None; Some 13; Some 13] /\
  (fun c => map cv_shadowed_at_seq (md_vertices (cm_model c))) <$> applyAll (clientModel m 0) (deltas_of m replanned) = Some [None; Some 12; Some 12].
Proof. vm_compute. auto. Qed.

(** A snapshot is stamped with ordinal 0, the ordinal of the first delta at its position: a client whose
    connection drops after a snapshot presents [at.0] and is replayed the later deltas of that
    position, which its snapshot already holds; a branch among them is inserted a second time. *)
Definition two_branches : list StoredEvent :=
  [sample_event 1 run_start None [] None [];
   sample_event 2 vertex_created (Some "planner-1") [] None [("role", VStr "planner")];
   sample_event 3 subgraph_proposed None [] None [];
   sample_event 4 subgraph_frozen None [] None
     [("proposed_seq", VNum (Num.of_Z 3)); ("vertices", VArr [VObj [("author_id", VStr "check"); ("vertex_id", VStr "tool-1"); ("role", VStr "tool")]])];
   sample_event 5 vertex_created (Some "tool-1") ["planner-1"] None [("role", VStr "tool")]].

Example replay_after_snapshot_duplicates :
  let m := model_of snapshot0 two_branches in
  let buffer := push (newBuffer 512) (deltas_of snapshot0 two_branches) in
  let c := clientModel m 0 in
  match resolveResume (Some (cursor_at (md_at_run_seq m) (cm_ordinal c))) buffer (md_at_run_seq m) with
  | replay ds => (fun c => ids (md_vertices (cm_model c))) <$> applyAll c ds = Some ["planner-1"; "tool-1"; "tool-1"]
  | _ => False
  end.
Proof. vm_compute. reflexivity. Qed.
