(* ===== verification/Uri.v ===== *)
(** * Percent-encoding

    [encodeURIComponent] and [decodeURIComponent], which the console's addresses and the connection
    settings of the database both go through. A string holds characters up to U+00FF; a decoded character
    beyond them stays its octets. *)

From S2P Require Import Prelude Collections Number Json JsonParse.

Module Uri.

(** Characters [encodeURIComponent] leaves alone. *)
Definition unreserved (c : ascii) : bool :=
  let n := nat_of_ascii c in
  ((48 <=? n) && (n <=? 57))%nat || ((65 <=? n) && (n <=? 90))%nat || ((97 <=? n) && (n <=? 122))%nat ||
  includes n [45; 95; 46; 33; 126; 42; 39; 40; 41]%nat.

Definition upper_hex (n : nat) : ascii := ascii_of_nat (if (n <? 10)%nat then 48 + n else 55 + n).

Definition octet (n : nat) : string := String "%" (String (upper_hex (n / 16)) (String (upper_hex (n mod 16)) "")).

(** A character beyond ASCII is its two octets in UTF-8. *)
Definition encode_char (c : ascii) : string :=
  let n := nat_of_ascii c in
  if unreserved c then String c "" else if (n <? 128)%nat then octet n else octet (192 + n / 64) +:+ octet (128 + n mod 64).

Fixpoint encodeURIComponent (s : string) : string :=
  match s with "" => "" | String c s => encode_char c +:+ encodeURIComponent s end.

(** The byte two hexadecimal digits write. *)
Definition byte_of (a b : ascii) : option nat := x ← Parse.hex a; y ← Parse.hex b; Some (16 * x + y)%nat.

Definition malformed {A} : result A := Throw "URI malformed".

(** [n] continuation octets, each written [%XX]: the octets and the rest. *)
Fixpoint continuation (n : nat) (s : string) : option (list nat * string) :=
  match n with
  | O => Some ([], s)
  | S n => match s with
           | String "%" (String a (String b s)) =>
               x ← byte_of a b;
               if ((128 <=? x) && (x <? 192))%nat then '(xs, s) ← continuation n s; Some (x :: xs, s) else None
           | _ => None
           end
  end.

(** How many octets follow a lead octet; [None]: not a lead. *)
Definition follows (lead : nat) : option nat :=
  if ((194 <=? lead) && (lead <=? 223))%nat then Some 1%nat
  else if ((224 <=? lead) && (lead <=? 239))%nat then Some 2%nat
  else if ((240 <=? lead) && (lead <=? 244))%nat then Some 3%nat else None.

(** Overlong forms, surrogates and code points above U+10FFFF. *)
Definition second_ok (lead : nat) (next : list nat) : bool :=
  match next with
  | x :: _ => if (lead =? 224)%nat then (160 <=? x)%nat else if (lead =? 237)%nat then (x <? 160)%nat
              else if (lead =? 240)%nat then (144 <=? x)%nat else if (lead =? 244)%nat then (x <? 144)%nat else true
  | [] => true
  end.

(** The character a sequence of octets writes; one that strings cannot hold stays its octets, which are
    all beyond ASCII. *)
Fixpoint octets (xs : list nat) (s : string) : string := match xs with [] => s | x :: xs => String (ascii_of_nat x) (octets xs s) end.
Definition character (lead : nat) (xs : list nat) (s : string) : string :=
  match xs with
  | [x] => if (lead <=? 195)%nat then String (ascii_of_nat (64 * (lead - 192) + (x - 128))) s else octets (lead :: xs) s
  | _ => octets (lead :: xs) s
  end.

Fixpoint decode (fuel : nat) (s : string) : result string :=
  match fuel with
  | O => malformed
  | S fuel =>
      match s with
      | "" => Ok ""
      | String "%" (String a (String b r)) =>
          match byte_of a b with
          | None => malformed
          | Some x =>
              if (x <? 128)%nat then t ← decode fuel r; Ok (String (ascii_of_nat x) t)
              else match follows x with
                   | None => malformed
                   | Some n => match continuation n r with
                               | Some (xs, r) => if second_ok x xs then t ← decode fuel r; Ok (character x xs t) else malformed
                               | None => malformed
                               end
                   end
          end
      | String "%" _ => malformed
      | String c r => t ← decode fuel r; Ok (String c t)
      end
  end.

Definition decodeURIComponent (s : string) : result string := decode (S (String.length s)) s.

Lemma decode_char c r fuel : decode (S fuel) (encode_char c +:+ r) = (t ← decode fuel r; Ok (String c t)).
Proof. destruct c as [[] [] [] [] [] [] [] []]; reflexivity. Qed.

Lemma encode_char_length c : (1 <= String.length (encode_char c))%nat.
Proof. apply Nat.leb_le. destruct c as [[] [] [] [] [] [] [] []]; reflexivity. Qed.

Lemma decode_encode s fuel : (String.length (encodeURIComponent s) < fuel)%nat -> decode fuel (encodeURIComponent s) = Ok s.
Proof.
  revert fuel; induction s as [|c s IH]; intros fuel Hf; (destruct fuel as [|fuel]; [lia|]); [done|]. cbn [encodeURIComponent] in *.
  rewrite decode_char. rewrite sapp_length in Hf. pose proof (encode_char_length c). rewrite IH by lia. done.
Qed.

Lemma decodeURIComponent_encode s : decodeURIComponent (encodeURIComponent s) = Ok s.
Proof. apply decode_encode. lia. Qed.

Lemma character_nonempty lead xs s : character lead xs s <> "".
Proof. unfold character. repeat case_match; done. Qed.

Lemma decode_nonempty fuel s t : decode fuel s = Ok t -> s <> "" -> t <> "".
Proof.
  destruct fuel as [|fuel], s as [|c s]; try done. intros Hd _. cbn [decode] in Hd. intros ->.
  repeat case_match; try done; inv_bind; try congruence; by eapply character_nonempty.
Qed.

Lemma encode_nonempty s : s <> "" -> (encodeURIComponent s ==? "") = false.
Proof.
  destruct s as [|c s]; [done|]. intros _. apply (proj2 (eqb_false _ _)). cbn [encodeURIComponent]. intros E. apply (f_equal String.length) in E.
  rewrite sapp_length in E. pose proof (encode_char_length c). cbn in E. lia.
Qed.

End Uri.
