(* ===== verification/ConsoleServer.v ===== *)
(** * The console's read surface (console/server/src/server.ts, reader.ts, client/src/stream/connection.ts)

    One request, from its path to what is written back. What [node:http] and the URL parser hand over
    (the method, the path, the query, the headers) is the request; the database is what each query of the
    reader answers, or the error it throws. *)

From S2P Require Import Prelude Collections Number Json JsonParse JsText Events Projection Console ConsoleFacts ConsoleStream ConsoleWire Uri.
From Corelib Require Import SpecFloat.

(** ** Routes *)
Inductive Endpoint : Type := healthz | readyz | list_runs | run_dag | run_stream | vertex_payload | vertex_prompt | vertex_logs.

Definition routes : list (string * Endpoint) :=
  [("/healthz", healthz); ("/readyz", readyz); ("/api/v1/runs", list_runs); ("/api/v1/runs/:runId/dag", run_dag);
   ("/api/v1/runs/:runId/stream", run_stream); ("/api/v1/runs/:runId/vertices/:vertexId/payload", vertex_payload);
   ("/api/v1/runs/:runId/vertices/:vertexId/prompt", vertex_prompt); ("/api/v1/runs/:runId/vertices/:vertexId/logs", vertex_logs)].

Abbreviation slash := ("/"%char).

(** The loop of [match] over segments of equal number. *)
Fixpoint match_segments (actual expected : list string) (params : list (string * string)) : result (option (list (string * string))) :=
  match actual, expected with
  | value :: actual, segment :: expected =>
      if starts_with ":" segment then
        if value ==? "" then Ok None
        else decoded ← Uri.decodeURIComponent value; match_segments actual expected (JMap.set params (drop_str 1 segment) decoded)
      else if segment ==? value then match_segments actual expected params else Ok None
  | _, _ => Ok (Some params)
  end.

(** [match(path, pattern)] *)
Definition matchPath (path pattern : string) : result (option (list (string * string))) :=
  let actual := Js.split_char slash path in
  let expected := Js.split_char slash pattern in
  if (length actual =? length expected)%nat then match_segments actual expected [] else Ok None.

(** [routes.map(...).find((candidate) => candidate.params)] *)
Definition resolve (path : string) : result (option (Endpoint * list (string * string))) :=
  candidates ← mapR (fun r => params ← matchPath path (fst r); Ok (snd r, params)) routes;
  Ok (match find (fun c => match snd c with Some _ => true | None => false end) candidates with
      | Some (e, Some params) => Some (e, params)
      | _ => None
      end).

(** [/^[0-9a-f]{8}-[0-9a-f]{4}-[0-9a-f]{4}-[0-9a-f]{4}-[0-9a-f]{12}$/i] *)
Definition is_hex (c : ascii) : bool := match Parse.hex c with Some _ => true | None => false end.
Definition UUID (s : string) : bool :=
  match Js.split_char "-"%char s with
  | [a; b; c; d; e] => forallb (all_chars is_hex) [a; b; c; d; e] &&
                       (map String.length [a; b; c; d; e] ==? [8; 4; 4; 4; 12]%nat)
  | _ => false
  end.

Definition positiveInteger (value : option string) (fallback : Z) : Z :=
  match Num.to_Z (from_option Num.of_string (S754_zero false) value) with
  | Some n => if 0 <? n then Z.min n 500 else fallback
  | None => fallback
  end.

(** ** Reading *)
Record RunRow : Type := { rr_run_id : string; rr_created_at : string; rr_next_seq : Z; rr_fork : bool }.

(** What the database answers: whether it is up, the newest runs, and the rows of one run in order. *)
Record Reader : Type := {
  rd_ready : bool;
  rd_runs : Z -> result (list RunRow);
  rd_rows : string -> result (list StoredEvent)
}.

Record ConsoleRunSummary : Type := { su_run_id : string; su_kind : ConsoleKind; su_created_at : string; su_event_count : Z }.

Definition listRuns (reader : Reader) (limit : Z) : result (list ConsoleRunSummary) :=
  rows ← rd_runs reader limit;
  Ok (map (fun r => {| su_run_id := rr_run_id r; su_kind := if rr_fork r then counterfactual else production;
                       su_created_at := rr_created_at r; su_event_count := rr_next_seq r - 1 |}) rows).

Definition kind_name (k : ConsoleKind) : string := match k with production => "production" | counterfactual => "counterfactual" end.

Definition summary_json (s : ConsoleRunSummary) : value :=
  VObj [("run_id", VStr (su_run_id s)); ("kind", VStr (kind_name (su_kind s))); ("created_at", VStr (su_created_at s)); ("event_count", num (su_event_count s))].

Definition detail_json (d : PayloadDetail) : value :=
  VObj [("vertex_id", VStr (dt_vertex_id d)); ("role", VStr (dt_role d)); ("status", VStr (dt_status d)); ("input", dt_input d); ("result", dt_result d);
        ("failure", dt_failure d); ("log_fields", dt_log_fields d); ("attempts", dt_attempts d); ("blob_refs", strings (dt_blob_refs d))].

Definition retention_json (r : RetentionUnavailable) : value :=
  VObj [("error", VStr (ru_error r)); ("reason", VStr (ru_reason r)); ("input_digest", ru_input_digest r); ("output_digest", ru_output_digest r);
        ("prerequisite", VStr (ru_prerequisite r))].

(** ** Replies *)
Inductive Reply : Type :=
| empty_reply (status : Z)
| json_reply (status : Z) (body : value)
(** An open stream: what it starts with, and the subscription that goes on writing to it. *)
| stream_reply (frames : list string) (listener : nat).

Definition error_body (error : string) : value := VObj [("error", VStr error)].
Definition read_only : Reply := json_reply 405 (VObj [("error", VStr "read_only"); ("detail", VStr "the console serves GET only")]).

Record Request : Type := { rq_method : string; rq_path : string; rq_query : list (string * string); rq_lastEventId : option string }.

Section Handlers.
Context `{Collation}.

Definition serveDag (reader : Reader) (runId : string) (query : list (string * string)) : result Reply :=
  events ← rd_rows reader runId;
  match events with
  | [] => Ok (json_reply 404 (error_body "no_such_run"))
  | _ => model ← match JMap.get query "at_run_seq" with
                 | None => consoleDag_now events
                 | Some boundary => consoleDag events (Num.of_string boundary) CONSOLE_PROJECTOR_VERSION
                 end;
         Ok (json_reply 200 (model_json model))
  end.

Definition servePayload (reader : Reader) (runId vertexId : string) : result Reply :=
  events ← rd_rows reader runId;
  Ok (match payloadDetail events vertexId with
      | Some detail => json_reply 200 (detail_json detail)
      | None => json_reply 404 (error_body "no_such_vertex")
      end).

Definition serveRetention (reader : Reader) (kind : RetentionKind) (runId vertexId : string) : result Reply :=
  events ← rd_rows reader runId;
  Ok (if existsb (names_vertex vertexId) events then json_reply 501 (retention_json (retentionUnavailable events vertexId kind))
      else json_reply 404 (error_body "no_such_vertex")).

Definition snapshotOf (m : ConsoleDagModel) : ConsoleStreamEvent := stream_snapshot (md_at_run_seq m) 0 m.

(** [prime] over the reader: what the poll hands to each listener, and the model. *)
Definition primeFrom (reader : Reader) (batchSize : nat) (t : RunTailer) : RunTailer * result (list (nat * list ConsoleDelta) * ConsoleDagModel) :=
  match pollBegin t with
  | None => (t, Ok ([], rt_model t))
  | Some (t1, after) =>
      let '(t2, r) := pollEnd t1 (rows ← rd_rows reader (rt_runId t); Ok (readAfter rows after batchSize)) in
      (t2, sent ← r; Ok (sent, rt_model t2))
  end.

Definition set_tailer (g : TailerRegistry) (runId : string) (t : RunTailer) : TailerRegistry :=
  {| rg_tailers := JMap.set (rg_tailers g) runId t; rg_options := rg_options g |}.

(** The frames a stream starts with: a replayed delta is written with what it refers to by then. *)
Definition opening (lastEventId : option string) (t : RunTailer) (model : ConsoleDagModel) : list string :=
  match resolveResume (parseCursor lastEventId) (rt_buffer t) (md_at_run_seq model) with
  | replay deltas => map (fun d => encodeFrame (stream_delta (as_written (rt_model t) d))) deltas
  | fresh_snapshot _ => [encodeFrame (snapshotOf model)]
  end.

(** [serveStream]: the registry it leaves, what the listeners already subscribed are handed, the reply. *)
Definition serveStream (reader : Reader) (batchSize : nat) (g : TailerRegistry) (runId : string) (lastEventId : option string) (listener : nat) :
    TailerRegistry * list (nat * list ConsoleDelta) * result Reply :=
  let '(g, t) := tailerFor g runId in
  match primeFrom reader batchSize t with
  | (t, Throw msg) => (set_tailer g runId t, [], Throw msg)
  | (t, Ok (sent, model)) =>
      if md_at_run_seq model =? 0 then (set_tailer g runId t, sent, Ok (json_reply 404 (error_body "no_such_run")))
      else (set_tailer g runId (subscribe t listener), sent, Ok (stream_reply (opening lastEventId t model) listener))
  end.

Definition param (params : list (string * string)) (name : string) : string := default "" (JMap.get params name).

Definition internal (msg : string) : Reply := json_reply 500 (VObj [("error", VStr "internal"); ("detail", VStr msg)]).

(** A parameter that is present and not a UUID. *)
Definition malformed_id (params : list (string * string)) (name : string) : bool :=
  match truthy (JMap.get params name) with Some id => negb (UUID id) | None => false end.

Definition caught (r : result Reply) : Reply := match r with Ok reply => reply | Throw msg => internal msg end.

(** The endpoints that only read. *)
Definition reads (reader : Reader) (endpoint : Endpoint) (params query : list (string * string)) : option (result Reply) :=
  match endpoint with
  | healthz => Some (Ok (empty_reply 204))
  | readyz => Some (Ok (if rd_ready reader then empty_reply 204 else json_reply 503 (error_body "database_unavailable")))
  | list_runs => Some (runs ← listRuns reader (positiveInteger (JMap.get query "limit") 50); Ok (json_reply 200 (VArr (map summary_json runs))))
  | run_dag => Some (serveDag reader (param params "runId") query)
  | vertex_payload => Some (servePayload reader (param params "runId") (param params "vertexId"))
  | vertex_prompt => Some (serveRetention reader retain_prompt (param params "runId") (param params "vertexId"))
  | vertex_logs => Some (serveRetention reader retain_logs (param params "runId") (param params "vertexId"))
  | run_stream => None
  end.

(** The handler [createConsoleHandler] builds, its [catch] included. *)
Definition handle (reader : Reader) (batchSize : nat) (g : TailerRegistry) (request : Request) (listener : nat) :
    TailerRegistry * list (nat * list ConsoleDelta) * Reply :=
  match resolve (rq_path request) with
  | Throw msg => (g, [], internal msg)
  | Ok None => (g, [], json_reply 404 (error_body "not_found"))
  | Ok (Some (endpoint, params)) =>
      if rq_method request !=? "GET" then (g, [], read_only)
      else if malformed_id params "runId" || malformed_id params "vertexId" then (g, [], json_reply 400 (error_body "malformed_identifier"))
      else match reads reader endpoint params (rq_query request) with
           | Some reply => (g, [], caught reply)
           | None => let '(g', sent, reply) := serveStream reader batchSize g (param params "runId") (rq_lastEventId request) listener in (g', sent, caught reply)
           end
  end.
End Handlers.

(** *** A stream that is open *)
Record Connection : Type := { cn_listener : nat; cn_closed : bool; cn_written : list string }.

Definition writes (c : Connection) (frame : string) : Connection :=
  {| cn_listener := cn_listener c; cn_closed := cn_closed c; cn_written := cn_written c ++ [frame] |}.

(** [stop()], for a closed request or a subscriber that cannot keep up. *)
Definition stopConnection (c : Connection) (t : RunTailer) : Connection * RunTailer :=
  if cn_closed c then (c, t)
  else ({| cn_listener := cn_listener c; cn_closed := true; cn_written := cn_written c |}, unsubscribe t (cn_listener c)).

(** [send]; [full]: whether more than the limit is unflushed once the frame is written. *)
Definition send (s : Connection * RunTailer) (event : ConsoleStreamEvent * bool) : Connection * RunTailer :=
  let '(c, t) := s in
  if cn_closed c then (c, t)
  else let c := writes c (encodeFrame (fst event)) in if (snd event : bool) then stopConnection c t else (c, t).

(** The listener: every delta of a batch in turn. *)
Definition deliver (s : Connection * RunTailer) (deltas : list (ConsoleDelta * bool)) : Connection * RunTailer :=
  fold_left (fun s d => send s (stream_delta (fst d), snd d)) deltas s.

Definition heartbeat (c : Connection) : Connection := if cn_closed c then c else writes c HEARTBEAT_FRAME.

(** *** The URL a browser opens (connection.ts) *)
Definition streamUrl (runId : string) : string := "/api/v1/runs/" +:+ Uri.encodeURIComponent runId +:+ "/stream".

(** ** Paths and identifiers *)

Definition not_slash (c : ascii) : bool := c !=? slash.

Lemma split_once s t : all_chars not_slash s = true -> Js.split_char slash (s +:+ String slash t) = s :: Js.split_char slash t.
Proof.
  induction s as [|c s IH]; [done|]. rewrite sapp_cons. cbn [all_chars Js.split_char]. intros [Hc Hs]%andb_true_iff. apply neqb_true in Hc.
  rewrite (proj2 (eqb_false c slash)) by done. by rewrite IH.
Qed.

Lemma split_none s : all_chars not_slash s = true -> Js.split_char slash s = [s].
Proof.
  induction s as [|c s IH]; [done|]. cbn [all_chars Js.split_char]. intros [Hc Hs]%andb_true_iff. apply neqb_true in Hc.
  rewrite (proj2 (eqb_false c slash)) by done. by rewrite IH.
Qed.

Lemma encoded_not_slash s : all_chars not_slash (Uri.encodeURIComponent s) = true.
Proof.
  induction s as [|c s IH]; [done|]. cbn [Uri.encodeURIComponent]. rewrite all_chars_app, IH, andb_true_r. destruct c as [[] [] [] [] [] [] [] []]; reflexivity.
Qed.

Lemma streamUrl_segments runId : Js.split_char slash (streamUrl runId) = [""; "api"; "v1"; "runs"; Uri.encodeURIComponent runId; "stream"].
Proof.
  unfold streamUrl. change ("/api/v1/runs/" +:+ ?x) with (String slash ("api" +:+ String slash ("v1" +:+ String slash ("runs" +:+ String slash x)))).
  change (String slash ?x) with ("" +:+ String slash x). rewrite !split_once by done.
  rewrite (split_once (Uri.encodeURIComponent runId) "stream") by apply encoded_not_slash. done.
Qed.

(** The steps of [match]. *)
Lemma match_literal segment actual expected params : starts_with ":" segment = false ->
  match_segments (segment :: actual) (segment :: expected) params = match_segments actual expected params.
Proof. intros Hs. cbn [match_segments]. by rewrite Hs, eqb_refl. Qed.

Lemma match_other value segment actual expected params : starts_with ":" segment = false -> segment <> value ->
  match_segments (value :: actual) (segment :: expected) params = Ok None.
Proof. intros Hs Hne. cbn [match_segments]. by rewrite Hs, (proj2 (eqb_false segment value)). Qed.

Lemma match_param name value actual expected params : value <> "" ->
  match_segments (Uri.encodeURIComponent value :: actual) (String ":" name :: expected) params = match_segments actual expected (JMap.set params name value).
Proof.
  intros Hne. cbn [match_segments]. rewrite (Uri.encode_nonempty value Hne), Uri.decodeURIComponent_encode.
  change (starts_with ":" (String ":" name)) with true. done.
Qed.

Lemma stream_candidates runId : runId <> "" -> mapR (fun r => params ← matchPath (streamUrl runId) (fst r); Ok (snd r, params)) routes =
  Ok [(healthz, None); (readyz, None); (list_runs, None); (run_dag, None); (run_stream, Some [("runId", runId)]);
      (vertex_payload, None); (vertex_prompt, None); (vertex_logs, None)].
Proof.
  intros Hne. assert (forall pattern, matchPath (streamUrl runId) pattern =
    if (6 =? length (Js.split_char slash pattern))%nat
    then match_segments [""; "api"; "v1"; "runs"; Uri.encodeURIComponent runId; "stream"] (Js.split_char slash pattern) [] else Ok None) as Hm.
  { intros pattern. unfold matchPath. by rewrite streamUrl_segments. }
  assert (matchPath (streamUrl runId) "/api/v1/runs/:runId/dag" = Ok None) as Hdag.
  { rewrite Hm. change (Js.split_char slash "/api/v1/runs/:runId/dag") with [""; "api"; "v1"; "runs"; ":runId"; "dag"]. cbn [length Nat.eqb].
    rewrite !match_literal, match_param by done. by apply match_other. }
  assert (matchPath (streamUrl runId) "/api/v1/runs/:runId/stream" = Ok (Some [("runId", runId)])) as Hstream.
  { rewrite Hm. change (Js.split_char slash "/api/v1/runs/:runId/stream") with [""; "api"; "v1"; "runs"; ":runId"; "stream"]. cbn [length Nat.eqb].
    rewrite !match_literal, match_param by done. by apply match_literal. }
  unfold routes. cbn [mapR fst snd]. rewrite Hdag, Hstream, !Hm. reflexivity.
Qed.

(** The address a browser opens is the one the server serves: whatever text the run id holds, the
    URL built from it resolves to the stream endpoint, and the parameter read back is that run id. *)
Theorem stream_url_resolves runId : runId <> "" -> resolve (streamUrl runId) = Ok (Some (run_stream, [("runId", runId)])).
Proof.
  intros Hne. unfold resolve. by rewrite stream_candidates.
Qed.

Lemma stream_url_resolves_witness : resolve (streamUrl "3f2b/x 100%") = Ok (Some (run_stream, [("runId", "3f2b/x 100%")])).
Proof. apply (stream_url_resolves "3f2b/x 100%"). discriminate. Defined.

(** ** Identifiers are checked before anything is read *)

(** The parameters of a match are the pattern's, each with some text. *)
Definition filled (params : list (string * string)) (name : string) : Prop := exists v, JMap.get params name = Some v /\ v <> "".

Lemma filled_set params name k v : v <> "" -> filled params name -> filled (JMap.set params k v) name.
Proof. intros Hv (w & Hw & Hne). unfold filled. rewrite get_set. destruct (k ==? name); [by exists v|by exists w]. Qed.

Lemma match_filled actual expected params result : match_segments actual expected params = Ok (Some result) -> length actual = length expected ->
  (forall name, filled params name -> filled result name) /\ (forall name, String ":" name ∈ expected -> filled result name).
Proof.
  revert expected params; induction actual as [|value actual IH]; intros [|segment expected] params Hm Hl; cbn [match_segments] in Hm; try done.
  - injection Hm as <-. split; [done|]. intros name Hin. by apply elem_of_nil in Hin.
  - injection Hl as Hl. destruct (starts_with ":" segment) eqn:Es.
    + destruct (value ==? "") eqn:Ev; [done|]. apply eqb_false_1 in Ev. inv_bind. rename x into d. assert (d <> "") as Hd by (by eapply Uri.decode_nonempty).
      destruct (IH _ _ Hm Hl) as [H1 H2]. split; [intros name Hf; by apply H1, filled_set|]. intros name [Hs|Hin]%elem_of_cons; [|by apply H2].
      apply H1. subst segment. exists d. change (drop_str 1 (String ":" name)) with name. split; [apply get_set_eq|done].
    + destruct (segment ==? value) eqn:Eq; [|done]. destruct (IH _ _ Hm Hl) as [H1 H2]. split; [done|]. intros name [Hs|Hin]%elem_of_cons; [|by apply H2].
      by subst segment.
Qed.

Lemma resolve_route path e params : resolve path = Ok (Some (e, params)) -> exists pattern, (pattern, e) ∈ routes /\ matchPath path pattern = Ok (Some params).
Proof.
  unfold resolve. intros Hr. apply bind_Ok in Hr as (cs & Hc & Hr). apply Ok_inj in Hr. destruct (find _ cs) as [[e' [p|]]|] eqn:Ef; try done. injection Hr as -> ->.
  apply find_Some in Ef as [Hin _]. apply mapR_Ok in Hc. apply list_elem_of_lookup in Hin as [i Hi].
  destruct (Forall2_lookup_r _ _ _ _ _ Hc Hi) as ([pattern e'] & Hr & Hx). apply bind_Ok in Hx as (p' & Hp & Hx). injection Hx as -> ->.
  exists pattern. split; [by eapply list_elem_of_lookup_2|done].
Qed.

(** The endpoints of one run; a request for one of them names it. *)
Definition of_run (e : Endpoint) : bool := match e with healthz | readyz | list_runs => false | _ => true end.

Lemma run_patterns : Forall (fun r => of_run (snd r) = true -> ":runId" ∈ Js.split_char slash (fst r)) routes.
Proof. apply (bool_decide_unpack _). vm_compute. exact I. Qed.

Lemma run_param path e params : resolve path = Ok (Some (e, params)) -> of_run e = true -> filled params "runId".
Proof.
  intros (pattern & Hin & Hm)%resolve_route He. pose proof run_patterns as Hp. rewrite Forall_forall in Hp. specialize (Hp _ Hin He).
  unfold matchPath in Hm. destruct (_ =? _)%nat eqn:El; [|done]. apply Nat.eqb_eq in El. destruct (match_filled _ _ _ _ Hm El) as [_ Hf]. by apply Hf.
Qed.

Section Guard.
Context `{Collation}.

(** Each tailer is filed under the run it follows. *)
Definition registry_ok (g : TailerRegistry) : Prop := forall id t, JMap.get (rg_tailers g) id = Some t -> rt_runId t = id.

Lemma registry_ok_set g id t : registry_ok g -> rt_runId t = id -> registry_ok (set_tailer g id t).
Proof. intros Hg Ht k u. cbn. rewrite get_set. destruct (id ==? k) eqn:E; [|apply Hg]. apply eqb_true_1 in E as <-. by intros [= <-]. Qed.

Lemma tailerFor_ok g id g' t : registry_ok g -> tailerFor g id = (g', t) -> registry_ok g' /\ rt_runId t = id /\ forall k, JMap.get (rg_tailers g') k = if id ==? k then Some t else JMap.get (rg_tailers g) k.
Proof.
  intros Hg. unfold tailerFor. destruct (JMap.get (rg_tailers g) id) as [u|] eqn:Eg; intros [= <- <-].
  - split_and!; [done|by apply Hg|]. intros k. destruct (id ==? k) eqn:E; [|done]. apply eqb_true_1 in E as <-. done.
  - split_and!; [by apply (registry_ok_set g id)|done|]. intros k. cbn. by rewrite get_set.
Qed.

Lemma pollEnd_runId t answer : rt_runId (fst (pollEnd t answer)) = rt_runId t.
Proof. unfold pollEnd. by repeat case_match. Qed.

Lemma primeFrom_runId reader n t t' r : primeFrom reader n t = (t', r) -> rt_runId t' = rt_runId t.
Proof.
  unfold primeFrom, pollBegin. destruct (rt_polling t); [by intros [= <- _]|]. cbn [fst snd].
  pose proof (pollEnd_runId (with_poll t (rt_model t) (rt_buffer t) (rt_quietPolls t) true) (rows ← rd_rows reader (rt_runId t); Ok (readAfter rows (md_at_run_seq (rt_model t)) n))) as Hp.
  destruct (pollEnd _ _) as [t2 r2]. cbn in Hp. by intros [= <- _].
Qed.

Lemma subscribe_runId t l : rt_runId (subscribe t l) = rt_runId t.
Proof. unfold subscribe, schedule. by repeat case_match. Qed.

Lemma serveStream_registry reader n g id last l : registry_ok g ->
  let '(g', _, _) := serveStream reader n g id last l in registry_ok g' /\ forall k, k <> id -> JMap.get (rg_tailers g') k = JMap.get (rg_tailers g) k.
Proof.
  intros Hg. unfold serveStream. destruct (tailerFor g id) as [g1 t1] eqn:Et. destruct (tailerFor_ok _ _ _ _ Hg Et) as (Hg1 & Ht1 & Hget).
  destruct (primeFrom reader n t1) as [t2 r] eqn:Ep. apply primeFrom_runId in Ep.
  assert (forall t, rt_runId t = id -> registry_ok (set_tailer g1 id t) /\ forall k, k <> id -> JMap.get (rg_tailers (set_tailer g1 id t)) k = JMap.get (rg_tailers g) k) as Hset.
  { intros t Ht. split; [by apply registry_ok_set|]. intros k Hk. cbn. by rewrite get_set, Hget, (proj2 (eqb_false id k)) by done. }
  destruct r as [[sent model]|msg]; [destruct (_ =? 0)|]; apply Hset; rewrite ?subscribe_runId; congruence.
Qed.

(** Two databases that differ only in what they hold under names that are no identifiers. *)
Definition same_ids (r1 r2 : Reader) : Prop :=
  rd_ready r1 = rd_ready r2 /\ (forall n, rd_runs r1 n = rd_runs r2 n) /\ forall id, UUID id = true -> rd_rows r1 id = rd_rows r2 id.

Lemma serveStream_same r1 r2 n g id last l : same_ids r1 r2 -> registry_ok g -> UUID id = true -> serveStream r1 n g id last l = serveStream r2 n g id last l.
Proof.
  intros (_ & _ & Hr) Hg Hu. unfold serveStream. destruct (tailerFor g id) as [g1 t1] eqn:Et. destruct (tailerFor_ok _ _ _ _ Hg Et) as (_ & Ht1 & _).
  unfold primeFrom. rewrite Ht1, (Hr id Hu). done.
Qed.

Lemma reads_same r1 r2 e params query : same_ids r1 r2 -> (of_run e = true -> UUID (param params "runId") = true) -> reads r1 e params query = reads r2 e params query.
Proof.
  intros (Hy & Hl & Hr) Hu. destruct e; cbn [reads]; try done; unfold listRuns, serveDag, servePayload, serveRetention; rewrite ?Hy, ?Hl, ?Hr; auto.
Qed.

Lemma well_formed_run path e params : resolve path = Ok (Some (e, params)) -> malformed_id params "runId" = false -> of_run e = true -> UUID (param params "runId") = true.
Proof.
  intros Hr Hm He. destruct (run_param _ _ _ Hr He) as (id & Hg & Hne). unfold malformed_id in Hm. unfold param. rewrite Hg in *. cbn.
  destruct id as [|c id]; [done|]. cbn in Hm. by apply negb_false_iff in Hm.
Qed.

Definition status_of (r : Reply) : Z := match r with empty_reply n | json_reply n _ => n | stream_reply _ _ => 200 end.

(** The requests that are refused, and with what: an address that cannot be decoded, one that names no
    endpoint, any method but GET, and a run or a vertex whose identifier is not a UUID. *)
Inductive refusal (request : Request) : Reply -> Prop :=
| refused_address msg : resolve (rq_path request) = Throw msg -> refusal request (json_reply 500 (VObj [("error", VStr "internal"); ("detail", VStr msg)]))
| refused_path : resolve (rq_path request) = Ok None -> refusal request (json_reply 404 (VObj [("error", VStr "not_found")]))
| refused_method e params : resolve (rq_path request) = Ok (Some (e, params)) -> rq_method request <> "GET" ->
    refusal request (json_reply 405 (VObj [("error", VStr "read_only"); ("detail", VStr "the console serves GET only")]))
| refused_identifier e params name id : resolve (rq_path request) = Ok (Some (e, params)) -> rq_method request = "GET" ->
    name ∈ ["runId"; "vertexId"] -> JMap.get params name = Some id -> id <> "" -> UUID id = false ->
    refusal request (json_reply 400 (VObj [("error", VStr "malformed_identifier")])).

Lemma malformed_id_true params name : malformed_id params name = true <-> exists id, JMap.get params name = Some id /\ id <> "" /\ UUID id = false.
Proof.
  unfold malformed_id. destruct (JMap.get params name) as [[|c id]|]; cbn; [|rewrite negb_true_iff|]; naive_solver.
Qed.

(** A refused request is answered before anything is read. *)
Lemma refusal_handled reader n g request listener refused : refusal request refused -> handle reader n g request listener = (g, [], refused).
Proof.
  intros Hr. unfold handle. destruct Hr as [msg E|E|e params E Hm|e params name id E Hm Hn Hg Hne Hu]; rewrite E; try done.
  - by rewrite (proj2 (neqb_true _ _) Hm).
  - rewrite (proj2 (neqb_false _ _) Hm). assert (malformed_id params name = true) as Hbad by (apply malformed_id_true; eauto).
    rewrite !elem_of_cons, elem_of_nil in Hn. destruct Hn as [->|[->|[]]]; by rewrite Hbad, ?orb_true_r.
Qed.

(** What is not refused is a GET of an endpoint whose identifiers are in order. *)
Lemma refused_or_served request :
  (exists refused, refusal request refused) \/
  exists e params, resolve (rq_path request) = Ok (Some (e, params)) /\ rq_method request = "GET" /\ malformed_id params "runId" = false /\ malformed_id params "vertexId" = false.
Proof.
  destruct (resolve (rq_path request)) as [[[e params]|]|msg] eqn:E; [|left; eexists; by constructor..].
  destruct (decide (rq_method request = "GET")) as [Hm|Hm]; [|left; eexists; by eapply refused_method].
  assert (forall name, name ∈ ["runId"; "vertexId"] -> malformed_id params name = true -> exists refused, refusal request refused) as Hbad.
  { intros name Hn (id & Hg & Hne & Hu)%malformed_id_true. eexists. by eapply refused_identifier. }
  destruct (malformed_id params "runId") eqn:E1; [left; apply (Hbad "runId"); [left|done]|].
  destruct (malformed_id params "vertexId") eqn:E2; [left; apply (Hbad "vertexId"); [right; left|done]|]. right. by exists e, params.
Qed.

(** C25. The surface only reads, and reads only what is named by a well-formed identifier. A path
    that does not decode is answered 500, an unknown path 404, any method but GET on a known one 405, and a
    run or vertex id that is not a UUID 400, each with its error and before anything is read; a served request leaves the registry of tailers as it was and hands
    nobody anything unless it is a stream; a stream changes at most the tailer of the run it names, which is
    a UUID, and keeps each tailer under its run; and the outcome of a request never depends on what the
    database holds under a name that is not a UUID. *)
Theorem requests_guarded reader n g request listener :
  registry_ok g ->
  let '(g', sent, reply) := handle reader n g request listener in
  registry_ok g' /\
  (forall refused, refusal request refused -> reply = refused /\ forall reader', handle reader' n g request listener = (g, [], refused)) /\
  (forall e params, resolve (rq_path request) = Ok (Some (e, params)) -> e <> run_stream -> g' = g /\ sent = []) /\
  (forall id, JMap.get (rg_tailers g') id <> JMap.get (rg_tailers g) id ->
     rq_method request = "GET" /\ UUID id = true /\ exists params, resolve (rq_path request) = Ok (Some (run_stream, params)) /\ JMap.get params "runId" = Some id) /\
  (forall reader', same_ids reader reader' -> handle reader' n g request listener = (g', sent, reply)).
Proof.
  intros Hg. destruct (refused_or_served request) as [[refused Hr]|(e & params & Er & Em & Hrun & Hvertex)].
  { rewrite (refusal_handled reader n g _ listener _ Hr). split_and!; [done| |done|done|intros reader' _; by apply refusal_handled].
    intros other Ho. pose proof (refusal_handled reader n g _ listener _ Hr) as H1. rewrite (refusal_handled reader n g _ listener _ Ho) in H1. injection H1 as ->.
    split; [done|]. intros reader'. by apply refusal_handled. }
  assert (forall refused, ~ refusal request refused) as Hno.
  { intros refused [msg E|E|e' p' E Hm|e' p' name id E Hm Hn Hget Hne Hu]; rewrite Er in E; try done. injection E as <- <-.
    assert (malformed_id params name = true) as Hbad by (apply malformed_id_true; eauto).
    rewrite !elem_of_cons, elem_of_nil in Hn. destruct Hn as [->|[->|[]]]; congruence. }
  pose proof (well_formed_run _ _ _ Er Hrun) as Hu. unfold handle. rewrite Er, (proj2 (neqb_false _ _) Em), Hrun, Hvertex. cbn [orb].
  destruct (reads reader e params (rq_query request)) as [reply|] eqn:Ea.
  - split_and!; try done; [intros ? []%Hno|]. intros reader' Hsame. by rewrite <- (reads_same reader reader' e params _ Hsame Hu), Ea.
  - assert (e = run_stream) as -> by (by destruct e). specialize (Hu eq_refl).
    pose proof (serveStream_registry reader n g (param params "runId") (rq_lastEventId request) listener Hg) as Hreg.
    destruct (serveStream reader n g (param params "runId") (rq_lastEventId request) listener) as [[g' sent] reply] eqn:Es. destruct Hreg as [Hok Hrest].
    split_and!; [done|intros ? []%Hno|by intros ? ? [= <- <-]| |].
    + intros id Hid. destruct (decide (id = param params "runId")) as [->|Hne]; [|by destruct (Hid (Hrest id Hne))].
      split_and!; [done|done|]. exists params. split; [done|]. destruct (run_param _ _ _ Er eq_refl) as (id & Hget & _). unfold param. by rewrite Hget.
    + intros reader' Hsame. rewrite <- (reads_same reader reader' _ params _ Hsame) by done. by rewrite Ea, <- (serveStream_same reader reader'), Es.
Qed.
End Guard.

(** A stream that stopped writes nothing more, and its listener is gone. *)
Lemma closed_silent c t deltas : cn_closed c = true -> deliver (c, t) deltas = (c, t) /\ heartbeat c = c.
Proof.
  intros Hc. split; [|by unfold heartbeat; rewrite Hc]. induction deltas as [|d ds IH]; [done|]. cbn. by rewrite Hc.
Qed.

Lemma stopped_unsubscribed c t : cn_closed c = false -> cn_listener c ∉ rt_listeners (snd (stopConnection c t)).
Proof.
  intros Hc. unfold stopConnection. rewrite Hc. cbn. unfold unsubscribe, stop. set (t' := with_watchers _ _ _).
  assert (rt_listeners (match rt_listeners t' with [] => with_watchers t' (rt_listeners t') None | _ => t' end) = rt_listeners t') as -> by (destruct (rt_listeners t') eqn:E; [done|exact E]).
  cbn. intros Hin. by apply elem_of_JSet_delete in Hin as [? ?].
Qed.

(** ** A database with one run *)
Definition run_1 : string := "3f2b9c1e-0000-4000-8000-00000000000a".
Definition one_run : Reader :=
  {| rd_ready := true; rd_runs := fun _ => Ok [{| rr_run_id := run_1; rr_created_at := "2026-01-01T00:00:00.000Z"; rr_next_seq := 3; rr_fork := false |}];
     rd_rows := fun id => if id ==? run_1 then Ok (firstn 2 console_log) else Ok [] |}.
Definition no_tailers : TailerRegistry := {| rg_tailers := []; rg_options := default_options |}.
Definition open_stream : Request := {| rq_method := "GET"; rq_path := streamUrl run_1; rq_query := []; rq_lastEventId := None |}.
Definition opened : TailerRegistry * list (nat * list ConsoleDelta) * Reply := @handle code_unit_collation one_run 512 no_tailers open_stream 0.

Lemma requests_guarded_witness :
  (let '(g', sent, reply) := opened in
   registry_ok g' /\ (forall id, JMap.get (rg_tailers g') id <> JMap.get (rg_tailers no_tailers) id -> UUID id = true)) /\
  (map fst (rg_tailers opened.1.1), status_of opened.2) = ([run_1], 200) /\
  @handle code_unit_collation one_run 512 no_tailers {| rq_method := "GET"; rq_path := "/api/v1/runs/" +:+ run_1 +:+ "/vertices/v/logs"; rq_query := []; rq_lastEventId := None |} 0 =
    (no_tailers, [], json_reply 400 (VObj [("error", VStr "malformed_identifier")])).
Proof.
  assert (registry_ok no_tailers) as Hok by (intros id t Ht; discriminate Ht).
  split; [|split; [vm_compute; reflexivity|]].
  - pose proof (@requests_guarded code_unit_collation one_run 512 no_tailers open_stream 0 Hok) as H. unfold opened. destruct (handle _ _ _ _ _) as [[g' sent] reply].
    destruct H as (H1 & _ & _ & H2 & _). split; [exact H1|]. intros id Hid. by destruct (H2 id Hid) as (_ & Hu & _).
  - pose proof (@requests_guarded code_unit_collation one_run 512 no_tailers
      {| rq_method := "GET"; rq_path := "/api/v1/runs/" +:+ run_1 +:+ "/vertices/v/logs"; rq_query := []; rq_lastEventId := None |} 0 Hok) as H.
    destruct (handle _ _ _ _ _) as [[g' sent] reply] eqn:E. destruct H as (_ & H & _). rewrite <- E. apply H.
    eapply (refused_identifier _ vertex_logs [("runId", run_1); ("vertexId", "v")] "vertexId" "v"); [vm_compute; reflexivity|reflexivity|right; left|reflexivity|done|reflexivity].
Defined.

(** While the first poll of a run is under way, a second client is told the run does not exist: [prime]
    returns the model as it stands, and an empty one reads as an unknown run. *)
Definition first_poll_pending : TailerRegistry :=
  {| rg_tailers := [(run_1, with_poll (newTailer run_1 default_options) (emptyConsoleDag run_1 CONSOLE_PROJECTOR_VERSION) (newBuffer 512) 0 true)]; rg_options := default_options |}.

Example second_client_refused : (@handle code_unit_collation one_run 512 first_poll_pending open_stream 1).2 = json_reply 404 (error_body "no_such_run").
Proof. vm_compute. reflexivity. Qed.

(** A request for a run nobody wrote leaves a tailer behind. *)
Definition unknown_run : string := "3f2b9c1e-0000-4000-8000-00000000000b".
Example unknown_run_registered :
  let '(g, _, reply) := @handle code_unit_collation one_run 512 no_tailers {| rq_method := "GET"; rq_path := streamUrl unknown_run; rq_query := []; rq_lastEventId := None |} 0 in
  status_of reply = 404 /\ map fst (rg_tailers g) = [unknown_run].
Proof. vm_compute. auto. Qed.

(** The route table at work. *)
Example routes_resolved :
  map (fun p => match resolve p with Ok (Some (e, ps)) => Some (Some (e, ps)) | Ok None => Some None | Throw _ => None end)
    ["/healthz"; "/api/v1/runs"; "/api/v1/runs//dag"; "/api/v1/runs/a%2Fb/vertices/v/logs"; "/api/v1/runs/%zz/dag"] =
  [Some (Some (healthz, [])); Some (Some (list_runs, [])); Some None; Some (Some (vertex_logs, [("runId", "a/b"); ("vertexId", "v")])); None].
Proof. vm_compute. reflexivity. Qed.
