(* ===== verification/ConsoleSession.v ===== *)
(** * One browser, one run, and the connection between them

    The tailer, the wire and the browser's copy together: a client that connects, follows, loses its
    connection and comes back with the id of the last frame it received. *)

From S2P Require Import Prelude Collections Number Json JsonParse JsText Events Projection Console ConsoleFacts ConsoleStream ConsoleWire ConsoleTail ConsoleClient ConsoleServer.

(** What a client holds after the events of a stream; [None]: it has to resync. *)
Fixpoint receive (c : option ClientModel) (events : list ConsoleStreamEvent) : option ClientModel :=
  match events with
  | [] => c
  | e :: events => match applyEvent c e with
                   | applied_event n => receive (Some n) events
                   | ignored_event => receive c events
                   | resync _ => None
                   end
  end.

Lemma receive_deltas c ds : receive (Some c) (map stream_delta ds) = applyAll c ds.
Proof. revert c; induction ds as [|d ds IH]; intros c; cbn [map receive applyAll]; [done|]. by destruct (applyEvent _ _). Qed.

Section Session.
Context `{Collation}.

(** What a stream opens with, as events: [opening] writes their frames. *)
Definition opening_events (lastEventId : option string) (t : RunTailer) : list ConsoleStreamEvent :=
  match resolveResume (parseCursor lastEventId) (rt_buffer t) (md_at_run_seq (rt_model t)) with
  | replay deltas => map (fun d => stream_delta (as_written (rt_model t) d)) deltas
  | fresh_snapshot _ => [snapshotOf (rt_model t)]
  end.

Lemma opening_frames lastEventId t : opening lastEventId t (rt_model t) = map encodeFrame (opening_events lastEventId t).
Proof. unfold opening, opening_events. destruct (resolveResume _ _ _); [by rewrite map_map|done]. Qed.

(** ** Following the feed *)
Abbreviation model f := (rt_model (fd_tailer f)).

(** What a client in sync with one state applies to be in sync with a later one. *)
Definition brought (c : ClientModel) (f f' : Feed) : Prop :=
  exists more c', fd_sent f' = fd_sent f ++ more /\ applyAll c more = Some c' /\ in_sync c' (model f') /\ Forall no_replan more.

(** One step of the feed, as a client in sync with it sees it. *)
Lemma sync_step runId n f f' c : feed_inv runId f -> feed_step n f f' -> Forall (fun e => understood e = true) (fd_log f') -> Forall no_discard (fd_log f') -> in_sync c (model f) ->
  brought c f f'.
Proof.
  intros Hi Hs Hu Hd Hc. assert (model f' = model f -> fd_sent f' = fd_sent f -> brought c f f') as Hsame.
  { intros Em Es. exists [], c. rewrite Em, Es, app_nil_r. by split_and!. }
  destruct Hs as [log t sent e Hlast H0 Hfresh|log t sent t' l Ht|log t sent t' after Hb|log seen later t sent t' r _ Hlog Hp|log t sent t' msg r _ Hp].
  - by apply Hsame.
  - apply Hsame; [|done]. apply (watch_same t t' l Ht).
  - unfold pollBegin in Hb. destruct (rt_polling t); [done|]. injection Hb as <- _. by apply Hsame.
  - destruct Hi as [Hl _ _ Hf _ _ _]. cbn [fd_log fd_tailer fd_sent] in *. specialize (Hf Hu). destruct (readAfter_prefix log seen later (md_at_run_seq (rt_model t)) n Hlog) as [rest Hrest].
    unfold brought. cbn [fd_log fd_tailer fd_sent] in *. set (batch := readAfter _ _ _) in *. destruct (follows_readable _ _ _ _ _ Hl Hf Hrest) as [Hm Hr].
    assert (forall e, e ∈ batch -> e ∈ log) as Hin by (intros e He; apply (elem_of_beyond (md_at_run_seq (rt_model t))); rewrite Hrest; apply elem_of_app; by left).
    assert (Forall no_discard batch) as Hdb by (rewrite Forall_forall in *; auto).
    assert (Forall (fun e => understood e = true) batch) as Hub by (rewrite Forall_forall in *; auto).
    destruct batch as [|e0 b0] eqn:Eb; [injection Hp as <- _; apply Hsame; [done|]; unfold advanceConsoleDag; cbn; by rewrite app_nil_r|]. rewrite <- Eb in *.
    destruct (advanceConsoleDag (rt_model t) batch) as [step|msg] eqn:Ha.
    + destruct (in_sync_step _ _ _ _ Hm Hr Hdb Ha Hc) as (c' & Hc1 & Hc2 & _). exists (cst_deltas step), c'. split_and!; [done|done| |by eapply batch_no_replan].
      rewrite Eb in Hp. cbn [pollEnd] in Hp. rewrite <- Eb, Ha in Hp. destruct (cst_deltas step); by injection Hp as <- _.
    + apply (fold_understood (start (rt_model t))) in Hub as [s' Hs']. unfold advanceConsoleDag in Ha. by rewrite Hs' in Ha.
  - injection Hp as <- _. by apply Hsame.
Qed.

Lemma log_grows n f f' : rtc (feed_step n) f f' -> exists rows, fd_log f' = fd_log f ++ rows.
Proof.
  induction 1 as [f|f f1 f' Hs _ (rows & ->)]; [exists []; by rewrite app_nil_r|]. destruct Hs; cbn; try by exists rows.
  exists ([e] ++ rows). by rewrite app_assoc.
Qed.

Lemma sync_steps runId n f f' c : feed_inv runId f -> rtc (feed_step n) f f' -> Forall (fun e => understood e = true) (fd_log f') -> Forall no_discard (fd_log f') ->
  in_sync c (model f) -> feed_inv runId f' /\ brought c f f'.
Proof.
  intros Hi Hr Hu Hd Hc. revert c Hi Hu Hd Hc. induction Hr as [f|f f1 f' Hs Hr IH]; intros c Hi Hu Hd Hc.
  - split; [done|]. exists [], c. rewrite app_nil_r. by split_and!.
  - destruct (log_grows _ _ _ Hr) as [rows Hrows]. pose proof Hu as Hu1. pose proof Hd as Hd1. rewrite Hrows in Hu1, Hd1. apply Forall_app in Hu1 as [Hu1 _], Hd1 as [Hd1 _].
    destruct (sync_step _ _ _ _ _ Hi Hs Hu1 Hd1 Hc) as (m1 & c1 & E1 & A1 & S1 & P1).
    destruct (IH c1 (feed_inv_step _ _ _ _ Hi Hs) Hu Hd S1) as (Hi' & m2 & c2 & E2 & A2 & S2 & P2). split; [done|].
    exists (m1 ++ m2), c2. rewrite E2, E1, applyAll_app, A1. split_and!; [by rewrite app_assoc|done|done|by apply Forall_app].
Qed.

(** ** Coming back *)
Lemma filter_after_last l1 d l2 : StronglySorted before ((l1 ++ [d]) ++ l2) -> filter_by (after (cd_at_run_seq d) (cd_ordinal d)) ((l1 ++ [d]) ++ l2) = l2.
Proof.
  intros Hs. apply StronglySorted_app in Hs as (H12 & H1 & _). apply StronglySorted_app in H1 as (H1d & _ & _). rewrite filter_by_app.
  rewrite (filter_by_none _ (l1 ++ [d])), (filter_by_all _ l2); [done| |]; apply Forall_forall; intros x Hx; unfold after.
  - destruct (H12 d x) as [?|[? ?]]; [apply elem_of_app; right; left|done| |]; apply orb_true_iff; [left; lia|right]. apply andb_true_iff. lia.
  - apply elem_of_app in Hx as [Hx| ->%list_elem_of_singleton]; apply orb_false_iff.
    + destruct (H1d x d Hx ltac:(left)) as [?|[? ?]]; (split; [lia|]); apply andb_false_iff; lia.
    + split; [lia|]. apply andb_false_iff. lia.
Qed.

(** The deltas a client that connected at [f0] has been sent by [f1]. *)
Definition sent_since (f0 f1 : Feed) : list ConsoleDelta := drop (length (fd_sent f0)) (fd_sent f1).

Lemma sent_since_app f0 f1 more : fd_sent f1 = fd_sent f0 ++ more -> sent_since f0 f1 = more.
Proof. intros E. unfold sent_since. rewrite E. apply drop_app_length. Qed.

Lemma feed_model_ok runId f : feed_inv runId f -> Forall (fun e => understood e = true) (fd_log f) -> model_ok (model f).
Proof. intros [Hl _ _ Hf _ _ _] Hu. by destruct (follows_readable runId _ _ [] _ Hl (Hf Hu) eq_refl). Qed.

(** A client that comes back is handed what brings it in sync, whether the server replays or starts it over. *)
Lemma opening_syncs runId n f1 f c1 sent d more : feed_inv runId f1 -> rtc (feed_step n) f1 f -> Forall (fun e => understood e = true) (fd_log f) -> Forall no_discard (fd_log f) ->
  Forall (fun d => exact (cd_at_run_seq d) /\ exact (cd_ordinal d)) (fd_sent f) -> fd_sent f1 = sent ++ more -> last more = Some d -> in_sync c1 (model f1) ->
  exists c2, receive (Some c1) (opening_events (Some (cursorOf (stream_delta d))) (fd_tailer f)) = Some c2 /\ in_sync c2 (model f).
Proof.
  intros Hi Hr Hu Hd Hex Hsent Hlast Hc. destruct (sync_steps _ _ _ _ _ Hi Hr Hu Hd Hc) as (Hi' & more2 & c2 & E2 & A2 & S2 & P2).
  apply last_Some in Hlast as (more' & ->). rewrite Forall_forall in Hex. assert (d ∈ fd_sent f) as Hin.
  { rewrite E2, Hsent. apply elem_of_app. left. apply elem_of_app. right. apply elem_of_app. right. left. }
  destruct (Hex d Hin) as [[Ha0 Ha1] [Ho0 Ho1]]. unfold opening_events. unfold cursorOf. rewrite parseCursor_text by done.
  destruct (resolveResume _ _ _) as [ds|reason] eqn:Er; [|exists (clientModel (model f) 0); split; [done|apply in_sync_snapshot]].
  apply (resume_exact runId f) in Er; [|done..|by apply Forall_forall]. assert (ds = more2) as ->.
  { subst ds. pose proof (fi_sorted _ _ Hi') as Hs. rewrite E2, Hsent, !app_assoc in *. by apply filter_after_last. }
  destruct (written_beside (model f) more2 c1 c1 c2) as (c3 & A3 & B3); [|done|done|].
  - pose proof (is_index _ _ Hc). split; [done|done|]. clear. induction (md_vertices (cm_model c1)); constructor; auto.
  - exists c3. rewrite <- (map_map (as_written (model f)) stream_delta), receive_deltas. split; [done|]. eapply beside_in_sync; [|done|done]. by apply model_ids, (feed_model_ok runId).
Qed.

(** C19. End to end, over any interleaving: a browser that connects is sent a snapshot and then every
    delta; if its connection drops after a delta, and the run, other subscribers and failing polls go on
    meanwhile, it presents the id of the last frame it received, and after what the server opens the new
    stream with, a replay written with the vertices as they are by then or a snapshot, it holds the server's
    vertices, each under its id. The run discards nothing and records no boundary, the console can read
    every event of it, and its positions are below 2^53. *)
Theorem reconnect_converges runId options n f0 f1 f d :
  rtc (feed_step n) (feed_start runId options) f0 -> rtc (feed_step n) f0 f1 -> rtc (feed_step n) f1 f ->
  Forall (fun e => understood e = true) (fd_log f) -> Forall no_discard (fd_log f) ->
  Forall (fun d => exact (cd_at_run_seq d) /\ exact (cd_ordinal d)) (fd_sent f) -> last (sent_since f0 f1) = Some d ->
  exists c1 c2, receive None (snapshotOf (model f0) :: map stream_delta (sent_since f0 f1)) = Some c1 /\
    receive (Some c1) (opening_events (Some (cursorOf (stream_delta d))) (fd_tailer f)) = Some c2 /\
    md_vertices (cm_model c2) ≡ₚ md_vertices (model f) /\ forall id, JMap.get (cm_byId c2) id = JMap.get (index (md_vertices (model f))) id.
Proof.
  intros H0 H1 H2 Hu Hd Hex Hlast. pose proof (feed_reachable _ _ _ _ H0) as Hi0. destruct (log_grows _ _ _ H2) as [rows Hrows].
  pose proof Hu as Hu1. pose proof Hd as Hd1. rewrite Hrows in Hu1, Hd1. apply Forall_app in Hu1 as [Hu1 _], Hd1 as [Hd1 _].
  destruct (sync_steps _ _ _ _ _ Hi0 H1 Hu1 Hd1 (in_sync_snapshot (model f0) 0)) as (Hi1 & more & c1 & E1 & A1 & S1 & _).
  rewrite (sent_since_app _ _ _ E1) in *. destruct (opening_syncs _ _ _ _ _ _ _ _ Hi1 H2 Hu Hd Hex E1 Hlast S1) as (c2 & R2 & [Hx Hv _]).
  exists c1, c2. split_and!; [cbn [receive applyEvent snapshotOf]; by rewrite receive_deltas|done|done|]. intros id. rewrite Hx. apply index_perm; [|done].
  rewrite (Permutation_map cv_vertex_id Hv). apply model_ids, (feed_model_ok runId); [|done]. apply (feed_reachable runId options n). by do 2 (etransitivity; [eassumption|]).
Qed.
End Session.

(** ** The recorded run, with a connection that drops *)

#[local] Instance session_collation : Collation := code_unit_collation.

Definition kept_log : list StoredEvent := firstn 11 console_log.

Lemma kept_log_ok : log_ok kept_log.
Proof. split; [repeat constructor|repeat constructor|apply (bool_decide_unpack _); vm_compute; exact I]. Qed.

(** Connected at 4; followed up to 8; away until 11. *)
Definition connected : Feed := poll_feed 4 (loaded "r1" default_options kept_log).
Definition dropped : Feed := poll_feed 4 connected.
Definition returned : Feed := poll_feed 4 dropped.

Lemma polled_quiet : rt_polling (fd_tailer connected) = false /\ rt_polling (fd_tailer dropped) = false.
Proof. split; vm_compute; reflexivity. Qed.

Lemma connected_reachable : rtc (feed_step 4) (feed_start "r1" default_options) connected.
Proof.
  unfold connected. etransitivity; [apply (loaded_reachable "r1" default_options 4 kept_log kept_log_ok)|].
  exact (proj1 (poll_feed_steps 4 (loaded "r1" default_options kept_log) eq_refl)).
Qed.

Definition last_seen : ConsoleDelta :=
  match last (sent_since connected dropped) with
  | Some d => d
  | None => {| cd_at_run_seq := 0; cd_ordinal := 0; cd_spend := no_spend; cd_change := subgraph_appended [] [] |}
  end.

Lemma reconnect_converges_witness :
  cursorOf (stream_delta last_seen) = "8.0" /\ length (opening_events (Some "8.0") (fd_tailer returned)) = 3%nat /\
  exists c1 c2, receive None (snapshotOf (rt_model (fd_tailer connected)) :: map stream_delta (sent_since connected dropped)) = Some c1 /\
    receive (Some c1) (opening_events (Some (cursorOf (stream_delta last_seen))) (fd_tailer returned)) = Some c2 /\
    md_vertices (cm_model c2) ≡ₚ md_vertices (rt_model (fd_tailer returned)) /\
    forall id, JMap.get (cm_byId c2) id = JMap.get (index (md_vertices (rt_model (fd_tailer returned)))) id.
Proof.
  split; [vm_compute; reflexivity|]. split; [vm_compute; reflexivity|].
  apply (reconnect_converges "r1" default_options 4 connected dropped returned last_seen).
  - exact connected_reachable.
  - exact (proj1 (poll_feed_steps 4 connected (proj1 polled_quiet))).
  - exact (proj1 (poll_feed_steps 4 dropped (proj2 polled_quiet))).
  - repeat constructor.
  - apply (bool_decide_unpack _). vm_compute. exact I.
  - apply (bool_decide_unpack _). vm_compute. exact I.
  - vm_compute. reflexivity.
Defined.

(** A branch sent while its vertices were being created and started is replayed with what became of them:
    the buffer held the objects, not their state. *)
Definition statuses (d : ConsoleDelta) : list ConsoleStatus :=
  match cd_change d with subgraph_appended vs _ => map cv_status vs | vertex_patched v => [cv_status v] | subgraph_hidden _ => [] end.

Example replay_written_late :
  option_map statuses (fd_sent returned !! 1%nat) = Some [started_status; created_status] /\
  match opening_events (Some "4.0") (fd_tailer returned) with stream_delta d :: _ => statuses d | _ => [] end = [succeeded_status; succeeded_status].
Proof. vm_compute. auto. Qed.
