(* ===== verification/ConsoleSource.v ===== *)
(** * The browser's end of the stream (console/client/src/stream/connection.ts, useRunStream.ts)

    The text of a stream, as it arrives in pieces, through the line protocol of [EventSource] to the
    listeners of [openRunStream] and the state of [useRunStream]. The protocol is that of server-sent
    events: fields up to a blank line, one event dispatched per block that has data. *)

From S2P Require Import Prelude Collections Number Json JsonParse JsText Events Projection Console ConsoleFacts ConsoleStream ConsoleWire ConsoleDecode ConsoleTail ConsoleClient ConsoleServer ConsoleSession.

(** ** The line protocol *)
Record Source : Type := {
  (** the line read so far, and whether it follows a carriage return *)
  so_line : string;
  so_cr : bool;
  (** the fields of the block so far *)
  so_data : string;
  so_type : string;
  so_id : string;
  (** the id a reconnect presents *)
  so_lastEventId : string
}.
Record Message : Type := { ms_type : string; ms_data : string; ms_lastEventId : string }.

Definition newSource (lastEventId : string) : Source :=
  {| so_line := ""; so_cr := false; so_data := ""; so_type := ""; so_id := lastEventId; so_lastEventId := lastEventId |}.

(** A line up to its first colon, and what follows it without one leading space. *)
Fixpoint field_of (line : string) : string * string :=
  match line with
  | "" => ("", "")
  | String ":" r => ("", match r with String " " v => v | _ => r end)
  | String c r => let '(name, v) := field_of r in (String c name, v)
  end.

Definition with_field (s : Source) (name v : string) : Source :=
  if name ==? "data" then {| so_line := so_line s; so_cr := so_cr s; so_data := so_data s +:+ v +:+ newline; so_type := so_type s; so_id := so_id s; so_lastEventId := so_lastEventId s |}
  else if name ==? "event" then {| so_line := so_line s; so_cr := so_cr s; so_data := so_data s; so_type := v; so_id := so_id s; so_lastEventId := so_lastEventId s |}
  else if (name ==? "id") && all_chars (fun c => c !=? ascii_of_nat 0) v
  then {| so_line := so_line s; so_cr := so_cr s; so_data := so_data s; so_type := so_type s; so_id := v; so_lastEventId := so_lastEventId s |}
  else s.

(** The data without its last line break. *)
Definition without_last (s : string) : string := take_str (String.length s - 1) s.

(** One whole line. *)
Definition on_line (s : Source) (line : string) : Source * list Message :=
  if line ==? "" then
    let s' := {| so_line := so_line s; so_cr := so_cr s; so_data := ""; so_type := ""; so_id := so_id s; so_lastEventId := so_id s |} in
    (s', if so_data s ==? "" then [] else
         [{| ms_type := if so_type s ==? "" then "message" else so_type s; ms_data := without_last (so_data s); ms_lastEventId := so_id s |}])
  else if starts_with ":" line then (s, [])
  else let '(name, v) := field_of line in (with_field s name v, []).

Definition with_line (s : Source) (line : string) (cr : bool) : Source :=
  {| so_line := line; so_cr := cr; so_data := so_data s; so_type := so_type s; so_id := so_id s; so_lastEventId := so_lastEventId s |}.

(** One character: a line ends at a line feed, a carriage return, or the two together. *)
Definition on_char (s : Source) (c : ascii) : Source * list Message :=
  if c ==? ascii_of_nat 10 then
    if so_cr s then (with_line s (so_line s) false, []) else on_line (with_line s "" false) (so_line s)
  else if c ==? ascii_of_nat 13 then on_line (with_line s "" true) (so_line s)
  else (with_line s (so_line s +:+ String c "") false, []).

Fixpoint feed (s : Source) (text : string) : Source * list Message :=
  match text with
  | "" => (s, [])
  | String c text => let '(s1, m1) := on_char s c in let '(s2, m2) := feed s1 text in (s2, m1 ++ m2)
  end.

(** ** The listeners, and the state of the view *)
Inductive ConnectionStatus : Type := connecting | live | reconnecting | stream_error.
#[export] Instance ConnectionStatus_eq_dec : EqDecision ConnectionStatus.
Proof. solve_decision. Defined.

Definition EVENT_TYPES : list string := ["topology_snapshot"; "subgraph_appended"; "subgraph_shadowed"; "vertex_patched"].

Record View : Type := { vw_state : RunStreamState; vw_status : ConnectionStatus; vw_error : option string }.

Definition onStatus (v : View) (status : ConnectionStatus) (detail : option string) : View := {| vw_state := vw_state v; vw_status := status; vw_error := detail |}.

(** The state before a connection, and the effect that opens one. *)
Definition initialView : View := {| vw_state := {| rs_model := None; rs_resyncs := 0; rs_generation := 0 |}; vw_status := connecting; vw_error := None |}.
Definition openView (v : View) : View := onStatus {| vw_state := reopen (vw_state v); vw_status := vw_status v; vw_error := vw_error v |} connecting None.

(** What happens to an open [EventSource]. *)
Inductive Happening : Type := opened | received (chunk : string) | failed (closed : bool).

Section Listeners.
(** [JSON.parse(data) as ConsoleStreamEvent] *)
Variable readEvent : string -> result ConsoleStreamEvent.

Definition onMessage (v : View) (m : Message) : View :=
  if includes (ms_type m) EVENT_TYPES then
    match readEvent (ms_data m) with
    | Ok event => {| vw_state := onEvent (vw_state v) event; vw_status := vw_status v; vw_error := vw_error v |}
    | Throw msg => onStatus v stream_error (Some msg)
    end
  else v.

Definition happens (st : Source * View) (h : Happening) : Source * View :=
  let '(s, v) := st in
  match h with
  | opened => (s, onStatus v live None)
  | received chunk => let '(s', ms) := feed s chunk in (s', fold_left onMessage ms v)
  | failed closed => (newSource (so_lastEventId s), onStatus v (if closed then stream_error else reconnecting) None)
  end.
End Listeners.

(** ** Frames in, events out *)
Definition glue (ts : list string) : string := foldr String.append "" ts.

Lemma feed_app s a b : feed s (a +:+ b) = let '(s1, m1) := feed s a in let '(s2, m2) := feed s1 b in (s2, m1 ++ m2).
Proof.
  revert s; induction a as [|c a IH]; intros s; [rewrite sapp_nil; cbn [feed]; by destruct (feed s b)|]. rewrite sapp_cons. cbn [feed].
  destruct (on_char s c) as [s1 m1]. rewrite IH. destruct (feed s1 a) as [s2 m2]. destruct (feed s2 b) as [s3 m3]. by rewrite app_assoc.
Qed.

(** A line without breaks is collected, and read at its break. *)
Lemma feed_collect s t : one_line t -> so_cr s = false -> feed s t = (with_line s (so_line s +:+ t) false, []).
Proof.
  intros Ht Hc. assert (s = with_line s (so_line s) false) as Hs by (destruct s; cbn in *; by subst). revert s Hc Hs; induction t as [|c t IH]; intros s Hc Hs.
  - cbn [feed]. rewrite sapp_empty. by rewrite <- Hs.
  - cbn [all_chars] in Ht. apply andb_true_iff in Ht as [Hl Ht]. unfold line_char in Hl. apply andb_true_iff in Hl as [H1%negb_true_iff H2%negb_true_iff].
    cbn [feed]. unfold on_char. rewrite H1, H2. rewrite (IH Ht (with_line s (so_line s +:+ String c "") false)) by done. cbn [app]. f_equal.
    unfold with_line. cbn. by rewrite sapp_assoc.
Qed.

Lemma feed_line s t : one_line t -> so_line s = "" -> so_cr s = false -> feed s (t +:+ newline) = on_line s t.
Proof.
  intros Ht Hl Hc. assert (with_line (with_line s t false) "" false = s) as Hs by (destruct s; cbn in *; by subst).
  rewrite feed_app, (feed_collect s t Ht Hc), Hl, sapp_nil. unfold newline. cbn [feed]. unfold on_char. rewrite eqb_refl. change (so_cr (with_line s t false)) with false. cbv iota.
  rewrite Hs. change (so_line (with_line s t false)) with t. destruct (on_line s t) as [s' m]. cbn. by rewrite app_nil_r.
Qed.

Lemma no_nul_cursor e : all_chars (fun c => c !=? ascii_of_nat 0) (cursorOf e) = true.
Proof.
  unfold cursorOf. rewrite !all_chars_app. assert (forall z, all_chars (fun c => c !=? ascii_of_nat 0) (zstr z) = true) as Hz.
  { intros z. apply (all_chars_impl num_char); [|apply all_chars_zstr]. intros [[] [] [] [] [] [] [] []]; vm_compute; done. }
  by rewrite !Hz.
Qed.

Lemma without_last_newline t : without_last (t +:+ newline) = t.
Proof.
  unfold without_last. rewrite sapp_length. change (String.length newline) with 1%nat. rewrite Nat.add_sub.
  induction t as [|c t IH]; [done|]. rewrite sapp_cons. cbn [String.length take_str]. by rewrite IH.
Qed.

(** What the browser dispatches for an event. *)
Definition message_of (e : ConsoleStreamEvent) : Message :=
  {| ms_type := event_type_name e; ms_data := Stringify.compact_text (event_json e); ms_lastEventId := cursorOf e |}.

Lemma one_line_data e : one_line (Stringify.compact_text (event_json e)).
Proof. unfold Stringify.compact_text. destruct (Stringify.compact (event_json e)) as [t|] eqn:Et; [by eapply one_line_compact|done]. Qed.

Lemma feed_frame lastId e : feed (newSource lastId) (encodeFrame e) = (newSource (cursorOf e), [message_of e]).
Proof.
  unfold encodeFrame. assert (forall p x rest s, one_line p -> one_line x -> so_line s = "" -> so_cr s = false ->
    feed s (p +:+ x +:+ newline +:+ rest) = let '(s1, m1) := on_line s (p +:+ x) in let '(s2, m2) := feed s1 rest in (s2, m1 ++ m2)) as Hl.
  { intros p x rest s Hp Hx H1 H2. rewrite <- (sapp_assoc p x), <- (sapp_assoc (p +:+ x)), feed_app, feed_line by (try done; rewrite all_chars_app; by rewrite Hp, Hx). done. }
  rewrite (Hl "id: ") by auto using one_line_cursor. change (on_line (newSource lastId) ("id: " +:+ cursorOf e)) with (with_field (newSource lastId) "id" (cursorOf e), @nil Message).
  unfold with_field. cbn [String.eqb]. change ("id" ==? "data") with false. change ("id" ==? "event") with false. change ("id" ==? "id") with true. cbn [andb]. rewrite no_nul_cursor.
  rewrite (Hl "event: ") by auto using one_line_type. set (s1 := Build_Source _ _ _ _ _ _). change (on_line s1 ("event: " +:+ event_type_name e)) with (with_field s1 "event" (event_type_name e), @nil Message).
  unfold with_field. change ("event" ==? "data") with false. change ("event" ==? "event") with true. cbv iota. set (s2 := Build_Source _ _ _ _ _ _).
  rewrite (Hl "data: ") by auto using one_line_data. change (on_line s2 ("data: " +:+ Stringify.compact_text (event_json e))) with (with_field s2 "data" (Stringify.compact_text (event_json e)), @nil Message).
  unfold with_field. change ("data" ==? "data") with true. cbv iota. set (s3 := Build_Source _ _ _ _ _ _).
  change newline with ("" +:+ newline). rewrite (feed_line s3 "") by done. unfold on_line. rewrite eqb_refl. cbn [so_data s3 s2 s1 newSource so_type so_id so_line so_cr app].
  rewrite sapp_nil. rewrite (proj2 (eqb_false (Stringify.compact_text (event_json e) +:+ newline) "")), without_last_newline.
  - assert ((event_type_name e ==? "") = false) as -> by (destruct e as [a o m|d]; [done|]; cbn; by destruct (cd_change d)). done.
  - intros E. apply (f_equal String.length) in E. rewrite sapp_length in E. cbn in E. lia.
Qed.

Lemma feed_heartbeat lastId : feed (newSource lastId) HEARTBEAT_FRAME = (newSource lastId, []).
Proof. reflexivity. Qed.

(** What a server writes: events, and heartbeats between them. *)
Definition frame_text (f : option ConsoleStreamEvent) : string := match f with Some e => encodeFrame e | None => HEARTBEAT_FRAME end.
Definition last_id (id : string) (es : list ConsoleStreamEvent) : string := fold_left (fun _ e => cursorOf e) es id.
Definition events_of (frames : list (option ConsoleStreamEvent)) : list ConsoleStreamEvent := omap (fun f => f) frames.

Lemma feed_frames id frames : feed (newSource id) (glue (map frame_text frames)) = (newSource (last_id id (events_of frames)), map message_of (events_of frames)).
Proof.
  revert id; induction frames as [|[e|] frames IH]; intros id; [done|..]; cbn [map glue foldr frame_text]; fold (glue (map frame_text frames)); rewrite feed_app.
  - rewrite feed_frame, IH. done.
  - rewrite feed_heartbeat, IH. done.
Qed.

Section Delivery.
Variable readEvent : string -> result ConsoleStreamEvent.

Lemma onMessage_event v e : readEvent (Stringify.compact_text (event_json e)) = Ok e ->
  onMessage readEvent v (message_of e) = {| vw_state := onEvent (vw_state v) e; vw_status := vw_status v; vw_error := vw_error v |}.
Proof.
  intros Hr. unfold onMessage. assert (includes (ms_type (message_of e)) EVENT_TYPES = true) as -> by (destruct e as [a o m|d]; [done|]; cbn; by destruct (cd_change d)).
  cbn [message_of ms_data]. by rewrite Hr.
Qed.

Lemma onMessages v es : Forall (fun e => readEvent (Stringify.compact_text (event_json e)) = Ok e) es ->
  fold_left (onMessage readEvent) (map message_of es) v = {| vw_state := fold_left onEvent es (vw_state v); vw_status := vw_status v; vw_error := vw_error v |}.
Proof.
  intros He. revert v; induction He as [|e es Hr _ IH]; intros v; cbn [map fold_left]; [by destruct v|]. by rewrite (onMessage_event v e Hr), IH.
Qed.

(** Where the text is cut into pieces does not show. *)
Lemma received_glue chunks s v : fold_left (happens readEvent) (map received chunks) (s, v) = happens readEvent (s, v) (received (glue chunks)).
Proof.
  revert s v; induction chunks as [|t chunks IH]; intros s v; [done|]. cbn [map fold_left glue foldr happens]. fold (glue chunks). rewrite feed_app.
  destruct (feed s t) as [s1 m1]. rewrite IH. cbn [happens]. destruct (feed s1 (glue chunks)) as [s2 m2]. by rewrite fold_left_app.
Qed.

End Delivery.

(** C23. The text a server writes is the events the view receives: whatever text a run holds, with
    heartbeats anywhere between the frames and the stream cut into pieces anywhere, the browser parses
    each frame's JSON back to the very event that was written, hands the listeners each event once and in
    order, the state of the view is that of applying them one by one, nothing is reported as an error, and
    the id it presents when it reconnects reads back as the position of the last event. The events are
    those whose JSON holds nothing undefined, no member twice and only numbers that print exactly. *)
Theorem source_delivers syntaxError id v frames chunks :
  glue chunks = glue (map frame_text frames) -> Forall (fun e => sendable e = true) (events_of frames) ->
  let '(s, v') := fold_left (happens (readEvent syntaxError)) (map received chunks) (newSource id, v) in
  v' = {| vw_state := fold_left onEvent (events_of frames) (vw_state v); vw_status := vw_status v; vw_error := vw_error v |} /\
  s = newSource (last_id id (events_of frames)) /\
  forall e, last (events_of frames) = Some e -> parseCursor (Some (so_lastEventId s)) = Some (cursor_at (event_at e) (event_ordinal e)).
Proof.
  intros Hc He. rewrite received_glue, Hc. cbn [happens]. rewrite feed_frames, onMessages by (eapply Forall_impl; [exact He|]; intros e; apply readEvent_event). split_and!; [done|done|].
  cbn [newSource so_lastEventId]. intros e Hlast. apply last_Some in Hlast as [before Hb]. rewrite Hb in *. unfold last_id. rewrite fold_left_app. cbn [fold_left].
  apply Forall_app in He as [_ He]. apply Forall_singleton, sendable_position in He as [Ha Ho]. by apply parseCursor_text.
Qed.

(** ** A snapshot, then a discard with an awkward reason, cut in the middle of the data *)
Definition no_message (rest : string) : string := "Unexpected token".
Definition awkward_frames : list (option ConsoleStreamEvent) := [None; Some (stream_snapshot 5 0 console_model); None; Some awkward_event; None].
Definition awkward_chunks : list string := [take_str 300 (glue (map frame_text awkward_frames)); drop_str 300 (glue (map frame_text awkward_frames))].

Lemma source_delivers_witness :
  let '(s, v) := fold_left (happens (readEvent no_message)) (map received awkward_chunks) (newSource "", openView initialView) in
  s = newSource "12.3" /\ vw_state v = fold_left onEvent [stream_snapshot 5 0 console_model; awkward_event] (vw_state (openView initialView)).
Proof.
  pose proof (source_delivers no_message "" (openView initialView) awkward_frames awkward_chunks) as H.
  destruct (fold_left (happens (readEvent no_message)) (map received awkward_chunks) (newSource "", openView initialView)) as [s v] eqn:E.
  destruct H as (Hv & Hs & _); [vm_compute; reflexivity| |].
  - repeat constructor; vm_compute; reflexivity.
  - rewrite Hs, Hv. split; [vm_compute; reflexivity|reflexivity].
Defined.

(** A connection that fails is reopened by the browser with the id of the last event; one that gave up is
    an error the view shows. *)
Example failure_keeps_cursor :
  let st := (newSource "12.3", onStatus (openView initialView) live None) in
  fst (happens (readEvent no_message) st (failed false)) = newSource "12.3" /\ vw_status (snd (happens (readEvent no_message) st (failed false))) = reconnecting /\
  vw_status (snd (happens (readEvent no_message) st (failed true))) = stream_error /\
  vw_error (snd (happens (readEvent no_message) st (received (glue ["event: topology_snapshot" +:+ newline; "data: {" +:+ newline; newline])))) = Some "Unexpected token".
Proof. vm_compute. auto. Qed.
