(* ===== verification/Inspector.v ===== *)
(** * The drawer (console/client/src/inspector/detail.ts, useVertexDetail.ts)

    One vertex's detail, fetched when the selection moves and abandoned when it moves again. A component
    renders with its properties, its effects run after that, and answers arrive whenever they do; the
    server is the handler of [ConsoleServer]. *)

From S2P Require Import Prelude Collections Number Json JsonParse JsText Events Projection Console ConsoleFacts ConsoleStream ConsoleWire Uri ConsoleServer.

Inductive Tab : Type := tab_payload | tab_prompt | tab_logs.
#[export] Instance Tab_eq_dec : EqDecision Tab.
Proof. solve_decision. Defined.

Definition tab_name (t : Tab) : string := match t with tab_payload => "payload" | tab_prompt => "prompt" | tab_logs => "logs" end.

Inductive DetailResult : Type :=
| detail_ok (v : value)
| detail_missing
| detail_unavailable (detail : value)
| detail_error (message : string).

(** What [fetch] resolves to; the body is what [json()] resolves to. *)
Record Response : Type := { rp_status : Z; rp_statusText : string; rp_body : result value }.

(** [get]: an exception of [fetch] is an error, one of [json()] rejects the promise. *)
Definition getDetail (fetched : result Response) : result DetailResult :=
  match fetched with
  | Throw message => Ok (detail_error message)
  | Ok response =>
      if rp_status response =? 404 then Ok detail_missing else
      if rp_status response =? 501 then detail ← rp_body response; Ok (detail_unavailable detail) else
      if negb ((200 <=? rp_status response) && (rp_status response <? 300)) then Ok (detail_error (zstr (rp_status response) +:+ " " +:+ rp_statusText response)) else
      v ← rp_body response; Ok (detail_ok v)
  end.

(** The address of [fetchPayload] and of [fetchRetained]. *)
Definition detailPath (runId vertexId : string) (tab : Tab) : string :=
  "/api/v1/runs/" +:+ runId +:+ "/vertices/" +:+ vertexId +:+ "/" +:+ tab_name tab.

(** ** The hook *)
Record Selection : Type := { sl_runId : string; sl_vertexId : option string; sl_tab : Tab }.
#[export] Instance Selection_eq_dec : EqDecision Selection.
Proof. solve_decision. Defined.

Inductive DetailState : Type := loading | loaded (r : DetailResult).

(** [ip_rendered]: the properties of the last render. [ip_effect]: those its effect last ran for, and the
    number of its request if it made one. [ip_aborted]: the requests whose signal is aborted. *)
Record Inspector : Type := {
  ip_rendered : Selection;
  ip_effect : option (Selection * option nat);
  ip_state : DetailState;
  ip_requests : list Selection;
  ip_aborted : list nat
}.

Definition mounted (s : Selection) : Inspector := {| ip_rendered := s; ip_effect := None; ip_state := loading; ip_requests := []; ip_aborted := [] |}.

Definition render (i : Inspector) (s : Selection) : Inspector :=
  {| ip_rendered := s; ip_effect := ip_effect i; ip_state := ip_state i; ip_requests := ip_requests i; ip_aborted := ip_aborted i |}.

(** The cleanup of the effect before. *)
Definition aborts (i : Inspector) : list nat := match ip_effect i with Some (_, Some n) => ip_aborted i ++ [n] | _ => ip_aborted i end.

(** Whether the effect has run for what is rendered. *)
Definition settled (i : Inspector) : bool := match ip_effect i with Some (s, _) => s ==? ip_rendered i | None => false end.

(** The effect, which runs when its properties have changed: the request before is aborted, and one is
    made if a vertex is selected. *)
Definition effect (i : Inspector) : Inspector :=
  if settled i then i else
  match truthy (sl_vertexId (ip_rendered i)) with
  | None => {| ip_rendered := ip_rendered i; ip_effect := Some (ip_rendered i, None); ip_state := ip_state i; ip_requests := ip_requests i; ip_aborted := aborts i |}
  | Some _ => {| ip_rendered := ip_rendered i; ip_effect := Some (ip_rendered i, Some (length (ip_requests i))); ip_state := loading;
                 ip_requests := ip_requests i ++ [ip_rendered i]; ip_aborted := aborts i |}
  end.

(** The answer to request [n]; a promise that rejects changes nothing. *)
Definition respond (i : Inspector) (n : nat) (answer : result DetailResult) : Inspector :=
  match answer with
  | Throw _ => i
  | Ok r => if includes n (ip_aborted i) then i
            else {| ip_rendered := ip_rendered i; ip_effect := ip_effect i; ip_state := loaded r; ip_requests := ip_requests i; ip_aborted := ip_aborted i |}
  end.

(** ** Whose detail is shown *)
Section Honest.
(** What the server may answer to a selection's request. *)
Variable answers : Selection -> result DetailResult -> Prop.

Inductive inspector_step : Inspector -> Inspector -> Prop :=
| step_render i s : inspector_step i (render i s)
| step_effect i : inspector_step i (effect i)
| step_respond i n s answer : ip_requests i !! n = Some s -> answers s answer -> inspector_step i (respond i n answer).

Definition live_request (i : Inspector) (n : nat) : Prop := (n < length (ip_requests i))%nat /\ n ∉ ip_aborted i.

(** A request that may still be heard is the one of the effect that ran last, and what is loaded then
    answers it. *)
Record honest (i : Inspector) : Prop := {
  ho_live : forall n, live_request i n -> exists s, ip_effect i = Some (s, Some n);
  ho_effect : forall s n, ip_effect i = Some (s, Some n) -> ip_requests i !! n = Some s /\ truthy (sl_vertexId s) <> None;
  ho_quiet : forall s, ip_effect i = Some (s, None) -> truthy (sl_vertexId s) = None;
  ho_shown : forall s n r, ip_effect i = Some (s, Some n) -> ip_state i = loaded r -> answers s (Ok r)
}.

Lemma effect_honest i : honest i -> honest (effect i).
Proof.
  intros [Hl He Hq Hs]. unfold effect. destruct (settled i) eqn:Eset; [by split|]. destruct (truthy (sl_vertexId (ip_rendered i))) as [vertex|] eqn:Et.
  - split; cbn [ip_effect ip_requests ip_state ip_aborted].
    + intros n [Hn Ha]. cbn [ip_requests] in Hn. rewrite length_app in Hn. cbn in Hn. destruct (decide (n = length (ip_requests i))) as [->|Hne]; [by eexists|].
      cbn [ip_aborted] in Ha. assert (n ∉ ip_aborted i) as Hna by (unfold aborts in Ha; destruct (ip_effect i) as [[? [?|]]|]; set_solver).
      destruct (Hl n) as [s1 Hs']; [split; [lia|done]|]. unfold aborts in Ha. rewrite Hs' in Ha. set_solver.
    + intros s n [= <- <-]. split; [by apply list_lookup_middle|congruence].
    + done.
    + done.
  - split; cbn [ip_effect ip_requests ip_state ip_aborted]; [|done|intros s [= <-]; done|done].
    intros n [Hn Ha]. cbn [ip_aborted ip_requests] in *. assert (n ∉ ip_aborted i) as Hna by (unfold aborts in Ha; destruct (ip_effect i) as [[? [?|]]|]; set_solver).
    destruct (Hl n) as [s Hs']; [by split|]. unfold aborts in Ha. rewrite Hs' in Ha. set_solver.
Qed.

Lemma step_honest i i' : inspector_step i i' -> honest i -> honest i'.
Proof.
  intros [j s|j|j n s answer Hn Ha] Hh; [by destruct Hh; split|by apply effect_honest|]. unfold respond. destruct answer as [r|]; [|done].
  destruct (includes n (ip_aborted j)) eqn:Ei; [done|]. apply includes_false in Ei. destruct Hh as [Hl He Hq Hs]. split; cbn [ip_effect ip_requests ip_state ip_aborted]; [done|done|done|].
  intros s' m r' Hm [= <-]. destruct (Hl n) as [s'' Hs'']; [split; [by eapply lookup_lt_Some|done]|]. rewrite Hs'' in Hm. injection Hm as -> ->.
  destruct (He _ _ Hs'') as [Hreq _]. congruence.
Qed.

Lemma mounted_honest s : honest (mounted s).
Proof. split; cbn; [intros n [Hn _]; cbn in Hn; lia|done|done|done]. Qed.

Lemma steps_honest i i' : rtc inspector_step i i' -> honest i -> honest i'.
Proof. induction 1 as [|i1 i2 i3 Hs _ IH]; [done|]. intros Hh. apply IH. exact (step_honest _ _ Hs Hh). Qed.

(** Once its effect has run, what the drawer shows of a selected vertex answers a request for it. *)
Lemma shown_answers s0 i v r : rtc inspector_step (mounted s0) i -> settled i = true -> truthy (sl_vertexId (ip_rendered i)) = Some v -> ip_state i = loaded r -> answers (ip_rendered i) (Ok r).
Proof.
  intros Hr Hset Hv Hl. destruct (steps_honest _ _ Hr (mounted_honest s0)) as [_ He Hq Hs]. unfold settled in Hset.
  destruct (ip_effect i) as [[s [n|]]|] eqn:E; [| |done]; apply eqb_true_1 in Hset as ->; [by eapply Hs|]. specialize (Hq _ eq_refl). congruence.
Qed.
End Honest.

(** ** The address reaches the endpoint *)
Lemma split_chars (p : ascii -> bool) sep s : forallb (all_chars p) (Js.split_char sep s) = true -> all_chars (fun c => p c || (c ==? sep)) s = true.
Proof.
  induction s as [|c s IH]; [done|]. cbn [Js.split_char all_chars]. destruct (c ==? sep) eqn:E.
  - cbn [forallb all_chars]. intros H. by rewrite orb_true_r, IH.
  - rewrite orb_false_r. destruct (Js.split_char sep s) as [|w ws]; cbn [forallb all_chars] in *.
    + intros H. apply andb_true_iff in H as [H _]. apply andb_true_iff in H as [-> _]. by rewrite IH.
    + intros H. apply andb_true_iff in H as [H Hws]. apply andb_true_iff in H as [-> Hw]. rewrite IH; [done|]. by rewrite Hw, Hws.
Qed.

(** An identifier is its own encoding. *)
Definition id_char (c : ascii) : bool := is_hex c || (c ==? "-"%char).

Lemma id_char_encode c : id_char c = true -> Uri.encode_char c = String c "".
Proof. intros Hc. destruct c as [[] [] [] [] [] [] [] []]; vm_compute in Hc; done. Qed.

Lemma id_chars_encode s : all_chars id_char s = true -> Uri.encodeURIComponent s = s.
Proof.
  induction s as [|c s IH]; [done|]. cbn [all_chars Uri.encodeURIComponent]. intros [Hc Hs]%andb_true_iff.
  by rewrite (id_char_encode c Hc), sapp_cons, sapp_nil, IH.
Qed.

Lemma UUID_plain s : UUID s = true -> Uri.encodeURIComponent s = s /\ s <> "".
Proof.
  intros Hu. split; [|by intros ->]. apply id_chars_encode, (split_chars is_hex). unfold UUID in Hu.
  destruct (Js.split_char "-"%char s) as [|a [|b [|c [|d [|e [|]]]]]]; try done. by apply andb_true_iff in Hu as [Hu _].
Qed.

Definition endpoint_of (t : Tab) : Endpoint := match t with tab_payload => vertex_payload | tab_prompt => vertex_prompt | tab_logs => vertex_logs end.
Definition detail_segments (run v name : string) : list string := [""; "api"; "v1"; "runs"; Uri.encodeURIComponent run; "vertices"; Uri.encodeURIComponent v; name].

Lemma detail_path_segments run v tab : UUID run = true -> UUID v = true -> Js.split_char slash (detailPath run v tab) = detail_segments run v (tab_name tab).
Proof.
  intros [Er _]%UUID_plain [Ev _]%UUID_plain. unfold detailPath, detail_segments. pose proof (encoded_not_slash run) as Hr. pose proof (encoded_not_slash v) as Hv.
  rewrite Er in *. rewrite Ev in *.
  change ("/api/v1/runs/" +:+ ?x) with (String slash ("api" +:+ String slash ("v1" +:+ String slash ("runs" +:+ String slash x)))).
  change ("/vertices/" +:+ ?x) with (String slash ("vertices" +:+ String slash x)). change ("/" +:+ ?x) with (String slash x).
  change (String slash ("api" +:+ ?x)) with ("" +:+ String slash ("api" +:+ x)).
  rewrite !split_once by done. by destruct tab.
Qed.

Lemma detail_match run v name want : run <> "" -> v <> "" -> 
  match_segments (detail_segments run v name) [""; "api"; "v1"; "runs"; ":runId"; "vertices"; ":vertexId"; want] [] =
  match_segments [name] [want] [("runId", run); ("vertexId", v)].
Proof. intros Hr Hv. unfold detail_segments. rewrite !match_literal, match_param, match_literal, match_param by done. done. Qed.

(** The address of a vertex's detail resolves to its endpoint, with the identifiers it was built from. *)
Lemma detail_resolves run v tab : UUID run = true -> UUID v = true -> resolve (detailPath run v tab) = Ok (Some (endpoint_of tab, [("runId", run); ("vertexId", v)])).
Proof.
  intros Hr Hv. pose proof (detail_path_segments run v tab Hr Hv) as Hs. destruct (UUID_plain run Hr) as [_ Hr']. destruct (UUID_plain v Hv) as [_ Hv'].
  assert (forall name, matchPath (detailPath run v tab) ("/api/v1/runs/:runId/vertices/:vertexId/" +:+ tab_name name) =
    match_segments [tab_name tab] [tab_name name] [("runId", run); ("vertexId", v)]) as Hm.
  { intros name. unfold matchPath. rewrite Hs. rewrite <- (detail_match run v (tab_name tab) (tab_name name) Hr' Hv'). by destruct name. }
  assert (forall pattern, length (Js.split_char slash pattern) <> 8%nat -> matchPath (detailPath run v tab) pattern = Ok None) as Hother.
  { intros pattern Hl. unfold matchPath. rewrite Hs. cbn [length detail_segments]. destruct (8 =? _)%nat eqn:E; [|done]. apply Nat.eqb_eq in E. by symmetry in E. }
  unfold resolve, routes. cbn [mapR fst snd].
  rewrite (Hother "/healthz"), (Hother "/readyz"), (Hother "/api/v1/runs"), (Hother "/api/v1/runs/:runId/dag"), (Hother "/api/v1/runs/:runId/stream") by (vm_compute; discriminate).
  pose proof (Hm tab_payload) as H1. pose proof (Hm tab_prompt) as H2. pose proof (Hm tab_logs) as H3. vm_compute (String.append _ _) in H1, H2, H3.
  rewrite H1, H2, H3. by destruct tab.
Qed.

(** ** What an answer says *)
Section Answers.
Context `{Collation}.
(** The runtime's text for a status, its message for a text that is not JSON, and for a request that does
    not arrive; the databases that are read while the drawer is open. *)
Variable statusText : Z -> string.
Variable syntaxError : string -> string.
Variable unreachable : string -> Prop.
Variable held : Reader -> Prop.

(** A value written by the server and read by the browser. *)
Definition reread (v : value) : result value := Parse.JSON_parse syntaxError (Stringify.compact_text v).

Definition delivered (r : Reply) : Response :=
  {| rp_status := status_of r; rp_statusText := statusText (status_of r);
     rp_body := match r with json_reply _ body => reread body | _ => Throw (syntaxError "") end |}.

Definition detailRequest (s : Selection) : Request :=
  {| rq_method := "GET"; rq_path := detailPath (sl_runId s) (default "" (sl_vertexId s)) (sl_tab s); rq_query := []; rq_lastEventId := None |}.

Inductive answer_to (s : Selection) : result DetailResult -> Prop :=
| served reader n g listener : held reader -> answer_to s (getDetail (Ok (delivered (handle reader n g (detailRequest s) listener).2)))
| failed_fetch message : unreachable message -> answer_to s (getDetail (Throw message)).

Definition retention_kind (t : Tab) : option RetentionKind := match t with tab_payload => None | tab_prompt => Some retain_prompt | tab_logs => Some retain_logs end.

(** What a result says of a vertex of a run, on a tab. *)
Definition says (run v : string) (tab : Tab) (r : DetailResult) : Prop :=
  match r with
  | detail_ok x => tab = tab_payload /\ exists reader events d, held reader /\ rd_rows reader run = Ok events /\ payloadDetail events v = Some d /\ reread (detail_json d) = Ok x
  | detail_unavailable x => exists kind reader events, retention_kind tab = Some kind /\ held reader /\ rd_rows reader run = Ok events /\
      existsb (names_vertex v) events = true /\ reread (retention_json (retentionUnavailable events v kind)) = Ok x
  | detail_missing => exists reader events, held reader /\ rd_rows reader run = Ok events /\
      match tab with tab_payload => payloadDetail events v = None | _ => existsb (names_vertex v) events = false end
  | detail_error m => unreachable m \/ exists reader msg, held reader /\ rd_rows reader run = Throw msg /\ m = "500 " +:+ statusText 500
  end.

(** A request for a vertex is answered by the two functions of detail.ts on the server. *)
Lemma detail_handled reader n g run v tab listener : UUID run = true -> UUID v = true ->
  (handle reader n g (detailRequest {| sl_runId := run; sl_vertexId := Some v; sl_tab := tab |}) listener).2 =
  caught (match retention_kind tab with None => servePayload reader run v | Some kind => serveRetention reader kind run v end).
Proof.
  intros Hr Hv. unfold handle. cbn [detailRequest rq_path rq_method sl_runId sl_vertexId sl_tab default from_option id]. rewrite (detail_resolves run v tab Hr Hv).
  unfold malformed_id. cbn [JMap.get fst snd]. assert (malformed_id [("runId", run); ("vertexId", v)] "runId" || malformed_id [("runId", run); ("vertexId", v)] "vertexId" = false) as Hm.
  { unfold malformed_id. change (JMap.get [("runId", run); ("vertexId", v)] "runId") with (Some run). change (JMap.get [("runId", run); ("vertexId", v)] "vertexId") with (Some v).
    destruct run, v; try done. cbn [truthy]. by rewrite Hr, Hv. }
  unfold malformed_id in Hm. rewrite Hm. by destruct tab.
Qed.

(** What [get] makes of each status the endpoint replies with. *)
Lemma get_ok body : getDetail (Ok (delivered (json_reply 200 body))) = (x ← reread body; Ok (detail_ok x)).
Proof. unfold getDetail, delivered. cbn [rp_status rp_body status_of]. done. Qed.
Lemma get_missing body : getDetail (Ok (delivered (json_reply 404 body))) = Ok detail_missing.
Proof. unfold getDetail, delivered. cbn [rp_status rp_body status_of]. done. Qed.
Lemma get_unavailable body : getDetail (Ok (delivered (json_reply 501 body))) = (x ← reread body; Ok (detail_unavailable x)).
Proof. unfold getDetail, delivered. cbn [rp_status rp_body status_of]. done. Qed.
Lemma get_internal msg : getDetail (Ok (delivered (internal msg))) = Ok (detail_error ("500 " +:+ statusText 500)).
Proof. unfold getDetail, delivered, internal. cbn [rp_status rp_body rp_statusText status_of]. done. Qed.

Lemma answer_says s v r : truthy (sl_vertexId s) = Some v -> UUID (sl_runId s) = true -> UUID v = true -> answer_to s (Ok r) -> says (sl_runId s) v (sl_tab s) r.
Proof.
  destruct s as [run [w|] tab]; [|done]. intros Ht Hr Hv Ha. assert (w = v) as -> by (destruct w; [done|by injection Ht]). cbn [sl_runId sl_tab] in *.
  remember (Ok r) as answer eqn:Er. destruct Ha as [reader n g listener Hheld|message Hm]; [|injection Er as <-; by left].
  rewrite detail_handled in Er by done. unfold servePayload, serveRetention in Er.
  destruct (rd_rows reader run) as [events|msg] eqn:Erows.
  - destruct (retention_kind tab) as [kind|] eqn:Ek; cbn [caught mbind result_bind] in Er.
    + destruct (existsb (names_vertex v) events) eqn:Ex; cbn [caught] in Er.
      * rewrite get_unavailable in Er. apply bind_Ok in Er as (x & Hx & Ex'). apply Ok_inj in Ex' as <-. by exists kind, reader, events.
      * rewrite get_missing in Er. apply Ok_inj in Er as <-. exists reader, events. by destruct tab.
    + destruct tab; try done. destruct (payloadDetail events v) as [d|] eqn:Ed; cbn [caught] in Er.
      * rewrite get_ok in Er. apply bind_Ok in Er as (x & Hx & Ex'). apply Ok_inj in Ex' as <-. split; [done|]. by exists reader, events, d.
      * rewrite get_missing in Er. apply Ok_inj in Er as <-. by exists reader, events.
  - destruct (retention_kind tab); cbn [caught mbind result_bind] in Er; rewrite get_internal in Er; apply Ok_inj in Er as <-; right; by exists reader, msg.
Qed.

(** C26. What the drawer shows belongs under its header. However selections, effects and answers interleave,
    once the effect of a render has run, a result shown for a selected vertex is what the server says of
    that vertex of that run on that tab: its payload, what the log retains of it, that there is no such
    vertex, or why the question was not answered. *)
Theorem inspector_honest s0 i v r :
  rtc (inspector_step answer_to) (mounted s0) i -> settled i = true ->
  truthy (sl_vertexId (ip_rendered i)) = Some v -> UUID (sl_runId (ip_rendered i)) = true -> UUID v = true ->
  ip_state i = loaded r ->
  says (sl_runId (ip_rendered i)) v (sl_tab (ip_rendered i)) r.
Proof. intros Hsteps Hset Hv Hr Hu Hl. apply (answer_says (ip_rendered i)); [done..|]. by eapply shown_answers. Qed.
End Answers.

(** ** Two cards clicked in turn *)
Definition card_1 : string := "5d0c7a10-0000-4000-8000-000000000001".
Definition card_2 : string := "5d0c7a10-0000-4000-8000-000000000002".
Definition two_cards : Reader :=
  {| rd_ready := true; rd_runs := fun _ => Ok [];
     rd_rows := fun id => if id ==? run_1 then Ok [sample_event 1 vertex_created (Some card_1) [] None [("role", VStr "planner")];
                                                   sample_event 2 vertex_created (Some card_2) [] None [("role", VStr "tool")]] else Ok [] |}.

Definition select (card : string) : Selection := {| sl_runId := run_1; sl_vertexId := Some card; sl_tab := tab_payload |}.
Definition reason (status : Z) : string := if status =? 200 then "OK" else "Not Found".
Definition card_answer (card : string) : result DetailResult :=
  getDetail (Ok (delivered reason id (@handle code_unit_collation two_cards 512 no_tailers (detailRequest (select card)) 0).2)).

(** The first answer arrives after the second, when its request is aborted. *)
Definition clicked : Inspector :=
  respond (respond (effect (render (effect (mounted (select card_1))) (select card_2))) 1 (card_answer card_2)) 0 (card_answer card_1).

Definition shown_role (i : Inspector) : option value := match ip_state i with loaded (detail_ok v) => Some (chain v "role") | _ => None end.

Lemma inspector_honest_witness : shown_role clicked = Some (VStr "tool") /\
  match ip_state clicked with loaded r => says reason id (fun _ => False) (fun r => r = two_cards) run_1 card_2 tab_payload r | loading => False end.
Proof.
  split; [vm_compute; reflexivity|]. destruct (ip_state clicked) as [|r] eqn:E; [vm_compute in E; discriminate E|].
  apply (@inspector_honest code_unit_collation reason id (fun _ => False) (fun r => r = two_cards) (select card_1) clicked card_2 r);
    [|vm_compute; reflexivity|vm_compute; reflexivity|vm_compute; reflexivity|vm_compute; reflexivity|exact E].
  eapply rtc_l; [apply step_effect|]. eapply rtc_l; [apply (step_render _ _ (select card_2))|]. eapply rtc_l; [apply step_effect|].
  eapply rtc_l; [apply (step_respond _ _ 1 (select card_2) (card_answer card_2)); [vm_compute; reflexivity|by apply served]|].
  eapply rtc_l; [apply (step_respond _ _ 0 (select card_1) (card_answer card_1)); [vm_compute; reflexivity|by apply served]|]. apply rtc_refl.
Defined.

(** Before the effect of a render has run, the state is the previous selection's: the first frame after a
    click holds the previous vertex's detail under the new vertex's header. *)
Example stale_frame :
  (fun i => (sl_vertexId (ip_rendered i), shown_role i)) (render (respond (effect (mounted (select card_1))) 0 (card_answer card_1)) (select card_2)) =
  (Some card_2, Some (VStr "planner")).
Proof. vm_compute. reflexivity. Qed.

(** A reply whose body is not JSON leaves the drawer loading: [get] catches only what [fetch] throws. *)
Example unreadable_body :
  ip_state (respond (effect (mounted (select card_1))) 0 (getDetail (Ok {| rp_status := 200; rp_statusText := "OK"; rp_body := Throw "Unexpected end of JSON input" |}))) = loading.
Proof. vm_compute. reflexivity. Qed.
