(* ===== verification/Layout.v ===== *)
(** * The canvas (console/client/src/graph/layout.ts, graph/toFlow.ts)

    Where each vertex sits and what is drawn of it. Coordinates are integers: the sizes are, and the
    one halving of the source, the commit boundary between two layers, is kept as a rational. *)

From Stdlib Require Import QArith.QArith.
From S2P Require Import Prelude Collections Number Json Events Projection Console ConsoleFacts.
Open Scope Z_scope.

(** ** Placement *)
Record LayoutOptions : Type := { ly_nodeWidth : Z; ly_nodeHeight : Z; ly_layerGap : Z; ly_siblingGap : Z; ly_scopePadding : Z }.

Definition DEFAULT_LAYOUT : LayoutOptions :=
  {| ly_nodeWidth := 216; ly_nodeHeight := 72; ly_layerGap := 56; ly_siblingGap := 24; ly_scopePadding := 20 |}.

Record PlacedVertex : Type := { pv_vertexId : string; pv_layer : Z; pv_index : nat; pv_x : Z; pv_y : Z }.

Record PlacedScope : Type := {
  ps_scopeId : string;
  ps_x : Z;
  ps_y : Z;
  ps_width : Z;
  ps_height : Z;
  ps_pivotY : option Q;
  ps_drawable : bool
}.

Record LayoutResult : Type := { lr_vertices : list (string * PlacedVertex); lr_scopes : list PlacedScope; lr_bounds : Z * Z }.

(** The ranks of the scopes, in order of first appearance. *)
Definition scopeRank (vs : list ConsoleVertex) : list (string * Z) :=
  fold_left (fun ranks v => match truthy (tx_scope_id (cv_txn v)) with
                            | Some scope => if JMap.has ranks scope then ranks else JMap.set ranks scope (Z.of_nat (length ranks))
                            | None => ranks
                            end) vs [].

Definition rankOf (ranks : list (string * Z)) (v : ConsoleVertex) : Z :=
  match truthy (tx_scope_id (cv_txn v)) with
  | Some scope => default (Z.of_nat (length ranks)) (JMap.get ranks scope)
  | None => Z.of_nat (length ranks)
  end.

(** [layers.set(layer, [...(layers.get(layer) ?? []), id])] *)
Definition add_to (layers : list (Z * list string)) (layer : Z) (id : string) : list (Z * list string) :=
  JMap.set layers layer (JMap.get_or [] layers layer ++ [id]).

Record Sorting : Type := { so_layers : list (Z * list string); so_pinned : list (string * PlacedVertex); so_fresh : list ConsoleVertex }.

Definition keptAt (previous : option LayoutResult) (id : string) : option PlacedVertex :=
  p ← previous; JMap.get (lr_vertices p) id.

Definition pin (previous : option LayoutResult) (s : Sorting) (v : ConsoleVertex) : Sorting :=
  match keptAt previous (cv_vertex_id v) with
  | Some kept => {| so_layers := add_to (so_layers s) (pv_layer kept) (cv_vertex_id v);
                    so_pinned := JMap.set (so_pinned s) (cv_vertex_id v) kept; so_fresh := so_fresh s |}
  | None => {| so_layers := so_layers s; so_pinned := so_pinned s; so_fresh := so_fresh s ++ [v] |}
  end.

Definition by_rank (ranks : list (string * Z)) (a b : ConsoleVertex) : Z :=
  zor (rankOf ranks a - rankOf ranks b) (cv_created_seq a - cv_created_seq b).

Definition index_of (pinned : list (string * PlacedVertex)) (id : string) : Z := from_option (fun p => Z.of_nat (pv_index p)) 0 (JMap.get pinned id).
Definition by_index (pinned : list (string * PlacedVertex)) (a b : string) : Z := index_of pinned a - index_of pinned b.
Definition by_layer (a b : Z * list string) : Z := fst a - fst b.

(** One layer, left to right: what was there, in its order, then what is new. *)
Definition ordered (pinned : list (string * PlacedVertex)) (ids : list string) : list string :=
  js_sort (by_index pinned) (filter_by (JMap.has pinned) ids) ++ filter_by (fun id => negb (JMap.has pinned id)) ids.

Definition spot (o : LayoutOptions) (layer : Z) (index : nat) (id : string) : PlacedVertex :=
  {| pv_vertexId := id; pv_layer := layer; pv_index := index; pv_x := Z.of_nat index * (ly_nodeWidth o + ly_siblingGap o);
     pv_y := layer * (ly_nodeHeight o + ly_layerGap o) |}.

Definition placeLayer (o : LayoutOptions) (pinned placed : list (string * PlacedVertex)) (layer : Z * list string) : list (string * PlacedVertex) :=
  fold_left (fun placed p => JMap.set placed (snd p) (spot o (fst layer) (fst p) (snd p))) (entries (ordered pinned (snd layer))) placed.

(** *** Enclosures *)
Record Box : Type := { bx_x : Z; bx_y : Z; bx_right : Z; bx_bottom : Z }.

Definition overlaps (o : LayoutOptions) (p : PlacedVertex) (b : Box) : bool :=
  (pv_x p <? bx_right b) && (bx_x b <? pv_x p + ly_nodeWidth o) && (pv_y p <? bx_bottom b) && (bx_y b <? pv_y p + ly_nodeHeight o).

Definition boxHolds (scope : ConsoleScope) (placed : list (string * PlacedVertex)) (b : Box) (o : LayoutOptions) : bool :=
  forallb (fun p => includes (pv_vertexId p) (cs_member_vertex_ids scope) || negb (overlaps o p b)) (JMap.values placed).

(** [Math.min(...xs)] and [Math.max(...xs)] of a non-empty list. *)
Definition minimum (x : Z) (xs : list Z) : Z := fold_left Z.min xs x.
Definition maximum (x : Z) (xs : list Z) : Z := fold_left Z.max xs x.

Definition boxOf (m : PlacedVertex) (ms : list PlacedVertex) (o : LayoutOptions) : Box :=
  {| bx_x := minimum (pv_x m) (map pv_x ms) - ly_scopePadding o;
     bx_y := minimum (pv_y m) (map pv_y ms) - ly_scopePadding o;
     bx_right := maximum (pv_x m) (map pv_x ms) + ly_nodeWidth o + ly_scopePadding o;
     bx_bottom := maximum (pv_y m) (map pv_y ms) + ly_nodeHeight o + ly_scopePadding o |}.

Definition placeScope (placed : list (string * PlacedVertex)) (o : LayoutOptions) (scope : ConsoleScope) : PlacedScope :=
  match omap (JMap.get placed) (cs_member_vertex_ids scope) with
  | [] => {| ps_scopeId := cs_scope_id scope; ps_x := 0; ps_y := 0; ps_width := 0; ps_height := 0; ps_pivotY := None; ps_drawable := false |}
  | m :: ms =>
      let box := boxOf m ms o in
      let pivot := id ← truthy (cs_pivot_vertex_id scope); JMap.get placed id in
      {| ps_scopeId := cs_scope_id scope; ps_x := bx_x box; ps_y := bx_y box; ps_width := bx_right box - bx_x box; ps_height := bx_bottom box - bx_y box;
         ps_pivotY := (fun p => (pv_y p # 1) - (ly_layerGap o # 2))%Q <$> pivot; ps_drawable := boxHolds scope placed box o |}
  end.

(** The layers with what each holds, before they are put in order. *)
Definition sortIn (m : ConsoleDagModel) (previous : option LayoutResult) : Sorting :=
  let ranks := scopeRank (md_vertices m) in
  let s := fold_left (pin previous) (md_vertices m) {| so_layers := []; so_pinned := []; so_fresh := [] |} in
  let fresh := js_sort (by_rank ranks) (so_fresh s) in
  {| so_layers := fold_left (fun layers v => add_to layers (cv_depth v) (cv_vertex_id v)) fresh (so_layers s);
     so_pinned := so_pinned s; so_fresh := fresh |}.

Definition layout (m : ConsoleDagModel) (o : LayoutOptions) (previous : option LayoutResult) : LayoutResult :=
  let s := sortIn m previous in
  let sorted := js_sort by_layer (so_layers s) in
  let placed := fold_left (placeLayer o (so_pinned s)) sorted [] in
  let widest := maximum 0 (map (fun l => Z.of_nat (length (ordered (so_pinned s) (snd l)))) sorted) in
  let depth := maximum 0 (map pv_layer (JMap.values placed)) + 1 in
  {| lr_vertices := placed; lr_scopes := map (placeScope placed o) (md_scopes m);
     lr_bounds := (widest * (ly_nodeWidth o + ly_siblingGap o), depth * (ly_nodeHeight o + ly_layerGap o)) |}.

(** ** What is drawn *)
Record Relations : Type := { rl_upstream : list string; rl_downstream : list string }.

Definition relationsOf (m : ConsoleDagModel) (vertexId : option string) : option Relations :=
  id ← truthy vertexId;
  self ← find (fun v => cv_vertex_id v ==? id) (md_vertices m);
  Some {| rl_upstream := JSet.of_list (cv_parent_refs self);
          rl_downstream := JSet.of_list (map cv_vertex_id (filter_by (fun v => includes id (cv_parent_refs v)) (md_vertices m))) |}.

Definition relationClass (relations : option Relations) (selectedVertexId : option string) (id : string) : option string :=
  match relations, truthy selectedVertexId with
  | Some r, Some selected =>
      Some (if id ==? selected then "related-self" else if JSet.has (rl_upstream r) id then "related-upstream"
            else if JSet.has (rl_downstream r) id then "related-downstream" else "related-dimmed")
  | _, _ => None
  end.

(** The parts of a node and an edge that vary; the fixed presentation attributes are left out. *)
Inductive FlowNode : Type :=
| scope_node (id : string) (x y width height : Z) (scope : ConsoleScope)
| vertex_node (id : string) (x y : Z) (vertex : ConsoleVertex) (className : option string).

Record Edge : Type := { eg_id : string; eg_source : string; eg_target : string; eg_animated : bool; eg_className : option string; eg_zIndex : Z }.

Record FlowGraph : Type := { fg_nodes : list FlowNode; fg_edges : list Edge }.

Definition scopeNode (placed : LayoutResult) (scope : ConsoleScope) : option FlowNode :=
  box ← find (fun c => ps_scopeId c ==? cs_scope_id scope) (lr_scopes placed);
  if ps_drawable box then Some (scope_node ("scope:" +:+ cs_scope_id scope) (ps_x box) (ps_y box) (ps_width box) (ps_height box) scope) else None.

Definition is_selected (selected : option string) (id : string) : bool := match selected with Some s => id ==? s | None => false end.

(** [[a, b].filter(Boolean).join(' ') || undefined] *)
Definition classes (l : list string) : option string := truthy (Some (join " " (filter_by (fun s => s !=? "") l))).

Definition edge (relations : option Relations) (selected : option string) (v : ConsoleVertex) (parent : string) : Edge :=
  let touches := is_selected selected parent || is_selected selected (cv_vertex_id v) in
  let direction := if is_selected selected parent then "related-downstream" else "related-upstream" in
  {| eg_id := parent +:+ "->" +:+ cv_vertex_id v; eg_source := parent; eg_target := cv_vertex_id v;
     eg_animated := cv_status v ==? started_status;
     eg_className := classes [if cv_is_shadowed v then "edge-shadowed" else ""; match relations with Some _ => if touches then direction else "related-dimmed" | None => "" end];
     eg_zIndex := if touches then 2 else 1 |}.

Definition vertexNode (relations : option Relations) (selected : option string) (v : ConsoleVertex) (p : PlacedVertex) : FlowNode :=
  vertex_node (cv_vertex_id v) (pv_x p) (pv_y p) v (relationClass relations selected (cv_vertex_id v)).

Definition toFlow (m : ConsoleDagModel) (placed : LayoutResult) (selected : option string) : FlowGraph :=
  let relations := relationsOf m selected in
  let at_ := fun v => JMap.get (lr_vertices placed) (cv_vertex_id v) in
  {| fg_nodes := omap (scopeNode placed) (md_scopes m) ++ omap (fun v => vertexNode relations selected v <$> at_ v) (md_vertices m);
     fg_edges := flat_map (fun v => match at_ v with
                                    | Some _ => map (edge relations selected v) (filter_by (JMap.has (lr_vertices placed)) (cv_parent_refs v))
                                    | None => []
                                    end) (md_vertices m) |}.

(** ** Filling the layers *)

Lemma elem_of_entries_from {A} (n i : nat) (x : A) l : (i, x) ∈ entries_from n l <-> exists j, i = (n + j)%nat /\ l !! j = Some x.
Proof.
  unfold entries_from. revert n; induction l as [|y l IH]; intros n; cbn.
  - rewrite elem_of_nil. split; [done|]. by intros (? & _ & ?).
  - rewrite elem_of_cons, IH. split.
    + intros [[= -> ->]|(j & -> & Hj)]; [exists 0%nat|exists (S j)]; (split; [lia|done]).
    + intros ([|j] & -> & Hj); [left; cbn in Hj; rewrite Nat.add_0_r; congruence|right; exists j; split; [lia|done]].
Qed.

Lemma elem_of_entries {A} (i : nat) (x : A) l : (i, x) ∈ entries l <-> l !! i = Some x.
Proof. unfold entries. rewrite elem_of_entries_from. split; [by intros (j & -> & ?)|by exists i]. Qed.

Lemma map_fst_entries {A} (l : list A) : map fst (entries l) = seq 0 (length l).
Proof.
  unfold entries, entries_from. generalize 0%nat. induction l as [|x l IH]; intros n; cbn; [done|]. by rewrite IH.
Qed.

Section Groups.
Context {X : Type} (key : X -> Z) (name : X -> string).

Definition grouped (xs : list X) (layers : list (Z * list string)) : list (Z * list string) :=
  fold_left (fun layers x => add_to layers (key x) (name x)) xs layers.

Lemma get_or_add (layers : list (Z * list string)) k id l :
  JMap.get_or [] (add_to layers k id) l = JMap.get_or [] layers l ++ (if k =? l then [id] else []).
Proof.
  unfold add_to, JMap.get_or. rewrite get_set. destruct (k ==? l) eqn:E.
  - apply eqb_true_1 in E as ->. by rewrite Z.eqb_refl.
  - apply eqb_false_1 in E. rewrite (proj2 (Z.eqb_neq k l)) by done. by rewrite app_nil_r.
Qed.

Lemma get_or_grouped xs layers l : JMap.get_or [] (grouped xs layers) l = JMap.get_or [] layers l ++ map name (filter_by (fun x => key x =? l) xs).
Proof.
  revert layers; induction xs as [|x xs IH]; intros layers; cbn; [by rewrite app_nil_r|]. unfold grouped in IH. rewrite IH, get_or_add, <- app_assoc.
  f_equal. by destruct (key x =? l).
Qed.

Lemma NoDup_grouped xs layers : NoDup (JMap.keys layers) -> NoDup (JMap.keys (grouped xs layers)).
Proof. revert layers; induction xs as [|x xs IH]; intros layers Hn; cbn; [done|]. apply IH. by apply NoDup_keys_set. Qed.

Lemma values_grouped xs layers : concat (JMap.values (grouped xs layers)) ≡ₚ concat (JMap.values layers) ++ map name xs.
Proof.
  revert layers; induction xs as [|x xs IH]; intros layers; [by rewrite app_nil_r|].
  change (grouped (x :: xs) layers) with (grouped xs (add_to layers (key x) (name x))). rewrite IH. unfold add_to. rewrite values_set_snoc. by rewrite <- app_assoc.
Qed.
End Groups.

(** ** The shape of a layout *)
Abbreviation vids vs := (map cv_vertex_id vs).

(** The vertices the previous layout holds, where it put them. *)
Definition keptList (previous : option LayoutResult) (vs : list ConsoleVertex) : list (string * PlacedVertex) :=
  omap (fun v => (fun k => (cv_vertex_id v, k)) <$> keptAt previous (cv_vertex_id v)) vs.

Definition isFresh (previous : option LayoutResult) (v : ConsoleVertex) : bool := match keptAt previous (cv_vertex_id v) with Some _ => false | None => true end.

Lemma vids_inj vs v w : NoDup (vids vs) -> v ∈ vs -> w ∈ vs -> cv_vertex_id v = cv_vertex_id w -> v = w.
Proof.
  induction vs as [|u vs IH]; intros Hn Hv Hw E; [by apply elem_of_nil in Hv|]. cbn in Hn. apply NoDup_cons in Hn as [Hu Hn].
  apply elem_of_cons in Hv as [->|Hv], Hw as [->|Hw]; [done| | |by apply IH].
  - destruct Hu. rewrite E. apply elem_of_map. by exists w.
  - destruct Hu. rewrite <- E. apply elem_of_map. by exists v.
Qed.

Lemma pin_loop previous vs s : fold_left (pin previous) vs s =
  {| so_layers := grouped (fun p => pv_layer (snd p)) fst (keptList previous vs) (so_layers s);
     so_pinned := fold_left (fun m p => JMap.set m (fst p) (snd p)) (keptList previous vs) (so_pinned s);
     so_fresh := so_fresh s ++ filter_by (isFresh previous) vs |}.
Proof.
  unfold grouped. revert s; induction vs as [|v vs IH]; intros s; cbn; [rewrite app_nil_r; by destruct s|]. rewrite IH. unfold pin, isFresh.
  destruct (keptAt previous (cv_vertex_id v)) as [k|]; cbn; [done|]. by rewrite <- app_assoc.
Qed.

Lemma elem_of_keptList previous vs id k : (id, k) ∈ keptList previous vs <-> id ∈ vids vs /\ keptAt previous id = Some k.
Proof.
  unfold keptList. rewrite list_elem_of_omap, elem_of_map. split.
  - intros (v & Hv & Hk). destruct (keptAt _ _) as [k'|] eqn:E; [|done]. injection Hk as <- <-. split; [by exists v|done].
  - intros [(v & -> & Hv) Hk]. exists v. split; [done|]. by rewrite Hk.
Qed.

Lemma kept_fresh_ids previous vs : map fst (keptList previous vs) ++ vids (filter_by (isFresh previous) vs) ≡ₚ vids vs.
Proof.
  induction vs as [|v vs IH]; cbn; [done|]. unfold isFresh. destruct (keptAt previous (cv_vertex_id v)) as [k|]; cbn.
  - by rewrite IH.
  - rewrite <- IH. symmetry. apply Permutation_middle.
Qed.

(** ** Every vertex gets one place *)
Definition spots (o : LayoutOptions) (pinned : list (string * PlacedVertex)) (layers : list (Z * list string)) : list (string * PlacedVertex) :=
  flat_map (fun l => map (fun p => (snd p, spot o (fst l) (fst p) (snd p))) (entries (ordered pinned (snd l)))) layers.

Lemma fold_left_map {A B C} (f : A -> C -> A) (g : B -> C) l a : fold_left f (map g l) a = fold_left (fun a x => f a (g x)) l a.
Proof. revert a; induction l as [|x l IH]; intros a; cbn; [done|apply IH]. Qed.

Lemma placeLayers_spots o pinned layers placed :
  fold_left (placeLayer o pinned) layers placed = fold_left (fun m p => JMap.set m (fst p) (snd p)) (spots o pinned layers) placed.
Proof.
  revert placed; induction layers as [|l layers IH]; intros placed; cbn [fold_left spots flat_map]; [done|]. rewrite fold_left_app, IH, fold_left_map. done.
Qed.

Lemma filter_split {A} (p : A -> bool) l : filter_by p l ++ filter_by (fun x => negb (p x)) l ≡ₚ l.
Proof.
  induction l as [|x l IH]; cbn; [done|]. destruct (p x); cbn; [by rewrite IH|]. rewrite <- Permutation_middle. by rewrite IH.
Qed.

Lemma ordered_Permutation pinned l : ordered pinned l ≡ₚ l.
Proof. unfold ordered. rewrite js_sort_Permutation. apply filter_split. Qed.

Lemma spots_ids o pinned layers : map fst (spots o pinned layers) ≡ₚ concat (JMap.values layers).
Proof.
  induction layers as [|l layers IH]; cbn [spots flat_map JMap.values map concat]; [done|]. rewrite map_app, map_map. unfold spots, JMap.values in IH. rewrite IH.
  apply Permutation_app_tail. cbn [fst]. rewrite <- (ordered_Permutation pinned (snd l)) at 2. unfold entries, entries_from.
  generalize 0%nat. induction (ordered pinned (snd l)) as [|x xs IHx]; intros n; cbn; [done|]. by rewrite IHx.
Qed.

Lemma elem_of_spots o pinned layers id p : NoDup (JMap.keys layers) ->
  (id, p) ∈ spots o pinned layers <-> exists l i, p = spot o l i id /\ ordered pinned (JMap.get_or [] layers l) !! i = Some id.
Proof.
  intros Hn. unfold spots. rewrite elem_of_flat_map. split.
  - intros ([l ids] & Hl & Hp). apply elem_of_map in Hp as ([i x] & [= -> ->] & Hx). apply elem_of_entries in Hx. cbn in *. exists l, i. split; [done|].
    unfold JMap.get_or. by rewrite (get_elem layers l ids).
  - intros (l & i & -> & Hi). unfold JMap.get_or in Hi. destruct (JMap.get layers l) as [ids|] eqn:Eg; [|by cbn in Hi]. apply get_Some_elem in Eg.
    exists (l, ids). split; [done|]. apply elem_of_map. exists (i, id). split; [done|]. by apply elem_of_entries.
Qed.

Section Shape.
Context (o : LayoutOptions) (m : ConsoleDagModel) (previous : option LayoutResult).
Hypothesis distinct : NoDup (vids (md_vertices m)).

Let kept := keptList previous (md_vertices m).
Let fresh := js_sort (by_rank (scopeRank (md_vertices m))) (filter_by (isFresh previous) (md_vertices m)).
Let s := sortIn m previous.

Lemma kept_fresh : map fst kept ++ vids fresh ≡ₚ vids (md_vertices m).
Proof.
  unfold fresh. rewrite (Permutation_map cv_vertex_id (js_sort_Permutation (by_rank (scopeRank (md_vertices m))) _)). apply kept_fresh_ids.
Qed.

Lemma kept_NoDup : NoDup (map fst kept).
Proof. assert (NoDup (map fst kept ++ vids fresh)) as Hn by (by rewrite kept_fresh). by apply NoDup_app in Hn as [Hn _]. Qed.

Lemma sortIn_shape : so_pinned s = kept /\ so_layers s = grouped cv_depth cv_vertex_id fresh (grouped (fun p => pv_layer (snd p)) fst kept []).
Proof.
  unfold s, sortIn. rewrite pin_loop. cbn [so_pinned so_layers so_fresh app]. split; [|done]. fold kept.
  change (JMap.of_entries kept = kept). apply of_entries_NoDup. apply kept_NoDup.
Qed.

(** What a layer holds. *)
Lemma layer_ids l : JMap.get_or [] (so_layers s) l =
  map fst (filter_by (fun p => pv_layer (snd p) =? l) kept) ++ vids (filter_by (fun v => cv_depth v =? l) fresh).
Proof. rewrite (proj2 sortIn_shape). by rewrite !get_or_grouped. Qed.

Lemma has_kept id : JMap.has (so_pinned s) id = true <-> id ∈ map fst kept.
Proof. rewrite (proj1 sortIn_shape), has_keys. done. Qed.

Lemma ordered_layer l : ordered (so_pinned s) (JMap.get_or [] (so_layers s) l) =
  js_sort (by_index kept) (map fst (filter_by (fun p => pv_layer (snd p) =? l) kept)) ++ vids (filter_by (fun v => cv_depth v =? l) fresh).
Proof.
  unfold ordered. rewrite layer_ids, !filter_by_app. set (a := map fst _). set (b := vids _).
  assert (forall id, id ∈ a -> JMap.has (so_pinned s) id = true) as Ha.
  { intros id (p & -> & Hp)%elem_of_map. apply has_kept, elem_of_map. exists p. split; [done|]. by apply elem_of_filter_by in Hp as [Hp _]. }
  assert (forall id, id ∈ b -> JMap.has (so_pinned s) id = false) as Hb.
  { intros id (v & -> & Hv)%elem_of_map. apply not_true_iff_false. rewrite has_kept. intros Hin. apply elem_of_filter_by in Hv as [Hv _].
    assert (NoDup (map fst kept ++ vids fresh)) as Hn by (by rewrite kept_fresh). apply NoDup_app in Hn as (_ & Hn & _). apply (Hn _ Hin), elem_of_map. by exists v. }
  rewrite (filter_by_all (JMap.has (so_pinned s)) a), (filter_by_none (JMap.has (so_pinned s)) b) by (by apply Forall_forall).
  rewrite (filter_by_none _ a), (filter_by_all _ b) by (apply Forall_forall; intros id Hid; first [by rewrite Ha|by rewrite Hb]).
  rewrite app_nil_r. by rewrite (proj1 sortIn_shape).
Qed.

Let layers := js_sort by_layer (so_layers s).

Lemma sortIn_NoDup : NoDup (JMap.keys (so_layers s)).
Proof. rewrite (proj2 sortIn_shape). apply NoDup_grouped, NoDup_grouped. constructor. Qed.

Lemma layers_NoDup : NoDup (JMap.keys layers).
Proof. unfold layers, JMap.keys. rewrite (Permutation_map fst (js_sort_Permutation by_layer (so_layers s))). apply sortIn_NoDup. Qed.

Lemma layers_get_or l : JMap.get_or [] layers l = JMap.get_or [] (so_layers s) l.
Proof.
  unfold JMap.get_or. f_equal. apply option_eq. intros ids. split; intros Hx%get_Some_elem; apply get_elem; auto using layers_NoDup, sortIn_NoDup; unfold layers in *; revert Hx; by rewrite elem_of_js_sort.
Qed.

Lemma layers_ids : concat (JMap.values layers) ≡ₚ vids (md_vertices m).
Proof.
  unfold layers, JMap.values. rewrite (js_sort_Permutation by_layer (so_layers s)). rewrite (proj2 sortIn_shape).
  fold (JMap.values (grouped cv_depth cv_vertex_id fresh (grouped (fun p : string * PlacedVertex => pv_layer (snd p)) fst kept []))).
  rewrite !values_grouped. cbn. apply kept_fresh.
Qed.

(** The vertices of a layout are its spots. *)
Lemma layout_spots : lr_vertices (layout m o previous) = spots o (so_pinned s) layers.
Proof.
  unfold layout. cbn [lr_vertices]. rewrite placeLayers_spots. change (JMap.of_entries (spots o (so_pinned s) layers) = spots o (so_pinned s) layers).
  apply of_entries_NoDup. by rewrite spots_ids, layers_ids.
Qed.

Lemma layout_ids : JMap.keys (lr_vertices (layout m o previous)) ≡ₚ vids (md_vertices m).
Proof. rewrite layout_spots. unfold JMap.keys. by rewrite spots_ids, layers_ids. Qed.

Lemma layout_get id p : JMap.get (lr_vertices (layout m o previous)) id = Some p <->
  exists l i, p = spot o l i id /\ ordered (so_pinned s) (JMap.get_or [] (so_layers s) l) !! i = Some id.
Proof.
  setoid_rewrite <- layers_get_or. rewrite <- elem_of_spots by apply layers_NoDup. rewrite layout_spots. split; [apply get_Some_elem|].
  apply get_elem. unfold JMap.keys. by rewrite spots_ids, layers_ids.
Qed.

(** The row of a vertex: the one it had, or its depth. *)
Lemma layout_row v p : v ∈ md_vertices m -> JMap.get (lr_vertices (layout m o previous)) (cv_vertex_id v) = Some p ->
  pv_layer p = match keptAt previous (cv_vertex_id v) with Some k => pv_layer k | None => cv_depth v end /\ p = spot o (pv_layer p) (pv_index p) (cv_vertex_id v).
Proof.
  intros Hv (l & i & -> & Hi)%layout_get. split; [|done]. cbn [pv_layer spot]. rewrite ordered_layer in Hi. apply list_elem_of_lookup_2 in Hi.
  apply elem_of_app in Hi as [Hi|Hi].
  - apply elem_of_js_sort, elem_of_map in Hi as ([k q] & Hk & [Hq Hl]%elem_of_filter_by). cbn [fst snd] in *. subst k.
    unfold kept, keptList in Hq. apply list_elem_of_omap in Hq as (w & _ & Hw). destruct (keptAt previous (cv_vertex_id w)) as [k|] eqn:Ek; [|done].
    injection Hw as Hid <-. rewrite <- Hid, Ek. lia.
  - apply elem_of_map in Hi as (w & Hid & [Hw Hl]%elem_of_filter_by). unfold fresh in Hw. apply elem_of_js_sort, elem_of_filter_by in Hw as [Hw Hf].
    assert (w = v) as -> by (by apply (vids_inj (md_vertices m))). unfold isFresh in Hf. destruct (keptAt previous (cv_vertex_id v)); [done|]. lia.
Qed.
End Shape.

(** ** Stability *)

(** A layout some frame produced: each layer is filled from the left, without gaps, on the grid. *)
Record laid (o : LayoutOptions) (r : LayoutResult) : Prop := {
  ld_NoDup : NoDup (JMap.keys (lr_vertices r));
  ld_spot : forall id p, JMap.get (lr_vertices r) id = Some p -> p = spot o (pv_layer p) (pv_index p) id;
  ld_dense : forall l, exists n, map pv_index (filter_by (fun p => pv_layer p =? l) (JMap.values (lr_vertices r))) ≡ₚ seq 0 n
}.

#[export] Instance filter_by_proper {A} (p : A -> bool) : Proper ((≡ₚ) ==> (≡ₚ)) (filter_by p).
Proof.
  intros l1 l2. induction 1 as [|x l1 l2 _ IH|x y l|l1 l2 l3 _ IH1 _ IH2]; cbn; [done| | |by etransitivity].
  - destruct (p x); by rewrite IH.
  - destruct (p x), (p y); try done. apply perm_swap.
Qed.

Lemma map_filter_by {A B} (f : A -> B) (p : B -> bool) l : filter_by p (map f l) = map f (filter_by (fun x => p (f x)) l).
Proof. induction l as [|x l IH]; cbn; [done|]. destruct (p (f x)); cbn; by rewrite IH. Qed.

Lemma spots_dense o pinned layers l : NoDup (JMap.keys layers) ->
  map pv_index (filter_by (fun p => pv_layer p =? l) (JMap.values (spots o pinned layers))) = seq 0 (length (ordered pinned (JMap.get_or [] layers l))).
Proof.
  unfold JMap.values. induction layers as [|[k ids] layers IH]; intros Hn; [done|]. cbn [spots flat_map]. rewrite map_app, map_map, filter_by_app, map_app.
  cbn [JMap.keys map fst] in Hn. inversion Hn as [|? ? Hk Hn']; subst. unfold spots in IH. rewrite IH by done. unfold JMap.get_or. rewrite get_cons. cbn [fst snd].
  destruct (k ==? l) eqn:E.
  - apply eqb_true_1 in E as ->. rewrite (proj2 (get_None layers l)) by done. cbn. rewrite app_nil_r, filter_by_all.
    + rewrite map_map. cbn. apply map_fst_entries.
    + apply Forall_map, Forall_true. intros p. cbn. apply Z.eqb_refl.
  - apply eqb_false_1 in E. rewrite filter_by_none; [done|]. apply Forall_map, Forall_true. intros p. cbn. by apply Z.eqb_neq.
Qed.

Lemma layout_laid o m previous : NoDup (vids (md_vertices m)) -> laid o (layout m o previous).
Proof.
  intros Hd. split.
  - by rewrite layout_ids.
  - intros id p (l & i & -> & _)%layout_get; done.
  - intros l. eexists. rewrite layout_spots by done. rewrite spots_dense; [done|]. by apply layers_NoDup.
Qed.

(** Whatever was on the canvas is what the next frame starts from. *)
Lemma kept_all m prev : NoDup (vids (md_vertices m)) -> NoDup (JMap.keys (lr_vertices prev)) ->
  (forall id, id ∈ JMap.keys (lr_vertices prev) -> id ∈ vids (md_vertices m)) ->
  keptList (Some prev) (md_vertices m) ≡ₚ lr_vertices prev.
Proof.
  intros Hd Hp Hin. apply NoDup_Permutation.
  - apply (NoDup_fmap_1 fst). by apply (kept_NoDup m (Some prev)).
  - by apply (NoDup_fmap_1 fst).
  - intros [id k]. rewrite elem_of_keptList. cbn. split; [by intros [_ ?%get_Some_elem]|]. intros He. split; [|by apply get_elem].
    apply Hin, elem_of_map. by exists (id, k).
Qed.

#[local] Instance by_index_comparator pinned : Comparator (by_index pinned) := key_comparator (index_of pinned).

Lemma index_sorted (pinned : list (string * PlacedVertex)) l : StronglySorted Z.le (map (index_of pinned) (js_sort (by_index pinned) l)).
Proof.
  apply StronglySorted_map. eapply StronglySorted_weaken; [|apply (js_sort_sorted (by_index pinned))]. unfold by_index. cbn. intros; lia.
Qed.

Lemma seq_sorted n k : StronglySorted Z.le (map Z.of_nat (seq n k)).
Proof.
  revert n; induction k as [|k IH]; intros n; cbn; [constructor|]. constructor; [apply IH|]. apply Forall_map, Forall_forall. intros j Hj%elem_of_seq. lia.
Qed.

(** Sorted by index, a layer filled without gaps has at each position the vertex of that index. *)
Lemma dense_position (pinned : list (string * PlacedVertex)) l n id i : map (index_of pinned) l ≡ₚ map Z.of_nat (seq 0 n) ->
  id ∈ l -> index_of pinned id = Z.of_nat i -> js_sort (by_index pinned) l !! i = Some id.
Proof.
  intros Hp Hid Hi. assert (map (index_of pinned) (js_sort (by_index pinned) l) = map Z.of_nat (seq 0 n)) as Heq.
  { apply (StronglySorted_unique Z.le); [apply index_sorted|apply seq_sorted|]. by rewrite (Permutation_map (index_of pinned) (js_sort_Permutation (by_index pinned) l)). }
  apply (elem_of_js_sort (by_index pinned)) in Hid. apply list_elem_of_lookup in Hid as [j Hj].
  assert (map (index_of pinned) (js_sort (by_index pinned) l) !! j = Some (Z.of_nat i)) as Hm by (etransitivity; [apply list_lookup_fmap|]; by rewrite Hj, <- Hi).
  rewrite Heq in Hm. apply list_lookup_fmap_Some in Hm as (x & Hx & Ex). apply lookup_seq in Ex as [-> _].
  assert (i = j) as -> by lia. done.
Qed.

(** A frame keeps whatever the previous one placed, where it was. *)
Lemma layout_keeps o m prev id p : NoDup (vids (md_vertices m)) -> laid o prev -> (forall k, k ∈ JMap.keys (lr_vertices prev) -> k ∈ vids (md_vertices m)) ->
  JMap.get (lr_vertices prev) id = Some p -> JMap.get (lr_vertices (layout m o (Some prev))) id = Some p.
Proof.
  intros Hd [Hn Hsp Hde] Hin Hg. apply layout_get; [done|]. exists (pv_layer p), (pv_index p). split; [by apply Hsp|]. rewrite ordered_layer by done.
  set (kept := keptList (Some prev) (md_vertices m)). pose proof (kept_all m prev Hd Hn Hin) as Hk. fold kept in Hk.
  set (here := filter_by (fun q : string * PlacedVertex => pv_layer (snd q) =? pv_layer p) kept).
  assert ((id, p) ∈ here) as Hhere.
  { apply elem_of_filter_by. cbn. rewrite Z.eqb_refl. split; [|done]. rewrite Hk. by apply get_Some_elem. }
  assert (forall q, q ∈ here -> index_of kept (fst q) = Z.of_nat (pv_index (snd q))) as Hidx.
  { intros [k q] [Hq _]%elem_of_filter_by. unfold index_of. rewrite (get_elem kept k q); [done|by apply (kept_NoDup m (Some prev))|done]. }
  destruct (Hde (pv_layer p)) as [n Hden]. apply lookup_app_l_Some.
  apply (dense_position kept (map fst here) n); [|apply elem_of_map; by exists (id, p)|exact (Hidx (id, p) Hhere)].
  rewrite map_map. rewrite (map_ext_in _ (fun q => Z.of_nat (pv_index (snd q)))) by (intros q Hq; apply Hidx; by apply list_elem_of_In).
  rewrite <- Hden. unfold JMap.values. rewrite map_filter_by, !map_map. apply Permutation_map. unfold here. by rewrite Hk.
Qed.

(** The frames a canvas draws as its model grows, each from the one before. *)
Fixpoint frames (o : LayoutOptions) (previous : option LayoutResult) (ms : list ConsoleDagModel) : list LayoutResult :=
  match ms with
  | [] => []
  | m :: ms => let r := layout m o previous in r :: frames o (Some r) ms
  end.

(** Models of one run in the order a client holds them: vertices are added, none is taken away. *)
Record growing (ms : list ConsoleDagModel) : Prop := {
  gr_distinct : Forall (fun m => NoDup (vids (md_vertices m))) ms;
  gr_grows : StronglySorted (fun a b => vids (md_vertices a) ⊆ vids (md_vertices b)) ms
}.

Lemma frames_keep o ms m previous j r' id p :
  let r := layout m o previous in
  growing (m :: ms) -> frames o (Some r) ms !! j = Some r' -> JMap.get (lr_vertices r) id = Some p -> JMap.get (lr_vertices r') id = Some p.
Proof.
  revert m previous j; induction ms as [|m' ms IH]; intros m previous j r [Hd Hg] Hj Hp; cbn in Hj; [done|].
  inversion Hd as [|? ? Hd1 Hd2]; inversion Hg as [|? ? Hg1 Hg2]; inversion Hd2 as [|? ? Hd3 Hd4]; inversion Hg2 as [|? ? Hg3 Hg4]; subst.
  assert (JMap.get (lr_vertices (layout m' o (Some r))) id = Some p) as Hp'.
  { apply layout_keeps; [done|by apply layout_laid| |done]. intros k Hk. apply Hg3. by rewrite <- (layout_ids o m previous Hd1). }
  destruct j as [|j]; cbn in Hj; [by injection Hj as <-|]. by eapply (IH m' (Some r) j).
Qed.

Lemma frames_at o ms previous i m r : ms !! i = Some m -> frames o previous ms !! i = Some r -> exists previous', r = layout m o previous'.
Proof.
  revert previous i; induction ms as [|m0 ms IH]; intros previous [|i] Hm Hr; cbn in *; try done; [|by eapply IH].
  injection Hm as ->. injection Hr as <-. by exists previous.
Qed.

(** Growth does not move what is on screen: over the successive models of a run, every frame places
    exactly the vertices of its model, and a vertex one frame placed is at the same layer, the same
    position within it and the same coordinates in every later frame. *)
Theorem layout_stable o previous ms i j m r r' :
  growing ms -> (i <= j)%nat -> ms !! i = Some m -> frames o previous ms !! i = Some r -> frames o previous ms !! j = Some r' ->
  JMap.keys (lr_vertices r) ≡ₚ vids (md_vertices m) /\
  forall id p, JMap.get (lr_vertices r) id = Some p -> JMap.get (lr_vertices r') id = Some p.
Proof.
  intros Hg Hij Hm Hr Hr'. split.
  - destruct (frames_at _ _ _ _ _ _ Hm Hr) as [q ->]. apply layout_ids. destruct Hg as [Hd _]. rewrite Forall_forall in Hd. apply Hd. by eapply list_elem_of_lookup_2.
  - intros id p Hp. revert previous i j Hij Hm Hr Hr' Hg. induction ms as [|m0 ms IH]; intros previous [|i] [|j] Hij Hm Hr Hr' Hg; cbn in *; try done; try lia.
    + injection Hr as <-. by injection Hr' as <-.
    + injection Hr as <-. by eapply frames_keep.
    + eapply (IH (Some (layout m0 o previous)) i j); try done; [lia|]. destruct Hg as [Hd Hs]. inversion Hd; inversion Hs; by subst.
Qed.

(** ** What an operator sees *)

Lemma minimum_le xs x y : y ∈ x :: xs -> minimum x xs <= y.
Proof.
  unfold minimum. revert x y; induction xs as [|z xs IH]; intros x y Hy; cbn.
  - apply list_elem_of_singleton in Hy as ->. lia.
  - pose proof (IH (Z.min x z) (Z.min x z) ltac:(left)) as Hb. apply elem_of_cons in Hy as [->|[->|Hy]%elem_of_cons]; [lia|lia|]. apply IH. by right.
Qed.

Lemma maximum_ge xs x y : y ∈ x :: xs -> y <= maximum x xs.
Proof.
  unfold maximum. revert x y; induction xs as [|z xs IH]; intros x y Hy; cbn.
  - apply list_elem_of_singleton in Hy as ->. lia.
  - pose proof (IH (Z.max x z) (Z.max x z) ltac:(left)) as Hb. apply elem_of_cons in Hy as [->|[->|Hy]%elem_of_cons]; [lia|lia|]. apply IH. by right.
Qed.

(** The card drawn at a point lies inside a rectangle, with the padding around it; or outside it. *)
Definition card_inside (o : LayoutOptions) (cx cy x y width height : Z) : Prop :=
  x + ly_scopePadding o <= cx /\ cx + ly_nodeWidth o + ly_scopePadding o <= x + width /\
  y + ly_scopePadding o <= cy /\ cy + ly_nodeHeight o + ly_scopePadding o <= y + height.

Definition card_outside (o : LayoutOptions) (cx cy x y width height : Z) : Prop :=
  cx + ly_nodeWidth o <= x \/ x + width <= cx \/ cy + ly_nodeHeight o <= y \/ y + height <= cy.

Lemma boxOf_holds o m ms p : p ∈ m :: ms -> let b := boxOf m ms o in card_inside o (pv_x p) (pv_y p) (bx_x b) (bx_y b) (bx_right b - bx_x b) (bx_bottom b - bx_y b).
Proof.
  intros Hp b. assert (forall f : PlacedVertex -> Z, f p ∈ f m :: map f ms) as Hf.
  { intros f. change (f p ∈ map f (m :: ms)). apply elem_of_map. by exists p. }
  pose proof (minimum_le _ _ _ (Hf pv_x)). pose proof (minimum_le _ _ _ (Hf pv_y)). pose proof (maximum_ge _ _ _ (Hf pv_x)). pose proof (maximum_ge _ _ _ (Hf pv_y)).
  unfold card_inside, b. cbn. lia.
Qed.

Lemma minimum_in xs x : minimum x xs ∈ x :: xs.
Proof.
  unfold minimum. revert x; induction xs as [|z xs IH]; intros x; cbn [fold_left]; [left|].
  specialize (IH (Z.min x z)). apply elem_of_cons in IH as [->|IH]; [|by do 2 right]. destruct (Z.min_dec x z) as [->| ->]; [left|right; left].
Qed.

Lemma maximum_in xs x : maximum x xs ∈ x :: xs.
Proof.
  unfold maximum. revert x; induction xs as [|z xs IH]; intros x; cbn [fold_left]; [left|].
  specialize (IH (Z.max x z)). apply elem_of_cons in IH as [->|IH]; [|by do 2 right]. destruct (Z.max_dec x z) as [->| ->]; [left|right; left].
Qed.

(** The box of some cards is the smallest rectangle around them. *)
Lemma boxOf_least o m ms x y width height : (forall p, p ∈ m :: ms -> card_inside o (pv_x p) (pv_y p) x y width height) ->
  let b := boxOf m ms o in x <= bx_x b /\ bx_right b <= x + width /\ y <= bx_y b /\ bx_bottom b <= y + height.
Proof.
  intros Hall b. assert (forall f : PlacedVertex -> Z, (exists p, p ∈ m :: ms /\ minimum (f m) (map f ms) = f p) /\ exists p, p ∈ m :: ms /\ maximum (f m) (map f ms) = f p) as Hf.
  { intros f. pose proof (minimum_in (map f ms) (f m)) as H1. pose proof (maximum_in (map f ms) (f m)) as H2. change (f m :: map f ms) with (map f (m :: ms)) in H1, H2.
    apply elem_of_map in H1 as (p & E1 & H1), H2 as (q & E2 & H2). split; [by exists p|by exists q]. }
  destruct (Hf pv_x) as [(p1 & I1 & E1) (p2 & I2 & E2)], (Hf pv_y) as [(p3 & I3 & E3) (p4 & I4 & E4)].
  pose proof (Hall _ I1) as H1. pose proof (Hall _ I2) as H2. pose proof (Hall _ I3) as H3. pose proof (Hall _ I4) as H4.
  unfold card_inside, b in *. cbn. rewrite E1, E2, E3, E4. lia.
Qed.

(** A rectangle that tells the truth about a scope: every member's card inside it, every other card outside. *)
Definition encloses (o : LayoutOptions) (placed : list (string * PlacedVertex)) (members : list string) (x y width height : Z) : Prop :=
  forall id p, JMap.get placed id = Some p ->
    (id ∈ members -> card_inside o (pv_x p) (pv_y p) x y width height) /\ (id ∉ members -> card_outside o (pv_x p) (pv_y p) x y width height).

(** A drawable enclosure tells the truth, and one is drawable whenever some rectangle would. *)
Lemma placeScope_honest o placed scope :
  let b := placeScope placed o scope in
  NoDup (JMap.keys placed) -> (forall k q, JMap.get placed k = Some q -> pv_vertexId q = k) ->
  (ps_drawable b = true -> encloses o placed (cs_member_vertex_ids scope) (ps_x b) (ps_y b) (ps_width b) (ps_height b)) /\
  (ps_drawable b = true <-> (exists id, id ∈ cs_member_vertex_ids scope /\ is_Some (JMap.get placed id)) /\
     exists x y width height, encloses o placed (cs_member_vertex_ids scope) x y width height).
Proof.
  intros b Hn Hk. unfold b, placeScope in *. destruct (omap (JMap.get placed) (cs_member_vertex_ids scope)) as [|q ms] eqn:Em.
  { split; [done|]. split; [done|]. intros [(id & Hid & p & Hp) _]. exfalso. assert (p ∈ omap (JMap.get placed) (cs_member_vertex_ids scope)) as Hin by (apply list_elem_of_omap; eauto).
    rewrite Em in Hin. by apply elem_of_nil in Hin. }
  cbn [ps_drawable ps_x ps_y ps_width ps_height]. set (box := boxOf q ms o).
  assert (boxHolds scope placed box o = true <-> encloses o placed (cs_member_vertex_ids scope) (bx_x box) (bx_y box) (bx_right box - bx_x box) (bx_bottom box - bx_y box)) as Hiff.
  { unfold boxHolds. rewrite forallb_true. split.
    - intros Hd id p Hg. split; intros Hin; [apply boxOf_holds; rewrite <- Em; apply list_elem_of_omap; by exists id|].
      assert (p ∈ JMap.values placed) as Hp by (apply elem_of_map; exists (id, p); split; [done|by apply get_Some_elem]). specialize (Hd p Hp). cbn beta in Hd.
      rewrite (Hk _ _ Hg) in Hd. apply orb_true_iff in Hd as [Hd|Hd]; [by apply includes_true in Hd|]. apply negb_true_iff in Hd. unfold overlaps in Hd. unfold card_outside. lia.
    - intros He p Hp. apply elem_of_map in Hp as ([k p'] & -> & Hp). cbn [snd]. apply get_elem in Hp; [|done]. rewrite (Hk _ _ Hp).
      destruct (includes k (cs_member_vertex_ids scope)) eqn:Ei; [done|]. apply includes_false in Ei. destruct (He _ _ Hp) as [_ Ho]. specialize (Ho Ei).
      unfold card_outside in Ho. unfold overlaps. cbn [orb]. apply negb_true_iff. lia. }
  split; [by apply Hiff|]. rewrite Hiff. split.
  - intros He. split; [|by eexists _, _, _, _]. assert (q ∈ omap (JMap.get placed) (cs_member_vertex_ids scope)) as Hq by (rewrite Em; left).
    apply list_elem_of_omap in Hq as (id & Hid & Hq). exists id. split; [done|by eexists].
  - intros [_ (x & y & width & height & He)] id p Hg. split; intros Hin; [apply boxOf_holds; rewrite <- Em; apply list_elem_of_omap; by exists id|].
    destruct (boxOf_least o q ms x y width height) as (B1 & B2 & B3 & B4).
    { intros p' Hp'. rewrite <- Em in Hp'. apply list_elem_of_omap in Hp' as (k & Hkm & Hp'). by apply (He k). }
    destruct (He _ _ Hg) as [_ Ho]. specialize (Ho Hin). fold box in B1, B2, B3, B4. unfold card_outside in *. lia.
Qed.

Lemma layout_keyed o m previous : NoDup (vids (md_vertices m)) -> forall k q, JMap.get (lr_vertices (layout m o previous)) k = Some q -> pv_vertexId q = k.
Proof. intros Hd k q Hg. apply layout_get in Hg as (l & i & -> & _); done. Qed.

Lemma layout_has o m previous id : NoDup (vids (md_vertices m)) -> JMap.has (lr_vertices (layout m o previous)) id = true <-> id ∈ vids (md_vertices m).
Proof. intros Hd. rewrite has_keys. by rewrite layout_ids. Qed.

(** Two cards never touch. *)
Lemma cards_apart o m previous id id' p p' : NoDup (vids (md_vertices m)) -> 0 <= ly_nodeWidth o -> 0 <= ly_nodeHeight o -> 0 <= ly_siblingGap o -> 0 <= ly_layerGap o ->
  JMap.get (lr_vertices (layout m o previous)) id = Some p -> JMap.get (lr_vertices (layout m o previous)) id' = Some p' -> id <> id' ->
  card_outside o (pv_x p) (pv_y p) (pv_x p') (pv_y p') (ly_nodeWidth o) (ly_nodeHeight o).
Proof.
  intros Hd Hw Hh Hsg Hlg Hp Hp' Hne. apply layout_get in Hp as (l & i & -> & Hi), Hp' as (l' & i' & -> & Hi'); [|done..].
  unfold card_outside. cbn. destruct (decide (l = l')) as [->|Hl]; [|nia].
  assert (i <> i') as Hii by (intros ->; congruence). nia.
Qed.

Definition vertex_drawn (n : FlowNode) : option (ConsoleVertex * (Z * Z)) := match n with vertex_node _ x y v _ => Some (v, (x, y)) | scope_node _ _ _ _ _ _ => None end.

Lemma find_own_scope placed o scopes c : NoDup (map cs_scope_id scopes) -> c ∈ scopes ->
  find (fun b => ps_scopeId b ==? cs_scope_id c) (map (placeScope placed o) scopes) = Some (placeScope placed o c).
Proof.
  assert (forall d, ps_scopeId (placeScope placed o d) = cs_scope_id d) as Hid by (intros d; unfold placeScope; by destruct (omap _ _)).
  induction scopes as [|d ds IH]; cbn; intros Hn Hc; [by apply elem_of_nil in Hc|]. rewrite Hid. inversion Hn as [|? ? Hd Hn']; subst.
  apply elem_of_cons in Hc as [->|Hc]; [by rewrite eqb_refl|]. destruct (_ ==? _) eqn:E; [|by apply IH].
  apply eqb_true_1 in E. destruct Hd. rewrite E. apply elem_of_map. by exists c.
Qed.

(** The nodes drawn for the vertices: each of them once, in order, at its place. *)
Lemma drawn_vertices o m previous selected : NoDup (vids (md_vertices m)) ->
  map fst (omap vertex_drawn (fg_nodes (toFlow m (layout m o previous) selected))) = md_vertices m.
Proof.
  intros Hd. cbn [toFlow fg_nodes]. rewrite omap_app, map_app. set (r := layout m o previous).
  assert (omap vertex_drawn (omap (scopeNode r) (md_scopes m)) = []) as ->.
  { induction (md_scopes m) as [|c cs IH]; cbn; [done|]. unfold scopeNode at 1. destruct (find _ _) as [b|]; cbn; [|done]. by destruct (ps_drawable b). }
  cbn [map app]. assert (forall v, v ∈ md_vertices m -> exists p, JMap.get (lr_vertices r) (cv_vertex_id v) = Some p) as Hall.
  { intros v Hv. apply get_is_Some. unfold r. rewrite (layout_ids o m previous Hd). apply elem_of_map. by exists v. }
  clearbody r. clear Hd. induction (md_vertices m) as [|v vs IH]; cbn; [done|]. destruct (Hall v) as [p ->]; [left|]. cbn. f_equal. apply IH. intros w Hw. apply Hall. by right.
Qed.

(** *** What the model says *)

(** The class of a card while [selected] is selected: the vertex itself, its parents, those that name it
    as a parent, and the rest; none while nothing of the model is selected. *)
Inductive highlighted (m : ConsoleDagModel) : option string -> string -> option string -> Prop :=
| hl_none selected id : (forall s, selected = Some s -> s = "" \/ s ∉ vids (md_vertices m)) -> highlighted m selected id None
| hl_self v : v ∈ md_vertices m -> cv_vertex_id v <> "" -> highlighted m (Some (cv_vertex_id v)) (cv_vertex_id v) (Some "related-self")
| hl_upstream v id : v ∈ md_vertices m -> cv_vertex_id v <> "" -> id <> cv_vertex_id v -> id ∈ cv_parent_refs v ->
    highlighted m (Some (cv_vertex_id v)) id (Some "related-upstream")
| hl_downstream v w : v ∈ md_vertices m -> cv_vertex_id v <> "" -> w ∈ md_vertices m -> cv_vertex_id w <> cv_vertex_id v -> cv_vertex_id w ∉ cv_parent_refs v ->
    cv_vertex_id v ∈ cv_parent_refs w -> highlighted m (Some (cv_vertex_id v)) (cv_vertex_id w) (Some "related-downstream")
| hl_dimmed v id : v ∈ md_vertices m -> cv_vertex_id v <> "" -> id <> cv_vertex_id v -> id ∉ cv_parent_refs v ->
    (forall w, w ∈ md_vertices m -> cv_vertex_id w = id -> cv_vertex_id v ∉ cv_parent_refs w) -> highlighted m (Some (cv_vertex_id v)) id (Some "related-dimmed").

(** The references of a model: each vertex with each parent it names, if that is a vertex of the model. *)
Definition references (m : ConsoleDagModel) : list (ConsoleVertex * string) :=
  flat_map (fun v => map (pair v) (filter_by (fun a => includes a (vids (md_vertices m))) (cv_parent_refs v))) (md_vertices m).

(** The marks of an edge: discarded work, and its place relative to the selection. *)
Inductive marked (m : ConsoleDagModel) (selected : option string) (v : ConsoleVertex) (a : string) : list string -> Prop :=
| mk_plain : (forall s, selected = Some s -> s = "" \/ s ∉ vids (md_vertices m)) -> marked m selected v a []
| mk_below s : selected = Some s -> s <> "" -> s ∈ vids (md_vertices m) -> a = s -> marked m selected v a ["related-downstream"]
| mk_above s : selected = Some s -> s <> "" -> s ∈ vids (md_vertices m) -> a <> s -> cv_vertex_id v = s -> marked m selected v a ["related-upstream"]
| mk_dimmed s : selected = Some s -> s <> "" -> s ∈ vids (md_vertices m) -> a <> s -> cv_vertex_id v <> s -> marked m selected v a ["related-dimmed"].

Record edge_drawn (m : ConsoleDagModel) (selected : option string) (ref : ConsoleVertex * string) (e : Edge) : Prop := {
  ed_id : eg_id e = snd ref +:+ "->" +:+ cv_vertex_id (fst ref);
  ed_source : eg_source e = snd ref;
  ed_target : eg_target e = cv_vertex_id (fst ref);
  ed_animated : eg_animated e = true <-> cv_status (fst ref) = started_status;
  ed_classes : exists marks, marked m selected (fst ref) (snd ref) marks /\
    eg_className e = match (if cv_is_shadowed (fst ref) then ["edge-shadowed"] else []) ++ marks with [] => None | l => Some (join " " l) end
}.

(** *** What is drawn says it *)
Lemma relationsOf_none m selected : relationsOf m selected = None <-> forall s, selected = Some s -> s = "" \/ s ∉ vids (md_vertices m).
Proof.
  unfold relationsOf. destruct selected as [[|c s]|]; cbn [truthy mbind option_bind]; [by split; [intros _ s [= <-]; left|done]| |by split].
  set (id := String c s). destruct (find _ (md_vertices m)) as [v|] eqn:Ef; cbn [mbind option_bind].
  - split; [done|]. intros Hs. apply find_Some in Ef as [Hv Hid%eqb_true_1]. destruct (Hs id eq_refl) as [?|Hn]; [done|]. destruct Hn. rewrite <- Hid. by apply elem_of_map; exists v.
  - split; [|done]. intros _ s' [= <-]. right. intros (v & Hid & Hv)%elem_of_map. rewrite find_None in Ef. specialize (Ef v Hv). cbn beta in Ef. rewrite <- Hid, eqb_refl in Ef. done.
Qed.

Lemma relationsOf_some m selected r : relationsOf m selected = Some r ->
  exists v, v ∈ md_vertices m /\ selected = Some (cv_vertex_id v) /\ cv_vertex_id v <> "" /\ (forall a, JSet.has (rl_upstream r) a = true <-> a ∈ cv_parent_refs v) /\
    forall a, JSet.has (rl_downstream r) a = true <-> exists w, w ∈ md_vertices m /\ cv_vertex_id w = a /\ cv_vertex_id v ∈ cv_parent_refs w.
Proof.
  unfold relationsOf. destruct (truthy selected) as [id|] eqn:Et; [|done]. apply truthy_Some in Et as [-> Hne]. cbn [mbind option_bind].
  destruct (find _ (md_vertices m)) as [v|] eqn:Ef; [|done]. apply find_Some in Ef as [Hv Hid%eqb_true_1]. cbn [mbind option_bind]. intros [= <-]. exists v. subst id.
  cbn [rl_upstream rl_downstream]. split_and!; try done; intros a; rewrite JSet_has_true, elem_of_JSet_of_list; [done|]. rewrite elem_of_map. setoid_rewrite elem_of_filter_by. setoid_rewrite includes_true.
  naive_solver.
Qed.

Lemma relationClass_highlights m selected v : NoDup (vids (md_vertices m)) -> v ∈ md_vertices m ->
  highlighted m selected (cv_vertex_id v) (relationClass (relationsOf m selected) selected (cv_vertex_id v)).
Proof.
  intros Hd Hv. destruct (relationsOf m selected) as [r|] eqn:Er.
  2:{ apply hl_none. by apply relationsOf_none. }
  apply relationsOf_some in Er as (w & Hw & -> & Hne & Hup & Hdown). unfold relationClass. rewrite (proj2 (truthy_Some _ _)) by done.
  destruct (cv_vertex_id v ==? cv_vertex_id w) eqn:Es; [apply eqb_true_1 in Es as ->; by apply hl_self|]. apply eqb_false_1 in Es.
  destruct (JSet.has (rl_upstream r) (cv_vertex_id v)) eqn:Eu; [apply hl_upstream; try done; by apply Hup|].
  assert (cv_vertex_id v ∉ cv_parent_refs w) as Hnu by (rewrite <- Hup, Eu; done).
  destruct (JSet.has (rl_downstream r) (cv_vertex_id v)) eqn:Edn.
  - apply Hdown in Edn as (u & Hu & Hid & Hin). rewrite <- Hid in *. by apply hl_downstream.
  - apply hl_dimmed; try done. intros u Hu Hid Hin. assert (JSet.has (rl_downstream r) (cv_vertex_id v) = true) by (apply Hdown; eauto). congruence.
Qed.

Lemma classes_pair (b : bool) (x y : string) : x <> "" ->
  classes [if b then x else ""; y] = match (if b then [x] else []) ++ (if y ==? "" then [] else [y]) with [] => None | l => Some (join " " l) end.
Proof.
  intros Hx. unfold classes. destruct b; cbn [filter_by List.filter]; rewrite ?(proj2 (neqb_true x "") Hx); destruct (y ==? "") eqn:Ey; cbn [negb app]; try done.
  - cbn. by destruct x.
  - cbn. by destruct x.
  - apply eqb_false_1 in Ey. cbn. by destruct y.
Qed.

Lemma edge_draws m selected v a : v ∈ md_vertices m -> a ∈ vids (md_vertices m) -> edge_drawn m selected (v, a) (edge (relationsOf m selected) selected v a).
Proof.
  intros Hv Ha. split; cbn [edge eg_id eg_source eg_target eg_animated eg_className fst snd]; try done; [apply eqb_true|].
  rewrite classes_pair by done. destruct (relationsOf m selected) as [r|] eqn:Er.
  2:{ exists []. split; [apply mk_plain; by apply relationsOf_none|by rewrite eqb_refl]. }
  apply relationsOf_some in Er as (w & Hw & -> & Hne & _). cbn [is_selected]. assert (cv_vertex_id w ∈ vids (md_vertices m)) as Hin by (apply elem_of_map; by exists w).
  destruct (a ==? cv_vertex_id w) eqn:Ea; cbn [orb].
  - apply eqb_true_1 in Ea. exists ["related-downstream"]. split; [by eapply mk_below|done].
  - apply eqb_false_1 in Ea. destruct (cv_vertex_id v ==? cv_vertex_id w) eqn:Ev.
    + apply eqb_true_1 in Ev. exists ["related-upstream"]. split; [by eapply mk_above|done].
    + apply eqb_false_1 in Ev. exists ["related-dimmed"]. split; [by eapply mk_dimmed|done].
Qed.

(** The edges drawn: one per reference. *)
Lemma drawn_edges o m previous selected : NoDup (vids (md_vertices m)) ->
  Forall2 (edge_drawn m selected) (references m) (fg_edges (toFlow m (layout m o previous) selected)).
Proof.
  intros Hd. cbn [toFlow fg_edges]. unfold references.
  assert (forall vs, (forall v, v ∈ vs -> v ∈ md_vertices m) -> Forall2 (edge_drawn m selected)
    (flat_map (fun v => map (pair v) (filter_by (fun a => includes a (vids (md_vertices m))) (cv_parent_refs v))) vs)
    (flat_map (fun v => match JMap.get (lr_vertices (layout m o previous)) (cv_vertex_id v) with
       | Some _ => map (edge (relationsOf m selected) selected v) (filter_by (JMap.has (lr_vertices (layout m o previous))) (cv_parent_refs v)) | None => [] end) vs)) as H;
    [|by apply H].
  induction vs as [|v vs IH]; intros Hin; [constructor|]. cbn [flat_map]. apply Forall2_app; [|apply IH; intros w Hw; apply Hin; by right].
  assert (v ∈ md_vertices m) as Hv by (apply Hin; left). assert (is_Some (JMap.get (lr_vertices (layout m o previous)) (cv_vertex_id v))) as [p ->].
  { apply get_is_Some. rewrite (layout_ids o m previous Hd). apply elem_of_map. by exists v. }
  rewrite (filter_by_ext (JMap.has _) (fun a => includes a (vids (md_vertices m)))).
  - apply Forall2_fmap, Forall_Forall2_diag, Forall_forall. intros a [_ Ha%includes_true]%elem_of_filter_by. by apply edge_draws.
  - intros a. apply eq_iff_eq_true. rewrite (layout_has o m previous a Hd), includes_true. done.
Qed.

(** A card is drawn for a vertex at the place the layout gives it. *)
Lemma drawn_card o m previous selected id x y v c : NoDup (vids (md_vertices m)) ->
  vertex_node id x y v c ∈ fg_nodes (toFlow m (layout m o previous) selected) ->
  v ∈ md_vertices m /\ id = cv_vertex_id v /\ highlighted m selected id c /\
  exists p, JMap.get (lr_vertices (layout m o previous)) id = Some p /\ x = pv_x p /\ y = pv_y p.
Proof.
  intros Hd. cbn [toFlow fg_nodes]. intros [Hn|Hn]%elem_of_app; apply list_elem_of_omap in Hn as (w & Hw & Hn).
  - unfold scopeNode in Hn. destruct (find _ _) as [b|]; cbn in Hn; [|done]. by destruct (ps_drawable b).
  - destruct (JMap.get _ (cv_vertex_id w)) as [p|] eqn:Eg; [|done]. injection Hn as <- <- <- <- <-. split_and!; [done|done|by apply relationClass_highlights|by exists p].
Qed.

Lemma card_drawn o m previous selected id p : NoDup (vids (md_vertices m)) -> JMap.get (lr_vertices (layout m o previous)) id = Some p ->
  exists v c, vertex_node id (pv_x p) (pv_y p) v c ∈ fg_nodes (toFlow m (layout m o previous) selected).
Proof.
  intros Hd Hp. assert (id ∈ vids (md_vertices m)) as (v & -> & Hv)%elem_of_map by (rewrite <- (layout_ids o m previous Hd); by apply get_is_Some; exists p).
  exists v, (relationClass (relationsOf m selected) selected (cv_vertex_id v)). cbn [toFlow fg_nodes]. apply elem_of_app. right. apply list_elem_of_omap. exists v. split; [done|]. by rewrite Hp.
Qed.

(** A rectangle that tells the truth about a scope on the canvas as it is drawn. *)
Definition truthful (o : LayoutOptions) (g : FlowGraph) (c : ConsoleScope) (x y width height : Z) : Prop :=
  forall id cx cy v k, vertex_node id cx cy v k ∈ fg_nodes g ->
    (id ∈ cs_member_vertex_ids c -> card_inside o cx cy x y width height) /\ (id ∉ cs_member_vertex_ids c -> card_outside o cx cy x y width height).

Lemma truthful_encloses o m previous selected c x y width height : NoDup (vids (md_vertices m)) ->
  truthful o (toFlow m (layout m o previous) selected) c x y width height <-> encloses o (lr_vertices (layout m o previous)) (cs_member_vertex_ids c) x y width height.
Proof.
  intros Hd. split.
  - intros Ht id p Hp. destruct (card_drawn o m previous selected id p Hd Hp) as (v & k & Hn). exact (Ht _ _ _ _ _ Hn).
  - intros He id cx cy v k Hn. apply drawn_card in Hn as (_ & -> & _ & p & Hp & -> & ->); [|done]. exact (He _ _ Hp).
Qed.

Lemma drawn_scope o m previous selected name x y width height c : NoDup (map cs_scope_id (md_scopes m)) ->
  scope_node name x y width height c ∈ fg_nodes (toFlow m (layout m o previous) selected) <->
  c ∈ md_scopes m /\ name = "scope:" +:+ cs_scope_id c /\
  let b := placeScope (lr_vertices (layout m o previous)) o c in ps_drawable b = true /\ x = ps_x b /\ y = ps_y b /\ width = ps_width b /\ height = ps_height b.
Proof.
  intros Hs. cbn [toFlow fg_nodes]. rewrite elem_of_app, !list_elem_of_omap. set (r := layout m o previous).
  assert (forall d, d ∈ md_scopes m -> find (fun b => ps_scopeId b ==? cs_scope_id d) (lr_scopes r) = Some (placeScope (lr_vertices r) o d)) as Hf.
  { intros d Hd. change (lr_scopes r) with (map (placeScope (lr_vertices r) o) (md_scopes m)). by apply find_own_scope. }
  split.
  - intros [(d & Hd & Hn)|(v & _ & Hn)]; [|by destruct (JMap.get _ _)]. unfold scopeNode in Hn. rewrite (Hf d Hd) in Hn. cbn [mbind option_bind] in Hn.
    destruct (ps_drawable _) eqn:Ed; [|done]. injection Hn as <- <- <- <- <- <-. split_and!; try done.
  - intros (Hc & -> & Hd & -> & -> & -> & ->). left. exists c. split; [done|]. unfold scopeNode. rewrite (Hf c Hc). cbn [mbind option_bind]. by rewrite Hd.
Qed.

(** C28. What is drawn is what the model says. Every vertex is one card, in the model's order, under its own
    id, on the row it had in the previous layout or else on the row of its depth, in a column of the grid, and
    no two cards overlap; its class tells its place relative to the selection. There is exactly one edge per
    parent reference between vertices of the model, from the parent to the vertex, animated while the vertex
    runs and marked when discarded or when it touches the selection. An enclosure is drawn only for a scope of
    the model and where it tells the truth, with every member's card inside it and every other card outside,
    and it is drawn whenever a member is on the canvas and some rectangle would tell the truth. *)
Theorem canvas_honest o m previous selected :
  let g := toFlow m (layout m o previous) selected in
  NoDup (vids (md_vertices m)) -> NoDup (map cs_scope_id (md_scopes m)) ->
  0 <= ly_nodeWidth o -> 0 <= ly_nodeHeight o -> 0 <= ly_siblingGap o -> 0 <= ly_layerGap o ->
  map fst (omap vertex_drawn (fg_nodes g)) = md_vertices m /\
  (forall id x y v c, vertex_node id x y v c ∈ fg_nodes g -> id = cv_vertex_id v /\ highlighted m selected id c /\
     y = match keptAt previous id with Some k => pv_layer k | None => cv_depth v end * (ly_nodeHeight o + ly_layerGap o) /\
     exists column : nat, x = Z.of_nat column * (ly_nodeWidth o + ly_siblingGap o)) /\
  (forall id x y v c id' x' y' v' c', vertex_node id x y v c ∈ fg_nodes g -> vertex_node id' x' y' v' c' ∈ fg_nodes g -> id <> id' ->
     card_outside o x y x' y' (ly_nodeWidth o) (ly_nodeHeight o)) /\
  Forall2 (edge_drawn m selected) (references m) (fg_edges g) /\
  (forall name x y width height c, scope_node name x y width height c ∈ fg_nodes g ->
     c ∈ md_scopes m /\ name = "scope:" +:+ cs_scope_id c /\ truthful o g c x y width height) /\
  (forall c, c ∈ md_scopes m -> (exists id, id ∈ cs_member_vertex_ids c /\ id ∈ vids (md_vertices m)) -> (exists x y width height, truthful o g c x y width height) ->
     exists name x y width height, scope_node name x y width height c ∈ fg_nodes g).
Proof.
  intros g Hd Hs Hw Hh Hsg Hlg. pose proof (layout_keyed o m previous Hd) as Hk.
  assert (NoDup (JMap.keys (lr_vertices (layout m o previous)))) as Hnk by (by rewrite (layout_ids o m previous Hd)).
  split_and!.
  - by apply drawn_vertices.
  - intros id x y v c Hn. apply drawn_card in Hn as (Hv & -> & Hl & p & Hp & -> & ->); [|done]. split_and!; [done|done| |].
    + destruct (layout_row o m previous Hd v p Hv Hp) as [<- Hspot]. by rewrite Hspot.
    + destruct (layout_row o m previous Hd v p Hv Hp) as [_ Hspot]. exists (pv_index p). by rewrite Hspot.
  - intros id x y v c id' x' y' v' c' Hn Hn' Hne. apply drawn_card in Hn as (_ & _ & _ & p & Hp & -> & ->), Hn' as (_ & _ & _ & p' & Hp' & -> & ->); [|done..]. by eapply cards_apart.
  - by apply drawn_edges.
  - intros name x y width height c Hn. apply drawn_scope in Hn as (Hc & -> & Hdr & -> & -> & -> & ->); [|done]. split_and!; [done|done|].
    apply truthful_encloses; [done|]. by apply placeScope_honest.
  - intros c Hc (id & Hid & Hin) (x & y & width & height & Ht). apply truthful_encloses in Ht; [|done].
    eexists _, _, _, _, _. apply drawn_scope; [done|]. split; [done|]. split; [done|]. cbv zeta. split; [|done].
    destruct (placeScope_honest o (lr_vertices (layout m o previous)) c Hnk Hk) as [_ Hdr]. apply Hdr. split; [|by eexists _, _, _, _].
    exists id. split; [done|]. apply get_is_Some. by rewrite (layout_ids o m previous Hd).
Qed.

(** ** A run that grows: a planner, two tools below it, and a scope over two layers *)
Definition in_scope (scope : string) (e : StoredEvent) : StoredEvent :=
  {| run_id := run_id e; run_seq := run_seq e; global_seq := global_seq e; event_type := event_type e; vertex_id := vertex_id e;
     parent_refs := parent_refs e; planner_id := planner_id e; scope_id := Some scope; pin_version := pin_version e;
     ignorable := ignorable e; inherited := inherited e; payload := payload e; created_at := created_at e |}.

Definition growth_log : list StoredEvent :=
  [sample_event 1 run_start None [] None [];
   sample_event 2 vertex_created (Some "planner-1") [] None [("role", VStr "planner")];
   sample_event 3 vertex_created (Some "check") ["planner-1"] None [("role", VStr "tool")];
   in_scope "scope-1" (sample_event 4 vertex_created (Some "hold") ["planner-1"] None [("role", VStr "tool")]);
   in_scope "scope-1" (sample_event 5 vertex_created (Some "charge") ["hold"] None [("role", VStr "tool")])].

Definition growth_at (n : nat) : ConsoleDagModel :=
  match @advance_model code_unit_collation (emptyConsoleDag "r1" CONSOLE_PROJECTOR_VERSION) (firstn n growth_log) with
  | Ok m => m
  | Throw _ => emptyConsoleDag "" ""
  end.

Definition growth : list ConsoleDagModel := [growth_at 2; growth_at 3; growth_at 4; growth_at 5].
Definition growth_frames : list LayoutResult := frames DEFAULT_LAYOUT None growth.
Definition frame (i : nat) : LayoutResult := nth i growth_frames {| lr_vertices := []; lr_scopes := []; lr_bounds := (0, 0) |}.

Lemma layout_stable_witness :
  JMap.keys (lr_vertices (frame 1)) ≡ₚ vids (md_vertices (growth_at 3)) /\
  (forall id p, JMap.get (lr_vertices (frame 1)) id = Some p -> JMap.get (lr_vertices (frame 3)) id = Some p) /\
  map (fun p => (pv_vertexId p, pv_x p, pv_y p)) (JMap.values (lr_vertices (frame 3))) =
    [("planner-1", 0, 0); ("check", 0, 128); ("hold", 240, 128); ("charge", 0, 256)].
Proof.
  cut (JMap.keys (lr_vertices (frame 1)) ≡ₚ vids (md_vertices (growth_at 3)) /\
       (forall id p, JMap.get (lr_vertices (frame 1)) id = Some p -> JMap.get (lr_vertices (frame 3)) id = Some p)).
  { intros [H1 H2]. split; [exact H1|]. split; [exact H2|]. vm_compute. reflexivity. }
  apply (layout_stable DEFAULT_LAYOUT None growth 1 3 (growth_at 3) (frame 1) (frame 3)).
  - split.
    + apply (bool_decide_unpack _). vm_compute. exact I.
    + repeat (apply SSorted_cons; [|apply (bool_decide_unpack _); vm_compute; exact I]). apply SSorted_nil.
  - lia.
  - reflexivity.
  - vm_compute. reflexivity.
  - vm_compute. reflexivity.
Defined.

(** The last model laid out afresh: the scope holds one column, and is drawn. *)
Definition fresh_canvas : FlowGraph := toFlow (growth_at 5) (layout (growth_at 5) DEFAULT_LAYOUT None) (Some "hold").
Definition drawn_boxes (g : FlowGraph) : list (string * (Z * Z * Z * Z)) :=
  omap (fun n => match n with scope_node name x y w h _ => Some (name, (x, y, w, h)) | vertex_node _ _ _ _ _ => None end) (fg_nodes g).

Lemma canvas_honest_witness :
  map fst (omap vertex_drawn (fg_nodes fresh_canvas)) = md_vertices (growth_at 5) /\
  Forall2 (edge_drawn (growth_at 5) (Some "hold")) (references (growth_at 5)) (fg_edges fresh_canvas) /\
  drawn_boxes fresh_canvas = [("scope:scope-1", (-20, 108, 256, 240))] /\
  map (fun e => (eg_source e, eg_target e, eg_className e)) (fg_edges fresh_canvas) =
    [("planner-1", "check", Some "related-dimmed"); ("planner-1", "hold", Some "related-upstream"); ("hold", "charge", Some "related-downstream")].
Proof.
  destruct (canvas_honest DEFAULT_LAYOUT (growth_at 5) None (Some "hold")) as (H1 & _ & _ & H3 & _).
  - apply (bool_decide_unpack _). vm_compute. exact I.
  - apply (bool_decide_unpack _). vm_compute. exact I.
  - vm_compute. discriminate.
  - vm_compute. discriminate.
  - vm_compute. discriminate.
  - vm_compute. discriminate.
  - split; [exact H1|]. split; [exact H3|]. split; vm_compute; reflexivity.
Defined.

(** The same model as it grew: the scope's column is taken by earlier work, and no enclosure is drawn. *)
Example grown_scope_not_drawn : drawn_boxes (toFlow (growth_at 5) (frame 3) None) = [].
Proof. vm_compute. reflexivity. Qed.
