(* ===== verification/Shell.v ===== *)
(** * The operator's session (console/client/src/App.tsx, shell/AppShell.tsx, graph/DagCanvas.tsx, inspector/InspectorDrawer.tsx)

    What belongs to the operator and not to the model: the run in the address bar, the selection, the open
    tab, and the canvas with its viewport and the pill that announces growth. A commit renders with its
    properties and then runs its effects in order; each of those of the canvas does nothing when it runs
    again on what it has seen, so that running them at every commit is running them on change. *)

From S2P Require Import Prelude Collections Number Json JsonParse JsText Events Projection Console ConsoleFacts ConsoleStream ConsoleTail ConsoleClient ConsoleWire Uri ConsoleServer Inspector Layout.

(** ** The address bar *)

(** [hash.replace(/^#\/?run\//, '')] *)
Definition stripRun (hash : string) : string :=
  if starts_with "#/run/" hash then drop_str 6 hash else if starts_with "#run/" hash then drop_str 5 hash else hash.

Definition runFromHash (hash : string) : option string := if UUID (stripRun hash) then Some (stripRun hash) else None.

(** [open]: what it assigns to [location.hash]; a browser reads an empty one back as the empty string. *)
Definition hashOf (next : option string) : string := match truthy next with Some run => "#/run/" +:+ run | None => "" end.

(** ** The canvas *)

(** What the viewport was told to do. *)
Inductive Move : Type := fit_view | center_at (x y : Z).
#[export] Instance Move_eq_dec : EqDecision Move.
Proof. solve_decision. Defined.

Record Canvas : Type := {
  cn_model : ConsoleDagModel;
  cn_placed : LayoutResult;
  cn_measured : bool;
  cn_fitted : option string;
  cn_known : list string;
  cn_pending : list string;
  cn_moves : list Move
}.

Definition ids_of_model (m : ConsoleDagModel) : list string := vids (md_vertices m).

(** The effect that fits the view, once per run. *)
Definition fitEffect (c : Canvas) : Canvas :=
  if negb (cn_measured c) || (cn_fitted c ==? Some (md_run_id (cn_model c))) || (match md_vertices (cn_model c) with [] => true | _ => false end) then c
  else {| cn_model := cn_model c; cn_placed := cn_placed c; cn_measured := cn_measured c; cn_fitted := Some (md_run_id (cn_model c));
          cn_known := JSet.of_list (ids_of_model (cn_model c)); cn_pending := []; cn_moves := cn_moves c ++ [fit_view] |}.

(** The effect that announces what arrived. *)
Definition freshEffect (c : Canvas) : Canvas :=
  if cn_fitted c !=? Some (md_run_id (cn_model c)) then c
  else match filter_by (fun id => negb (JSet.has (cn_known c) id)) (ids_of_model (cn_model c)) with
       | [] => c
       | fresh => {| cn_model := cn_model c; cn_placed := cn_placed c; cn_measured := cn_measured c; cn_fitted := cn_fitted c;
                     cn_known := JSet.addAll (cn_known c) fresh; cn_pending := cn_pending c ++ fresh; cn_moves := cn_moves c |}
       end.

Definition effects (c : Canvas) : Canvas := freshEffect (fitEffect c).

Definition mountCanvas (m : ConsoleDagModel) : Canvas :=
  effects {| cn_model := m; cn_placed := layout m DEFAULT_LAYOUT None; cn_measured := false; cn_fitted := None; cn_known := []; cn_pending := []; cn_moves := [] |}.

(** A new model, laid out from the previous frame. *)
Definition show (c : Canvas) (m : ConsoleDagModel) : Canvas :=
  effects {| cn_model := m; cn_placed := layout m DEFAULT_LAYOUT (Some (cn_placed c)); cn_measured := cn_measured c; cn_fitted := cn_fitted c;
             cn_known := cn_known c; cn_pending := cn_pending c; cn_moves := cn_moves c |}.

(** [useNodesInitialized] answers differently. *)
Definition measure (c : Canvas) (measured : bool) : Canvas :=
  effects {| cn_model := cn_model c; cn_placed := cn_placed c; cn_measured := measured; cn_fitted := cn_fitted c;
             cn_known := cn_known c; cn_pending := cn_pending c; cn_moves := cn_moves c |}.

(** The pill: to the last arrival, at the zoom the operator chose. *)
Definition follow (c : Canvas) : Canvas :=
  {| cn_model := cn_model c; cn_placed := cn_placed c; cn_measured := cn_measured c; cn_fitted := cn_fitted c; cn_known := cn_known c; cn_pending := [];
     cn_moves := match truthy (last (cn_pending c)) ≫= JMap.get (lr_vertices (cn_placed c)) with
                 | Some spot => cn_moves c ++ [center_at (pv_x spot + ly_nodeWidth DEFAULT_LAYOUT / 2) (pv_y spot + ly_nodeHeight DEFAULT_LAYOUT / 2)]
                 | None => cn_moves c
                 end |}.

(** [onNodeClick]: a card selects its vertex, anything else selects nothing. *)
Definition onNodeClick (n : FlowNode) : option string := match n with vertex_node id _ _ _ _ => Some id | scope_node _ _ _ _ _ _ => None end.

(** ** The shell *)
Inductive DrawerTab : Type := tab_details | tab_of (t : Tab).

Record Shell : Type := {
  sh_runId : option string;
  sh_stream : RunStreamState;
  sh_selected : option string;
  sh_tab : DrawerTab;
  sh_canvas : option Canvas
}.

(** The canvas is mounted while there is a run and a model, and shown each new model. *)
Definition present (runId : option string) (canvas : option Canvas) (after : option ClientModel) (changed : bool) : option Canvas :=
  match truthy runId, after with
  | Some _, Some m => match canvas with
                      | Some c => Some (if changed then show c (cm_model m) else c)
                      | None => Some (mountCanvas (cm_model m))
                      end
  | _, _ => None
  end.

(** An event of the stream. A resync bumps the generation, whose effect drops the model and reopens. *)
Definition receive (sh : Shell) (e : ConsoleStreamEvent) : Shell :=
  let before := rs_model (sh_stream sh) in
  let s := match applyEvent before e with resync _ => reopen (onEvent (sh_stream sh) e) | _ => onEvent (sh_stream sh) e end in
  let changed := match applyEvent before e with applied_event _ => true | _ => false end in
  {| sh_runId := sh_runId sh; sh_stream := s; sh_selected := sh_selected sh; sh_tab := sh_tab sh;
     sh_canvas := present (sh_runId sh) (sh_canvas sh) (rs_model s) changed |}.

Definition with_canvas (sh : Shell) (c : option Canvas) : Shell :=
  {| sh_runId := sh_runId sh; sh_stream := sh_stream sh; sh_selected := sh_selected sh; sh_tab := sh_tab sh; sh_canvas := c |}.
Definition measured (sh : Shell) (b : bool) : Shell := with_canvas sh ((fun c => measure c b) <$> sh_canvas sh).
Definition onFollow (sh : Shell) : Shell := with_canvas sh (follow <$> sh_canvas sh).
Definition setSelected (sh : Shell) (v : option string) : Shell :=
  {| sh_runId := sh_runId sh; sh_stream := sh_stream sh; sh_selected := v; sh_tab := sh_tab sh; sh_canvas := sh_canvas sh |}.
Definition setTab (sh : Shell) (t : DrawerTab) : Shell :=
  {| sh_runId := sh_runId sh; sh_stream := sh_stream sh; sh_selected := sh_selected sh; sh_tab := t; sh_canvas := sh_canvas sh |}.

(** [hashchange], after its effects: another run drops the model and the selection; no run leaves the
    model where it is, since the effect of the stream returns first. *)
Definition hashChanged (sh : Shell) (hash : string) : Shell :=
  let next := runFromHash hash in
  if next ==? sh_runId sh then sh
  else let s := match truthy next with Some _ => reopen (sh_stream sh) | None => sh_stream sh end in
       {| sh_runId := next; sh_stream := s; sh_selected := None; sh_tab := sh_tab sh; sh_canvas := None |}.

Definition booted (hash : string) : Shell :=
  {| sh_runId := runFromHash hash; sh_stream := {| rs_model := None; rs_resyncs := 0; rs_generation := 0 |}; sh_selected := None; sh_tab := tab_details; sh_canvas := None |}.

(** The selected id, resolved against the model that is current. *)
Definition selectedVertex (sh : Shell) : option ConsoleVertex :=
  match rs_model (sh_stream sh) with
  | Some m => find (fun v => match sh_selected sh with Some id => cv_vertex_id v ==? id | None => false end) (md_vertices (cm_model m))
  | None => None
  end.

(** What the drawer asks its hook for. *)
Definition drawerSelection (sh : Shell) : Selection :=
  {| sl_runId := default "" (sh_runId sh);
     sl_vertexId := match selectedVertex sh, sh_tab sh with Some v, tab_of _ => Some (cv_vertex_id v) | _, _ => None end;
     sl_tab := match sh_tab sh with tab_of t => t | tab_details => tab_payload end |}.

(** What the header shows: the model of the stream, whether or not a run is open. *)
Definition headerModel (sh : Shell) : option ConsoleDagModel := cm_model <$> rs_model (sh_stream sh).

(** ** The address reads back *)
Lemma hash_roundtrip run : UUID run = true -> runFromHash (hashOf (Some run)) = Some run.
Proof.
  intros Hu. unfold hashOf. destruct run as [|c run]; [done|]. cbn [truthy]. unfold runFromHash, stripRun.
  change (starts_with "#/run/" ("#/run/" +:+ String c run)) with true. change (drop_str 6 ("#/run/" +:+ String c run)) with (String c run). cbv iota. by rewrite Hu.
Qed.

(** ** The canvas keeps its books *)

(** What one model becomes while a run is followed. *)
Record follows_on (m m' : ConsoleDagModel) : Prop := {
  fo_run : md_run_id m' = md_run_id m;
  fo_distinct : NoDup (ids_of_model m');
  fo_kept : forall id, id ∈ ids_of_model m -> id ∈ ids_of_model m'
}.

Lemma follows_on_refl m : NoDup (ids_of_model m) -> follows_on m m.
Proof. by split. Qed.

Lemma follows_on_trans m1 m2 m3 : follows_on m1 m2 -> follows_on m2 m3 -> follows_on m1 m3.
Proof. intros [R1 _ K1] [R2 D2 K2]. split; [congruence|done|auto]. Qed.

(** The cards are laid out; once fitted, what is known is what the model holds, and what is announced is
    the end of what is known. *)
Record canvas_inv (c : Canvas) : Prop := {
  ci_distinct : NoDup (ids_of_model (cn_model c));
  ci_laid : laid DEFAULT_LAYOUT (cn_placed c);
  ci_placed : forall id, id ∈ JMap.keys (lr_vertices (cn_placed c)) <-> id ∈ ids_of_model (cn_model c);
  ci_fitted : forall run, cn_fitted c = Some run -> run = md_run_id (cn_model c) /\ (exists gone, cn_known c = gone ++ cn_pending c) /\ cn_known c ≡ₚ ids_of_model (cn_model c);
  ci_unfitted : cn_fitted c = None -> cn_pending c = []
}.

Lemma addAll_fresh (s xs : list string) : NoDup xs -> (forall x, x ∈ xs -> x ∉ s) -> JSet.addAll s xs = s ++ xs.
Proof.
  revert s; induction xs as [|x xs IH]; intros s Hn Hs; [by rewrite app_nil_r|]. apply NoDup_cons in Hn as [Hx Hn]. unfold JSet.addAll. cbn [fold_left]. unfold JSet.add at 2.
  assert (JSet.has s x = false) as -> by (apply JSet_has_false, Hs; left). fold (JSet.addAll (s ++ [x]) xs). rewrite IH, <- (assoc (++)); [done|done|].
  intros y Hy. rewrite elem_of_app, list_elem_of_singleton. intros [Hy'| ->]; [by apply (Hs y); [right|]|done].
Qed.

(** A canvas that was fitted for the run before is brought up to date by its effects. *)
Lemma fresh_announced c known0 pending0 : NoDup (ids_of_model (cn_model c)) -> cn_fitted c = Some (md_run_id (cn_model c)) -> cn_known c = known0 -> cn_pending c = pending0 ->
  NoDup known0 -> (forall id, id ∈ known0 -> id ∈ ids_of_model (cn_model c)) ->
  exists arrived, cn_known (effects c) = known0 ++ arrived /\ cn_pending (effects c) = pending0 ++ arrived /\ known0 ++ arrived ≡ₚ ids_of_model (cn_model c) /\
    cn_moves (effects c) = cn_moves c /\ cn_fitted (effects c) = cn_fitted c /\ cn_model (effects c) = cn_model c /\ cn_placed (effects c) = cn_placed c.
Proof.
  intros Hd Hf <- <- Hk Hin. unfold effects, fitEffect. rewrite Hf, eqb_refl, orb_true_r, orb_true_l. unfold freshEffect. rewrite Hf, (proj2 (neqb_false _ _)) by done.
  set (fresh := filter_by _ (ids_of_model (cn_model c))). assert (NoDup fresh) as Hn by (by apply NoDup_filter_by). assert (forall x, x ∈ fresh <-> x ∈ ids_of_model (cn_model c) /\ x ∉ cn_known c) as Hx.
  { intros x. unfold fresh. rewrite elem_of_filter_by, negb_true_iff, JSet_has_false. tauto. }
  exists fresh. assert (cn_known c ++ fresh ≡ₚ ids_of_model (cn_model c)) as Hp.
  { apply NoDup_Permutation; [apply NoDup_app; split_and!; [done|intros x H1 H2%Hx; tauto|done]|done|]. intros x. rewrite elem_of_app, Hx. destruct (decide (x ∈ cn_known c)); naive_solver. }
  destruct fresh as [|f fs] eqn:Ef; [rewrite !app_nil_r in *; split_and!; done|]. cbn [cn_known cn_pending cn_moves cn_fitted cn_model cn_placed].
  rewrite addAll_fresh; [split_and!; done|done|]. intros x H1%Hx. tauto.
Qed.

(** The books are kept by the effects: fitted for the first time, or brought up to date. *)
Lemma effects_inv c : NoDup (ids_of_model (cn_model c)) -> laid DEFAULT_LAYOUT (cn_placed c) ->
  (forall id, id ∈ JMap.keys (lr_vertices (cn_placed c)) <-> id ∈ ids_of_model (cn_model c)) ->
  (forall run, cn_fitted c = Some run -> run = md_run_id (cn_model c) /\ (exists gone, cn_known c = gone ++ cn_pending c) /\ NoDup (cn_known c) /\ forall id, id ∈ cn_known c -> id ∈ ids_of_model (cn_model c)) ->
  (cn_fitted c = None -> cn_pending c = []) -> canvas_inv (effects c).
Proof.
  intros Hd Hl Hp Hf Hu. destruct (cn_fitted c) as [run|] eqn:Ef.
  - destruct (Hf run eq_refl) as (-> & (gone & Hg) & Hn & Hin). destruct (fresh_announced c _ _ Hd Ef eq_refl eq_refl Hn Hin) as (arrived & Hk & Hpe & Hperm & _ & Hf' & Hm & Hpl).
    split; rewrite ?Hm, ?Hpl, ?Hf'; [done|done|done| |by rewrite Ef]. intros run Hr. split; [congruence|]. rewrite Hk, Hpe. split; [|done]. exists gone. by rewrite Hg, (assoc (++)).
  - specialize (Hu eq_refl). unfold effects, fitEffect. rewrite Ef. destruct (negb (cn_measured c) || _ || _) eqn:Eg.
    + unfold freshEffect. rewrite Ef, (proj2 (neqb_true _ _)) by done. split; [done|done|done|congruence|done].
    + set (c1 := {| cn_model := cn_model c |}). destruct (fresh_announced c1 (JSet.of_list (ids_of_model (cn_model c))) []) as (arrived & Hk & Hpe & Hperm & _ & Hf' & Hm & Hpl);
        [done|done|done|done|apply NoDup_JSet_of_list|intros id; by rewrite elem_of_JSet_of_list|].
      assert (effects c1 = freshEffect c1) as He by (unfold effects, fitEffect; cbn [cn_fitted cn_model c1]; by rewrite eqb_refl, orb_true_r). rewrite He in *.
      split; rewrite ?Hm, ?Hpl, ?Hf'; [done|done|done| |done]. intros run [= <-]. split; [done|]. rewrite Hk, Hpe. split; [|done]. eexists. reflexivity.
Qed.

Lemma layout_model_ids m previous : NoDup (ids_of_model m) -> forall id, id ∈ JMap.keys (lr_vertices (layout m DEFAULT_LAYOUT previous)) <-> id ∈ ids_of_model m.
Proof. intros Hd id. by rewrite (layout_ids DEFAULT_LAYOUT m previous Hd). Qed.

Lemma mount_inv m : NoDup (ids_of_model m) -> canvas_inv (mountCanvas m).
Proof. intros Hd. apply effects_inv; cbn; [done|by apply layout_laid|by apply layout_model_ids|done|done]. Qed.

Lemma show_inv c m : canvas_inv c -> follows_on (cn_model c) m -> canvas_inv (show c m).
Proof.
  intros [Hd Hl Hp Hf Hu] [Hr Hd' Hk]. apply effects_inv; cbn; [done|by apply layout_laid|by apply layout_model_ids| |done].
  intros run Hrun. destruct (Hf run Hrun) as (-> & Hg & Hperm). split_and!; [done|done|by rewrite Hperm|]. intros id. rewrite Hperm. apply Hk.
Qed.

Lemma measure_inv c b : canvas_inv c -> canvas_inv (measure c b).
Proof.
  intros [Hd Hl Hp Hf Hu]. apply effects_inv; cbn; [done|done|done| |done]. intros run Hrun. destruct (Hf run Hrun) as (-> & Hg & Hperm). split_and!; [done|done|by rewrite Hperm|]. intros id. by rewrite Hperm.
Qed.

Lemma follow_inv c : canvas_inv c -> canvas_inv (follow c).
Proof.
  intros [Hd Hl Hp Hf Hu]. split; cbn; [done|done|done| |done]. intros run Hrun. destruct (Hf run Hrun) as (-> & _ & Hperm). split_and!; [done|exists (cn_known c); by rewrite app_nil_r|done].
Qed.

(** What happens behind the operator's back keeps the view where it is. *)
Record undisturbed (c c' : Canvas) : Prop := {
  ud_moves : cn_moves c' = cn_moves c;
  ud_cards : forall id p, JMap.get (lr_vertices (cn_placed c)) id = Some p -> JMap.get (lr_vertices (cn_placed c')) id = Some p;
  ud_announced : exists arrived, cn_pending c' = cn_pending c ++ arrived /\ ids_of_model (cn_model c') ≡ₚ ids_of_model (cn_model c) ++ arrived;
  ud_fitted : cn_fitted c' = cn_fitted c
}.

Lemma undisturbed_refl c : undisturbed c c.
Proof. split; [done|done| |done]. exists []. by rewrite !app_nil_r. Qed.

Lemma undisturbed_trans c1 c2 c3 : undisturbed c1 c2 -> undisturbed c2 c3 -> undisturbed c1 c3.
Proof.
  intros [M1 C1 (a1 & P1 & I1) F1] [M2 C2 (a2 & P2 & I2) F2]. split; [congruence|auto| |congruence]. exists (a1 ++ a2). split; [by rewrite P2, P1, (assoc (++))|]. by rewrite I2, I1, (assoc (++)).
Qed.

(** A commit on a canvas that is fitted. *)
Lemma effects_undisturbed c c0 run : canvas_inv c -> cn_fitted c = Some run -> cn_fitted c0 = cn_fitted c -> cn_known c0 = cn_known c -> cn_pending c0 = cn_pending c -> cn_moves c0 = cn_moves c ->
  follows_on (cn_model c) (cn_model c0) -> (forall id p, JMap.get (lr_vertices (cn_placed c)) id = Some p -> JMap.get (lr_vertices (cn_placed c0)) id = Some p) -> undisturbed c (effects c0).
Proof.
  intros [Hd Hl Hp Hf Hu] Hfit Hf0 Hk0 Hp0 Hm0 [Hr Hd0 Hkept] Hcards. destruct (Hf run Hfit) as (-> & (gone & Hg) & Hperm).
  destruct (fresh_announced c0 (cn_known c) (cn_pending c)) as (arrived & Hk & Hpe & Hpm & Hmv & Hft & Hmo & Hpl); [done|congruence|done|done|by rewrite Hperm|intros id; rewrite Hperm; apply Hkept|].
  split; [congruence|by rewrite Hpl| |congruence]. exists arrived. split; [done|]. by rewrite Hmo, <- Hpm, Hperm.
Qed.

Lemma show_undisturbed c m run : canvas_inv c -> cn_fitted c = Some run -> follows_on (cn_model c) m -> undisturbed c (show c m).
Proof.
  intros Hi Hfit Hfo. eapply effects_undisturbed; try done. intros id p Hg. cbn [cn_placed]. apply layout_keeps; [apply Hfo|apply Hi| |done].
  intros k Hk%(ci_placed _ Hi). by apply (fo_kept _ _ Hfo).
Qed.

Lemma measure_undisturbed c b run : canvas_inv c -> cn_fitted c = Some run -> undisturbed c (measure c b).
Proof. intros Hi Hfit. eapply effects_undisturbed; try done. apply follows_on_refl, Hi. Qed.

(** ** Sessions *)

(** An event that does not disturb the client: it causes no resync, and if it is applied the model it
    leaves is of the same run, holds every id of the one before and no id twice. The client itself checks
    less: the replay of a batch its snapshot already holds is applied and inserts a vertex a second time
    ([ConsoleClient.replay_after_snapshot_duplicates]), and such an event is not kept. *)
Definition kept_event (current : option ClientModel) (e : ConsoleStreamEvent) : Prop :=
  match applyEvent current e with
  | applied_event next => match current with Some m => follows_on (cm_model m) (cm_model next) | None => NoDup (ids_of_model (cm_model next)) end
  | ignored_event => True
  | resync _ => False
  end.

(** What happens without the operator, and what the operator does. *)
Inductive background : Shell -> Shell -> Prop :=
| bg_event sh e : kept_event (rs_model (sh_stream sh)) e -> background sh (receive sh e)
| bg_measured sh b : background sh (measured sh b).

Inductive session_step : Shell -> Shell -> Prop :=
| ss_background sh sh' : background sh sh' -> session_step sh sh'
| ss_follow sh : session_step sh (onFollow sh)
| ss_select sh v : session_step sh (setSelected sh v)
| ss_tab sh t : session_step sh (setTab sh t).

(** The canvas draws the model of the stream. *)
Record session_inv (sh : Shell) : Prop := {
  se_model : forall m, rs_model (sh_stream sh) = Some m -> NoDup (ids_of_model (cm_model m));
  se_canvas : forall c, sh_canvas sh = Some c -> canvas_inv c /\ exists m, rs_model (sh_stream sh) = Some m /\ cm_model m = cn_model c
}.

(** What an event leaves of the stream and of the canvas. *)
Lemma receive_applied sh e next : applyEvent (rs_model (sh_stream sh)) e = applied_event next ->
  rs_model (sh_stream (receive sh e)) = Some next /\
  sh_canvas (receive sh e) = match truthy (sh_runId sh) with Some _ => Some (match sh_canvas sh with Some c => show c (cm_model next) | None => mountCanvas (cm_model next) end) | None => None end.
Proof.
  intros Ha. unfold receive, present, onEvent. rewrite Ha. cbn [rs_model sh_stream sh_canvas]. split; [done|]. destruct (truthy (sh_runId sh)); [|done]. by destruct (sh_canvas sh).
Qed.

Lemma receive_ignored sh e : applyEvent (rs_model (sh_stream sh)) e = ignored_event ->
  rs_model (sh_stream (receive sh e)) = rs_model (sh_stream sh) /\
  sh_canvas (receive sh e) = match truthy (sh_runId sh), rs_model (sh_stream sh) with
                             | Some _, Some m => Some (match sh_canvas sh with Some c => c | None => mountCanvas (cm_model m) end) | _, _ => None end.
Proof.
  intros Ha. unfold receive, present, onEvent. rewrite Ha. cbn [rs_model sh_stream sh_canvas]. split; [done|]. destruct (truthy (sh_runId sh)); [|done]. destruct (rs_model (sh_stream sh)); [|done]. by destruct (sh_canvas sh).
Qed.

Lemma receive_inv sh e : kept_event (rs_model (sh_stream sh)) e -> session_inv sh -> session_inv (receive sh e).
Proof.
  intros Hk [Hm Hc]. unfold kept_event in Hk. destruct (applyEvent (rs_model (sh_stream sh)) e) as [next| |reason] eqn:Ea; [| |done].
  - destruct (receive_applied _ _ _ Ea) as [Hs Hcv]. assert (NoDup (ids_of_model (cm_model next))) as Hd by (destruct (rs_model (sh_stream sh)); [apply Hk|done]).
    split; [intros m [= <-]%(eq_trans (eq_sym Hs)); done|]. intros c. rewrite Hs, Hcv. destruct (truthy (sh_runId sh)); [|done]. intros [= <-]. split.
    + destruct (sh_canvas sh) as [c0|] eqn:E0; [|by apply mount_inv]. destruct (Hc c0 eq_refl) as [Hi (m & Hm0 & Hcm)]. rewrite Hm0 in Hk. apply show_inv; [done|by rewrite <- Hcm].
    + exists next. split; [done|]. unfold show, mountCanvas, effects, freshEffect, fitEffect. destruct (sh_canvas sh); repeat case_match; done.
  - destruct (receive_ignored _ _ Ea) as [Hs Hcv]. split; [by rewrite Hs|]. intros c. rewrite Hs, Hcv. destruct (truthy (sh_runId sh)); [|done]. destruct (rs_model (sh_stream sh)) as [m|] eqn:Em; [|done]. intros [= <-].
    destruct (sh_canvas sh) as [c0|]; [by apply Hc|]. split; [by apply mount_inv, Hm|]. exists m. split; [done|]. unfold mountCanvas, effects, freshEffect, fitEffect. repeat case_match; done.
Qed.

Lemma effects_model c : cn_model (effects c) = cn_model c.
Proof. unfold effects, freshEffect, fitEffect. repeat case_match; done. Qed.

Lemma with_canvas_inv sh f : (forall c, canvas_inv c -> canvas_inv (f c)) -> (forall c, cn_model (f c) = cn_model c) -> session_inv sh -> session_inv (with_canvas sh (f <$> sh_canvas sh)).
Proof.
  intros Hf Hmo [Hm Hc]. split; [done|]. cbn [sh_canvas with_canvas sh_stream]. intros c (c0 & Hc0 & ->)%fmap_Some. destruct (Hc c0 Hc0) as [Hi (m & H1 & H2)]. split; [by apply Hf|]. exists m. by rewrite Hmo.
Qed.

Lemma background_inv sh sh' : background sh sh' -> session_inv sh -> session_inv sh'.
Proof. intros [? e He|? b] Hi; [by apply receive_inv|]. apply with_canvas_inv; [intros c; apply measure_inv|intros c; unfold measure; by rewrite effects_model|done]. Qed.

Lemma session_step_inv sh sh' : session_step sh sh' -> session_inv sh -> session_inv sh'.
Proof.
  intros [? ? Hb|?|? v|? t] Hi; [by eapply background_inv| | |]; [|by destruct Hi; split..]. apply with_canvas_inv; [apply follow_inv|done|done].
Qed.

Lemma session_reachable hash sh : rtc session_step (booted hash) sh -> session_inv sh.
Proof.
  intros Hr. assert (session_inv (booted hash)) as Hi by (split; intros; discriminate). revert Hi. induction Hr as [|s1 s2 s3 Hs _ IH]; [done|]. intros Hi. by apply IH, (session_step_inv s1).
Qed.

(** One step behind the operator's back. *)
Lemma background_undisturbed sh sh' c run : background sh sh' -> session_inv sh -> truthy (sh_runId sh) <> None -> sh_canvas sh = Some c -> cn_fitted c = Some run ->
  sh_runId sh' = sh_runId sh /\ sh_selected sh' = sh_selected sh /\ sh_tab sh' = sh_tab sh /\ exists c', sh_canvas sh' = Some c' /\ undisturbed c c'.
Proof.
  intros [s e Hk|s b] Hi Hrun Hc Hfit; (split; [done|split; [done|split; [done|]]]); destruct (se_canvas _ Hi c Hc) as [Hci (m & Hm & Hcm)].
  - unfold kept_event in Hk. destruct (truthy (sh_runId s)) eqn:Er; [|done]. destruct (applyEvent (rs_model (sh_stream s)) e) as [next| |reason] eqn:Ea; [| |done].
    + destruct (receive_applied _ _ _ Ea) as [_ Hcv]. rewrite Er, Hc in Hcv. exists (show c (cm_model next)). split; [done|]. eapply show_undisturbed; [done|done|]. rewrite Hm in Hk. by rewrite <- Hcm.
    + destruct (receive_ignored _ _ Ea) as [_ Hcv]. rewrite Er, Hm, Hc in Hcv. exists c. split; [done|apply undisturbed_refl].
  - exists (measure c b). unfold measured. cbn [sh_canvas with_canvas]. rewrite Hc. split; [done|]. by eapply measure_undisturbed.
Qed.

(** C27. The session outlives the feed. Once the canvas of a run has been fitted, and as long as no event
    makes the client resync and each one it applies is of the same run, keeps every id already shown and
    leaves no id twice, then whatever the stream sends, reconnecting snapshots included, and however often
    the cards are measured, the run, the selection and the open tab stay as they are, the viewport is not moved, every card on the
    canvas stays where it is, and what arrived is announced after what was already announced: once each,
    and nothing else. *)
Theorem session_survives hash sh sh' c run :
  rtc session_step (booted hash) sh -> rtc background sh sh' -> truthy (sh_runId sh) <> None -> sh_canvas sh = Some c -> cn_fitted c = Some run ->
  sh_runId sh' = sh_runId sh /\ sh_selected sh' = sh_selected sh /\ sh_tab sh' = sh_tab sh /\ exists c', sh_canvas sh' = Some c' /\ undisturbed c c'.
Proof.
  intros Hr%session_reachable Hb. revert c Hr. induction Hb as [s|s1 s2 s3 Hs _ IH]; intros c Hi Hrun Hc Hfit; [split_and!; [done..|]; exists c; split; [done|apply undisturbed_refl]|].
  destruct (background_undisturbed _ _ _ _ Hs Hi Hrun Hc Hfit) as (R1 & S1 & T1 & c1 & C1 & U1).
  destruct (IH c1) as (R2 & S2 & T2 & c2 & C2 & U2); [by eapply background_inv|by rewrite R1|done|by rewrite (ud_fitted _ _ U1)|].
  split_and!; [congruence..|]. exists c2. split; [done|]. by eapply undisturbed_trans.
Qed.

(** ** A run watched as it grows *)
Definition watched_hash : string := hashOf (Some run_1).
Definition snapshot_at (n : nat) : ConsoleStreamEvent := stream_snapshot (Z.of_nat n) 0 (growth_at n).

(** Opened on three vertices, measured and so fitted; the operator selects one and opens its payload. *)
Definition watching : Shell := setTab (setSelected (measured (receive (booted watched_hash) (snapshot_at 3)) true) (Some "check")) (tab_of tab_payload).
(** The connection is lost and comes back with a snapshot that holds two more vertices. *)
Definition watched_on : Shell := receive watching (snapshot_at 5).

Definition canvas_of (sh : Shell) : Canvas := default (mountCanvas (growth_at 0)) (sh_canvas sh).

Lemma growth_follows a b : bool_decide (NoDup (ids_of_model (growth_at b))) && forallb (fun id => includes id (ids_of_model (growth_at b))) (ids_of_model (growth_at a)) = true ->
  md_run_id (growth_at b) = md_run_id (growth_at a) -> follows_on (growth_at a) (growth_at b).
Proof.
  intros [Hd%bool_decide_eq_true Hin]%andb_true_iff Hr. split; [done|done|]. rewrite forallb_forall in Hin. intros id Hid. apply includes_true, Hin. by apply list_elem_of_In.
Qed.

Lemma session_survives_witness :
  (cn_pending (canvas_of watched_on), cn_moves (canvas_of watched_on)) = (["hold"; "charge"], [fit_view]) /\
  sh_selected watched_on = Some "check" /\ sh_tab watched_on = tab_of tab_payload /\ undisturbed (canvas_of watching) (canvas_of watched_on).
Proof.
  split; [vm_compute; reflexivity|].
  assert (exists c, sh_canvas watching = Some c /\ cn_fitted c = Some "r1") as (c & Hc & Hf) by (eexists; split; vm_compute; reflexivity).
  destruct (session_survives watched_hash watching watched_on c "r1") as (_ & Hs & Ht & c' & Hc' & Hu); [| |vm_compute; discriminate|exact Hc|exact Hf|].
  - eapply rtc_l; [apply ss_background, (bg_event _ (snapshot_at 3)); apply (bool_decide_unpack _); vm_compute; exact I|]. eapply rtc_l; [apply ss_background, (bg_measured _ true)|].
    eapply rtc_l; [apply (ss_select _ (Some "check"))|]. eapply rtc_l; [apply (ss_tab _ (tab_of tab_payload))|]. apply rtc_refl.
  - apply rtc_once, bg_event. apply (growth_follows 3 5); vm_compute; reflexivity.
  - split; [exact Hs|]. split; [exact Ht|]. unfold canvas_of. rewrite Hc, Hc'. exact Hu.
Defined.

(** A resync is not survived: the effect of the new generation drops the model, the canvas unmounts, and the
    snapshot that answers mounts another, laid out afresh and fitted again: the pan is gone, and the card of
    [check] has moved to make room for the scope beside it. *)
Definition panned : Shell := onFollow (receive watching (snapshot_at 5)).
Definition discarded_elsewhere : ConsoleStreamEvent :=
  stream_delta {| cd_at_run_seq := 6; cd_ordinal := 0; cd_spend := md_spend (growth_at 5); cd_change := subgraph_hidden {| cr_at_run_seq := 6; cr_vertex_ids := ["elsewhere"]; cr_boundary_seq := VNull; cr_boundary_vertex_id := VNull; cr_reason := VNull |} |}.
Definition resynced : Shell := measured (receive (receive panned discarded_elsewhere) (snapshot_at 5)) true.

Definition card (sh : Shell) (id : string) : option (Z * Z) := (fun p => (pv_x p, pv_y p)) <$> JMap.get (lr_vertices (cn_placed (canvas_of sh))) id.

Example resync_disturbs :
  (rs_resyncs (sh_stream resynced), sh_selected resynced, sh_tab resynced) = (1, Some "check", tab_of tab_payload) /\
  (cn_moves (canvas_of panned), cn_moves (canvas_of resynced)) = ([fit_view; center_at 108 292], [fit_view]) /\
  (card panned "check", card resynced "check") = (Some (0, 128), Some (240, 128)).
Proof. vm_compute. done. Qed.

(** Leaving a run leaves its model in the header: the effect of the stream returns before it clears it. *)
Example header_outlives_run : let left := hashChanged watching (hashOf None) in (sh_runId left, sh_canvas left, md_run_id <$> headerModel left) = (None, None, Some "r1").
Proof. vm_compute. done. Qed.
