(* ===== verification/Views.v ===== *)
(** * What the console draws (console/client/src/inspector, graph and shell, the components)

    Each component as the tree it renders: tags, classes, what a button does, and text. A JSX child that is
    null, undefined or a boolean draws nothing, a number or a string its text, an array its members, and a
    plain object throws, which takes the page down: there is no error boundary. Titles, roles and the other
    attributes that only assistive technology reads are left out, as are the glyphs of the role icons. The
    few characters beyond ASCII are written as in the source. *)

From S2P Require Import Prelude Collections Number Json JsonParse JsText Events Projection Console ConsoleFacts ConsoleStream ConsoleTail ConsoleClient ConsoleWire Uri ConsoleServer ConsoleSource Inspector Layout Shell.

(** ** Elements *)
Inductive Theme : Type := light | dark | auto.
#[export] Instance Theme_eq_dec : EqDecision Theme.
Proof. solve_decision. Defined.

Inductive Action : Type := open_run (id : value) | open_tab (t : DrawerTab) | close_drawer | follow_growth | zoom (way : string) | set_theme (t : Theme).

Inductive Element : Type :=
| text (s : string)
| el (tag class : string) (click : option Action) (children : list Element).

Abbreviation markup := (result (list Element)).

Definition fragment (ms : list markup) : markup := cs ← mapR id ms; Ok (concat cs).
Definition node (tag class : string) (ms : list markup) : markup := cs ← fragment ms; Ok [el tag class None cs].
Definition button (class : string) (click : Action) (ms : list markup) : markup := cs ← fragment ms; Ok [el "button" class (Some click) cs].
Definition str (s : string) : markup := Ok (match s with "" => [] | _ => [text s] end).
Definition nothing : markup := Ok [].
Definition when (b : bool) (m : markup) : markup := if b then m else nothing.
Definition given {A} (o : option A) (f : A -> markup) : markup := match o with Some a => f a | None => nothing end.

(** [{v}] *)
Fixpoint child (v : value) : markup :=
  match v with
  | VUndef | VNull | VBool _ => nothing
  | VNum n => str (Num.to_string n)
  | VStr s => str s
  | VArr vs => cs ← mapR id (map child vs); Ok (concat cs)
  | VObj _ => Throw "Objects are not valid as a React child"
  end.

Definition term (name : string) (class : string) (ms : list markup) : markup := fragment [node "dt" "" [str name]; node "dd" class ms].

(** ** The drawer's tabs *)
Definition JsonBlock (v : value) (empty : string) : markup :=
  match v with
  | VNull | VUndef => node "p" "drawer-empty" [str empty]
  | _ => node "pre" "json-block" [str (Stringify.indented_text v)]
  end.

Inductive Tone : Type := tone_neutral | tone_warning | tone_error.
Definition tone_name (t : Tone) : string := match t with tone_neutral => "neutral" | tone_warning => "warning" | tone_error => "error" end.

Record RouterNote : Type := { rn_tone : Tone; rn_headline : string; rn_detail : value }.

(** [v.length] *)
Definition length_of (v : value) : result value :=
  match v with
  | VArr l => Ok (num (Z.of_nat (length l)))
  | VStr s => Ok (num (Z.of_nat (String.length s)))
  | VUndef | VNull => Throw "Cannot read properties of null (reading 'length')"
  | VObj o => Ok (Js.field o "length")
  | _ => Ok VUndef
  end.

Definition describeRouterOutcome (outcome : ConsoleRouterOutcome) : result RouterNote :=
  match outcome with
  | pending_outcome => Ok {| rn_tone := tone_neutral; rn_headline := "has not evaluated yet"; rn_detail := VNull |}
  | matched_outcome condition branch =>
      Ok {| rn_tone := tone_neutral; rn_headline := "a rule matched, and emitted this branch with no model call";
            rn_detail := VStr ("condition: " +:+ condition +:+ (match branch with VNull => "" | _ => " (branch " +:+ Js.to_text branch +:+ ")" end)) |}
  | fell_through =>
      Ok {| rn_tone := tone_warning; rn_headline := "no rule matched, so no branch was created";
            rn_detail := VStr "the run continued past this router unchanged; check whether a condition should have covered this case" |}
  | evaluation_error reason => Ok {| rn_tone := tone_error; rn_headline := "a condition could not be evaluated"; rn_detail := Js.nullish_or reason (VStr "the log recorded no reason") |}
  | proposal_rejected violations =>
      n ← length_of violations;
      Ok {| rn_tone := tone_error; rn_headline := "a rule fired, but the branch it proposed was refused by admission";
            rn_detail := VStr (Js.to_text n +:+ " rule violation" +:+ (if Js.strict_eq n (num 1) then "" else "s") +:+ "; see the payload tab for each one") |}
  end.

Definition bracket_name (b : BracketState) : string := match b with sealed => "sealed" | confirmed => "confirmed" | cancelled_bracket => "cancelled" end.

Definition routerNote (outcome : ConsoleRouterOutcome) : markup :=
  note ← describeRouterOutcome outcome;
  node "section" ("router-note tone-" +:+ tone_name (rn_tone note)) [node "h4" "" [str (rn_headline note)]; when (Js.truthy_value (rn_detail note)) (node "p" "" [child (rn_detail note)])].

Definition transactionSection (v : ConsoleVertex) (scope : option ConsoleScope) (scopeId : string) : markup :=
  let txn := cv_txn v in
  node "section" "" [node "h4" "" [str "transaction"]; node "dl" "detail-grid"
    [term "scope" "mono" [str scopeId];
     term "state" "" [child (Js.nullish_or (from_option cs_state VUndef scope) (VStr "not opened yet"))];
     term "effect" "" [child (Js.nullish_or (tx_effect_class txn) (VStr "none declared"))];
     term "pivot" "" [str (if tx_is_pivot txn then if tx_pivot_passed txn then "yes — passed, nothing past here compensates" else "yes — not passed yet" else "no")];
     given (cv_bracket v) (fun b => fragment [term "bracket" "" [str (bracket_name (br_state b))]; term "idempotency key" "mono" [child (Js.nullish_or (br_idempotency_key b) (VStr "—"))]]);
     when (from_option cs_pivot_declaration_mismatch false scope) (term "warning" "tone-warning" [str "the declared pivot disagrees with the derived one"])]].

Definition costSection (c : ConsoleCallCost) : markup :=
  node "section" "" [node "h4" "" [str "model call"]; node "dl" "detail-grid"
    [term "model" "" [child (cc_model c)];
     term "tokens" "" [child (cc_input_tokens c); str " in · "; child (cc_output_tokens c); str " out"];
     term "latency" "" [child (cc_duration_ms c); str " ms"];
     match cc_amount c with VNull => nothing | amount => term "cost" "" [child amount; str " "; child (Js.nullish_or (cc_currency c) (VStr ""))] end]].

Definition stallSection (s : ConsoleStall) : markup :=
  node "section" "router-note tone-error"
    [node "h4" "" [str "this planner answered, and the answer was not a proposal"]; node "p" "" [child (st_reason s)]; node "p" "drawer-note mono" [child (st_answer_digest s)];
     node "p" "drawer-note" [str "Nothing failed here, so the run has no failed vertex — it simply stopped. The recovery ladder treats this as a stall and asks this planner again with the refusal as evidence."]].

Definition DetailsTab (v : ConsoleVertex) (m : ConsoleDagModel) : markup :=
  let scope := find (fun c => Some (cs_scope_id c) ==? tx_scope_id (cv_txn v)) (md_scopes m) in
  let timing := cv_timing v in
  fragment
    [node "dl" "detail-grid"
       [term "role" "" [str (role_name (cv_role v))];
        term "status" ("status-text status-" +:+ status_name (cv_status v)) [str (status_name (cv_status v))];
        given (truthy (cv_tool v)) (fun tool => term "tool" "" [str tool; given (truthy (cv_tool_version v)) (fun version => str (" @ " +:+ version))]);
        term "created by" "" [str (if cv_decided_by v ==? by_router then "a routing rule, with no model call" else "a planner")];
        term "frozen at" "" [str "run_seq "; str (zstr (default (cv_created_seq v) (cv_frozen_by_seq v)))];
        given (truthy (cv_pin_version v)) (fun pin => term "pinned contract" "mono" [str pin]);
        term "duration" "" [match tm_duration_ms timing with
                            | None => str (match truthy (tm_started_at timing) with Some _ => "still running" | None => "not started" end)
                            | Some ms => str (Num.to_string ms +:+ " ms")
                            end];
        when (Num.lt (Num.of_Z 1) (tm_attempts timing)) (term "attempts" "" [child (VNum (tm_attempts timing))]);
        term "in downstream prompts" "" [str (if cv_in_planner_prompt v then "yes" else "no — a downstream planner never sees this vertex")]];
     given (cv_router_outcome v) routerNote;
     given (truthy (tx_scope_id (cv_txn v))) (transactionSection v scope);
     given (cv_cost v) costSection;
     given (cv_stall v) stallSection;
     when (cv_is_shadowed v) (node "section" "router-note tone-warning"
       [node "h4" "" [str "discarded by a replan at run_seq "; given (cv_shadowed_at_seq v) (fun n => str (zstr n))];
        node "p" "" [str "This work was planned and then abandoned. It stays on the canvas because what was discarded is usually what an operator came to look at."]]);
     node "section" "" [node "h4" "" [str "lifted log fields"]; JsonBlock (cv_log_fields v) "this vertex lifted no summary fields"]].

Definition loadingOr (state : DetailState) (missing error unavailable ok : DetailResult -> markup) : markup :=
  match state with
  | loading => node "p" "drawer-empty" [str "loading…"]
  | loaded r => match r with detail_missing => missing r | detail_error _ => error r | detail_unavailable _ => unavailable r | detail_ok _ => ok r end
  end.
Definition missingNote (_ : DetailResult) : markup := node "p" "drawer-empty" [str "this run holds no such vertex"].
Definition errorNote (r : DetailResult) : markup := match r with detail_error message => node "p" "drawer-error" [str message] | _ => nothing end.

(** A property of a body that was read as JSON: of null it throws. *)
Definition PayloadTab (state : DetailState) : markup :=
  loadingOr state missingNote errorNote
    (fun r => match r with detail_unavailable detail => reason ← access detail "reason"; node "p" "drawer-empty" [child reason] | _ => nothing end)
    (fun r => match r with
              | detail_ok detail =>
                  input ← access detail "input"; failure ← access detail "failure"; result ← access detail "result"; status ← access detail "status"; lifted ← access detail "log_fields";
                  fragment [node "section" "" [node "h4" "" [str "input"]; JsonBlock input "frozen with no input"];
                            node "section" "" [node "h4" "" [str (if Js.truthy_value failure then "failure" else "result")];
                                               JsonBlock (Js.nullish_or failure result) (if Js.strict_eq status (VStr "pending") then "still running" else "returned nothing")];
                            node "section" "" [node "h4" "" [str "lifted log fields"]; JsonBlock lifted "this tool lifted no summary fields"]]
              | _ => nothing
              end).

Definition NotRetained (detail : value) (kind : RetentionKind) : markup :=
  reason ← access detail "reason"; input ← access detail "input_digest"; output ← access detail "output_digest"; prerequisite ← access detail "prerequisite";
  node "section" "not-retained"
    [node "h4" "" [str (match kind with retain_prompt => "prompt not retained" | retain_logs => "execution output not collected" end)]; node "p" "" [child reason];
     node "dl" "digest-list" [term "input digest" "" [child (Js.nullish_or input (VStr "—"))]; term "output digest" "" [child (Js.nullish_or output (VStr "—"))]];
     node "p" "drawer-note" [child prerequisite]].

Definition LogsTab (state : DetailState) (kind : RetentionKind) : markup :=
  loadingOr state missingNote errorNote
    (fun r => match r with detail_unavailable detail => NotRetained detail kind | _ => nothing end)
    (fun r => match r with detail_ok v => node "pre" "json-block" [str (Stringify.indented_text v)] | _ => nothing end).

(** ** The drawer *)
Definition TABS : list (DrawerTab * string) := [(tab_details, "Details"); (tab_of tab_payload, "Payload"); (tab_of tab_prompt, "Prompt"); (tab_of tab_logs, "Logs")].

#[export] Instance DrawerTab_eq_dec : EqDecision DrawerTab.
Proof. solve_decision. Defined.

Definition InspectorDrawer (m : ConsoleDagModel) (vertex : option ConsoleVertex) (tab : DrawerTab) (detail : DetailState) : markup :=
  given vertex (fun v => node "aside" "inspector-drawer"
    [node "header" "drawer-head" [node "div" "" [node "h3" "" [child (cv_label v)]; node "p" "mono drawer-id" [str (cv_vertex_id v)]]; button "drawer-close" close_drawer [str "×"]];
     node "nav" "drawer-tabs" (map (fun entry => button (if tab ==? fst entry then "active" else "") (open_tab (fst entry)) [str (snd entry)]) TABS);
     node "div" "drawer-body" [match tab with
                               | tab_details => DetailsTab v m
                               | tab_of tab_payload => PayloadTab detail
                               | tab_of tab_prompt => LogsTab detail retain_prompt
                               | tab_of tab_logs => LogsTab detail retain_logs
                               end]]).

(** ** The canvas *)

(** [now]: [Date.now()]. *)
Definition duration (now : Z) (v : ConsoleVertex) : option string :=
  match tm_duration_ms (cv_timing v) with
  | Some ms => Some (Num.to_string ms +:+ "ms")
  | None => (fun started => "~" +:+ (match IsoDate.parse started with
                                     | Some at_ => zstr (Z.max 0 ((2 * (now - at_) + 1000) / 2000))
                                     | None => "NaN"
                                     end) +:+ "s") <$> truthy (tm_started_at (cv_timing v))
  end.

Definition routerLabel (outcome : ConsoleRouterOutcome) : string :=
  match outcome with
  | pending_outcome => "pending" | matched_outcome _ _ => "matched" | fell_through => "no rule matched"
  | evaluation_error _ => "could not decide" | proposal_rejected _ => "branch refused"
  end.

Definition VertexCard (now : Z) (v : ConsoleVertex) (selected : bool) : markup :=
  node "div" ("vertex-card status-" +:+ status_name (cv_status v) +:+ (if cv_is_shadowed v then " shadowed" else "") +:+ (if selected then " selected" else ""))
    [node "div" "vertex-card-head" [node "span" "vertex-card-label" [child (cv_label v)]; given (truthy (duration now v)) (fun t => node "span" "vertex-card-time" [str t])];
     node "div" "vertex-card-meta"
       [given (truthy (cv_tool v)) (fun tool => node "span" "chip tool" [str tool]);
        when (cv_decided_by v ==? by_router) (node "span" "chip rule" [str "by rule"]);
        when (tx_is_pivot (cv_txn v)) (node "span" "chip pivot" [str (if tx_pivot_passed (cv_txn v) then "pivot passed" else "pivot")]);
        given (cv_bracket v) (fun b => node "span" "chip bracket" [str (bracket_name (br_state b))]);
        given (cv_router_outcome v) (fun o => match o with pending_outcome => nothing | _ => node "span" "chip router" [str (routerLabel o)] end);
        given (cv_cost v) (fun c => node "span" "chip cost" [child (plus (cc_input_tokens c) (cc_output_tokens c)); str " tok"]);
        given (cv_stall v) (fun _ => node "span" "chip stalled" [str "answer unreadable"]);
        when (cv_is_shadowed v) (node "span" "chip shadowed" [str "discarded"])]].

Definition ScopeEnclosure (scope : ConsoleScope) (placed : PlacedScope) : markup :=
  node "div" ("scope-enclosure state-" +:+ Js.to_text (cs_state scope))
    [node "span" "scope-label" [str "scope "; str (take_str 8 (cs_scope_id scope)); str " · "; child (cs_state scope)];
     given (ps_pivotY placed) (fun _ => node "div" "scope-pivot" [node "span" "" [str "compensable above · irreversible below"]])].

Definition CanvasControls (pending : list string) (showRelationLegend : bool) : markup :=
  node "div" "canvas-controls"
    [when showRelationLegend (node "div" "relation-legend" [node "span" "upstream" [node "i" "" []; str "derived this"]; node "span" "downstream" [node "i" "" []; str "derived from this"]]);
     match pending with [] => nothing | _ => button "growth-pill" follow_growth [str "+"; str (nstr (length pending)); str " new"] end;
     node "div" "control-cluster" [button "" (zoom "in") [str "+"]; button "" (zoom "out") [str "−"]; button "" (zoom "fit") [str "⤢"]]].

Definition miniMapColor (n : FlowNode) : string :=
  match n with scope_node _ _ _ _ _ _ => "transparent" | vertex_node _ _ _ v _ => "var(--status-" +:+ status_name (cv_status v) +:+ ")" end.

(** ** The header, the picker and the theme *)
Definition STATUS_TEXT (s : ConnectionStatus) : string :=
  match s with connecting => "connecting" | live => "live" | reconnecting => "reconnecting" | stream_error => "disconnected" end.
Definition status_class (s : ConnectionStatus) : string :=
  match s with connecting => "connecting" | live => "live" | reconnecting => "reconnecting" | stream_error => "error" end.

Definition theme_name (t : Theme) : string := match t with light => "light" | dark => "dark" | auto => "auto" end.
Definition ThemeToggle : markup := node "div" "theme-toggle" (map (fun option => button "" (set_theme option) [str (theme_name option)]) [light; auto; dark]).

(** [v.slice(0, 8)] *)
Definition slice8 (v : value) : result value :=
  match v with VStr s => Ok (VStr (take_str 8 s)) | VArr l => Ok (VArr (firstn 8 l)) | _ => Throw "fork.child_run_id.slice is not a function" end.

Definition RunHeader (model : option ConsoleDagModel) (status : ConnectionStatus) (resyncs : Z) : markup :=
  node "header" "run-header"
    [node "div" "run-identity" [node "h1" "" [str "Flory console"]; given model (fun m => fragment
       [when (md_kind m ==? counterfactual) (node "span" "badge counterfactual" [str "counterfactual — not a production run"]); node "span" "mono run-id" [str (md_run_id m)]])];
     given model (fun m => node "dl" "run-stats"
       [node "div" "" [term "folded to" "" [str "run_seq "; str (zstr (md_at_run_seq m))]];
        node "div" "" [term "vertices" "" [str (nstr (length (md_vertices m)))]];
        node "div" "" [term "model calls" "" [str (zstr (sp_calls (md_spend m))); str " · "; child (plus (sp_input_tokens (md_spend m)) (sp_output_tokens (md_spend m))); str " tok";
          match sp_amount (md_spend m) with
          | VNull => nothing
          | amount => str (" · " +:+ Js.to_text amount +:+ " " +:+ Js.to_text (Js.nullish_or (sp_currency (md_spend m)) (VStr "")))
          end]];
        match md_counterfactuals m with
        | [] => nothing
        | forks => node "div" "" [term "counterfactuals" "counterfactual-links" (map (fun fork => name ← slice8 (cf_child_run_id fork); button "" (open_run (cf_child_run_id fork)) [child name]) forks)]
        end]);
     node "div" "run-controls"
       [node "span" ("feed-status feed-" +:+ status_class status) [node "i" "" []; str " "; str (STATUS_TEXT status);
          when (negb (resyncs =? 0)) (str (" · " +:+ zstr resyncs +:+ " resync" +:+ (if resyncs =? 1 then "" else "s")))];
        given model (fun m => node "span" "mono projector" [str (md_console_projector_version m)]); ThemeToggle]].

(** The picker: what its fetch left, and what it draws. [localDate]: [new Date(t).toLocaleString()]. *)
Record Picker : Type := { pk_runs : option (list ConsoleRunSummary); pk_error : option string }.
Definition newPicker : Picker := {| pk_runs := None; pk_error := None |}.

(** The two handlers of the promise; [aborted]: the component has gone. A list is set even then, on a
    component that no longer draws. *)
Definition picked (p : Picker) (aborted : bool) (answer : result (list ConsoleRunSummary)) : Picker :=
  match answer with
  | Ok runs => {| pk_runs := Some runs; pk_error := pk_error p |}
  | Throw message => if aborted then p else {| pk_runs := pk_runs p; pk_error := Some message |}
  end.

Definition RunPicker (localDate : string -> string) (p : Picker) : markup :=
  node "div" "run-picker"
    [node "h2" "" [str "Recent runs"];
     given (truthy (pk_error p)) (fun message => node "p" "drawer-error" [str message]);
     match pk_runs p, truthy (pk_error p) with None, None => node "p" "drawer-empty" [str "loading…"] | _, _ => nothing end;
     match pk_runs p with Some [] => node "p" "drawer-empty" [str "no runs yet — start one with npm run demo:retail"] | _ => nothing end;
     node "ul" "" (map (fun run => node "li" "" [button "" (open_run (VStr (su_run_id run)))
       [node "span" "mono" [str (su_run_id run)];
        when (su_kind run ==? counterfactual) (node "span" "badge counterfactual small" [str "counterfactual"]);
        node "span" "run-picker-meta" [str (localDate (su_created_at run)); str " · "; str (zstr (su_event_count run)); str " events"]]]) (default [] (pk_runs p)))].

(** ** The shell *)
Section Page.
Variable localDate : string -> string.
(** The canvas, which a library draws. *)
Variable canvas : Canvas -> option string -> markup.

Definition AppShell (sh : Shell) (status : ConnectionStatus) (error : option string) (picker : Picker) (detail : DetailState) : markup :=
  let model := rs_model (sh_stream sh) in
  let selected := selectedVertex sh in
  node "div" "app-shell"
    [RunHeader (cm_model <$> model) status (rs_resyncs (sh_stream sh));
     node "main" (match selected with Some _ => "with-drawer" | None => "" end)
       [match truthy (sh_runId sh) with None => RunPicker localDate picker | Some _ => nothing end;
        match truthy (sh_runId sh), model with Some _, None => node "p" "drawer-empty centred" [str (default "waiting for the first snapshot…" error)] | _, _ => nothing end;
        match truthy (sh_runId sh), sh_canvas sh with Some _, Some c => canvas c (sh_selected sh) | _, _ => nothing end;
        match truthy (sh_runId sh), model with Some _, Some m => InspectorDrawer (cm_model m) selected (sh_tab sh) detail | _, _ => nothing end]].
End Page.

(** *** The theme *)
Record ThemeState : Type := { th_preference : Theme; th_systemDark : bool; th_storage : option string; th_attribute : option string }.

Definition themeOf (stored : option string) : Theme :=
  match stored with Some "light" => light | Some "dark" => dark | _ => auto end.

(** The effect of a preference on the document. *)
Definition attribute_of (t : Theme) : option string := match t with auto => None | _ => Some (theme_name t) end.

(** [readable]: whether reading the storage does not throw. *)
Definition bootTheme (readable systemDark : bool) (storage : option string) : ThemeState :=
  let t := if readable then themeOf storage else auto in
  {| th_preference := t; th_systemDark := systemDark; th_storage := storage; th_attribute := attribute_of t |}.

(** [writable]: whether writing does not throw, which is caught. *)
Definition setPreference (s : ThemeState) (next : Theme) (writable : bool) : ThemeState :=
  {| th_preference := next; th_systemDark := th_systemDark s; th_storage := if writable then attribute_of next else th_storage s; th_attribute := attribute_of next |}.

Definition onSystem (s : ThemeState) (dark_ : bool) : ThemeState :=
  {| th_preference := th_preference s; th_systemDark := dark_; th_storage := th_storage s; th_attribute := th_attribute s |}.

Definition resolved (s : ThemeState) : Theme := match th_preference s with auto => if th_systemDark s then dark else light | t => t end.

(** A preference is found again by the next page, and only an explicit one overrides the system's. *)
Lemma theme_roundtrip s next systemDark :
  let later := bootTheme true systemDark (th_storage (setPreference s next true)) in
  th_preference later = next /\ th_attribute later = th_attribute (setPreference s next true) /\
  resolved later = match next with auto => if systemDark then dark else light | t => t end.
Proof. by destruct next. Qed.

(** ** What a tree shows *)
Fixpoint has_class (c : string) (e : Element) : bool :=
  match e with text _ => false | el _ class _ children => (class ==? c) || existsb (has_class c) children end.

(** Whether what is drawn, if it is drawn, holds an element of a class. *)
Definition shows (c : string) (m : markup) (b : bool) : Prop := forall es, m = Ok es -> existsb (has_class c) es = b.

Lemma shows_nothing c : shows c nothing false.
Proof. by intros es [= <-]. Qed.

Lemma shows_str c s : shows c (str s) false.
Proof. intros es [= <-]. by destruct s. Qed.

Lemma shows_all c ms bs : Forall2 (shows c) ms bs -> forall css, mapR id ms = Ok css -> existsb (has_class c) (concat css) = existsb id bs.
Proof.
  induction 1 as [|m b ms bs Hm _ IH]; intros css Hc; cbn [mapR] in Hc; [by injection Hc as <-|]. apply bind_Ok in Hc as (es & Hes & Hc). apply bind_Ok in Hc as (rest & Hr & Hc). injection Hc as <-.
  cbn [concat]. rewrite existsb_app, (IH rest Hr), (Hm es Hes). done.
Qed.

Lemma shows_fragment c ms bs : Forall2 (shows c) ms bs -> shows c (fragment ms) (existsb id bs).
Proof. intros HF es He. apply bind_Ok in He as (css & Hc & He). injection He as <-. by eapply shows_all. Qed.

Lemma shows_el c tag class click ms bs : Forall2 (shows c) ms bs -> shows c (cs ← fragment ms; Ok [el tag class click cs]) ((class ==? c) || existsb id bs).
Proof. intros HF es He. apply bind_Ok in He as (cs & Hc & He). injection He as <-. cbn [existsb has_class]. by rewrite (shows_fragment c ms bs HF cs Hc), orb_false_r. Qed.

Lemma shows_none c ms : Forall (fun m => shows c m false) ms -> Forall2 (shows c) ms (map (fun _ => false) ms).
Proof. induction 1; cbn; by constructor. Qed.

Lemma existsb_none {A} (l : list A) : existsb id (map (fun _ => false) l) = false.
Proof. by induction l. Qed.

(** A value draws text only. *)
Lemma shows_child c v : shows c (child v) false.
Proof.
  induction v as [| |b|n|s|vs IH|o IH] using value_ind'; try apply shows_nothing; try apply shows_str; [|done].
  intros es He. cbn [child] in He. apply bind_Ok in He as (css & Hc & He). injection He as <-. rewrite (shows_all c (map child vs) (map (fun _ => false) (map child vs))); [apply existsb_none| |done].
  apply shows_none, Forall_map. by eapply Forall_impl.
Qed.

(** *** Trees without a class *)
Abbreviation quiet c m := (shows c m false).

Lemma quiet_fragment c ms : Forall (fun m => quiet c m) ms -> quiet c (fragment ms).
Proof. intros HF. rewrite <- (existsb_none ms). by apply shows_fragment, shows_none. Qed.

Lemma quiet_el c tag class click ms : (class ==? c) = false -> Forall (fun m => quiet c m) ms -> quiet c (cs ← fragment ms; Ok [el tag class click cs]).
Proof. intros Hc HF es He. rewrite (shows_el c tag class click ms _ (shows_none c ms HF) es He), Hc. apply existsb_none. Qed.

Lemma quiet_when c b m : quiet c m -> quiet c (when b m).
Proof. intros Hm. destruct b; [done|apply shows_nothing]. Qed.

Lemma quiet_given {A} c (o : option A) f : (forall a, quiet c (f a)) -> quiet c (given o f).
Proof. intros Hf. destruct o; [apply Hf|apply shows_nothing]. Qed.

Lemma quiet_bind {A} c (r : result A) (f : A -> markup) : (forall a, quiet c (f a)) -> quiet c (a ← r; f a).
Proof. intros Hf es He. apply bind_Ok in He as (a & _ & He). by apply (Hf a). Qed.

Lemma quiet_map {A} c (f : A -> markup) l : (forall a, quiet c (f a)) -> Forall (fun m => quiet c m) (map f l).
Proof. intros Hf. apply Forall_map, Forall_forall. intros a _. apply Hf. Qed.

(** Classes that are written out differ by computation. *)
Ltac quiet :=
  repeat first
    [ apply shows_nothing | apply shows_str | apply shows_child | apply quiet_when | apply quiet_given; intros ? | apply quiet_fragment
    | apply quiet_el; [vm_compute; reflexivity|] | apply quiet_bind; intros ? | apply quiet_map; intros ? | apply Forall_cons_2 | apply Forall_nil_2
    | progress unfold term, node, button | match goal with |- shows _ (match ?x with _ => _ end) _ => destruct x end ].

(** All but one of the children are without it. *)
Lemma shows_among c pre m post b : Forall (fun m => quiet c m) pre -> shows c m b -> Forall (fun m => quiet c m) post -> shows c (fragment (pre ++ m :: post)) b.
Proof.
  intros Hpre Hm Hpost. assert (existsb id (map (fun _ => false) pre ++ b :: map (fun _ => false) post) = b) as <-.
  { rewrite existsb_app. cbn [existsb]. rewrite !existsb_none, orb_false_r. done. }
  apply shows_fragment, Forall2_app; [by apply shows_none|]. constructor; [done|by apply shows_none].
Qed.

Lemma shows_within c tag class m b : (class ==? c) = false -> shows c (fragment m) b -> shows c (node tag class m) b.
Proof. intros Hc Hm es He. apply bind_Ok in He as (cs & Hcs & He). injection He as <-. cbn [existsb has_class]. by rewrite Hc, (Hm cs Hcs), orb_false_r. Qed.

(** A header says that a run is counterfactual exactly when it is. *)
Theorem counterfactual_labelled model status resyncs : shows "badge counterfactual" (RunHeader model status resyncs) (match model with Some m => md_kind m ==? counterfactual | None => false end).
Proof.
  apply shows_within; [reflexivity|]. apply (shows_among _ [] _ [_; _]); [constructor| |destruct status; quiet].
  apply shows_within; [reflexivity|]. apply (shows_among _ [_] _ []); [quiet| |constructor]. destruct model as [m|]; [|quiet]. cbn [given].
  apply (shows_among _ [] _ [_]); [constructor| |quiet]. destruct (md_kind m); [quiet|]. by intros es [= <-].
Qed.

(** ** What is drawn at all *)
Definition renders (m : markup) : Prop := exists es, m = Ok es.

Lemma renders_nothing : renders nothing.
Proof. by eexists. Qed.
Lemma renders_str s : renders (str s).
Proof. by eexists. Qed.
Lemma renders_fragment ms : Forall renders ms -> renders (fragment ms).
Proof. intros HF. unfold fragment. induction HF as [|m ms [es ->] _ [rest Hr]]; [by eexists|]. cbn [mapR id]. destruct (mapR id ms) as [css|]; [by eexists|done]. Qed.
Lemma renders_el tag class click ms : Forall renders ms -> renders (cs ← fragment ms; Ok [el tag class click cs]).
Proof. intros [cs ->]%renders_fragment. by eexists. Qed.
Lemma renders_when b m : (b = true -> renders m) -> renders (when b m).
Proof. destruct b; intros Hm; [by apply Hm|apply renders_nothing]. Qed.
Lemma renders_given {A} (o : option A) f : (forall a, o = Some a -> renders (f a)) -> renders (given o f).
Proof. intros Hf. destruct o; [by apply Hf|apply renders_nothing]. Qed.
Lemma renders_json v empty : renders (JsonBlock v empty).
Proof. by destruct v; eexists. Qed.
Lemma renders_plus v w : renders (child (plus v w)).
Proof. unfold plus. destruct (_ || _); apply renders_str. Qed.
Lemma renders_or v s : renders (child v) -> renders (child (Js.nullish_or v (VStr s))).
Proof. destruct v; intros Hv; try done; apply renders_str. Qed.

Ltac rendered :=
  repeat first
    [ assumption | apply renders_nothing | apply renders_str | apply renders_json | apply renders_plus | apply renders_or | apply renders_fragment
    | apply renders_el | apply renders_when; intros ? | apply renders_given; intros ? ? | apply Forall_cons_2 | apply Forall_nil_2 | progress unfold term, node, button ].

(** The fields the log leaves free, where a page draws them. *)
Record drawable_vertex (v : ConsoleVertex) : Prop := {
  dv_label : renders (child (cv_label v));
  dv_outcome : match cv_router_outcome v with Some (evaluation_error reason) => renders (child reason) | Some (proposal_rejected vs) => vs <> VNull /\ vs <> VUndef | _ => True end;
  dv_effect : renders (child (tx_effect_class (cv_txn v)));
  dv_bracket : forall b, cv_bracket v = Some b -> renders (child (br_idempotency_key b));
  dv_cost : forall c, cv_cost v = Some c -> Forall (fun x => renders (child x)) [cc_model c; cc_input_tokens c; cc_output_tokens c; cc_duration_ms c; cc_amount c; cc_currency c];
  dv_stall : forall s, cv_stall v = Some s -> renders (child (st_reason s)) /\ renders (child (st_answer_digest s))
}.

Record drawable_model (m : ConsoleDagModel) : Prop := {
  dm_vertices : Forall drawable_vertex (md_vertices m);
  dm_scopes : Forall (fun c => renders (child (cs_state c))) (md_scopes m);
  dm_forks : Forall (fun f => exists id, cf_child_run_id f = VStr id) (md_counterfactuals m)
}.

Lemma routerNote_renders v o : drawable_vertex v -> cv_router_outcome v = Some o -> renders (routerNote o).
Proof.
  intros [_ Ho _ _ _ _] Eo. rewrite Eo in Ho. unfold routerNote. destruct o as [|condition branch| |reason|vs]; cbn [describeRouterOutcome mbind result_bind rn_tone rn_headline rn_detail]; rendered.
  destruct (length_of vs) as [n|] eqn:El; [|by destruct Ho; destruct vs]. cbn [mbind result_bind rn_tone rn_headline rn_detail]. rendered.
Qed.

Lemma DetailsTab_renders v m : drawable_vertex v -> drawable_model m -> renders (DetailsTab v m).
Proof.
  intros Hv Hm. unfold DetailsTab. set (scope := find _ (md_scopes m)).
  assert (renders (child (from_option cs_state VUndef scope))) as Hstate.
  { destruct scope as [c|] eqn:E; [|apply renders_nothing]. apply find_some in E as [Hin _]. pose proof (dm_scopes _ Hm) as Hs. rewrite Forall_forall in Hs. apply Hs. by apply list_elem_of_In. }
  pose proof (dv_effect _ Hv) as Heffect. assert (forall b, cv_bracket v = Some b -> renders (child (br_idempotency_key b))) as Hbracket by apply Hv.
  rendered; try (destruct (tm_duration_ms (cv_timing v)); apply renders_str); try (by eapply routerNote_renders); try (by apply Hbracket);
    try (match goal with Hc : cv_cost v = Some ?c |- _ => pose proof (dv_cost _ Hv c Hc) as HF end; repeat match goal with HF : Forall _ (_ :: _) |- _ => apply Forall_cons in HF as [? HF] end;
         first [assumption|destruct (cc_amount _); rendered]);
    match goal with Hs : cv_stall v = Some ?s |- _ => by destruct (dv_stall _ Hv s Hs) end.
Qed.

Lemma VertexCard_renders now v selected : drawable_vertex v -> renders (VertexCard now v selected).
Proof. intros Hv. pose proof (dv_label _ Hv). unfold VertexCard. rendered. destruct a; rendered. Qed.

Lemma RunHeader_renders model status resyncs : (forall m, model = Some m -> drawable_model m) -> renders (RunHeader model status resyncs).
Proof.
  intros Hm. unfold RunHeader, ThemeToggle. rendered; [destruct (sp_amount _); rendered|].
  assert (Forall renders (map (fun fork => name ← slice8 (cf_child_run_id fork); button "" (open_run (cf_child_run_id fork)) [child name]) (md_counterfactuals a))) as Hlinks.
  { apply Forall_map. eapply Forall_impl; [exact (dm_forks _ (Hm a H))|]. intros x [id ->]. cbn [slice8 mbind result_bind]. rendered. }
  destruct (md_counterfactuals a) as [|f fs]; rendered; by inversion Hlinks.
Qed.

(** A result the drawer can draw. *)
Definition drawable_detail (state : DetailState) : Prop :=
  match state with
  | loaded (detail_ok v) => exists o, v = VObj o
  | loaded (detail_unavailable v) => exists o, v = VObj o /\ Forall (fun k => renders (child (Js.field o k))) ["reason"; "input_digest"; "output_digest"; "prerequisite"]
  | _ => True
  end.

Lemma InspectorDrawer_renders m vertex tab detail : (forall v, vertex = Some v -> drawable_vertex v) -> drawable_model m -> drawable_detail detail -> renders (InspectorDrawer m vertex tab detail).
Proof.
  intros Hv Hm Hd. unfold InspectorDrawer. apply renders_given. intros v ->. specialize (Hv v eq_refl). pose proof (dv_label _ Hv). rendered.
  destruct tab as [|t]; [by apply DetailsTab_renders|]. unfold PayloadTab, LogsTab, loadingOr, missingNote, errorNote.
  destruct detail as [|[x| |x|message]]; [destruct t; rendered| |destruct t; rendered| |destruct t; rendered].
  - destruct Hd as [o ->]. destruct t; cbn [access mbind result_bind]; rendered.
  - destruct Hd as (o & -> & HF). repeat match goal with HF : Forall _ (_ :: _) |- _ => apply Forall_cons in HF as [? HF] end.
    destruct t; unfold NotRetained; cbn [access mbind result_bind]; rendered.
Qed.

(** The page is drawn whatever the run, the tab and the state of the feed, as long as the fields the log
    leaves free hold no plain object where the page draws them. *)
Theorem page_renders localDate canvas sh status error picker detail :
  (forall m, rs_model (sh_stream sh) = Some m -> drawable_model (cm_model m)) -> drawable_detail detail -> (forall c selected, renders (canvas c selected)) ->
  renders (AppShell localDate canvas sh status error picker detail).
Proof.
  intros Hm Hd Hc. unfold AppShell. assert (renders (RunHeader (cm_model <$> rs_model (sh_stream sh)) status (rs_resyncs (sh_stream sh)))) as Hheader.
  { apply RunHeader_renders. intros m (cm & Hcm & ->)%fmap_Some. by apply Hm. }
  assert (renders (RunPicker localDate picker)) as Hpicker.
  { unfold RunPicker. rendered; [by repeat case_match; rendered..|]. apply Forall_map, Forall_forall. intros; rendered. }
  assert (forall m, rs_model (sh_stream sh) = Some m -> renders (InspectorDrawer (cm_model m) (selectedVertex sh) (sh_tab sh) detail)) as Hdrawer.
  { intros m Em. specialize (Hm m Em). apply InspectorDrawer_renders; [|done|done]. intros v Hv. unfold selectedVertex in Hv. rewrite Em in Hv. apply find_some in Hv as [Hin _].
    pose proof (dm_vertices _ Hm) as HF. rewrite Forall_forall in HF. apply HF. by apply list_elem_of_In. }
  apply renders_el. apply Forall_cons_2; [done|]. apply Forall_cons_2; [|constructor]. apply renders_el.
  destruct (truthy (sh_runId sh)), (rs_model (sh_stream sh)) as [m|], (sh_canvas sh); repeat (apply Forall_cons_2 || apply Forall_nil_2); first [done|apply renders_nothing|apply Hc|by apply Hdrawer|rendered].
Qed.

(** A label that is an object takes the page down with its card. *)
Lemma object_label now v selected o : cv_label v = VObj o -> VertexCard now v selected = Throw "Objects are not valid as a React child".
Proof. intros E. unfold VertexCard. rewrite E. repeat case_match; done. Qed.
