(* ===== verification/Sdk.v ===== *)
(** * The tool-service SDK (sdk/typescript/contract.ts, service.ts) and the admission it mirrors

    A contract as a service author declares it, its projection onto the wire, the startup check, and the
    service that registers, beats and executes. The gateway's own rules
    (gatewayd/internal/registry/admission.go over the document of gatewayd/internal/toolview/document.go)
    are here too, because the startup check is a second implementation of them. *)

From S2P Require Import Prelude Collections Number Json JsonParse JsText Events CheckRules.
From Corelib Require Import SpecFloat.

(** ** Contracts *)
Record Retry : Type := { ry_maxAttempts : number; ry_initialBackoffMs : number; ry_multiplierMilli : number; ry_maxBackoffMs : number }.

Definition defaultRetry : Retry :=
  {| ry_maxAttempts := Num.of_Z 3; ry_initialBackoffMs := Num.of_Z 100; ry_multiplierMilli := Num.of_Z 2000; ry_maxBackoffMs := Num.of_Z 5000 |}.

Record Contract : Type := {
  ct_toolId : string;
  ct_toolVersion : string;
  ct_description : option string;
  ct_inputSchema : string;
  ct_outputSchema : string;
  ct_effectClass : EffectClass;
  ct_mode : ToolMode;
  ct_idempotencyKeyPath : option string;
  ct_idempotentRetryable : bool;
  ct_tryTimeoutSeconds : option number;
  ct_confirmTool : option string;
  ct_cancelTool : option string;
  ct_compensateTool : option string;
  ct_statusTool : option string;
  ct_confirmArguments : option (list (string * string));
  ct_cancelArguments : option (list (string * string));
  ct_compensateArguments : option (list (string * string));
  ct_compensating : bool;
  ct_footprint : list string;
  ct_writes : list string;
  ct_logFields : list string;
  ct_timeoutMs : number;
  ct_retry : option Retry;
  ct_owner : string;
  ct_allowedRoles : list string
}.

Inductive CompensationStyle : Type := not_compensating | delta | snapshot_style.

(** The message of tool_contract.proto, as [create] fills it. *)
Record TransactionSpec : Type := {
  ts_effectClass : EffectClass;
  ts_mode : ToolMode;
  ts_idempotencyKeyPath : string;
  ts_idempotentRetryable : bool;
  ts_tryTimeoutS : number;
  ts_confirmTool : string;
  ts_cancelTool : string;
  ts_compensateTool : string;
  ts_statusTool : string;
  ts_confirmArguments : option (list (string * string));
  ts_cancelArguments : option (list (string * string));
  ts_compensateArguments : option (list (string * string))
}.

Record ToolContract : Type := {
  tc_toolId : string;
  tc_toolVersion : string;
  tc_description : string;
  tc_inputSchema : string;
  tc_outputSchema : string;
  tc_routeId : string;
  tc_protocol : string;
  tc_operation : string;
  tc_txn : TransactionSpec;
  tc_compensationStyle : CompensationStyle;
  tc_footprint : list string;
  tc_writes : list string;
  tc_timeoutMs : number;
  tc_retry : Retry;
  tc_owner : string;
  tc_allowedRoles : list string;
  tc_logFields : list string
}.

Definition buildContract (c : Contract) (routeId : string) : ToolContract :=
  {| tc_toolId := ct_toolId c; tc_toolVersion := ct_toolVersion c; tc_description := default "" (ct_description c);
     tc_inputSchema := ct_inputSchema c; tc_outputSchema := ct_outputSchema c; tc_routeId := routeId;
     tc_protocol := "grpc"; tc_operation := "flory.gateway.v1.ToolExecutionService/Execute";
     tc_txn := {| ts_effectClass := ct_effectClass c; ts_mode := ct_mode c; ts_idempotencyKeyPath := default "" (ct_idempotencyKeyPath c);
                  ts_idempotentRetryable := ct_idempotentRetryable c; ts_tryTimeoutS := default (Num.of_Z 0) (ct_tryTimeoutSeconds c);
                  ts_confirmTool := default "" (ct_confirmTool c); ts_cancelTool := default "" (ct_cancelTool c);
                  ts_compensateTool := default "" (ct_compensateTool c); ts_statusTool := default "" (ct_statusTool c);
                  ts_confirmArguments := ct_confirmArguments c; ts_cancelArguments := ct_cancelArguments c; ts_compensateArguments := ct_compensateArguments c |};
     tc_compensationStyle := if ct_compensating c then delta else not_compensating;
     tc_footprint := ct_footprint c; tc_writes := ct_writes c; tc_timeoutMs := ct_timeoutMs c; tc_retry := default defaultRetry (ct_retry c);
     tc_owner := ct_owner c; tc_allowedRoles := ct_allowedRoles c; tc_logFields := ct_logFields c |}.

(** ** The startup check *)
Definition blank (s : string) : bool := Num.trim s ==? "".

Definition named (tool : option string) : bool := match truthy tool with Some _ => true | None => false end.

(** [!n] of an optional number. *)
Definition falsy_number (n : option number) : bool :=
  match n with None => true | Some (S754_zero _) | Some S754_nan => true | Some _ => false end.

Definition schemaIsObject (text : string) : bool :=
  if text ==? "" then false
  else match Parse.JSON_parse (fun t => t) text with Ok (VObj _) => true | _ => false end.

Definition name_start (c : ascii) : bool :=
  let n := nat_of_ascii c in ((65 <=? n) && (n <=? 90))%nat || ((97 <=? n) && (n <=? 122))%nat || (n =? 95)%nat.
Definition name_char (c : ascii) : bool := name_start c || (let n := nat_of_ascii c in ((48 <=? n) && (n <=? 57))%nat || (n =? 45)%nat).
Definition path_segment (s : string) : bool := match s with String c r => name_start c && all_chars name_char r | "" => false end.

(** A path into the tool's own arguments: [$.] and names of word characters and dashes, dotted. *)
Definition ARGUMENT_PATH (path : string) : bool :=
  starts_with "$." path && forallb path_segment (Js.split_char "."%char (drop_str 2 path)).

(** The first entry of a list of checks that fails. *)
Fixpoint first_violation (checks : list (bool * string)) : option string :=
  match checks with
  | [] => None
  | (failed, message) :: checks => if failed then Some message else first_violation checks
  end.

Definition companionChecks (field : string) (companion : option string) (mapping : option (list (string * string))) : list (bool * string) :=
  let declared := default [] mapping in
  (named companion && (length declared =? 0)%nat, field +:+ "Tool is declared without " +:+ field +:+ "Arguments") ::
  (negb (named companion) && negb (length declared =? 0)%nat, field +:+ "Arguments is declared without a " +:+ field +:+ "Tool to call") ::
  map (fun p => (negb (ARGUMENT_PATH (snd p)),
                 field +:+ "Arguments." +:+ fst p +:+ " must read a path into this tool's own arguments, written $.name")) declared.

Definition selfCheck (field : string) (companion : option string) (c : Contract) : bool * string :=
  (match truthy companion with Some t => t ==? ct_toolId c | None => false end, field +:+ " refers to the tool itself").

Definition contractChecks (c : Contract) : list (bool * string) :=
  let retry := default defaultRetry (ct_retry c) in
  [(blank (ct_toolId c), "toolId is required"); (blank (ct_toolVersion c), "toolVersion is required"); (blank (ct_owner c), "owner is required");
   ((length (ct_allowedRoles c) =? 0)%nat || existsb blank (ct_allowedRoles c), "allowedRoles must contain non-empty roles");
   (negb (schemaIsObject (ct_inputSchema c)), "input_schema must be a JSON object");
   (negb (schemaIsObject (ct_outputSchema c)), "output_schema must be a JSON object");
   (Num.le (ct_timeoutMs c) (Num.of_Z 0), "timeout_ms is required");
   (Num.lt (ry_maxAttempts retry) (Num.of_Z 1), "retry.maxAttempts must be at least 1");
   (Num.lt (ry_multiplierMilli retry) (Num.of_Z 1000), "retry.multiplierMilli must be at least 1000");
   ((ct_effectClass c ==? e_none) && (ct_mode c !=? m_plain), "effect_class none has no side effect to bracket, so mode must be plain");
   ((ct_effectClass c ==? e_irreversible) && (ct_mode c !=? m_plain), "effect_class irreversible has no undo path, so mode must be plain");
   ((ct_effectClass c ==? e_irreversible) && (named (ct_compensateTool c) || named (ct_confirmTool c) || named (ct_cancelTool c)),
    "effect_class irreversible declares an undo path; a compensable effect is not irreversible");
   ((ct_effectClass c ==? e_reversible) && (ct_mode c ==? m_plain) && negb (named (ct_compensateTool c)),
    "effect_class reversible declares no undo path; a tool with no undo path must be registered irreversible");
   ((ct_mode c ==? m_tcc) && (negb (named (ct_confirmTool c)) || negb (named (ct_cancelTool c))), "mode tcc requires both confirmTool and cancelTool");
   ((ct_mode c ==? m_tcc) && falsy_number (ct_tryTimeoutSeconds c), "mode tcc requires a positive tryTimeoutSeconds");
   ((ct_mode c ==? m_saga) && negb (named (ct_compensateTool c)), "mode saga requires a compensateTool")] ++
  companionChecks "confirm" (ct_confirmTool c) (ct_confirmArguments c) ++
  companionChecks "cancel" (ct_cancelTool c) (ct_cancelArguments c) ++
  companionChecks "compensate" (ct_compensateTool c) (ct_compensateArguments c) ++
  [selfCheck "confirmTool" (ct_confirmTool c) c; selfCheck "cancelTool" (ct_cancelTool c) c;
   selfCheck "compensateTool" (ct_compensateTool c) c; selfCheck "statusTool" (ct_statusTool c) c].

Definition contractViolation (c : Contract) : option string := first_violation (contractChecks c).

(** ** The gateway's admission *)

(** The part of toolview.Tool the rules read; its numbers are uint32. *)
Record GatewayTool : Type := {
  gt_toolId : string;
  gt_toolVersion : string;
  gt_routeId : string;
  gt_owner : string;
  gt_protocol : string;
  gt_inputSchema : string;
  gt_outputSchema : string;
  gt_timeoutMs : Z;
  gt_maxAttempts : Z;
  gt_multiplierMilli : Z;
  gt_allowedRoles : list string;
  gt_effectClass : EffectClass;
  gt_mode : ToolMode;
  gt_compensationStyle : CompensationStyle;
  gt_tryTimeoutS : Z;
  gt_confirmTool : string;
  gt_cancelTool : string;
  gt_compensateTool : string;
  gt_statusTool : string;
  gt_confirmArguments : list (string * string);
  gt_cancelArguments : list (string * string);
  gt_compensateArguments : list (string * string)
}.

Inductive AdmissionCode : Type :=
| MALFORMED_CONTRACT | MISLABELLED_EFFECT_CLASS | NON_DELTA_COMPENSATION | INCOMPLETE_TCC_TRIPLE | INCOMPLETE_SAGA_COMPENSATION | INVALID_COMPANION_REFERENCE.

(** The white space [strings.TrimSpace] trims, within Latin-1. *)
Definition go_space (c : ascii) : bool := existsb (Nat.eqb (nat_of_ascii c)) [9; 10; 11; 12; 13; 32; 133; 160]%nat.
Definition go_blank (s : string) : bool := all_chars go_space s.

Definition role_start (c : ascii) : bool := let n := nat_of_ascii c in ((48 <=? n) && (n <=? 57))%nat || ((65 <=? n) && (n <=? 90))%nat || ((97 <=? n) && (n <=? 122))%nat.
Definition role_char (c : ascii) : bool := role_start c || existsb (Nat.eqb (nat_of_ascii c)) [45; 46; 58; 95]%nat.

(** [rolePattern]: a letter or digit, then at most 127 letters, digits, dots, underscores, colons and dashes. *)
Definition role_ok (role : string) : bool :=
  (role ==? "*") || match role with String c r => role_start c && all_chars role_char r && (String.length r <=? 127)%nat | "" => false end.

(** The first segment of a [$.name] path. *)
Definition argumentRoot (path : string) : option string :=
  if starts_with "$." path then
    match Js.split_char "."%char (drop_str 2 path) with root :: _ => if root ==? "" then None else Some root | [] => None end
  else None.

Section Admission.
(** [CompileSchema] of a registered schema succeeds; the properties a schema declares, none when it
    declares none. *)
Context (compiles : string -> bool) (declaredProperties : string -> list string).

Definition validateIdentity (t : GatewayTool) : option AdmissionCode :=
  if existsb go_blank [gt_toolId t; gt_toolVersion t; gt_routeId t; gt_owner t] then Some MALFORMED_CONTRACT
  else if gt_protocol t !=? "grpc" then Some MALFORMED_CONTRACT
  else if gt_timeoutMs t =? 0 then Some MALFORMED_CONTRACT
  else if gt_maxAttempts t =? 0 then Some MALFORMED_CONTRACT
  else if gt_multiplierMilli t <? 1000 then Some MALFORMED_CONTRACT
  else if (length (gt_allowedRoles t) =? 0)%nat then Some MALFORMED_CONTRACT
  else if negb (forallb role_ok (gt_allowedRoles t)) then Some MALFORMED_CONTRACT
  else if negb (compiles (gt_inputSchema t)) || negb (compiles (gt_outputSchema t)) then Some MALFORMED_CONTRACT else None.

Definition validateEffectClass (t : GatewayTool) : option AdmissionCode :=
  match gt_effectClass t with
  | e_none => if gt_mode t !=? m_plain then Some MISLABELLED_EFFECT_CLASS else None
  | e_irreversible =>
      if gt_mode t !=? m_plain then Some MISLABELLED_EFFECT_CLASS
      else if (gt_compensateTool t !=? "") || (gt_confirmTool t !=? "") || (gt_cancelTool t !=? "") then Some MISLABELLED_EFFECT_CLASS else None
  | e_reversible => if (gt_mode t ==? m_plain) && (gt_compensateTool t ==? "") then Some MISLABELLED_EFFECT_CLASS else None
  | e_bufferable => None
  end.

Definition validateCompensationStyle (t : GatewayTool) : option AdmissionCode :=
  match gt_compensationStyle t with snapshot_style => Some NON_DELTA_COMPENSATION | _ => None end.

Definition validateDeclaredCompanions (t : GatewayTool) : option AdmissionCode :=
  match gt_mode t with
  | m_tcc => if (gt_confirmTool t ==? "") || (gt_cancelTool t ==? "") then Some INCOMPLETE_TCC_TRIPLE
             else if gt_tryTimeoutS t =? 0 then Some INCOMPLETE_TCC_TRIPLE else None
  | m_saga => if gt_compensateTool t ==? "" then Some INCOMPLETE_SAGA_COMPENSATION else None
  | m_plain => None
  end.

Definition validateCompanionReferences (t : GatewayTool) : option AdmissionCode :=
  if existsb (fun companion => (companion !=? "") && (companion ==? gt_toolId t)) [gt_confirmTool t; gt_cancelTool t; gt_compensateTool t; gt_statusTool t]
  then Some INVALID_COMPANION_REFERENCE else None.

Definition path_admitted (properties : list string) (path : string) : bool :=
  match argumentRoot path with
  | None => false
  | Some root => match properties with [] => true | _ => includes root properties end
  end.

Definition arguments_admitted (properties : list string) (companion : string) (arguments : list (string * string)) : bool :=
  if companion ==? "" then (length arguments =? 0)%nat
  else negb (length arguments =? 0)%nat && forallb (fun p => path_admitted properties (snd p)) arguments.

Definition validateCompanionArguments (t : GatewayTool) : option AdmissionCode :=
  let properties := declaredProperties (gt_inputSchema t) in
  if arguments_admitted properties (gt_confirmTool t) (gt_confirmArguments t) && arguments_admitted properties (gt_cancelTool t) (gt_cancelArguments t) &&
     arguments_admitted properties (gt_compensateTool t) (gt_compensateArguments t) then None else Some INVALID_COMPANION_REFERENCE.

(** [ValidateStructure] *)
Definition ValidateStructure (t : GatewayTool) : option AdmissionCode :=
  match validateIdentity t with Some v => Some v | None =>
  match validateEffectClass t with Some v => Some v | None =>
  match validateCompensationStyle t with Some v => Some v | None =>
  match validateDeclaredCompanions t with Some v => Some v | None =>
  match validateCompanionReferences t with Some v => Some v | None => validateCompanionArguments t end end end end end.
End Admission.

(** A number a uint32 field can carry, in the form arithmetic leaves it. *)
Definition uint32 (n : number) : option Z :=
  match n with
  | S754_zero _ => Some 0
  | _ => z ← Num.to_Z n; if (0 <=? z) && (z <? 2 ^ 32) && (Num.of_Z z ==? n) then Some z else None
  end.

(** A contract as the gateway reads it; nothing arrives of a message whose numbers do not fit. *)
Definition FromProto (c : ToolContract) : option GatewayTool :=
  if negb (schemaIsObject (tc_inputSchema c)) || negb (schemaIsObject (tc_outputSchema c)) then None else
  timeout ← uint32 (tc_timeoutMs c); attempts ← uint32 (ry_maxAttempts (tc_retry c)); multiplier ← uint32 (ry_multiplierMilli (tc_retry c));
  _ ← uint32 (ry_initialBackoffMs (tc_retry c)); _ ← uint32 (ry_maxBackoffMs (tc_retry c));
  try_ ← uint32 (ts_tryTimeoutS (tc_txn c));
  let t := tc_txn c in
  Some {| gt_toolId := tc_toolId c; gt_toolVersion := tc_toolVersion c; gt_routeId := tc_routeId c; gt_owner := tc_owner c; gt_protocol := tc_protocol c;
          gt_inputSchema := tc_inputSchema c; gt_outputSchema := tc_outputSchema c; gt_timeoutMs := timeout; gt_maxAttempts := attempts;
          gt_multiplierMilli := multiplier; gt_allowedRoles := js_sort strcmp (JSet.of_list (tc_allowedRoles c));
          gt_effectClass := ts_effectClass t; gt_mode := ts_mode t; gt_compensationStyle := tc_compensationStyle c; gt_tryTimeoutS := try_;
          gt_confirmTool := ts_confirmTool t; gt_cancelTool := ts_cancelTool t; gt_compensateTool := ts_compensateTool t; gt_statusTool := ts_statusTool t;
          gt_confirmArguments := default [] (ts_confirmArguments t); gt_cancelArguments := default [] (ts_cancelArguments t);
          gt_compensateArguments := default [] (ts_compensateArguments t) |}.

(** ** What the startup check leaves to the gateway *)

(** Comparisons of constructors, decided. *)
Ltac settle_eqb := repeat match goal with
  | H : context [?a ==? ?b] |- _ => is_constructor a; is_constructor b; let v := eval vm_compute in (a ==? b) in change (a ==? b) with v in H
  | |- context [?a ==? ?b] => is_constructor a; is_constructor b; let v := eval vm_compute in (a ==? b) in change (a ==? b) with v
  end.

Lemma first_violation_None checks : first_violation checks = None <-> Forall (fun p => fst p = false) checks.
Proof.
  induction checks as [|[b m] checks IH]; cbn; [done|]. rewrite Forall_cons. cbn. destruct b; rewrite ?IH; naive_solver.
Qed.

Lemma named_default (o : option string) : named o = (default "" o !=? "").
Proof. unfold named. by destruct o as [[|c s]|]. Qed.

Lemma uint32_range n z : uint32 n = Some z -> 0 <= z < 2 ^ 32 /\ (n = Num.of_Z z \/ z = 0 /\ exists s, n = S754_zero s).
Proof.
  unfold uint32. destruct n as [s|s| |s m e]; [intros [= <-]; split; [lia|right; split; [done|by eexists]]|done|done|].
  intros (z' & _ & Hu)%bind_Some. destruct ((0 <=? z') && (z' <? 2 ^ 32)) eqn:Er; [|done]. destruct (Num.of_Z z' ==? _) eqn:Ee; [|done]. injection Hu as <-.
  apply eqb_true_1 in Ee. split; [lia|]. by left.
Qed.

Lemma uint32_le_zero n z : uint32 n = Some z -> Num.le n (Num.of_Z 0) = (z =? 0).
Proof.
  intros [Hr [->|[-> [s ->]]]]%uint32_range; [|by destruct s]. rewrite of_Z_le by lia. lia.
Qed.

Lemma uint32_lt n z k : uint32 n = Some z -> 0 < k < 2 ^ 32 -> Num.lt n (Num.of_Z k) = (z <? k).
Proof.
  intros [Hr [->|[-> [s ->]]]]%uint32_range Hk; [rewrite of_Z_lt by lia; done|].
  assert (Num.lt (S754_zero s) (Num.of_Z k) = Num.lt (Num.of_Z 0) (Num.of_Z k)) as -> by (by destruct s). rewrite of_Z_lt by lia. done.
Qed.

Lemma uint32_falsy n z : uint32 n = Some z -> falsy_number (Some n) = (z =? 0).
Proof.
  intros Hu. pose proof (uint32_le_zero n z Hu) as Hl. pose proof (uint32_range n z Hu) as [Hr [->|[-> [s ->]]]]; [|done].
  destruct z as [|p|p]; [done| |lia]. destruct (of_Z_exact p) as (m & -> & _); [lia|]. done.
Qed.

(** Text without the one character the gateway trims and the service does not. *)
Definition no_nel (s : string) : bool := all_chars (fun c => negb (nat_of_ascii c =? 133)%nat) s.

Lemma trim_spaces s : all_chars Num.is_space s = true -> Num.trim s = "".
Proof.
  intros Hs. unfold Num.trim. assert (Num.trim_left s = "") as ->; [|done]. induction s as [|c s IH]; [done|]. cbn in Hs |- *. apply andb_true_iff in Hs as [Hc Hs].
  rewrite Hc. by apply IH.
Qed.

Lemma blank_go s : blank s = false -> no_nel s = true -> go_blank s = false.
Proof.
  intros Hb Hn. apply not_true_iff_false. intros Hg. apply (proj1 (eqb_false _ _)) in Hb. apply Hb, trim_spaces. clear Hb.
  induction s as [|c s IH]; [done|]. cbn in *. apply andb_true_iff in Hg as [Hc Hg], Hn as [Hnc Hn]. apply andb_true_iff. split; [|by apply IH].
  clear -Hc Hnc. unfold go_space, Num.is_space in *. cbn in *. destruct (nat_of_ascii c =? 133)%nat; [done|]. exact Hc.
Qed.

Lemma split_char_nonempty sep s : Js.split_char sep s <> [].
Proof. destruct s as [|c s]; cbn; [done|]. destruct (c ==? sep); [done|]. by destruct (Js.split_char sep s). Qed.

(** A path the startup check accepts has a root. *)
Lemma path_root path : ARGUMENT_PATH path = true -> exists root, argumentRoot path = Some root.
Proof.
  unfold ARGUMENT_PATH, argumentRoot. intros [Hs Hp]%andb_true_iff. rewrite Hs. destruct (Js.split_char _ _) as [|root rest] eqn:E; [by apply split_char_nonempty in E|].
  cbn in Hp. apply andb_true_iff in Hp as [Hr _]. destruct root; [done|]. by eexists.
Qed.

(** The arguments the mapped paths start at are declared by the input schema, when it declares any. Whether
    a path has a first argument at all is not asked here. *)
Definition roots_declared (properties : list string) (mapping : option (list (string * string))) : bool :=
  forallb (fun p => match argumentRoot (snd p), properties with Some root, _ :: _ => includes root properties | _, _ => true end) (default [] mapping).

Lemma companion_admitted properties field tool mapping : Forall (fun p => fst p = false) (companionChecks field tool mapping) ->
  arguments_admitted properties (default "" tool) (default [] mapping) = roots_declared properties mapping.
Proof.
  unfold companionChecks, arguments_admitted, roots_declared. rewrite !Forall_cons. cbn [fst]. rewrite named_default. intros (H1 & H2 & H3).
  destruct (default "" tool ==? ""); cbn in H1, H2.
  - by destruct (default [] mapping).
  - rewrite H1. cbn [negb andb]. clear H1 H2. induction (default [] mapping) as [|p ps IH]; [done|]. cbn [map] in H3. apply Forall_cons in H3 as [Hp H3]. cbn [fst] in Hp.
    apply negb_false_iff in Hp. destruct (path_root _ Hp) as [root Hr]. cbn [forallb]. rewrite (IH H3). unfold path_admitted at 1. rewrite Hr. by destruct properties.
Qed.

(** What is sent of a contract. *)
Lemma contract_sent c routeId t : FromProto (buildContract c routeId) = Some t ->
  let retry := default defaultRetry (ct_retry c) in
  exists zt za zm zy, uint32 (ct_timeoutMs c) = Some zt /\ uint32 (ry_maxAttempts retry) = Some za /\ uint32 (ry_multiplierMilli retry) = Some zm /\
    uint32 (default (Num.of_Z 0) (ct_tryTimeoutSeconds c)) = Some zy /\
    t = {| gt_toolId := ct_toolId c; gt_toolVersion := ct_toolVersion c; gt_routeId := routeId; gt_owner := ct_owner c; gt_protocol := "grpc";
           gt_inputSchema := ct_inputSchema c; gt_outputSchema := ct_outputSchema c; gt_timeoutMs := zt; gt_maxAttempts := za; gt_multiplierMilli := zm;
           gt_allowedRoles := js_sort strcmp (JSet.of_list (ct_allowedRoles c)); gt_effectClass := ct_effectClass c; gt_mode := ct_mode c;
           gt_compensationStyle := if ct_compensating c then delta else not_compensating; gt_tryTimeoutS := zy;
           gt_confirmTool := default "" (ct_confirmTool c); gt_cancelTool := default "" (ct_cancelTool c);
           gt_compensateTool := default "" (ct_compensateTool c); gt_statusTool := default "" (ct_statusTool c);
           gt_confirmArguments := default [] (ct_confirmArguments c); gt_cancelArguments := default [] (ct_cancelArguments c);
           gt_compensateArguments := default [] (ct_compensateArguments c) |}.
Proof.
  unfold FromProto. destruct (_ || _); [done|]. cbn [tc_timeoutMs tc_retry tc_txn ts_tryTimeoutS buildContract].
  intros (zt & Et & (za & Ea & (zm & Em & (? & _ & (? & _ & (zy & Ey & [= <-])%bind_Some)%bind_Some)%bind_Some)%bind_Some)%bind_Some)%bind_Some.
  by exists zt, za, zm, zy.
Qed.

Lemma roles_kept (roles : list string) : (length (js_sort strcmp (JSet.of_list roles)) =? 0)%nat = (length roles =? 0)%nat.
Proof.
  rewrite length_js_sort. destruct roles as [|r roles]; [done|]. cbn [length Nat.eqb]. apply Nat.eqb_neq. intros Hl%nil_length_inv.
  assert (r ∈ JSet.of_list (r :: roles)) as Hin by (apply elem_of_JSet_of_list; left). rewrite Hl in Hin. by apply elem_of_nil in Hin.
Qed.

Lemma roles_forall p (roles : list string) : forallb p (js_sort strcmp (JSet.of_list roles)) = forallb p roles.
Proof.
  apply eq_iff_eq_true. rewrite !forallb_true. setoid_rewrite elem_of_js_sort. by setoid_rewrite elem_of_JSet_of_list.
Qed.

Section Mirror.
Context (compiles : string -> bool) (declaredProperties : string -> list string).

(** The rules the startup check does not apply: the route, which is not part of a contract, the spelling of
    roles, schemas that compile, and arguments the input schema declares. *)
Definition left_to_gateway (c : Contract) (routeId : string) : bool :=
  negb (go_blank routeId) && forallb role_ok (ct_allowedRoles c) &&
  compiles (ct_inputSchema c) && compiles (ct_outputSchema c) &&
  (let properties := declaredProperties (ct_inputSchema c) in
   roots_declared properties (ct_confirmArguments c) && roots_declared properties (ct_cancelArguments c) && roots_declared properties (ct_compensateArguments c)).

Lemma identity_mirrored c routeId t : forallb no_nel [ct_toolId c; ct_toolVersion c; ct_owner c] = true -> contractViolation c = None -> FromProto (buildContract c routeId) = Some t ->
  validateIdentity compiles t = None <->
  negb (go_blank routeId) && forallb role_ok (ct_allowedRoles c) && compiles (ct_inputSchema c) && compiles (ct_outputSchema c) = true.
Proof.
  intros Hnel Hv Ht. apply first_violation_None in Hv. unfold contractChecks in Hv. apply Forall_app in Hv as [Hv _]. rewrite !Forall_cons in Hv. cbn [fst] in Hv.
  destruct Hv as (Hid & Hver & Hown & Hroles & _ & _ & Htime & Hmax & Hmul & _). apply orb_false_iff in Hroles as [Hroles _].
  destruct (contract_sent _ _ _ Ht) as (zt & za & zm & zy & Et & Ea & Em & Ey & ->).
  rewrite (uint32_le_zero _ _ Et) in Htime. rewrite (uint32_lt _ _ 1 Ea) in Hmax by lia. rewrite (uint32_lt _ _ 1000 Em) in Hmul by lia.
  destruct (uint32_range _ _ Ea) as [Hra _].
  unfold validateIdentity. cbn [gt_toolId gt_toolVersion gt_routeId gt_owner gt_protocol gt_timeoutMs gt_maxAttempts gt_multiplierMilli gt_allowedRoles gt_inputSchema gt_outputSchema].
  cbn [forallb] in Hnel. rewrite !andb_true_iff in Hnel. destruct Hnel as (N1 & N2 & N3 & _).
  cbn [existsb]. rewrite (blank_go _ Hid N1), (blank_go _ Hver N2), (blank_go _ Hown N3). cbn [orb]. rewrite orb_false_r. destruct (go_blank routeId); [done|]. rewrite Htime. rewrite (proj2 (Z.eqb_neq za 0)) by lia. rewrite Hmul.
  rewrite roles_kept, roles_forall, Hroles. change ("grpc" !=? "grpc") with false. cbn [negb andb].
  destruct (forallb role_ok (ct_allowedRoles c)), (compiles (ct_inputSchema c)), (compiles (ct_outputSchema c)); done.
Qed.

(** The rules on effects and undo paths are the same on both sides. *)
Lemma undo_mirrored c routeId t : contractViolation c = None -> FromProto (buildContract c routeId) = Some t ->
  validateEffectClass t = None /\ validateCompensationStyle t = None /\ validateDeclaredCompanions t = None.
Proof.
  intros Hv Ht. apply first_violation_None in Hv. unfold contractChecks in Hv. apply Forall_app in Hv as [Hv _]. rewrite !Forall_cons in Hv. cbn [fst] in Hv.
  destruct Hv as (_ & _ & _ & _ & _ & _ & _ & _ & _ & H1 & H2 & H3 & H4 & H5 & H6 & H7 & _).
  destruct (contract_sent _ _ _ Ht) as (zt & za & zm & zy & _ & _ & _ & Ey & ->). rewrite !named_default in *.
  unfold validateEffectClass, validateCompensationStyle, validateDeclaredCompanions.
  cbn [gt_effectClass gt_mode gt_confirmTool gt_cancelTool gt_compensateTool gt_compensationStyle gt_tryTimeoutS]. rewrite !negb_involutive in *.
  assert (ct_mode c = m_tcc -> (zy =? 0) = false) as Hy.
  { intros Hm. rewrite Hm in H6. cbn in H6. destruct (ct_tryTimeoutSeconds c) as [n|]; [|done]. by rewrite <- (uint32_falsy n zy Ey). }
  split_and!.
  - destruct (ct_effectClass c); settle_eqb; cbn [andb] in *; rewrite ?H1, ?H2, ?H3, ?H4; done.
  - by destruct (ct_compensating c).
  - destruct (ct_mode c); settle_eqb; cbn [andb] in *; rewrite ?H5, ?H7, ?Hy; done.
Qed.

Lemma references_mirrored c routeId t : contractViolation c = None -> FromProto (buildContract c routeId) = Some t -> validateCompanionReferences t = None.
Proof.
  intros Hv Ht. apply first_violation_None in Hv. unfold contractChecks in Hv. rewrite !Forall_app in Hv. destruct Hv as (_ & _ & _ & _ & Hv).
  rewrite !Forall_cons in Hv. unfold selfCheck in Hv. cbn [fst] in Hv. destruct Hv as (H1 & H2 & H3 & H4 & _).
  destruct (contract_sent _ _ _ Ht) as (zt & za & zm & zy & _ & _ & _ & _ & ->). unfold validateCompanionReferences.
  assert (forall o : option string, match truthy o with Some t => t ==? ct_toolId c | None => false end = (default "" o !=? "") && (default "" o ==? ct_toolId c)) as Ho by (by intros [[|]|]).
  rewrite !Ho in *. cbn [existsb gt_toolId gt_confirmTool gt_cancelTool gt_compensateTool gt_statusTool]. by rewrite H1, H2, H3, H4.
Qed.

Lemma arguments_mirrored c routeId t : contractViolation c = None -> FromProto (buildContract c routeId) = Some t ->
  let properties := declaredProperties (ct_inputSchema c) in
  validateCompanionArguments declaredProperties t = None <->
  roots_declared properties (ct_confirmArguments c) && roots_declared properties (ct_cancelArguments c) && roots_declared properties (ct_compensateArguments c) = true.
Proof.
  intros Hv Ht properties. apply first_violation_None in Hv. unfold contractChecks in Hv. rewrite !Forall_app in Hv. destruct Hv as (_ & H1 & H2 & H3 & _).
  destruct (contract_sent _ _ _ Ht) as (zt & za & zm & zy & _ & _ & _ & _ & ->). unfold validateCompanionArguments.
  cbn [gt_inputSchema gt_confirmTool gt_cancelTool gt_compensateTool gt_confirmArguments gt_cancelArguments gt_compensateArguments].
  rewrite (companion_admitted _ _ _ _ H1), (companion_admitted _ _ _ _ H2), (companion_admitted _ _ _ _ H3). fold properties. by destruct (_ && _).
Qed.

(** C29. The startup check mirrors the gateway's admission: of a contract it passes and a message can
    carry, the gateway's structural rules accept exactly those that also meet the rules left to it, a route
    that is not blank, the spelling of roles, schemas that compile, and argument paths that start at a
    declared argument. Identity, owner, effect classes, undo paths, companions, the form of argument paths
    and budgets are already decided. Tool id, version and owner hold no U+0085, which the gateway trims and
    the service does not. *)
Theorem sdk_admission c routeId t :
  forallb no_nel [ct_toolId c; ct_toolVersion c; ct_owner c] = true ->
  contractViolation c = None -> FromProto (buildContract c routeId) = Some t ->
  ValidateStructure compiles declaredProperties t = None <-> left_to_gateway c routeId = true.
Proof.
  intros Hn Hv Ht. destruct (undo_mirrored _ _ _ Hv Ht) as (E1 & E2 & E3). pose proof (references_mirrored _ _ _ Hv Ht) as E4.
  pose proof (identity_mirrored _ _ _ Hn Hv Ht) as Hi. pose proof (arguments_mirrored _ _ _ Hv Ht) as Ha. unfold ValidateStructure, left_to_gateway. rewrite E1, E2, E3, E4.
  rewrite andb_true_iff, <- Hi, <- Ha. destruct (validateIdentity compiles t); naive_solver.
Qed.
End Mirror.

(** ** A reservation with its confirm and cancel *)
Definition hold_contract (roles : list string) : Contract :=
  {| ct_toolId := "inventory.hold"; ct_toolVersion := "1.0.0"; ct_description := None; ct_inputSchema := "{}"; ct_outputSchema := "{}";
     ct_effectClass := e_reversible; ct_mode := m_tcc; ct_idempotencyKeyPath := Some "$.order_id"; ct_idempotentRetryable := true;
     ct_tryTimeoutSeconds := Some (Num.of_Z 30); ct_confirmTool := Some "inventory.confirm"; ct_cancelTool := Some "inventory.release";
     ct_compensateTool := None; ct_statusTool := None; ct_confirmArguments := Some [("hold_id", "$.order_id")];
     ct_cancelArguments := Some [("hold_id", "$.order_id")]; ct_compensateArguments := None; ct_compensating := false; ct_footprint := ["inventory"];
     ct_writes := ["inventory"]; ct_logFields := []; ct_timeoutMs := Num.of_Z 2000; ct_retry := None; ct_owner := "supply"; ct_allowedRoles := roles |}.

Definition hold_tool (roles : list string) : GatewayTool :=
  match FromProto (buildContract (hold_contract roles) "inventory-service") with
  | Some t => t
  | None => {| gt_toolId := ""; gt_toolVersion := ""; gt_routeId := ""; gt_owner := ""; gt_protocol := ""; gt_inputSchema := ""; gt_outputSchema := ""; gt_timeoutMs := 0;
               gt_maxAttempts := 0; gt_multiplierMilli := 0; gt_allowedRoles := []; gt_effectClass := e_none; gt_mode := m_plain; gt_compensationStyle := delta; gt_tryTimeoutS := 0;
               gt_confirmTool := ""; gt_cancelTool := ""; gt_compensateTool := ""; gt_statusTool := ""; gt_confirmArguments := []; gt_cancelArguments := []; gt_compensateArguments := [] |}
  end.

(** A gateway that compiles every schema and finds no declared properties. *)
Definition any_schema (text : string) : bool := schemaIsObject text.
Definition no_properties (text : string) : list string := [].

Lemma sdk_admission_witness :
  (ValidateStructure any_schema no_properties (hold_tool ["buyer"]) = None <-> left_to_gateway any_schema no_properties (hold_contract ["buyer"]) "inventory-service" = true) /\
  left_to_gateway any_schema no_properties (hold_contract ["buyer"]) "inventory-service" = true.
Proof.
  split; [|vm_compute; reflexivity].
  apply (sdk_admission any_schema no_properties (hold_contract ["buyer"]) "inventory-service" (hold_tool ["buyer"])); vm_compute; reflexivity.
Defined.

(** Two promises of the startup check that do not hold: it passes contracts the gateway refuses. *)
Example role_with_a_space :
  contractViolation (hold_contract ["store manager"]) = None /\
  ValidateStructure any_schema no_properties (hold_tool ["store manager"]) = Some MALFORMED_CONTRACT.
Proof. vm_compute. auto. Qed.

Example next_line_is_blank : blank (String "133" "") = false /\ go_blank (String "133" "") = true.
Proof. vm_compute. auto. Qed.
