(* ===== verification/SdkService.v ===== *)
(** * A tool service (sdk/typescript/service.ts)

    What a service holds, what it sends the gateway, and one attempt executed. The gateway's registration
    surface is an interface: its answers are those of [RegistryService], the generated client that calls
    it is not modelled. Handlers are the service author's functions. *)

From S2P Require Import Prelude Collections Number Json JsonParse JsText Events CheckRules Sdk.

Record ServiceConfig : Type := { cg_instanceId : string; cg_routeId : string; cg_target : string; cg_leaseTtlMs : option Z; cg_heartbeatIntervalMs : option Z }.

Definition DEFAULT_LEASE_TTL_MS : Z := 30000.
Definition DEFAULT_HEARTBEAT_INTERVAL_MS : Z := 5000.

(** One attempt as a handler sees it, and its answer: the outcome as the handler wrote it. *)
Record Call : Type := {
  cl_runId : string; cl_vertexId : string; cl_scopeId : string; cl_attemptNo : Z; cl_toolId : string; cl_toolVersion : string;
  cl_idempotencyKey : string; cl_args : value; cl_deadline : option string
}.
Record HandlerResult : Type := { hr_outcome : value; hr_value : value; hr_error : option string }.
Definition Handler : Type := Call -> result HandlerResult.

Record Tool : Type := { tl_contract : Contract; tl_handler : Handler }.

Record ToolService : Type := {
  sv_config : ServiceConfig;
  sv_tools : list (string * Tool);
  sv_contracts : list (string * ToolContract);
  sv_serving : bool;
  (** The interval of the running heartbeat. *)
  sv_heartbeat : option Z
}.

(** [new ToolService(config)] *)
Definition newService (config : ServiceConfig) : result ToolService :=
  if (cg_instanceId config ==? "") || (cg_routeId config ==? "") || (cg_target config ==? "") then Throw "sdk: instanceId, routeId, and target are all required"
  else Ok {| sv_config := config; sv_tools := []; sv_contracts := []; sv_serving := false; sv_heartbeat := None |}.

Definition with_tool (s : ToolService) (t : Tool) : ToolService :=
  let id := ct_toolId (tl_contract t) in
  {| sv_config := sv_config s; sv_tools := JMap.set (sv_tools s) id t;
     sv_contracts := JMap.set (sv_contracts s) id (buildContract (tl_contract t) (cg_routeId (sv_config s))); sv_serving := sv_serving s; sv_heartbeat := sv_heartbeat s |}.

(** [declare(...tools)]: the service as it is left, and whether it threw. *)
Fixpoint declare (s : ToolService) (tools : list Tool) : ToolService * result unit :=
  match tools with
  | [] => (s, Ok tt)
  | t :: tools =>
      let id := ct_toolId (tl_contract t) in
      match contractViolation (tl_contract t) with
      | Some violation => (s, Throw ("sdk: " +:+ id +:+ " is not registrable: " +:+ violation))
      | None => if JMap.has (sv_tools s) id then (s, Throw ("sdk: " +:+ id +:+ " is declared twice")) else declare (with_tool s t) tools
      end
  end.

Definition setTarget (s : ToolService) (target : string) : ToolService :=
  let c := sv_config s in
  {| sv_config := {| cg_instanceId := cg_instanceId c; cg_routeId := cg_routeId c; cg_target := target; cg_leaseTtlMs := cg_leaseTtlMs c; cg_heartbeatIntervalMs := cg_heartbeatIntervalMs c |};
     sv_tools := sv_tools s; sv_contracts := sv_contracts s; sv_serving := sv_serving s; sv_heartbeat := sv_heartbeat s |}.

Definition setServing (s : ToolService) (serving : bool) : ToolService :=
  {| sv_config := sv_config s; sv_tools := sv_tools s; sv_contracts := sv_contracts s; sv_serving := serving; sv_heartbeat := sv_heartbeat s |}.

(** [[...keys].sort().map((name) => contracts.get(name)!)] *)
Definition declaredContracts (s : ToolService) : list ToolContract :=
  omap (JMap.get (sv_contracts s)) (js_sort strcmp (JMap.keys (sv_contracts s))).

(** ** Talking to the gateway *)
Record InstanceInfo : Type := { in_instanceId : string; in_routeId : string; in_target : string; in_leaseTtlMs : Z }.
Record RegisterRequest : Type := { rg_instance : InstanceInfo; rg_tools : list ToolContract; rg_serving : bool }.

Definition registration (s : ToolService) : RegisterRequest :=
  let c := sv_config s in
  {| rg_instance := {| in_instanceId := cg_instanceId c; in_routeId := cg_routeId c; in_target := cg_target c; in_leaseTtlMs := default DEFAULT_LEASE_TTL_MS (cg_leaseTtlMs c) |};
     rg_tools := declaredContracts s; rg_serving := sv_serving s |}.

(** The registration surface: each call answers, or fails on the way there or back; an instance is known
    from its registration until the gateway forgets it. *)
Class RegistryService (G : Type) : Type := {
  rs_register : G -> RegisterRequest -> G * result (list (string * string));
  rs_heartbeat : G -> string -> bool -> G * result bool;
  rs_deregister : G -> string -> G * result unit;
  rs_knows : G -> string -> bool;
  rs_register_knows g rq g' statuses : rs_register g rq = (g', Ok statuses) -> rs_knows g' (in_instanceId (rg_instance rq)) = true;
  rs_heartbeat_answers g id serving g' known : rs_heartbeat g id serving = (g', Ok known) -> known = rs_knows g' id
}.

Section Lifecycle.
Context {G : Type} `{RegistryService G}.

Definition register (s : ToolService) (g : G) : G * result (list (string * string)) := rs_register g (registration s).

(** One beat of [start]: its errors are logged and nothing more. *)
Definition beat (s : ToolService) (g : G) : G * result unit :=
  match rs_heartbeat g (cg_instanceId (sv_config s)) (sv_serving s) with
  | (g, Throw msg) => (g, Throw msg)
  | (g, Ok true) => (g, Ok tt)
  | (g, Ok false) => let '(g, r) := register s g in (g, _ ← r; Ok tt)
  end.

Definition startHeartbeat (s : ToolService) : ToolService :=
  {| sv_config := sv_config s; sv_tools := sv_tools s; sv_contracts := sv_contracts s; sv_serving := sv_serving s;
     sv_heartbeat := Some (default DEFAULT_HEARTBEAT_INTERVAL_MS (cg_heartbeatIntervalMs (sv_config s))) |}.

(** [stop()]: the error of the deregistration is logged. *)
Definition stopService (s : ToolService) (g : G) : ToolService * G :=
  let s := setServing s false in
  let g := fst (rs_deregister g (cg_instanceId (sv_config s))) in
  ({| sv_config := sv_config s; sv_tools := sv_tools s; sv_contracts := sv_contracts s; sv_serving := sv_serving s; sv_heartbeat := None |}, g).
End Lifecycle.

(** ** One attempt *)
Record ExecuteRequest : Type := {
  ex_runId : string; ex_vertexId : string; ex_scopeId : string; ex_attemptNo : Z; ex_toolId : string; ex_toolVersion : string;
  ex_idempotencyKey : string; ex_arguments : string; ex_deadline : option string
}.
Inductive WireOutcome : Type := SUCCEEDED | RETRYABLE_FAILURE | PERMANENT_FAILURE | UNKNOWN.
Record ExecuteResponse : Type := { er_outcome : WireOutcome; er_result : string; er_error : string }.

(** [OUTCOMES[outcome]], the names every object inherits aside. *)
Definition OUTCOMES (outcome : value) : option WireOutcome :=
  let s := Js.to_text outcome in
  if s ==? "succeeded" then Some SUCCEEDED else if s ==? "retryable-failure" then Some RETRYABLE_FAILURE
  else if s ==? "permanent-failure" then Some PERMANENT_FAILURE else if s ==? "unknown" then Some UNKNOWN else None.

Definition callOf (rq : ExecuteRequest) (args : value) : Call :=
  {| cl_runId := ex_runId rq; cl_vertexId := ex_vertexId rq; cl_scopeId := ex_scopeId rq; cl_attemptNo := ex_attemptNo rq; cl_toolId := ex_toolId rq;
     cl_toolVersion := ex_toolVersion rq; cl_idempotencyKey := ex_idempotencyKey rq; cl_args := args; cl_deadline := ex_deadline rq |}.

Definition respond (r : HandlerResult) : ExecuteResponse :=
  match OUTCOMES (hr_outcome r) with
  | None => {| er_outcome := UNKNOWN; er_result := ""; er_error := "handler returned an unknown outcome " +:+ Js.to_text (hr_outcome r) |}
  | Some outcome =>
      {| er_outcome := outcome; er_result := match hr_value r with VUndef => "" | v => Stringify.compact_text v end; er_error := default "" (hr_error r) |}
  end.

(** [execute]: the calls made to handlers, and the answer; an exception of the parser or of the handler
    leaves the method. *)
Definition execute (s : ToolService) (rq : ExecuteRequest) : list Call * result ExecuteResponse :=
  match JMap.get (sv_tools s) (ex_toolId rq) with
  | None => ([], Ok {| er_outcome := PERMANENT_FAILURE; er_result := ""; er_error := cg_instanceId (sv_config s) +:+ " does not serve " +:+ ex_toolId rq |})
  | Some tool =>
      match (if ex_arguments rq ==? "" then Ok (VObj []) else Parse.JSON_parse (fun t => "Unexpected token in " +:+ t) (ex_arguments rq)) with
      | Throw msg => ([], Throw msg)
      | Ok args => let call := callOf rq args in ([call], r ← tl_handler tool call; Ok (respond r))
      end
  end.

(** ** What a service holds *)
Record service_ok (s : ToolService) : Prop := {
  so_keys : JMap.keys (sv_contracts s) = JMap.keys (sv_tools s);
  so_NoDup : NoDup (JMap.keys (sv_tools s));
  so_tools : forall id t, JMap.get (sv_tools s) id = Some t ->
    ct_toolId (tl_contract t) = id /\ contractViolation (tl_contract t) = None /\
    JMap.get (sv_contracts s) id = Some (buildContract (tl_contract t) (cg_routeId (sv_config s)))
}.

Lemma with_tool_ok s t : service_ok s -> contractViolation (tl_contract t) = None -> ct_toolId (tl_contract t) ∉ JMap.keys (sv_tools s) -> service_ok (with_tool s t).
Proof.
  intros [Hk Hn Ht] Hv Hf. split; cbn.
  - rewrite !set_fresh by (by rewrite ?Hk). unfold JMap.keys in *. rewrite !map_app, Hk. done.
  - rewrite set_fresh by done. unfold JMap.keys in *. rewrite map_app. apply NoDup_app. split_and!; [done| |apply NoDup_singleton].
    intros x Hx ->%list_elem_of_singleton. done.
  - intros id u. rewrite !get_set. destruct (ct_toolId (tl_contract t) ==? id) eqn:E; [|apply Ht]. apply eqb_true_1 in E. intros [= <-]. done.
Qed.

(** Whatever is declared, and wherever a declaration stops, a service holds contracts it may register. *)
Lemma declare_ok tools s s' r : service_ok s -> declare s tools = (s', r) -> service_ok s'.
Proof.
  revert s; induction tools as [|t tools IH]; intros s Hs; cbn [declare]; [by intros [= <- _]|].
  destruct (contractViolation (tl_contract t)) eqn:Ev; [by intros [= <- _]|]. destruct (JMap.has _ _) eqn:Eh; [by intros [= <- _]|].
  apply IH, with_tool_ok; [done|done|]. by apply has_keys_false.
Qed.

Lemma newService_ok config s : newService config = Ok s -> service_ok s.
Proof. unfold newService. destruct (_ || _); [done|]. intros [= <-]. split; [done|constructor|done]. Qed.

(** The contracts a successful declaration adds, in the order they came. *)
Definition entry (route : string) (t : Tool) : string * ToolContract := (ct_toolId (tl_contract t), buildContract (tl_contract t) route).

Lemma declare_contracts tools s s' : service_ok s -> declare s tools = (s', Ok tt) ->
  sv_config s' = sv_config s /\ sv_serving s' = sv_serving s /\ sv_contracts s' = sv_contracts s ++ map (entry (cg_routeId (sv_config s))) tools.
Proof.
  revert s; induction tools as [|t tools IH]; intros s Hs; cbn [declare]; [intros [= <-]; by rewrite app_nil_r|].
  destruct (contractViolation (tl_contract t)) eqn:Ev; [done|]. destruct (JMap.has _ _) eqn:Eh; [done|]. apply has_keys_false in Eh. intros Hd.
  destruct (IH (with_tool s t) (with_tool_ok s t Hs Ev Eh) Hd) as (H1 & H2 & H3). split_and!; [done|done|]. rewrite H3. cbn. rewrite set_fresh by (by rewrite (so_keys s Hs)).
  by rewrite <- app_assoc.
Qed.

Lemma contracts_NoDup s : service_ok s -> NoDup (JMap.keys (sv_contracts s)).
Proof. intros Hs. rewrite (so_keys s Hs). apply Hs. Qed.

(** The order of two permuted maps does not show in what they are read for. *)
Lemma get_perm {A} (l1 l2 : list (string * A)) k : NoDup (JMap.keys l1) -> l1 ≡ₚ l2 -> JMap.get l1 k = JMap.get l2 k.
Proof.
  intros Hn Hp. assert (NoDup (JMap.keys l2)) as Hn2 by (refine (proj1 (NoDup_Permutation_proper _ _ _) Hn); by apply Permutation_map). apply option_eq. intros a.
  split; intros Hg%get_Some_elem; (apply get_elem; [done|]); [by rewrite <- Hp|by rewrite Hp].
Qed.

Lemma declared_perm s1 s2 : service_ok s1 -> sv_contracts s1 ≡ₚ sv_contracts s2 -> declaredContracts s1 = declaredContracts s2.
Proof.
  intros H1 Hp. unfold declaredContracts. assert (js_sort strcmp (JMap.keys (sv_contracts s1)) = js_sort strcmp (JMap.keys (sv_contracts s2))) as ->.
  { refine (js_sort_perm strcmp _ _ (fun x y _ _ => strcmp_eq x y) _). by apply Permutation_map. }
  induction (js_sort strcmp _) as [|k ks IH]; [done|]. cbn [omap list_omap]. rewrite (get_perm _ _ k (contracts_NoDup s1 H1) Hp).
  by destruct (JMap.get _ k); rewrite IH.
Qed.

(** A declaration goes through exactly when every contract is registrable and no name comes twice. *)
Definition declarable (s : ToolService) (tools : list Tool) : Prop :=
  Forall (fun t => contractViolation (tl_contract t) = None) tools /\ NoDup (JMap.keys (sv_tools s) ++ map (fun t => ct_toolId (tl_contract t)) tools).

Lemma with_tool_keys s t : ct_toolId (tl_contract t) ∉ JMap.keys (sv_tools s) ->
  JMap.keys (sv_tools (with_tool s t)) = JMap.keys (sv_tools s) ++ [ct_toolId (tl_contract t)].
Proof. intros Hf. cbn. rewrite set_fresh by done. unfold JMap.keys. by rewrite map_app. Qed.

Lemma declare_iff tools s : service_ok s -> (exists s', declare s tools = (s', Ok tt)) <-> declarable s tools.
Proof.
  revert s; induction tools as [|t tools IH]; intros s Hs; cbn [declare].
  { split; [|by eexists]. intros _. split; [constructor|]. cbn. rewrite app_nil_r. apply Hs. }
  unfold declarable. rewrite Forall_cons. cbn [map].
  destruct (contractViolation (tl_contract t)) eqn:Ev; [split; [by intros [s' [=]]|by intros [[[=]] _]]|].
  destruct (JMap.has _ _) eqn:Eh.
  { split; [by intros [s' [=]]|]. intros [_ (_ & Hd & _)%NoDup_app]. apply has_keys in Eh. destruct (Hd _ Eh). left. }
  apply has_keys_false in Eh. rewrite (IH _ (with_tool_ok s t Hs Ev Eh)). unfold declarable. rewrite (with_tool_keys s t Eh), <- app_assoc. cbn [app]. naive_solver.
Qed.

Lemma declarable_perm s tools1 tools2 : tools1 ≡ₚ tools2 -> declarable s tools1 -> declarable s tools2.
Proof.
  intros Hp [Hv Hn]. split; [by rewrite <- Hp|]. refine (proj1 (NoDup_Permutation_proper _ _ _) Hn). by apply Permutation_app, Permutation_map.
Qed.

(** What is sent: the declared contracts, one per name, in the order of the names. *)
Lemma declared_names s : service_ok s -> (forall id c, JMap.get (sv_contracts s) id = Some c -> tc_toolId c = id) ->
  map tc_toolId (declaredContracts s) = js_sort strcmp (JMap.keys (sv_contracts s)).
Proof.
  intros Hs Hid. unfold declaredContracts. assert (forall k, k ∈ js_sort strcmp (JMap.keys (sv_contracts s)) -> is_Some (JMap.get (sv_contracts s) k)) as Hg.
  { intros k Hk%elem_of_js_sort. apply elem_of_map in Hk as ([k0 c] & -> & Hk). exists c. by apply get_elem; [apply contracts_NoDup|]. }
  induction (js_sort strcmp _) as [|k ks IH]; [done|]. cbn [omap list_omap]. destruct (Hg k) as [c Hc]; [left|]. rewrite Hc. cbn [map].
  f_equal; [by apply Hid|]. apply IH. intros j Hj. apply Hg. by right.
Qed.

(** Two services of one configuration that declare the same tools in whatever order accept or refuse
    them alike, and what they then register with the gateway is the same message: the contracts built
    from the declarations, in the order of their names, which no two of them share. *)
Theorem registration_stable config s tools1 tools2 s1 :
  newService config = Ok s -> tools1 ≡ₚ tools2 -> declare s tools1 = (s1, Ok tt) ->
  (exists s2, declare s tools2 = (s2, Ok tt) /\ registration s2 = registration s1) /\
  map tc_toolId (rg_tools (registration s1)) = js_sort strcmp (map (fun t => ct_toolId (tl_contract t)) tools1) /\
  NoDup (map tc_toolId (rg_tools (registration s1))) /\
  (forall c, c ∈ rg_tools (registration s1) -> exists t, t ∈ tools1 /\ contractViolation (tl_contract t) = None /\ c = buildContract (tl_contract t) (cg_routeId config)).
Proof.
  intros Hc Hp H1. pose proof (newService_ok _ _ Hc) as Hs. pose proof (declare_ok _ _ _ _ Hs H1) as Hs1.
  destruct (declare_contracts _ _ _ Hs H1) as (C1 & S1 & K1). assert (sv_contracts s = [] /\ sv_config s = config) as [E0 Ec] by (unfold newService in Hc; destruct (_ || _); naive_solver).
  rewrite E0, Ec in *. cbn [app] in K1.
  assert (JMap.keys (sv_contracts s1) = map (fun t => ct_toolId (tl_contract t)) tools1) as Ek by (unfold JMap.keys; rewrite K1, map_map; done).
  destruct (proj1 (declare_iff tools1 s Hs) (ex_intro _ _ H1)) as [Hv Hn].
  assert (forall id c, JMap.get (sv_contracts s1) id = Some c -> exists t, t ∈ tools1 /\ (id, c) = entry (cg_routeId config) t) as Hg.
  { intros id c Hget%get_Some_elem. rewrite K1 in Hget. apply elem_of_map in Hget as (t & -> & Ht). by exists t. }
  pose proof (declared_names s1 Hs1) as Hnames. split_and!.
  - destruct (proj2 (declare_iff tools2 s Hs)) as [s2 H2]; [apply (declarable_perm _ tools1); [done|]; apply declare_iff; [done|by exists s1]|].
    exists s2. split; [done|]. destruct (declare_contracts _ _ _ Hs H2) as (C2 & S2 & K2). rewrite E0, Ec in *. cbn [app] in K2.
    unfold registration. rewrite C1, C2, S1, S2. f_equal. symmetry. apply declared_perm; [done|]. rewrite K1, K2. by apply Permutation_map.
  - cbn. rewrite Hnames, Ek; [done|]. intros id c (t & _ & [= -> ->])%Hg. done.
  - cbn. rewrite Hnames; [apply NoDup_js_sort, contracts_NoDup, Hs1|]. intros id c (t & _ & [= -> ->])%Hg. done.
  - cbn. unfold declaredContracts. intros c (id & _ & (t & Ht & [= -> ->])%Hg)%list_elem_of_omap. exists t. split_and!; [done| |done]. by rewrite Forall_forall in Hv; apply Hv.
Qed.

(** ** One attempt, one call *)
Lemma declare_tools tools s s' r id t : declare s tools = (s', r) -> JMap.get (sv_tools s') id = Some t -> JMap.get (sv_tools s) id = Some t \/ t ∈ tools.
Proof.
  revert s; induction tools as [|u tools IH]; intros s; cbn [declare]; [intros [= <- _]; by left|].
  destruct (contractViolation (tl_contract u)); [intros [= <- _]; by left|]. destruct (JMap.has _ _); [intros [= <- _]; by left|].
  intros Hd Hg. destruct (IH _ Hd Hg) as [H|]; [|right; by right]. cbn in H. rewrite get_set in H.
  destruct (_ ==? id); [injection H as <-; right; left|by left].
Qed.

(** The arguments a handler is given: none, or the value the request's text spells. *)
Definition args_of (rq : ExecuteRequest) (args : value) : Prop :=
  if ex_arguments rq ==? "" then args = VObj [] else exists f, Parse.JSON_parse f (ex_arguments rq) = Ok args.

Lemma respond_succeeded r : er_outcome (respond r) = SUCCEEDED -> Js.to_text (hr_outcome r) = "succeeded".
Proof.
  unfold respond, OUTCOMES. destruct (Js.to_text _ ==? "succeeded") eqn:E; [by apply eqb_true_1 in E|].
  repeat (destruct (Js.to_text _ ==? _); [done|]). done.
Qed.

(** C30. Executing a request calls a handler at most once, and only the handler of a tool this service
    declared under the requested name, whose contract the startup check passed, with the attempt's own
    identity, idempotency key and arguments; a name it did not declare is a permanent failure with no
    call at all; and success is answered only when that one call returned it. *)
Theorem execute_once config s tools s' r rq calls answer :
  newService config = Ok s -> declare s tools = (s', r) -> execute s' rq = (calls, answer) ->
  (calls = [] \/ exists t args, t ∈ tools /\ ct_toolId (tl_contract t) = ex_toolId rq /\ contractViolation (tl_contract t) = None /\ args_of rq args /\
     calls = [callOf rq args] /\ answer = (h ← tl_handler t (callOf rq args); Ok (respond h))) /\
  (Forall (fun t => ct_toolId (tl_contract t) <> ex_toolId rq) tools ->
     calls = [] /\ exists why, answer = Ok {| er_outcome := PERMANENT_FAILURE; er_result := ""; er_error := why |}) /\
  (forall response, answer = Ok response -> er_outcome response = SUCCEEDED ->
     exists t call h, t ∈ tools /\ calls = [call] /\ tl_handler t call = Ok h /\ Js.to_text (hr_outcome h) = "succeeded").
Proof.
  intros Hc Hd. pose proof (declare_ok _ _ _ _ (newService_ok _ _ Hc) Hd) as Hs'. unfold execute. destruct (JMap.get (sv_tools s') (ex_toolId rq)) as [t|] eqn:Et.
  2: { intros [= <- <-]. split_and!; [by left|by eauto|]. intros response [= <-]. done. }
  destruct (so_tools s' Hs' _ _ Et) as (Hid & Hv & _). assert (t ∈ tools) as Ht.
  { destruct (declare_tools _ _ _ _ _ _ Hd Et) as [H|]; [|done]. unfold newService in Hc. destruct (_ || _); [done|]. by injection Hc as <-. }
  destruct (if ex_arguments rq ==? "" then _ else _) as [args|] eqn:Ea; intros [= <- <-].
  - assert (args_of rq args) as Hargs by (unfold args_of; destruct (ex_arguments rq ==? ""); [by injection Ea as <-|by eexists]). split_and!.
    + right. exists t, args. done.
    + intros Hf. rewrite Forall_forall in Hf. destruct (Hf t Ht Hid).
    + intros response. destruct (tl_handler t (callOf rq args)) as [h|] eqn:Eh; [|done]. intros [= <-] Ho%respond_succeeded. by exists t, (callOf rq args), h.
  - split_and!; [by left| |done]. intros Hf. rewrite Forall_forall in Hf. destruct (Hf t Ht Hid).
Qed.

(** A heartbeat that goes through leaves the instance known to the gateway, registered anew if it had
    been forgotten; a beat that fails is only logged, and the next one tries again. *)
Lemma beat_known {G} `{RegistryService G} s (g g' : G) : beat s g = (g', Ok tt) -> rs_knows g' (cg_instanceId (sv_config s)) = true.
Proof.
  unfold beat, register. destruct (rs_heartbeat _ _ _) as [g1 [[]|]] eqn:Eh; [..|done].
  - intros [= <-]. by rewrite <- (rs_heartbeat_answers _ _ _ _ _ Eh).
  - destruct (rs_register g1 _) as [g2 [statuses|]] eqn:Er; [|done]. intros [= <-]. exact (rs_register_knows _ _ _ _ Er).
Qed.

(** ** A gateway, and a service *)

(** A gateway in memory: the instances it holds and what each registered last. *)
#[export] Instance MemoryRegistry : RegistryService (list (string * RegisterRequest)).
Proof.
  refine {| rs_register g rq := (JMap.set g (in_instanceId (rg_instance rq)) rq, Ok (map (fun c => (tc_toolId c, "accepted")) (rg_tools rq)));
            rs_heartbeat g id serving := (g, Ok (JMap.has g id)); rs_deregister g id := (JMap.delete g id, Ok tt); rs_knows g id := JMap.has g id |}.
  - intros g rq g' statuses [= <- _]. apply has_keys, elem_of_map. eexists (_, rq). split; [done|]. apply get_Some_elem. by rewrite get_set, eqb_refl.
  - by intros g id serving g' known [= <- <-].
Defined.

Definition inventory_config : ServiceConfig := {| cg_instanceId := "inv-1"; cg_routeId := "inventory-service"; cg_target := "127.0.0.1:0"; cg_leaseTtlMs := None; cg_heartbeatIntervalMs := None |}.

Definition read_contract (id : string) : Contract :=
  {| ct_toolId := id; ct_toolVersion := "1.0.0"; ct_description := None; ct_inputSchema := "{}"; ct_outputSchema := "{}";
     ct_effectClass := e_none; ct_mode := m_plain; ct_idempotencyKeyPath := None; ct_idempotentRetryable := true;
     ct_tryTimeoutSeconds := None; ct_confirmTool := None; ct_cancelTool := None; ct_compensateTool := None; ct_statusTool := None; ct_confirmArguments := None;
     ct_cancelArguments := None; ct_compensateArguments := None; ct_compensating := false; ct_footprint := ["inventory"];
     ct_writes := []; ct_logFields := []; ct_timeoutMs := Num.of_Z 2000; ct_retry := None; ct_owner := "supply"; ct_allowedRoles := ["buyer"] |}.

(** A tool that answers with its own arguments, and one whose handler answers no known outcome. *)
Definition stock_tool : Tool := {| tl_contract := read_contract "stock.read"; tl_handler c := Ok {| hr_outcome := VStr "succeeded"; hr_value := cl_args c; hr_error := None |} |}.
Definition price_tool : Tool := {| tl_contract := read_contract "price.read"; tl_handler c := Ok {| hr_outcome := VStr "done"; hr_value := VUndef; hr_error := None |} |}.

Definition empty_service : ToolService := {| sv_config := inventory_config; sv_tools := []; sv_contracts := []; sv_serving := false; sv_heartbeat := None |}.
Definition inventory_service : ToolService := with_tool (with_tool empty_service stock_tool) price_tool.
Definition attempt (tool args : string) : ExecuteRequest :=
  {| ex_runId := "r1"; ex_vertexId := "v1"; ex_scopeId := "s1"; ex_attemptNo := 1; ex_toolId := tool; ex_toolVersion := "1.0.0"; ex_idempotencyKey := "k1"; ex_arguments := args; ex_deadline := None |}.

Lemma registration_stable_witness :
  (exists s2, declare empty_service [price_tool; stock_tool] = (s2, Ok tt) /\ registration s2 = registration inventory_service) /\
  map tc_toolId (rg_tools (registration inventory_service)) = ["price.read"; "stock.read"].
Proof.
  destruct (registration_stable inventory_config empty_service [stock_tool; price_tool] [price_tool; stock_tool] inventory_service) as (H1 & _);
    [vm_compute; reflexivity|apply Permutation_swap|vm_compute; reflexivity|].
  split; [exact H1|vm_compute; reflexivity].
Defined.

Lemma execute_once_witness :
  (exists t call h, t ∈ [stock_tool; price_tool] /\ [callOf (attempt "stock.read" "[1]") (VArr [VNum (Num.of_Z 1)])] = [call] /\ tl_handler t call = Ok h /\ Js.to_text (hr_outcome h) = "succeeded") /\
  execute inventory_service (attempt "stock.read" "[1]") =
    ([callOf (attempt "stock.read" "[1]") (VArr [VNum (Num.of_Z 1)])], Ok {| er_outcome := SUCCEEDED; er_result := "[1]"; er_error := "" |}) /\
  snd (execute inventory_service (attempt "price.read" "")) = Ok {| er_outcome := UNKNOWN; er_result := ""; er_error := "handler returned an unknown outcome done" |} /\
  fst (execute inventory_service (attempt "stock.write" "")) = [].
Proof.
  split; [|split_and!; vm_compute; reflexivity].
  refine (proj2 (proj2 (execute_once inventory_config empty_service [stock_tool; price_tool] inventory_service (Ok tt) (attempt "stock.read" "[1]") _
    (Ok {| er_outcome := SUCCEEDED; er_result := "[1]"; er_error := "" |}) _ _ _)) _ _ _); vm_compute; reflexivity.
Defined.

(** A gateway that restarts empty is told again by the next beat. *)
Example beat_registers_again :
  fst (beat inventory_service []) = [("inv-1", registration inventory_service)] /\
  beat inventory_service (fst (beat inventory_service [])) = (fst (beat inventory_service []), Ok tt) /\
  snd (stopService inventory_service (fst (beat inventory_service []))) = [].
Proof. vm_compute. auto. Qed.
