(* ===== verification/BusinessStream.v ===== *)
(** * The business plane (engine/src/log/store.ts, db/migrations/010 and 011)

    What one business entity experienced across its runs: facts ordered per stream, each stamped with the
    orchestration event that caused it, and the configuration stream that rule templates are published to.
    The two functions the store calls are those of the migrations, over the run plane of [Store]. *)

From S2P Require Import Prelude Collections Number Json JsText Events Graph Fork Scopes CheckRules ToolView Gateway RuleTemplate RuleTemplateFacts Workflow Store StoreFacts.

Record BusinessFactDraft : Type := { bf_event_type : string; bf_payload : object }.

Record StoredBusinessEvent : Type := {
  be_stream_id : string;
  be_stream_seq : Z;
  be_global_seq : Z;
  be_run_id : option string;
  be_run_seq : option Z;
  be_event_type : string;
  be_is_counterfactual : bool;
  be_payload : object;
  be_created_at : string
}.

Record DomainAppendResult : Type := { da_run_seq : Z; da_stream_seq : Z }.

(** What the database gives the rows of one statement: identity values, and one timestamp. *)
Record Stamp : Type := { st_global : Z -> Z; st_now : string }.

(** The tables [stream] and [business_event_stream] beside the run plane. *)
Record Plane (db : Type) : Type := { pl_db : db; pl_streams : list (string * Z); pl_rows : list StoredBusinessEvent }.
Arguments pl_db {db}.
Arguments pl_streams {db}.
Arguments pl_rows {db}.

(** [p_stream_id LIKE 'config:%'], [LIKE 'fork:%'] *)
Definition config_stream (stream : string) : bool := starts_with "config:" stream.
Definition fork_stream (stream : string) : bool := starts_with "fork:" stream.

(** The trigger [business_event_stream_ownership]. *)
Definition check_business_event_ownership (user : Actor) (r : StoredBusinessEvent) : result unit :=
  if config_stream (be_stream_id r) then
    if be_event_type r !=? "rule_template/published" then Throw ("the configuration stream carries only rule_template/published, not " +:+ be_event_type r)
    else if user !=? engine then Throw "only engine_role may publish to the configuration stream" else Ok tt
  else if be_event_type r ==? "rule_template/published" then Throw ("rule_template/published belongs to the configuration stream, not " +:+ be_stream_id r)
  else Ok tt.

(** The constraint [business_event_stream_provenance_chk]. *)
Definition provenance_chk (r : StoredBusinessEvent) : bool :=
  Bool.eqb (config_stream (be_stream_id r)) (match be_run_id r, be_run_seq r with None, None => true | _, _ => false end).

Section Tables.
Context {db : Type} `{!Database db}.
Implicit Types (p : Plane db).

Definition with_streams p (streams : list (string * Z)) : Plane db := {| pl_db := pl_db p; pl_streams := streams; pl_rows := pl_rows p |}.
Definition with_db p (d : db) : Plane db := {| pl_db := d; pl_streams := pl_streams p; pl_rows := pl_rows p |}.

(** [INSERT INTO stream ... ON CONFLICT (stream_id) DO UPDATE SET next_seq = stream.next_seq] *)
Definition ensure_stream p (stream : string) : Plane db :=
  if JMap.has (pl_streams p) stream then p else with_streams p (JMap.set (pl_streams p) stream 1).

(** [UPDATE stream SET next_seq = next_seq + 1 ... RETURNING next_seq - 1] *)
Definition allocate p (stream : string) : Z * Plane db :=
  let next := default 1 (JMap.get (pl_streams p) stream) in (next, with_streams p (JMap.set (pl_streams p) stream (next + 1))).

(** [INSERT INTO business_event_stream], its trigger, its constraint and its primary key included. *)
Definition insert_row (user : Actor) p (r : StoredBusinessEvent) : result (Plane db) :=
  _ ← check_business_event_ownership user r;
  if negb (provenance_chk r) then Throw "new row violates check constraint business_event_stream_provenance_chk" else
  if existsb (fun o => (be_stream_id o ==? be_stream_id r) && (be_stream_seq o =? be_stream_seq r)) (pl_rows p)
  then Throw "duplicate key value violates unique constraint"
  else Ok {| pl_db := pl_db p; pl_streams := pl_streams p; pl_rows := pl_rows p ++ [r] |}.

Definition create_stream (user : Actor) p (stream : string) : result (Plane db) :=
  if user !=? engine then Throw "only engine_role may create streams" else
  if stream ==? "" then Throw "stream id must be non-empty" else Ok (ensure_stream p stream).

Definition fact_row (stream : string) (seq : Z) (stamp : Stamp) (run : string) (cause : Z) (fork_run : bool) (f : BusinessFactDraft) : StoredBusinessEvent :=
  {| be_stream_id := stream; be_stream_seq := seq; be_global_seq := st_global stamp seq; be_run_id := Some run; be_run_seq := Some cause;
     be_event_type := bf_event_type f; be_is_counterfactual := fork_run; be_payload := bf_payload f; be_created_at := st_now stamp |}.

(** One turn of the loop over the facts. *)
Definition append_fact (user : Actor) (stream : string) (stamp : Stamp) (run : string) (cause : Z) (fork_run : bool)
    (acc : list DomainAppendResult * Plane db) (f : BusinessFactDraft) : result (list DomainAppendResult * Plane db) :=
  let '(results, p) := acc in
  if bf_event_type f ==? "" then Throw "every business fact requires an event_type" else
  let '(seq, p1) := allocate p stream in
  p2 ← insert_row user p1 (fact_row stream seq stamp run cause fork_run f);
  Ok (results ++ [{| da_run_seq := cause; da_stream_seq := seq |}], p2).

(** [append_domain_events]; an exception undoes the whole statement. *)
Definition append_domain_events (user : Actor) p (run stream : string) (event : EventDraft) (facts : list BusinessFactDraft) (stamp : Stamp)
    : result (list DomainAppendResult * Plane db) :=
  if stream ==? "" then Throw "append_domain_events requires a stream id" else
  if (length facts =? 0)%nat then Throw "append_domain_events requires at least one business fact; use append_events for orchestration-only appends" else
  match is_fork (pl_db p) run with
  | None => Throw ("run " +:+ run +:+ " does not exist")
  | Some fork_run =>
      if fork_run && negb (fork_stream stream) then Throw ("fork run " +:+ run +:+ " may only write a fork: stream, not " +:+ stream) else
      if negb fork_run && fork_stream stream then Throw "only a fork run may write the fork: namespace" else
      appended ← append_events (pl_db p) run [event];
      let p1 := ensure_stream (with_db p (snd appended)) stream in
      foldM (append_fact user stream stamp run (default 0 (head (fst appended))) fork_run) ([], p1) facts
  end.

(** [append_config_event] *)
Definition append_config_event (user : Actor) p (stream type : string) (payload : object) (stamp : Stamp) : result (Z * Plane db) :=
  if user !=? engine then Throw "only engine_role may append configuration events" else
  if negb (config_stream stream) then Throw ("append_config_event requires a config: stream, not " +:+ stream) else
  let '(seq, p1) := allocate (ensure_stream p stream) stream in
  p2 ← insert_row user p1 {| be_stream_id := stream; be_stream_seq := seq; be_global_seq := st_global stamp seq; be_run_id := None; be_run_seq := None;
                             be_event_type := type; be_is_counterfactual := false; be_payload := payload; be_created_at := st_now stamp |};
  Ok (seq, p2).

(** ** The store's operations *)
Variable validateSchema : EventDraft -> bool.
Variable schemaErrors : EventDraft -> string.
Variable actor : Actor.

Definition settle {A} p (r : result (A * Plane db)) : result A * Plane db := match r with Ok (a, p') => (Ok a, p') | Throw e => (Throw e, p) end.

Definition appendDomainEvents p (runId streamId : string) (event : EventDraft) (facts : list BusinessFactDraft) (stamp : Stamp)
    : result (list DomainAppendResult) * Plane db :=
  settle p (_ ← assertEventDraft validateSchema schemaErrors event;
            if (length facts =? 0)%nat then Throw "appendDomainEvents requires at least one business fact; use appendEvents for orchestration-only appends"
            else append_domain_events actor p runId streamId event facts stamp).

Definition appendConfigEvent p (streamId eventType : string) (payload : object) (stamp : Stamp) : result Z * Plane db :=
  settle p (_ ← requireEngine actor; append_config_event actor p streamId eventType payload stamp).

Definition readBusinessStream p (streamId : string) (throughStreamSeq : option Z) (includeCounterfactual : bool) : list StoredBusinessEvent :=
  js_sort (fun a b => be_stream_seq a - be_stream_seq b)
    (filter_by (fun r => (be_stream_id r ==? streamId) && (includeCounterfactual || negb (be_is_counterfactual r)) &&
                         match throughStreamSeq with Some n => be_stream_seq r <=? n | None => true end) (pl_rows p)).
End Tables.

(** ** What the plane keeps *)

(** An append does not make a run a fork, nor stop it from being one. *)
Class ForkLaw (db : Type) `{Database db} : Prop :=
  append_keeps_fork : forall d run events seqs d', append_events d run events = Ok (seqs, d') -> forall other, is_fork d' other = is_fork d other.

#[export] Instance mem_fork_law : ForkLaw MemoryDb.Mem.
Proof.
  intros m run events seqs m'. cbn [append_events is_fork MemoryDb.mem_database]. unfold MemoryDb.mem_append. destruct events as [|e events]; [done|].
  destruct (JMap.get (MemoryDb.m_runs m) run) as [r|] eqn:E; [|done]. intros [= _ <-]%Ok_inj other. rewrite MemoryDb.get_set_run.
  destruct (run ==? other) eqn:Eo; [|done]. apply eqb_true_1 in Eo as <-. by rewrite E.
Qed.

Section Facts.
Context {db : Type} `{!Database db}.
Implicit Types (p : Plane db).

Definition next_of p (stream : string) : Z := default 1 (JMap.get (pl_streams p) stream).
Definition rows_of p (stream : string) : list StoredBusinessEvent := filter_by (fun r => be_stream_id r ==? stream) (pl_rows p).

(** A row names its cause: the configuration stream holds publications and has none; any other fact was
    caused by an event its run recorded, and is quarantined exactly when that run is a fork, in the
    namespace of forks and nowhere else. *)
Definition row_ok (d : db) (r : StoredBusinessEvent) : Prop :=
  if config_stream (be_stream_id r)
  then be_run_id r = None /\ be_run_seq r = None /\ be_event_type r = "rule_template/published" /\ be_is_counterfactual r = false
  else be_event_type r <> "rule_template/published" /\
       exists run e, be_run_id r = Some run /\ be_run_seq r = Some (run_seq e) /\ e ∈ select_stream d run /\
         is_fork d run = Some (be_is_counterfactual r) /\ fork_stream (be_stream_id r) = be_is_counterfactual r.

Record plane_ok p : Prop := {
  ok_seqs : forall s, map be_stream_seq (rows_of p s) = positions 1 (length (rows_of p s));
  ok_next : forall s, next_of p s = 1 + Z.of_nat (length (rows_of p s));
  ok_rows : Forall (row_ok (pl_db p)) (pl_rows p)
}.

Lemma elem_of_positions n count q : q ∈ positions n count <-> n <= q < n + Z.of_nat count.
Proof.
  unfold positions. rewrite elem_of_map. split.
  - intros (i & -> & Hi%elem_of_seq). lia.
  - intros Hq. exists (Z.to_nat (q - n)). split; [lia|]. apply elem_of_seq. lia.
Qed.

Lemma positions_snoc n count : positions n (S count) = positions n count ++ [n + Z.of_nat count].
Proof. unfold positions. by rewrite seq_S, map_app. Qed.

(** Positions below the next one are taken, so the next one is free. *)
Definition fresh p (stream : string) : Prop := Forall (fun r => be_stream_id r = stream -> be_stream_seq r < next_of p stream) (pl_rows p).

Lemma plane_ok_fresh p stream : plane_ok p -> fresh p stream.
Proof.
  intros Hp. apply Forall_forall. intros r Hr Hs. rewrite (ok_next p Hp). assert (be_stream_seq r ∈ positions 1 (length (rows_of p stream))) as Hq; [|apply elem_of_positions in Hq; lia].
  rewrite <- (ok_seqs p Hp). apply elem_of_map. exists r. split; [done|]. apply elem_of_filter_by. split; [done|by apply eqb_true].
Qed.

Lemma fresh_key p stream : fresh p stream -> existsb (fun o => (be_stream_id o ==? stream) && (be_stream_seq o =? next_of p stream)) (pl_rows p) = false.
Proof.
  intros Hf. apply existsb_false. intros r Hr. apply andb_false_iff. destruct (be_stream_id r ==? stream) eqn:E; [right|by left].
  apply eqb_true_1 in E. unfold fresh in Hf. rewrite Forall_forall in Hf. specialize (Hf r Hr E). lia.
Qed.

(** ** Appending to one stream *)

(** The plane after rows of one stream: the run plane and the other counters stay. *)
Record pushed p (stream : string) (rows : list StoredBusinessEvent) p' : Prop := {
  pu_db : pl_db p' = pl_db p;
  pu_rows : pl_rows p' = pl_rows p ++ rows;
  pu_next : forall s, next_of p' s = if stream ==? s then next_of p s + Z.of_nat (length rows) else next_of p s
}.

Lemma pushed_nil p stream : pushed p stream [] p.
Proof. split; [done|by rewrite app_nil_r|]. intros s. destruct (_ ==? _); cbn; lia. Qed.

Lemma pushed_app p stream rows1 p1 rows2 p2 : pushed p stream rows1 p1 -> pushed p1 stream rows2 p2 -> pushed p stream (rows1 ++ rows2) p2.
Proof.
  intros [D1 R1 N1] [D2 R2 N2]. split; [congruence|by rewrite R2, R1, app_assoc|]. intros s. rewrite N2, N1, length_app. destruct (_ ==? _); lia.
Qed.

Lemma pushed_fresh p stream r p' : fresh p stream -> be_stream_seq r = next_of p stream -> pushed p stream [r] p' -> fresh p' stream.
Proof.
  intros Hf Hr [_ R N]. unfold fresh in *. rewrite R, N, eqb_refl. cbn [length]. apply Forall_app. split.
  - eapply Forall_impl; [exact Hf|]. intros x Hx Hs. cbn beta in *. specialize (Hx Hs). lia.
  - constructor; [|constructor]. intros _. lia.
Qed.

Lemma ensure_next p stream s : next_of (ensure_stream p stream) s = next_of p s.
Proof.
  unfold ensure_stream, next_of. destruct (JMap.has _ _) eqn:E; [done|]. apply has_keys_false, get_None in E. cbn. rewrite get_set.
  destruct (stream ==? s) eqn:Es; [|done]. apply eqb_true_1 in Es as <-. by rewrite E.
Qed.

Lemma ensure_pushed p stream rows p' : pushed (ensure_stream p stream) stream rows p' -> pushed p stream rows p'.
Proof.
  assert (pl_db (ensure_stream p stream) = pl_db p /\ pl_rows (ensure_stream p stream) = pl_rows p) as [D R] by (unfold ensure_stream; by destruct (JMap.has _ _)).
  intros [D1 R1 N1]. split; [congruence|congruence|]. intros s. by rewrite N1, ensure_next.
Qed.

Lemma ensure_fresh p stream : fresh p stream -> fresh (ensure_stream p stream) stream.
Proof. unfold fresh. rewrite ensure_next. unfold ensure_stream. by destruct (JMap.has _ _). Qed.

(** A row at the next position goes in exactly when the trigger and the constraint let it. *)
Lemma insert_next user p stream r : fresh p stream -> be_stream_id r = stream -> be_stream_seq r = next_of p stream ->
  let p1 := snd (allocate p stream) in
  match check_business_event_ownership user r, provenance_chk r with
  | Ok _, true => exists p', insert_row user p1 r = Ok p' /\ pushed p stream [r] p'
  | _, _ => exists e, insert_row user p1 r = Throw e
  end.
Proof.
  intros Hf Hs Hq p1. unfold insert_row. destruct (check_business_event_ownership user r) as [[]|e]; cbn [mbind result_bind]; [|by eexists].
  destruct (provenance_chk r); cbn [negb]; [|by eexists]. rewrite Hs, Hq. cbn [p1 allocate snd with_streams pl_rows]. rewrite (fresh_key p stream Hf). eexists. split; [done|].
  split; [done|done|]. intros s. unfold next_of. cbn. rewrite get_set. destruct (stream ==? s) eqn:E; [|done]. apply eqb_true_1 in E as ->. cbn. lia.
Qed.

Definition fact_rows (stream : string) (stamp : Stamp) (run : string) (cause : Z) (fork_run : bool) (n : Z) (facts : list BusinessFactDraft) : list StoredBusinessEvent :=
  map (fun qf => fact_row stream (fst qf) stamp run cause fork_run (snd qf)) (combine (positions n (length facts)) facts).

(** A fact with a type of its own. *)
Definition good_fact (f : BusinessFactDraft) : bool := (bf_event_type f !=? "") && (bf_event_type f !=? "rule_template/published").

Lemma positions_cons n count : positions n (S count) = n :: positions (n + 1) count.
Proof. unfold positions. cbn [seq map]. f_equal; [lia|]. rewrite <- seq_shift, map_map. apply map_ext. intros i. lia. Qed.

Lemma append_fact_step user stream stamp run cause fork_run results p f : fresh p stream ->
  let r := fact_row stream (next_of p stream) stamp run cause fork_run f in
  if negb (config_stream stream) && good_fact f
  then exists p', append_fact user stream stamp run cause fork_run (results, p) f = Ok (results ++ [{| da_run_seq := cause; da_stream_seq := next_of p stream |}], p') /\
         pushed p stream [r] p'
  else exists e, append_fact user stream stamp run cause fork_run (results, p) f = Throw e.
Proof.
  intros Hf r. unfold append_fact, good_fact. cbn [allocate]. fold (next_of p stream). fold r.
  pose proof (insert_next user p stream r Hf eq_refl eq_refl) as Hi. cbn [allocate snd] in Hi. fold (next_of p stream) in Hi.
  unfold check_business_event_ownership, provenance_chk in Hi. cbn [r fact_row be_stream_id be_event_type be_run_id be_run_seq] in Hi. fold r in Hi.
  destruct (bf_event_type f ==? ""); [cbn; rewrite andb_false_r; by eexists|]. cbn [negb andb].
  destruct (config_stream stream); cbn [negb andb Bool.eqb] in *.
  - destruct (bf_event_type f !=? _); cbn [negb] in Hi; [|destruct (user !=? engine)]; destruct Hi as [e ->]; by eexists.
  - destruct (bf_event_type f ==? _); cbn [negb]; [destruct Hi as [e ->]; by eexists|]. destruct Hi as (p' & -> & Hp). by exists p'.
Qed.

Lemma append_facts user stream stamp run cause fork_run facts results p : fresh p stream -> facts <> [] ->
  if negb (config_stream stream) && forallb good_fact facts
  then exists p', foldM (append_fact user stream stamp run cause fork_run) (results, p) facts =
           Ok (results ++ map (Build_DomainAppendResult cause) (positions (next_of p stream) (length facts)), p') /\
         pushed p stream (fact_rows stream stamp run cause fork_run (next_of p stream) facts) p'
  else exists e, foldM (append_fact user stream stamp run cause fork_run) (results, p) facts = Throw e.
Proof.
  revert results p; induction facts as [|f facts IH]; intros results p Hf Hne; [done|]. cbn [foldM forallb].
  pose proof (append_fact_step user stream stamp run cause fork_run results p f Hf) as Hs. cbn zeta in Hs.
  destruct (config_stream stream); cbn [negb andb] in *; [destruct Hs as [e ->]; by eexists|].
  destruct (good_fact f); cbn [andb]; [|destruct Hs as [e ->]; by eexists]. destruct Hs as (p1 & -> & Hp1). cbn [mbind result_bind].
  pose proof (pushed_fresh p stream (fact_row stream (next_of p stream) stamp run cause fork_run f) p1 Hf eq_refl Hp1) as Hf1. pose proof (pu_next _ _ _ _ Hp1 stream) as Hn. rewrite eqb_refl in Hn. cbn [length] in Hn.
  unfold fact_rows. cbn [length]. rewrite positions_cons. cbn [combine map fst snd].
  assert (facts = [] \/ facts <> []) as [->|Hfs] by (destruct facts; [by left|by right]); [cbn; exists p1; split; [done|exact Hp1]|]. specialize (IH (results ++ [{| da_run_seq := cause; da_stream_seq := next_of p stream |}]) p1 Hf1 Hfs).
  destruct (forallb good_fact facts); [|exact IH]. destruct IH as (p' & -> & Hp'). rewrite Hn in *. exists p'. split; [by rewrite <- app_assoc|]. exact (pushed_app _ _ _ _ _ _ Hp1 Hp').
Qed.

(** ** The domain append *)
Variable validateSchema : EventDraft -> bool.
Variable schemaErrors : EventDraft -> string.

(** What the store and the database ask of a domain append, the run plane's own rules aside. *)
Definition domain_admissible p (run stream : string) (event : EventDraft) (facts : list BusinessFactDraft) : bool :=
  match assertEventDraft validateSchema schemaErrors event with Ok _ => true | Throw _ => false end &&
  negb (length facts =? 0)%nat && (stream !=? "") && negb (config_stream stream) && forallb good_fact facts &&
  match is_fork (pl_db p) run with Some fork_run => Bool.eqb fork_run (fork_stream stream) | None => false end.

Lemma domain_append_cases actor p run stream event facts stamp : plane_ok p ->
  match (if domain_admissible p run stream event facts then append_events (pl_db p) run [event] else Throw "") with
  | Ok (seqs, d) => exists p' fork_run, is_fork (pl_db p) run = Some fork_run /\
      appendDomainEvents validateSchema schemaErrors actor p run stream event facts stamp =
        (Ok (map (Build_DomainAppendResult (default 0 (head seqs))) (positions (next_of p stream) (length facts))), p') /\
      pushed (with_db p d) stream (fact_rows stream stamp run (default 0 (head seqs)) fork_run (next_of p stream) facts) p'
  | Throw _ => exists e, appendDomainEvents validateSchema schemaErrors actor p run stream event facts stamp = (Throw e, p)
  end.
Proof.
  intros Hp. unfold domain_admissible, appendDomainEvents, append_domain_events.
  destruct (assertEventDraft _ _ event) as [[]|e]; cbn [mbind result_bind andb negb settle]; [|by eexists].
  destruct (length facts =? 0)%nat eqn:El; cbn [andb negb settle]; [by eexists|]. destruct (stream ==? ""); cbn [andb negb settle]; [by eexists|].
  destruct (is_fork (pl_db p) run) as [fork_run|] eqn:Ef; [|rewrite andb_false_r; by eexists].
  assert (facts <> []) as Hne by (by destruct facts). rewrite (andb_comm _ (Bool.eqb _ _)).
  destruct (Bool.eqb fork_run (fork_stream stream)) eqn:Eb; cbn [andb].
  2: { destruct fork_run, (fork_stream stream); cbn [andb negb settle] in *; try done; by eexists. }
  apply Bool.eqb_prop in Eb as <-. rewrite andb_negb_r, (andb_comm (negb fork_run)), andb_negb_r.
  set (ok := negb (config_stream stream) && forallb good_fact facts).
  destruct (append_events (pl_db p) run [event]) as [[seqs d]|e] eqn:Ea; cbn [mbind result_bind fst snd].
  2: { destruct ok; cbn [settle]; by eexists. }
  assert (fresh (ensure_stream (with_db p d) stream) stream) as Hf by (apply ensure_fresh; exact (plane_ok_fresh p stream Hp)).
  pose proof (append_facts actor stream stamp run (default 0 (head seqs)) fork_run facts [] _ Hf Hne) as Hs. fold ok in Hs. rewrite ensure_next in Hs.
  destruct ok; [|destruct Hs as [e ->]; cbn [settle]; by eexists]. destruct Hs as (p' & -> & Hp'). exists p', fork_run. split_and!; [done|done|].
  exact (ensure_pushed _ _ _ _ Hp').
Qed.

(** ** Every state the plane reaches *)
Context `{!DatabaseLaws db} `{!ForkLaw db}.

(** The run plane only grows: what is recorded stays, and a run is a fork from its start or never. *)
Definition runs_grow (d d' : db) : Prop :=
  (forall run e, e ∈ select_stream d run -> e ∈ select_stream d' run) /\ (forall run b, is_fork d run = Some b -> is_fork d' run = Some b).

Inductive plane_step : Plane db -> Plane db -> Prop :=
| domain_step actor p run stream event facts stamp r p' :
    appendDomainEvents validateSchema schemaErrors actor p run stream event facts stamp = (r, p') -> plane_step p p'
| config_step actor p stream type payload stamp r p' : appendConfigEvent actor p stream type payload stamp = (r, p') -> plane_step p p'
| stream_step actor p stream p' : create_stream actor p stream = Ok p' -> plane_step p p'
| runs_step p d : runs_grow (pl_db p) d -> plane_step p (with_db p d).

Lemma row_ok_grow d d' r : runs_grow d d' -> row_ok d r -> row_ok d' r.
Proof.
  intros [Hs Hf]. unfold row_ok. destruct (config_stream _); [done|]. intros (Ht & run & e & Hr & Hq & He & Hk & Hn).
  split; [done|]. exists run, e. split_and!; auto.
Qed.

Lemma rows_of_app p stream rows p' s : pushed p stream rows p' -> Forall (fun r => be_stream_id r = stream) rows ->
  rows_of p' s = rows_of p s ++ (if stream ==? s then rows else []).
Proof.
  intros [_ R _] Hs. unfold rows_of. rewrite R, filter_by_app. f_equal. destruct (stream ==? s) eqn:E.
  - apply eqb_true_1 in E as <-. apply filter_by_all. eapply Forall_impl; [exact Hs|]. intros r Hr. by apply eqb_true.
  - apply filter_by_none. eapply Forall_impl; [exact Hs|]. cbn beta. intros r ->. done.
Qed.

Lemma positions_app n a b : positions n (a + b) = positions n a ++ positions (n + Z.of_nat a) b.
Proof.
  induction b as [|b IH]; [unfold positions at 3; cbn; by rewrite Nat.add_0_r, app_nil_r|]. rewrite Nat.add_succ_r, !positions_snoc, IH, <- app_assoc. do 3 f_equal. lia.
Qed.

Lemma pushed_ok p stream rows p' : plane_ok p -> pushed p stream rows p' -> Forall (fun r => be_stream_id r = stream) rows ->
  map be_stream_seq rows = positions (next_of p stream) (length rows) -> Forall (row_ok (pl_db p)) rows -> plane_ok p'.
Proof.
  intros [Hq Hn Hr] Hp Hs Hpos Hok. split.
  - intros s. rewrite (rows_of_app _ _ _ _ s Hp Hs), map_app, Hq, length_app, positions_app. destruct (stream ==? s) eqn:E; [|done].
    apply eqb_true_1 in E as <-. by rewrite Hpos, Hn.
  - intros s. rewrite (rows_of_app _ _ _ _ s Hp Hs), (pu_next _ _ _ _ Hp), Hn, length_app. destruct (stream ==? s); cbn [length]; lia.
  - rewrite (pu_rows _ _ _ _ Hp), (pu_db _ _ _ _ Hp). by apply Forall_app.
Qed.

Lemma with_db_ok p d : plane_ok p -> runs_grow (pl_db p) d -> plane_ok (with_db p d).
Proof. intros [Hq Hn Hr] Hg. split; [done|done|]. cbn. eapply Forall_impl; [exact Hr|]. intros r. by apply row_ok_grow. Qed.

Lemma append_event_grows d run event seqs d' : append_events d run [event] = Ok (seqs, d') ->
  runs_grow d d' /\ exists e, e ∈ select_stream d' run /\ default 0 (head seqs) = run_seq e.
Proof.
  intros Ha. destruct (append_law _ _ _ _ _ Ha) as (n & rows & _ & -> & _ & Hrows & Hsel & Hother). split; [split|].
  - intros other e He. destruct (decide (other = run)) as [->|Hne]; [rewrite Hsel; apply elem_of_app; by left|]. by rewrite (proj1 (Hother other Hne)).
  - intros other b Hb. by rewrite (append_keeps_fork _ _ _ _ _ Ha).
  - cbn in Hrows. inversion Hrows as [|x e l rows' Hst Hnil]; subst. exists e. rewrite Hsel. split; [apply elem_of_app; right; left|].
    destruct Hst as (_ & Hq & _). by rewrite Hq.
Qed.

Lemma fact_rows_shape stream stamp run cause fork_run n facts :
  length (fact_rows stream stamp run cause fork_run n facts) = length facts /\
  map be_stream_seq (fact_rows stream stamp run cause fork_run n facts) = positions n (length facts) /\
  Forall (fun r => be_stream_id r = stream) (fact_rows stream stamp run cause fork_run n facts).
Proof.
  unfold fact_rows. split_and!.
  - unfold positions. by rewrite length_map, length_combine, length_map, length_seq, Nat.min_id.
  - rewrite map_map. cbn. revert n; induction facts as [|f facts IH]; intros n; [done|]. cbn [length]. rewrite positions_cons. cbn [combine map fst]. f_equal. apply IH.
  - apply Forall_map, Forall_true. done.
Qed.

Lemma domain_ok actor p run stream event facts stamp r p' : plane_ok p ->
  appendDomainEvents validateSchema schemaErrors actor p run stream event facts stamp = (r, p') -> plane_ok p'.
Proof.
  intros Hp Hd. pose proof (domain_append_cases actor p run stream event facts stamp Hp) as Hc. rewrite Hd in Hc.
  destruct (domain_admissible p run stream event facts) eqn:Ea; [|destruct Hc as [e [= _ ->]]; done].
  destruct (append_events (pl_db p) run [event]) as [[seqs d]|] eqn:Ed; [|destruct Hc as [e [= _ ->]]; done]. destruct Hc as (p1 & fork_run & Hk & [= _ <-] & Hp1).
  destruct (append_event_grows _ _ _ _ _ Ed) as [Hg (e & He & Hq)]. pose proof (with_db_ok p d Hp Hg) as Hpd.
  destruct (fact_rows_shape stream stamp run (default 0 (head seqs)) fork_run (next_of p stream) facts) as (Hl & Hseq & Hid).
  apply (pushed_ok (with_db p d) stream _ p' Hpd Hp1 Hid); [by rewrite Hl|]. unfold domain_admissible in Ea. bool_prop. rewrite Hk in *.
  apply Forall_map, Forall_forall. intros [q f] Hf%list_elem_of_In%in_combine_r. unfold row_ok. cbn [fact_row be_stream_id be_event_type be_run_id be_run_seq be_is_counterfactual fst snd with_db pl_db]. match goal with H : config_stream _ = false |- _ => rewrite H end.
  match goal with H : forallb _ _ = true |- _ => rewrite forallb_forall in H; apply H in Hf; unfold good_fact in Hf end. bool_prop.
  split; [done|]. exists run, e. split_and!; [done|by rewrite Hq|done|by apply Hg|]. symmetry. by apply Bool.eqb_prop.
Qed.

Lemma config_append_cases actor p stream type payload stamp : plane_ok p ->
  if (actor ==? engine) && config_stream stream && (type ==? "rule_template/published")
  then exists p' r, appendConfigEvent actor p stream type payload stamp = (Ok (next_of p stream), p') /\ pushed p stream [r] p' /\
    be_stream_id r = stream /\ be_stream_seq r = next_of p stream /\ be_payload r = payload /\ be_event_type r = type /\ row_ok (pl_db p) r
  else exists e, appendConfigEvent actor p stream type payload stamp = (Throw e, p).
Proof.
  intros Hp. unfold appendConfigEvent, requireEngine, append_config_event. destruct (actor ==? engine) eqn:Ea; cbn [negb andb mbind result_bind settle]; [|by eexists].
  destruct (config_stream stream) eqn:Ec; cbn [negb andb settle]; [|by eexists]. apply eqb_true_1 in Ea as ->.
  pose proof (ensure_fresh p stream (plane_ok_fresh p stream Hp)) as Hf. cbn [allocate]. fold (next_of (ensure_stream p stream) stream).
  set (r := Build_StoredBusinessEvent stream _ _ _ _ _ _ _ _). pose proof (insert_next engine (ensure_stream p stream) stream r Hf eq_refl eq_refl) as Hi.
  cbn [allocate snd] in Hi. fold (next_of (ensure_stream p stream) stream) in Hi. unfold check_business_event_ownership, provenance_chk in Hi.
  cbn [r be_stream_id be_event_type be_run_id be_run_seq] in Hi. fold r in Hi. rewrite Ec in Hi. rewrite eqb_refl in Hi. cbn [negb Bool.eqb] in Hi.
  destruct (type ==? "rule_template/published") eqn:Et; cbn [negb] in Hi; [|destruct Hi as [e ->]; cbn [settle]; by eexists]. destruct Hi as (p' & -> & Hp').
  exists p', r. rewrite (ensure_next p stream stream). split_and!; [done|exact (ensure_pushed _ _ _ _ Hp')|done|by apply ensure_next|done|done|].
  unfold row_ok. cbn [r be_stream_id be_event_type be_run_id be_run_seq be_is_counterfactual]. rewrite Ec. apply eqb_true_1 in Et. done.
Qed.

Lemma config_ok actor p stream type payload stamp r p' : plane_ok p -> appendConfigEvent actor p stream type payload stamp = (r, p') -> plane_ok p'.
Proof.
  intros Hp Hd. pose proof (config_append_cases actor p stream type payload stamp Hp) as Hc. rewrite Hd in Hc. destruct (_ && _ && _); [|by destruct Hc as [e [= _ ->]]].
  destruct Hc as (p1 & row & [= _ <-] & Hp1 & Hs & Hq & _ & _ & Hr). apply (pushed_ok p stream [row] p' Hp Hp1); [by constructor| |by constructor].
  cbn. rewrite Hq. f_equal. lia.
Qed.

Lemma step_ok p p' : plane_ok p -> plane_step p p' -> plane_ok p'.
Proof.
  intros Hp Hs. revert Hp. destruct Hs as [actor q run stream event facts stamp r q' H|actor q stream type payload stamp r q' H|actor q stream q' H|q d H]; intros Hp.
  - exact (domain_ok _ _ _ _ _ _ _ _ _ Hp H).
  - exact (config_ok _ _ _ _ _ _ _ _ Hp H).
  - unfold create_stream in H. destruct (actor !=? engine); [done|]. destruct (stream ==? ""); [done|]. injection H as <-.
    refine (pushed_ok q stream [] _ Hp (ensure_pushed _ _ _ _ (pushed_nil _ _)) (Forall_nil_2 _) _ (Forall_nil_2 _)). done.
  - by apply with_db_ok.
Qed.

Definition empty_plane (d : db) : Plane db := {| pl_db := d; pl_streams := []; pl_rows := [] |}.

Lemma steps_ok p p' : rtc plane_step p p' -> plane_ok p -> plane_ok p'.
Proof. induction 1 as [q|q q' r Hs _ IH]; [done|]. intros Hq. apply IH. exact (step_ok q q' Hq Hs). Qed.

Lemma empty_ok d : plane_ok (empty_plane d).
Proof. split; [done|done|constructor]. Qed.

(** ** Reading a stream *)
Lemma positions_sorted n count : StronglySorted Z.lt (positions n count).
Proof.
  revert n; induction count as [|count IH]; intros n; [constructor|]. rewrite positions_cons. constructor; [apply IH|]. apply Forall_forall. intros q Hq%elem_of_positions. lia.
Qed.

Lemma read_rows p stream through include : plane_ok p ->
  readBusinessStream p stream through include =
  filter_by (fun r => (include || negb (be_is_counterfactual r)) && match through with Some n => be_stream_seq r <=? n | None => true end) (rows_of p stream).
Proof.
  intros Hp. unfold readBusinessStream. rewrite !filter_by_and. fold (rows_of p stream).
  apply (js_sort_id (fun a b => be_stream_seq a - be_stream_seq b)). do 2 apply StronglySorted_filter_by.
  pose proof (positions_sorted 1 (length (rows_of p stream))) as Hs. rewrite <- (ok_seqs p Hp) in Hs. apply (proj1 (StronglySorted_map _ _ _)) in Hs.
  eapply StronglySorted_weaken; [|exact Hs]. intros a b. cbn. lia.
Qed.

Lemma read_all p stream : plane_ok p -> readBusinessStream p stream None true = rows_of p stream.
Proof. intros Hp. rewrite (read_rows _ _ _ _ Hp). apply filter_by_all, Forall_true. done. Qed.

Lemma rows_quarantine p stream r : plane_ok p -> r ∈ rows_of p stream -> be_stream_id r = stream /\ row_ok (pl_db p) r /\ be_is_counterfactual r = fork_stream stream.
Proof.
  intros Hp [Hr Hs%eqb_true_1]%elem_of_filter_by. pose proof (ok_rows p Hp) as Ho. rewrite Forall_forall in Ho. specialize (Ho r Hr). split_and!; [done|done|].
  unfold row_ok in Ho. rewrite Hs in Ho. destruct (config_stream stream) eqn:Ec; [|by destruct Ho as (_ & run & e & _ & _ & _ & _ & <-)].
  destruct Ho as (_ & _ & _ & ->). destruct stream as [|c s]; [done|]. unfold config_stream, fork_stream in *. cbn [starts_with] in *. apply andb_true_iff in Ec as [Ec%eqb_true_1 _]. by subst c.
Qed.

(** C15. Whatever the two services append, create or publish, in any order and with any of it refused,
    the facts of a stream are numbered 1, 2, 3, ... without a gap; each but a publication names an event
    its run recorded; a fork's facts are all in the namespace of forks, where a production read sees
    none of them, and nothing else is, so a production read of any other stream misses nothing; and the
    configuration stream holds publications only. *)
Theorem business_plane_sound d p : rtc plane_step (empty_plane d) p ->
  (forall s, map be_stream_seq (readBusinessStream p s None true) = positions 1 (length (readBusinessStream p s None true))) /\
  (forall s r, r ∈ readBusinessStream p s None true -> row_ok (pl_db p) r) /\
  (forall s, fork_stream s = true -> readBusinessStream p s None false = []) /\
  (forall s, fork_stream s = false -> readBusinessStream p s None false = readBusinessStream p s None true).
Proof.
  intros Hr. pose proof (steps_ok _ _ Hr (empty_ok d)) as Hp. split_and!.
  - intros s. rewrite (read_all p s Hp). apply Hp.
  - intros s r. rewrite (read_all p s Hp). intros Hin. apply (rows_quarantine p s r Hp Hin).
  - intros s Hs. rewrite (read_rows _ _ _ _ Hp). apply filter_by_none, Forall_forall. intros r Hin. destruct (rows_quarantine p s r Hp Hin) as (_ & _ & Hc). by rewrite Hc, Hs.
  - intros s Hs. rewrite (read_all p s Hp), (read_rows _ _ _ _ Hp). apply filter_by_all, Forall_forall. intros r Hin.
    destruct (rows_quarantine p s r Hp Hin) as (_ & _ & Hc). by rewrite Hc, Hs.
Qed.

Lemma fact_rows_content stream stamp run cause fork_run n facts :
  map (fun r => (be_event_type r, be_payload r)) (fact_rows stream stamp run cause fork_run n facts) = map (fun f => (bf_event_type f, bf_payload f)) facts /\
  Forall (fun r => be_run_id r = Some run /\ be_run_seq r = Some cause) (fact_rows stream stamp run cause fork_run n facts).
Proof.
  unfold fact_rows. split; [|apply Forall_map, Forall_true; done].
  rewrite map_map. cbn. revert n; induction facts as [|f facts IH]; intros n; [done|]. cbn [length]. rewrite positions_cons. cbn [combine map snd]. f_equal. apply IH.
Qed.

(** C16. A domain append is one step on both planes or none: it goes through exactly when the draft and
    the facts are valid, the stream is not reserved for another kind of run, and the run plane takes the
    event; then the run has that one event more, the stream has the facts, in their order, at the next
    positions and under the cause reported to the caller, and no other stream changed. *)
Theorem domain_append_atomic d p actor run stream event facts stamp r p' :
  rtc plane_step (empty_plane d) p -> appendDomainEvents validateSchema schemaErrors actor p run stream event facts stamp = (r, p') ->
  match r with
  | Throw _ => p' = p /\ (domain_admissible p run stream event facts = false \/ exists e, append_events (pl_db p) run [event] = Throw e)
  | Ok results => domain_admissible p run stream event facts = true /\
      exists cause, append_events (pl_db p) run [event] = Ok ([cause], pl_db p') /\
      map da_run_seq results = repeat cause (length facts) /\
      (exists rows, readBusinessStream p' stream None true = readBusinessStream p stream None true ++ rows /\
         map (fun r => (be_event_type r, be_payload r)) rows = map (fun f => (bf_event_type f, bf_payload f)) facts /\
         map be_stream_seq rows = map da_stream_seq results /\ Forall (fun r => be_run_id r = Some run /\ be_run_seq r = Some cause) rows) /\
      (forall other, other <> stream -> readBusinessStream p' other None true = readBusinessStream p other None true)
  end.
Proof.
  intros Hr Hd. pose proof (steps_ok _ _ Hr (empty_ok d)) as Hp. pose proof (domain_ok _ _ _ _ _ _ _ _ _ Hp Hd) as Hp'.
  pose proof (domain_append_cases actor p run stream event facts stamp Hp) as Hc. rewrite Hd in Hc.
  destruct (domain_admissible p run stream event facts) eqn:Ea; [|destruct Hc as [e [= -> ->]]; auto].
  destruct (append_events (pl_db p) run [event]) as [[seqs d']|e] eqn:Ed; [|destruct Hc as [e' [= -> ->]]; split; [done|]; right; by exists e].
  destruct Hc as (p1 & fork_run & Hk & [= -> <-] & Hp1). split; [done|].
  destruct (append_law _ _ _ _ _ Ed) as (n & rs & _ & -> & _). cbn [length] in *. exists n. change (positions n 1) with [n + Z.of_nat 0] in *. rewrite Z.add_0_r in *.
  rewrite (pu_db _ _ _ _ Hp1). destruct (fact_rows_shape stream stamp run n fork_run (next_of p stream) facts) as (Hl & Hseq & Hid).
  destruct (fact_rows_content stream stamp run n fork_run (next_of p stream) facts) as [Hcont Hcause]. split_and!; [done| | |].
  - rewrite map_map. cbn. clear. generalize (next_of p stream). induction (length facts) as [|k IH]; intros q; [done|]. rewrite positions_cons. cbn [map repeat]. f_equal. apply IH.
  - eexists. rewrite (read_all p' stream Hp'), (read_all p stream Hp), (rows_of_app _ _ _ _ stream Hp1 Hid), eqb_refl. split; [done|]. split; [exact Hcont|]. split; [|exact Hcause].
    rewrite map_map. cbn. by rewrite map_id.
  - intros other Hne. rewrite (read_all p' other Hp'), (read_all p other Hp), (rows_of_app _ _ _ _ other Hp1 Hid), (proj2 (eqb_false _ _)) by congruence. apply app_nil_r.
Qed.
End Facts.

(** ** An order, and a fork that would refund it *)
Definition order_db : MemoryDb.Mem :=
  {| MemoryDb.m_user := "engine_role";
     MemoryDb.m_runs := [("r1", {| MemoryDb.mr_next_seq := 1; MemoryDb.mr_seed_floor := None; MemoryDb.mr_events := [] |});
                         ("f1", {| MemoryDb.mr_next_seq := 2; MemoryDb.mr_seed_floor := Some 1; MemoryDb.mr_events := [] |})];
     MemoryDb.m_scopes := []; MemoryDb.m_brackets := [] |}.
Definition order_stamp : Stamp := {| st_global := id; st_now := "2026-01-01T00:00:00.000Z" |}.
Definition order_event : EventDraft := draft vertex_succeeded [].
Definition fact (type : string) : BusinessFactDraft := {| bf_event_type := type; bf_payload := [] |}.
Definition order_append (p : Plane MemoryDb.Mem) (run stream : string) (facts : list BusinessFactDraft) :=
  appendDomainEvents any_schema no_errors engine p run stream order_event facts order_stamp.

Lemma order_step p run stream facts : plane_step any_schema no_errors p (snd (order_append p run stream facts)).
Proof. apply (domain_step any_schema no_errors engine p run stream order_event facts order_stamp (fst (order_append p run stream facts))). apply surjective_pairing. Qed.

Definition order_placed : Plane MemoryDb.Mem := snd (order_append (empty_plane order_db) "r1" "order:1" [fact "order/placed"; fact "order/paid"]).
Definition order_forked : Plane MemoryDb.Mem := snd (order_append order_placed "f1" "fork:f1:order:1" [fact "order/refunded"]).

Lemma order_steps : rtc (plane_step any_schema no_errors) (empty_plane order_db) order_forked.
Proof. eapply rtc_l; [apply order_step|]. apply rtc_once, order_step. Qed.

Lemma business_plane_sound_witness :
  readBusinessStream order_forked "fork:f1:order:1" None false = [] /\
  map be_event_type (readBusinessStream order_forked "fork:f1:order:1" None true) = ["order/refunded"] /\
  map be_stream_seq (readBusinessStream order_forked "order:1" None false) = [1; 2] /\
  fst (order_append order_placed "f1" "order:1" [fact "order/refunded"]) = Throw "fork run f1 may only write a fork: stream, not order:1".
Proof.
  destruct (business_plane_sound any_schema no_errors order_db order_forked order_steps) as (_ & _ & Hq & _).
  split; [apply Hq; reflexivity|]. split_and!; vm_compute; reflexivity.
Defined.

Lemma domain_append_atomic_witness :
  domain_admissible any_schema no_errors order_placed "r1" "order:1" order_event [fact "order/shipped"] = true /\
  map da_stream_seq [{| da_run_seq := 2; da_stream_seq := 3 |}] = [3].
Proof.
  pose proof (domain_append_atomic any_schema no_errors order_db order_placed engine "r1" "order:1" order_event [fact "order/shipped"] order_stamp
    (Ok [{| da_run_seq := 2; da_stream_seq := 3 |}]) (snd (order_append order_placed "r1" "order:1" [fact "order/shipped"]))) as H.
  split; [|reflexivity]. apply H; [apply rtc_once, order_step|vm_compute; reflexivity].
Defined.
