(* ===== verification/Configuration.v ===== *)
(** * Publishing into the configuration stream

    The rule-template store over the business plane: every admitted publication is one row of the
    configuration stream, and the rows alone rebuild what the index holds. Replaying is the reader the
    recorded diffs are written for: an RFC 6902 patch per row, applied in stream order. *)

From S2P Require Import Prelude Collections Number Json JsText Events Graph Fork Scopes CheckRules ToolView Gateway RuleTemplate RuleTemplateFacts Workflow Store StoreFacts BusinessStream.

(** One operation, and the diff of one row, read back from the payload. *)
Definition read_op (v : value) : option PatchOperation :=
  o ← Js.as_object v;
  match Js.field o "op", Js.field o "path" with
  | VStr name, VStr p =>
      op ← (if name ==? "add" then Some op_add else if name ==? "remove" then Some op_remove else if name ==? "replace" then Some op_replace else None);
      Some {| RuleTemplate.op := op; path := p; pvalue := JMap.get o "value" |}
  | _, _ => None
  end.

Definition read_diff (payload : object) : option (list PatchOperation) :=
  match Js.field payload "diff" with VArr ops => mapM read_op ops | _ => None end.

Definition replay_row (ref : string) (bs : option (list value)) (r : StoredBusinessEvent) : option (list value) :=
  bs ← bs;
  match Js.field (be_payload r) "template_ref" with
  | VStr t => if t ==? ref then ops ← read_diff (be_payload r); applyPatch bs ops else Some bs
  | _ => Some bs
  end.

(** The branches of a template according to the rows of the configuration stream. *)
Definition replay (ref : string) (rows : list StoredBusinessEvent) : option (list value) := fold_left (replay_row ref) rows (Some []).

Lemma read_op_patch o : read_op (patch_value o) = Some o.
Proof. destruct o as [[] p [v|]]; reflexivity. Qed.

Lemma read_ops_patch ops : mapM read_op (map patch_value ops) = Some ops.
Proof. induction ops as [|o ops IH]; [done|]. change (mapM read_op (map patch_value (o :: ops))) with (read_op (patch_value o) ≫= fun x => mapM read_op (map patch_value ops) ≫= fun l => Some (x :: l)).
  by rewrite read_op_patch, IH. Qed.

Section Publications.
Context {db : Type} `{!Database db} `{!DatabaseLaws db} `{!ForkLaw db}.
Variable validateSchema : EventDraft -> bool.
Variable schemaErrors : EventDraft -> string.
Variable sha256 : string -> string.

(** The store as the sink of publications. *)
Definition sink (stamp : Stamp) (p : Plane db) (stream type : string) (payload : object) : result (Plane db) :=
  match appendConfigEvent engine p stream type payload stamp with (Ok _, p') => Ok p' | (Throw e, _) => Throw e end.

Lemma published_diff previous draft t : read_diff (publishedPayload sha256 previous draft t) = Some (diffTemplates previous draft) /\
  Js.field (publishedPayload sha256 previous draft t) "template_ref" = VStr (templateRef draft) /\
  Js.field (publishedPayload sha256 previous draft t) "digest" = VStr (pt_digest t).
Proof.
  split_and!; [|reflexivity..]. unfold read_diff. assert (Js.field (publishedPayload sha256 previous draft t) "diff" = VArr (map patch_value (diffTemplates previous draft))) as -> by (by destruct previous).
  apply read_ops_patch.
Qed.

(** One publication through the index and the plane. *)
Lemma publish_row stamp p s draft resolved r p' s' : plane_ok p -> publish sha256 (sink stamp) p s draft resolved = (r, p', s') ->
  match r with
  | Ok (PublicationAdmitted t) => s' = index s draft t /\ publishRuleTemplate sha256 draft resolved = Ok (PublicationAdmitted t) /\ plane_ok p' /\
      exists row, rows_of p' CONFIGURATION_STREAM_ID = rows_of p CONFIGURATION_STREAM_ID ++ [row] /\
        be_payload row = publishedPayload sha256 (JMap.get (drafts s) (templateRef draft)) draft t
  | _ => p' = p /\ s' = s
  end.
Proof.
  intros Hp. unfold publish. destruct (publishRuleTemplate sha256 draft resolved) as [[t|vs]|e]; [|intros [= <- <- <-]; done|intros [= <- <- <-]; done].
  unfold sink. set (payload := publishedPayload _ _ _ _). pose proof (config_append_cases engine p CONFIGURATION_STREAM_ID "rule_template/published" payload stamp Hp) as Hc.
  change ((engine ==? engine) && config_stream CONFIGURATION_STREAM_ID && ("rule_template/published" ==? "rule_template/published")) with true in Hc. cbn match in Hc.
  destruct Hc as (p1 & row & Ha & Hp1 & Hid & _ & Hpay & _ & _). rewrite Ha. intros [= <- <- <-].
  split_and!; [done|done|exact (config_ok _ _ _ _ _ _ _ _ Hp Ha)|]. exists row. split; [|done].
  by rewrite (rows_of_app _ _ _ _ CONFIGURATION_STREAM_ID Hp1) by (by constructor).
Qed.

(** A version that drops two or more branches of the one the index holds. Its diff lists the removals at
    ascending positions, and no patch application gets past the second. *)
Definition drops_several (s : RuleTemplateStore) (draft : RuleTemplateDraft) : bool :=
  match JMap.get (drafts s) (templateRef draft) with Some prev => negb (length (branches prev) <=? S (length (branches draft)))%nat | None => false end.

(** The templates such a version was recorded for. *)
Definition lost_after (s : RuleTemplateStore) (draft : RuleTemplateDraft) (r : result PublicationResult) (lost : list string) : list string :=
  match r with
  | Ok (PublicationAdmitted _) => if drops_several s draft then templateRef draft :: lost else lost
  | _ => lost
  end.

(** What a process does: it publishes any version, it restarts with an empty index, and others write
    elsewhere. [lost] counts along the templates whose record no longer replays. *)
Inductive publication_step : Plane db * RuleTemplateStore * list string -> Plane db * RuleTemplateStore * list string -> Prop :=
| publishes stamp p s lost draft resolved r p' s' :
    publish sha256 (sink stamp) p s draft resolved = (r, p', s') -> publication_step (p, s, lost) (p', s', lost_after s draft r lost)
| restarts p s lost : publication_step (p, s, lost) (p, emptyStore, lost)
| elsewhere p p' s lost : plane_step validateSchema schemaErrors p p' -> rows_of p' CONFIGURATION_STREAM_ID = rows_of p CONFIGURATION_STREAM_ID ->
    publication_step (p, s, lost) (p', s, lost).

Abbreviation recorded_rows p := (rows_of p CONFIGURATION_STREAM_ID).

(** The digest the last row of a template carries. *)
Definition recorded_digest (ref : string) (rows : list StoredBusinessEvent) : value :=
  fold_left (fun last r => match Js.field (be_payload r) "template_ref" with VStr t => if t ==? ref then Js.field (be_payload r) "digest" else last | _ => last end) rows VUndef.

Record index_recorded (p : Plane db) (s : RuleTemplateStore) (lost : list string) : Prop := {
  ir_plane : plane_ok p;
  ir_lost : forall ref, replay ref (recorded_rows p) = None <-> ref ∈ lost;
  ir_replays : forall ref draft, JMap.get (drafts s) ref = Some draft -> ref ∉ lost -> replay ref (recorded_rows p) = Some (map branch_value (branches draft));
  ir_digests : forall ref draft, JMap.get (drafts s) ref = Some draft ->
    exists t, JMap.get (byRef s) ref = Some t /\ pt_digest t = digestOfTemplate sha256 draft /\ recorded_digest ref (recorded_rows p) = VStr (pt_digest t)
}.

Lemma replay_snoc ref rows r : replay ref (rows ++ [r]) = replay_row ref (replay ref rows) r.
Proof. unfold replay. by rewrite fold_left_app. Qed.

Lemma recorded_digest_snoc ref rows r : recorded_digest ref (rows ++ [r]) =
  match Js.field (be_payload r) "template_ref" with VStr t => if t ==? ref then Js.field (be_payload r) "digest" else recorded_digest ref rows | _ => recorded_digest ref rows end.
Proof. unfold recorded_digest. by rewrite fold_left_app. Qed.

Lemma first_version_applies bs draft : applyPatch bs (diffTemplates None draft) = Some (map branch_value (branches draft)).
Proof. reflexivity. Qed.

Lemma next_version_applies prev draft :
  applyPatch (map branch_value (branches prev)) (diffTemplates (Some prev) draft) =
  if (length (branches prev) <=? S (length (branches draft)))%nat then Some (map branch_value (branches draft)) else None.
Proof. rewrite diffTemplates_walk. exact (applyPatch_diff (branches prev) (branches draft) []). Qed.

(** One publication rebuilds its template, or loses it. *)
Lemma publish_replays p s lost draft row : index_recorded p s lost ->
  read_diff (be_payload row) = Some (diffTemplates (JMap.get (drafts s) (templateRef draft)) draft) ->
  Js.field (be_payload row) "template_ref" = VStr (templateRef draft) ->
  replay (templateRef draft) (recorded_rows p ++ [row]) =
  if bool_decide (templateRef draft ∈ lost) || drops_several s draft then None else Some (map branch_value (branches draft)).
Proof.
  intros [_ Hl Hr _] Hdiff Href. rewrite replay_snoc. unfold replay_row. rewrite Href, eqb_refl, Hdiff. unfold drops_several.
  case_bool_decide as Hin; [by rewrite (proj2 (Hl _) Hin)|]. destruct (JMap.get (drafts s) (templateRef draft)) as [prev|] eqn:Eprev.
  - rewrite (Hr _ _ Eprev Hin). cbn [mbind option_bind orb]. rewrite next_version_applies. by destruct (_ <=? _)%nat.
  - destruct (replay (templateRef draft) (recorded_rows p)) as [bs|] eqn:E; [apply first_version_applies|by apply Hl in E].
Qed.

Lemma publish_recorded stamp p s lost draft resolved r p' s' : index_recorded p s lost ->
  publish sha256 (sink stamp) p s draft resolved = (r, p', s') -> index_recorded p' s' (lost_after s draft r lost).
Proof.
  intros Hi Hpub. pose proof Hi as [Hp Hl Hr Hdg]. pose proof (publish_row stamp p s draft resolved r p' s' Hp Hpub) as Hc.
  destruct r as [[t|vs]|e]; [|destruct Hc as [-> ->]; done|destruct Hc as [-> ->]; done]. destruct Hc as (-> & Ht & Hp' & row & Hrows & Hpay).
  destruct (published_diff (JMap.get (drafts s) (templateRef draft)) draft t) as (Hdiff & Href & Hdig). rewrite <- Hpay in *.
  pose proof (publish_replays p s lost draft row Hi Hdiff Href) as Hnew. rewrite <- Hrows in Hnew.
  assert (forall ref, ref <> templateRef draft -> replay ref (recorded_rows p') = replay ref (recorded_rows p) /\ recorded_digest ref (recorded_rows p') = recorded_digest ref (recorded_rows p)) as Hold.
  { intros ref Hne. rewrite Hrows, replay_snoc, recorded_digest_snoc. unfold replay_row. rewrite Href, (proj2 (eqb_false _ _)) by congruence. split; [by destruct (replay ref _)|done]. }
  assert (forall ref, ref ∈ lost_after s draft (Ok (PublicationAdmitted t)) lost <-> ref ∈ lost \/ ref = templateRef draft /\ drops_several s draft = true) as Hlost.
  { intros ref. cbn [lost_after]. destruct (drops_several s draft); [rewrite elem_of_cons|]; naive_solver. }
  split; [done| | |]; intros ref; (destruct (decide (ref = templateRef draft)) as [->|Hne]; [|destruct (Hold ref Hne) as [Ho1 Ho2]]).
  - rewrite Hnew, Hlost. destruct (drops_several s draft); case_bool_decide; naive_solver.
  - rewrite Ho1, Hl, Hlost. naive_solver.
  - intros dr. cbn [index drafts]. rewrite get_set_eq, Hnew, Hlost. intros [= <-] Hn. destruct (drops_several s draft); [naive_solver|]. case_bool_decide; naive_solver.
  - intros dr. cbn [index drafts]. rewrite get_set_ne, Ho1, Hlost by done. intros Hd Hn. apply (Hr _ _ Hd). naive_solver.
  - intros dr. cbn [index drafts byRef]. rewrite !get_set_eq. intros [= <-]. exists t. split_and!; [done|exact (admitted_digest sha256 draft resolved t Ht)|].
    by rewrite Hrows, recorded_digest_snoc, Href, eqb_refl.
  - intros dr. cbn [index drafts byRef]. rewrite !get_set_ne, Ho2 by done. apply Hdg.
Qed.

Lemma publications_recorded st st' : rtc publication_step st st' -> index_recorded st.1.1 st.1.2 st.2 -> index_recorded st'.1.1 st'.1.2 st'.2.
Proof.
  induction 1 as [st|st st1 st' Hs _ IH]; [done|]. intros Hi. apply IH. revert Hi.
  destruct Hs as [stamp p s lost draft resolved r p' s' Hp|p s lost|p p' s lost Hp Hrows]; cbn [fst snd]; intros Hi.
  - exact (publish_recorded _ _ _ _ _ _ _ _ _ Hi Hp).
  - destruct Hi as [Hp Hl _ _]. by split.
  - destruct Hi as [Hok Hl Hr Hdg]. split; [exact (step_ok _ _ _ _ Hok Hp)|by rewrite Hrows..].
Qed.

(** What was recorded up to a position is a prefix of the record. *)
Lemma replay_prefix ref rows more : is_Some (replay ref (rows ++ more)) -> is_Some (replay ref rows).
Proof.
  induction more as [|r more IH] using rev_ind; [by rewrite app_nil_r|]. rewrite app_assoc, replay_snoc. unfold replay_row at 1. intros [bs H]. apply IH.
  by destruct (replay ref (rows ++ more)).
Qed.

Lemma sorted_cut (n : Z) (rows : list StoredBusinessEvent) : StronglySorted (fun a b => be_stream_seq a < be_stream_seq b) rows ->
  exists more, rows = filter_by (fun r => be_stream_seq r <=? n) rows ++ more.
Proof.
  induction 1 as [|r rows Hs IH Hr]; [by exists []|]. cbn. destruct (be_stream_seq r <=? n) eqn:E.
  - destruct IH as [more Hm]. exists more. cbn. by f_equal.
  - exists (r :: rows). rewrite filter_by_none; [done|]. eapply Forall_impl; [exact Hr|]. cbn beta. intros x Hx. lia.
Qed.

(** C37. The configuration stream is the record and the index only a copy of it, as long as no recorded
    version drops two or more branches of the one the publisher's index held. After any publications,
    refusals and restarts of one publisher, whatever else is written to the plane, the last row of every
    template the index holds carries the digest it resolves to. For a template none of whose versions
    dropped two or more branches, the rows read back, each diff applied in its turn as the patch it
    claims to be, rebuild the branches the index holds, and the record replays at every earlier position
    too. Once such a version was recorded, its template never replays again. *)
Theorem publications_replay d p s lost :
  rtc publication_step (empty_plane d, emptyStore, []) (p, s, lost) ->
  (forall ref draft, JMap.get (drafts s) ref = Some draft -> exists t, resolve s ref = Some t /\ pt_digest t = digestOfTemplate sha256 draft /\
     recorded_digest ref (readBusinessStream p CONFIGURATION_STREAM_ID None false) = VStr (pt_digest t)) /\
  (forall ref, replay ref (readBusinessStream p CONFIGURATION_STREAM_ID None false) = None <-> ref ∈ lost) /\
  (forall ref draft, JMap.get (drafts s) ref = Some draft -> ref ∉ lost ->
     replay ref (readBusinessStream p CONFIGURATION_STREAM_ID None false) = Some (map branch_value (branches draft))) /\
  (forall ref n, ref ∉ lost -> is_Some (replay ref (readBusinessStream p CONFIGURATION_STREAM_ID (Some n) false))).
Proof.
  intros Hr. destruct (publications_recorded _ _ Hr) as [Hp Hl Hrep Hdg].
  { split; [exact (empty_ok d)| |done|done]. intros ref. split; [done|]. by intros ?%elem_of_nil. }
  cbn [fst snd] in *.
  assert (forall r, r ∈ recorded_rows p -> be_is_counterfactual r = false) as Hcf by (intros r Hin; by destruct (rows_quarantine p _ r Hp Hin) as (_ & _ & ->)).
  assert (readBusinessStream p CONFIGURATION_STREAM_ID None false = recorded_rows p) as ->.
  { rewrite (read_rows _ _ _ _ Hp). apply filter_by_all, Forall_forall. intros r Hin. by rewrite (Hcf r Hin). }
  split_and!; [|exact Hl|exact Hrep|].
  - intros ref draft Hd. destruct (Hdg ref draft Hd) as (t & Ht & H2 & H3). exists t. split_and!; [|done|done]. unfold resolve. by rewrite Ht.
  - intros ref n Hn. rewrite (read_rows _ _ _ _ Hp), filter_by_and. rewrite (filter_by_all (fun r => false || negb (be_is_counterfactual r))); [|apply Forall_forall; intros r Hin; by rewrite (Hcf r Hin)].
    pose proof (positions_sorted 1 (length (recorded_rows p))) as Hs. rewrite <- (ok_seqs p Hp) in Hs. apply (proj1 (StronglySorted_map _ _ _)) in Hs.
    destruct (sorted_cut n (recorded_rows p) Hs) as [more Hm]. apply (replay_prefix ref _ more). rewrite <- Hm.
    destruct (replay ref (recorded_rows p)) eqn:E; [by eexists|by apply Hl in E].
Qed.
End Publications.

(** ** One publisher, and two *)
Definition ready_branch : RuleBranch := {| condition := "ready"; subDag := {| p_vertices := [sample_look]; p_scopes := [] |} |}.
Definition idle_branch : RuleBranch := {| condition := "idle"; subDag := {| p_vertices := [sample_look]; p_scopes := [] |} |}.
Definition dispatch (bs : list RuleBranch) : RuleTemplateDraft := {| templateRef := "rule://dispatch@v1"; author := "ops"; slotId := None; branches := bs |}.

Definition publish_as (p : Plane MemoryDb.Mem) (s : RuleTemplateStore) (bs : list RuleBranch) := publish sample_hash (sink order_stamp) p s (dispatch bs) sample_view.
Definition plane_after (r : result PublicationResult * Plane MemoryDb.Mem * RuleTemplateStore) : Plane MemoryDb.Mem := snd (fst r).

Definition first_version := publish_as (empty_plane order_db) emptyStore [ready_branch].
Definition second_version := publish_as (plane_after first_version) (snd first_version) [idle_branch; ready_branch].

Lemma publications_replay_witness :
  replay "rule://dispatch@v1" (readBusinessStream (plane_after second_version) CONFIGURATION_STREAM_ID None false) = Some [branch_value idle_branch; branch_value ready_branch] /\
  length (readBusinessStream (plane_after second_version) CONFIGURATION_STREAM_ID None false) = 2%nat.
Proof.
  split; [|vm_compute; reflexivity].
  refine (proj1 (proj2 (proj2 (publications_replay any_schema no_errors sample_hash order_db (plane_after second_version) (snd second_version) [] _)))
    "rule://dispatch@v1" (dispatch [idle_branch; ready_branch]) _ _).
  - pose proof (publishes any_schema no_errors sample_hash order_stamp (empty_plane order_db) emptyStore [] (dispatch [ready_branch]) sample_view
      (fst (fst first_version)) (plane_after first_version) (snd first_version) ltac:(vm_compute; reflexivity)) as H1.
    pose proof (publishes any_schema no_errors sample_hash order_stamp (plane_after first_version) (snd first_version) [] (dispatch [idle_branch; ready_branch]) sample_view
      (fst (fst second_version)) (plane_after second_version) (snd second_version) ltac:(vm_compute; reflexivity)) as H2.
    assert (lost_after emptyStore (dispatch [ready_branch]) (fst (fst first_version)) [] = []) as E1 by (vm_compute; reflexivity).
    assert (lost_after (snd first_version) (dispatch [idle_branch; ready_branch]) (fst (fst second_version)) [] = []) as E2 by (vm_compute; reflexivity).
    rewrite E1 in H1. rewrite E2 in H2. exact (rtc_l _ _ _ _ H1 (rtc_once _ _ H2)).
  - vm_compute. reflexivity.
  - apply not_elem_of_nil.
Defined.

(** A version that drops two branches at once is admitted and recorded, and the record no longer replays. *)
Definition wide_version := publish_as (empty_plane order_db) emptyStore [ready_branch; idle_branch; {| condition := "late"; subDag := {| p_vertices := [sample_look]; p_scopes := [] |} |}].
Definition narrow_version := publish_as (plane_after wide_version) (snd wide_version) [idle_branch].

Example narrowed_twice_lost :
  lost_after (snd wide_version) (dispatch [idle_branch]) (fst (fst narrow_version)) [] = ["rule://dispatch@v1"] /\
  replay "rule://dispatch@v1" (readBusinessStream (plane_after narrow_version) CONFIGURATION_STREAM_ID None false) = None.
Proof. vm_compute. auto. Qed.

(** Two processes with an index each: the second one's version is not the one the first one's next diff is
    taken against, and the record no longer rebuilds what was published last. *)
Definition other_version := publish_as (plane_after first_version) emptyStore [ready_branch; idle_branch].
Definition stale_version := publish_as (plane_after other_version) (snd first_version) [idle_branch].

Example two_publishers :
  JMap.get (drafts (snd stale_version)) "rule://dispatch@v1" = Some (dispatch [idle_branch]) /\
  replay "rule://dispatch@v1" (readBusinessStream (plane_after stale_version) CONFIGURATION_STREAM_ID None false) = Some [branch_value idle_branch; branch_value idle_branch].
Proof. vm_compute. auto. Qed.
