(* ===== verification/Supervisor.v ===== *)
(** * The supervisor (scripts/demo/b2b2c-retail.ts)

    The driver of one run: it reads which vertices are ready, hands each to the executor that owns it,
    and waits for the Coordinator when nothing is. The executors are an interface, [Engine], which the
    definitions of [ReadExecutor], [Router], [Planner] and [RecoveryLoop] implement; what the driver
    prints is left out, but for the vertices its headings name. *)

From S2P Require Import Prelude Collections Number Json JsonParse JsText Events Graph Fork Projection Scopes Lineage Llm CheckRules ToolView Gateway RuleTemplate Workflow WorkflowFacts Store StoreFacts Submission Planner ProposalFacts PlannerFacts Recovery RecoveryFacts RecoveryLoop Router ReadExecutor Console.

(** ** Which vertices are ready *)
Record Pending : Type := { pn_vertexId : string; pn_role : string }.

Definition ids_of (t : EventType) (events : list StoredEvent) : list string :=
  JSet.of_list (omap vid (filter_by (is_type t) events)).

Section Ready.
Context `{Collation}.

Definition ready (succeeded touched roles : list string) (v : SurfaceVertex) : option Pending :=
  match truthy (sv_role v) with
  | Some role => if includes role roles && negb (JSet.has touched (sv_vertex_id v)) && forallb (JSet.has succeeded) (sv_parent_refs v)
                 then Some {| pn_vertexId := sv_vertex_id v; pn_role := role |} else None
  | None => None
  end.

Definition by_pending (a b : Pending) : Z := localeCompare (pn_vertexId a) (pn_vertexId b).

Definition readyNonTool (events : list StoredEvent) (roles : list string) : result (list Pending) :=
  view ← surface events;
  Ok (js_sort by_pending (omap (ready (ids_of vertex_succeeded events) (ids_of vertex_started events) roles) (JMap.values (sf_vertices view)))).
End Ready.

(** *** The names authors gave
    The entries of a freeze, at their declared type: one that is not a pair of strings names nothing. *)
Definition nameStep (names : list (string * string)) (entry : value) : result (list (string * string)) :=
  key ← access entry "vertex_id";
  name ← access entry "author_id";
  Ok (match key, name with VStr id, VStr author => JMap.set names id author | _, _ => names end).

Definition authorNames (events : list StoredEvent) : result (list (string * string)) :=
  foldM (fun names e => if is_type subgraph_frozen e then entries ← iterate (pfield e "vertices"); foldM nameStep names entries else Ok names) [] events.

(** [names.get(id) ?? id] *)
Definition authored (names : list (string * string)) (id : string) : string := default id (JMap.get names id).

(** ** The texts and the graph of the demo *)
Definition WORKFLOW_TYPE : string := "b2b2c-retail".
Definition CATEGORY : string := "portable-espresso".
Definition MAX_TURNS : nat := 12.

Definition quoted (s : string) : string := Text.dquote +:+ s +:+ Text.dquote.

Definition goalFor (authored : string) : string :=
  if starts_with "source" authored then
    "Pick one supplier that can meet target_units and get a binding quote from it, and check our own stock for that supplier's sku." +:+ " " +:+
    "Then add one planner vertex, and give that planner the id exactly " +:+ quoted "fulfil" +:+ "."
  else if starts_with "negotiate" authored then
    "Demand is surging and there are several suppliers. Get a binding quote from the cheapest one whose minimum order we can meet."
  else if starts_with "restock" authored then
    "Take no action here; the fulfilment planner will place the purchase order. Return a single planner vertex with the id " +:+ quoted "noop" +:+ "."
  else if starts_with "fulfil" authored then
    "Complete the purchase and go live, in this order:" +:+ " " +:+
    "place the wholesale purchase order with supplier.order using purchase_order_id from the task (this is what lands stock in our warehouse)," +:+ " " +:+
    "reserve that stock, authorize payment, capture the payment, confirm the reservation, then draft and publish the channel listing at the market sell price." +:+ " " +:+
    "Each step depends on the one before it, so put every one of them in exactly one scope with the id " +:+ quoted "s1" +:+ ". Do not declare a second scope."
  else "Take the next step toward the goal. If nothing is needed, return a single planner vertex with the id " +:+ quoted "noop" +:+ ".".

(** What a branch emits: one planner. *)
Definition lone_planner (id : string) : SubDagProposal :=
  {| p_vertices := [{| pv_id := id; pv_parents := []; pv_kind := k_planner; pv_tool := None; pv_scopeId := None; pv_confirmedOutput := None; pv_templateRef := None |}]; p_scopes := [] |}.

Definition policies (sha256 : string -> string) : list RuleTemplateDraft :=
  [{| templateRef := "rule://retail/sourcing-negotiation@v1"; author := "category-manager@retailer";
      slotId := Some (slotIdOf sha256 WORKFLOW_TYPE ["market.demand"; "supplier.search"] "source");
      branches := [{| condition := "market.demand.output.trend == " +:+ quoted "surging" +:+ " && supplier.search.output.candidate_count >= 2"; subDag := lone_planner "negotiate" |}] |};
   {| templateRef := "rule://retail/out-of-stock-restock@v1"; author := "ops@retailer";
      slotId := Some (slotIdOf sha256 WORKFLOW_TYPE ["inventory.check"; "supplier.quote"] "fulfil");
      branches := [{| condition := "inventory.check.output.available < 1"; subDag := lone_planner "restock" |}] |}].

(** [uuid]: what [randomUUID] returns. *)
Definition seedWorkflow (uuid : string) : WorkflowSubmission :=
  {| submissionId := "retail-" +:+ uuid; workflowType := Some WORKFLOW_TYPE; w_scopes := None; attachTo := None; source := None;
     w_vertices := [{| sv_id := "demand"; sv_parents := None; sv_scope := None; sv_kind := SubmittedTool "market.demand" (Some [("category", VStr CATEGORY)]) None None |};
                    {| sv_id := "catalogue"; sv_parents := None; sv_scope := None; sv_kind := SubmittedTool "supplier.search" (Some [("category", VStr CATEGORY)]) None None |};
                    {| sv_id := "source"; sv_parents := Some ["demand"; "catalogue"]; sv_scope := None; sv_kind := SubmittedPlanner (Some "Choose a supplier and a quantity") |}] |}.

(** ** The engine, as the driver uses it *)
Definition M (W A : Type) : Type := W -> completion A * W.
#[global] Instance M_ret W : MRet (M W) := fun A a w => (Normal a, w).
#[global] Instance M_bind W : MBind (M W) := fun A B k m w =>
  match m w with (Normal a, w1) => k a w1 | (Abrupt e, w1) => (Abrupt e, w1) end.
Definition orThrow {W A} (r : result A) : M W A := fun w => (of_result r, w).

(** A row of [txn_scope]; [requested] is a null condition when no outcome is recorded, which is false. *)
Record ScopeRow : Type := { sw_scope_id : string; sw_state : string; sw_fenced : bool; sw_requested : bool }.

(** The processes of one run, and the world they share: other processes write to it between calls. *)
Class Engine (W : Type) : Type := {
  readStream : M W (list StoredEvent);
  processOne : M W (option ReadExecutionReport);
  recoverOne : (string -> string) -> M W (RecoveryResult PlannerTurn);
  evaluate : string -> M W RouterEvaluation;
  (** the planner and its goal *)
  advanceTurn : string -> string -> M W PlannerTurn;
  queryScopes : M W (list ScopeRow);
  (** [Date.now()] and the half second between two polls *)
  now : M W Z;
  sleep : M W unit
}.

Section Driver.
Context `{Collation}.
Context {W : Type} `{!Engine W}.

(** The loop over [reads.processOne()]; [None]: still reading when the fuel ends. *)
Fixpoint drainReads (fuel : nat) : M W (option (list ReadExecutionReport)) :=
  match fuel with
  | O => mret None
  | S fuel => report ← processOne;
              match report with
              | None => mret (Some [])
              | Some r => rest ← drainReads fuel; mret (cons r <$> rest)
              end
  end.

(** What one pass did: whether it progressed, and the vertices its headings name. *)
Record Pass : Type := { ps_progressed : bool; ps_reads : list ReadExecutionReport; ps_routers : list string; ps_planner : option string }.
Definition handed (p : Pass) : list string := ps_routers p ++ match ps_planner p with Some v => [v] | None => [] end.

(** The names and the log after the recovery step, and the flag it assigns. *)
Definition recoveryStep (events : list StoredEvent) (names : list (string * string)) (progressed : bool) : M W (list StoredEvent * list (string * string) * bool) :=
  match outstanding events with
  | [] => mret (events, names, progressed)
  | _ => outcome ← recoverOne (fun vertexId => goalFor (default "" (JMap.get names vertexId)));
         events ← readStream;
         names ← orThrow (authorNames events);
         mret (events, names, match outcome with awaiting_cancellation _ | idle => false | _ => true end)
  end.

Definition routeAll (routers : list Pending) : M W unit :=
  foldr (fun p rest => _ ← evaluate (pn_vertexId p); rest) (mret tt) routers.

Definition advance (fuel : nat) : M W (option Pass) :=
  drained ← drainReads fuel;
  match drained with
  | None => mret None
  | Some executed =>
      events ← readStream;
      names ← orThrow (authorNames events);
      '(events, names, progressed) ← recoveryStep events names (match executed with [] => false | _ => true end);
      routers ← orThrow (readyNonTool events ["router"]);
      _ ← routeAll routers;
      let progressed := match routers with [] => progressed | _ => true end in
      events ← readStream;
      planners ← orThrow (readyNonTool events ["planner"]);
      match planners with
      | [] => mret (Some {| ps_progressed := progressed; ps_reads := executed; ps_routers := map pn_vertexId routers; ps_planner := None |})
      | next :: _ => _ ← advanceTurn (pn_vertexId next) (goalFor (authored names (pn_vertexId next)));
                     mret (Some {| ps_progressed := true; ps_reads := executed; ps_routers := map pn_vertexId routers; ps_planner := Some (pn_vertexId next) |})
      end
  end.

(** *** Waiting for the Coordinator *)
Definition stoppedScopes (scopes : list ScopeRow) : list string :=
  JSet.of_list (map sw_scope_id (filter_by (fun s => (sw_fenced s && (sw_state s ==? "open")) || includes (sw_state s) ["cancelling"; "cancelled"; "suspended"]) scopes)).

Definition terminalIds (events : list StoredEvent) : list (option string) :=
  JSet.of_list (map vertex_id (filter_by (fun e => includes (event_type e) [vertex_succeeded; vertex_failed]) events)).

(** A frozen tool or barrier with no outcome, outside a scope that stopped. *)
Definition owed (events : list StoredEvent) (scopes : list ScopeRow) : list StoredEvent :=
  filter_by (fun e => is_type vertex_created e && includes (default "" (pstr e "role")) ["tool"; "confirmation-barrier"] &&
                      negb (JSet.has (terminalIds events) (vertex_id e)) &&
                      negb (match sid e with Some s => JSet.has (stoppedScopes scopes) s | None => false end)) events.

Definition resolvedSince (before : nat) (events : list StoredEvent) : bool :=
  existsb (fun e => (is_type txn_cancel e && (pstr e "phase" ==? Some "completed")) || (is_type txn_scope e && (pstr e "state" ==? Some "suspended"))) (skipn before events).

Definition cancelling (scopes : list ScopeRow) : bool :=
  existsb (fun s => (sw_requested s && (sw_state s ==? "open")) || (sw_state s ==? "cancelling")) scopes.

Definition quiet (before : nat) (events : list StoredEvent) (scopes : list ScopeRow) : bool :=
  (match owed events scopes with [] => true | _ => false end && negb (cancelling scopes)) || resolvedSince before events.

(** [Date.now() > deadline] is read only where the rest does not decide. *)
Definition past (deadline : Z) : M W bool := t ← now; mret (deadline <? t).

Fixpoint poll (fuel before : nat) (deadline : Z) : M W (option bool) :=
  match fuel with
  | O => mret None
  | S fuel =>
      events ← readStream;
      scopes ← queryScopes;
      stop ← if quiet before events scopes then mret true else past deadline;
      if stop : bool then after ← readStream; mret (Some (negb (length after =? before)%nat))
      else _ ← sleep; poll fuel before deadline
  end.

Definition settle (fuel : nat) (timeoutMs : Z) : M W (option bool) :=
  events ← readStream;
  start ← now;
  poll fuel (length events) (start + timeoutMs).

(** The loop of [main], [turns] passes at most; [None]: a loop inside a pass was still running. *)
Fixpoint drive (turns fuel : nat) : M W (option (list Pass)) :=
  match turns with
  | O => mret (Some [])
  | S turns =>
      pass ← advance fuel;
      match pass with
      | None => mret None
      | Some p =>
          moved ← if ps_progressed p then mret (Some true) else settle fuel 60000;
          match moved with
          | None => mret None
          | Some false => mret (Some [p])
          | Some true => rest ← drive turns fuel; mret (cons p <$> rest)
          end
      end
  end.
End Driver.

(** ** What an engine promises *)
Section Laws.
Context {W : Type} `{!Engine W}.
Variable stream : W -> list StoredEvent.

(** The log only grows. *)
Definition extends (w w' : W) : Prop := exists rows, stream w' = stream w ++ rows.

#[export] Instance extends_preorder : PreOrder extends.
Proof.
  split.
  - intros w. exists []. by rewrite app_nil_r.
  - intros w w1 w' [rows H1] [rows' H2]. exists (rows ++ rows'). by rewrite H2, H1, (assoc (++)).
Qed.

Definition appends {A} (m : M W A) : Prop := forall w a w', m w = (Normal a, w') -> extends w w'.

Class EngineLaws : Prop := {
  read_law : forall w events w', readStream w = (Normal events, w') -> extends w w' /\ events = stream w';
  reads_law : appends processOne;
  recover_law : forall goalFor, appends (recoverOne goalFor);
  scopes_law : appends queryScopes;
  now_law : appends now;
  sleep_law : appends sleep;
  (** a router or a planner that returns has recorded its start *)
  evaluate_law : forall v w a w', evaluate v w = (Normal a, w') -> v <> "" -> extends w w' /\ v ∈ ids_of vertex_started (stream w');
  turn_law : forall v goal w a w', advanceTurn v goal w = (Normal a, w') -> v <> "" -> extends w w' /\ v ∈ ids_of vertex_started (stream w')
}.
End Laws.

Lemma M_bind_Normal {W A B} (m : M W A) (k : A -> M W B) w b w' :
  (m ≫= k) w = (Normal b, w') -> exists a w1, m w = (Normal a, w1) /\ k a w1 = (Normal b, w').
Proof. unfold mbind, M_bind. destruct (m w) as [[a|e] w1]; [eauto|done]. Qed.

Lemma M_ret_Normal {W A} (a b : A) (w w' : W) : mret (M:=M W) a w = (Normal b, w') -> b = a /\ w' = w.
Proof. by intros [= -> ->]. Qed.

Lemma orThrow_Normal {W A} (r : result A) (w w' : W) a : orThrow r w = (Normal a, w') -> r = Ok a /\ w' = w.
Proof. unfold orThrow. destruct r; intros H; [by injection H as -> ->|done]. Qed.

(** Reading a driver's equation: past a call, past something that may throw, and at a value. *)
Ltac callM H a w E := apply M_bind_Normal in H as (a & w & E & H).
Ltac throwM H a E := let w := fresh "w" in callM H a w E; apply orThrow_Normal in E as [E ->].
Ltac retM H := apply M_ret_Normal in H as [H ->].

Lemma elem_of_ids t events v : v ∈ ids_of t events <-> exists e, e ∈ events /\ event_type e = t /\ vid e = Some v.
Proof.
  unfold ids_of. rewrite elem_of_JSet_of_list, list_elem_of_omap. setoid_rewrite elem_of_filter_by. setoid_rewrite is_type_true. naive_solver.
Qed.

Lemma ids_of_app t events rows v : v ∈ ids_of t events -> v ∈ ids_of t (events ++ rows).
Proof. rewrite !elem_of_ids. setoid_rewrite elem_of_app. naive_solver. Qed.

(** ** A ready vertex *)

(** [v] may be started on this log: it was created and is not discarded, it has not started, and the
    parents it was created with have all succeeded. *)
Record startable (events : list StoredEvent) (roles : list string) (v : string) : Prop := {
  sb_named : v <> "";
  sb_created : exists c, c ∈ events /\ event_type c = vertex_created /\ vid c = Some v /\
    (exists role, pstr c "role" = Some role /\ role ∈ roles) /\ forall p, p ∈ parent_refs c -> p ∈ ids_of vertex_succeeded events;
  sb_active : forall e, e ∈ events -> event_type e = subgraph_shadowed -> run_seq e <= MAX_SAFE_INTEGER -> v ∉ pstrings e "vertex_ids";
  sb_fresh : v ∉ ids_of vertex_started events
}.

Lemma surface_vertex events s id v : surface events = Ok s -> JMap.get (sf_vertices s) id = Some v ->
  sv_vertex_id v = id /\ (exists c, c ∈ events /\ event_type c = vertex_created /\ vid c = Some id /\ sv_parent_refs v = parent_refs c /\ sv_role v = pstr c "role") /\
  forall e, e ∈ events -> event_type e = subgraph_shadowed -> run_seq e <= MAX_SAFE_INTEGER -> id ∉ pstrings e "vertex_ids".
Proof.
  intros (vs & [_ _ Hids Hsh] & Hvs)%surface_at_inv Hg. rewrite Hvs in Hg. cbn [fst snd] in *. set (sh := sf_shadowed s) in *.
  rewrite get_delete_all in Hg. destruct (includes id sh) eqn:Ei; [done|]. apply includes_false in Ei.
  destruct (Hids _ _ Hg) as (c & post & ((pre & Hpre) & Ht & Hv & _) & [Hid (Hp & Hr & _) _ _ _]). split; [done|]. split.
  - exists c. split_and!; try done. assert (c ∈ pre ++ c :: post) as Hc by set_solver. rewrite <- Hpre in Hc. by apply elem_of_filter_by in Hc as [Hc _].
  - intros e He Het Hseq Hin. apply Ei, Hsh. assert (e ∈ filter_by (fun e => run_seq e <=? MAX_SAFE_INTEGER) events) as (p & q & Eq)%list_elem_of_split by (apply elem_of_filter_by; split; [done|lia]).
    exists p, e, q. split; [exact Eq|]. split; [done|by left].
Qed.

Lemma surface_NoDup events s : surface events = Ok s -> NoDup (JMap.keys (sf_vertices s)).
Proof. intros (vs & [_ Hnd _ _] & ->)%surface_at_inv. by apply NoDup_keys_delete_all. Qed.

Section ReadyFacts.
Context `{Collation}.

Lemma ready_Some succeeded touched roles v p : ready succeeded touched roles v = Some p <->
  pn_vertexId p = sv_vertex_id v /\ sv_role v = Some (pn_role p) /\ pn_role p <> "" /\ pn_role p ∈ roles /\ (sv_vertex_id v ∉ touched) /\ forall q, q ∈ sv_parent_refs v -> q ∈ succeeded.
Proof.
  unfold ready. destruct p as [i r]. cbn [pn_vertexId pn_role]. destruct (truthy (sv_role v)) as [role|] eqn:Er.
  - apply truthy_Some in Er as [Er Hne]. destruct (includes role roles && _ && _) eqn:Ec.
    + apply andb_true_iff in Ec as [[Hi Ht]%andb_true_iff Hp]. apply includes_true in Hi. apply negb_true_iff, JSet_has_false in Ht.
      rewrite forallb_forall in Hp. setoid_rewrite <- list_elem_of_In in Hp. setoid_rewrite JSet_has_true in Hp.
      split; [intros [= <- <-]; split_and!; first [congruence|done]|]. intros (-> & Hr & _). congruence.
    + split; [done|]. intros (-> & Hr & _ & Hin & Ht & Hp). assert (role = r) as -> by congruence. exfalso. apply not_true_iff_false in Ec. apply Ec.
      rewrite (proj2 (includes_true _ _) Hin), (proj2 (JSet_has_false _ _) Ht). cbn [andb negb]. apply forallb_forall. intros q Hq. apply JSet_has_true, Hp. by apply list_elem_of_In.
  - split; [done|]. intros (_ & Hr & Hne & _). rewrite Hr in Er. by destruct r.
Qed.

Lemma ready_NoDup succeeded touched roles (m : list (string * SurfaceVertex)) : NoDup (JMap.keys m) -> (forall k v, (k, v) ∈ m -> sv_vertex_id v = k) ->
  NoDup (map pn_vertexId (omap (ready succeeded touched roles) (JMap.values m))).
Proof.
  induction m as [|[k v] m IH]; cbn; [constructor|]. intros [Hk Hm]%NoDup_cons Hid. specialize (IH Hm ltac:(intros; apply Hid; by right)).
  destruct (ready succeeded touched roles v) as [p|] eqn:Er; [|done]. cbn. apply NoDup_cons. split; [|done]. apply ready_Some in Er as (Hp & _). rewrite Hp, (Hid k v ltac:(left)).
  intros (q & Hq & (v' & Hv' & Hr)%list_elem_of_omap)%elem_of_map. apply ready_Some in Hr as (Hq' & _). apply elem_of_map in Hv' as ([k' v''] & -> & Hin). cbn [snd] in Hq'.
  apply Hk. rewrite Hq, Hq', (Hid k' v'' ltac:(by right)). apply elem_of_map. by exists (k', v'').
Qed.

(** What is ready may be started; it is listed in the order of its names, and nothing twice. *)
Lemma readyNonTool_spec events roles ps : readyNonTool events roles = Ok ps ->
  NoDup (map pn_vertexId ps) /\ StronglySorted (fun a b => by_pending a b <= 0) ps /\ Forall (fun p => startable events roles (pn_vertexId p)) ps.
Proof.
  unfold readyNonTool. intros Hr. apply bind_Ok in Hr as (s & Hs & Hr). injection Hr as <-. pose proof (surface_NoDup _ _ Hs) as Hnd.
  assert (forall p, p ∈ omap (ready (ids_of vertex_succeeded events) (ids_of vertex_started events) roles) (JMap.values (sf_vertices s)) ->
    exists v, JMap.get (sf_vertices s) (pn_vertexId p) = Some v /\ ready (ids_of vertex_succeeded events) (ids_of vertex_started events) roles v = Some p) as Hget.
  { intros p (v & Hv & Hp)%list_elem_of_omap. exists v. split; [|done]. unfold JMap.values in Hv. apply elem_of_map in Hv as ([k v'] & -> & Hin). cbn [snd] in *.
    pose proof (get_elem _ _ _ Hnd Hin) as Hg. destruct (surface_vertex _ _ _ _ Hs Hg) as (Hid & _). apply ready_Some in Hp as (-> & _). by rewrite Hid. }
  split_and!.
  - rewrite (fmap_Permutation pn_vertexId _ _ (js_sort_Permutation by_pending _)). apply ready_NoDup; [done|]. intros k v Hin. by destruct (surface_vertex _ _ _ _ Hs (get_elem _ _ _ Hnd Hin)).
  - apply js_sort_sorted. exact _.
  - apply Forall_forall. intros p Hp%elem_of_js_sort. destruct (Hget p Hp) as (v & Hg & Hrd). destruct (surface_vertex _ _ _ _ Hs Hg) as (Hid & (c & Hc & Ht & Hv & Hpr & Hro) & Hact).
    apply ready_Some in Hrd as (_ & Hrole & _ & Hin & Hfresh & Hpar). split; [|by exists c; rewrite <- Hpr, <- Hro; eauto 10|done|by rewrite <- Hid].
    intros Hn. rewrite Hn in Hv. unfold vid in Hv. destruct (vertex_id c) as [[|]|]; discriminate.
Qed.
End ReadyFacts.

(** ** Nothing is handed out twice, or too early *)
Section Supervised.
Context `{Collation}.
Context {W : Type} `{!Engine W} (stream : W -> list StoredEvent) `{!EngineLaws stream}.
Abbreviation extends := (extends stream).

(** [v] was handed out between [w] and [w']: on a log read in between it could be started, and it is
    started in the end. *)
Definition launched (w w' : W) (v : string) : Prop :=
  exists before, (exists rows, before = stream w ++ rows) /\ (exists rows, stream w' = before ++ rows) /\
    startable before ["router"; "planner"] v /\ v ∈ ids_of vertex_started (stream w').

Lemma started_extends w w' v : extends w w' -> v ∈ ids_of vertex_started (stream w) -> v ∈ ids_of vertex_started (stream w').
Proof. intros [rows ->]. apply ids_of_app. Qed.

Lemma launched_weaken w0 w w' w1 v : extends w0 w -> extends w' w1 -> launched w w' v -> launched w0 w1 v.
Proof.
  intros [r0 H0] [r1 H1] (before & (ra & Ha) & (rb & Hb) & Hs & Hst). exists before. split_and!; [| |done|by eapply started_extends; [exists r1|]].
  - exists (r0 ++ ra). by rewrite Ha, H0, (assoc (++)).
  - exists (rb ++ r1). by rewrite H1, Hb, (assoc (++)).
Qed.

Lemma launched_fresh w w' v : launched w w' v -> v ∉ ids_of vertex_started (stream w).
Proof. intros (before & (rows & ->) & _ & [_ _ _ Hf] & _) Hin. by apply Hf, ids_of_app. Qed.

Lemma launched_started w w' v : launched w w' v -> v ∈ ids_of vertex_started (stream w').
Proof. by intros (before & _ & _ & _ & Hs). Qed.

Lemma startable_roles events roles roles' v : (forall r, r ∈ roles -> r ∈ roles') -> startable events roles v -> startable events roles' v.
Proof. intros Hr [Hn (c & H1 & H2 & H3 & (role & H4 & H5) & H6) Ha Hf]. split; [done| |done|done]. exists c. split_and!; [done|done|done|by exists role; auto|done]. Qed.

Lemma drain_extends fuel w r w' : drainReads fuel w = (Normal r, w') -> extends w w'.
Proof.
  revert w r w'; induction fuel as [|fuel IH]; intros w r w' Hd; cbn [drainReads] in Hd; [by retM Hd|]. callM Hd rep w1 E. apply (reads_law stream) in E.
  destruct rep as [rep|]; [|by retM Hd]. callM Hd rest w2 E2. retM Hd. apply IH in E2. by etransitivity.
Qed.

Lemma recoveryStep_extends events names b w ev ns b' w' : events = stream w -> recoveryStep events names b w = (Normal (ev, ns, b'), w') -> extends w w' /\ ev = stream w'.
Proof.
  intros -> Hr. unfold recoveryStep in Hr. destruct (outstanding (stream w)); [retM Hr; by injection Hr as -> -> ->|].
  callM Hr outcome w1 E1. apply (recover_law stream) in E1. callM Hr events w2 E2. apply (read_law stream) in E2 as [E2 ->]. throwM Hr ns' En. retM Hr. injection Hr as -> -> ->.
  split; [by etransitivity|done].
Qed.

Lemma routeAll_started ps w u w' : Forall (fun p => pn_vertexId p <> "") ps -> routeAll ps w = (Normal u, w') ->
  extends w w' /\ forall p, p ∈ ps -> pn_vertexId p ∈ ids_of vertex_started (stream w').
Proof.
  revert w; induction ps as [|p ps IH]; intros w Hne Hr; cbn [routeAll foldr] in Hr.
  - retM Hr. split; [reflexivity|]. by intros p Hp%elem_of_nil.
  - inversion Hne as [|? ? Hp Hps]; subst. callM Hr ev w1 E. apply (evaluate_law stream) in E as [E Hst]; [|done]. destruct (IH _ Hps Hr) as [Hx Hall].
    split; [by etransitivity|]. intros q [->|Hq]%elem_of_cons; [by eapply started_extends|by apply Hall].
Qed.

Lemma past_extends deadline w b w' : past deadline w = (Normal b, w') -> extends w w'.
Proof. intros Hp. unfold past in Hp. callM Hp t w1 E. retM Hp. by apply (now_law stream) in E. Qed.

Lemma poll_extends fuel before deadline w r w' : poll fuel before deadline w = (Normal r, w') -> extends w w'.
Proof.
  revert w; induction fuel as [|fuel IH]; intros w Hp; cbn [poll] in Hp; [by retM Hp|]. callM Hp events w1 E1. apply (read_law stream) in E1 as [E1 _].
  callM Hp scopes w2 E2. apply (scopes_law stream) in E2. callM Hp stop w3 E3.
  assert (extends w2 w3) as Hx by (destruct (quiet _ _ _); [by retM E3|by apply past_extends in E3]). destruct stop.
  - callM Hp after w4 E4. apply (read_law stream) in E4 as [E4 _]. retM Hp. by do 3 (etransitivity; [eassumption|]).
  - callM Hp u w4 E4. apply (sleep_law stream) in E4. apply IH in Hp. by do 4 (etransitivity; [eassumption|]).
Qed.

Lemma settle_extends fuel timeoutMs w r w' : settle fuel timeoutMs w = (Normal r, w') -> extends w w'.
Proof.
  intros Hs. unfold settle in Hs. callM Hs events w1 E1. apply (read_law stream) in E1 as [E1 _]. callM Hs t w2 E2. apply (now_law stream) in E2. apply poll_extends in Hs.
  by do 2 (etransitivity; [eassumption|]).
Qed.

(** A ready vertex that is then started was launched. *)
Lemma ready_launched roles w w1 w' p : (forall r, r ∈ roles -> r ∈ ["router"; "planner"]) -> extends w w1 -> extends w1 w' ->
  startable (stream w1) roles (pn_vertexId p) -> pn_vertexId p ∈ ids_of vertex_started (stream w') -> launched w w' (pn_vertexId p).
Proof. intros Hr Hw Hw' Hs Hst. exists (stream w1). split_and!; [done|done|by eapply startable_roles|done]. Qed.

(** One pass. *)
Lemma advance_hands fuel w p w' : advance fuel w = (Normal (Some p), w') -> extends w w' /\ NoDup (handed p) /\ Forall (launched w w') (handed p).
Proof.
  intros Ha. unfold advance in Ha. callM Ha drained w1 E1. apply drain_extends in E1. destruct drained as [executed|]; [|by retM Ha]. callM Ha events w2 E2. apply (read_law stream) in E2 as [E2 ->].
  throwM Ha names En. callM Ha st w3 E3. destruct st as [[ev ns] b]. apply recoveryStep_extends in E3 as [E3 ->]; [|done]. throwM Ha routers Er. apply readyNonTool_spec in Er as (Hnd & _ & Hrs).
  callM Ha u w4 E4. apply routeAll_started in E4 as [E4 Hst]; [|eapply Forall_impl; [exact Hrs|]; by intros q []]. callM Ha ev w5 E5. apply (read_law stream) in E5 as [E5 ->].
  throwM Ha planners Ep. apply readyNonTool_spec in Ep as (_ & _ & Hps). assert (extends w w3) as Hw3 by (by do 2 (etransitivity; [eassumption|])). assert (extends w3 w5) as Hw5 by (by etransitivity).
  assert (forall x, extends w5 x -> Forall (launched w x) (map pn_vertexId routers)) as Hrouters.
  { intros x Hx. apply Forall_map, Forall_forall. intros q Hq. rewrite Forall_forall in Hrs. apply (ready_launched ["router"] w w3); [set_solver|done|by etransitivity|by apply Hrs|].
    eapply started_extends; [exact Hx|]. eapply started_extends; [exact E5|]. by apply Hst. }
  destruct planners as [|next rest].
  - retM Ha. injection Ha as ->. unfold handed. cbn [ps_routers ps_planner]. rewrite app_nil_r. split_and!; [by etransitivity|done|by apply Hrouters].
  - callM Ha turn w6 E6. inversion Hps as [|? ? Hnext _]; subst. apply (turn_law stream) in E6 as [E6 Hstarted]; [|apply Hnext]. retM Ha. injection Ha as ->.
    unfold handed. cbn [ps_routers ps_planner]. split_and!; [by do 2 (etransitivity; [eassumption|])| |].
    + apply NoDup_app. split_and!; [done| |apply NoDup_singleton]. intros v Hv ->%list_elem_of_singleton. apply (sb_fresh _ _ _ Hnext). apply elem_of_map in Hv as (q & -> & Hq).
      eapply started_extends; [exact E5|by apply Hst].
    + apply Forall_app. split; [by apply Hrouters|]. apply Forall_singleton. apply (ready_launched ["planner"] w w5); [set_solver|by etransitivity|done|done|done].
Qed.

(** Every vertex handed out in a run of the driver was launched, and none was handed out twice. *)
Lemma drive_once turns fuel w passes w' :
  drive turns fuel w = (Normal (Some passes), w') ->
  extends w w' /\ (length passes <= turns)%nat /\ NoDup (concat (map handed passes)) /\ Forall (launched w w') (concat (map handed passes)).
Proof.
  revert w passes; induction turns as [|turns IH]; intros w passes Hd; cbn [drive] in Hd.
  - retM Hd. injection Hd as ->. split_and!; [reflexivity|done|constructor|constructor].
  - callM Hd pass w1 E1. destruct pass as [p|]; [|by retM Hd]. apply advance_hands in E1 as (Hx1 & Hnd & Hl). callM Hd moved w2 E2.
    assert (extends w1 w2) as Hx2 by (destruct (ps_progressed p); [by retM E2|by apply settle_extends in E2]). destruct moved as [[]|]; [| |by retM Hd].
    + callM Hd rest w3 E3. retM Hd. destruct rest as [rest|]; [|done]. injection Hd as ->. destruct (IH _ _ E3) as (Hx3 & Hlen & Hnd' & Hl'). cbn [map concat length].
      split_and!; [by do 2 (etransitivity; [eassumption|])|lia| |].
      * apply NoDup_app. split_and!; [done| |done]. intros v Hv Hv'. rewrite Forall_forall in Hl, Hl'. apply (launched_fresh w2 w3 v); [by apply Hl'|].
        eapply started_extends; [exact Hx2|]. by eapply launched_started, Hl.
      * apply Forall_app. split; (eapply Forall_impl; [eassumption|]); intros v Hv; (eapply launched_weaken; [| |exact Hv]); [reflexivity|by etransitivity|by etransitivity|reflexivity].
    + retM Hd. injection Hd as ->. cbn [map concat length]. rewrite app_nil_r. split_and!; [by etransitivity|lia|done|]. eapply Forall_impl; [exact Hl|]. intros v Hv. eapply launched_weaken; [reflexivity|exact Hx2|exact Hv].
Qed.
End Supervised.

(** ** Waiting ends *)
Section Waiting.
Context `{Collation}.
Context {W : Type} `{!Engine W} (stream : W -> list StoredEvent) `{!EngineLaws stream}.
Abbreviation extends := (extends stream).

(** The clock never goes back, and a sleep takes the half second it asks for. *)
Class Clock (clock : W -> Z) : Prop := {
  clock_read : forall w events w', readStream w = (Normal events, w') -> clock w <= clock w';
  clock_query : forall w rows w', queryScopes w = (Normal rows, w') -> clock w <= clock w';
  clock_now : forall w t w', now w = (Normal t, w') -> clock w <= t <= clock w';
  clock_sleep : forall w u w', sleep w = (Normal u, w') -> clock w + 500 <= clock w'
}.
Context (clock : W -> Z) `{!Clock clock}.

(** What a wait that ended says: either what it read then owes nothing or shows a cancellation
    resolved, or the deadline had passed; and its answer is whether the log has grown since. *)
Definition waited (before : nat) (deadline : Z) (moved : bool) (w w' : W) : Prop :=
  moved = negb (length (stream w') =? before)%nat /\
  exists seen scopes queried, extends w seen /\ queryScopes seen = (Normal scopes, queried) /\ extends queried w' /\ (quiet before (stream seen) scopes = true \/ deadline < clock w').

Lemma waited_weaken before deadline moved w w1 w' : extends w w1 -> waited before deadline moved w1 w' -> waited before deadline moved w w'.
Proof. intros Hx (Hm & seen & scopes & queried & H1 & Hqs & H2 & Hq). split; [done|]. exists seen, scopes, queried. split_and!; [by etransitivity|done|done|done]. Qed.

Lemma poll_returns fuel before deadline w r w' : deadline < clock w + 500 * (Z.of_nat fuel - 1) ->
  poll fuel before deadline w = (Normal r, w') -> fuel <> O -> exists moved, r = Some moved /\ waited before deadline moved w w'.
Proof.
  revert w; induction fuel as [|fuel IH]; intros w Hb Hp Hf; [done|]. cbn [poll] in Hp. callM Hp events w1 E1. pose proof (clock_read _ _ _ E1) as C1. apply (read_law stream) in E1 as [E1 ->].
  callM Hp scopes w2 E2. pose proof (clock_query _ _ _ E2) as C2. pose proof (scopes_law stream _ _ _ E2) as X2. callM Hp stop w3 E3.
  assert (extends w2 w3 /\ clock w2 <= clock w3 /\ if stop then quiet before (stream w1) scopes = true \/ deadline < clock w3 else clock w2 <= deadline) as (X3 & C3 & Hs).
  { destruct (quiet before (stream w1) scopes) eqn:Eq; [retM E3; subst stop; split_and!; [reflexivity|lia|by left]|].
    unfold past in E3. callM E3 t w4 En. retM E3. pose proof (clock_now _ _ _ En) as Cn. apply (now_law stream) in En. split_and!; [done|lia|]. subst stop.
    destruct (deadline <? t) eqn:Et; [right|]; lia. }
  destruct stop.
  - callM Hp after w4 E4. pose proof (clock_read _ _ _ E4) as C4. apply (read_law stream) in E4 as [E4 ->]. retM Hp. eexists. split; [exact Hp|]. split; [done|].
    exists w1, scopes, w2. split_and!; [done|done|by etransitivity|]. destruct Hs as [Hs|Hs]; [by left|right; lia].
  - callM Hp u w4 E4. pose proof (clock_sleep _ _ _ E4) as C4. apply (sleep_law stream) in E4. destruct (IH w4) as (moved & -> & Hw); [lia|done|intros ->; lia|].
    exists moved. split; [done|]. apply (waited_weaken _ _ _ _ w4); [|done]. by do 3 (etransitivity; [eassumption|]).
Qed.

(** With a poll for every half second of the timeout and two more, a wait that does not throw answers. *)
Lemma settle_returns fuel timeoutMs w r w' :
  timeoutMs < 500 * (Z.of_nat fuel - 1) -> (0 < fuel)%nat ->
  settle fuel timeoutMs w = (Normal r, w') ->
  exists moved start, r = Some moved /\ extends w start /\ waited (length (stream start)) (clock start + timeoutMs) moved start w' /\
    (moved = false -> stream w' = stream start).
Proof.
  intros Hf Hne Hs. unfold settle in Hs. callM Hs events w1 E1. apply (read_law stream) in E1 as [E1 ->]. callM Hs t w2 E2. pose proof (clock_now _ _ _ E2) as C2. apply (now_law stream) in E2.
  apply poll_returns in Hs as (moved & -> & Hw); [|lia|lia]. exists moved, w1. split_and!; [done|done| |].
  - destruct (waited_weaken _ _ _ _ _ _ E2 Hw) as (Hm & seen & scopes & queried & H1 & Hqs & H2 & Hq). split; [done|]. exists seen, scopes, queried. split_and!; [done|done|done|]. destruct Hq as [Hq|Hq]; [by left|right; lia].
  - intros ->. destruct Hw as (Hm & seen & scopes & queried & [r1 H1] & [r2 H2]%(scopes_law stream) & [r3 H3] & _). symmetry in Hm. apply negb_false_iff, Nat.eqb_eq in Hm. destruct E2 as [r0 H0].
    rewrite H3, H2, H1, H0, !length_app in Hm. destruct r0, r1, r2, r3; cbn in Hm; try lia. by rewrite H3, H2, H1, H0, !app_nil_r.
Qed.
End Waiting.

(** The loop over the reads ends once every report leaves less work claimable: a pass removes its item or
    releases it for later. *)
Lemma drain_returns {W : Type} `{!Engine W} (claimable : W -> nat) :
  (forall w r w', processOne w = (Normal (Some r), w') -> (claimable w' < claimable w)%nat) ->
  forall fuel w r w', (claimable w < fuel)%nat -> drainReads fuel w = (Normal r, w') -> is_Some r.
Proof.
  intros Hless fuel; induction fuel as [|fuel IH]; intros w r w' Hf Hd; [lia|]. cbn [drainReads] in Hd. callM Hd rep w1 E1. destruct rep as [rep|]; [|retM Hd; subst r; eauto].
  callM Hd rest w2 E2. retM Hd. apply Hless in E1. destruct (IH w1 rest w2) as [reps ->]; [lia|done|]. subst r. eauto.
Qed.

(** ** The policies find the graph they were written for *)

(** The seed graph normalizes to its three vertices and one interposed router, whose slot is the one the
    sourcing policy is published for, whatever the digest function. *)
Lemma policy_bound sha256 uuid : exists n, normalizeWorkflow (seedWorkflow uuid) = Ok n /\
  map sv_id (w_vertices (nw_workflow n)) = ["demand"; "catalogue"; "source#router"; "source"] /\ interposed n = ["source#router"] /\
  (fun s => Some (snd s)) <$> routerSlotIds sha256 (nw_workflow n) = slotId <$> firstn 1 (policies sha256).
Proof. eexists. split; [reflexivity|]. split; [reflexivity|]. split; reflexivity. Qed.
