(* ===== verification/Deployment.v ===== *)
(** * The supervisor over the engine's executors

    [Engine] implemented by the read executor, the router executor, the planner loop and the recovery
    loop over one database, with other processes acting before every step, and the laws the supervisor
    relies on discharged from their trajectories. *)

From S2P Require Import Prelude Collections Number Json JsonParse JsText Events Graph Fork Projection Scopes Lineage Llm CheckRules ToolView Gateway RuleTemplate RuleTemplateFacts Workflow WorkflowFacts Store StoreFacts Submission Planner ProposalFacts PlannerFacts Recovery RecoveryFacts RecoveryLoop Router RouterProofs ReadExecutor ReadExecutorFacts Supervisor.

Section Deployed.
Context `{Collation}.
Context {db : Type} `{!Database db} `{!DatabaseLaws db}.
Variable validateSchema : EventDraft -> bool.
Variable schemaErrors : EventDraft -> string.
Variable actor : Actor.
Variable sha256 : string -> string.
(** The read executor *)
Variable fetch : Request -> result Response.
Variable decode : string -> result ToolViewDocument.
Variable identityHeader : value -> string.
Variables worker foldMode : string.
Variable workers : list WorkRow -> list WorkRow.
(** The router, the planner and the recovery loop *)
Variable templates : RuleTemplateStore.
Variable parseUrl : string -> result Url.
Variable href : Url -> string.
Variable syntaxError : string -> string.
Variable config : LlmProviderConfig.
Variable llmCall : list LlmMessage -> completion LlmCallResult.
Variable versions : Versions.
Variable policy : RecoveryPolicy.
(** The run, what it was asked, and the tool view it works under *)
Variable run : string.
Variable taskInput : object.
Variable view : ResolvedToolView.
Variable discovered : result ResolvedToolView.
(** the identifiers allocated at step [n] *)
Variable newId : nat -> nat -> string.
(** What every other process does before the driver's step [n], and how long that step takes; the rows
    of [txn_scope] *)
Variable meanwhile : nat -> @ReadState db -> @ReadState db.
Variable elapsed : nat -> Z.
Variable scopeRows : db -> list ScopeRow.

Record World : Type := { wd_state : @ReadState db; wd_clock : Z; wd_step : nat }.

Definition log_of (w : World) : list StoredEvent := select_stream (rs_db (wd_state w)) run.

(** One step of the driver: what an executor does to the world as it finds it. *)
Definition act {A} (extra : Z) (f : @ReadState db -> completion A * @ReadState db) : M World A := fun w =>
  let '(r, s) := f (meanwhile (wd_step w) (wd_state w)) in
  (r, {| wd_state := s; wd_clock := wd_clock w + elapsed (wd_step w) + extra; wd_step := S (wd_step w) |}).

(** An operation on the database. *)
Definition on_db {A} (f : db -> completion A * db) (s : @ReadState db) : completion A * @ReadState db :=
  let '(r, d) := f (rs_db s) in (r, with_db s d).

Definition turn (n : nat) (d : db) (request : PlannerTurnRequest) : completion PlannerTurn * db :=
  Planner.advance sha256 parseUrl href syntaxError (Some (storeResolver templates)) validateSchema schemaErrors actor config llmCall versions d request view discovered (newId n).

#[export] Instance deployed : Engine World := {|
  Supervisor.readStream := act 0 (on_db (fun d => (Normal (Store.readStream d run None), d)));
  Supervisor.processOne := fun w => act 0 (ReadExecutor.processOne validateSchema schemaErrors fetch decode sha256 identityHeader worker foldMode (wd_clock w) (wd_clock w) workers) w;
  Supervisor.recoverOne := fun goalFor w => act 0 (on_db (fun d => RecoveryLoop.recoverOne validateSchema schemaErrors actor policy (turn (wd_step w)) d
    {| rr_runId := run; rr_taskInput := taskInput; rr_workflowType := WORKFLOW_TYPE; rr_goalFor := goalFor |})) w;
  Supervisor.evaluate := fun v w => act 0 (on_db (fun d => let '(r, d') := Router.evaluate sha256 templates validateSchema schemaErrors actor d run v discovered (newId (wd_step w)) in (of_result r, d'))) w;
  Supervisor.advanceTurn := fun v goal w => act 0 (on_db (fun d => turn (wd_step w) d
    {| tr_runId := run; tr_plannerVertexId := v; tr_taskInput := taskInput; tr_workflowType := WORKFLOW_TYPE; tr_goal := goal; tr_evidence := None; tr_attempt := None |})) w;
  Supervisor.queryScopes := act 0 (on_db (fun d => (Normal (scopeRows d), d)));
  Supervisor.now := fun w => act 0 (fun s => (Normal (wd_clock w), s)) w;
  Supervisor.sleep := act 500 (fun s => (Normal tt, s))
|}.

(** ** The laws *)

(** The stream of the run grew, or stayed. *)
Definition grew (d d' : db) : Prop := exists rows, select_stream d' run = select_stream d run ++ rows.

Lemma grew_refl d : grew d d.
Proof. exists []. by rewrite app_nil_r. Qed.

Lemma grew_trans d d1 d' : grew d d1 -> grew d1 d' -> grew d d'.
Proof. intros [r1 H1] [r2 H2]. exists (r1 ++ r2). by rewrite H2, H1, (assoc (++)). Qed.

Lemma extended_grew d other rows d' : extended d other rows d' -> grew d d'.
Proof. intros [Hs Ho]. destruct (decide (other = run)) as [->|Hne]; [by exists rows|]. exists []. rewrite app_nil_r. by apply Ho. Qed.

Lemma recorded_grew d drafts seqs d' : recorded d run drafts seqs d' -> grew d d'.
Proof. intros (n & rows & _ & _ & _ & _ & Hs & _). by exists rows. Qed.

Lemma processOne_grew s at_ rep s' :
  ReadExecutor.processOne validateSchema schemaErrors fetch decode sha256 identityHeader worker foldMode at_ at_ workers s = (Normal rep, s') -> grew (rs_db s) (rs_db s').
Proof.
  unfold ReadExecutor.processOne, claim. destruct (claim_ready_read _ _ _ _ _) as [[[row|] q]|e] eqn:Ec; [| |done].
  - destruct (workItem row) as [item|e] eqn:Ei; cbn [mbind completion_bind]; [|done]. pose proof (claim_spec _ _ _ _ _ _ _ Ec) as (Hu & Hu' & _).
    intros He. apply executeRead_spec in He; [|cbn; congruence]. destruct rep as [rep|]; [|done]. destruct He as (_ & _ & rows & He & _). by apply extended_grew in He.
  - intros [= _ <-]. apply grew_refl.
Qed.

(** A start that is recorded is read back. *)
Lemma start_read d d1 d' v row : select_stream d1 run = select_stream d run ++ [row] -> grew d1 d' -> event_type row = vertex_started -> vertex_id row = truthy (Some v) -> v <> "" ->
  grew d d' /\ v ∈ ids_of vertex_started (select_stream d' run).
Proof.
  intros H1 [rows H2] Ht Hv Hne. split; [exists ([row] ++ rows); by rewrite H2, H1, (assoc (++))|]. apply elem_of_ids. exists row. split_and!; [|done|].
  - rewrite H2, H1. set_solver.
  - unfold vid. rewrite Hv. by destruct v.
Qed.

Lemma finish_grew d v outcome emitted ev d' : finish validateSchema schemaErrors d run v outcome emitted = (Ok ev, d') -> grew d d'.
Proof. intros (_ & n & terminal & _ & Hs)%finish_spec. by exists [terminal]. Qed.

Lemma evaluate_grew n d v ev d' : Router.evaluate sha256 templates validateSchema schemaErrors actor d run v discovered (newId n) = (Ok ev, d') -> v <> "" ->
  grew d d' /\ v ∈ ids_of vertex_started (select_stream d' run).
Proof.
  unfold Router.evaluate. destruct (find _ _) as [created|]; [|done]. destruct (appendEvents _ _ d run _) as [[seqs|] d1] eqn:E1; [|done]. apply append_single in E1 as (k & row & (_ & _ & Ht & Hv & _) & Hs).
  intros Hev Hne. eapply (start_read d d1); [exact Hs| |exact Ht|exact Hv|exact Hne]. clear Hs. destruct (evaluateRouter _ _) as [i cond dag| |reason|vs]; try by eapply finish_grew.
  destruct (submit _ _ _ _ _ d1 run _ _ _) as [r2 d2] eqn:Es. apply submit_outcome_holds in Es as [_ Es]; [|done].
  destruct r2 as [[p f ids|p j stage vs]|e]; [| |done]; apply finish_grew in Hev; (eapply grew_trans; [|exact Hev]).
  - destruct Es as (n' & resolved & context & dx & proposed & frozen & rows & _ & _ & _ & _ & Hs2 & _). by exists (proposed :: frozen :: rows).
  - destruct Es as (proposed & rejected & Hs2 & _). by exists [proposed; rejected].
Qed.

Lemma turn_grew n d request t d' : tr_runId request = run -> turn n d request = (Normal t, d') ->
  grew d d' /\ (tr_plannerVertexId request <> "" -> tr_plannerVertexId request ∈ ids_of vertex_started (select_stream d' run)).
Proof.
  intros Hrun Ht. unfold turn, Planner.advance in Ht. destruct (context _ _ d _ _) as [text|e]; [|done].
  destruct (execute _ _ _ _ _ _ _ d _ _ _) as [[x|e] d1] eqn:Ee; [|done]. apply execute_execution in Ee as (_ & endpoint & started & charged & succeeded & [He _] & (k & _ & _ & Hst & Hsv & _) & _); [|done].
  apply settle_spec in Ht as (_ & rest & [Hrest _] & _); [|done]. rewrite Hrun in *. split; [exists ([started; charged; succeeded] ++ rest); by rewrite Hrest, He, (assoc (++))|].
  intros Hne. apply elem_of_ids. exists started. split_and!; [rewrite Hrest, He; set_solver|done|]. unfold vid. rewrite Hsv. by destruct (tr_plannerVertexId request).
Qed.

Lemma recoverOne_grew n d request r d' : rr_runId request = run ->
  RecoveryLoop.recoverOne validateSchema schemaErrors actor policy (turn n) d request = (Normal r, d') -> grew d d'.
Proof.
  intros Hrun. unfold RecoveryLoop.recoverOne. destruct (appendUnderScopeLock _ _ _ d _ _) as [[[sequences [a events]]|e] d1] eqn:El; [|done]. rewrite Hrun in El.
  apply append_under_lock in El as (_ & rows & drafts & _ & _ & Hseq). assert (grew d d1) as Hg.
  { destruct sequences as [seqs|]; [destruct Hseq as [_ Hr]; by apply recorded_grew in Hr|destruct Hseq as [_ ->]; apply grew_refl]. }
  destruct (at_acted a) as [dec|]; [|by intros [= _ <-]]. destruct (bd_action dec ==? Recovery.request); [by intros [= _ <-]|]. destruct (truthy (bd_selected dec)) as [planner|]; [|by intros [= _ <-]].
  destruct (turn n d1 _) as [[t|e] d2] eqn:Et; [|done]. intros [= _ <-]. eapply grew_trans; [exact Hg|]. by apply turn_grew in Et as [Et _].
Qed.

(** Other processes only append to the run's log. *)
Hypothesis meanwhile_appends : forall n s, grew (rs_db s) (rs_db (meanwhile n s)).

Lemma act_appends {A} extra (f : @ReadState db -> completion A * @ReadState db) w a w' :
  (forall s s', f s = (Normal a, s') -> grew (rs_db s) (rs_db s')) -> act extra f w = (Normal a, w') -> extends log_of w w'.
Proof.
  unfold act. intros Hf Ha. destruct (f _) as [r s] eqn:E. injection Ha as -> <-. eapply (grew_trans _ (rs_db (meanwhile (wd_step w) (wd_state w)))); [apply meanwhile_appends|by eapply Hf].
Qed.

Lemma on_db_grew {A} (f : db -> completion A * db) a s s' : (forall d d', f d = (Normal a, d') -> grew d d') -> on_db f s = (Normal a, s') -> grew (rs_db s) (rs_db s').
Proof. unfold on_db. intros Hf Ho. destruct (f (rs_db s)) as [r d] eqn:E. injection Ho as -> <-. by apply Hf. Qed.

Lemma act_db_appends {A} extra (f : db -> completion A * db) w a w' :
  (forall d d', f d = (Normal a, d') -> grew d d') -> act extra (on_db f) w = (Normal a, w') -> extends log_of w w'.
Proof. intros Hf. apply act_appends. intros s s'. by apply on_db_grew. Qed.

Lemma stream_read d : Store.readStream d run None = select_stream d run.
Proof. unfold Store.readStream. induction (select_stream d run) as [|e l IH]; cbn [List.filter]; [done|by rewrite IH]. Qed.

(** A database operation that records a start. *)
Lemma act_started {A} (f : db -> completion A * db) v w a w' :
  (forall d d', f d = (Normal a, d') -> grew d d' /\ v ∈ ids_of vertex_started (select_stream d' run)) -> act 0 (on_db f) w = (Normal a, w') ->
  extends log_of w w' /\ v ∈ ids_of vertex_started (log_of w').
Proof.
  intros Hf Ha. split; [eapply act_db_appends; [|exact Ha]; intros d d' Hd; by destruct (Hf d d' Hd)|].
  unfold act, on_db in Ha. set (s := meanwhile _ _) in *. destruct (f (rs_db s)) as [r d] eqn:E. injection Ha as -> <-. by destruct (Hf _ _ E).
Qed.

#[export] Instance deployed_laws : EngineLaws log_of.
Proof.
  split.
  - intros w events w' Hr. split; [by eapply act_db_appends; [|exact Hr]; intros d d' [= _ <-]; apply grew_refl|].
    cbn in Hr. unfold act, on_db in Hr. injection Hr as <- <-. apply stream_read.
  - intros w a w' Hr. eapply act_appends; [|exact Hr]. intros s s'. apply processOne_grew.
  - intros goal w a w' Hr. eapply act_db_appends; [|exact Hr]. intros d d'. by apply recoverOne_grew.
  - intros w a w' Hr. eapply act_db_appends; [|exact Hr]. intros d d' [= _ <-]. apply grew_refl.
  - intros w a w' Hr. eapply act_appends; [|exact Hr]. intros s s' [= _ <-]. apply grew_refl.
  - intros w a w' Hr. eapply act_appends; [|exact Hr]. intros s s' [= _ <-]. apply grew_refl.
  - intros v w a w' Hr Hne. eapply act_started; [|exact Hr]. intros d d' Hd. cbv beta in Hd. destruct (Router.evaluate _ _ _ _ _ d _ _ _ _) as [[ev|] d1] eqn:E; [|done]. injection Hd as <- <-. by apply evaluate_grew in E.
  - intros v goal w a w' Hr Hne. eapply act_started; [|exact Hr]. intros d d' Hd. apply turn_grew in Hd as [Hg Hs]; [|done]. split; [done|by apply Hs].
Qed.

Hypothesis elapsed_positive : forall n, 0 <= elapsed n.

#[export] Instance deployed_clock : Clock wd_clock.
Proof.
  assert (forall A extra (f : @ReadState db -> completion A * @ReadState db) w a w', act extra f w = (Normal a, w') -> wd_clock w + extra <= wd_clock w') as Hact.
  { intros A extra f w a w' Ha. unfold act in Ha. destruct (f _) as [r s]. injection Ha as _ <-. cbn. specialize (elapsed_positive (wd_step w)). lia. }
  split.
  - intros w a w' Hr. apply Hact in Hr. lia.
  - intros w a w' Hr. apply Hact in Hr. lia.
  - intros w t w' Hr. cbn in Hr. injection Hr as <- <-. cbn. specialize (elapsed_positive (wd_step w)). lia.
  - intros w u w' Hr. cbn in Hr. injection Hr as <- <-. cbn. specialize (elapsed_positive (wd_step w)). lia.
Qed.

(** C4. The supervisor hands each router and each planner out at most once, and never too early. In a run
    of the driver that returns, with the read executor, the routers, the planner and the recovery loop at
    work and other processes appending to the log between any two of their steps, there are at most as
    many passes as turns and no vertex is handed to an executor twice. Each one handed out had not
    started before the run; on the log the driver read when it chose it, it had been created as a router
    or a planner, was discarded by no replan, had not started, and every parent it was created with had
    succeeded; and it has started in the end. *)
Theorem supervised_once turns fuel w passes w' :
  drive turns fuel w = (Normal (Some passes), w') ->
  extends log_of w w' /\ (length passes <= turns)%nat /\ NoDup (concat (map handed passes)) /\ Forall (launched log_of w w') (concat (map handed passes)).
Proof. apply (drive_once log_of). Qed.

(** C5. Waiting for the Coordinator ends. With a poll for every half second of its timeout and two more,
    a wait that does not throw answers. It stopped because the log and the scopes it had read owed
    nothing more, with no cancellation under way, or because the log showed one resolved, or because the
    deadline had passed; and it answers false only when the log is what it was when it began. *)
Theorem supervised_wait fuel timeoutMs w r w' :
  timeoutMs < 500 * (Z.of_nat fuel - 1) -> (0 < fuel)%nat ->
  settle fuel timeoutMs w = (Normal r, w') ->
  exists moved start, r = Some moved /\ extends log_of w start /\ waited log_of wd_clock (length (log_of start)) (wd_clock start + timeoutMs) moved start w' /\
    (moved = false -> log_of w' = log_of start).
Proof. apply (settle_returns log_of wd_clock). Qed.
End Deployed.

(** ** A run driven to rest

    A read that waits in the queue feeds a router, the router a planner; the planner answers with a
    read and another planner. *)
#[local] Existing Instance code_unit_collation.

Definition retail_db : MemoryDb.Mem :=
  {| MemoryDb.m_user := "engine_role"; MemoryDb.m_runs := [("r1", {| MemoryDb.mr_next_seq := 6; MemoryDb.mr_seed_floor := None; MemoryDb.mr_events :=
       [sample_event 1 run_start None [] None [];
        sample_event 2 vertex_created (Some "rd1") [] None [("role", VStr "tool"); ("tool", VStr "look")];
        sample_event 3 vertex_created (Some "r") ["rd1"] None [("role", VStr "router")];
        sample_event 4 vertex_created (Some "p") ["r"] None [("role", VStr "planner")];
        sample_event 5 vertex_created (Some "q") ["p"; "r"] None [("role", VStr "planner")]] |})];
     MemoryDb.m_scopes := []; MemoryDb.m_brackets := [] |}.

Definition retail_world : @World MemoryDb.Mem :=
  {| wd_state := {| rs_db := retail_db; rs_queue := {| q_user := "engine_role"; q_rows := [read_row] |}; rs_client := newClient "http://gateway/"; rs_cache := [] |}; wd_clock := 10; wd_step := 0 |}.

Definition step_id (n i : nat) : string := "id" +:+ nstr n +:+ "-" +:+ nstr i.

Abbreviation retail_engine :=
  (deployed any_schema no_errors engine sample_hash (serving (sample_fetch (Gateway.request (newClient "") "" [] []))) sample_decode (fun _ => "") "w1" "reads-live" id routed_store sample_url sample_href
    (fun _ => "Unexpected token") sample_config (sample_llm (answering turn_answer)) sample_versions sample_policy "r1" [("order", VStr "o1")] sample_view (Ok sample_view) step_id (fun _ s => s)
    (fun _ => 7) (fun _ => [])).
Abbreviation driven := (@drive code_unit_collation World retail_engine MAX_TURNS 122 retail_world).

Definition driven_passes : list Pass := match fst driven with Normal (Some passes) => passes | _ => [] end.
Definition driven_world : World := snd driven.

Lemma driven_returns : driven = (Normal (Some driven_passes), driven_world).
Proof. vm_compute. reflexivity. Qed.

Lemma untouched (n : nat) (s : @ReadState MemoryDb.Mem) : grew "r1" (rs_db s) (rs_db s).
Proof. apply grew_refl. Qed.

Lemma supervised_once_witness :
  map handed driven_passes = [["r"; "p"]; ["q"]; []] /\
  NoDup (concat (map handed driven_passes)) /\ Forall (launched (log_of "r1") retail_world driven_world) (concat (map handed driven_passes)).
Proof.
  split; [vm_compute; reflexivity|].
  destruct (supervised_once _ _ _ _ _ _ _ _ _ _ _ _ _ _ _ _ _ _ _ _ _ _ _ _ _ _ untouched _ _ _ _ _ driven_returns) as (_ & _ & Hnd & Hl). exact (conj Hnd Hl).
Defined.

(** The last wait of that run lasts its whole minute: the read the second planner froze has no owner here. *)
Abbreviation waited_out := (@settle World retail_engine 122 60000 driven_world).
Definition waited_world : World := snd waited_out.

Lemma steady : 0 <= 7.
Proof. done. Qed.

Lemma waited_returns : waited_out = (Normal (Some false), waited_world).
Proof. vm_compute. reflexivity. Qed.

Lemma supervised_wait_witness :
  exists moved start, Some false = Some moved /\ extends (log_of "r1") driven_world start /\
    @waited World retail_engine (log_of "r1") wd_clock (length (log_of "r1" start)) (wd_clock start + 60000) moved start waited_world /\
    (moved = false -> log_of "r1" waited_world = log_of "r1" start).
Proof.
  apply (supervised_wait _ _ _ _ _ _ _ _ _ _ _ _ _ _ _ _ _ _ _ _ _ _ _ _ _ _ untouched (fun _ => steady) 122 60000 driven_world (Some false) waited_world);
    [lia|lia|exact waited_returns].
Defined.
