(* ===== verification/Rows.v ===== *)
(** * Rows (log/store.ts, [rowToEvent] and [rowToBusinessEvent])

    How a row of the database becomes an event: a 64-bit position arrives as its decimal text and becomes
    a number, a timestamp arrives as a date and becomes an ISO text, and an empty identifier becomes null.
    A row that holds what an event says reads back as that event as long as its positions are below 2^53,
    and the time between two rows is what their texts say. *)

From S2P Require Import Prelude Collections Number Json JsonParse JsText Events BusinessStream Console.
From Corelib Require Import SpecFloat.

(** ** Dates *)
Module IsoText.

(** The year, month and day of a count of days since 1970-01-01. *)
Definition civil (n : Z) : Z * Z * Z :=
  let z := n + 719468 in
  let era := z / 146097 in
  let doe := z mod 146097 in
  let century := Z.min (doe / 36524) 3 in
  let r := doe - century * 36524 in
  let quad := r / 1461 in
  let r := r - quad * 1461 in
  let one := Z.min (r / 365) 3 in
  let doy := r - one * 365 in
  let y := era * 400 + century * 100 + quad * 4 + one in
  let mp := (5 * doy + 2) / 153 in
  let d := doy - (153 * mp + 2) / 5 + 1 in
  let m := if mp <? 10 then mp + 3 else mp - 9 in
  (if m <=? 2 then y + 1 else y, m, d).

Definition digit_char (z : Z) : ascii := ascii_of_nat (48 + Z.to_nat z).

(** The last [k] digits of a number *)
Fixpoint padded (k : nat) (z : Z) : string :=
  match k with
  | O => ""
  | S k => padded k (z / 10) +:+ String (digit_char (z mod 10)) ""
  end.

(** Four digits, or a sign and six. *)
Definition year (y : Z) : string :=
  if (0 <=? y) && (y <=? 9999) then padded 4 y else (if y <? 0 then "-" else "+") +:+ padded 6 (Z.abs y).

(** [date.toISOString()] *)
Definition toISOString (ms : Z) : result string :=
  if Z.abs ms <=? 8640000000000000 then
    let '(y, mo, d) := civil (ms / 86400000) in
    let t := ms mod 86400000 in
    Ok (year y +:+ "-" +:+ padded 2 mo +:+ "-" +:+ padded 2 d +:+ "T" +:+ padded 2 (t / 3600000) +:+ ":" +:+ padded 2 (t / 60000 mod 60) +:+ ":" +:+ padded 2 (t / 1000 mod 60) +:+ "." +:+ padded 3 (t mod 1000) +:+ "Z")
  else Throw "Invalid time value".

End IsoText.

(** ** The mapping *)

(** [Number(v)] of a column: a number, or a text that is read as one. *)
Definition column_number (v : value) : number :=
  match v with VNum n => n | VStr s => Num.of_string s | VNull => S754_zero false | VBool b => if b then Num.of_Z 1 else S754_zero false | _ => S754_nan end.

(** A position: nothing when the number is no integer. *)
Definition position (v : value) : option Z := Num.to_Z (column_number v).

(** [v ? String(v) : null] *)
Definition nonempty (v : value) : option string := if Js.truthy_value v then Some (Js.to_text v) else None.

(** A row of [run_event_log], at the types of its columns. *)
Record EventRow : Type := {
  rw_run_id : value;
  rw_run_seq : value;
  rw_global_seq : value;
  rw_event_type : value;
  rw_vertex_id : value;
  rw_parent_refs : option (list string);
  rw_planner_id : value;
  rw_scope_id : value;
  rw_pin_version : value;
  rw_ignorable : value;
  rw_inherited : value;
  rw_payload : object;
  rw_created_at : Z
}.

(** A text of the vocabulary, or one outside it. *)
Definition event_of_name (s : string) : EventType :=
  default (unknown_event s) (find (fun t => event_name t ==? s) EVENT_TYPES).

(** [None]: a position that is not an integer, which the typed event cannot hold. *)
Definition rowToEvent (row : EventRow) : result (option StoredEvent) :=
  created ← IsoText.toISOString (rw_created_at row);
  Ok (run_seq ← position (rw_run_seq row);
      global_seq ← position (rw_global_seq row);
      Some {| run_id := Js.to_text (rw_run_id row); run_seq := run_seq; global_seq := global_seq; event_type := event_of_name (Js.to_text (rw_event_type row));
              vertex_id := nonempty (rw_vertex_id row); parent_refs := default [] (rw_parent_refs row); planner_id := nonempty (rw_planner_id row);
              scope_id := nonempty (rw_scope_id row); pin_version := nonempty (rw_pin_version row);
              ignorable := Js.truthy_value (rw_ignorable row); inherited := Js.truthy_value (rw_inherited row); payload := rw_payload row; created_at := created |}).

(** A row of [business_event_stream]. *)
Record BusinessRow : Type := {
  bw_stream_id : value;
  bw_stream_seq : value;
  bw_global_seq : value;
  bw_run_id : value;
  bw_run_seq : value;
  bw_event_type : value;
  bw_is_counterfactual : value;
  bw_payload : option object;
  bw_created_at : Z
}.

Section Business.
(** [String(date)]: the date in words, in the time zone of the process. *)
Variable date_text : Z -> string.

Definition rowToBusinessEvent (row : BusinessRow) : option StoredBusinessEvent :=
  stream_seq ← position (bw_stream_seq row);
  global_seq ← position (bw_global_seq row);
  run_seq ← match bw_run_seq row with VNull => Some None | v => Some <$> position v end;
  Some {| be_stream_id := Js.to_text (bw_stream_id row); be_stream_seq := stream_seq; be_global_seq := global_seq;
          be_run_id := match bw_run_id row with VNull => None | v => Some (Js.to_text v) end; be_run_seq := run_seq;
          be_event_type := Js.to_text (bw_event_type row); be_is_counterfactual := Js.truthy_value (bw_is_counterfactual row);
          be_payload := default [] (bw_payload row); be_created_at := date_text (bw_created_at row) |}.
End Business.

(** ** Days and dates *)

(** A day of the year, counted from March: its month and its day of the month. *)
Lemma month_parts doy : 0 <= doy <= 365 ->
  let mp := (5 * doy + 2) / 153 in let d := doy - (153 * mp + 2) / 5 + 1 in
  0 <= mp <= 11 /\ 1 <= d /\ (mp = 11 -> d = doy - 336) /\ forall y m, (mp < 10 /\ m = mp + 3) \/ (mp = 10 /\ m = 1) -> d <= IsoDate.month_length y m.
Proof.
  intros Hdoy mp d. assert (0 <= mp <= 11) as Hmp by (subst mp; Z.to_euclidean_division_equations; lia).
  assert (1 <= d) as Hd by (subst mp d; Z.to_euclidean_division_equations; lia). split; [done|]. split; [done|].
  assert (153 * mp <= 5 * doy + 2 < 153 * mp + 153) as Hb by (subst mp; Z.to_euclidean_division_equations; lia). clearbody mp. split; [intros ->; change d with (doy - 337 + 1); lia|].
  intros y m Hm. assert (mp ∈ [0; 1; 2; 3; 4; 5; 6; 7; 8; 9; 10] /\ m = (if mp <? 10 then mp + 3 else 1)) as [Hin ->].
  { split; [|case_match; lia]. assert (mp = 0 \/ mp = 1 \/ mp = 2 \/ mp = 3 \/ mp = 4 \/ mp = 5 \/ mp = 6 \/ mp = 7 \/ mp = 8 \/ mp = 9 \/ mp = 10) as H by lia. set_solver. }
  clear Hm Hmp Hd. subst d. set_unfold in Hin. repeat destruct Hin as [->|Hin]; [..|done];
    match goal with |- _ <= IsoDate.month_length _ ?k => let l := eval vm_compute in (IsoDate.month_length 0 k) in change (IsoDate.month_length y k) with l end; Z.to_euclidean_division_equations; lia.
Qed.

(** The parts of a date of the calendar, with the day they count. *)
Lemma civil_parts n : exists y m d, IsoText.civil n = (y, m, d) /\ IsoDate.days y m d = n /\ 1 <= m <= 12 /\ 1 <= d <= IsoDate.month_length y m.
Proof.
  unfold IsoText.civil. set (z := n + 719468). set (era := z / 146097). set (doe := z mod 146097). set (c := Z.min (doe / 36524) 3). set (r := doe - c * 36524).
  set (q := r / 1461). set (r2 := r - q * 1461). set (o := Z.min (r2 / 365) 3). set (doy := r2 - o * 365). set (y := era * 400 + c * 100 + q * 4 + o).
  assert (z = era * 146097 + doe /\ 0 <= doe < 146097) as [Hz Hdoe] by (subst era doe; Z.to_euclidean_division_equations; lia).
  assert (0 <= c <= 3 /\ 0 <= r <= 36524 /\ (r = 36524 -> c = 3)) as (Hc & Hr & Hr3) by (subst c r; clear -Hdoe; Z.to_euclidean_division_equations; lia).
  assert (0 <= q <= 24 /\ 0 <= r2 <= 1460 /\ r = q * 1461 + r2) as (Hq & Hr2 & Hrq) by (subst q r2; clear -Hr; Z.to_euclidean_division_equations; lia).
  assert (0 <= o <= 3 /\ 0 <= doy <= 365 /\ r2 = o * 365 + doy /\ (doy = 365 -> o = 3)) as (Ho & Hdoy & Hr2o & Hlast) by (subst o doy; clear -Hr2; Z.to_euclidean_division_equations; lia).
  assert (doe = c * 36524 + r) as Hdc by (subst r; lia). destruct (month_parts doy Hdoy) as (Hmp & Hd & Hfeb & Hlen). cbv zeta in *. set (mp := (5 * doy + 2) / 153) in *. set (d := doy - (153 * mp + 2) / 5 + 1) in *.
  clearbody era doe c r q r2 o doy mp. set (m := if mp <? 10 then mp + 3 else mp - 9).
  assert (1 <= m <= 12 /\ (if 2 <? m then m - 3 else m + 9) = mp /\ (m <=? 2) = negb (mp <? 10)) as (Hm & Hback & Hle) by (subst m; repeat case_match; lia).
  exists (if m <=? 2 then y + 1 else y), m, d. split; [done|]. split; [|split; [done|split; [done|]]].
  - unfold IsoDate.days. rewrite Hback. assert (forall b : bool, (if b then (if b then y + 1 else y) - 1 else (if b then y + 1 else y)) = y) as Hy by (intros []; lia). rewrite Hy.
    assert (y / 400 = era) as -> by (subst y; clear -Hc Hq Ho; Z.to_euclidean_division_equations; lia).
    assert ((y - era * 400) / 4 = 25 * c + q) as -> by (subst y; clear -Hc Hq Ho; Z.to_euclidean_division_equations; lia).
    assert ((y - era * 400) / 100 = c) as -> by (subst y; clear -Hc Hq Ho; Z.to_euclidean_division_equations; lia). subst d y. lia.
  - destruct (decide (mp = 11)) as [E|E]; [|apply Hlen; subst m; repeat case_match; lia]. rewrite Hfeb by done. assert (m = 2) as -> by (subst m; rewrite E; done). cbn [Z.leb Z.compare Pos.compare Pos.compare_cont].
    unfold IsoDate.month_length, IsoDate.leap. cbn [Z.eqb Pos.eqb]. destruct (decide (doy = 365)) as [->|Hne]; [|repeat case_match; lia]. specialize (Hlast eq_refl). subst o.
    assert ((y + 1) mod 4 = 0 /\ ((y + 1) mod 100 <> 0 \/ (y + 1) mod 400 = 0)) as [H4 H100] by (subst y; clear -Hc Hq Hr Hr3 Hrq Hr2o; Z.to_euclidean_division_equations; lia).
    rewrite H4. cbn [Z.eqb andb]. destruct H100 as [H100| ->]; [apply Z.eqb_neq in H100; rewrite H100|rewrite orb_true_r]; done.
Qed.

(** ** Texts read back *)
Lemma digit_digit_char z : 0 <= z < 10 -> Num.digit (IsoText.digit_char z) = Some z.
Proof.
  intros Hz. assert (z ∈ [0; 1; 2; 3; 4; 5; 6; 7; 8; 9]) as Hin. { assert (z = 0 \/ z = 1 \/ z = 2 \/ z = 3 \/ z = 4 \/ z = 5 \/ z = 6 \/ z = 7 \/ z = 8 \/ z = 9) as H by lia. set_solver. }
  clear Hz. set_unfold in Hin. by repeat destruct Hin as [->|Hin].
Qed.

Lemma digits_snoc s z acc n v c : 0 <= z < 10 -> Num.digits acc n s = (v, c, "") -> Num.digits acc n (s +:+ String (IsoText.digit_char z) "") = (v * 10 + z, c + 1, "").
Proof.
  intros Hz. revert acc n. induction s as [|a s IH]; intros acc n; rewrite ?sapp_nil, ?sapp_cons; cbn [Num.digits].
  - rewrite digit_digit_char by done. by intros [= -> ->].
  - destruct (Num.digit a); [apply IH|done].
Qed.

Lemma digits_padded k z : 0 <= z -> Num.digits 0 0 (IsoText.padded k z) = (z mod 10 ^ Z.of_nat k, Z.of_nat k, "").
Proof.
  revert z. induction k as [|k IH]; intros z Hz; cbn [IsoText.padded]; [by rewrite Z.mod_1_r|].
  erewrite digits_snoc; [|apply Z.mod_pos_bound; lia|apply IH; apply Z.div_pos; lia]. do 2 f_equal; [|lia].
  rewrite Nat2Z.inj_succ, Z.pow_succ_r by lia. rewrite (Z.rem_mul_r z 10) by lia. lia.
Qed.

(** The number written in a field of a text. *)
Lemma number_at_padded s from k z : take_str k (drop_str from s) = IsoText.padded k z -> 0 <= z < 10 ^ Z.of_nat k -> IsoDate.number_at from k s = Some z.
Proof. intros Hs Hz. unfold IsoDate.number_at. rewrite Hs, digits_padded by lia. rewrite Z.eqb_refl. by rewrite Z.mod_small. Qed.

(** The dates written with four digits of a year. *)
Definition four_digit_year (ms : Z) : Prop := -62167219200000 <= ms < 253402300800000.

Lemma civil_year n y m d : IsoText.civil n = (y, m, d) -> -719528 <= n < 2932897 -> 0 <= y <= 9999.
Proof.
  intros Hc Hn. destruct (civil_parts n) as (y' & m' & d' & Hc' & Hdays & Hm & Hd). assert (y' = y /\ m' = m /\ d' = d) as (-> & -> & ->) by (split_and!; congruence). clear Hc Hc'.
  assert (d <= 31) as Hd31. { unfold IsoDate.month_length in Hd. repeat case_match; lia. } destruct Hd as [Hd _]. unfold IsoDate.days in Hdays.
  split; (destruct (m <=? 2) eqn:E2, (2 <? m) eqn:E3; try lia; Z.to_euclidean_division_equations; lia).
Qed.

(** A date that is written reads back as itself. *)
Lemma iso_roundtrip ms : four_digit_year ms -> exists text, IsoText.toISOString ms = Ok text /\ IsoDate.parse text = Some ms /\ text <> "".
Proof.
  intros Hms. unfold four_digit_year in Hms. unfold IsoText.toISOString. rewrite (proj2 (Z.leb_le (Z.abs ms) _)) by lia.
  destruct (civil_parts (ms / 86400000)) as (y & m & d & Hc & Hdays & Hm & Hd). rewrite Hc. assert (0 <= y <= 9999) as Hy by (eapply civil_year; [exact Hc|Z.to_euclidean_division_equations; lia]).
  unfold IsoText.year. rewrite (proj2 (Z.leb_le 0 y)), (proj2 (Z.leb_le y 9999)) by lia. cbn [andb]. set (t := ms mod 86400000).
  assert (0 <= t < 86400000) as Ht by (subst t; Z.to_euclidean_division_equations; lia).
  assert (d <= 31) as Hd31. { unfold IsoDate.month_length in Hd. repeat case_match; lia. }
  eexists. split; [reflexivity|]. split; [|done]. unfold IsoDate.parse.
  match goal with |- (if ?c then _ else _) = _ => assert (c = true) as -> by reflexivity end.
  rewrite (number_at_padded _ 0 4 y), (number_at_padded _ 5 2 m), (number_at_padded _ 8 2 d), (number_at_padded _ 11 2 (t / 3600000)), (number_at_padded _ 14 2 (t / 60000 mod 60)),
    (number_at_padded _ 17 2 (t / 1000 mod 60)), (number_at_padded _ 20 3 (t mod 1000)) by (reflexivity || (cbn; Z.to_euclidean_division_equations; lia)).
  cbn [mbind option_bind]. unfold IsoDate.in_range. rewrite !(proj2 (Z.leb_le _ _)) by (first [lia|Z.to_euclidean_division_equations; lia]). cbn [andb]. rewrite Hdays. f_equal.
  subst t. Z.to_euclidean_division_equations; lia.
Qed.

(** ** Events read back *)
(** A 64-bit position is read exactly below 2^53. *)
Lemma position_exact z : 0 <= z < 2 ^ 53 -> position (VStr (zstr z)) = Some z.
Proof. intros Hz. unfold position, column_number. rewrite of_string_zstr. by apply to_Z_of_Z. Qed.

(** From there on two positions read as one. *)
Example positions_collapse : position (VStr (zstr (2 ^ 53 + 1))) = position (VStr (zstr (2 ^ 53))).
Proof. vm_compute. reflexivity. Qed.

(** The name of a type, where it has one. *)
Definition well_named (t : EventType) : Prop := match t with unknown_event s => s ∉ map event_name EVENT_TYPES | _ => True end.

Lemma event_of_name_name t : well_named t -> event_of_name (event_name t) = t.
Proof.
  destruct t as [| | | | | | | | | | | | | | | | | | | | | | |s]; try done. cbn [well_named event_name]. intros Hs. unfold event_of_name.
  destruct (find _ EVENT_TYPES) as [t|] eqn:E; [|done]. apply find_some in E as [Hin Ht]. apply eqb_true_1 in Ht. destruct Hs. rewrite <- Ht. apply elem_of_map. exists t. split; [done|]. by apply list_elem_of_In.
Qed.

Definition column_of (o : option string) : value := match o with Some s => VStr s | None => VNull end.

(** The row of an event: positions as decimal text, the time as a date. *)
Definition row_of (e : StoredEvent) (ms : Z) : EventRow :=
  {| rw_run_id := VStr (run_id e); rw_run_seq := VStr (zstr (run_seq e)); rw_global_seq := VStr (zstr (global_seq e)); rw_event_type := VStr (event_name (event_type e));
     rw_vertex_id := column_of (vertex_id e); rw_parent_refs := Some (parent_refs e); rw_planner_id := column_of (planner_id e); rw_scope_id := column_of (scope_id e);
     rw_pin_version := column_of (pin_version e); rw_ignorable := VBool (ignorable e); rw_inherited := VBool (inherited e); rw_payload := payload e; rw_created_at := ms |}.

Lemma nonempty_column o : o <> Some "" -> nonempty (column_of o) = o.
Proof. destruct o as [s|]; [|done]. intros Hs. unfold nonempty, column_of. cbn [Js.truthy_value Js.to_text]. by rewrite (proj2 (neqb_true s "")) by congruence. Qed.

(** A row reads back as the event it holds: positions below 2^53, no empty identifier. *)
Theorem row_roundtrip e ms :
  0 <= run_seq e < 2 ^ 53 -> 0 <= global_seq e < 2 ^ 53 -> well_named (event_type e) -> Forall (fun o => o <> Some "") [vertex_id e; planner_id e; scope_id e; pin_version e] ->
  IsoText.toISOString ms = Ok (created_at e) -> rowToEvent (row_of e ms) = Ok (Some e).
Proof.
  intros Hrun Hglobal Hname Hids Hat. unfold rowToEvent, row_of. cbn [rw_run_id rw_run_seq rw_global_seq rw_event_type rw_vertex_id rw_parent_refs rw_planner_id rw_scope_id rw_pin_version rw_ignorable rw_inherited rw_payload rw_created_at].
  rewrite Hat. cbn [mbind result_bind]. rewrite !position_exact by done. cbn [mbind option_bind Js.to_text Js.truthy_value default]. rewrite event_of_name_name by done.
  repeat match goal with H : Forall _ (_ :: _) |- _ => apply Forall_cons in H as [? H] end. rewrite !nonempty_column by done. by destruct e.
Qed.

(** The duration of a vertex is the difference of the two times its rows hold. *)
Theorem duration_measured row row' e e' :
  four_digit_year (rw_created_at row) -> four_digit_year (rw_created_at row') -> rowToEvent row = Ok (Some e) -> rowToEvent row' = Ok (Some e') ->
  elapsed (Some (created_at e)) (created_at e') = Some (Num.sub (Num.of_Z (rw_created_at row')) (Num.of_Z (rw_created_at row))).
Proof.
  intros (t & Ht & Hp & Hne)%iso_roundtrip (t' & Ht' & Hp' & _)%iso_roundtrip He He'. unfold rowToEvent in He, He'. rewrite Ht in He. rewrite Ht' in He'. cbn [mbind result_bind] in He, He'.
  injection He as He. injection He' as He'. repeat match goal with H : (position _ ≫= _) = Some _ |- _ => apply bind_Some in H as (? & _ & H) end. injection He as <-. injection He' as <-. cbn [created_at].
  unfold elapsed, date_parse. destruct t; [done|]. cbn [truthy]. by rewrite Hp, Hp'.
Qed.

Definition sample_row (seq ms : Z) (t : EventType) : EventRow :=
  {| rw_run_id := VStr "r1"; rw_run_seq := VStr (zstr seq); rw_global_seq := VStr (zstr (seq + 9)); rw_event_type := VStr (event_name t); rw_vertex_id := VStr "v1"; rw_parent_refs := None;
     rw_planner_id := VNull; rw_scope_id := VStr ""; rw_pin_version := VNull; rw_ignorable := VBool false; rw_inherited := VBool false; rw_payload := []; rw_created_at := ms |}.

Example sample_rows :
  match rowToEvent (sample_row 4 1709209845678 vertex_started) with Ok (Some e) => Some (run_seq e, vertex_id e, parent_refs e, scope_id e, created_at e) | _ => None end =
  Some (4, Some "v1", [], None, "2024-02-29T12:30:45.678Z").
Proof. vm_compute. reflexivity. Qed.
