(* ===== verification/Generate.v ===== *)
(** * The generated vocabulary (scripts/generate-event-types.mjs)

    The generator of the event types and payload structs that the engine (TypeScript) and the Coordinator
    (Go) share: the parts of the schema it reads, the two texts it renders, and its two modes, which write
    the files or compare them. Files are a map from paths to texts; a write may fail. *)

From S2P Require Import Prelude Collections Number Json JsonParse JsText Events Console ConsoleWire.

(** ** What it reads of the schema *)

(** [v[0]] *)
Definition first (v : value) : result value :=
  match v with
  | VUndef | VNull => Throw "Cannot read properties of undefined (reading '0')"
  | VArr (x :: _) => Ok x
  | VStr (String c _) => Ok (VStr (String c ""))
  | VObj o => Ok (Js.field o "0")
  | _ => Ok VUndef
  end.

(** [v.k1.k2...] *)
Definition path (v : value) (keys : list string) : result value := foldM access v keys.

(** [schema.allOf[0].if.properties.event_type.not.enum] *)
Definition eventTypesOf (schema : value) : result value :=
  rules ← access schema "allOf";
  rule ← first rules;
  path rule ["if"; "properties"; "event_type"; "not"; "enum"].

Definition substitutionFieldsOf (schema : value) : result value :=
  path schema ["$defs"; "forkRequest"; "properties"; "substitutions"; "items"; "required"].

(** [v.includes('run_seq')], of an array or of a text *)
Definition requiresRunSeq (v : value) : result bool :=
  match v with
  | VArr fields => Ok (existsb (Js.strict_eq (VStr "run_seq")) fields)
  | VStr s => Ok (occurs "run_seq" s)
  | VUndef | VNull => Throw "Cannot read properties of undefined (reading 'includes')"
  | _ => Throw "substitutionFields.includes is not a function"
  end.

(** [eventTypes.map(...)]: each type as the template prints it. *)
Definition typeNames (v : value) : result (list string) :=
  match v with
  | VArr types => Ok (map Js.to_text types)
  | VUndef | VNull => Throw "Cannot read properties of undefined (reading 'map')"
  | _ => Throw "eventTypes.map is not a function"
  end.

(** ** The two texts *)
Definition typeLine (name : string) : string := "    '" +:+ name +:+ "',".

Definition ts_opening : list string :=
  ["// Generated from idl/event-log.schema.json. Do not edit.";
   "export const EVENT_TYPES = ["].

Definition ts_closing : list string :=
  ["] as const;";
   "export type EventType = (typeof EVENT_TYPES)[number];";
   "export type FoldMode = 'recorded' | 'model-live' | 'reads-live';";
   "export type EffectClass = 'none' | 'bufferable' | 'reversible' | 'irreversible';";
   "export type TransactionMode = 'plain' | 'tcc' | 'saga';";
   "export interface RetryPolicy {";
   "    max_attempts: number;";
   "    initial_backoff_ms: number;";
   "    multiplier: number;";
   "    max_backoff_ms: number;";
   "}";
   "export interface AuthorizationIdentity {";
   "    version: '1';";
   "    key_id: string;";
   "    issuer: string;";
   "    subject: string;";
   "    roles: string[];";
   "    subject_revision: number;";
   "    run_id: string;";
   "    authenticated_at: string;";
   "    signature: string;";
   "}";
   "export interface TransactionSpec {";
   "    effect_class: EffectClass;";
   "    mode: TransactionMode;";
   "    idempotency_key?: string;";
   "    try_timeout_s?: number;";
   "    confirm_tool?: string;";
   "    cancel_tool?: string;";
   "    compensate_tool?: string;";
   "    status_tool?: string;";
   "}";
   "export interface RouterVertexPayload {";
   "    role: 'router';";
   "    origin: 'declared' | 'interposed';";
   "    template_ref?: string;";
   "    slot_id?: string;";
   "    placement?: 'at_savepoint' | 'inside_scope';";
   "}";
   "";
   "export interface ToolVertexPayload {";
   "    role: 'tool';";
   "    tool: string;";
   "    tool_version: string;";
   "    tool_view_digest: string;";
   "    input: Record<string, unknown>;";
   "    retry_policy: RetryPolicy;";
   "    txn: TransactionSpec;";
   "}";
   "export interface SubgraphProposedPayload {";
   "    tool_view_ref: string;";
   "    tool_view_digest: string;";
   "}";
   "export type LlmProtocol = 'openai-chat-completions' | 'anthropic-messages';";
   "export interface LlmUsage {";
   "    input_tokens: number;";
   "    output_tokens: number;";
   "    total_tokens: number;";
   "    reasoning_tokens: number;";
   "    cache_hit_input_tokens: number;";
   "    cache_miss_input_tokens: number;";
   "}";
   "export interface LlmCostEstimate {";
   "    currency: string;";
   "    amount: number;";
   "    pricing_ref: string;";
   "    pricing_tier?: string;";
   "    rates_per_million: {cache_hit_input: number; cache_miss_input: number; output: number};";
   "}";
   "export interface BudgetChargedPayload {";
   "    category: 'llm';";
   "    provider: string;";
   "    protocol: LlmProtocol;";
   "    endpoint: string;";
   "    requested_model: string;";
   "    response_model: string;";
   "    duration_ms: number;";
   "    usage: LlmUsage;";
   "    estimated_cost?: LlmCostEstimate;";
   "}";
   "export interface ForkSubstitution {";
   "    run_seq: number;";
   "    pin_version: string;";
   "}";
   "export interface ForkRequest {";
   "    source_run_id: string;";
   "    at_vertex_id: string;";
   "    substitutions: ForkSubstitution[];";
   "    eval_up_to_seq: number;";
   "    fold_mode: FoldMode;";
   "    evaluator_pin: string;";
   "    projector_version: string;";
   "    harness_state_version: string;";
   "}"].

Definition ts (names : list string) : string := join newline (ts_opening ++ map typeLine names ++ ts_closing) +:+ newline.

(** Lines of Go are written with [^] for a double quote and [~] for a tab; the source has neither. *)
Fixpoint go_line (s : string) : string :=
  match s with
  | "" => ""
  | String c t => String (if c ==? "^"%char then ascii_of_nat 34 else if c ==? "~"%char then ascii_of_nat 9 else c) (go_line t)
  end.

Definition go_lines : list string :=
  ["// Code generated from idl/event-log.schema.json; DO NOT EDIT.";
   "package generated";
   "";
   "type FoldMode string";
   "type EffectClass string";
   "type TransactionMode string";
   "";
   "const (";
   "~FoldModeRecorded  FoldMode = ^recorded^";
   "~FoldModeModelLive FoldMode = ^model-live^";
   "~FoldModeReadsLive FoldMode = ^reads-live^";
   ")";
   "";
   "const (";
   "~EffectNone         EffectClass = ^none^";
   "~EffectBufferable   EffectClass = ^bufferable^";
   "~EffectReversible   EffectClass = ^reversible^";
   "~EffectIrreversible EffectClass = ^irreversible^";
   ")";
   "";
   "const (";
   "~ModePlain TransactionMode = ^plain^";
   "~ModeTCC   TransactionMode = ^tcc^";
   "~ModeSaga  TransactionMode = ^saga^";
   ")";
   "";
   "type RetryPolicy struct {";
   "~MaxAttempts      int     `json:^max_attempts^`";
   "~InitialBackoffMS int64   `json:^initial_backoff_ms^`";
   "~Multiplier       float64 `json:^multiplier^`";
   "~MaxBackoffMS     int64   `json:^max_backoff_ms^`";
   "}";
   "";
   "type AuthorizationIdentity struct {";
   "~Version string `json:^version^`";
   "~KeyID string `json:^key_id^`";
   "~Issuer string `json:^issuer^`";
   "~Subject string `json:^subject^`";
   "~Roles []string `json:^roles^`";
   "~SubjectRevision int64 `json:^subject_revision^`";
   "~RunID string `json:^run_id^`";
   "~AuthenticatedAt string `json:^authenticated_at^`";
   "~Signature string `json:^signature^`";
   "}";
   "";
   "type TransactionSpec struct {";
   "~EffectClass    EffectClass     `json:^effect_class^`";
   "~Mode           TransactionMode `json:^mode^`";
   "~IdempotencyKey string          `json:^idempotency_key,omitempty^`";
   "~TryTimeoutS    int64           `json:^try_timeout_s,omitempty^`";
   "~ConfirmTool    string          `json:^confirm_tool,omitempty^`";
   "~CancelTool     string          `json:^cancel_tool,omitempty^`";
   "~CompensateTool string          `json:^compensate_tool,omitempty^`";
   "~StatusTool     string          `json:^status_tool,omitempty^`";
   "~// Frozen by the engine from the mapping the tool declared. A companion is called";
   "~// with these and never with the try's own arguments: it acts on the identity of what";
   "~// was reserved, so its schema is usually narrower and would refuse them.";
   "~ConfirmInput    map[string]interface{} `json:^confirm_input,omitempty^`";
   "~CancelInput     map[string]interface{} `json:^cancel_input,omitempty^`";
   "~CompensateInput map[string]interface{} `json:^compensate_input,omitempty^`";
   "}";
   "";
   "type RouterVertexPayload struct {";
   "~Role        string `json:^role^`";
   "~Origin      string `json:^origin^`";
   "~TemplateRef string `json:^template_ref,omitempty^`";
   "~SlotID      string `json:^slot_id,omitempty^`";
   "~Placement   string `json:^placement,omitempty^`";
   "}";
   "";
   "type ToolVertexPayload struct {";
   "~Role           string                 `json:^role^`";
   "~Tool           string                 `json:^tool^`";
   "~ToolVersion    string                 `json:^tool_version^`";
   "~ToolViewDigest string                 `json:^tool_view_digest^`";
   "~Input          map[string]interface{} `json:^input^`";
   "~RetryPolicy    RetryPolicy            `json:^retry_policy^`";
   "~Txn            TransactionSpec        `json:^txn^`";
   "}";
   "";
   "type SubgraphProposedPayload struct {";
   "~ToolViewRef    string `json:^tool_view_ref^`";
   "~ToolViewDigest string `json:^tool_view_digest^`";
   "}";
   "";
   "type LLMUsage struct {";
   "~InputTokens          int64 `json:^input_tokens^`";
   "~OutputTokens         int64 `json:^output_tokens^`";
   "~TotalTokens          int64 `json:^total_tokens^`";
   "~ReasoningTokens      int64 `json:^reasoning_tokens^`";
   "~CacheHitInputTokens  int64 `json:^cache_hit_input_tokens^`";
   "~CacheMissInputTokens int64 `json:^cache_miss_input_tokens^`";
   "}";
   "";
   "type LLMRatesPerMillion struct {";
   "~CacheHitInput  float64 `json:^cache_hit_input^`";
   "~CacheMissInput float64 `json:^cache_miss_input^`";
   "~Output         float64 `json:^output^`";
   "}";
   "";
   "type LLMCostEstimate struct {";
   "~Currency        string             `json:^currency^`";
   "~Amount          float64            `json:^amount^`";
   "~PricingRef      string             `json:^pricing_ref^`";
   "~PricingTier     string             `json:^pricing_tier,omitempty^`";
   "~RatesPerMillion LLMRatesPerMillion `json:^rates_per_million^`";
   "}";
   "";
   "type BudgetChargedPayload struct {";
   "~Category       string           `json:^category^`";
   "~Provider       string           `json:^provider^`";
   "~Protocol       string           `json:^protocol^`";
   "~Endpoint       string           `json:^endpoint^`";
   "~RequestedModel string           `json:^requested_model^`";
   "~ResponseModel  string           `json:^response_model^`";
   "~DurationMS     float64          `json:^duration_ms^`";
   "~Usage          LLMUsage         `json:^usage^`";
   "~EstimatedCost  *LLMCostEstimate `json:^estimated_cost,omitempty^`";
   "}";
   "";
   "type ForkSubstitution struct {";
   "~RunSeq     int64  `json:^run_seq^`";
   "~PinVersion string `json:^pin_version^`";
   "}";
   "";
   "type ForkRequest struct {";
   "~SourceRunID         string             `json:^source_run_id^`";
   "~AtVertexID          string             `json:^at_vertex_id^`";
   "~Substitutions       []ForkSubstitution `json:^substitutions^`";
   "~EvalUpToSeq         int64              `json:^eval_up_to_seq^`";
   "~FoldMode            FoldMode           `json:^fold_mode^`";
   "~EvaluatorPin        string             `json:^evaluator_pin^`";
   "~ProjectorVersion    string             `json:^projector_version^`";
   "~HarnessStateVersion string             `json:^harness_state_version^`";
   "}"].

Definition go : string := join newline (map go_line go_lines) +:+ newline.

(** ** The run *)
Abbreviation files := (list (string * string)).
Definition ts_target : string := "engine/src/generated/event-log.ts".
Definition go_target : string := "coordinator/internal/eventlog/generated/event_log.go".

Definition outputs (schema : value) : result (list (string * string)) :=
  types ← eventTypesOf schema;
  fields ← substitutionFieldsOf schema;
  required ← requiresRunSeq fields;
  if negb required then Throw "idl forkRequest substitutions must require run_seq; generated types and the IDL have drifted"
  else names ← typeNames types;
       Ok [(ts_target, ts names); (go_target, go)].

Section Run.
(** Whether the process may write a file. *)
Variable writable : string -> bool.
Variable check : bool.

(** One target: compared, and written unless only checking. *)
Definition emit (s : bool * files) (output : string * string) : result (bool * files) :=
  let mismatch := fst s || negb (JMap.get (snd s) (fst output) ==? Some (snd output)) in
  if check then Ok (mismatch, snd s)
  else if writable (fst output) then Ok (mismatch, JMap.set (snd s) (fst output) (snd output))
  else Throw ("EACCES: permission denied, open " +:+ fst output).

(** The targets in turn: what was written before a failure stays. *)
Fixpoint emitAll (s : bool * files) (outs : list (string * string)) : result bool * files :=
  match outs with
  | [] => (Ok (fst s), snd s)
  | o :: outs => match emit s o with Ok s' => emitAll s' outs | Throw e => (Throw e, snd s) end
  end.

Definition generate (schema : value) (on_disk : files) : result unit * files :=
  match outputs schema with
  | Throw e => (Throw e, on_disk)
  | Ok outs => let '(r, after) := emitAll (false, on_disk) outs in
               (mismatch ← r; if check && mismatch then Throw "generated event types are stale; run npm run generate" else Ok tt, after)
  end.
End Run.

(** ** Checking and writing *)
Lemma emitAll_check s outs : emitAll (fun _ => false) true s outs = (Ok (fst s || negb (forallb (fun o => JMap.get (snd s) (fst o) ==? Some (snd o)) outs)), snd s).
Proof.
  revert s. induction outs as [|o outs IH]; intros [b fs]; cbn [emitAll emit fst snd forallb]; [by rewrite orb_false_r|].
  rewrite IH. cbn [fst snd]. rewrite negb_andb. by rewrite orb_assoc.
Qed.

Lemma emitAll_reads writable writable' s outs : emitAll writable true s outs = emitAll writable' true s outs.
Proof. revert s. induction outs as [|o outs IH]; intros s; cbn [emitAll emit]; [done|apply IH]. Qed.

Lemma emitAll_write writable s outs b fs' : NoDup (map fst outs) -> emitAll writable false s outs = (Ok b, fs') ->
  (forall p v, (p, v) ∈ outs -> JMap.get fs' p = Some v) /\ (forall p, p ∉ map fst outs -> JMap.get fs' p = JMap.get (snd s) p).
Proof.
  revert s. induction outs as [|[p v] outs IH]; intros [m fs] Hnd; cbn [emitAll emit fst snd map]; [intros [= _ <-]; split; [set_solver|done]|].
  apply NoDup_cons in Hnd as [Hp Hnd]. destruct (writable p); [|done]. intros H. destruct (IH _ Hnd H) as [H1 H2]. cbn [snd] in H2. split.
  - intros q u [[= -> ->]|Hin]%elem_of_cons; [|by apply H1]. rewrite H2 by done. apply get_set_eq.
  - intros q Hq. rewrite H2 by set_solver. apply get_set_ne. set_solver.
Qed.

Lemma outputs_targets schema outs : outputs schema = Ok outs -> map fst outs = [ts_target; go_target].
Proof.
  unfold outputs. intros (types & _ & H)%bind_Ok. apply bind_Ok in H as (fields & _ & H). apply bind_Ok in H as (required & _ & H). destruct required; [|done]. cbn [negb] in H.
  apply bind_Ok in H as (names & _ & H). by injection H as <-.
Qed.

(** A check changes nothing and passes exactly when both files hold what would be written. *)
Lemma check_exact writable schema fs : exists r, generate writable true schema fs = (r, fs) /\
  (r = Ok tt <-> exists outs, outputs schema = Ok outs /\ forall p v, (p, v) ∈ outs -> JMap.get fs p = Some v).
Proof.
  unfold generate. destruct (outputs schema) as [outs|e] eqn:Eo; [|eexists; split; [done|]; naive_solver].
  rewrite (emitAll_reads _ (fun _ => false)), emitAll_check. cbn [fst snd orb andb mbind result_bind]. eexists. split; [done|].
  assert (forallb (fun o : string * string => JMap.get fs (fst o) ==? Some (snd o)) outs = true <-> forall p v, (p, v) ∈ outs -> JMap.get fs p = Some v) as Hall.
  { rewrite forallb_forall. setoid_rewrite <- list_elem_of_In. setoid_rewrite eqb_true. split; [intros H p v Hin; apply (H (p, v) Hin)|intros H [p v] Hin; by apply H]. }
  destruct (forallb _ outs) eqn:Ef; cbn [negb]; (split; [intros [=]|]).
  - exists outs. split; [done|]. by apply Hall.
  - done.
  - intros (outs' & [= <-] & Hs). apply Hall in Hs. congruence.
Qed.

(** ** Reading the vocabulary back *)

(** The characters of a name that a quoted literal can hold as they are. *)
Definition literal_char (c : ascii) : bool := (c !=? "'"%char) && (c !=? "\"%char) && line_char c.
Abbreviation literal s := (all_chars literal_char s = true).

(** What a quoted literal holds, up to its closing quote, and what follows. *)
Fixpoint until_quote (s : string) : option (string * string) :=
  match s with
  | "" => None
  | String c t => if c ==? "'"%char then Some ("", t)
                  else if c ==? "\"%char then None
                  else '(v, rest) ← until_quote t; Some (String c v, rest)
  end.

Definition read_name (line : string) : option string :=
  if starts_with "    '" line then '(name, rest) ← until_quote (drop_str 5 line); if rest ==? "," then Some name else None else None.

(** The members of the array: up to the line that closes it. *)
Fixpoint read_names (lines : list string) : option (list string) :=
  match lines with
  | [] => None
  | line :: lines => if line ==? "] as const;" then Some [] else name ← read_name line; names ← read_names lines; Some (name :: names)
  end.

Fixpoint read_types (lines : list string) : option (list string) :=
  match lines with
  | [] => None
  | line :: lines => if line ==? "export const EVENT_TYPES = [" then read_names lines else read_types lines
  end.

Definition lines_of (text : string) : list string := Js.split_char (ascii_of_nat 10) text.

Lemma lines_join ls : ls <> [] -> Forall (fun l => one_line l) ls -> lines_of (join newline ls +:+ newline) = ls ++ [""].
Proof.
  unfold lines_of. intros Hne HF. induction HF as [|l ls Hl HF IH]; [done|]. destruct ls as [|l' ls].
  - cbn [join]. change newline with (newline +:+ ""). by rewrite split_line.
  - change (join newline (l :: l' :: ls)) with (l +:+ newline +:+ join newline (l' :: ls)). rewrite !sapp_assoc, split_line by done. by rewrite IH.
Qed.

Lemma until_quote_literal s t : literal s -> until_quote (s +:+ String "'" t) = Some (s, t).
Proof.
  induction s as [|c s IH]; cbn [all_chars]; [done|]. intros [Hc Hs]%andb_true_iff. rewrite sapp_cons. cbn [until_quote].
  unfold literal_char in Hc. apply andb_true_iff in Hc as [[H1 H2]%andb_true_iff _]. apply negb_true_iff in H1, H2. rewrite H1, H2. by rewrite (IH Hs).
Qed.

Lemma read_name_line name : literal name -> read_name (typeLine name) = Some name.
Proof. intros H. unfold read_name, typeLine. cbn [starts_with]. change (drop_str 5 ("    '" +:+ name +:+ "',")) with (name +:+ "',"). by rewrite (until_quote_literal name "," H). Qed.

Lemma typeLine_one_line name : literal name -> one_line (typeLine name).
Proof. intros H. unfold typeLine. rewrite ?all_chars_app. rewrite (all_chars_impl literal_char line_char name); [done| |done]. intros c. unfold literal_char. by intros [_ ?]%andb_true_iff. Qed.

Lemma read_names_lines names rest : Forall (fun n => literal n) names -> read_names (map typeLine names ++ "] as const;" :: rest) = Some names.
Proof.
  induction 1 as [|n ns Hn HF IH]; [done|]. cbn [map app read_names]. rewrite (read_name_line n Hn). cbn [mbind option_bind]. by rewrite IH.
Qed.

Lemma ts_closing_one_line : Forall (fun l => one_line l) ts_closing.
Proof. repeat constructor. Qed.

Lemma ts_lines names : Forall (fun n => literal n) names -> lines_of (ts names) = (ts_opening ++ map typeLine names ++ ts_closing) ++ [""].
Proof.
  intros HF. unfold ts. apply lines_join; [done|]. apply Forall_app. split; [repeat constructor|]. apply Forall_app. split; [|apply ts_closing_one_line].
  apply Forall_map. eapply Forall_impl; [exact HF|]. apply typeLine_one_line.
Qed.

(** The vocabulary the engine compiles against is the one the schema lists. *)
Lemma ts_reads_back names : Forall (fun n => literal n) names -> read_types (lines_of (ts names)) = Some names.
Proof. intros HF. rewrite ts_lines by done. unfold ts_opening, ts_closing. rewrite <- !(assoc (++)). cbn [app read_types]. by apply read_names_lines. Qed.

(** The generator in both modes. A generation that succeeds leaves files a check accepts, changes no other
    file, and the engine's file reads back as the event types of the schema, in their order. *)
Theorem generated_current writable writable' schema fs fs' :
  generate writable false schema fs = (Ok tt, fs') ->
  generate writable' true schema fs' = (Ok tt, fs') /\
  (forall p, p ∉ [ts_target; go_target] -> JMap.get fs' p = JMap.get fs p) /\
  exists types, eventTypesOf schema = Ok (VArr types) /\
    (Forall (fun n => literal n) (map Js.to_text types) -> exists text, JMap.get fs' ts_target = Some text /\ read_types (lines_of text) = Some (map Js.to_text types)).
Proof.
  intros H. pose proof (check_exact writable' schema fs') as (r & -> & Hr). unfold generate in H. destruct (outputs schema) as [outs|e] eqn:Eo; [|done].
  destruct (emitAll writable false (false, fs) outs) as [[b|e] after] eqn:Ea; [|done]. injection H as <-. pose proof (outputs_targets _ _ Eo) as Ht.
  apply emitAll_write in Ea as [H1 H2]; [|rewrite Ht; by apply (bool_decide_eq_true_1 _)]. rewrite Ht in H2. split_and!.
  - f_equal. apply Hr. by exists outs.
  - exact H2.
  - unfold outputs in Eo. apply bind_Ok in Eo as (types & Et & Eo). apply bind_Ok in Eo as (fields & _ & Eo). apply bind_Ok in Eo as (required & _ & Eo). destruct required; [|done]. cbn [negb] in Eo.
    apply bind_Ok in Eo as (names & En & Eo). injection Eo as <-. destruct types as [| | | | |types|]; try done. injection En as <-. exists types. split; [done|].
    intros HF. exists (ts (map Js.to_text types)). split; [apply H1; left|by apply ts_reads_back].
Qed.

(** ** One contract in two languages *)

(** A text up to the first occurrence of a character. *)
Fixpoint before (stop : ascii) (s : string) : string := match s with "" => "" | String c t => if c ==? stop then "" else String c (before stop t) end.

(** What follows the first occurrence of a text. *)
Fixpoint behind (mark s : string) : option string :=
  if starts_with mark s then Some (drop_str (String.length mark) s) else match s with "" => None | String _ t => behind mark t end.

(** A field and whether it may be left out: [name?: T;] in TypeScript, [Name T `json:"name,omitempty"`] in Go. *)
Definition ts_field (line : string) : option (string * bool) :=
  if starts_with "    " line then let name := before ":" (drop_str 4 line) in Some (before "?" name, before "?" name !=? name) else None.

Definition go_field (line : string) : option (string * bool) :=
  tag ← behind (go_line "`json:^") line;
  Some (before "," (before (ascii_of_nat 34) tag), occurs ",omitempty" tag).

(** The declarations of a text: a line that opens one, and its fields to the line that closes it. *)
Section Declarations.
Variable opens : string -> option string.
Variable field : string -> option (string * bool).

Fixpoint declarations (current : option (string * list (string * bool))) (lines : list string) : list (string * list (string * bool)) :=
  match lines with
  | [] => []
  | line :: lines =>
      match current with
      | Some (name, fields) => if line ==? "}" then (name, fields) :: declarations None lines
                               else declarations (Some (name, match field line with Some f => fields ++ [f] | None => fields end)) lines
      | None => declarations ((fun name => (name, [])) <$> opens line) lines
      end
  end.
End Declarations.

Definition named_by (opening closing line : string) : option string :=
  rest ← (if starts_with opening line then behind opening line else None); if rest ==? (before " " rest +:+ closing) then Some (before " " rest) else None.

Definition interfaces (names : list string) : list (string * list (string * bool)) :=
  declarations (named_by "export interface " " {") ts_field None (lines_of (ts names)).
Definition structs : list (string * list (string * bool)) := declarations (named_by "type " " struct {") go_field None (lines_of go).

(** A struct is named as its interface, with the initialism in capitals. *)
Definition go_name (name : string) : string := if starts_with "Llm" name then "LLM" +:+ drop_str 3 name else name.

(** The parts of idl/event-log.schema.json the generator reads. *)
Definition idl : value :=
  VObj [("allOf", VArr [VObj [("if", VObj [("properties", VObj [("event_type", VObj [("not", VObj [("enum", VArr (map (VStr ∘ event_name) EVENT_TYPES))])])])])]]);
        ("$defs", VObj [("forkRequest", VObj [("properties", VObj [("substitutions", VObj [("items", VObj [("required", VArr [VStr "run_seq"; VStr "pin_version"])])])])])])].

Lemma declarations_types names rest : declarations (named_by "export interface " " {") ts_field None (map typeLine names ++ rest) = declarations (named_by "export interface " " {") ts_field None rest.
Proof. by induction names. Qed.

(** The interfaces do not depend on the vocabulary. *)
Lemma interfaces_closed names : Forall (fun n => literal n) names -> interfaces names = declarations (named_by "export interface " " {") ts_field None (ts_closing ++ [""]).
Proof. intros HF. unfold interfaces. rewrite ts_lines by done. unfold ts_opening. rewrite <- !(assoc (++)). cbn [app declarations]. apply declarations_types. Qed.

(** Every interface of the engine has the fields of the Coordinator's struct, in their order and with the
    same ones optional, but for the transaction of a tool: there the struct goes on with the three inputs
    of the companions, which the interface does not declare. *)
Theorem contracts_agree names : Forall (fun n => literal n) names ->
  filter_by (fun '(name, fields) => negb (JMap.get structs (go_name name) ==? Some fields)) (interfaces names) =
    [("TransactionSpec", [("effect_class", false); ("mode", false); ("idempotency_key", true); ("try_timeout_s", true);
                          ("confirm_tool", true); ("cancel_tool", true); ("compensate_tool", true); ("status_tool", true)])] /\
  JMap.get structs "TransactionSpec" = Some ([("effect_class", false); ("mode", false); ("idempotency_key", true); ("try_timeout_s", true);
                          ("confirm_tool", true); ("cancel_tool", true); ("compensate_tool", true); ("status_tool", true)] ++
                         [("confirm_input", true); ("cancel_input", true); ("compensate_input", true)]).
Proof. intros HF. rewrite interfaces_closed by done. split; vm_compute; reflexivity. Qed.

(** The shipped schema: the first generation writes both files, and what the engine reads back is the
    vocabulary its log is typed with. *)
Definition generated : files := snd (generate (fun _ => true) false idl []).

Lemma generated_current_witness :
  generate (fun _ => true) false idl [] = (Ok tt, generated) /\ generate (fun _ => false) true idl generated = (Ok tt, generated) /\
  (JMap.get generated ts_target ≫= read_types ∘ lines_of) = Some (map event_name EVENT_TYPES).
Proof.
  assert (generate (fun _ => true) false idl [] = (Ok tt, generated)) as H by (vm_compute; reflexivity).
  split; [exact H|]. destruct (generated_current _ (fun _ => false) _ _ _ H) as (Hc & _). split; [exact Hc|]. vm_compute. reflexivity.
Defined.

(** A schema whose substitutions are named otherwise is refused before anything is written. *)
Example renamed_substitution :
  generate (fun _ => true) false (VObj [("allOf", VArr [VObj [("if", VObj [("properties", VObj [("event_type", VObj [("not", VObj [("enum", VArr [])])])])])]]);
        ("$defs", VObj [("forkRequest", VObj [("properties", VObj [("substitutions", VObj [("items", VObj [("required", VArr [VStr "seq"; VStr "pin_version"])])])])])])]) [] =
  (Throw "idl forkRequest substitutions must require run_seq; generated types and the IDL have drifted", []).
Proof. reflexivity. Qed.
